(* ===== verification/_CoqProject ===== *)
-Q . S2P
Prelude.v
GoErrors.v
ClientTypes.v
ClientErrors.v
GoURL.v
CSIFence.v
CSIDetachAuthority.v
Prog.v
CSIAdapter.v
CSIRecovery.v
CSIVolumes.v
CSISpecs.v
CSIReadback.v
CSISafety.v
CSIRetention.v
CSITermination.v
CSIWorld.v
CSICorrectness.v
CSIResults.v
KeyedMutex.v
CSIDriver.v
CSIDriverSpec.v
CSILink.v
KubernetesFence.v
KubernetesFenceSpec.v
KubernetesWire.v
KubernetesServer.v
KubernetesRefinement.v
KubernetesPool.v
KubernetesReference.v
GoJSON.v
GoNet.v
ClientJSON.v
ClientResources.v
GoHTTP.v
ClientTransport.v
ClientEndpoints.v
ClientFloatingIP.v
NodeFirewall.v
ClientWire.v
ClientRoutes.v
ClientCalls.v
ClientPromises.v
ClientSafety.v
ClientFloatingSafety.v
ClientTheorems.v
NodeFirewallSpec.v
CSIWire.v
KubernetesTransport.v
CSIMissingNode.v
CSIMissingNodeSpec.v
KubeService.v
ShardPlanner.v
ShardPlannerSpec.v
ShardFirewall.v
ShardFirewallSpec.v
ShardState.v
ShardSafety.v
ShardWorld.v
RelationFence.v
RelationFenceSpec.v
CreateFence.v
CreateFenceDecode.v
CreateFenceSteps.v
CreateFenceEncoding.v
CreateFenceSpec.v
CreateFenceLifecycle.v
ProviderActions.v
RemovalFence.v
FirewallSlot.v
CreateFenceStore.v
RemovalStore.v
CreateFenceController.v
CreateFenceWrites.v
CreateFencePool.v
CreateFenceRelease.v
MutationAuthority.v
CreateFenceTermination.v
ProviderWorld.v
CSIFindings.v
