(* ===== verification/Prelude.v ===== *)
(** * InSpace Cloud Kubernetes modules: a verification library

    The repository holds four Go modules under src/modules: client (the SDK of the InSpace REST
    API), csi-driver (block volumes), karpenter-provider (worker VMs) and cloud-provider (load
    balancers, firewalls and cluster bootstrap). This library models the client
    module, the CSI driver from the gRPC handlers down to the HTTP requests the client sends for it,
    the durable fences of the Karpenter provider with the controller that releases them, and the planner
    and the shard firewalls of the cloud provider's node load balancers, with their attachment to VMs. It proves what keeps volumes,
    worker VMs and public ports safe: every paid or destructive request is authorised by fresh reads and
    an exclusive durable fence or receipt, which outlives every request whose outcome is unknown, and the
    handlers work on the volume, location and Services they were asked for.

    ** How the program is put together

    An RPC (pkg/driver) validates its request, resolves the volume handle and calls one method of
    cloud.Interface. The adapter (pkg/cloud/inspace) implements the methods: it reads the cloud,
    takes a lock on the VM and a durable fence on the disk, reads again, dispatches one mutation and
    then reads until the outcome is known, after which it completes the fence. The fence store is
    either in memory or one Kubernetes Lease per fence. Node RPCs call host.Mounter.

    The Karpenter provider keeps what it did for a NodeClaim in annotations of the NodeClaim itself:
    the create fence (one VM create, its receipts, its outcome), the receipt of a floating IP's
    update and the journal of removals. Firewalls, which NodeClaims share, have one slot each in a
    ledger Lease. The store of pkg/provider (create_fence.go, removal_mutation_fence.go,
    firewall_mutation_slot.go) changes them by reading, updating on the resource version and reading
    back. Its callers are the provider, the cloud adapter through callbacks, and the create-protection
    controller (create_fence_controller.go), which holds a finalizer until a cloud audit shows that
    nothing of the create is left.

    The client (modules/client) is the only way to the InSpace API. A method checks its arguments,
    builds one request, passes it through the transport (client.go: the mutation gate, the redirect
    rules, the size and content rules of responses) and decodes the answer against the contract of
    its endpoint (types.go, endpoints.go, floating_ip.go); some methods read further to corroborate it.

    The cloud provider serves a LoadBalancer Service of the node class from shards: groups of public nodes
    with one NodePool and one firewall. A Service is parsed into an intent, the planner assigns intents to
    shards (node_loadbalancer_controller.go), and the Services staged for a shard determine the rules of its
    firewall (node_loadbalancer_shard_firewall.go). The reconciler (node_loadbalancer_shard_state.go) keeps
    the receipt of the one outstanding mutation in annotations of the NodePool: it stages a policy, issues
    it, asks for the authority, calls the cloud and commits what it reads back. Firewalls are attached to VMs the
    same way (node_loadbalancer_firewall_relation_fence.go), with a receipt on the Service, NodePool or NodeClass
    that owns the firewall.

    Nothing in the repository determines what the cloud, Kubernetes, the host, the clock or other
    controllers answer. A method is therefore a program (file Prog): a tree of actions, each
    continued by a function of the answer. [exec] is the set of all executions, crashes included;
    [dispatches p G] says that whenever an execution of [p] performs an action, [G] holds of the
    action and of everything that happened before; [ensures] is partial correctness; [total] is
    termination. Theorems so cover stale, inconsistent and failing answers, and any interference
    between two calls.

    ** Files

    - Prelude: notation, tactics, hint databases, Go strings and 64-bit integers, the patterns of
      UUIDs and location labels.
    - GoErrors: error trees with errors.Is, errors.As and errors.Join.
    - ClientTypes, ClientErrors: src/modules/client/types.go (storage resources) and the
      error half of client.go (APIError, IsNotFound, IsTransient, exact-lookup binding).
    - GoNet: netip addresses, CIDR prefixes and their text; GoHTTP: requests, responses, redirects and
      URL escaping of net/http. ClientJSON: the duplicate-key scanner. ClientResources: the other
      resources and decoders of types.go. ClientTransport: NewClient, doJSON, doForm and do of client.go.
      ClientEndpoints, ClientFloatingIP: the methods of endpoints.go and floating_ip.go. NodeFirewall:
      the firewall policies of node_firewall.go, with NodeFirewallSpec.
    - ClientWire, ClientRoutes, ClientCalls: the methods as one type of calls, each with its row of the
      REST interface. ClientPromises, ClientSafety, ClientFloatingSafety: what each call keeps;
      ClientTheorems: the statements over all calls.
    - GoURL: net/url parsing, as far as volume handles and provider IDs use it.
    - Prog: programs, executions, weakest preconditions, framing.
    - CSIFence: mutation_fence.go and the data part of mutation_recovery.go; the store as an
      interface ([FenceStore]) with the in-memory store as its instance.
    - CSIDetachAuthority, CSIMissingNode: kubernetes_detach_authority.go, with CSIMissingNodeSpec,
      which ends with a run. KubernetesTransport: kubernetes.go and the requests of
      kubernetes_fence.go.
    - CSIAdapter: the actions, New, the pure checks and the authoritative reads of adapter.go,
      vm_lock.go and the contexts.
    - CSIRecovery: acquisition, reconciliation and absence loops of mutation_recovery.go.
    - CSIVolumes: the methods of adapter.go and expand.go.
    - KeyedMutex: keyed_mutex.go as a transition system of any number of goroutines.
    - CSIDriver: volume.go, driver.go, capabilities.go, controller.go, expand.go, node.go and
      identity.go of pkg/driver. CSILink replaces its cloud calls by the adapter's methods.
    - CSIWire: the controller RPCs, the adapter and the client as one program over HTTP exchanges.
    - KubernetesFence: kubernetes_fence.go; KubernetesWire: its JSON text round trips.
    - KubernetesServer: what the Lease store relies on of the Kubernetes API, as an interface
      ([LeaseServer]); KubernetesRefinement: each operation of the store takes effect at one of its
      requests, as the operation of the in-memory store, or not at all; KubernetesPool: any number
      of controllers at once; KubernetesReference: an API server that runs, as an instance.
    - GoJSON: struct codecs of encoding/json, with their round trip.
    - CreateFence, CreateFenceDecode, CreateFenceSteps: the records of create_fence.go and cloud.go,
      their readers, and the pure transitions of every writer. RemovalFence: the removal journal.
    - ProviderActions: NodeClaims, Leases and the Kubernetes calls. CreateFenceStore, RemovalStore,
      FirewallSlot: the operations of kubernetesCreateFenceStore in the three files named above.
    - CreateFenceController: Reconcile of create_fence_controller.go.
    - CreateFenceEncoding, CreateFenceSpec, CreateFenceLifecycle: well-formed records,
      and the life of a fence as a step relation. CreateFenceWrites, CreateFencePool: every write of
      the store is such a step, and many callers at once. CreateFenceRelease: the controller's patches.
      MutationAuthority: firewall slots and removals. CreateFenceTermination: request counts.
    - ProviderWorld: an API server that runs, for the Karpenter provider, and three
      executions in it that leave a record unreadable or lose a receipt.
    - KubeService: Services and parseNodeLoadBalancerService. ShardPlanner, ShardPlannerSpec: the planner.
      ShardFirewall, ShardFirewallSpec: the policy of a shard and its ledger. KubeService ends with the child Service of
      node_loadbalancer_reconciler.go. ShardState: node_loadbalancer_shard_state.go up to
      reconcileShardFirewallPolicy and the shard part of node_loadbalancer_create_rejection.go; ShardSafety
      proves its theorems, ShardWorld runs it in a cluster where it converges. RelationFence:
      node_loadbalancer_firewall_relation_fence.go, the limit of firewalls per VM, VPC membership and provider IDs;
      RelationFenceSpec proves its theorems and ends with a run.
    - CSISpecs, CSIReadback, CSISafety, CSIRetention, CSITermination, CSIResults,
      CSIDriverSpec, KubernetesFenceSpec: specifications and lemmas.
    - CSIWorld: a concrete codec and a small deterministic cloud, against which methods run.
    - CSICorrectness, CSIFindings, ClientTheorems and the ends of ClientJSON, NodeFirewallSpec, CSIWire,
      CSIResults, KeyedMutex, CSIDriverSpec, CSIMissingNodeSpec, ShardPlannerSpec, ShardFirewallSpec,
      ShardSafety, RelationFenceSpec, KubernetesWire, KubernetesPool, CreateFenceLifecycle, CreateFencePool,
      CreateFenceRelease, MutationAuthority and CreateFenceTermination: the theorems, numbered C1 to C40.

    ** What the theorems show

    - C1 to C5: what authorises each mutation of the adapter. C6 to C8: when a fence may be completed:
      the proof is about the intent that this very fence carries.
      C9: what has been read when the volume of a vanished node may be detached.
    - C10, C11: what authorises the create and the replacement of a shard firewall, and for which reasons one
      run of its reconciliation may write over an issued receipt, its own or that of an earlier run. C25, C26, C35: the planner's assignments are free of conflicts,
      stable under replanning, and are found. C27: the rules of a shard's firewall are exactly the ones of
      its Services, and, for Service UIDs of one length, its ledger tells which Services it covers.
    - C12, C13: what authorises the attachment of a firewall to a VM and its removal: a receipt written for
      exactly this attempt, the authority of the owner, and for a shard what was read of its NodePool, its Nodes,
      the VM and the firewalls of the VM.
    - C14: a controller RPC, followed down to the wire, sends only requests that the cloud mutations of
      C1 to C5 name, each at most once, to the endpoint of that mutation; the exchanges before the request
      are those of an execution of the adapter, and give the mutation its authority.
    - C15 to C18, C30: the client's calls. Each sends at most one mutation, the one of its row in
      the REST table; an error marked as not dispatched means that nothing was sent; success and absence
      were answered by the API itself, for the resource that was asked for; a floating IP is reported
      unassigned only on corroborated evidence.
    - C19, C21, C32: a create fence of the Karpenter store moves only by the steps of its life, also when
      any calls interleave; the authority to send the paid VM create is granted once; every step leaves a
      record that later readers accept, with one exception that is stated exactly.
    - C20: the Lease store, called concurrently by many controllers against an API server with
      optimistic concurrency, refines the atomic map of fences, the replies without a fence or an error
      included. C38: it reads back the ASCII text it wrote. KubernetesFenceSpec adds what one call does: it grants acquisition only to its own attempt and
      writes conditionally.
    - C22: the controller gives up the protection of a NodeClaim only after a cloud audit of it. C23, C24:
      a firewall's slot changes hands only after the audit of legacy owners, when the ledger read next has no slot or
      one whose owner is done; a removal is sent only under its own
      issue, read back from the journal.
    - C28: what the absence loops have established. C29, C39: the per-VM lock excludes, leaves no entry behind, and
      every goroutine inside can go on by itself. C31, C40: node mutations are guarded, sizes are exact at 64 bits.
    - C33, C34: the polling methods of the adapter and the calls of the Karpenter store return.
    - C36, C37: the text of a firewall policy identifies it, the duplicate-key scanner is exact.
    Further theorems without a number: fences are exclusive in any store that refines the atomic map and so
    in the cluster, a service firewall's name and ownership determine each other, a relation receipt reads back
    from its text and its reconciliation returns, the attachment scan reads every VM that could hold the disk, the CSI capacity contract and the volume handles,
    every call of the client returns, intents and observations round trip, the results of EnsureVolume and
    ExpandVolume, what IsNotFound and IsTransient mean, the missing-node authority only reads and returns, a
    replacement of shard rules keeps their identities, a volume's whole life, a shard firewall's and its attachment to a
    VM in the reference clouds, and the executions of CSIFindings, ProviderWorld and KubernetesReference in which a protocol misbehaves.

    ** Bounds and assumptions

    Polling loops run on fuel and end in [OutOfFuel] when it is spent. Safety theorems hold for every
    fuel; C33 shows that [iterations a window] (two per poll interval of the readback window, plus a
    constant) is enough when the clock is monotone and timers respect deadlines ([honest]); runs use
    200, which covers the default configuration. Integers that Go keeps in int or int64 are [Z] with
    [wrap64] where arithmetic could overflow. Times are nanoseconds. JSON and RFC 3339 text are
    classes ([JSONText], [TimeText]) whose only laws are the round trips the standard library
    documents; CSIWorld has instances. [UTCText] adds that a formatted UTC time is recognised as such and has no
    spaces or bars. The API server is a class too: its laws say that a write
    naming a resource version takes effect only on that version, that a creation needs a free name,
    that a successful answer shows what is stored, that a write answered 404 found no such object, and that an
    answer without an error has a status; errors promise nothing. SHA-256 is a
    parameter; only the name round trips of NodeFirewallSpec assume of it that its text is lower-case
    hexadecimal of the documented length. The client's typed decoding of JSON is a class ([JSONDecoder])
    without laws, values printed into messages are a class ([FmtText]), and errors of a foreign transport
    do not wrap the client's own sentinels (hypothesis [plain]). Results that Go returns beside a non-nil
    error are not kept.
    The retry loops of the Karpenter store have the bounds of the source (three, four or six attempts),
    so they need no fuel. C19 and C21 are about calls whose names are ASCII and whose clock has RFC 3339
    text, so that encoding/json reproduces records ([plain_call], [storable]), and about clusters in
    which clients other than the store leave the create-fence annotation alone; the patches of the
    create-protection controller are the subject of C22. Error
    messages keep their constant text; interpolated values, which no modelled code inspects, are
    dropped. A nil dereference is [Panic].
    The missing-node authority assumes that errors of the network and of files do not wrap the driver's own
    not-found sentinel ([foreign]). Its page loops have the limits of the source. The planner's search for a
    free shard name is unbounded in the source; here it has a number of attempts, and C35 shows that one more
    than the reserved names plus twice the Services is enough when the candidate names differ. utilvalidation's
    IsDNS1123Label, resource.ParseQuantity and the certificate pool are parameters; C27 assumes that a label
    has only lower-case letters, digits and dashes. The reconciliation of a relation calls itself; two passes are
    enough unless the delay is zero, which only tests configure.

    ** Not modelled

    The Linux mounter and the gRPC server: these are environment actions of the models. Of the Karpenter
    module: the in-memory create-fence store, which only tests construct, the cloud adapter, the CloudProvider
    methods of provider.go, the catalogue, cloud-init rendering and the command. Of the cloud provider: the
    rendering of NodePools, the assignment of shard firewalls to VMs, the controllers around the shard firewall
    (Services, aggregate, local, ICMP, per-VM firewalls), the standard load balancers, the cluster bootstrap and
    the commands. These parts are controllers of the same kind, over more resources. *)

From stdpp Require Export base decidable list gmap strings.
From Stdlib Require Export ZArith Lia Ascii String.

(** ** Notation and automation *)

Declare Scope go_scope.
Delimit Scope go_scope with go.
(** Go's [==] and [!=] on comparable values. *)
Notation "a == b" := (bool_decide (a = b)) (at level 70, no associativity) : go_scope.
Notation "a != b" := (negb (bool_decide (a = b))) (at level 70, no associativity) : go_scope.
#[global] Open Scope go_scope.
#[global] Open Scope Z_scope.

Create HintDb inspace discriminated.
#[export] Hint Constants Opaque : inspace.
#[export] Hint Variables Opaque : inspace.

(** Splits boolean conjunctions and turns boolean tests in the context into propositions. *)
Ltac bool_hyps :=
  repeat match goal with
  | H : _ && _ = true |- _ => apply andb_true_iff in H; destruct H
  | H : _ || _ = false |- _ => apply orb_false_iff in H; destruct H
  | H : negb _ = true |- _ => apply negb_true_iff in H
  | H : negb _ = false |- _ => apply negb_false_iff in H
  | H : bool_decide _ = true |- _ => apply bool_decide_eq_true in H
  | H : bool_decide _ = false |- _ => apply bool_decide_eq_false in H
  | H : (_ <=? _) = true |- _ => apply Z.leb_le in H
  | H : (_ <=? _) = false |- _ => apply Z.leb_gt in H
  | H : (_ <? _) = true |- _ => apply Z.ltb_lt in H
  | H : (_ <? _) = false |- _ => apply Z.ltb_ge in H
  | H : (_ =? _)%Z = true |- _ => apply Z.eqb_eq in H
  | H : (_ =? _)%Z = false |- _ => apply Z.eqb_neq in H
  end.

(** Case analysis on the innermost test of the goal, remembering the outcome. *)
Ltac case_test :=
  match goal with
  | |- context [if ?b then _ else _] =>
      lazymatch b with context [if _ then _ else _] => fail | _ => destruct b eqn:? end
  | |- context [match ?x with _ => _ end] =>
      lazymatch x with context [match _ with _ => _ end] => fail | _ => destruct x eqn:? end
  end.

(** The same on a hypothesis. *)
Ltac case_test_in H :=
  match type of H with
  | context [if ?b then _ else _] =>
      lazymatch b with context [if _ then _ else _] => fail | _ => destruct b eqn:? end
  | context [match ?x with _ => _ end] =>
      lazymatch x with context [match _ with _ => _ end] => fail | _ => destruct x eqn:? end
  end.

(** ** Record update

    [r <| f := v |>] is [r] with its field [f] set to [v]. A record type gives its eta expansion
    as an instance of [Eta]; the update of a field is found by abstracting its projection. *)

Class Eta (R : Type) := eta : R -> R.
Class Put {R V : Type} (proj : R -> V) := put : V -> R -> R.
Arguments put {R V} proj {Put} v r /.
Ltac find_put proj :=
  lazymatch type of proj with
  | ?R -> ?V =>
      let e := eval hnf in (@eta R _) in
      lazymatch eval pattern proj in e with
      | ?s _ => let t := eval cbv beta in (fun v : V => s (fun _ => v)) in exact t
      end
  end.
#[export] Hint Extern 1 (Put ?proj) => find_put proj : typeclass_instances.
Notation "r <| p := v |>" := (put p v r) (at level 1, p at level 0, v at level 200) : go_scope.

(** ** Machine integers

    [int] and [int64] values are [Z]; the sources run on linux/amd64, where both are 64 bits. *)

Definition MaxInt64 : Z := 9223372036854775807.
Definition MinInt64 : Z := -9223372036854775808.
Definition in_int64 (z : Z) : Prop := MinInt64 <= z <= MaxInt64.
(** Two's complement wrap-around of a 64-bit result. *)
Definition wrap64 (z : Z) : Z := (z + 9223372036854775808) `mod` 18446744073709551616 - 9223372036854775808.

Lemma wrap64_small z : in_int64 z -> wrap64 z = z.
Proof. unfold in_int64, wrap64, MinInt64, MaxInt64. intros. rewrite Z.mod_small; lia. Qed.

Lemma wrap64_range z : in_int64 (wrap64 z).
Proof.
  unfold in_int64, wrap64, MinInt64, MaxInt64.
  pose proof (Z.mod_pos_bound (z + 9223372036854775808) 18446744073709551616). lia.
Qed.

(** ** Go strings

    A Go string is a byte string. The case and white-space functions below are those of
    package [strings] on ASCII text. *)

Definition code (c : ascii) : nat := nat_of_ascii c.
Definition in_range (lo hi : nat) (c : ascii) : bool := Nat.leb lo (code c) && Nat.leb (code c) hi.

Definition is_digit (c : ascii) : bool := in_range 48 57 c.
Definition is_lower (c : ascii) : bool := in_range 97 122 c.
Definition is_upper (c : ascii) : bool := in_range 65 90 c.
Definition is_hex_lower (c : ascii) : bool := is_digit c || in_range 97 102 c.
Definition is_hex (c : ascii) : bool := is_hex_lower c || in_range 65 70 c.
Definition is_alnum_lower (c : ascii) : bool := is_lower c || is_digit c.
Definition is_dash (c : ascii) : bool := (c == "-"%char).
(** [unicode.IsSpace] on ASCII. *)
Definition is_space (c : ascii) : bool := in_range 9 13 c || Nat.eqb (code c) 32.

Definition lower_char (c : ascii) : ascii :=
  if is_upper c then ascii_of_nat (code c + 32) else c.

Fixpoint ToLower (s : string) : string :=
  match s with EmptyString => EmptyString | String c r => String (lower_char c) (ToLower r) end.

(** [strings.EqualFold]. *)
Definition EqualFold (a b : string) : bool := ToLower a == ToLower b.

Fixpoint trim_left (l : list ascii) : list ascii :=
  match l with
  | c :: r => if is_space c then trim_left r else l
  | [] => []
  end.

Definition TrimSpace (s : string) : string :=
  string_of_list_ascii (rev (trim_left (rev (trim_left (list_ascii_of_string s))))).

Fixpoint HasPrefix (s p : string) {struct p} : bool :=
  match p, s with
  | EmptyString, _ => true
  | String a p', String b s' => (a == b) && HasPrefix s' p'
  | _, EmptyString => false
  end.

Fixpoint drop_string (n : nat) (s : string) : string :=
  match n, s with
  | O, _ => s
  | S n', String _ r => drop_string n' r
  | S _, EmptyString => EmptyString
  end.

Fixpoint take_string (n : nat) (s : string) : string :=
  match n, s with
  | S n', String c r => String c (take_string n' r)
  | _, _ => EmptyString
  end.

Definition TrimPrefix (s p : string) : string :=
  if HasPrefix s p then drop_string (String.length p) s else s.

Fixpoint ContainsChar (c : ascii) (s : string) : bool :=
  match s with EmptyString => false | String d r => (c == d) || ContainsChar c r end.

(** [strings.Split(s, sep)] for a one-byte separator: always at least one part. *)
Fixpoint SplitChar (sep : ascii) (s : string) : list string :=
  match s with
  | EmptyString => [EmptyString]
  | String c r =>
      if c == sep then EmptyString :: SplitChar sep r
      else match SplitChar sep r with
           | p :: ps => String c p :: ps
           | [] => [String c EmptyString]
           end
  end.

Fixpoint all_chars (p : ascii -> bool) (s : string) : bool :=
  match s with EmptyString => true | String c r => p c && all_chars p r end.

Fixpoint last_char (c : ascii) (s : string) : ascii :=
  match s with EmptyString => c | String d r => last_char d r end.

(** [sort.Strings]: bytewise order. *)
Fixpoint insert_string (x : string) (l : list string) : list string :=
  match l with
  | [] => [x]
  | y :: r => if String.leb x y then x :: l else y :: insert_string x r
  end.
Fixpoint sort_strings (l : list string) : list string :=
  match l with [] => [] | x :: r => insert_string x (sort_strings r) end.

(** ** Anchored patterns

    Every regular expression of the modelled code is anchored at both ends and is either a
    sequence of single-character classes or a bounded label. *)

Fixpoint match_seq (cls : list (ascii -> bool)) (s : string) : bool :=
  match cls, s with
  | [], EmptyString => true
  | p :: ps, String c r => p c && match_seq ps r
  | _, _ => false
  end.

Definition uuid_classes (hex : ascii -> bool) : list (ascii -> bool) :=
  replicate 8 hex ++ [is_dash] ++ replicate 4 hex ++ [is_dash] ++ replicate 4 hex ++ [is_dash]
  ++ replicate 4 hex ++ [is_dash] ++ replicate 12 hex.

(** [^[0-9a-f]{8}-[0-9a-f]{4}-[0-9a-f]{4}-[0-9a-f]{4}-[0-9a-f]{12}$]. *)
Definition uuid_lower_pattern (s : string) : bool := match_seq (uuid_classes is_hex_lower) s.
(** The same with [[0-9a-fA-F]]. *)
Definition uuid_any_pattern (s : string) : bool := match_seq (uuid_classes is_hex) s.

(** [^E(?:M{0,n}E)?$] for an edge class [E] and a middle class [M]. *)
Definition bounded_label (edge mid : ascii -> bool) (n : nat) (s : string) : bool :=
  match s with
  | EmptyString => false
  | String c r =>
      edge c &&
      match r with
      | EmptyString => true
      | String d r' => Nat.leb (String.length r') n && edge (last_char d r') && all_chars mid (take_string (String.length r') r)
      end
  end.

(** [^[a-z0-9](?:[a-z0-9-]{0,61}[a-z0-9])?$]. *)
Definition location_pattern (s : string) : bool :=
  bounded_label is_alnum_lower (fun c => is_alnum_lower c || is_dash c) 61 s.

(** ** Lemmas on strings *)

Ltac ascii_cases c := destruct c as [[] [] [] [] [] [] [] []]; try done.

Lemma lower_char_idem c : lower_char (lower_char c) = lower_char c.
Proof. ascii_cases c. Qed.

Lemma lower_char_hex c : is_hex_lower c = true -> lower_char c = c.
Proof. ascii_cases c. Qed.

Lemma lower_char_alnum c : is_alnum_lower c = true -> lower_char c = c.
Proof. ascii_cases c. Qed.

Lemma lower_char_dash c : is_dash c = true -> lower_char c = c.
Proof. unfold is_dash. rewrite bool_decide_eq_true. by intros ->. Qed.

Lemma hex_lower_char c : is_hex c = true -> is_hex_lower (lower_char c) = true.
Proof. ascii_cases c. Qed.

Lemma hex_lower_char_inv c : is_hex_lower (lower_char c) = true -> is_hex c = true.
Proof. ascii_cases c. Qed.

Lemma dash_lower_char c : is_dash c = true -> is_dash (lower_char c) = true.
Proof. intros H. by rewrite lower_char_dash. Qed.

Lemma ToLower_idem s : ToLower (ToLower s) = ToLower s.
Proof. induction s as [|c s IH]; simpl; [done|]. by rewrite lower_char_idem, IH. Qed.

Lemma append_cons ch s t : String ch s +:+ t = String ch (s +:+ t).
Proof. reflexivity. Qed.
Lemma append_empty s : s +:+ "" = s.
Proof. induction s as [|ch s IH]; [done|]. by rewrite append_cons, IH. Qed.
Lemma append_assoc s t u : (s +:+ t) +:+ u = s +:+ (t +:+ u).
Proof. induction s as [|ch s IH]; [done|]. by rewrite !append_cons, IH. Qed.

Lemma ToLower_app a b : ToLower (a +:+ b) = ToLower a +:+ ToLower b.
Proof. induction a as [|c a IH]; simpl; [done|]. by rewrite IH. Qed.

Lemma ToLower_nil_iff s : ToLower s = "" <-> s = "".
Proof. destruct s; simpl; split; congruence. Qed.

Lemma length_ToLower s : String.length (ToLower s) = String.length s.
Proof. induction s as [|c s IH]; simpl; [done|]. by rewrite IH. Qed.

Lemma EqualFold_refl a : EqualFold a a = true.
Proof. unfold EqualFold. by rewrite bool_decide_eq_true. Qed.

Lemma EqualFold_eq a b : EqualFold a b = true <-> ToLower a = ToLower b.
Proof. unfold EqualFold. apply bool_decide_eq_true. Qed.

Lemma EqualFold_sym a b : EqualFold a b = EqualFold b a.
Proof. unfold EqualFold. apply bool_decide_ext. split; congruence. Qed.

Lemma EqualFold_lower_l a b : EqualFold (ToLower a) b = EqualFold a b.
Proof. unfold EqualFold. by rewrite ToLower_idem. Qed.


(** A class sequence is stable under case folding when each of its classes is. *)
Lemma match_seq_ToLower f g s :
  Forall2 (fun p q => forall c, p c = true -> q (lower_char c) = true) f g ->
  match_seq f s = true -> match_seq g (ToLower s) = true.
Proof.
  intros Hfg. revert s. induction Hfg as [|p q f g Hpq Hfg IH]; intros [|c s]; simpl; try done.
  intros H; bool_hyps. rewrite Hpq, IH; done.
Qed.

Lemma match_seq_fixed f s :
  Forall (fun p => forall c, p c = true -> lower_char c = c) f ->
  match_seq f s = true -> ToLower s = s.
Proof.
  intros Hf. revert s. induction Hf as [|p f Hp Hf IH]; intros [|c s]; simpl; try done.
  intros H; bool_hyps. by rewrite Hp, IH.
Qed.

Lemma match_seq_length f s : match_seq f s = true -> String.length s = List.length f.
Proof.
  revert s. induction f as [|p f IH]; intros [|c s]; simpl; try done.
  intros H; bool_hyps. by rewrite IH.
Qed.

Lemma uuid_classes_fixed : Forall (fun p => forall c, p c = true -> lower_char c = c) (uuid_classes is_hex_lower).
Proof.
  unfold uuid_classes.
  repeat first [apply Forall_app_2 | apply Forall_cons_2 | apply Forall_nil_2 | apply Forall_replicate];
    auto using lower_char_hex, lower_char_dash.
Qed.

Lemma uuid_lower_fixed s : uuid_lower_pattern s = true -> ToLower s = s.
Proof. apply match_seq_fixed, uuid_classes_fixed. Qed.

Lemma uuid_any_lower s : uuid_any_pattern s = true -> uuid_lower_pattern (ToLower s) = true.
Proof.
  apply match_seq_ToLower. unfold uuid_classes.
  repeat first [apply Forall2_app | apply Forall2_cons_2 | apply Forall2_nil_2 | apply Forall2_replicate];
    auto using hex_lower_char, dash_lower_char.
Qed.

Lemma uuid_lower_length s : uuid_lower_pattern s = true -> String.length s = 36%nat.
Proof. intros H. by apply match_seq_length in H. Qed.

Lemma uuid_lower_nonempty s : uuid_lower_pattern s = true -> s <> "".
Proof. by intros H ->. Qed.

(** ** Lemmas on lists *)

Lemma insert_string_perm x l : insert_string x l ≡ₚ x :: l.
Proof.
  induction l as [|y l IH]; simpl; [done|]. case_test; [done|].
  rewrite IH. apply Permutation_swap.
Qed.

Lemma sort_strings_perm l : sort_strings l ≡ₚ l.
Proof. induction l as [|x l IH]; simpl; [done|]. by rewrite insert_string_perm, IH. Qed.
