(* ===== verification/GoErrors.v ===== *)
(** * Go error values

    Errors are trees: a sentinel or an opaque leaf, or a node that wraps others ([fmt.Errorf]
    with [%w], [errors.Join], a type with an [Unwrap] method). [errors.Is] and [errors.As] walk
    the tree. A node keeps the constant text of its message; the values interpolated into it,
    which no modelled code inspects, are dropped. The one message that is inspected, the text of
    an [APIError], is kept in full. *)

From S2P Require Import Prelude.

(** The package-level error variables of the modelled modules and of the standard packages they
    compare against. *)
Inductive sentinel :=
  (* csi-driver/pkg/cloud *)
  | ErrNotFound | ErrVolumeAttachedElsewhere | ErrIncompatibleVolume | ErrSnapshotsPresent
  | ErrVolumeNotAttached | ErrInvalidNode | ErrUnavailable | ErrUnauthenticated
  | ErrPermissionDenied | ErrConflict | ErrRejected
  (* client *)
  | ErrMutationBlocked | ErrMutationNotDispatched | ErrMutationRedirect | ErrCrossOriginRedirect
  | ErrReadRedirect | ErrSparseFloatingIPAssignment
  (* csi-driver/pkg/cloud/inspace, pkg/host *)
  | ErrMutationFenceChanged | ErrKubernetesNodeNotFound | ErrMountConflict | ErrDeviceNotResized
  (* karpenter-provider/pkg/cloud *)
  | ErrVMNotFound | ErrDeletionConverged | ErrOwnershipMismatch | ErrCreateAttemptPending
  | ErrCreateAttemptUnresolved | ErrCreateAttemptRejected
  (* cloud-provider/pkg/cloudprovider *)
  | ErrCreateAbsentAfterResponse | ErrFirewallVMNotHealthy | ErrFirewallRelationParked
  (* error types of cloudprovider that callers look for with errors.As, by what they are asked for *)
  | FirewallLimitExceeded | FirewallVMHealthDeferred | RelationPending (retryAfter : Z)
  (* an API status of the Kubernetes API server, by its reason *)
  | StatusNotFound | StatusConflict
  (* standard packages *)
  | Canceled | DeadlineExceeded | EOF | ErrUnexpectedEOF | ErrNotExist.

#[export] Instance sentinel_eq_dec : EqDecision sentinel.
Proof. solve_decision. Defined.

(** [APIError] of the client: everything but its [cause], which is the child of the [APIErr] node. *)
Record APIError := {
  StatusCode : Z;
  Method : string;
  Path : string;
  Message : string;
  Retryable : bool;
  CorrelationID : string;
  ResponseBodyIncomplete : bool;
  ResponseBodyMalformed : bool;
  ExactLookup : bool;
  RequestedUUID : string;
  RequestedAddress : string
}.

(** [syscall.Errno] values the client distinguishes, and those with a Timeout or Temporary answer. *)
Inductive errno :=
  | ECONNREFUSED | ECONNRESET | EPIPE | ETIMEDOUT | EHOSTUNREACH | ENETUNREACH
  | EAGAIN | EINTR | EMFILE | ENFILE | OtherErrno.

Inductive error :=
  | Sentinel (s : sentinel)
  | Msg (text : string)
  | Wrap (text : string) (children : list error)
  | APIErr (e : APIError) (cause : option error)
  (* another type that implements net.Error, with its Timeout and Temporary answers and what it
     unwraps to: net.OpError, for instance *)
  | NetErr (timeout temporary : bool) (inner : option error)
  | UrlErr (timeout temporary : bool) (inner : error)
  | DNSErr (timeout temporary : bool)
  | ErrnoErr (n : errno).

(** Induction with the hypothesis on every child. *)
Section error_ind'.
Context (P : error -> Prop).
Hypothesis HS : forall s, P (Sentinel s).
Hypothesis HM : forall t, P (Msg t).
Hypothesis HW : forall t es, Forall P es -> P (Wrap t es).
Hypothesis HA : forall e c, (forall x, c = Some x -> P x) -> P (APIErr e c).
Hypothesis HN : forall a b c, (forall x, c = Some x -> P x) -> P (NetErr a b c).
Hypothesis HU : forall a b e, P e -> P (UrlErr a b e).
Hypothesis HD : forall a b, P (DNSErr a b).
Hypothesis HE : forall n, P (ErrnoErr n).

Fixpoint error_ind' (e : error) : P e.
Proof.
  refine (match e with
  | Sentinel s => HS s
  | Msg t => HM t
  | Wrap t es => HW t es ((fix go es : Forall P es :=
      match es with [] => Forall_nil_2 _ | x :: r => Forall_cons_2 _ _ _ (error_ind' x) (go r) end) es)
  | APIErr a c => HA a c _
  | NetErr a b c => HN a b c _
  | UrlErr a b x => HU a b x (error_ind' x)
  | DNSErr a b => HD a b
  | ErrnoErr n => HE n
  end).
  all: destruct c as [x|]; intros y Hy; [|discriminate]; injection Hy as <-; apply error_ind'.
Defined.
End error_ind'.

(** [errors.Is(err, target)] for a sentinel target. *)
Fixpoint Is (e : error) (s : sentinel) : bool :=
  match e with
  | Sentinel t => t == s
  | Wrap _ es => existsb (fun x => Is x s) es
  | APIErr _ (Some c) | NetErr _ _ (Some c) => Is c s
  | UrlErr _ _ x => Is x s
  | _ => false
  end.

(** [errors.As(err, &apiErr)]: the first [APIError] in depth-first order. *)
Fixpoint AsAPI (e : error) : option APIError :=
  match e with
  | APIErr a _ => Some a
  | Wrap _ es =>
      (fix first es := match es with
       | [] => None
       | x :: r => match AsAPI x with Some a => Some a | None => first r end
       end) es
  | UrlErr _ _ x | NetErr _ _ (Some x) => AsAPI x
  | _ => None
  end.

(** An [error] result; [None] is Go's [nil]. *)
Abbreviation goerr := (option error).

Definition errIs (e : goerr) (s : sentinel) : bool :=
  match e with Some x => Is x s | None => false end.
Definition errAsAPI (e : goerr) : option APIError :=
  match e with Some x => AsAPI x | None => None end.

(** [errors.Join]: nil children are dropped and an empty join is nil. *)
Fixpoint non_nil (es : list goerr) : list error :=
  match es with [] => [] | Some e :: r => e :: non_nil r | None :: r => non_nil r end.
Definition Join (es : list goerr) : goerr :=
  match non_nil es with
  | [] => None
  | l => Some (Wrap "" l)
  end.

(** [fmt.Errorf("text: %w", s)] for a sentinel. *)
Definition wrapS (s : sentinel) (text : string) : error := Wrap text [Sentinel s].

(** A function that returns [(A, error)] where callers read the value only when the error is nil. *)
Inductive result (A : Type) := Ok (a : A) | Err (e : error).
Arguments Ok {A} a.
Arguments Err {A} e.

Definition is_ok {A} (r : result A) : bool := match r with Ok _ => true | Err _ => false end.

Definition result_map {A B} (f : A -> B) (r : result A) : result B :=
  match r with Ok a => Ok (f a) | Err e => Err e end.

(** [if err != nil { return ..., err }] in pure code. *)
Notation "'try!' x ':=' r 'in' k" :=
  (match r with Ok x => k | Err e => Err e end)
  (at level 10, x binder, r at level 100, k at level 200) : go_scope.
Notation "'check!' r 'in' k" :=
  (match r with None => k | Some e => Err e end)
  (at level 10, r at level 100, k at level 200) : go_scope.
(** The same where the enclosing function returns only an error. *)
Notation "'guard!' r 'in' k" :=
  (match r with None => k | Some e => Some e end)
  (at level 10, r at level 100, k at level 200) : go_scope.

(** ** Lemmas *)

Lemma Is_wrapS s t text : Is (wrapS s text) t = (s == t).
Proof. unfold wrapS; simpl. by rewrite orb_false_r. Qed.

Lemma errIs_Join es s : errIs (Join es) s = existsb (fun e => errIs e s) es.
Proof.
  assert (forall l, existsb (fun x => Is x s) (non_nil l) = existsb (fun e => errIs e s) l) as Hl.
  { induction l as [|[x|] l IH]; simpl; [done| |done]. by rewrite IH. }
  unfold Join. rewrite <-Hl. by destruct (non_nil es).
Qed.

Lemma Join_None es : Join es = None <-> Forall (fun e => e = None) es.
Proof.
  unfold Join. induction es as [|[x|] es IH]; simpl.
  - split; [constructor|done].
  - split; [done|]. intros H. by apply Forall_cons_1 in H as [H _].
  - rewrite Forall_cons, <-IH. destruct (non_nil es); naive_solver.
Qed.
