(* ===== verification/ClientTypes.v ===== *)
(** * Resource types of the InSpace client (modules/client/types.go)

    A slice that the code compares with [nil] is an [option] of a list: [None] is the nil slice
    (the field was omitted or null), [Some []] the empty one. A pointer field is an [option]. *)

From S2P Require Import Prelude.

Record VMStorage := {
  VMStorage_UUID : string; VMStorage_ID : Z; VMStorage_UserID : Z; VMStorage_Name : string;
  VMStorage_Pool : string; VMStorage_Type : string; VMStorage_SizeGiB : Z;
  VMStorage_Primary : bool; VMStorage_Shared : bool;
  VMStorage_CreatedAt : string; VMStorage_UpdatedAt : string
}.

Record VM := {
  VM_UUID : string; VM_ID : Z; VM_UserID : Z; VM_Name : string; VM_Description : string;
  VM_Hostname : string; VM_Status : string; VM_VCPU : Z; VM_MemoryMiB : Z;
  VM_OSName : string; VM_OSVersion : string; VM_Username : string; VM_MAC : string;
  VM_LicenseType : string; VM_PrivateIPv4 : string; VM_PublicIPv4 : string; VM_PublicIPv6 : string;
  VM_NetworkUUID : string; VM_BillingAccountID : Z; VM_DesignatedPoolName : string;
  VM_DesignatedPoolUUID : string; VM_Backup : bool; VM_CreatedAt : string; VM_UpdatedAt : string;
  VM_Tags : string; VM_Storage : option (list VMStorage)
}.

Record DiskSnapshot := {
  DiskSnapshot_UUID : string; DiskSnapshot_DiskUUID : string; DiskSnapshot_DisplayName : string;
  DiskSnapshot_SizeGiB : Z; DiskSnapshot_CreatedAt : string
}.

Record Disk := {
  Disk_UUID : string; Disk_DisplayName : string; Disk_Status : string; Disk_SizeGiB : Z;
  Disk_BillingAccountID : Z; Disk_StoragePoolUUID : string; Disk_SourceImageType : string;
  Disk_SourceImage : string; Disk_ReadOnlyBootable : bool; Disk_CreatedAt : string;
  Disk_UpdatedAt : string; Disk_Snapshots : option (list DiskSnapshot)
}.

Record CreateDiskRequest := {
  CreateDisk_DisplayName : string; CreateDisk_SizeGiB : Z; CreateDisk_BillingAccountID : Z;
  CreateDisk_SourceImageType : string; CreateDisk_SourceImage : string
}.

Record Network := {
  Network_UUID : string; Network_Name : string; Network_Type : string; Network_VLANID : Z;
  Network_Subnet : string; Network_SubnetIPv6 : string; Network_IsDefault : bool;
  Network_VMUUIDs : option (list string); Network_ResourcesCount : Z;
  Network_CreatedAt : string; Network_UpdatedAt : string
}.

(** Zero values, as a Go declaration [var x T] leaves them. *)
Definition zero_VMStorage : VMStorage := Build_VMStorage "" 0 0 "" "" "" 0 false false "" "".
Definition zero_VM : VM :=
  Build_VM "" 0 0 "" "" "" "" 0 0 "" "" "" "" "" "" "" "" "" 0 "" "" false "" "" "" None.
Definition zero_Disk : Disk := Build_Disk "" "" "" 0 0 "" "" "" false "" "" None.
Definition zero_Network : Network := Build_Network "" "" "" 0 "" "" false None 0 "" "".
