(* ===== verification/ClientErrors.v ===== *)
(** * Classification of client errors (modules/client/client.go)

    Which errors are authoritative absence ([IsNotFound]) and which are only a missing answer
    ([IsTransient]). Controllers destroy or replace resources on the strength of the first and
    keep their state on the second. *)

From S2P Require Import Prelude GoErrors.


Module Client.

(** [locationPattern], [uuidPattern]. *)
Definition locationPattern := location_pattern.
Definition uuidPattern := uuid_any_pattern.

Definition MethodGet : string := "GET".
Definition MethodPost : string := "POST".
Definition MethodPut : string := "PUT".
Definition MethodPatch : string := "PATCH".
Definition MethodDelete : string := "DELETE".

(** ** IPv4 text

  [net.ParseIP] and [netip.ParseAddr] on dotted-decimal text: four fields of one to three
  digits, at most 255, without leading zeros. *)

Fixpoint digits_value (acc : Z) (s : string) : Z :=
match s with
| EmptyString => acc
| String c r => digits_value (10 * acc + (Z.of_nat (code c) - 48)) r
end.

Definition parse_octet (s : string) : option Z :=
match s with
| EmptyString => None
| String c r =>
    if all_chars is_digit s && Nat.leb (String.length s) 3
       && ((r == "") || (c != "0"%char)) && (digits_value 0 s <=? 255)
    then Some (digits_value 0 s) else None
end.

Definition ipv4 : Type := Z * Z * Z * Z.

Definition parse_ipv4 (s : string) : option ipv4 :=
match SplitChar "." s with
| [a; b; c; d] =>
    match parse_octet a, parse_octet b, parse_octet c, parse_octet d with
    | Some a, Some b, Some c, Some d => Some (a, b, c, d)
    | _, _, _, _ => None
    end
| _ => None
end.

Definition ip_private (i : ipv4) : bool :=
match i with (a, b, _, _) =>
  (a =? 10) || ((a =? 172) && (16 <=? b) && (b <=? 31)) || ((a =? 192) && (b =? 168))
end.

Definition ip_loopback (i : ipv4) : bool := match i with (a, _, _, _) => a =? 127 end.
Definition ip_unspecified (i : ipv4) : bool :=
match i with (a, b, c, d) => (a =? 0) && (b =? 0) && (c =? 0) && (d =? 0) end.

(** [IsGlobalUnicast]: not broadcast, unspecified, loopback, multicast or link-local. *)
Definition ip_global_unicast (i : ipv4) : bool :=
match i with (a, b, c, d) =>
  negb ((a =? 255) && (b =? 255) && (c =? 255) && (d =? 255)) && negb (ip_unspecified i)
  && negb (ip_loopback i) && negb ((224 <=? a) && (a <=? 239)) && negb ((a =? 169) && (b =? 254))
end.

(** [address.String() == value] holds of every text [parse_ipv4] accepts and of no IPv6 text
  with an IPv4 form, so it needs no test of its own. *)
Definition isPublicIPv4 (value : string) : bool :=
match parse_ipv4 value with
| Some i => ip_global_unicast i && negb (ip_private i) && negb (ip_loopback i) && negb (ip_unspecified i)
| None => false
end.

(** ** Exact-lookup paths *)

Definition isExactFloatingIPPath (path requestedAddress : string) : bool :=
match SplitChar "/" path with
| [p0; p1; p2; p3; p4; p5] =>
    (p0 == "") && (p1 == "v1") && locationPattern p2 && (p3 == "network")
    && (p4 == "ip_addresses") && (p5 == requestedAddress)
| _ => false
end.

Definition isExactVMDetailPath (path : string) : bool :=
match SplitChar "/" path with
| [p0; p1; p2; p3; p4] =>
    (p0 == "") && (p1 == "v1") && locationPattern p2 && (p3 == "user-resource") && (p4 == "vm")
| _ => false
end.

Definition isBoundExactLookupPath (path requestedUUID : string) : bool :=
if isExactVMDetailPath path then true
else match SplitChar "/" path with
| [p0; p1; p2; p3; p4; p5] =>
    if (p0 == "") && (p1 == "v1") && locationPattern p2 && EqualFold p5 requestedUUID
    then ((p3 == "storage") && (p4 == "disks")) || ((p3 == "network") && (p4 == "network"))
         || ((p3 == "network") && (p4 == "load_balancers"))
    else false
| _ => false
end.

(** The UUID a "no such VM" message names, [Some ""] when it names none. *)
Definition exactInSpaceMissingVMUUID (message phrase : string) : option string :=
if message == phrase then Some ""
else if negb (HasPrefix message phrase) then None
else match drop_string (String.length phrase) message with
     | EmptyString => None (* excluded by the two tests above *)
     | String c r =>
         if (c != ":"%char) && (c != "."%char) then None
         else let suffix := TrimSpace r in if uuidPattern suffix then Some suffix else None
     end.

(** ** IsNotFound *)

Definition IsNotFoundAPI (e : APIError) : bool :=
if ResponseBodyIncomplete e || ResponseBodyMalformed e then false
else if StatusCode e =? 404 then
  if negb (ExactLookup e) || (Method e != MethodGet) then false
  else if RequestedAddress e != "" then
    (RequestedUUID e == "") && isPublicIPv4 (RequestedAddress e)
    && isExactFloatingIPPath (Path e) (RequestedAddress e)
  else uuidPattern (RequestedUUID e) && isBoundExactLookupPath (Path e) (RequestedUUID e)
else if negb (StatusCode e =? 400) || negb (ExactLookup e) || (Method e != MethodGet)
        || negb (isExactVMDetailPath (Path e)) || negb (uuidPattern (RequestedUUID e)) then false
else
  let message := ToLower (TrimSpace (Message e)) in
  let message := TrimSpace (TrimPrefix message "error:") in
  match (match exactInSpaceMissingVMUUID message "no such virtual machine exists" with
         | Some u => Some u
         | None => exactInSpaceMissingVMUUID message "no such vm exists"
         end) with
  | Some messageUUID => (messageUUID == "") || EqualFold messageUUID (RequestedUUID e)
  | None => false
  end.

Definition IsNotFound (err : goerr) : bool :=
match errAsAPI err with Some e => IsNotFoundAPI e | None => false end.

Definition bindAPI (f : APIError -> APIError) (err : error) : error :=
match AsAPI err with
| None => err
| Some e =>
    (* [bound := *apiErr] keeps the cause of that [APIError] *)
    let fix cause_of (x : error) : option (option error) :=
      match x with
      | APIErr _ c => Some c
      | Wrap _ es =>
          (fix first es := match es with
           | [] => None
           | y :: r => match cause_of y with Some c => Some c | None => first r end
           end) es
      | UrlErr _ _ y | NetErr _ _ (Some y) => cause_of y
      | _ => None
      end in
    APIErr (f e) (match cause_of err with Some c => c | None => None end)
end.

Definition bindExactLookupError (err : error) (requestedUUID : string) : error :=
bindAPI (fun e => Build_APIError (StatusCode e) (Method e) (Path e) (Message e) (Retryable e)
  (CorrelationID e) (ResponseBodyIncomplete e) (ResponseBodyMalformed e) true requestedUUID
  (RequestedAddress e)) err.

Definition bindExactFloatingIPLookupError (err : error) (requestedAddress : string) : error :=
bindAPI (fun e => Build_APIError (StatusCode e) (Method e) (Path e) (Message e) (Retryable e)
  (CorrelationID e) (ResponseBodyIncomplete e) (ResponseBodyMalformed e) true (RequestedUUID e)
  requestedAddress) err.

(** ** IsTransient *)

Definition retryableAPIStatus (status : Z) : bool :=
(status =? 408) || (status =? 429) || (500 <=? status).

Definition errno_timeout (n : errno) : bool :=
match n with EAGAIN | ETIMEDOUT => true | _ => false end.
Definition errno_temporary (n : errno) : bool :=
match n with EINTR | EMFILE | ENFILE => true | _ => errno_timeout n end.

(** [err.(net.Error)]: the Timeout and Temporary answers of a value that implements it. *)
Definition net_error (e : error) : option (bool * bool) :=
match e with
| NetErr t p _ | UrlErr t p _ | DNSErr t p => Some (t, p)
| ErrnoErr n => Some (errno_timeout n, errno_temporary n)
| Sentinel DeadlineExceeded => Some (true, true)
| _ => None
end.

(** [errors.As(err, &networkErr)]. *)
Fixpoint AsNet (e : error) : option (bool * bool) :=
match net_error e with
| Some a => Some a
| None =>
    match e with
    | Wrap _ es =>
        (fix first es := match es with
         | [] => None
         | x :: r => match AsNet x with Some a => Some a | None => first r end
         end) es
    | APIErr _ (Some c) => AsNet c
    | _ => None
    end
end.

Definition retryableHTTPResponseFailure (status : Z) (cause : goerr) : bool :=
if retryableAPIStatus status then true
else match cause with
     | Some c => match AsNet c with Some (t, p) => t || p | None => false end
     | None => false
     end.

Fixpoint classifyTransient (err : error) : bool * bool :=
match err with
| APIErr e _ =>
    if IsNotFoundAPI e then (false, true)
    else if Retryable e || ResponseBodyIncomplete e then (true, false)
    else (false, true)
| Sentinel ErrMutationNotDispatched => (false, true)
| Sentinel DeadlineExceeded | Sentinel Canceled => (true, false)
| Sentinel EOF | Sentinel ErrUnexpectedEOF => (true, false)
| Sentinel _ | Msg _ => (false, true)
| NetErr timeout _ inner =>
    if timeout then (true, false)
    else match inner with Some child => classifyTransient child | None => (false, true) end
| UrlErr timeout _ inner =>
    if timeout then (true, false)
    else if Is inner ErrMutationNotDispatched then (false, true)
    else (true, false)
| DNSErr _ _ => (true, false)
| ErrnoErr n =>
    if errno_timeout n then (true, false)
    else match n with
         | ECONNREFUSED | ECONNRESET | EPIPE | ETIMEDOUT | EHOSTUNREACH | ENETUNREACH => (true, false)
         | _ => (false, true)
         end
| Wrap _ es =>
    fold_left (fun acc child =>
      let '(t, d) := acc in let '(t', d') := classifyTransient child in (t || t', d || d'))
      es (false, false)
end.

Definition IsTransient (err : goerr) : bool :=
match err with
| None => false
| Some e => let '(transient, definite) := classifyTransient e in transient && negb definite
end.

End Client.
Import Client.

(** ** What the client's error classes mean

    IsNotFound is the only evidence of absence the controllers accept, and IsTransient decides
    whether they keep their last known state: both are characterised here. *)

(** ** Absence *)

(** The message of a 400 names no VM, or the requested one. *)
Definition missing_vm_message (e : APIError) : Prop :=
  exists u, (u = "" \/ EqualFold u (RequestedUUID e) = true)
    /\ let message := TrimSpace (TrimPrefix (ToLower (TrimSpace (Message e))) "error:") in
       exactInSpaceMissingVMUUID message "no such virtual machine exists" = Some u
       \/ exactInSpaceMissingVMUUID message "no such vm exists" = Some u.

(** The response belongs to an exact lookup of one resource. *)
Definition exact_lookup (e : APIError) : Prop :=
  (RequestedAddress e = "" /\ uuidPattern (RequestedUUID e) = true /\ isBoundExactLookupPath (Path e) (RequestedUUID e) = true)
  \/ (RequestedUUID e = "" /\ isPublicIPv4 (RequestedAddress e) = true /\ isExactFloatingIPPath (Path e) (RequestedAddress e) = true)
  \/ (uuidPattern (RequestedUUID e) = true /\ isExactVMDetailPath (Path e) = true).

Definition authoritative_absence (e : APIError) : Prop :=
  ResponseBodyIncomplete e = false /\ ResponseBodyMalformed e = false /\ ExactLookup e = true /\ Method e = "GET"
  /\ exact_lookup e
  /\ (StatusCode e = 404 \/ (StatusCode e = 400 /\ isExactVMDetailPath (Path e) = true /\ missing_vm_message e)).

Lemma IsNotFoundAPI_ok e : IsNotFoundAPI e = true -> authoritative_absence e.
Proof.
  unfold IsNotFoundAPI, authoritative_absence, exact_lookup, missing_vm_message. intros H.
  case_test_in H; [done|]. bool_hyps. destruct (StatusCode e =? 404) eqn:E404.
  - case_test_in H; [done|]. case_test_in H; bool_hyps; split_and!; auto.
  - case_test_in H; [done|]. bool_hyps. split_and!; auto. right. split_and!; auto.
    set (m := TrimSpace (TrimPrefix _ _)) in *.
    destruct (exactInSpaceMissingVMUUID m "no such virtual machine exists") as [u|] eqn:E1.
    + exists u. split; [|by left]. apply orb_true_iff in H as [?|?]; bool_hyps; auto.
    + destruct (exactInSpaceMissingVMUUID m "no such vm exists") as [u|] eqn:E2; [|done].
      exists u. split; [|by right]. apply orb_true_iff in H as [?|?]; bool_hyps; auto.
Qed.

(** ** Transient errors *)

(** The errors at the ends of the tree: what wraps nothing, and what answers for what it wraps. *)
Fixpoint leaves (e : error) : list error :=
  match e with
  | Wrap _ es => flat_map leaves es
  | NetErr false _ (Some inner) => leaves inner
  | _ => [e]
  end.

(** No answer was obtained from the provider. *)
Definition no_answer (e : error) : bool :=
  match e with
  | APIErr api _ => negb (IsNotFoundAPI api) && (Retryable api || ResponseBodyIncomplete api)
  | Sentinel (DeadlineExceeded | Canceled | EOF | ErrUnexpectedEOF) => true
  | NetErr timeout _ _ => timeout
  | UrlErr timeout _ inner => timeout || negb (Is inner ErrMutationNotDispatched)
  | DNSErr _ _ => true
  | ErrnoErr (ECONNREFUSED | ECONNRESET | EPIPE | ETIMEDOUT | EHOSTUNREACH | ENETUNREACH | EAGAIN) => true
  | _ => false
  end.

Lemma classify_leaves e :
  classifyTransient e = (existsb no_answer (leaves e), existsb (fun l => negb (no_answer l)) (leaves e)).
Proof.
  induction e as [s|t|t es IH|api c|timeout temp inner IH|timeout temp inner|timeout temp|n] using error_ind'; simpl.
  all: try (by repeat case_test).
  - assert (forall acc, fold_left (fun acc child =>
        let '(t, d) := acc in let '(t', d') := classifyTransient child in (t || t', d || d')) es acc
      = (acc.1 || existsb no_answer (flat_map leaves es), acc.2 || existsb (fun l => negb (no_answer l)) (flat_map leaves es))) as Hf.
    { induction IH as [|x es Hx _ IHes]; intros [t0 d0]; simpl; [by rewrite !orb_false_r|].
      rewrite IHes, Hx. simpl. by rewrite !existsb_app, !orb_assoc. }
    apply Hf.
  - destruct timeout; [done|]. destruct inner as [x|]; [by apply IH|done].
Qed.

Lemma existsb_negb_false {A} (f : A -> bool) l : existsb (fun x => negb (f x)) l = false <-> forall x, In x l -> f x = true.
Proof.
  induction l as [|y l IH]; simpl; [naive_solver|]. rewrite orb_false_iff, IH, negb_false_iff. naive_solver.
Qed.

(** ** Theorems *)

(** IsNotFound is authoritative. It accepts an error only when the first API error in it is the
    complete, well-formed answer to a GET that an exact lookup bound to one canonical UUID or public
    address: a 404 on that resource's own path, or a 400 on the VM-detail path whose message says
    that no such VM exists and names no other VM. Such an answer alone is never taken as transient. *)
Theorem IsNotFound_authoritative err :
  IsNotFound err = true ->
  exists e, errAsAPI err = Some e /\ authoritative_absence e /\ forall cause, IsTransient (Some (APIErr e cause)) = false.
Proof.
  unfold IsNotFound. destruct (errAsAPI err) as [e|]; [|done]. intros H. exists e. split_and!; [done|by apply IsNotFoundAPI_ok|].
  intros cause. unfold IsTransient; simpl. by rewrite H.
Qed.

Lemma IsNotFound_authoritative_witness :
  exists e, errAsAPI (Some (Wrap "get" [APIErr (Build_APIError 400 "GET" "/v1/bkk/user-resource/vm"
      "Error: No such virtual machine exists: AAAAAAAA-aaaa-4aaa-8aaa-aaaaaaaaaaaa" false "" false false true
      "aaaaaaaa-aaaa-4aaa-8aaa-aaaaaaaaaaaa" "") None])) = Some e /\ authoritative_absence e.
Proof.
  destruct (IsNotFound_authoritative (Some (Wrap "get" [APIErr (Build_APIError 400 "GET" "/v1/bkk/user-resource/vm"
      "Error: No such virtual machine exists: AAAAAAAA-aaaa-4aaa-8aaa-aaaaaaaaaaaa" false "" false false true
      "aaaaaaaa-aaaa-4aaa-8aaa-aaaaaaaaaaaa" "") None]))) as (e & H1 & H2 & _); [vm_compute; reflexivity|].
  exists e. split; [exact H1|exact H2].
Defined.

(** IsTransient holds exactly when the error tree has a leaf that is a failure to obtain an
    answer and no other kind of leaf: one definite answer anywhere keeps the whole error definite. *)
Theorem IsTransient_leaves e :
  IsTransient (Some e) = true
  <-> (exists l, In l (leaves e) /\ no_answer l = true) /\ (forall l, In l (leaves e) -> no_answer l = true).
Proof.
  unfold IsTransient. rewrite classify_leaves, andb_true_iff, negb_true_iff, existsb_exists, existsb_negb_false. done.
Qed.
