(* ===== verification/GoURL.v ===== *)
(** * URL parsing

    [url.Parse], [URL.EscapedPath] and [url.PathUnescape] of package [net/url] on ASCII text,
    as the provider-ID and volume-handle parsers use them. A bracketed (IPv6) host is kept as
    written, and the fragment and the user info are kept unparsed: the callers test only whether
    they are present. *)

From S2P Require Import Prelude GoErrors.

Record URL := {
  URL_Scheme : string;
  URL_Opaque : string;
  URL_User : option string;
  URL_Host : string;
  URL_Path : string;
  URL_RawPath : string;
  URL_RawQuery : string;
  URL_Fragment : string
}.

(** [strings.Cut(s, sep)] for one byte: the text before and after the first separator. *)
Fixpoint CutChar (sep : ascii) (s : string) : string * string :=
  match s with
  | EmptyString => ("", "")
  | String c r => if c == sep then ("", r) else let '(a, b) := CutChar sep r in (String c a, b)
  end.

(** Text up to the last separator and after it. *)
Fixpoint CutLast (sep : ascii) (s : string) : option (string * string) :=
  match s with
  | EmptyString => None
  | String c r =>
      match CutLast sep r with
      | Some (a, b) => Some (String c a, b)
      | None => if c == sep then Some ("", r) else None
      end
  end.

Definition is_alpha (c : ascii) : bool := is_lower c || is_upper c.
Definition one_of (s : string) (c : ascii) : bool := ContainsChar c s.

(** [getScheme]: scheme and rest, or an error for a leading colon. *)
Fixpoint get_scheme (first : bool) (s : string) : option (option (string * string)) :=
  match s with
  | EmptyString => Some None
  | String c r =>
      if is_alpha c then
        match get_scheme false r with
        | Some (Some (a, b)) => Some (Some (String c a, b))
        | o => o
        end
      else if is_digit c || one_of "+-." c then
        if first then Some None
        else match get_scheme false r with
             | Some (Some (a, b)) => Some (Some (String c a, b))
             | o => o
             end
      else if c == ":"%char then if first then None else Some (Some ("", r))
      else Some None
  end.

Definition hex_value (c : ascii) : nat :=
  if is_digit c then code c - 48 else if is_lower c then code c - 87 else code c - 55.
Definition hex_digit (n : nat) : ascii := ascii_of_nat (if Nat.ltb n 10 then 48 + n else 55 + n).

(** [unescape(s, encodePath)]; [encodePathSegment] agrees with it. *)
Fixpoint unescape_path (s : string) : option string :=
  match s with
  | EmptyString => Some ""
  | String "%" r =>
      match r with
      | String a (String b r') =>
          if is_hex a && is_hex b then
            match unescape_path r' with
            | Some t => Some (String (ascii_of_nat (16 * hex_value a + hex_value b)) t)
            | None => None
            end
          else None
      | _ => None
      end
  | String c r => match unescape_path r with Some t => Some (String c t) | None => None end
  end.

Definition unreserved (c : ascii) : bool := is_alpha c || is_digit c || one_of "-_.~" c.
(** [!shouldEscape(c, encodePath)]. *)
Definition plain_path_char (c : ascii) : bool := unreserved c || one_of "$&+,/:;=@" c.

(** [escape(s, encodePath)]. *)
Fixpoint escape_path (s : string) : string :=
  match s with
  | EmptyString => ""
  | String c r =>
      if plain_path_char c then String c (escape_path r)
      else String "%" (String (hex_digit (Nat.div (code c) 16)) (String (hex_digit (Nat.modulo (code c) 16)) (escape_path r)))
  end.

(** [validEncoded(s, encodePath)]. *)
Definition valid_encoded_path (s : string) : bool :=
  all_chars (fun c => one_of "!$&'()*+,;=:@[]%" c || plain_path_char c) s.

(** [validOptionalPort] of the text from the last colon on. *)
Definition valid_optional_port (port : string) : bool := all_chars is_digit port.

(** [!shouldEscape(c, encodeHost)], plus the double quote and angle brackets Go also allows. *)
Definition host_char (c : ascii) : bool :=
  unreserved c || one_of "!$&'()*+,;=:[]<>" c || Nat.eqb (code c) 34.

Definition parse_host (host : string) : option string :=
  if HasPrefix host "[" then Some host
  else if (match CutLast ":" host with Some (_, port) => negb (valid_optional_port port) | None => false end) then None
  else if all_chars host_char host then Some host else None.

(** [validUserinfo]. *)
Definition valid_userinfo (s : string) : bool :=
  all_chars (fun c => is_alpha c || is_digit c || one_of "-._:~!$&'()*+,;=%@" c) s.

Definition parse_authority (authority : string) : option (option string * string) :=
  match CutLast "@" authority with
  | None => match parse_host authority with Some h => Some (None, h) | None => None end
  | Some (user, host) =>
      match parse_host host with
      | Some h => if valid_userinfo user then Some (Some user, h) else None
      | None => None
      end
  end.

Definition contains_ctl (s : string) : bool :=
  negb (all_chars (fun c => Nat.leb 32 (code c) && negb (Nat.eqb (code c) 127)) s).

Definition set_path (p : string) : option (string * string) :=
  match unescape_path p with
  | None => None
  | Some path => Some (path, if p == escape_path path then "" else p)
  end.

(** [url.Parse]. *)
Definition url_Parse (rawURL : string) : option URL :=
  let '(u, frag) := CutChar "#" rawURL in
  if contains_ctl u then None
  else if u == "*" then Some (Build_URL "" "" None "" "*" "" "" frag)
  else match get_scheme true u with
  | None => None
  | Some sch =>
      let '(scheme, rest) := match sch with Some (a, b) => (ToLower a, b) | None => ("", u) end in
      let '(rest, query) := CutChar "?" rest in
      if negb (HasPrefix rest "/") && (scheme != "") then Some (Build_URL scheme rest None "" "" "" query frag)
      else if negb (HasPrefix rest "/") && ContainsChar ":" (fst (CutChar "/" rest)) then None
      else
        let with_path user host p :=
          match set_path p with
          | Some (path, raw) => Some (Build_URL scheme "" user host path raw query frag)
          | None => None
          end in
        if ((scheme != "") || negb (HasPrefix rest "///")) && HasPrefix rest "//" then
          let after := drop_string 2 rest in
          let '(authority, tail) := CutChar "/" after in
          let p := if ContainsChar "/" after then String "/" tail else "" in
          match parse_authority authority with
          | None => None
          | Some (user, host) => with_path user host p
          end
        else with_path None "" rest
  end.

Definition EscapedPath (u : URL) : string :=
  if (URL_RawPath u != "") && valid_encoded_path (URL_RawPath u)
     && (match unescape_path (URL_RawPath u) with Some p => p == URL_Path u | None => false end)
  then URL_RawPath u
  else if URL_Path u == "*" then "*" else escape_path (URL_Path u).

(** ** Canonical references

    [scheme://host/segment] with a label for host and a UUID for segment parses to its parts. *)

Lemma CutChar_absent sep s : ContainsChar sep s = false -> CutChar sep s = (s, "").
Proof.
  induction s as [|c s IH]; simpl; [done|]. intros H; bool_hyps.
  rewrite bool_decide_eq_false_2 by congruence. by rewrite IH.
Qed.

Lemma CutChar_app sep a b : ContainsChar sep a = false -> CutChar sep (a +:+ String sep b) = (a, b).
Proof.
  induction a as [|c a IH]; simpl.
  - intros _. by rewrite bool_decide_eq_true_2.
  - intros H; bool_hyps. rewrite bool_decide_eq_false_2 by congruence. by rewrite IH.
Qed.

Lemma ContainsChar_app c a b : ContainsChar c (a +:+ b) = ContainsChar c a || ContainsChar c b.
Proof. induction a as [|d a IH]; simpl; [done|]. by rewrite IH, orb_assoc. Qed.

(** A class that excludes a character excludes it from the text. *)
Lemma all_chars_ContainsChar p c s : all_chars p s = true -> p c = false -> ContainsChar c s = false.
Proof.
  induction s as [|d s IH]; simpl; [done|]. intros H Hc; bool_hyps.
  rewrite IH by done. rewrite bool_decide_eq_false_2; [done|]. intros ->. congruence.
Qed.

Lemma all_chars_impl (p q : ascii -> bool) s :
  (forall c, p c = true -> q c = true) -> all_chars p s = true -> all_chars q s = true.
Proof. intros Hpq. induction s as [|c s IH]; simpl; [done|]. intros H; bool_hyps. rewrite Hpq, IH; done. Qed.

Lemma all_chars_app p a b : all_chars p (a +:+ b) = all_chars p a && all_chars p b.
Proof. induction a as [|c a IH]; simpl; [done|]. by rewrite IH, andb_assoc. Qed.

Lemma CutLast_absent sep s : ContainsChar sep s = false -> CutLast sep s = None.
Proof.
  induction s as [|c s IH]; simpl; [done|]. intros H; bool_hyps. rewrite IH by done.
  by rewrite bool_decide_eq_false_2 by congruence.
Qed.

Definition label_char (c : ascii) : bool := is_alnum_lower c || is_dash c.

Lemma unescape_path_plain s : ContainsChar "%" s = false -> unescape_path s = Some s.
Proof.
  induction s as [|c s IH]; [done|]. intros H. simpl in H. bool_hyps.
  assert (unescape_path (String c s) = match unescape_path s with Some t => Some (String c t) | None => None end) as ->.
  { destruct c as [[] [] [] [] [] [] [] []]; try reflexivity. by exfalso. }
  by rewrite IH.
Qed.

Lemma escape_path_plain s : all_chars plain_path_char s = true -> escape_path s = s.
Proof. induction s as [|c s IH]; simpl; [done|]. intros H; bool_hyps. rewrite H. by rewrite IH. Qed.

Lemma label_char_plain c : label_char c = true -> plain_path_char c = true.
Proof. ascii_cases c. Qed.
Lemma label_char_host c : label_char c = true -> host_char c = true.
Proof. ascii_cases c. Qed.
Lemma label_char_noctl c : label_char c = true -> Nat.leb 32 (code c) && negb (Nat.eqb (code c) 127) = true.
Proof. ascii_cases c. Qed.

Lemma HasPrefix_slash s : all_chars label_char s = true -> HasPrefix s "/" = false.
Proof. destruct s as [|c s]; [done|]. simpl. intros H; bool_hyps. ascii_cases c. Qed.

Lemma HasPrefix_bracket s : all_chars label_char s = true -> HasPrefix s "[" = false.
Proof. destruct s as [|c s]; [done|]. simpl. intros H; bool_hyps. ascii_cases c. Qed.

(** The parse of every reference the providers build. *)
Lemma url_Parse_reference host segment :
  all_chars label_char host = true -> all_chars label_char segment = true ->
  url_Parse ("inspace://" +:+ host +:+ "/" +:+ segment)
  = Some (Build_URL "inspace" "" None host ("/" +:+ segment) "" "" "").
Proof.
  intros Hh Hs.
  assert (forall c s, all_chars label_char s = true -> label_char c = false -> ContainsChar c s = false) as Hno
    by (intros; eapply all_chars_ContainsChar; eauto).
  assert (all_chars plain_path_char ("/" +:+ segment) = true) as Hp
    by (simpl; eauto using all_chars_impl, label_char_plain).
  unfold url_Parse.
  rewrite CutChar_absent; cycle 1.
  { rewrite !ContainsChar_app, (Hno "#"%char host), (Hno "#"%char segment) by done. done. }
  assert (contains_ctl ("inspace://" +:+ host +:+ "/" +:+ segment) = false) as ->.
  { unfold contains_ctl. rewrite !all_chars_app.
    rewrite (all_chars_impl label_char _ host label_char_noctl), (all_chars_impl label_char _ segment label_char_noctl) by done. done. }
  rewrite (bool_decide_eq_false_2 (_ = "*")) by discriminate.
  assert (get_scheme true ("inspace://" +:+ host +:+ "/" +:+ segment)
    = Some (Some ("inspace", "//" +:+ host +:+ "/" +:+ segment))) as -> by reflexivity.
  change (ToLower "inspace") with "inspace". cbn beta iota zeta.
  rewrite CutChar_absent; cycle 1.
  { rewrite !ContainsChar_app, (Hno "?"%char host), (Hno "?"%char segment) by done. done. }
  change (HasPrefix ("//" +:+ host +:+ "/" +:+ segment) "/") with true.
  change (HasPrefix ("//" +:+ host +:+ "/" +:+ segment) "//") with true.
  change (drop_string 2 ("//" +:+ host +:+ "/" +:+ segment)) with (host +:+ String "/" segment).
  rewrite (bool_decide_eq_false_2 ("inspace" = "")) by discriminate. cbn [negb andb orb].
  rewrite CutChar_app by auto.
  rewrite ContainsChar_app. change (ContainsChar "/" (String "/" segment)) with true. rewrite orb_true_r.
  unfold parse_authority, parse_host. rewrite CutLast_absent by auto.
  rewrite HasPrefix_bracket by done. rewrite CutLast_absent by auto.
  rewrite (all_chars_impl label_char _ _ label_char_host) by done.
  unfold set_path. rewrite unescape_path_plain by (simpl; auto).
  rewrite escape_path_plain by done. by rewrite bool_decide_eq_true_2.
Qed.

Lemma EscapedPath_plain u :
  URL_RawPath u = "" -> URL_Path u <> "*" -> all_chars plain_path_char (URL_Path u) = true ->
  EscapedPath u = URL_Path u.
Proof.
  intros Hr Hstar Hp. unfold EscapedPath. rewrite Hr. simpl.
  rewrite bool_decide_eq_false_2 by done. by apply escape_path_plain.
Qed.
