(* ===== verification/CSIFence.v ===== *)
(** * Durable mutation fences of the CSI driver

    Models modules/csi-driver/pkg/cloud/inspace/mutation_fence.go and the intent, observation and
    fence-key parts of mutation_recovery.go: what a fence records, how its intent and its absence
    observation are encoded, and the in-memory fence store.

    [encoding/json] text and [time.RFC3339Nano] text are the two classes below: a printer and a
    parser that inverts it. The correspondence between structs and JSON values (field names,
    omitted empty fields, case-insensitive field matching, unknown fields) is written out. *)

From S2P Require Import Prelude GoErrors.

(** ** JSON values and text *)

Inductive json :=
  | JNull
  | JBool (b : bool)
  | JInt (z : Z)
  | JFloat (literal : string)
  | JStr (s : string)
  | JArr (l : list json)
  | JObj (fields : list (string * json)).

(** ASCII strings and integers only: what [encoding/json] reproduces byte for byte (it replaces
    bytes that are not UTF-8, and does not keep the spelling of other numbers). *)
Definition is_ascii (s : string) : bool := all_chars (fun c => Nat.ltb (code c) 128) s.
Fixpoint plain_json (j : json) : bool :=
  match j with
  | JStr s => is_ascii s
  | JArr l => forallb plain_json l
  | JObj fields => forallb (fun kv => is_ascii kv.1 && plain_json kv.2) fields
  | JFloat _ => false
  | _ => true
  end.

Class JSONText := {
  print_json : json -> string;
  (** exactly one JSON value, with nothing but white space around it *)
  parse_json : string -> option json;
  parse_print_json : forall j, plain_json j = true -> parse_json (print_json j) = Some j;
  print_json_nonempty : forall j, print_json j <> ""
}.

(** Times are nanoseconds since Go's zero time; [IsZero] is [t = 0]. RFC 3339 text covers the
    years 1 to 9999. *)
Definition time_in_range (t : Z) : Prop := 0 < t < 315537897600000000000.

Class TimeText := {
  format_time : Z -> string;
  parse_time : string -> option Z;
  parse_format_time : forall t, time_in_range t -> parse_time (format_time t) = Some t;
  format_time_nonempty : forall t, format_time t <> ""
}.

(** One struct field of [json.Unmarshal]: null leaves it unchanged, another type is an error. *)
Definition set_string {A} (put : string -> A) (old : A) (v : json) : result A :=
  match v with
  | JStr s => Ok (put s)
  | JNull => Ok old
  | _ => Err (Msg "json: cannot unmarshal into Go struct field of type string")
  end.
Definition set_int {A} (put : Z -> A) (old : A) (v : json) : result A :=
  match v with
  | JInt z => if (MinInt64 <=? z) && (z <=? MaxInt64) then Ok (put z)
              else Err (Msg "json: number out of range")
  | JNull => Ok old
  | _ => Err (Msg "json: cannot unmarshal into Go struct field of type int")
  end.

(** A struct decoder: [None] when no field has that name up to case. *)
Definition field_setter (A : Type) : Type := A -> string -> json -> option (result A).

Fixpoint set_fields {A} (disallowUnknown : bool) (f : field_setter A) (x : A)
    (fields : list (string * json)) : result A :=
  match fields with
  | [] => Ok x
  | (key, v) :: r =>
      match f x key v with
      | Some (Ok y) => set_fields disallowUnknown f y r
      | Some (Err e) => Err e
      | None => if disallowUnknown then Err (Msg "json: unknown field")
                else set_fields disallowUnknown f x r
      end
  end.

Definition unmarshal_struct {A} (disallowUnknown : bool) (f : field_setter A) (zero : A) (j : json) : result A :=
  match j with
  | JObj fields => set_fields disallowUnknown f zero fields
  | JNull => Ok zero
  | _ => Err (Msg "json: cannot unmarshal value into Go struct")
  end.

(** ** Intents *)

Record diskCreateIntent := {
  dc_Operation : string; dc_Location : string; dc_Name : string; dc_SizeGiB : Z; dc_BillingAccountID : Z
}.
Record diskAttachmentIntent := {
  da_Operation : string; da_Location : string; da_DiskUUID : string; da_BillingAccountID : Z;
  da_DesiredVMUUID : string; da_PreviousVMUUID : string; da_RecoveryNodeID : string
}.
#[export] Instance diskCreateIntent_eq_dec : EqDecision diskCreateIntent.
Proof. solve_decision. Defined.
#[export] Instance diskAttachmentIntent_eq_dec : EqDecision diskAttachmentIntent.
Proof. solve_decision. Defined.

(** A type with [json] struct tags. *)
Class Marshal (A : Type) := {
  marshal : A -> json;
  zero_value : A;
  set_field : field_setter A
}.

(** [json:"name,omitempty"] on a string field. *)
Definition omitempty (name value : string) : list (string * json) :=
  if value == "" then [] else [(name, JStr value)].

#[export] Instance diskCreateIntent_marshal : Marshal diskCreateIntent := {
  marshal i := JObj [("operation", JStr (dc_Operation i)); ("location", JStr (dc_Location i));
    ("name", JStr (dc_Name i)); ("sizeGiB", JInt (dc_SizeGiB i));
    ("billingAccountID", JInt (dc_BillingAccountID i))];
  zero_value := Build_diskCreateIntent "" "" "" 0 0;
  set_field i key v :=
    let 'Build_diskCreateIntent op loc name size billing := i in
    if EqualFold key "operation" then Some (set_string (fun s => Build_diskCreateIntent s loc name size billing) i v)
    else if EqualFold key "location" then Some (set_string (fun s => Build_diskCreateIntent op s name size billing) i v)
    else if EqualFold key "name" then Some (set_string (fun s => Build_diskCreateIntent op loc s size billing) i v)
    else if EqualFold key "sizeGiB" then Some (set_int (fun z => Build_diskCreateIntent op loc name z billing) i v)
    else if EqualFold key "billingAccountID" then Some (set_int (fun z => Build_diskCreateIntent op loc name size z) i v)
    else None
}.

#[export] Instance diskAttachmentIntent_marshal : Marshal diskAttachmentIntent := {
  marshal i := JObj ([("operation", JStr (da_Operation i)); ("location", JStr (da_Location i));
    ("diskUUID", JStr (da_DiskUUID i)); ("billingAccountID", JInt (da_BillingAccountID i))]
    ++ omitempty "desiredVMUUID" (da_DesiredVMUUID i)
    ++ omitempty "previousVMUUID" (da_PreviousVMUUID i)
    ++ omitempty "recoveryNodeID" (da_RecoveryNodeID i));
  zero_value := Build_diskAttachmentIntent "" "" "" 0 "" "" "";
  set_field i key v :=
    let 'Build_diskAttachmentIntent op loc disk billing want prev node := i in
    if EqualFold key "operation" then Some (set_string (fun s => Build_diskAttachmentIntent s loc disk billing want prev node) i v)
    else if EqualFold key "location" then Some (set_string (fun s => Build_diskAttachmentIntent op s disk billing want prev node) i v)
    else if EqualFold key "diskUUID" then Some (set_string (fun s => Build_diskAttachmentIntent op loc s billing want prev node) i v)
    else if EqualFold key "billingAccountID" then Some (set_int (fun z => Build_diskAttachmentIntent op loc disk z want prev node) i v)
    else if EqualFold key "desiredVMUUID" then Some (set_string (fun s => Build_diskAttachmentIntent op loc disk billing s prev node) i v)
    else if EqualFold key "previousVMUUID" then Some (set_string (fun s => Build_diskAttachmentIntent op loc disk billing want s node) i v)
    else if EqualFold key "recoveryNodeID" then Some (set_string (fun s => Build_diskAttachmentIntent op loc disk billing want prev s) i v)
    else None
}.

(** ** The fence *)

Record mutationFence := {
  Key : string; Intent : string; Attempt : string; Receipt : string; Observation : string
}.
#[export] Instance mutationFence_eq_dec : EqDecision mutationFence.
Proof. solve_decision. Defined.

(** [mutationFence{}]. *)
Definition zero_fence : mutationFence := Build_mutationFence "" "" "" "" "".

Definition set_Receipt (f : mutationFence) (r : string) : mutationFence :=
  Build_mutationFence (Key f) (Intent f) (Attempt f) r (Observation f).
Definition set_Observation (f : mutationFence) (o : string) : mutationFence :=
  Build_mutationFence (Key f) (Intent f) (Attempt f) (Receipt f) o.

Definition sameMutationFenceAttempt (l r : mutationFence) : bool :=
  (Key l == Key r) && (Intent l == Intent r) && (Attempt l == Attempt r).
Definition sameMutationFenceAuthority (l r : mutationFence) : bool :=
  sameMutationFenceAttempt l r && (Receipt l == Receipt r).
Definition sameMutationFenceState (l r : mutationFence) : bool :=
  sameMutationFenceAuthority l r && (Observation l == Observation r).

Section Codec.
Context `{JT : JSONText}.

(** [newMutationFence], given the sixteen random bytes in hexadecimal ([rand.Read] may fail). *)
Definition newMutationFence {A} `{Marshal A} (key : string) (intent : A) (token : result string) : result mutationFence :=
  if key == "" then Err (Msg "CSI mutation fence key is required")
  else match token with
       | Err e => Err (Wrap "generate CSI mutation attempt token" [e])
       | Ok t => Ok (Build_mutationFence key (print_json (marshal intent)) t "" "")
       end.

Definition decodeMutationIntent (A : Type) `{Marshal A} (fence : mutationFence) : result A :=
  if (Key fence == "") || (Intent fence == "") || (Attempt fence == "")
  then Err (Msg "CSI mutation fence is incomplete")
  else match parse_json (Intent fence) with
       | None => Err (Wrap "decode CSI mutation intent" [Msg "json: syntax error"])
       | Some j => match unmarshal_struct false set_field zero_value j with
                   | Ok i => Ok i
                   | Err e => Err (Wrap "decode CSI mutation intent" [e])
                   end
       end.
End Codec.

(** ** Absence observations *)

Definition detachAbsenceObservationKind : string := "disk-detach-absence".
Definition diskDeleteAbsenceObservationKind : string := "disk-delete-absence".

Record mutationObservation := {
  mo_Kind : string; mo_Count : Z; mo_FirstObservedAt : string; mo_LastObservedAt : string
}.
Definition zero_observation : mutationObservation := Build_mutationObservation "" 0 "" "".

#[export] Instance mutationObservation_marshal : Marshal mutationObservation := {
  marshal o := JObj ([("kind", JStr (mo_Kind o)); ("count", JInt (mo_Count o));
    ("firstObservedAt", JStr (mo_FirstObservedAt o))] ++ omitempty "lastObservedAt" (mo_LastObservedAt o));
  zero_value := zero_observation;
  set_field o key v :=
    let 'Build_mutationObservation kind count first last := o in
    if EqualFold key "kind" then Some (set_string (fun s => Build_mutationObservation s count first last) o v)
    else if EqualFold key "count" then Some (set_int (fun z => Build_mutationObservation kind z first last) o v)
    else if EqualFold key "firstObservedAt" then Some (set_string (fun s => Build_mutationObservation kind count s last) o v)
    else if EqualFold key "lastObservedAt" then Some (set_string (fun s => Build_mutationObservation kind count first s) o v)
    else None
}.

Section Observation.
Context `{JT : JSONText} `{TT : TimeText}.

(** A parsed, non-zero timestamp. *)
Definition observed_at (s : string) : option Z :=
  match parse_time s with Some t => if t =? 0 then None else Some t | None => None end.

Definition validateMutationObservation (o : mutationObservation) : goerr :=
  if (mo_Kind o != detachAbsenceObservationKind) && (mo_Kind o != diskDeleteAbsenceObservationKind)
  then Some (Msg "CSI mutation fence observation kind is unsupported")
  else if (mo_Count o <? 1) || (3 <? mo_Count o)
  then Some (Msg "CSI mutation fence observation count is invalid")
  else match observed_at (mo_FirstObservedAt o) with
  | None => Some (Msg "CSI mutation fence first-observation timestamp is invalid")
  | Some first =>
      if mo_Count o =? 1 then
        if mo_LastObservedAt o != "" then Some (Msg "CSI mutation fence first observation unexpectedly contains a last-observation timestamp")
        else None
      else match observed_at (mo_LastObservedAt o) with
      | Some last => if first <? last then None else Some (Msg "CSI mutation fence last-observation timestamp is invalid")
      | None => Some (Msg "CSI mutation fence last-observation timestamp is invalid")
      end
  end.

Definition encodeMutationObservation (o : mutationObservation) : result string :=
  match validateMutationObservation o with
  | Some e => Err e
  | None => Ok (print_json (marshal o))
  end.

(** A second value, or anything but white space, after the first is an error: [parse_json]
    accepts exactly one value. *)
Definition decodeMutationObservation (encoded : string) : result mutationObservation :=
  match parse_json encoded with
  | None => Err (Wrap "CSI mutation fence observation is malformed" [Msg "json: syntax error"])
  | Some j =>
      match unmarshal_struct true set_field zero_value j with
      | Err e => Err (Wrap "CSI mutation fence observation is malformed" [e])
      | Ok o => match validateMutationObservation o with Some e => Err e | None => Ok o end
      end
  end.

(** Durations are nanoseconds, [time.Duration(Count-1) * interval] is a 64-bit product. *)
Definition validateMutationObservationSpacing (o : mutationObservation) (interval : Z) : goerr :=
  if mo_Count o <? 2 then None
  else match parse_time (mo_FirstObservedAt o), parse_time (mo_LastObservedAt o) with
  | Some first, Some last =>
      if interval <=? 0 then Some (Msg "CSI mutation fence observation spacing is invalid")
      else if last <? first + wrap64 ((mo_Count o - 1) * interval)
      then Some (Msg "CSI mutation fence observation count was not spaced by the interval")
      else None
  | _, _ => Some (Msg "CSI mutation fence observation spacing is invalid")
  end.
End Observation.

(** ** Fence keys *)

Section Keys.
(** [hex.EncodeToString(sha256.Sum256(_))]. *)
Context (sha256_hex : string -> string).
Definition diskCreateFenceKey (location name : string) : string :=
  "disk-create/" +:+ ToLower location +:+ "/" +:+ sha256_hex name.
End Keys.

Definition diskAttachmentFenceKey (location diskUUID : string) : string :=
  "disk-attachment/" +:+ ToLower location +:+ "/" +:+ ToLower diskUUID.

(** ** The in-memory store

    The state is the map under the mutex; each method is atomic. *)

Module MemoryStore.
Abbreviation state := (gmap string mutationFence).

Section Ops.
Context `{JT : JSONText} `{TT : TimeText}.

Definition Get (s : state) (key : string) : option mutationFence := s !! key.

(** Insertion by key; keys of a map are distinct, so the order is determined. *)
Fixpoint insert_by_key (f : mutationFence) (l : list mutationFence) : list mutationFence :=
  match l with
  | [] => [f]
  | g :: r => if String.leb (Key f) (Key g) then f :: l else g :: insert_by_key f r
  end.

Definition List_ (s : state) (prefix : string) : list mutationFence :=
  foldr insert_by_key [] (map snd (List.filter (fun kv => HasPrefix kv.1 prefix) (map_to_list s))).

Definition Create (s : state) (fence : mutationFence) : (mutationFence * bool) * state :=
  match s !! Key fence with
  | Some current => ((current, false), s)
  | None => ((fence, true), <[Key fence := fence]> s)
  end.

Definition SetReceipt (s : state) (fence : mutationFence) (receipt : string) : result mutationFence * state :=
  match s !! Key fence with
  | None => (Err (Msg "CSI mutation fence disappeared before receipt persistence"), s)
  | Some current =>
      if negb (sameMutationFenceState current fence)
      then (Err (Msg "CSI mutation fence changed before receipt persistence"), s)
      else let current := set_Receipt current receipt in (Ok current, <[Key fence := current]> s)
  end.

Definition SetObservation (s : state) (fence : mutationFence) (observation : string) : result mutationFence * state :=
  match s !! Key fence with
  | None => (Err (wrapS ErrMutationFenceChanged "CSI mutation fence disappeared before observation persistence"), s)
  | Some current =>
      if (Observation current == observation) && sameMutationFenceAuthority current fence then (Ok current, s)
      else if negb (sameMutationFenceState current fence)
      then (Err (wrapS ErrMutationFenceChanged "before observation persistence"), s)
      else match (if observation == "" then None
                  else match decodeMutationObservation observation with Err e => Some e | Ok _ => None end) with
      | Some e => (Err e, s)
      | None => let current := set_Observation current observation in (Ok current, <[Key fence := current]> s)
      end
  end.

Definition Delete (s : state) (fence : mutationFence) : goerr * state :=
  match s !! Key fence with
  | None => (None, s)
  | Some current =>
      if negb (sameMutationFenceState current fence)
      then (Some (Msg "CSI mutation fence changed before completion"), s)
      else (None, delete (Key fence) s)
  end.
End Ops.
End MemoryStore.

(** ** Round trips *)

(** Evaluates comparisons of literal field names while decoding. *)
Ltac eval_folds :=
  cbn -[set_int EqualFold];
  repeat match goal with
  | |- context [EqualFold (String ?a ?s) (String ?b ?t)] =>
      let v := eval vm_compute in (EqualFold (String a s) (String b t)) in
      rewrite (@eq_refl bool v <: EqualFold (String a s) (String b t) = v); cbn -[set_int EqualFold]
  end.

Section RoundTrip.
Context `{JT : JSONText} `{TT : TimeText}.

Lemma set_string_str {A} (put : string -> A) old s : set_string put old (JStr s) = Ok (put s).
Proof. done. Qed.

Lemma set_int_int {A} (put : Z -> A) old z : in_int64 z -> set_int put old (JInt z) = Ok (put z).
Proof.
  unfold in_int64, set_int. intros [H1 H2].
  rewrite (proj2 (Z.leb_le _ _) H1), (proj2 (Z.leb_le _ _) H2). done.
Qed.

(** An intent whose strings are ASCII and whose integers are 64-bit survives encoding. *)
Definition plain_create (i : diskCreateIntent) : Prop :=
  is_ascii (dc_Operation i) && is_ascii (dc_Location i) && is_ascii (dc_Name i) = true
  /\ in_int64 (dc_SizeGiB i) /\ in_int64 (dc_BillingAccountID i).
Definition plain_attachment (i : diskAttachmentIntent) : Prop :=
  is_ascii (da_Operation i) && is_ascii (da_Location i) && is_ascii (da_DiskUUID i)
  && is_ascii (da_DesiredVMUUID i) && is_ascii (da_PreviousVMUUID i) && is_ascii (da_RecoveryNodeID i) = true
  /\ in_int64 (da_BillingAccountID i).

Lemma unmarshal_create i :
  plain_create i -> unmarshal_struct false set_field zero_value (marshal i) = Ok i.
Proof.
  destruct i as [op loc name size billing]. intros (_ & Hs & Hb). simpl in Hs, Hb.
  eval_folds. repeat (rewrite set_int_int by assumption; eval_folds). done.
Qed.

Lemma unmarshal_attachment i :
  plain_attachment i -> unmarshal_struct false set_field zero_value (marshal i) = Ok i.
Proof.
  destruct i as [op loc disk billing want prev node]. intros (_ & Hb). simpl in Hb.
  unfold marshal, diskAttachmentIntent_marshal, omitempty; simpl da_DesiredVMUUID;
    simpl da_PreviousVMUUID; simpl da_RecoveryNodeID.
  repeat case_bool_decide; subst; eval_folds;
    repeat (rewrite set_int_int by assumption; eval_folds); done.
Qed.

Lemma plain_marshal_create i : plain_create i -> plain_json (marshal i) = true.
Proof. destruct i. intros [H _]. bool_hyps. simpl in *. rewrite !andb_true_iff. naive_solver. Qed.

Lemma plain_omitempty name s :
  is_ascii name = true -> is_ascii s = true ->
  forallb (fun kv => is_ascii kv.1 && plain_json kv.2) (omitempty name s) = true.
Proof. intros H1 H2. unfold omitempty. case_bool_decide; [done|]. simpl. by rewrite H1, H2. Qed.

Lemma plain_marshal_attachment i : plain_attachment i -> plain_json (marshal i) = true.
Proof.
  destruct i. intros [H _]. bool_hyps. simpl in *.
  rewrite !forallb_app, !plain_omitempty by done. rewrite !andb_true_iff. naive_solver.
Qed.

(** The decoder inverts [newMutationFence] whenever it inverts the struct encoding. *)
Lemma decode_new {A} `{Marshal A} key (i : A) token fence :
  plain_json (marshal i) = true ->
  unmarshal_struct false set_field zero_value (marshal i) = Ok i ->
  token <> "" -> newMutationFence key i (Ok token) = Ok fence -> decodeMutationIntent A fence = Ok i.
Proof.
  intros Hp Hu Ht. unfold newMutationFence. case_bool_decide as Hk; [done|]. intros [= <-].
  unfold decodeMutationIntent; simpl.
  rewrite !bool_decide_eq_false_2 by (done || apply print_json_nonempty).
  simpl. rewrite parse_print_json, Hu; done.
Qed.

Lemma validate_observation_cases o :
  validateMutationObservation o = None ->
  1 <= mo_Count o <= 3 /\
  (mo_Count o = 1 -> mo_LastObservedAt o = "") /\
  (2 <= mo_Count o -> exists first last, parse_time (mo_FirstObservedAt o) = Some first
     /\ parse_time (mo_LastObservedAt o) = Some last /\ first < last).
Proof.
  unfold validateMutationObservation, observed_at. intros H.
  repeat (case_test_in H; try discriminate H; simplify_eq); bool_hyps;
    (split; [lia|]); (split; [intros; first [done | lia]|]); intros;
    first [exfalso; lia | do 2 eexists; split_and!; eauto; lia].
Qed.

(** A persisted observation decodes to itself. *)
Lemma decode_encode_observation o s :
  is_ascii (mo_FirstObservedAt o) && is_ascii (mo_LastObservedAt o) = true ->
  encodeMutationObservation o = Ok s -> decodeMutationObservation s = Ok o.
Proof.
  intros Hp. unfold encodeMutationObservation.
  destruct (validateMutationObservation o) eqn:Hv; [done|]. intros [= <-].
  assert (is_ascii (mo_Kind o) = true) as Hk.
  { unfold validateMutationObservation in Hv. case_test_in Hv; [done|].
    apply andb_false_iff in Heqb as [?|?]; bool_hyps; by rewrite H. }
  pose proof (validate_observation_cases o Hv) as (Hc & _ & _).
  destruct o as [kind count first last]. bool_hyps; simpl in *.
  unfold decodeMutationObservation. rewrite parse_print_json.
  - unfold marshal, mutationObservation_marshal, omitempty; simpl mo_LastObservedAt.
    assert (in_int64 count) by (unfold in_int64, MinInt64, MaxInt64; lia).
    case_bool_decide; subst; eval_folds; repeat (rewrite set_int_int by assumption; eval_folds);
      by rewrite Hv.
  - simpl. rewrite plain_omitempty by done. rewrite !andb_true_iff. naive_solver.
Qed.
End RoundTrip.

(** ** The store under interleaved use

    Any number of controllers share one store. [store_op] is one atomic call, and a list of calls
    is one interleaving of all of them. *)

Inductive store_op :=
  | OpGet (key : string)
  | OpCreate (fence : mutationFence)
  | OpSetReceipt (fence : mutationFence) (receipt : string)
  | OpSetObservation (fence : mutationFence) (observation : string)
  | OpDelete (fence : mutationFence).

(** What a caller learns. *)
Inductive store_reply :=
  | RFence (f : option mutationFence)
  | RCreated (f : mutationFence) (acquired : bool)
  | RUpdated (r : result mutationFence)
  | RDeleted (e : goerr).

Section Interleaving.
Context `{JT : JSONText} `{TT : TimeText}.

Definition store_step (s : MemoryStore.state) (o : store_op) : store_reply * MemoryStore.state :=
  match o with
  | OpGet key => (RFence (MemoryStore.Get s key), s)
  | OpCreate f => let '((g, acquired), s') := MemoryStore.Create s f in (RCreated g acquired, s')
  | OpSetReceipt f r => let '(x, s') := MemoryStore.SetReceipt s f r in (RUpdated x, s')
  | OpSetObservation f ob => let '(x, s') := MemoryStore.SetObservation s f ob in (RUpdated x, s')
  | OpDelete f => let '(e, s') := MemoryStore.Delete s f in (RDeleted e, s')
  end.

Fixpoint store_run (s : MemoryStore.state) (ops : list store_op) : MemoryStore.state :=
  match ops with [] => s | o :: r => store_run (store_step s o).2 r end.

(** What a store promises the adapter: it behaves as the map above, on a view of its state. *)
Class FenceStore (S : Type) := {
  store_view : S -> MemoryStore.state;
  store_exec : S -> store_op -> store_reply * S;
  store_refines : forall s o,
    let '(r, s') := store_exec s o in (r, store_view s') = store_step (store_view s) o
}.

#[refine, export] Instance memory_store : FenceStore MemoryStore.state := {
  store_view s := s;
  store_exec := store_step
}.
Proof. intros s o. by destruct (store_step s o). Defined.

(** Every entry is stored under its own key. *)
Definition keyed (s : MemoryStore.state) : Prop := forall k f, s !! k = Some f -> Key f = k.

Lemma same_attempt_refl f : sameMutationFenceAttempt f f = true.
Proof. unfold sameMutationFenceAttempt. by rewrite !bool_decide_eq_true_2. Qed.

Lemma same_attempt_receipt f r : sameMutationFenceAttempt f (set_Receipt f r) = true.
Proof. exact (same_attempt_refl f). Qed.

Lemma same_attempt_observation f o : sameMutationFenceAttempt f (set_Observation f o) = true.
Proof. exact (same_attempt_refl f). Qed.

Lemma same_attempt_trans f g h :
  sameMutationFenceAttempt f g = true -> sameMutationFenceAttempt g h = true ->
  sameMutationFenceAttempt f h = true.
Proof.
  unfold sameMutationFenceAttempt. intros; bool_hyps.
  rewrite !andb_true_iff, !bool_decide_eq_true. split_and!; congruence.
Qed.

Lemma same_state_eq f g : sameMutationFenceState f g = true -> f = g.
Proof.
  unfold sameMutationFenceState, sameMutationFenceAuthority, sameMutationFenceAttempt.
  intros; bool_hyps. destruct f, g; simpl in *; congruence.
Qed.

Lemma keyed_step s o : keyed s -> keyed (store_step s o).2.
Proof.
  intros Hs. destruct o; simpl; try done;
    unfold MemoryStore.Create, MemoryStore.SetReceipt, MemoryStore.SetObservation, MemoryStore.Delete;
    destruct (s !! Key fence) eqn:E; repeat case_test; simpl; try done;
    intros k f Hk; apply lookup_insert_Some in Hk as [[<- <-]|[_ Hk]] || apply lookup_delete_Some in Hk as [_ Hk];
    simpl; eauto.
Qed.

(** A call that is not a Delete of [k] keeps the attempt stored under [k]. *)
Definition deletes (k : string) (s : MemoryStore.state) (o : store_op) : bool :=
  match o with OpDelete f => (Key f == k) && (s !! k == Some f) | _ => false end.

Lemma step_keeps_attempt s o k f :
  keyed s -> s !! k = Some f -> deletes k s o = false ->
  exists g, (store_step s o).2 !! k = Some g /\ sameMutationFenceAttempt f g = true.
Proof.
  intros Hs Hk Hd. assert (exists g, s !! k = Some g /\ sameMutationFenceAttempt f g = true)
    by (eauto using same_attempt_refl).
  destruct o; simpl; try done;
    unfold MemoryStore.Create, MemoryStore.SetReceipt, MemoryStore.SetObservation, MemoryStore.Delete;
    destruct (s !! Key fence) as [c|] eqn:E; repeat case_test; simpl; try done;
    destruct (decide (Key fence = k)) as [Heq|Hne];
    rewrite ?Heq, ?lookup_insert_eq, ?lookup_delete_eq, ?lookup_insert_ne, ?lookup_delete_ne by done;
    try done; rewrite Heq, Hk in E; simplify_eq;
    eauto using same_attempt_refl, same_attempt_receipt, same_attempt_observation.
  bool_hyps. apply same_state_eq in Heqb as ->. exfalso.
  simpl in Hd. rewrite !bool_decide_eq_true_2 in Hd; done.
Qed.
End Interleaving.
