(* ===== verification/CSIDetachAuthority.v ===== *)
(** * Identity of a VM whose Kubernetes Node is gone

    Models the request and ownership checks of
    modules/csi-driver/pkg/cloud/inspace/kubernetes_detach_authority.go: when the description
    stored on a VM proves that the VM is the strict-v3 Karpenter worker with the missing Node's
    name. The text of the description is JSON; after the checks on keys (no duplicate, no two
    keys equal up to case, canonical spelling) every field is decoded from at most one member. *)

From S2P Require Import Prelude GoErrors CSIFence.

Record missingNodeDetachRequest := {
  req_NodeName : string; req_Location : string; req_VMUUID : string; req_VMName : string;
  req_VMHostname : string; req_VMDescription : string; req_DiskUUID : string;
  req_NetworkUUID : string; req_BillingAccountID : Z
}.

Record missingNodeOwnershipRecord := {
  own_Schema : string; own_Cluster : string; own_NodePool : string; own_NodeClaim : string;
  own_VMName : string; own_KeyHash : string; own_HostClass : string; own_InstanceType : string;
  own_HostPoolUUID : string; own_VCPU : Z; own_MemoryGiB : Z; own_RootDiskGiB : Z;
  own_SpecHash : string; own_BootstrapHash : string; own_FirewallUUID : string;
  own_FirewallProfile : string; own_NetworkUUID : string; own_ControlPlaneVIP : string;
  own_PrivateLoadBalancerPoolStart : string; own_PrivateLoadBalancerPoolStop : string;
  own_OSName : string; own_OSVersion : string; own_BillingAccountID : Z;
  own_FloatingIPName : string; own_PublicIPv4 : string
}.

Definition maxMissingNodeDescriptionBytes : nat := 65536.
Definition inspaceOwnershipV3 : string := "karpenter.inspace.cloud/v3".

(** [^[a-z0-9](?:[-a-z0-9.]{0,251}[a-z0-9])?$]. *)
Definition nodeNamePattern (s : string) : bool :=
  bounded_label is_alnum_lower (fun c => is_alnum_lower c || is_dash c || (c == "."%char)) 251 s.
Definition missingNodeDNSLabelPattern (s : string) : bool := location_pattern s.
Definition missingNodeLocationPattern (s : string) : bool := location_pattern s.
Definition missingNodeHex32Pattern (s : string) : bool := match_seq (replicate 32 is_hex_lower) s.

(** A Go type as [missingNodeAuthorityCanonicalJSONKeys] sees it: a struct with the JSON tags and types
    of its exported fields, a pointer, slice or array, or any other kind. *)
Inductive go_type := TStruct (name : string) (fields : list (string * go_type)) | TElem (t : go_type) | TOther.

(** [visit]: the struct types seen and the keys collected so far, in field order. *)
Fixpoint visit (t : go_type) (visited keys : list string) : result (list string * list string) :=
  match t with
  | TElem t => visit t visited keys
  | TOther => Ok (visited, keys)
  | TStruct name fields =>
      if existsb (fun v => v == name) visited then Ok (visited, keys)
      else
        (fix fields_loop (fs : list (string * go_type)) (visited keys : list string) : result (list string * list string) :=
           match fs with
           | [] => Ok (visited, keys)
           | (tag, ft) :: r =>
               try! keys := match List.find (fun existing => EqualFold existing tag) keys with
                            | Some existing => if existing != tag then Err (Msg "authority JSON schema has case-ambiguous fields") else Ok keys
                            | None => Ok (keys ++ [tag])
                            end in
               try! '(visited, keys) := visit ft visited keys in
               fields_loop r visited keys
           end) fields (name :: visited) keys
  end.
Definition missingNodeAuthorityCanonicalJSONKeys (destination : go_type) : result (list string) :=
  result_map snd (visit destination [] []).

Definition ownership_type : go_type :=
  TStruct "missingNodeOwnershipRecord" (map (fun tag => (tag, TOther))
  ["schema"; "cluster"; "nodePool"; "nodeClaim"; "vmName"; "keyHash"; "hostClass"; "instanceType";
   "hostPoolUUID"; "vCPU"; "memoryGiB"; "rootDiskGiB"; "specHash"; "bootstrapHash"; "firewallUUID";
   "firewallProfile"; "networkUUID"; "controlPlaneVIP"; "privateLoadBalancerPoolStart";
   "privateLoadBalancerPoolStop"; "osName"; "osVersion"; "billingAccountID"; "floatingIPName"; "publicIPv4"]).

(** [validateMissingNodeAuthorityJSONValue] on one complete value. *)
Fixpoint validateMissingNodeAuthorityJSONValue (canonicalKeys : list string) (j : json) : goerr :=
  match j with
  | JObj fields =>
      (fix members (seen : list string) (fs : list (string * json)) : goerr :=
         match fs with
         | [] => None
         | (key, v) :: r =>
             if existsb (fun p => p == key) seen then Some (Msg "duplicate JSON object key")
             else if existsb (fun p => EqualFold p key) seen then Some (Msg "case-ambiguous JSON object keys")
             else if existsb (fun c => EqualFold key c && (key != c)) canonicalKeys then Some (Msg "non-canonical JSON object key")
             else match validateMissingNodeAuthorityJSONValue canonicalKeys v with
                  | Some e => Some e
                  | None => members (seen ++ [key]) r
                  end
         end) [] fields
  | JArr items =>
      (fix elements (l : list json) : goerr :=
         match l with
         | [] => None
         | v :: r => match validateMissingNodeAuthorityJSONValue canonicalKeys v with Some e => Some e | None => elements r end
         end) items
  | _ => None
  end.

(** A member by its canonical key; an absent or null member leaves the zero value. *)
Fixpoint member (name : string) (fields : list (string * json)) : json :=
  match fields with [] => JNull | (k, v) :: r => if k == name then v else member name r end.
Definition member_string (fields : list (string * json)) (name : string) : result string :=
  set_string (fun s => s) "" (member name fields).
Definition member_int (fields : list (string * json)) (name : string) : result Z :=
  set_int (fun z => z) 0 (member name fields).
Definition member_int32 (fields : list (string * json)) (name : string) : result Z :=
  match member_int fields name with
  | Ok z => if (-2147483648 <=? z) && (z <=? 2147483647) then Ok z else Err (Msg "json: number out of range")
  | Err e => Err e
  end.

Definition unmarshal_ownership (j : json) : result missingNodeOwnershipRecord :=
  match (match j with JObj f => Ok f | JNull => Ok [] | _ => Err (Msg "json: cannot unmarshal value into Go struct") end) with
  | Err e => Err e
  | Ok f =>
    try! schema := member_string f "schema" in
    try! cluster := member_string f "cluster" in
    try! nodePool := member_string f "nodePool" in
    try! nodeClaim := member_string f "nodeClaim" in
    try! vmName := member_string f "vmName" in
    try! keyHash := member_string f "keyHash" in
    try! hostClass := member_string f "hostClass" in
    try! instanceType := member_string f "instanceType" in
    try! hostPool := member_string f "hostPoolUUID" in
    try! vcpu := member_int f "vCPU" in
    try! memory := member_int f "memoryGiB" in
    try! rootDisk := member_int32 f "rootDiskGiB" in
    try! specHash := member_string f "specHash" in
    try! bootstrapHash := member_string f "bootstrapHash" in
    try! firewall := member_string f "firewallUUID" in
    try! profile := member_string f "firewallProfile" in
    try! network := member_string f "networkUUID" in
    try! vip := member_string f "controlPlaneVIP" in
    try! poolStart := member_string f "privateLoadBalancerPoolStart" in
    try! poolStop := member_string f "privateLoadBalancerPoolStop" in
    try! osName := member_string f "osName" in
    try! osVersion := member_string f "osVersion" in
    try! billing := member_int f "billingAccountID" in
    try! fipName := member_string f "floatingIPName" in
    try! publicIPv4 := member_string f "publicIPv4" in
    Ok (Build_missingNodeOwnershipRecord schema cluster nodePool nodeClaim vmName keyHash hostClass
      instanceType hostPool vcpu memory rootDisk specHash bootstrapHash firewall profile network vip
      poolStart poolStop osName osVersion billing fipName publicIPv4)
  end.

Section Decode.
Context `{JT : JSONText}.

Definition decodeMissingNodeAuthorityJSON {A} (destination : go_type) (unmarshal : json -> result A) (data : string) : result A :=
  try! canonicalKeys := missingNodeAuthorityCanonicalJSONKeys destination in
  match parse_json data with
  | None => Err (Msg "invalid JSON")
  | Some j =>
      match validateMissingNodeAuthorityJSONValue canonicalKeys j with
      | Some e => Err e
      | None => match unmarshal j with Err e => Err (Wrap "decode JSON" [e]) | Ok o => Ok o end
      end
  end.

(** [value != strings.ToLower(strings.TrimSpace(value))], negated. *)
Definition canonical_text (s : string) : bool := s == ToLower (TrimSpace s).

Definition validateMissingNodeOwnership (o : missingNodeOwnershipRecord) (r : missingNodeDetachRequest) : goerr :=
  if own_Schema o != inspaceOwnershipV3 then Some (Msg "VM ownership schema is not strict v3")
  else if negb (missingNodeDNSLabelPattern (own_Cluster o)) || negb (missingNodeDNSLabelPattern (own_NodeClaim o))
  then Some (Msg "VM ownership cluster or NodeClaim is not a canonical DNS-1123 label")
  else if (own_VMName o != req_NodeName r) || (own_Cluster o +:+ "-karp-" +:+ own_NodeClaim o != req_NodeName r)
  then Some (Msg "VM ownership does not derive the exact missing Node name")
  else if negb (missingNodeHex32Pattern (own_KeyHash o)) || negb (missingNodeHex32Pattern (own_SpecHash o))
          || negb (missingNodeHex32Pattern (own_BootstrapHash o))
  then Some (Msg "VM ownership hash identity is malformed")
  else if (own_HostClass o == "") || (own_InstanceType o == "") || (own_VCPU o <=? 0) || (own_MemoryGiB o <=? 0)
          || (own_RootDiskGiB o <=? 0) || (own_OSName o == "") || (own_OSVersion o == "") || (own_FloatingIPName o == "")
  then Some (Msg "VM ownership launch identity is incomplete")
  else if negb (canonical_text (own_HostPoolUUID o)) || negb (uuid_lower_pattern (own_HostPoolUUID o))
  then Some (Msg "VM ownership host-pool UUID is not canonical")
  else if (own_FirewallUUID o != ToLower (own_FirewallUUID o)) || negb (uuid_lower_pattern (own_FirewallUUID o))
  then Some (Msg "VM ownership firewall UUID is not canonical")
  else if (own_NetworkUUID o != req_NetworkUUID r) || negb (own_BillingAccountID o =? req_BillingAccountID r)
  then Some (Msg "VM ownership account or configured-VPC identity differs")
  else if (own_ControlPlaneVIP o == "") || (own_PrivateLoadBalancerPoolStart o == "") || (own_PrivateLoadBalancerPoolStop o == "")
  then Some (Msg "VM ownership cluster network identity is incomplete")
  else if own_PublicIPv4 o != "" then Some (Msg "strict v3 VM ownership unexpectedly records mutable public IPv4 state")
  else if own_FirewallProfile o == "private-worker" then
    if own_NodePool o != "" then Some (Msg "private-worker ownership unexpectedly carries a NodePool cleanup identity") else None
  else if (own_FirewallProfile o == "public-node-load-balancer") || (own_FirewallProfile o == "public-node-local") then
    if own_NodePool o == "" then Some (Msg "public worker ownership lacks its NodePool identity") else None
  else Some (Msg "unsupported VM ownership firewall profile").

Definition validateMissingNodeDetachRequest (r : missingNodeDetachRequest) : result missingNodeOwnershipRecord :=
  if negb (nodeNamePattern (req_NodeName r)) then Err (Msg "invalid missing Kubernetes Node name")
  else if negb (canonical_text (req_Location r)) || negb (missingNodeLocationPattern (req_Location r))
  then Err (Msg "non-canonical InSpace location")
  else if negb (canonical_text (req_VMUUID r)) || negb (uuid_lower_pattern (req_VMUUID r))
  then Err (Msg "non-canonical attached VM UUID")
  else if negb (canonical_text (req_DiskUUID r)) || negb (uuid_lower_pattern (req_DiskUUID r))
  then Err (Msg "non-canonical attached disk UUID")
  else if negb (canonical_text (req_NetworkUUID r)) || negb (uuid_lower_pattern (req_NetworkUUID r))
  then Err (Msg "non-canonical configured network UUID")
  else if req_BillingAccountID r <=? 0 then Err (Msg "configured billing account ID must be positive")
  else if (req_VMName r != req_NodeName r) || (req_VMHostname r != req_NodeName r)
  then Err (Msg "exact VM name and guest hostname must both equal the missing Node name")
  else if (req_VMDescription r == "") || Nat.ltb maxMissingNodeDescriptionBytes (String.length (req_VMDescription r))
  then Err (Msg "VM ownership description is empty or oversized")
  else match decodeMissingNodeAuthorityJSON ownership_type unmarshal_ownership (req_VMDescription r) with
  | Err e => Err (Wrap "decode VM ownership" [e])
  | Ok ownership =>
      match validateMissingNodeOwnership ownership r with
      | Some e => Err e
      | None => Ok ownership
      end
  end.
End Decode.

(** A strict-v3 identity names exactly one worker: the Node, VM and guest names all equal the
    name derived from the cluster and the NodeClaim, in the configured account and VPC. *)
Lemma validated_request_identity `{JT : JSONText} r o :
  validateMissingNodeDetachRequest r = Ok o ->
  req_VMName r = req_NodeName r /\ req_VMHostname r = req_NodeName r /\
  own_VMName o = req_NodeName r /\
  req_NodeName r = own_Cluster o +:+ "-karp-" +:+ own_NodeClaim o /\
  own_NetworkUUID o = req_NetworkUUID r /\ own_BillingAccountID o = req_BillingAccountID r /\
  0 < req_BillingAccountID r /\ uuid_lower_pattern (req_VMUUID r) = true /\
  decodeMissingNodeAuthorityJSON ownership_type unmarshal_ownership (req_VMDescription r) = Ok o.
Proof.
  unfold validateMissingNodeDetachRequest, validateMissingNodeOwnership. intros H.
  repeat (case_test_in H; try discriminate H); simplify_eq; bool_hyps; split_and!; congruence || done.
Qed.
