(* ===== verification/Prog.v ===== *)
(** * Programs that talk to an environment

    The adapters call services whose answers nothing in the repository determines: the InSpace
    API, the Kubernetes API, the clock. A method that makes such calls is a [prog]: a tree of
    actions, each continued by a function of the answer. Nothing is assumed of the answers, so a
    statement about every execution covers failures, stale or inconsistent replies, and any
    interference by other controllers between two calls. A loop whose length the environment
    decides runs on fuel, and [OutOfFuel] marks an execution that is still looping; [Panic] is a run-time
    panic, which ends the process.

    [exec] is the set of executions (a crash may end one before any action), [run] interprets a
    program against a concrete environment, and [wp] is the weakest precondition used to prove
    statements about [exec]: a guard [G] must hold of the history whenever an action is
    dispatched. Histories are newest first. *)

From S2P Require Import Prelude GoErrors.

(** A [context.Context]: its deadline (nanoseconds), and whether it is detached from its parent's
    cancellation. Whether a context is done is an answer of the environment. *)
Record context := { ctx_Deadline : option Z; ctx_Detached : bool }.

Section Prog.
Context {act : Type} {res : act -> Type}.

Inductive prog (A : Type) : Type :=
  | Ret (a : A)
  | Act (x : act) (k : res x -> prog A)
  | Panic
  | OutOfFuel.
Arguments Ret {A} a.
Arguments Act {A} x k.
Arguments Panic {A}.
Arguments OutOfFuel {A}.

Record event := Ev { ev_act : act; ev_res : res ev_act }.

Fixpoint bind {A B} (p : prog A) (f : A -> prog B) : prog B :=
  match p with
  | Ret a => f a
  | Act x k => Act x (fun r => bind (k r) f)
  | Panic => Panic
  | OutOfFuel => OutOfFuel
  end.

Definition call (x : act) : prog (res x) := Act x Ret.

(** Every execution: [Some a] when the program returned, [None] when it crashed or is still
    running, with the history so far. *)
Fixpoint exec {A} (p : prog A) (h : list event) (o : option A) (h' : list event) : Prop :=
  match p with
  | Ret a => h' = h /\ (o = Some a \/ o = None)
  | Act x k => (o = None /\ h' = h) \/ exists r, exec (k r) (Ev x r :: h) o h'
  | Panic | OutOfFuel => o = None /\ h' = h
  end.

(** Interpretation against a deterministic environment with state [S]. *)
Section Run.
Context {S : Type} (step : forall x : act, S -> res x * S).
Fixpoint run {A} (p : prog A) (s : S) : option A * S :=
  match p with
  | Ret a => (Some a, s)
  | Act x k => let '(r, s') := step x s in run (k r) s'
  | Panic | OutOfFuel => (None, s)
  end.
(** The same with the history. *)
Fixpoint run_hist {A} (p : prog A) (s : S) (h : list event) : option A * S * list event :=
  match p with
  | Ret a => (Some a, s, h)
  | Act x k => let '(r, s') := step x s in run_hist (k r) s' (Ev x r :: h)
  | Panic | OutOfFuel => (None, s, h)
  end.

Lemma run_bind {A B} (p : prog A) (f : A -> prog B) s :
  run (bind p f) s =
    match run p s with (Some a, s') => run (f a) s' | (None, s') => (None, s') end.
Proof.
  revert s. induction p as [a|x k IH| |]; intros s; simpl; [done| |done|done].
  destruct (step x s) as [r s']. apply IH.
Qed.

Lemma run_hist_exec {A} (p : prog A) s h :
  exec p h (run_hist p s h).1.1 (run_hist p s h).2.
Proof.
  revert s h. induction p as [a|x k IH| |]; intros s h; simpl; [by auto| |done|done].
  destruct (step x s) as [r s'] eqn:E. right. exists r. apply IH.
Qed.
End Run.

Section Wp.
Context (G : act -> list event -> Prop).

Fixpoint wp {A} (p : prog A) (h : list event) (Q : A -> list event -> Prop) : Prop :=
  match p with
  | Ret a => Q a h
  | Act x k => G x h /\ forall r, wp (k r) (Ev x r :: h) Q
  | Panic | OutOfFuel => True
  end.

Lemma wp_ret {A} (a : A) h (Q : A -> list event -> Prop) : Q a h -> wp (Ret a) h Q.
Proof. done. Qed.

Lemma wp_fuel {A} h (Q : A -> list event -> Prop) : wp OutOfFuel h Q.
Proof. done. Qed.

Lemma wp_mono {A} (p : prog A) h (Q R : A -> list event -> Prop) :
  wp p h Q -> (forall a h', Q a h' -> R a h') -> wp p h R.
Proof.
  revert h. induction p as [a|x k IH| |]; intros h; simpl; [by eauto| |done|done].
  intros [? H] HQR. split; [done|]. intros r. eauto.
Qed.

Lemma wp_bind {A B} (p : prog A) (f : A -> prog B) h Q :
  wp p h (fun a h' => wp (f a) h' Q) -> wp (bind p f) h Q.
Proof.
  revert h. induction p as [a|x k IH| |]; intros h; simpl; [done| |done|done].
  intros [? H]. split; [done|]. intros r. apply IH, H.
Qed.

Lemma wp_bind_inv {A B} (p : prog A) (f : A -> prog B) h Q :
  wp (bind p f) h Q -> wp p h (fun a h' => wp (f a) h' Q).
Proof.
  revert h. induction p as [a|x k IH| |]; intros h; simpl; [done| |done|done].
  intros [? H]. split; [done|]. intros r. apply IH, H.
Qed.

Lemma wp_call (x : act) h (Q : res x -> list event -> Prop) :
  G x h -> (forall r, Q r (Ev x r :: h)) -> wp (call x) h Q.
Proof. simpl. auto. Qed.

Lemma wp_exec {A} (p : prog A) h Q a h' :
  wp p h Q -> exec p h (Some a) h' -> Q a h'.
Proof.
  revert h. induction p as [b|x k IH| |]; intros h; simpl.
  - by intros ? [-> [[= ->]|?]].
  - intros [_ H] [[? _]|[r Hr]]; [done|]. eapply IH; eauto.
  - by intros _ [? _].
  - by intros _ [? _].
Qed.

(** Every dispatched action satisfied the guard at its dispatch, in any execution. *)
Lemma wp_guard {A} (p : prog A) h Q o h' :
  wp p h Q -> exec p h o h' ->
  forall new x r old, h' = new ++ Ev x r :: old -> (List.length h <= List.length old)%nat -> G x old.
Proof.
  revert h. induction p as [b|x k IH| |]; intros h; simpl.
  - intros _ [-> _] new y r old E Hlen. apply (f_equal List.length) in E.
    rewrite length_app in E. simpl in E. lia.
  - intros [HG H] [[_ ->]|[r Hr]] new y ry old E Hlen.
    + apply (f_equal List.length) in E. rewrite length_app in E. simpl in E. lia.
    + destruct (decide (List.length old = List.length h)) as [Hl|Hl].
      * assert (exists ext, h' = ext ++ Ev x r :: h) as [ext E'].
        { clear -Hr. revert Hr. generalize (Ev x r :: h) as h0. generalize (k r) as p.
          induction p as [b|y k' IHk| |]; intros h0; simpl.
          - intros [-> _]. by exists [].
          - intros [[_ ->]|[r' Hr]]; [by exists []|].
            destruct (IHk _ _ Hr) as [ext ->]. exists (ext ++ [Ev y r']). by rewrite <-app_assoc.
          - intros [_ ->]. by exists [].
          - intros [_ ->]. by exists []. }
        rewrite E' in E. apply app_inj_2 in E as [_ E]; [|simpl; lia].
        injection E as Ex Eh. by subst.
      * eapply IH; [apply H|apply Hr|apply E|simpl; lia].
  - intros _ [_ ->] new y r old E Hlen; apply (f_equal List.length) in E;
    rewrite length_app in E; simpl in E; lia.
  - intros _ [_ ->] new y r old E Hlen; apply (f_equal List.length) in E;
    rewrite length_app in E; simpl in E; lia.
Qed.
End Wp.

Lemma wp_weaken (G G' : act -> list event -> Prop) {A} (p : prog A) h (Q : A -> list event -> Prop) :
  (forall x h, G x h -> G' x h) -> wp G p h Q -> wp G' p h Q.
Proof.
  intros HG. revert h. induction p as [a|x k IH| |]; intros h; simpl; [done| |done|done].
  intros [? H]. split; auto.
Qed.

(** Under a trivial guard [wp] is exactly partial correctness. *)
Definition any_action (x : act) (h : list event) : Prop := True.

(** In every execution, crashes included, every action was dispatched on a history that
    satisfies [G]. *)
Definition dispatches {A} (p : prog A) (G : act -> list event -> Prop) : Prop :=
  forall o h newer x r older, exec p [] o h -> h = newer ++ Ev x r :: older -> G x older.

Lemma wp_dispatches {A} (p : prog A) G Q : wp G p [] Q -> dispatches p G.
Proof. intros Hp o h newer x r older He ->. eapply wp_guard; [exact Hp|exact He|done|simpl; lia]. Qed.

(** ** Framing

    [only P p] says that no execution of [p] performs an action outside [P], and [ensures p Q]
    is partial correctness with [Q] stated on the events of [p] alone. Together they specify a
    helper once, for use under any guard that admits [P] and after any history. *)

Fixpoint only (P : act -> Prop) {A} (p : prog A) : Prop :=
  match p with
  | Act x k => P x /\ forall r, only P (k r)
  | _ => True
  end.

Definition ensures {A} (p : prog A) (Q : A -> list event -> Prop) : Prop := wp any_action p [] Q.

Definition performed (P : act -> Prop) (h : list event) : Prop := Forall (fun e => P (ev_act e)) h.

Lemma only_bind P {A B} (p : prog A) (f : A -> prog B) :
  only P p -> (forall a, only P (f a)) -> only P (bind p f).
Proof. intros Hp Hf. induction p; simpl in *; naive_solver. Qed.

Lemma only_mono (P P' : act -> Prop) {A} (p : prog A) : (forall x, P x -> P' x) -> only P p -> only P' p.
Proof. intros HP. induction p; simpl in *; naive_solver. Qed.

(** A program proved from the empty history, run after an older part. *)
Lemma wp_prefix G {A} (p : prog A) h old (Q : A -> list event -> Prop) :
  wp G p h Q ->
  wp (fun x h' => exists new, h' = new ++ old /\ G x new) p (h ++ old)
    (fun a h' => exists new, h' = new ++ old /\ Q a new).
Proof.
  revert h. induction p as [a|x k IH| |]; intros h; simpl; [by eauto| |done|done].
  intros [HG H]. split; [by eauto|]. intros r. apply (IH r (Ev x r :: h)), H.
Qed.

Lemma wp_frame G P {A} (p : prog A) h h0 (Q : A -> list event -> Prop) :
  only P p -> (forall x h, P x -> G x h) -> performed P h0 -> wp any_action p h0 Q ->
  wp G p (h0 ++ h) (fun a h' => exists new, h' = new ++ h /\ performed P new /\ Q a new).
Proof.
  intros Hp HG. revert h0. induction p as [a|x k IH| |]; intros h0 H0; simpl in *; [by eauto| |done|done].
  destruct Hp as [Hx Hk]. intros [_ HQ]. split; [auto|]. intros r.
  apply (IH r (Hk r) (Ev x r :: h0)); [by constructor|apply HQ].
Qed.

Lemma wp_use G P {A} (p : prog A) h (Q R : A -> list event -> Prop) :
  only P p -> (forall x h, P x -> G x h) -> ensures p Q ->
  (forall a new, performed P new -> Q a new -> R a (new ++ h)) -> wp G p h R.
Proof.
  intros Hp HG HQ HR. eapply wp_mono; [apply (wp_frame G P p h [] Q); auto; constructor|].
  intros a h' (new & -> & Hnew & Ha). auto.
Qed.

Lemma wp_only G P {A} (p : prog A) h (R : A -> list event -> Prop) :
  only P p -> (forall x h, P x -> G x h) ->
  (forall a new, performed P new -> R a (new ++ h)) -> wp G p h R.
Proof.
  intros Hp HG HR. apply (wp_use G P p h (fun _ _ => True)); auto.
  clear. unfold ensures. generalize (@nil event). induction p; simpl; unfold any_action; auto.
Qed.

Lemma ensures_use {A} (p : prog A) h (Q R : A -> list event -> Prop) :
  ensures p Q -> (forall a new, Q a new -> R a (new ++ h)) -> wp any_action p h R.
Proof.
  intros HQ HR. apply (wp_use any_action (fun _ => True) p h Q); auto; try done.
  clear. induction p; simpl; auto.
Qed.

Lemma wp_both G {A} (p : prog A) h (Q R : A -> list event -> Prop) :
  wp G p h Q -> ensures p R -> wp G p h (fun a h' => Q a h' /\ exists new, h' = new ++ h /\ R a new).
Proof.
  intros HQ HR. unfold ensures in HR.
  assert (forall h0, wp any_action p h0 R -> wp G p (h0 ++ h) Q ->
    wp G p (h0 ++ h) (fun a h' => Q a h' /\ exists new, h' = new ++ h /\ R a new)) as Hgen.
  { clear. induction p as [a|x k IH| |]; intros h0; simpl; [by eauto| |done|done].
    intros [_ H1] [? H2]. split; [done|]. intros r. apply (IH r (Ev x r :: h0)); [apply H1|apply H2]. }
  by apply (Hgen []).
Qed.

Lemma wp_skip {A} (p : prog A) h (R : A -> list event -> Prop) :
  (forall a new, R a (new ++ h)) -> wp any_action p h R.
Proof.
  intros HR. apply (wp_only any_action (fun _ => True)); auto; try done.
  clear. induction p; simpl; auto.
Qed.

Lemma exec_ensures {A} (p : prog A) Q a h : ensures p Q -> exec p [] (Some a) h -> Q a h.
Proof. apply wp_exec. Qed.

(** Termination: no execution that keeps answering runs out of fuel. [D] says which answers the
    environment may give, as a relation on the history. *)
Section Total.
Context (D : forall x : act, list event -> res x -> Prop).
Fixpoint total {A} (p : prog A) (h : list event) (Q : A -> list event -> Prop) : Prop :=
  match p with
  | Ret a => Q a h
  | Act x k => forall r, D x h r -> total (k r) (Ev x r :: h) Q
  | Panic | OutOfFuel => False
  end.

Lemma total_ret {A} (a : A) h (Q : A -> list event -> Prop) : Q a h -> total (Ret a) h Q.
Proof. done. Qed.

Lemma total_mono {A} (p : prog A) h (Q R : A -> list event -> Prop) :
  total p h Q -> (forall a h', Q a h' -> R a h') -> total p h R.
Proof. revert h. induction p; intros h; simpl; eauto. Qed.

Lemma total_bind {A B} (p : prog A) (f : A -> prog B) h Q :
  total p h (fun a h' => total (f a) h' Q) -> total (bind p f) h Q.
Proof. revert h. induction p; intros h; simpl; eauto. Qed.

(** A program without loops: every path ends in a result. *)
Fixpoint returns {A} (p : prog A) : Prop :=
  match p with
  | Ret _ => True
  | Act _ k => forall r, returns (k r)
  | Panic | OutOfFuel => False
  end.

Lemma returns_bind {A B} (p : prog A) (f : A -> prog B) :
  returns p -> (forall a, returns (f a)) -> returns (bind p f).
Proof. intros Hp Hf. induction p; simpl in *; auto. Qed.

(** Such a program keeps every property of histories that its actions keep. *)
Lemma total_returns (P : act -> Prop) (inv : list event -> Prop) {A} (p : prog A) h :
  returns p -> only P p -> (forall x h r, P x -> D x h r -> inv h -> inv (Ev x r :: h)) ->
  inv h -> total p h (fun _ h' => inv h').
Proof.
  intros Hr Hp Hi. revert h. induction p as [a|x k IH| |]; intros h Hh; simpl in *; [done| |done|done].
  destruct Hp as [Hx Hk]. intros r HD. eauto.
Qed.
End Total.
End Prog.

Arguments prog {act} res A.
Arguments event {act} res.
Arguments Ret {act res A} a.
Arguments Act {act res A} x k.
Arguments Panic {act res A}.
Arguments OutOfFuel {act res A}.

Notation "'let!' x ':=' p 'in' k" := (bind p (fun x => k))
  (at level 10, x binder, p at level 100, k at level 200) : go_scope.
(** [x, err := p; if err != nil { return err }] *)
Notation "'try_let!' x ':=' p 'in' k" :=
  (bind p (fun r => match r with Ok x => k | Err e => Ret (Err e) end))
  (at level 10, x binder, p at level 100, k at level 200) : go_scope.

(** ** Bounded programs *)

Section Within.
Context {act : Type} {res : act -> Type}.

(** Every path returns after at most [n] actions. *)
Fixpoint within {A} (n : nat) (p : prog res A) {struct p} : Prop :=
  match p with
  | Ret _ => True
  | Act x k => match n with O => False | S m => forall r, within m (k r) end
  | Panic | OutOfFuel => False
  end.
Lemma within_mono {A} m n (p : prog res A) : (m <= n)%nat -> within m p -> within n p.
Proof.
  revert m n. induction p as [a|x k IH| |]; intros m n Hmn; simpl; try done. destruct m as [|m]; [by intros []|]. destruct n as [|n]; [lia|].
  intros H r. apply (IH r m); [lia|apply H].
Qed.
Lemma within_bind {A B} m n (p : prog res A) (f : A -> prog res B) : within m p -> (forall a, within n (f a)) -> within (m + n) (bind p f).
Proof.
  revert m. induction p as [a|x k IH| |]; intros m; simpl; try done.
  - intros _ H. apply (within_mono n); [lia|apply H].
  - destruct m as [|m]; [by intros []|]. simpl. intros H Hf r. by apply IH.
Qed.
(** The same with what is left of a budget. *)
Lemma within_then {A B} m n (p : prog res A) (f : A -> prog res B) : within m p -> (m <= n)%nat -> (forall a, within (n - m) (f a)) -> within n (bind p f).
Proof. intros Hp Hmn Hf. replace n with (m + (n - m))%nat by lia. by apply within_bind. Qed.

Lemma within_history {A} n (p : prog res A) h o h' : within n p -> exec p h o h' -> (List.length h' <= List.length h + n)%nat.
Proof.
  revert n h. induction p as [a|x k IH| |]; intros n h; simpl; try done.
  - intros _ [-> _]. lia.
  - destruct n as [|n]; [by intros []|]. intros H [[_ ->]|[r Hr]]; [lia|]. apply (IH r n) in Hr; [|apply H]. simpl in Hr. lia.
Qed.
Lemma within_returns {A} n (p : prog res A) : within n p -> returns p.
Proof. revert n. induction p as [a|x k IH| |]; intros n; simpl; try done. destruct n as [|n]; [by intros []|]. intros H r. by eapply IH. Qed.
End Within.
