(* ===== verification/CSIAdapter.v ===== *)
(** * The CSI cloud adapter: environment, identity checks and authoritative reads

    Models modules/csi-driver/pkg/cloud/inspace/adapter.go (everything but the volume methods,
    which are in CSIVolumes) and vm_lock.go.

    An action of the environment is one call of the InSpace API ([API]), of the fence store
    ([mutationFenceStore]), of the node resolver, of the clock, of a context, of [rand], or of the
    per-VM lock. A call that returns a pointer and an error answers with both, either of which
    may be nil. *)

From S2P Require Import Prelude GoErrors ClientTypes ClientErrors GoURL CSIFence CSIDetachAuthority Prog.

(** Fields of [Adapter]. [has_nodes] is [a.nodes != nil] and [nodes_authorize] says whether the
    resolver implements [missingNodeDetachAuthorizer]. *)
Record Adapter := {
  location_ : string; network : string; billing : Z; poll : Z; readback : Z; absencePoll : Z;
  destructive : Z; has_nodes : bool; nodes_authorize : bool
}.

Inductive act :=
  (* API *)
  | ListDisks (ctx : context) (location : string)
  | GetDisk (ctx : context) (location uuid : string)
  | CreateDisk (ctx : context) (location : string) (input : CreateDiskRequest)
  | DeleteDisk (ctx : context) (location uuid : string)
  | ListVMs (ctx : context) (location : string)
  | GetVM (ctx : context) (location uuid : string)
  | GetNetwork (ctx : context) (location uuid : string)
  | AttachDisk (ctx : context) (location vmUUID diskUUID : string)
  | DetachDisk (ctx : context) (location vmUUID diskUUID : string)
  | ResizeAttachedDisk (ctx : context) (location vmUUID diskUUID : string) (sizeGiB : Z)
  (* mutationFenceStore *)
  | FenceGet (ctx : context) (key : string)
  | FenceList (ctx : context) (prefix : string)
  | FenceCreate (ctx : context) (fence : mutationFence)
  | FenceSetReceipt (ctx : context) (fence : mutationFence) (receipt : string)
  | FenceSetObservation (ctx : context) (fence : mutationFence) (observation : string)
  | FenceDelete (ctx : context) (fence : mutationFence)
  (* NodeResolver, missingNodeDetachAuthorizer *)
  | ProviderIDForNode (ctx : context) (name : string)
  | AuthorizeMissingNodeDetach (ctx : context) (request : missingNodeDetachRequest)
  (* time.Now, rand.Read, ctx.Err, select on a timer and ctx.Done *)
  | Now
  | Rand
  | CtxErr (ctx : context)
  | Wait (ctx : context) (delay : Z)
  (* keyedMutex *)
  | Lock (ctx : context) (key : string)
  | Unlock (key : string).

Definition res (x : act) : Type :=
  match x with
  | ListDisks _ _ => list Disk * goerr
  | GetDisk _ _ _ => option Disk * goerr
  | CreateDisk _ _ _ => option Disk * goerr
  | DeleteDisk _ _ _ => goerr
  | ListVMs _ _ => list VM * goerr
  | GetVM _ _ _ => option VM * goerr
  | GetNetwork _ _ _ => option Network * goerr
  | AttachDisk _ _ _ _ => option VMStorage * goerr
  | DetachDisk _ _ _ _ => goerr
  | ResizeAttachedDisk _ _ _ _ _ => option VMStorage * goerr
  | FenceGet _ _ => option mutationFence * goerr
  | FenceList _ _ => list mutationFence * goerr
  | FenceCreate _ _ => option mutationFence * bool * goerr
  | FenceSetReceipt _ _ _ => option mutationFence * goerr
  | FenceSetObservation _ _ _ => option mutationFence * goerr
  | FenceDelete _ _ => goerr
  | ProviderIDForNode _ _ => string * goerr
  | AuthorizeMissingNodeDetach _ _ => goerr
  | Now => Z
  | Rand => result string
  | CtxErr _ => goerr
  | Wait _ _ => goerr
  | Lock _ _ => goerr
  | Unlock _ => unit
  end.

Abbreviation program := (prog res).
Abbreviation history := (list (event res)).

(** The adapter's [uuidPattern]. *)
Definition uuidPattern := uuid_lower_pattern.

Definition gib : Z := 1073741824.
Definition second : Z := 1000000000.
Definition minimumMutationDispatchReserve : Z := 480 * second.

(** [strings.ToLower(strings.TrimSpace(s))]. *)
Definition canonicalUUID (s : string) : string := ToLower (TrimSpace s).

(** ** Pure checks *)

Fixpoint networkVMMembers (members : gset string) (vmUUIDs : list string) : result (gset string) :=
  match vmUUIDs with
  | [] => Ok members
  | raw :: rest =>
      let vmUUID := canonicalUUID raw in
      if negb (uuidPattern vmUUID) then Err (Msg "network contains invalid VM UUID")
      else if bool_decide (vmUUID ∈ members) then Err (Msg "network contains VM more than once")
      else networkVMMembers ({[vmUUID]} ∪ members) rest
  end.

Definition canonicalNetworkVMMembers (vmUUIDs : option (list string)) : result (gset string) :=
  match vmUUIDs with
  | None => Err (Msg "network VM membership is omitted")
  | Some l => networkVMMembers ∅ l
  end.

Definition normalizeAPIError (err : goerr) : goerr :=
  match err with
  | None => None
  | Some e =>
      if Client.IsNotFound err then Some (Sentinel ErrNotFound)
      else match AsAPI e with
      | Some api =>
          if StatusCode api =? 401 then Some (wrapS ErrUnauthenticated "")
          else if StatusCode api =? 403 then Some (wrapS ErrPermissionDenied "")
          else if StatusCode api =? 409 then Some (wrapS ErrConflict "")
          else if Retryable api then Some (wrapS ErrUnavailable "")
          else err
      | None => err
      end
  end.

(** [normalizeAPIError] of an error known to be non-nil. *)
Definition normalized (e : error) : error :=
  match normalizeAPIError (Some e) with Some x => x | None => e end.

Definition storage_rows (vm : VM) : list VMStorage :=
  match VM_Storage vm with Some l => l | None => [] end.

Definition vmDiskRows (vm : VM) (diskUUID : string) : Z :=
  fold_left (fun rows storage => if EqualFold (VMStorage_UUID storage) diskUUID then rows + 1 else rows)
    (storage_rows vm) 0.

Definition requireExactDiskSnapshotCollection (disk : Disk) : goerr :=
  match Disk_Snapshots disk with
  | None => Some (Msg "InSpace exact disk omitted snapshots; refusing to treat the relationship as empty")
  | Some _ => None
  end.

Definition requireExactVMAttachmentCollection (vm : VM) : goerr :=
  match VM_Storage vm with
  | None => Some (Msg "InSpace exact VM omitted storage; refusing to treat the relationship as empty")
  | Some _ => None
  end.

Definition diskDeletedTombstone (disk : Disk) : bool := EqualFold (TrimSpace (Disk_Status disk)) "deleted".

Definition validateExactDisk (disk : Disk) (expectedUUID : string) (billingAccountID : Z) : goerr :=
  let expectedUUID := canonicalUUID expectedUUID in
  let actualUUID := canonicalUUID (Disk_UUID disk) in
  if billingAccountID <=? 0 then Some (wrapS ErrPermissionDenied "configured billing account ID is not positive")
  else if negb (uuidPattern expectedUUID) || negb (uuidPattern actualUUID) || (actualUUID != expectedUUID)
  then Some (wrapS ErrPermissionDenied "exact disk read returned another UUID")
  else if negb (Disk_BillingAccountID disk =? billingAccountID)
  then Some (wrapS ErrPermissionDenied "disk billing account differs")
  else None.

Definition validateCSIMutableDisk (disk : Disk) (expectedUUID : string) (billingAccountID : Z) : goerr :=
  guard! validateExactDisk disk expectedUUID billingAccountID in
  if TrimSpace (Disk_DisplayName disk) == "" then Some (wrapS ErrPermissionDenied "disk has no CSI display name")
  else if negb (EqualFold (TrimSpace (Disk_SourceImageType disk)) "EMPTY")
  then Some (wrapS ErrPermissionDenied "disk source type is not mutable CSI EMPTY storage")
  else if TrimSpace (Disk_SourceImage disk) != "" then Some (wrapS ErrPermissionDenied "disk has a source image")
  else if Disk_ReadOnlyBootable disk then Some (wrapS ErrPermissionDenied "disk is marked read-only bootable")
  else None.

Definition rejectPrimaryDiskReference (vm : VM) (diskUUID : string) : goerr :=
  if existsb (fun s => EqualFold (TrimSpace (VMStorage_UUID s)) (TrimSpace diskUUID) && VMStorage_Primary s) (storage_rows vm)
  then Some (wrapS ErrPermissionDenied "disk is the primary boot disk of a VM")
  else None.

Definition validateExactVM (a : Adapter) (vm : VM) (expectedUUID : string) : goerr :=
  let expectedUUID := canonicalUUID expectedUUID in
  let actualUUID := canonicalUUID (VM_UUID vm) in
  if negb (uuidPattern expectedUUID) || negb (uuidPattern actualUUID) || (actualUUID != expectedUUID)
  then Some (wrapS ErrInvalidNode "exact VM read returned another UUID")
  else if EqualFold (TrimSpace (VM_Status vm)) "deleted" then Some (wrapS ErrInvalidNode "exact VM is a deleted tombstone")
  else if negb (VM_BillingAccountID vm =? billing a) then Some (wrapS ErrPermissionDenied "VM billing account differs")
  else let vmNetwork := TrimSpace (VM_NetworkUUID vm) in
    if (network a != "") && (vmNetwork != "") && negb (EqualFold vmNetwork (network a))
    then Some (wrapS ErrInvalidNode "VM network differs")
    else None.

Definition parseProviderID (value : string) : result (string * string) :=
  let value := canonicalUUID value in
  match url_Parse value with
  | None => Err (Msg "expected inspace://<location>/<vm-uuid>")
  | Some u =>
      if (URL_Scheme u != "inspace") || (URL_Host u == "") || (URL_User u != None) || (URL_RawQuery u != "") || (URL_Fragment u != "")
      then Err (Msg "expected inspace://<location>/<vm-uuid>")
      else
        let location := ToLower (URL_Host u) in
        let vmUUID := ToLower (TrimPrefix (EscapedPath u) "/") in
        if ContainsChar "/" vmUUID || negb (uuidPattern vmUUID) then Err (Msg "provider ID contains an invalid VM UUID")
        else Ok (location, vmUUID)
  end.

(** The match (the last of several, which only counts when there is one) and the count. *)
Definition namedDisks (disks : list Disk) (name : string) : list Disk :=
  List.filter (fun d => Disk_DisplayName d == name) disks.
Definition uniqueNamedDisk (disks : list Disk) (name : string) : result (option Disk) :=
  match namedDisks disks name with
  | [] => Ok None
  | [d] => Ok (Some d)
  | _ => Err (wrapS ErrIncompatibleVolume "several disks have the name")
  end.

(** [cloud.Volume] and [cloud.VolumeSpec]. *)
Record Volume := { Volume_ID : string; Volume_Name : string; Volume_Location : string; Volume_CapacityBytes : Z }.
Record VolumeSpec := { Spec_Name : string; Spec_Location : string; Spec_CapacityBytes : Z }.

(** [int64(disk.SizeGiB) * gib] is a 64-bit product. *)
Definition diskVolume (location : string) (disk : Disk) : result Volume :=
  if negb (uuidPattern (ToLower (Disk_UUID disk))) || (Disk_SizeGiB disk <=? 0) then Err (Msg "InSpace API returned an invalid disk")
  else if MaxInt64 / gib <? Disk_SizeGiB disk then Err (Msg "InSpace disk size overflows bytes")
  else Ok (Build_Volume (ToLower (Disk_UUID disk)) (Disk_DisplayName disk) location (wrap64 (Disk_SizeGiB disk * gib))).

(** Go's [/] truncates towards zero; [bytes-1] is not negative here. *)
Definition bytesToGiB (bytes : Z) : result Z :=
  if bytes <=? 0 then Err (Msg "volume capacity must be positive")
  else let value := wrap64 (1 + Z.quot (wrap64 (bytes - 1)) gib) in
    if MaxInt64 <? value then Err (Msg "volume capacity is too large") else Ok value.

Definition validateDiskCreateReadback (disk : Disk) (intent : diskCreateIntent) : goerr :=
  if dc_BillingAccountID intent <=? 0 then Some (wrapS ErrIncompatibleVolume "disk-create intent has no positive billing account")
  else match validateExactDisk disk (Disk_UUID disk) (dc_BillingAccountID intent) with
  | Some _ => Some (wrapS ErrIncompatibleVolume "disk create ownership readback")
  | None =>
    if Disk_DisplayName disk != dc_Name intent then Some (wrapS ErrIncompatibleVolume "disk receipt name differs")
    else if negb (Disk_SizeGiB disk =? dc_SizeGiB intent) then Some (wrapS ErrIncompatibleVolume "disk size differs")
    else if negb (EqualFold (TrimSpace (Disk_SourceImageType disk)) "EMPTY") then Some (wrapS ErrIncompatibleVolume "disk source type differs")
    else if TrimSpace (Disk_SourceImage disk) != "" then Some (wrapS ErrIncompatibleVolume "disk unexpectedly has a source image")
    else if Disk_ReadOnlyBootable disk then Some (wrapS ErrIncompatibleVolume "disk is unexpectedly marked read-only bootable")
    else None
  end.

(** ** Construction *)

Record Config := {
  Config_Location : string; Config_NetworkUUID : string; Config_BillingAccountID : Z;
  Config_PollInterval : Z; Config_MutationReadbackTimeout : Z;
  Config_DestructiveAbsenceInterval : Z; Config_DestructiveReadbackTimeout : Z
}.

(** [if v <= 0 { v = default }]. *)
Definition defaulted (v default : Z) : Z := if v <=? 0 then default else v.

(** [New(api, nodes, cfg)]: [has_api] is [api != nil]. The store is [nodes] when it implements
    [mutationFenceStore] and the in-memory one otherwise; the model keeps it abstract. *)
Definition New (has_api has_nodes nodes_authorize : bool) (cfg : Config) : result Adapter :=
  if negb has_api then Err (Msg "InSpace API client is required")
  else if TrimSpace (Config_Location cfg) == "" then Err (Msg "location is required")
  else if Config_BillingAccountID cfg <=? 0 then Err (Msg "billing account ID must be positive")
  else
    let networkUUID := canonicalUUID (Config_NetworkUUID cfg) in
    if (networkUUID != "") && negb (uuidPattern networkUUID) then Err (Msg "network UUID is invalid")
    else
      let poll := defaulted (Config_PollInterval cfg) (2 * second) in
      let readback := defaulted (Config_MutationReadbackTimeout cfg) (30 * second) in
      let absence := defaulted (Config_DestructiveAbsenceInterval cfg) (30 * second) in
      let destructive := defaulted (Config_DestructiveReadbackTimeout cfg) (120 * second) in
      if destructive <=? wrap64 (3 * absence)
      then Err (Msg "destructive readback timeout must exceed three destructive absence intervals")
      else Ok (Build_Adapter (Config_Location cfg) networkUUID (Config_BillingAccountID cfg) poll readback
                 absence destructive has_nodes nodes_authorize).

(** ** Authoritative reads *)

Section Reads.
Context `{JT : JSONText} (a : Adapter).

Definition getOwnedDisk (ctx : context) (location diskUUID : string) : program (result Disk) :=
  let! '(disk, err) := call (GetDisk ctx location diskUUID) in
  match err with
  | Some e => Ret (Err (normalized e))
  | None =>
    match disk with
    | None => Ret (Err (Msg "InSpace API returned an empty disk response"))
    | Some disk =>
      match validateExactDisk disk diskUUID (billing a) with
      | Some e => Ret (Err e)
      | None =>
        if diskDeletedTombstone disk then Ret (Err (Sentinel ErrNotFound))
        else match validateCSIMutableDisk disk diskUUID (billing a) with
        | Some e => Ret (Err e)
        | None => Ret (Ok disk)
        end
      end
    end
  end.

(** The inventory rows: canonical UUIDs, each at most once. *)
Fixpoint listedVMs (listed : gset string) (vms : list VM) : result (gset string) :=
  match vms with
  | [] => Ok listed
  | summary :: rest =>
      let vmUUID := canonicalUUID (VM_UUID summary) in
      if negb (uuidPattern vmUUID) then Err (Msg "InSpace listed a VM with invalid UUID")
      else if bool_decide (vmUUID ∈ listed) then Err (Msg "InSpace listed a VM more than once")
      else listedVMs ({[vmUUID]} ∪ listed) rest
  end.

(** The exact read of one candidate: its attachment rows, after every check. *)
Definition candidateRows (members : gset string) (vmUUID diskUUID : string) (reply : option VM * goerr) : result Z :=
  let '(vm, err) := reply in
  match err with
  | Some e => Err (Wrap "read exact VM while checking disk" [normalized e])
  | None =>
    match vm with
    | None => Err (Msg "InSpace exact VM read changed identity")
    | Some vm =>
      if negb (EqualFold (TrimSpace (VM_UUID vm)) vmUUID) then Err (Msg "InSpace exact VM read changed identity")
      else check! requireExactVMAttachmentCollection vm in
      check! rejectPrimaryDiskReference vm diskUUID in
      let rows := vmDiskRows vm diskUUID in
      if 1 <? rows then Err (Msg "InSpace exact VM reported several attachment rows")
      else if bool_decide (vmUUID ∈ members) then
        match validateExactVM a vm vmUUID with
        | Some e => Err (Wrap "validate configured-VPC VM while checking disk" [e])
        | None => Ok rows
        end
      else if 0 <? rows then Err (wrapS ErrVolumeAttachedElsewhere "disk is attached to a VM outside the configured VPC")
      else Ok rows
    end
  end.

Fixpoint scanCandidates (ctx : context) (location diskUUID : string) (members : gset string)
    (candidates : list string) (attached : string) (attachmentRows : Z) : program (result (string * Z)) :=
  match candidates with
  | [] => Ret (Ok (attached, attachmentRows))
  | vmUUID :: rest =>
      let! reply := call (GetVM ctx location vmUUID) in
      match candidateRows members vmUUID diskUUID reply with
      | Err e => Ret (Err e)
      | Ok rows =>
          if rows =? 1 then
            if (attached != "") && (attached != vmUUID) then Ret (Err (Msg "InSpace reported disk attached to multiple VMs"))
            else scanCandidates ctx location diskUUID members rest vmUUID (attachmentRows + 1)
          else scanCandidates ctx location diskUUID members rest attached attachmentRows
      end
  end.

Definition attachedVM (ctx : context) (location diskUUID : string) : program (result string) :=
  if network a == "" then Ret (Err (wrapS ErrInvalidNode "configured VPC UUID is required for CSI attachment discovery"))
  else
  let! '(vms, err) := call (ListVMs ctx location) in
  match err with Some e => Ret (Err (normalized e)) | None =>
  let! '(net, err) := call (GetNetwork ctx location (network a)) in
  match err with Some e => Ret (Err (normalized e)) | None =>
  match net with
  | None => Ret (Err (Msg "InSpace API returned an empty network response while checking disk attachment"))
  | Some net =>
    if negb (EqualFold (TrimSpace (Network_UUID net)) (network a)) then Ret (Err (Msg "InSpace exact network read returned another UUID"))
    else match canonicalNetworkVMMembers (Network_VMUUIDs net) with
    | Err e => Ret (Err (Wrap "InSpace network has invalid VM membership while checking disk attachment" [e]))
    | Ok members =>
      match listedVMs ∅ vms with
      | Err e => Ret (Err e)
      | Ok listed =>
        let candidates := sort_strings (elements (members ∪ listed)) in
        let! scanned := scanCandidates ctx location diskUUID members candidates "" 0 in
        match scanned with
        | Err e => Ret (Err e)
        | Ok (attached, attachmentRows) =>
            if 1 <? attachmentRows then Ret (Err (Msg "InSpace reported disk in several attachment rows"))
            else Ret (Ok attached)
        end
      end
    end
  end end end.

Definition getVPCVM (ctx : context) (location vmUUID : string) : program (result VM) :=
  if network a == "" then Ret (Err (wrapS ErrInvalidNode "configured VPC UUID is required for CSI VM mutations"))
  else
  let! '(vm, err) := call (GetVM ctx location vmUUID) in
  match err with Some e => Ret (Err (normalized e)) | None =>
  match vm with
  | None => Ret (Err (Msg "InSpace API returned an empty VM response"))
  | Some vm =>
    match validateExactVM a vm vmUUID with
    | Some e => Ret (Err e)
    | None =>
      let! '(net, err) := call (GetNetwork ctx location (network a)) in
      match err with Some e => Ret (Err (normalized e)) | None =>
      match net with
      | None => Ret (Err (wrapS ErrInvalidNode "configured VPC lacks exact membership authority"))
      | Some net =>
        if negb (EqualFold (TrimSpace (Network_UUID net)) (network a))
        then Ret (Err (wrapS ErrInvalidNode "configured VPC lacks exact membership authority"))
        else match canonicalNetworkVMMembers (Network_VMUUIDs net) with
        | Err _ => Ret (Err (wrapS ErrInvalidNode "configured VPC has invalid VM membership"))
        | Ok members =>
          if bool_decide (canonicalUUID vmUUID ∈ members) then Ret (Ok vm)
          else Ret (Err (wrapS ErrInvalidNode "VM has 0 configured-VPC memberships, want one"))
        end
      end end
    end
  end end.

Definition listRows (vms : list VM) (vmUUID : string) : Z :=
  fold_left (fun n summary => if EqualFold (TrimSpace (VM_UUID summary)) vmUUID then n + 1 else n) vms 0.

Definition getOwnedVM (ctx : context) (location vmUUID : string) : program (result VM) :=
  try_let! vm := getVPCVM ctx location vmUUID in
  let! '(vms, err) := call (ListVMs ctx location) in
  match err with
  | Some e => Ret (Err (normalized e))
  | None =>
      if listRows vms vmUUID =? 1 then Ret (Ok vm)
      else Ret (Err (wrapS ErrInvalidNode "VM has not exactly one unfiltered inventory row"))
  end.

Definition resolveVM (ctx : context) (location nodeID : string) : program (result string) :=
  let providerID := TrimSpace nodeID in
  if providerID == "" then Ret (Err (wrapS ErrInvalidNode "empty node ID"))
  else
  try_let! providerID :=
    (if HasPrefix (ToLower providerID) "inspace://" then Ret (Ok providerID)
     else if negb (has_nodes a) then Ret (Err (wrapS ErrInvalidNode "Kubernetes node cannot be resolved without a Node resolver"))
     else
       let! '(resolved, err) := call (ProviderIDForNode ctx providerID) in
       match err with
       | None => Ret (Ok resolved)
       | Some e =>
           if Is e Canceled || Is e DeadlineExceeded then Ret (Err e)
           else if Is e ErrUnavailable then Ret (Err e)
           else Ret (Err (Wrap "resolve Kubernetes node" [Sentinel ErrInvalidNode; e]))
       end) in
  match parseProviderID providerID with
  | Err _ => Ret (Err (wrapS ErrInvalidNode ""))
  | Ok (providerLocation, vmUUID) =>
      if providerLocation != location then Ret (Err (wrapS ErrInvalidNode "provider location does not match"))
      else
        let! vm := getVPCVM ctx location vmUUID in
        match vm with
        | Err e => if Is e ErrNotFound then Ret (Err (wrapS ErrInvalidNode "VM not found")) else Ret (Err e)
        | Ok _ => Ret (Ok vmUUID)
        end
  end.

Definition missingNodeDetachTarget (ctx : context) (location volumeID nodeID attached : string) : program (result bool) :=
  let nodeID := TrimSpace nodeID in
  if negb (nodeNamePattern nodeID) || HasPrefix (ToLower nodeID) "inspace://"
  then Ret (Err (wrapS ErrUnavailable "missing-node detach received invalid Kubernetes node name"))
  else
  try_let! vm := getOwnedVM ctx location attached in
  match requireExactVMAttachmentCollection vm with Some e => Ret (Err e) | None =>
  match rejectPrimaryDiskReference vm volumeID with Some e => Ret (Err e) | None =>
  if negb (vmDiskRows vm volumeID =? 1) then Ret (Err (wrapS ErrUnavailable "exact VM reports unexpected attachment rows during missing-node recovery"))
  else
  let vmName := TrimSpace (VM_Name vm) in
  let vmHostname := TrimSpace (VM_Hostname vm) in
  if (vmName == "") || (vmHostname == "") || (vmName != vmHostname)
  then Ret (Err (wrapS ErrUnavailable "exact VM has ambiguous name/hostname identity for missing node"))
  else
  let request := Build_missingNodeDetachRequest vmName location attached vmName vmHostname
    (VM_Description vm) volumeID (network a) (billing a) in
  match validateMissingNodeDetachRequest request with
  | Err _ => Ret (Err (wrapS ErrUnavailable "exact VM cannot prove Karpenter identity for missing node"))
  | Ok _ =>
    if vmName != nodeID then Ret (Ok false)
    else if negb (nodes_authorize a) then Ret (Err (wrapS ErrUnavailable "node resolver cannot authorize Karpenter missing-node detach"))
    else
      let! err := call (AuthorizeMissingNodeDetach ctx request) in
      match err with
      | None => Ret (Ok true)
      | Some e => if Is e Canceled || Is e DeadlineExceeded then Ret (Err e)
                  else Ret (Err (wrapS ErrUnavailable "authorize missing-node detach"))
      end
  end end end.

(** ** Contexts, deadlines and the per-VM lock *)

(** [context.WithTimeout(context.WithoutCancel(parent), d)]. *)
Definition detachedContext (d : Z) : program context :=
  let! now := call Now in Ret (Build_context (Some (now + d)) true).

Definition mutationReadbackContext : program context := detachedContext (readback a).
Definition destructiveReadbackContext : program context := detachedContext (destructive a).

Definition dispatchReserveShortfall (ctx : context) : program goerr :=
  match ctx_Deadline ctx with
  | None => Ret None
  | Some deadline =>
      let! now := call Now in
      if deadline - now <? minimumMutationDispatchReserve
      then Ret (Some (wrapS ErrUnavailable "CSI mutation requires a deadline reserve at dispatch"))
      else Ret None
  end.

Definition requireMutationDispatchReserve (ctx : context) : program goerr :=
  let! err := call (CtxErr ctx) in
  match err with
  | Some e => Ret (Some e)
  | None => dispatchReserveShortfall ctx
  end.

(** The key whose lock the caller then holds. *)
Definition lockVM (ctx : context) (vmUUID : string) : program (result string) :=
  let key := ToLower vmUUID in
  let waitCtx := match ctx_Deadline ctx with
                 | None => ctx
                 | Some deadline => Build_context (Some (deadline - minimumMutationDispatchReserve)) (ctx_Detached ctx)
                 end in
  let! err := call (Lock waitCtx key) in
  match err with
  | Some _ =>
      let! parentErr := call (CtxErr ctx) in
      match parentErr with
      | Some e => Ret (Err e)
      | None => Ret (Err (wrapS ErrUnavailable "VM is busy with another storage mutation and the request has no time left to wait for it"))
      end
  | None =>
      let! short := dispatchReserveShortfall ctx in
      match short with
      | Some e => let! _ := call (Unlock key) in Ret (Err e)
      | None => Ret (Ok key)
      end
  end.

(** [defer unlockVM()]. *)
Definition unlocking {A} (key : string) (body : program A) : program A :=
  let! r := body in let! _ := call (Unlock key) in Ret r.

Definition waitMutationReadback (ctx : context) (delay : Z) : program goerr := call (Wait ctx delay).

Definition waitMutationReadbackUntil (ctx : context) (deadline : Z) : program goerr :=
  let! now := call Now in
  if deadline - now <=? 0 then Ret None else call (Wait ctx (deadline - now)).
End Reads.
