(* ===== verification/CSIRecovery.v ===== *)
(** * The CSI cloud adapter: fence acquisition and mutation readback

    Models modules/csi-driver/pkg/cloud/inspace/mutation_recovery.go. Each polling loop runs on
    [fuel] iterations; [OutOfFuel] is a loop that has not finished yet. Callers print the errors of
    these loops with [%v], so what a loop joins to them (the last observation, the mutation's own
    error) is part of a message and not of the error tree. *)

From S2P Require Import Prelude GoErrors ClientTypes ClientErrors CSIFence CSIDetachAuthority Prog CSIAdapter.

Section Recovery.
Context `{JT : JSONText} `{TT : TimeText} (sha256_hex : string -> string) (fuel : nat) (a : Adapter).

(** A pointer-and-error answer that callers read as an error first. *)
Definition deref {A} (missing : string) (reply : option A * goerr) : result A :=
  match reply with
  | (_, Some e) => Err e
  | (None, None) => Err (Msg missing)
  | (Some x, None) => Ok x
  end.

Definition deleteMutationFenceDetached (fence : mutationFence) : program goerr :=
  let! deleteCtx := mutationReadbackContext a in call (FenceDelete deleteCtx fence).

(** The cleanup every method repeats before a mutation was dispatched: clear the fence, return
    the cause, joined with the failure to clear if there was one. *)
Definition clearFence (fence : mutationFence) (cause : error) : program error :=
  let! deleteErr := deleteMutationFenceDetached fence in
  match deleteErr with
  | Some d => Ret (Wrap "" [cause; Wrap "clear unissued fence" [d]])
  | None => Ret cause
  end.

Definition clearUndispatchedDiskCreateFence (fence : mutationFence) (cause : error) : program error :=
  clearFence fence cause.

(** ** Disk creation *)

Definition beginDiskCreateFence (ctx : context) (intent : diskCreateIntent) : program (result (mutationFence * bool)) :=
  let key := diskCreateFenceKey sha256_hex (dc_Location intent) (dc_Name intent) in
  let! '(current, err) := call (FenceGet ctx key) in
  match err with Some e => Ret (Err e) | None =>
  match current with
  | Some current =>
      match decodeMutationIntent diskCreateIntent current with
      | Err e => Ret (Err e)
      | Ok stored =>
          if stored != intent then Ret (Err (wrapS ErrIncompatibleVolume "unresolved disk-create fence has another intent"))
          else Ret (Ok (current, false))
      end
  | None =>
      let! token := call Rand in
      match newMutationFence key intent token with
      | Err e => Ret (Err e)
      | Ok candidate =>
          let! '(stored, acquired, err) := call (FenceCreate ctx candidate) in
          match deref "CSI mutation fence store returned an empty create result" (stored, err) with
          | Err e => Ret (Err e)
          | Ok stored =>
              match decodeMutationIntent diskCreateIntent stored with
              | Err e => Ret (Err e)
              | Ok actual =>
                  if (Key stored != key) || (actual != intent)
                  then Ret (Err (wrapS ErrIncompatibleVolume "disk-create fence changed during acquisition"))
                  else Ret (Ok (stored, acquired))
              end
          end
      end
  end end.

Fixpoint waitForDiskReady_loop (n : nat) (ctx : context) (intent : diskCreateIntent) (expectedUUID : string) (disk : Disk) : program (result Disk) :=
  match n with
  | O => OutOfFuel
  | S n =>
      match validateExactDisk disk expectedUUID (dc_BillingAccountID intent) with
      | Some _ => Ret (Err (wrapS ErrIncompatibleVolume "disk create readiness identity changed"))
      | None =>
        match validateDiskCreateReadback disk intent with
        | Some e => Ret (Err e)
        | None =>
          let status := ToLower (TrimSpace (Disk_Status disk)) in
          if status == "active" then Ret (Ok disk)
          else if (status == "error") || (status == "failed") || (status == "deleted")
          then Ret (Err (Msg "InSpace disk entered terminal status"))
          else
            let! done := call (Wait ctx (poll a)) in
            match done with
            | Some e => Ret (Err e)
            | None =>
                let! '(current, err) := call (GetDisk ctx (dc_Location intent) (Disk_UUID disk)) in
                match err with
                | Some e => Ret (Err (normalized e))
                | None =>
                    match current with
                    | None => Ret (Err (Msg "InSpace API returned an empty disk response"))
                    | Some current => waitForDiskReady_loop n ctx intent expectedUUID current
                    end
                end
            end
        end
      end
  end.

Definition waitForDiskReady (ctx : context) (intent : diskCreateIntent) (disk : Disk) : program (result Disk) :=
  waitForDiskReady_loop fuel ctx intent (canonicalUUID (Disk_UUID disk)) disk.

Definition completeFencedDisk (ctx : context) (intent : diskCreateIntent) (fence : mutationFence) (ready : Disk) : program (result Volume) :=
  let! reply := call (FenceSetReceipt ctx fence (ToLower (Disk_UUID ready))) in
  match reply with
  | (_, Some _) => Ret (Err (wrapS ErrUnavailable "persist canonical disk-create receipt after authoritative readback"))
  | (None, None) => Panic (* nil dereference *)
  | (Some canonical, None) =>
      match diskVolume (dc_Location intent) ready with
      | Err e => Ret (Err e)
      | Ok volume =>
          let! err := call (FenceDelete ctx canonical) in
          match err with
          | Some _ => Ret (Err (wrapS ErrUnavailable "complete disk-create fence after authoritative readback"))
          | None => Ret (Ok volume)
          end
      end
  end.

Definition finishFencedDisk (ctx : context) (intent : diskCreateIntent) (fence : mutationFence) (disk : Disk) : program (result Volume) :=
  match validateDiskCreateReadback disk intent with
  | Some e => Ret (Err e)
  | None =>
      try_let! ready := waitForDiskReady ctx intent disk in
      completeFencedDisk ctx intent fence ready
  end.

Definition finishUndispatchedFencedDisk (ctx : context) (intent : diskCreateIntent) (fence : mutationFence) (disk : Disk) : program (result Volume) :=
  match validateDiskCreateReadback disk intent with
  | Some e => let! e' := clearUndispatchedDiskCreateFence fence e in Ret (Err e')
  | None =>
      let! ready := waitForDiskReady ctx intent disk in
      match ready with
      | Err e => let! e' := clearUndispatchedDiskCreateFence fence e in Ret (Err e')
      | Ok ready => completeFencedDisk ctx intent fence ready
      end
  end.

Fixpoint reconcileDiskCreateFence_loop (n : nat) (ctx : context) (intent : diskCreateIntent) (fence : mutationFence) : program (result Volume) :=
  match n with
  | O => OutOfFuel
  | S n =>
      let! '(disks, listErr) := call (ListDisks ctx (dc_Location intent)) in
      let retry :=
        let! err := waitMutationReadback ctx (poll a) in
        match err with
        | Some _ => Ret (Err (wrapS ErrUnavailable "disk create outcome remains ambiguous behind durable fence"))
        | None => reconcileDiskCreateFence_loop n ctx intent fence
        end in
      match listErr with
      | None =>
          match uniqueNamedDisk disks (dc_Name intent) with
          | Err e => Ret (Err e)
          | Ok (Some disk) => finishFencedDisk ctx intent fence disk
          | Ok None => retry
          end
      | Some _ => retry
      end
  end.

Definition reconcileDiskCreateFence (ctx : context) (intent : diskCreateIntent) (fence : mutationFence) : program (result Volume) :=
  match decodeMutationIntent diskCreateIntent fence with
  | Err e => Ret (Err e)
  | Ok stored =>
      if (stored != intent) || (Key fence != diskCreateFenceKey sha256_hex (dc_Location intent) (dc_Name intent))
      then Ret (Err (wrapS ErrIncompatibleVolume "disk-create fence does not match the requested volume"))
      else reconcileDiskCreateFence_loop fuel ctx intent fence
  end.

(** One fence of [matchingDiskCreateFence]'s loop. *)
Fixpoint matchCreateFences (location volumeID : string) (disk : option Disk) (fences : list mutationFence) (match_ : option mutationFence) : result (option mutationFence) :=
  match fences with
  | [] => Ok match_
  | fence :: rest =>
      let decoded := decodeMutationIntent diskCreateIntent fence in
      match decoded with
      | Err e => Err (Wrap "" [e; wrapS ErrConflict "malformed disk-create fence"])
      | Ok intent =>
        if (dc_Operation intent != "create-disk") || negb (EqualFold (dc_Location intent) location)
        then Err (wrapS ErrConflict "malformed disk-create fence")
        else
        let matchesReceipt := (Receipt fence != "") && EqualFold (Receipt fence) volumeID in
        let matchesName := match disk with
          | Some d => (Disk_DisplayName d != "") && (Disk_DisplayName d == dc_Name intent)
          | None => false end in
        let unnamed := match disk with Some d => Disk_DisplayName d == "" | None => false end in
        if unnamed && (Receipt fence == "") then Err (wrapS ErrUnavailable "cannot exclude unresolved create fence while disk has no display name")
        else if negb matchesReceipt && negb matchesName then matchCreateFences location volumeID disk rest match_
        else match match_ with
        | Some _ => Err (wrapS ErrConflict "multiple durable create fences match disk")
        | None =>
          if Receipt fence == "" then Err (wrapS ErrUnavailable "create fence has no exact disk receipt and could still commit")
          else if negb (EqualFold (Receipt fence) volumeID) then Err (wrapS ErrConflict "create fence receipt conflicts with disk")
          else match (match disk with Some d => validateDiskCreateReadback d intent | None => None end) with
          | Some e => Err e
          | None => matchCreateFences location volumeID disk rest (Some fence)
          end
        end
      end
  end.

Definition matchingDiskCreateFence (ctx : context) (location volumeID : string) (disk : option Disk) : program (result (option mutationFence)) :=
  let! '(fences, err) := call (FenceList ctx ("disk-create/" +:+ ToLower location +:+ "/")) in
  match err with
  | Some e => Ret (Err e)
  | None => Ret (matchCreateFences location volumeID disk fences None)
  end.

(** ** Absence proofs *)

(** The fence after the update, or [None] when it has been completed by another controller. *)
Definition updateMutationObservation (ctx : context) (fence : mutationFence) (observation : string) : program (result (option mutationFence)) :=
  let! '(updated, err) := call (FenceSetObservation ctx fence observation) in
  match err with
  | None =>
      match updated with
      | None => Ret (Err (Msg "CSI mutation fence store returned an empty observation result"))
      | Some f => Ret (Ok (Some f))
      end
  | Some e =>
      if negb (Is e ErrMutationFenceChanged) then Ret (Err e)
      else
        let! '(current, getErr) := call (FenceGet ctx (Key fence)) in
        match getErr with
        | Some g => Ret (Err (Wrap "" [e; g]))
        | None =>
            match current with
            | None => Ret (Ok None)
            | Some current =>
                if negb (sameMutationFenceAuthority current fence)
                then Ret (Err (wrapS ErrConflict "CSI mutation authority changed during observation update"))
                else Ret (Ok (Some current))
            end
        end
  end.

(** The observation a fence carries when a loop iteration starts: none, or one of the
    operation's own kind with the required spacing. *)
Definition currentObservation (kind : string) (fence : mutationFence) : result mutationObservation :=
  if Observation fence == "" then Ok zero_observation
  else match decodeMutationObservation (Observation fence) with
  | Err e => Err e
  | Ok decoded =>
      if mo_Kind decoded != kind then Err (Msg "mutation fence contains another operation's absence observation")
      else match validateMutationObservationSpacing decoded (absencePoll a) with
      | Some e => Err e
      | None => Ok decoded
      end
  end.

(** What an iteration that observed absence does with the persisted count. *)
Inductive absence_step :=
  | AbsenceDone (fence : mutationFence)      (* the loop returns the fence *)
  | AbsenceCompleted                          (* another controller completed it *)
  | AbsenceAgain (fence : mutationFence)      (* poll, then iterate *)
  | AbsenceEarly (notBefore : Z)              (* wait until then, then iterate with the same fence *)
  | AbsenceFail (e : error).

(** The [switch observation.Count] of [waitForDiskAbsent] and [waitForDetached]. *)
Definition recordAbsence (ctx : context) (kind : string) (fence : mutationFence) (observation : mutationObservation) : program absence_step :=
  let! now := call Now in
  let publish (next : mutationObservation) (final : bool) :=
    match encodeMutationObservation next with
    | Err e => Ret (AbsenceFail e)
    | Ok encoded =>
        let! updated := updateMutationObservation ctx fence encoded in
        match updated with
        | Err e => Ret (AbsenceFail e)
        | Ok None => Ret AbsenceCompleted
        | Ok (Some f) => Ret (if final then AbsenceDone f else AbsenceAgain f)
        end
    end in
  if mo_Count observation =? 0 then publish (Build_mutationObservation kind 1 (format_time now) "") false
  else if (mo_Count observation =? 1) || (mo_Count observation =? 2) then
    let previousAt := if mo_Count observation =? 2 then mo_LastObservedAt observation else mo_FirstObservedAt observation in
    match parse_time previousAt with
    | None => Ret (AbsenceFail (Msg "mutation fence has an invalid observation timestamp"))
    | Some last =>
        let notBefore := last + absencePoll a in
        if now <? notBefore then Ret (AbsenceEarly notBefore)
        else publish (Build_mutationObservation kind (mo_Count observation + 1) (mo_FirstObservedAt observation) (format_time now))
               (mo_Count observation =? 2)
    end
  else if mo_Count observation =? 3 then Ret (AbsenceDone fence)
  else Ret (AbsenceFail (Msg "mutation fence has an invalid absence observation")).

(** The exact read of [waitForDiskAbsent]: absent, visible, or a fatal identity error. *)
Definition exactDiskAbsent (volumeID : string) (reply : option Disk * goerr) : result bool :=
  let '(disk, getErr) := reply in
  if Client.IsNotFound getErr then Ok true
  else match getErr with
  | Some _ => Ok false
  | None =>
      match disk with
      | None => Ok false
      | Some disk =>
          check! validateExactDisk disk volumeID (billing a) in
          Ok (diskDeletedTombstone disk)
      end
  end.

(** The rows of a list answer that carry the UUID: each must pass the ownership check. *)
Fixpoint listedDiskRows (volumeID : string) (disks : list Disk) (matches_ : Z) : result Z :=
  match disks with
  | [] => Ok matches_
  | current :: rest =>
      if EqualFold (Disk_UUID current) volumeID then
        check! validateExactDisk current volumeID (billing a) in
        listedDiskRows volumeID rest (matches_ + 1)
      else listedDiskRows volumeID rest matches_
  end.

Definition listDiskAbsent (volumeID : string) (reply : list Disk * goerr) : result bool :=
  let '(disks, listErr) := reply in
  match listErr with
  | Some _ => Ok false
  | None =>
      try! matches_ := listedDiskRows volumeID disks 0 in
      if 1 <? matches_ then Err (wrapS ErrConflict "disk list contains a UUID several times")
      else Ok (matches_ =? 0)
  end.

(** Clears a persisted observation while the resource is visible. *)
Definition resetObservation (ctx : context) (fence : mutationFence) : program (result mutationFence) :=
  if Observation fence == "" then Ret (Ok fence)
  else
    try_let! updated := updateMutationObservation ctx fence "" in
    match updated with
    | None => Ret (Err (Msg "mutation fence disappeared while its disk was visible"))
    | Some f => Ret (Ok f)
    end.

Fixpoint waitForDiskAbsent_loop (n : nat) (ctx : context) (location volumeID : string) (currentFence : mutationFence) : program (result mutationFence) :=
  match n with
  | O => OutOfFuel
  | S n =>
      match currentObservation diskDeleteAbsenceObservationKind currentFence with
      | Err e => Ret (Err e)
      | Ok observation =>
        let! exact := call (GetDisk ctx location volumeID) in
        match exactDiskAbsent volumeID exact with
        | Err e => Ret (Err e)
        | Ok getAbsent =>
          let! listed := call (ListDisks ctx location) in
          match listDiskAbsent volumeID listed with
          | Err e => Ret (Err e)
          | Ok listAbsent =>
            if negb getAbsent || negb listAbsent then
              try_let! fence := resetObservation ctx currentFence in
              let! err := waitMutationReadback ctx (poll a) in
              match err with
              | Some e => Ret (Err e)
              | None => waitForDiskAbsent_loop n ctx location volumeID fence
              end
            else
              let! step := recordAbsence ctx diskDeleteAbsenceObservationKind currentFence observation in
              match step with
              | AbsenceFail e => Ret (Err e)
              | AbsenceDone f => Ret (Ok f)
              | AbsenceCompleted => Ret (Ok zero_fence)
              | AbsenceEarly notBefore =>
                  let! err := waitMutationReadbackUntil ctx notBefore in
                  match err with
                  | Some e => Ret (Err e)
                  | None => waitForDiskAbsent_loop n ctx location volumeID currentFence
                  end
              | AbsenceAgain f =>
                  let! err := waitMutationReadback ctx (poll a) in
                  match err with
                  | Some e => Ret (Err e)
                  | None => waitForDiskAbsent_loop n ctx location volumeID f
                  end
              end
          end
        end
      end
  end.

Definition waitForDiskAbsent (ctx : context) (location volumeID : string) (fence : mutationFence) : program (result mutationFence) :=
  waitForDiskAbsent_loop fuel ctx location volumeID fence.

(** ** Attachment *)

Fixpoint waitForAttachment_loop (n : nat) (ctx : context) (location volumeID desired transitional : string) : program goerr :=
  match n with
  | O => OutOfFuel
  | S n =>
      let! current := attachedVM a ctx location volumeID in
      match current with
      | Err e => Ret (Some e)
      | Ok current =>
          if current == desired then Ret None
          else if current != transitional then Ret (Some (wrapS ErrVolumeAttachedElsewhere "disk converged to another VM"))
          else
            let! err := call (Wait ctx (poll a)) in
            match err with
            | Some e => Ret (Some e)
            | None => waitForAttachment_loop n ctx location volumeID desired transitional
            end
      end
  end.

Definition waitForAttachment (ctx : context) (location volumeID desired transitional : string) : program goerr :=
  waitForAttachment_loop fuel ctx location volumeID desired transitional.

(** State of the list half of [observeDetachState]. *)
Record listedState := { ls_VM : string; ls_Rows : Z; ls_Err : goerr }.

Definition invalidVM : string := "<invalid-vm>".

(** One storage row that names the disk, on the VM with UUID [uuid]. *)
Definition listedRow (uuid : string) (storage : VMStorage) (st : listedState) : listedState :=
  let err1 := if VMStorage_Primary storage
              then Join [ls_Err st; Some (wrapS ErrPermissionDenied "disk is listed as the primary boot disk of a VM")]
              else ls_Err st in
  let rows := ls_Rows st + 1 in
  let vmUUID := ToLower uuid in
  if negb (uuidPattern vmUUID) then
    Build_listedState (if ls_VM st == "" then invalidVM else ls_VM st) rows
      (Join [err1; Some (Msg "InSpace reported disk on a VM with invalid UUID")])
  else
    let err2 := if (ls_VM st != "") && negb (EqualFold (ls_VM st) vmUUID)
                then Join [err1; Some (Msg "InSpace reported disk attached to multiple VMs")] else err1 in
    Build_listedState (if (ls_VM st == "") || (ls_VM st == invalidVM) then vmUUID else ls_VM st) rows err2.

Definition listedVMState (diskUUID : string) (vm : VM) (st : listedState) : listedState :=
  fold_left (fun st storage => if EqualFold (VMStorage_UUID storage) diskUUID then listedRow (VM_UUID vm) storage st else st)
    (storage_rows vm) st.

Definition listedState_of (diskUUID : string) (vms : list VM) : listedState :=
  let st := fold_left (fun st vm => listedVMState diskUUID vm st) vms (Build_listedState "" 0 None) in
  if 1 <? ls_Rows st
  then Build_listedState (ls_VM st) (ls_Rows st) (Join [ls_Err st; Some (Msg "InSpace reported disk in several ListVMs attachment rows")])
  else st.

(** The exact half: whether the previous VM still shows the disk, and the state error. [Err] is
    a failed read, which aborts the observation. *)
Definition exactDetachState (intent : diskAttachmentIntent) (reply : option VM * goerr) : result (bool * goerr) :=
  let '(vm, getErr) := reply in
  if Client.IsNotFound getErr then Ok (false, None)
  else match getErr with
  | Some e => Err (normalized e)
  | None =>
    match vm with
    | None => Err (Msg "InSpace API returned an empty VM during detach readback")
    | Some vm =>
      if negb (EqualFold (VM_UUID vm) (da_PreviousVMUUID intent))
      then Ok (false, Some (Msg "InSpace API returned another VM for exact detach readback"))
      else match validateExactVM a vm (da_PreviousVMUUID intent) with
      | Some e => Ok (false, Some e)
      | None =>
        match requireExactVMAttachmentCollection vm with
        | Some e => Ok (false, Some e)
        | None =>
          match rejectPrimaryDiskReference vm (da_DiskUUID intent) with
          | Some e => Ok (false, Some e)
          | None =>
            let rows := vmDiskRows vm (da_DiskUUID intent) in
            Ok (0 <? rows, if 1 <? rows then Some (Msg "InSpace reported disk in several exact attachment rows") else None)
          end
        end
      end
    end
  end.

Definition observeDetachState (ctx : context) (intent : diskAttachmentIntent) : program (string * goerr) :=
  let! '(vms, err) := call (ListVMs ctx (da_Location intent)) in
  match err with
  | Some e => Ret ("", Some (normalized e))
  | None =>
      let listed := listedState_of (da_DiskUUID intent) vms in
      let! reply := call (GetVM ctx (da_Location intent) (da_PreviousVMUUID intent)) in
      match exactDetachState intent reply with
      | Err e => Ret ("", Some e)
      | Ok (exactPresent, exactStateErr) =>
          let err := Join [ls_Err listed; exactStateErr] in
          if ls_VM listed != "" then Ret (ls_VM listed, err)
          else if exactPresent then Ret (ToLower (da_PreviousVMUUID intent), err)
          else Ret ("", err)
      end
  end.

Fixpoint waitForDetached_loop (n : nat) (ctx : context) (intent : diskAttachmentIntent) (currentFence : mutationFence) : program (result mutationFence) :=
  match n with
  | O => OutOfFuel
  | S n =>
      match currentObservation detachAbsenceObservationKind currentFence with
      | Err e => Ret (Err e)
      | Ok observation =>
        let! '(visibleVM, stateErr) := observeDetachState ctx intent in
        if visibleVM != "" then
          try_let! fence := resetObservation ctx currentFence in
          match stateErr with
          | Some e => Ret (Err e)
          | None =>
              if negb (EqualFold visibleVM (da_PreviousVMUUID intent))
              then Ret (Err (wrapS ErrVolumeAttachedElsewhere "disk converged to another VM instead of detached"))
              else
                let! err := waitMutationReadback ctx (poll a) in
                match err with
                | Some e => Ret (Err e)
                | None => waitForDetached_loop n ctx intent fence
                end
          end
        else match stateErr with
        | Some e => Ret (Err e)
        | None =>
            let! step := recordAbsence ctx detachAbsenceObservationKind currentFence observation in
            match step with
            | AbsenceFail e => Ret (Err e)
            | AbsenceDone f => Ret (Ok f)
            | AbsenceCompleted => Ret (Ok zero_fence)
            | AbsenceEarly notBefore =>
                let! err := waitMutationReadbackUntil ctx notBefore in
                match err with
                | Some e => Ret (Err e)
                | None => waitForDetached_loop n ctx intent currentFence
                end
            | AbsenceAgain f =>
                let! err := waitMutationReadback ctx (poll a) in
                match err with
                | Some e => Ret (Err e)
                | None => waitForDetached_loop n ctx intent f
                end
            end
        end
      end
  end.

Definition waitForDetached (ctx : context) (intent : diskAttachmentIntent) (fence : mutationFence) : program (result mutationFence) :=
  waitForDetached_loop fuel ctx intent fence.

Definition waitForFencedAttachment (ctx : context) (intent : diskAttachmentIntent) (fence : mutationFence) : program (result mutationFence) :=
  if negb (da_BillingAccountID intent =? billing a) || (da_BillingAccountID intent <=? 0)
  then Ret (Err (wrapS ErrConflict "attachment fence billing account does not match the configured account"))
  else if da_DesiredVMUUID intent != "" then
    if Observation fence != "" then Ret (Err (Msg "attach mutation fence contains a detach-absence observation"))
    else
      let! err := waitForAttachment ctx (da_Location intent) (da_DiskUUID intent) (da_DesiredVMUUID intent) (da_PreviousVMUUID intent) in
      match err with
      | Some e => Ret (Err e)
      | None => Ret (Ok fence)
      end
  else if (da_PreviousVMUUID intent == "") || negb (uuidPattern (ToLower (da_PreviousVMUUID intent)))
  then Ret (Err (Msg "detach mutation fence has an invalid previous VM UUID"))
  else waitForDetached ctx intent fence.

(** The readback window: destructive for a detach, ordinary for an attach. *)
Definition attachmentReadbackContext (intent : diskAttachmentIntent) : program context :=
  if da_DesiredVMUUID intent == "" then destructiveReadbackContext a else mutationReadbackContext a.

(** Completes a resolved fence; the empty fence was completed by another controller. *)
Definition completeResolvedFence (ctx : context) (fence : mutationFence) : program goerr :=
  if Key fence != "" then
    let! err := call (FenceDelete ctx fence) in
    match err with
    | Some _ => Ret (Some (wrapS ErrUnavailable "complete attachment fence"))
    | None => Ret None
    end
  else Ret None.

Definition settleExistingAttachmentFence (ctx : context) (requested : diskAttachmentIntent) : program (result bool) :=
  if negb (da_BillingAccountID requested =? billing a) || (da_BillingAccountID requested <=? 0)
  then Ret (Err (wrapS ErrConflict "requested disk mutation billing account does not match the configured account"))
  else
  let! '(fence, err) := call (FenceGet ctx (diskAttachmentFenceKey (da_Location requested) (da_DiskUUID requested))) in
  match err with Some e => Ret (Err e) | None =>
  match fence with
  | None => Ret (Ok false)
  | Some fence =>
    match decodeMutationIntent diskAttachmentIntent fence with
    | Err e => Ret (Err e)
    | Ok intent =>
      if (da_Location intent != da_Location requested) || (da_DiskUUID intent != da_DiskUUID requested)
         || negb (da_BillingAccountID intent =? billing a)
      then Ret (Err (wrapS ErrConflict "attachment fence identity does not match disk"))
      else if da_Operation intent == "disk-delete"
      then Ret (Err (wrapS ErrUnavailable "disk deletion remains protected by durable fence"))
      else if da_Operation intent != "disk-attachment"
      then Ret (Err (wrapS ErrConflict "unknown disk mutation fence operation"))
      else
        let! readbackCtx := attachmentReadbackContext intent in
        let! resolved := waitForFencedAttachment readbackCtx intent fence in
        match resolved with
        | Err _ => Ret (Err (wrapS ErrUnavailable "unresolved durable attachment fence"))
        | Ok resolvedFence =>
            let! err := completeResolvedFence readbackCtx resolvedFence in
            match err with
            | Some e => Ret (Err e)
            | None => Ret (Ok (intent == requested))
            end
        end
    end
  end end.

(** ** Acquisition *)

Definition diskDeleteIntent (location diskUUID : string) : diskAttachmentIntent :=
  Build_diskAttachmentIntent "disk-delete" location (ToLower diskUUID) (billing a) "" "" "".

(** [for range 3]. *)
Fixpoint prepareDiskDeleteFence_loop (n : nat) (ctx : context) (location diskUUID : string) : program (result (mutationFence * bool)) :=
  let intent := diskDeleteIntent location diskUUID in
  let key := diskAttachmentFenceKey location diskUUID in
  match n with
  | O => Ret (Err (wrapS ErrUnavailable "disk-delete fence changed repeatedly during acquisition"))
  | S n =>
      let! '(current, err) := call (FenceGet ctx key) in
      match err with Some e => Ret (Err e) | None =>
      match current with
      | Some current =>
          match decodeMutationIntent diskAttachmentIntent current with
          | Err e => Ret (Err e)
          | Ok stored =>
              if stored == intent then Ret (Ok (current, false))
              else
                try_let! _ := settleExistingAttachmentFence ctx intent in
                prepareDiskDeleteFence_loop n ctx location diskUUID
          end
      | None =>
          let! token := call Rand in
          match newMutationFence key intent token with
          | Err e => Ret (Err e)
          | Ok candidate =>
              let! '(stored, acquired, err) := call (FenceCreate ctx candidate) in
              match deref "CSI mutation fence store returned an empty disk-delete result" (stored, err) with
              | Err e => Ret (Err e)
              | Ok stored =>
                  match decodeMutationIntent diskAttachmentIntent stored with
                  | Err e => Ret (Err e)
                  | Ok actual =>
                      if actual == intent then Ret (Ok (stored, acquired))
                      else prepareDiskDeleteFence_loop n ctx location diskUUID
                  end
              end
          end
      end end
  end.

Definition prepareDiskDeleteFence (ctx : context) (location diskUUID : string) : program (result (mutationFence * bool)) :=
  prepareDiskDeleteFence_loop 3 ctx location diskUUID.

Definition beginAttachmentFence (ctx : context) (intent : diskAttachmentIntent) : program (result (mutationFence * bool)) :=
  let key := diskAttachmentFenceKey (da_Location intent) (da_DiskUUID intent) in
  let! token := call Rand in
  match newMutationFence key intent token with
  | Err e => Ret (Err e)
  | Ok candidate =>
      let! '(stored, acquired, err) := call (FenceCreate ctx candidate) in
      match deref "CSI mutation fence store returned an empty attachment result" (stored, err) with
      | Err e => Ret (Err e)
      | Ok stored =>
          match decodeMutationIntent diskAttachmentIntent stored with
          | Err e => Ret (Err e)
          | Ok actual =>
              if (Key stored != key) || (actual != intent) then Ret (Ok (stored, false))
              else Ret (Ok (stored, acquired))
          end
      end
  end.

(** The acquired fence, or [None] when the requested state was settled by an earlier attempt. *)
Fixpoint prepareAttachmentFence_loop (n : nat) (ctx : context) (intent : diskAttachmentIntent) : program (result (option mutationFence)) :=
  match n with
  | O => Ret (Err (wrapS ErrUnavailable "attachment fence changed repeatedly during acquisition"))
  | S n =>
      try_let! alreadyDone := settleExistingAttachmentFence ctx intent in
      if alreadyDone : bool then Ret (Ok None)
      else
        try_let! '(fence, acquired) := beginAttachmentFence ctx intent in
        if acquired : bool then Ret (Ok (Some fence))
        else prepareAttachmentFence_loop n ctx intent
  end.

Definition prepareAttachmentFence (ctx : context) (intent : diskAttachmentIntent) : program (result (option mutationFence)) :=
  prepareAttachmentFence_loop 3 ctx intent.

Definition finishAttachmentMutation (intent : diskAttachmentIntent) (fence : mutationFence) (mutationErr : goerr) : program goerr :=
  if errIs mutationErr ErrMutationBlocked then
    let! err := deleteMutationFenceDetached fence in
    match err with
    | Some e => Ret (Join [mutationErr; Some (Wrap "clear locally blocked disk attachment fence" [e])])
    | None => Ret mutationErr
    end
  else
    let! readbackCtx := attachmentReadbackContext intent in
    let! resolved := waitForFencedAttachment readbackCtx intent fence in
    match resolved with
    | Err _ => Ret (Some (wrapS ErrUnavailable "disk attachment outcome remains ambiguous behind durable fence"))
    | Ok resolvedFence => completeResolvedFence readbackCtx resolvedFence
    end.
End Recovery.
