(* ===== verification/CSIVolumes.v ===== *)
(** * The CSI cloud adapter: volume methods

    Models the methods of [cloud.Interface] in
    modules/csi-driver/pkg/cloud/inspace/adapter.go and expand.go: EnsureVolume, GetVolume,
    DeleteVolume, AttachVolume, DetachVolume, ExpandVolume and Probe. *)

From S2P Require Import Prelude GoErrors ClientTypes ClientErrors CSIFence CSIDetachAuthority Prog CSIAdapter CSIRecovery.

Section Volumes.
Context `{JT : JSONText} `{TT : TimeText} (sha256_hex : string -> string) (fuel : nat) (a : Adapter).

Definition Probe (ctx : context) : program goerr :=
  let! '(_, err) := call (ListDisks ctx (location_ a)) in Ret (normalizeAPIError err).

Definition GetVolume (ctx : context) (location volumeID : string) : program (result Volume) :=
  try_let! disk := getOwnedDisk a ctx location volumeID in Ret (diskVolume location disk).

(** ** EnsureVolume *)

(** An existing disk: wait until it is ready, then clear the fence of a lost create. *)
Definition adoptExistingDisk (ctx : context) (spec : VolumeSpec) (intent : diskCreateIntent) (existing : Disk) : program (result Volume) :=
  match validateDiskCreateReadback existing intent with
  | Some e => Ret (Err e)
  | None =>
    try_let! ready := waitForDiskReady fuel a ctx intent existing in
    let! '(fence, fenceErr) := call (FenceGet ctx (diskCreateFenceKey sha256_hex (dc_Location intent) (dc_Name intent))) in
    match fenceErr with
    | Some e => Ret (Err e)
    | None =>
      match fence with
      | None => Ret (diskVolume (Spec_Location spec) ready)
      | Some fence =>
        match decodeMutationIntent diskCreateIntent fence with
        | Err e => Ret (Err (Wrap "" [e; wrapS ErrIncompatibleVolume "same-named disk does not match its durable create fence"]))
        | Ok stored =>
          if stored != intent then Ret (Err (Wrap "" [wrapS ErrIncompatibleVolume "same-named disk does not match its durable create fence"]))
          else
            let! reply := call (FenceSetReceipt ctx fence (ToLower (Disk_UUID ready))) in
            match reply with
            | (_, Some _) => Ret (Err (wrapS ErrUnavailable "persist canonical disk-create receipt"))
            | (None, None) => Panic (* nil dereference *)
            | (Some canonical, None) =>
                let! deleteErr := call (FenceDelete ctx canonical) in
                match deleteErr with
                | Some _ => Ret (Err (wrapS ErrUnavailable "complete disk-create fence"))
                | None => Ret (diskVolume (Spec_Location spec) ready)
                end
            end
        end
      end
    end
  end.

(** From the acquired fence to the paid POST and its readback. *)
Definition createFencedDisk (ctx : context) (spec : VolumeSpec) (intent : diskCreateIntent) (fence : mutationFence) : program (result Volume) :=
  let clear (cause : error) := let! e := clearUndispatchedDiskCreateFence a fence cause in Ret (Err e) in
  let! '(postFenceDisks, postFenceErr) := call (ListDisks ctx (Spec_Location spec)) in
  match postFenceErr with
  | Some _ => clear (wrapS ErrUnavailable "post-fence disk-create authority is unavailable behind durable fence")
  | None =>
    match uniqueNamedDisk postFenceDisks (Spec_Name spec) with
    | Err findErr => clear findErr
    | Ok (Some existing) =>
        let! readbackCtx := mutationReadbackContext a in
        finishUndispatchedFencedDisk fuel a readbackCtx intent fence existing
    | Ok None =>
        let! reserveErr := requireMutationDispatchReserve ctx in
        match reserveErr with
        | Some e => clear e
        | None =>
          let! '(_, createErr) := call (CreateDisk ctx (Spec_Location spec)
            (Build_CreateDiskRequest (Spec_Name spec) (dc_SizeGiB intent) (billing a) "EMPTY" "")) in
          let! readbackCtx := mutationReadbackContext a in
          match createErr with
          | Some e =>
              if Is e ErrMutationBlocked then
                let! deleteErr := deleteMutationFenceDetached a fence in
                match deleteErr with
                | Some d => Ret (Err (Wrap "" [e; Wrap "clear locally blocked disk-create fence" [d]]))
                | None => Ret (Err e)
                end
              else reconcileDiskCreateFence sha256_hex fuel a readbackCtx intent fence
          | None => reconcileDiskCreateFence sha256_hex fuel a readbackCtx intent fence
          end
        end
    end
  end.

Definition createIntent (spec : VolumeSpec) (sizeGiB : Z) : diskCreateIntent :=
  Build_diskCreateIntent "create-disk" (Spec_Location spec) (Spec_Name spec) sizeGiB (billing a).

Definition EnsureVolume (ctx : context) (spec : VolumeSpec) : program (result Volume) :=
  match bytesToGiB (Spec_CapacityBytes spec) with
  | Err e => Ret (Err e)
  | Ok sizeGiB =>
    let intent := createIntent spec sizeGiB in
    let! '(disks, err) := call (ListDisks ctx (Spec_Location spec)) in
    match err with
    | Some e => Ret (Err (normalized e))
    | None =>
      match uniqueNamedDisk disks (Spec_Name spec) with
      | Err e => Ret (Err e)
      | Ok (Some existing) => adoptExistingDisk ctx spec intent existing
      | Ok None =>
        try_let! '(fence, acquired) := beginDiskCreateFence sha256_hex ctx intent in
        if acquired : bool then createFencedDisk ctx spec intent fence
        else
          let! readbackCtx := mutationReadbackContext a in
          reconcileDiskCreateFence sha256_hex fuel a readbackCtx intent fence
      end
    end
  end.

(** ** DeleteVolume *)

(** Clear the fence of a mutation that was not dispatched and return the cause. *)
Definition abandon (fence : mutationFence) (cause : error) : program goerr :=
  let! e := clearFence a fence cause in Ret (Some e).

(** The same, when this invocation holds the fence. *)
Definition abandonIf (issue : bool) (fence : mutationFence) (cause : error) : program goerr :=
  if issue then abandon fence cause else Ret (Some cause).

(** After an absence proof: complete the matching create fence, then the delete fence. *)
Definition completeDeletion (ctx : context) (createFence : option mutationFence) (deleteFence : mutationFence) : program goerr :=
  let! err := (match createFence return program goerr with Some f => call (FenceDelete ctx f) | None => Ret None end) in
  match err with
  | Some _ => Ret (Some (wrapS ErrUnavailable "complete matching disk-create fence after deletion"))
  | None =>
      let! err := call (FenceDelete ctx deleteFence) in
      match err with
      | Some _ => Ret (Some (wrapS ErrUnavailable "complete disk-delete fence after absence proof"))
      | None => Ret None
      end
  end.

(** What the first exact read of DeleteVolume established. *)
Inductive first_read :=
  | ReadMissing                          (* exact not-found *)
  | ReadDisk (disk : Disk) (tombstone : bool)
  | ReadRejected (e : error).

Definition classifyFirstRead (issueDelete : bool) (volumeID : string) (reply : option Disk * goerr) : first_read :=
  let '(disk, err) := reply in
  if Client.IsNotFound err then ReadMissing
  else match err with
  | Some e => ReadRejected (normalized e)
  | None =>
    match disk with
    | None => ReadRejected (Msg "InSpace API returned an empty disk response")
    | Some disk =>
      match validateExactDisk disk volumeID (billing a) with
      | Some e => ReadRejected e
      | None =>
        let tombstone := diskDeletedTombstone disk in
        if issueDelete && negb tombstone then
          match validateCSIMutableDisk disk volumeID (billing a) with
          | Some e => ReadRejected e
          | None =>
            match requireExactDiskSnapshotCollection disk with
            | Some e => ReadRejected e
            | None => ReadDisk disk tombstone
            end
          end
        else ReadDisk disk tombstone
      end
    end
  end.

Definition snapshots (disk : Disk) : list DiskSnapshot :=
  match Disk_Snapshots disk with Some l => l | None => [] end.

(** From the attachment checks to the DELETE and its absence proof. *)
Definition dispatchDelete (ctx : context) (location volumeID : string) (deleteFence : mutationFence)
    (createFence : option mutationFence) (disk : Disk) : program goerr :=
  let abandon := abandon deleteFence in
  if negb (Nat.eqb (List.length (snapshots disk)) 0) then abandon (wrapS ErrSnapshotsPresent "disk has snapshots")
  else
  let! attached := attachedVM a ctx location volumeID in
  match attached with Err e => abandon e | Ok attached =>
  if attached != "" then abandon (wrapS ErrVolumeAttachedElsewhere "")
  else
  let! freshDisk := getOwnedDisk a ctx location volumeID in
  match freshDisk with Err e => abandon e | Ok freshDisk =>
  match requireExactDiskSnapshotCollection freshDisk with Some e => abandon e | None =>
  if negb (Nat.eqb (List.length (snapshots freshDisk)) 0) then abandon (wrapS ErrSnapshotsPresent "disk has snapshots")
  else
  let! attached := attachedVM a ctx location volumeID in
  match attached with Err e => abandon e | Ok attached =>
  if attached != "" then abandon (wrapS ErrVolumeAttachedElsewhere "")
  else
  let! reserveErr := requireMutationDispatchReserve ctx in
  match reserveErr with Some e => abandon e | None =>
  let! mutationErr := call (DeleteDisk ctx location volumeID) in
  match mutationErr with
  | Some e =>
      if Is e ErrMutationBlocked then abandon e
      else
        let! postMutationCtx := destructiveReadbackContext a in
        let! resolved := waitForDiskAbsent fuel a postMutationCtx location volumeID deleteFence in
        match resolved with
        | Err _ => Ret (Some (wrapS ErrUnavailable "disk deletion remains ambiguous behind durable fence"))
        | Ok resolvedFence => completeDeletion postMutationCtx createFence resolvedFence
        end
  | None =>
      let! postMutationCtx := destructiveReadbackContext a in
      let! resolved := waitForDiskAbsent fuel a postMutationCtx location volumeID deleteFence in
      match resolved with
      | Err _ => Ret (Some (wrapS ErrUnavailable "disk deletion remains ambiguous behind durable fence"))
      | Ok resolvedFence => completeDeletion postMutationCtx createFence resolvedFence
      end
  end end end end end end.

Definition DeleteVolume (ctx : context) (location volumeID : string) : program goerr :=
  let! prepared := prepareDiskDeleteFence fuel a ctx location volumeID in
  match prepared with
  | Err e => Ret (Some e)
  | Ok (deleteFence, issueDelete) =>
    let! reply := call (GetDisk ctx location volumeID) in
    match classifyFirstRead issueDelete volumeID reply with
    | ReadRejected e => abandonIf issueDelete deleteFence e
    | ReadMissing =>
        let! createFence := matchingDiskCreateFence ctx location volumeID (fst reply) in
        match createFence with
        | Err e => abandonIf issueDelete deleteFence e
        | Ok createFence =>
            let! readbackCtx := destructiveReadbackContext a in
            let! resolved := waitForDiskAbsent fuel a readbackCtx location volumeID deleteFence in
            match resolved with
            | Err _ => Ret (Some (wrapS ErrUnavailable "disk deletion remains ambiguous behind durable fence"))
            | Ok resolvedFence =>
                let! err := completeDeletion readbackCtx createFence resolvedFence in
                match err with Some e => Ret (Some e) | None => Ret (Some (Sentinel ErrNotFound)) end
            end
        end
    | ReadDisk disk tombstone =>
        let! createFence := matchingDiskCreateFence ctx location volumeID (Some disk) in
        match createFence with
        | Err e => abandonIf issueDelete deleteFence e
        | Ok createFence =>
            let! readbackCtx := destructiveReadbackContext a in
            if tombstone || negb issueDelete then
              let! resolved := waitForDiskAbsent fuel a readbackCtx location volumeID deleteFence in
              match resolved with
              | Err _ => Ret (Some (wrapS ErrUnavailable "disk deletion remains ambiguous behind durable fence"))
              | Ok resolvedFence => completeDeletion readbackCtx createFence resolvedFence
              end
            else dispatchDelete ctx location volumeID deleteFence createFence disk
        end
    end
  end.

(** ** AttachVolume *)

(** Clear the fence of an undispatched mutation and succeed: the desired state already holds. *)
Definition alreadyConverged (fence : mutationFence) : program goerr := deleteMutationFenceDetached a fence.

Definition attachIntent (location volumeID vmUUID : string) : diskAttachmentIntent :=
  Build_diskAttachmentIntent "disk-attachment" location (ToLower volumeID) (billing a) vmUUID "" "".

(** Everything AttachVolume does while it holds the VM's lock. *)
Definition attachLocked (ctx : context) (location volumeID vmUUID : string) : program goerr :=
  let intent := attachIntent location volumeID vmUUID in
  let! prepared := prepareAttachmentFence fuel a ctx intent in
  match prepared with
  | Err e => Ret (Some e)
  | Ok None => Ret None
  | Ok (Some fence) =>
    let! attached := attachedVM a ctx location volumeID in
    match attached with Err e => abandon fence e | Ok attached =>
    if attached == vmUUID then alreadyConverged fence
    else if attached != "" then abandon fence (wrapS ErrVolumeAttachedElsewhere "")
    else
    let! targetVM := getOwnedVM a ctx location vmUUID in
    match targetVM with Err e => abandon fence e | Ok targetVM =>
    match requireExactVMAttachmentCollection targetVM with Some e => abandon fence e | None =>
    let rows := vmDiskRows targetVM volumeID in
    if negb (rows =? 0) then
      if rows =? 1 then alreadyConverged fence
      else abandon fence (Msg "InSpace exact VM reported several attachment rows")
    else
    let! owned := getOwnedDisk a ctx location volumeID in
    match owned with Err e => abandon fence e | Ok _ =>
    let! final := attachedVM a ctx location volumeID in
    match final with Err e => abandon fence e | Ok final =>
    if final == vmUUID then alreadyConverged fence
    else if final != "" then abandon fence (wrapS ErrVolumeAttachedElsewhere "")
    else
    let! reserveErr := requireMutationDispatchReserve ctx in
    match reserveErr with Some e => abandon fence e | None =>
    let! '(storage, mutationErr) := call (AttachDisk ctx location vmUUID volumeID) in
    let mutationErr := match mutationErr, storage with
      | None, Some s => if EqualFold (VMStorage_UUID s) volumeID then None else Some (Msg "InSpace API returned an invalid attach-disk response")
      | None, None => Some (Msg "InSpace API returned an invalid attach-disk response")
      | Some e, _ => Some e
      end in
    finishAttachmentMutation fuel a intent fence mutationErr
    end end end end end end
  end.

Definition AttachVolume (ctx : context) (location volumeID nodeID : string) : program goerr :=
  let! vm := resolveVM a ctx location nodeID in
  match vm with Err e => Ret (Some e) | Ok vmUUID =>
  let! volume := GetVolume ctx location volumeID in
  match volume with Err e => Ret (Some e) | Ok _ =>
  let! locked := lockVM ctx vmUUID in
  match locked with
  | Err e => Ret (Some e)
  | Ok key => unlocking key (attachLocked ctx location volumeID vmUUID)
  end end end.

(** ** DetachVolume *)

Definition detachIntent (location volumeID attachedVM recoveryNodeID : string) : diskAttachmentIntent :=
  Build_diskAttachmentIntent "disk-attachment" location (ToLower volumeID) (billing a) "" attachedVM recoveryNodeID.

Definition detachLocked (ctx : context) (location volumeID nodeID attached : string) (recoveredMissingNode : bool) : program goerr :=
  let intent := detachIntent location volumeID attached (if recoveredMissingNode then TrimSpace nodeID else "") in
  let! prepared := prepareAttachmentFence fuel a ctx intent in
  match prepared with
  | Err e => Ret (Some e)
  | Ok None => Ret None
  | Ok (Some fence) =>
    let! current := attachedVM a ctx location volumeID in
    match current with Err e => abandon fence e | Ok current =>
    if current == "" then alreadyConverged fence
    else if current != attached then abandon fence (wrapS ErrVolumeAttachedElsewhere "disk moved")
    else
    let! targetVM := getOwnedVM a ctx location attached in
    match targetVM with Err e => abandon fence e | Ok targetVM =>
    match requireExactVMAttachmentCollection targetVM with Some e => abandon fence e | None =>
    let rows := vmDiskRows targetVM volumeID in
    if negb (rows =? 1) then
      if rows =? 0 then alreadyConverged fence
      else abandon fence (Msg "InSpace exact VM reported several attachment rows")
    else
    let! owned := getOwnedDisk a ctx location volumeID in
    match owned with Err e => abandon fence e | Ok _ =>
    let! final := attachedVM a ctx location volumeID in
    match final with Err e => abandon fence e | Ok final =>
    if final == "" then alreadyConverged fence
    else if final != attached then abandon fence (wrapS ErrVolumeAttachedElsewhere "disk moved")
    else
    let! recovery :=
      (if recoveredMissingNode then
         let! matches_ := missingNodeDetachTarget a ctx location volumeID nodeID attached in
         match matches_ with
         | Err e => Ret (Some e)
         | Ok false => Ret (Some (wrapS ErrUnavailable "missing-node detach identity changed after authorization"))
         | Ok true => Ret None
         end
       else Ret None) in
    match recovery with Some e => abandon fence e | None =>
    let! reserveErr := requireMutationDispatchReserve ctx in
    match reserveErr with Some e => abandon fence e | None =>
    let! mutationErr := call (DetachDisk ctx location attached volumeID) in
    finishAttachmentMutation fuel a intent fence mutationErr
    end end end end end end end
  end.

(** What DetachVolume decides about the requested node, given the VM that holds the disk. *)
Inductive detach_target :=
  | DetachFrom (recovered : bool)   (* the requested pair is the current attachment *)
  | DetachNothing                   (* the requested pair is already unpublished *)
  | DetachRefused (e : error).

Definition detachTarget (ctx : context) (location volumeID nodeID attached : string) : program detach_target :=
  if nodeID == "" then Ret (DetachFrom false)
  else
    let! requested := resolveVM a ctx location nodeID in
    match requested with
    | Ok requestedVM => Ret (if requestedVM != attached then DetachNothing else DetachFrom false)
    | Err e =>
        if Is e ErrKubernetesNodeNotFound then
          let! matches_ := missingNodeDetachTarget a ctx location volumeID nodeID attached in
          match matches_ with
          | Err e => Ret (DetachRefused e)
          | Ok false => Ret DetachNothing
          | Ok true => Ret (DetachFrom true)
          end
        else if Is e ErrInvalidNode then Ret (DetachRefused (wrapS ErrUnavailable "cannot prove detach target for node"))
        else Ret (DetachRefused e)
    end.

(** The identity-only intent used to find any earlier attachment fence of the disk. *)
Definition anyAttachmentIntent (location volumeID : string) : diskAttachmentIntent :=
  Build_diskAttachmentIntent "disk-attachment" location (ToLower volumeID) (billing a) "" "" "".

Definition DetachVolume (ctx : context) (location volumeID nodeID : string) : program goerr :=
  let! owned := getOwnedDisk a ctx location volumeID in
  match owned with Err e => Ret (Some e) | Ok _ =>
  let! settled := settleExistingAttachmentFence fuel a ctx (anyAttachmentIntent location volumeID) in
  match settled with Err e => Ret (Some e) | Ok _ =>
  let! attached := attachedVM a ctx location volumeID in
  match attached with Err e => Ret (Some e) | Ok attached =>
  if attached == "" then Ret None
  else
  let! target := detachTarget ctx location volumeID nodeID attached in
  match target with
  | DetachRefused e => Ret (Some e)
  | DetachNothing => Ret None
  | DetachFrom recovered =>
      let! locked := lockVM ctx attached in
      match locked with
      | Err e => Ret (Some e)
      | Ok key => unlocking key (detachLocked ctx location volumeID nodeID attached recovered)
      end
  end end end end.

(** ** ExpandVolume *)

Definition diskCapacity (location : string) (disk : Disk) : result Z :=
  result_map Volume_CapacityBytes (diskVolume location disk).

Definition definitiveResizeRejection (err : goerr) : goerr :=
  match errAsAPI err with
  | None => None
  | Some api =>
      if Retryable api then None
      else let status := StatusCode api in
        if (status <? 400) || (500 <=? status) || (status =? 408) || (status =? 425) || (status =? 429) then None
        else if (status =? 401) || (status =? 403) || (status =? 404) || (status =? 409) then normalizeAPIError err
        else Some (wrapS ErrRejected "")
  end.

Fixpoint waitForDiskSize_loop (n : nat) (ctx : context) (location volumeID : string) (sizeGiB : Z) : program (result Disk) :=
  match n with
  | O => OutOfFuel
  | S n =>
      let! disk := getOwnedDisk a ctx location volumeID in
      let retry (err : goerr) :=
        let! done := call (Wait ctx (poll a)) in
        match done with
        | Some e => Ret (Err (Wrap "" (e :: match err with Some x => [x] | None => [] end)))
        | None => waitForDiskSize_loop n ctx location volumeID sizeGiB
        end in
      match disk with
      | Ok disk => if sizeGiB <=? Disk_SizeGiB disk then Ret (Ok disk) else retry None
      | Err e => if Is e ErrPermissionDenied || Is e ErrNotFound then Ret (Err e) else retry (Some e)
      end
  end.

Definition waitForDiskSize (ctx : context) (location volumeID : string) (sizeGiB : Z) : program (result Disk) :=
  waitForDiskSize_loop fuel ctx location volumeID sizeGiB.

(** Everything ExpandVolume does while it holds the VM's lock. *)
Definition expandLocked (ctx : context) (location volumeID attached : string) (sizeGiB : Z) : program (result Z) :=
  try_let! disk := getOwnedDisk a ctx location volumeID in
  if sizeGiB <=? Disk_SizeGiB disk then Ret (diskCapacity location disk)
  else
  try_let! final := attachedVM a ctx location volumeID in
  if final != attached then Ret (Err (wrapS ErrConflict "disk moved before resize"))
  else
  let! reserveErr := requireMutationDispatchReserve ctx in
  match reserveErr with Some e => Ret (Err e) | None =>
  let! '(_, mutationErr) := call (ResizeAttachedDisk ctx location attached volumeID sizeGiB) in
  if errIs mutationErr ErrMutationBlocked
  then Ret (Err (match mutationErr with Some e => e | None => Sentinel ErrMutationBlocked end))
  else match definitiveResizeRejection mutationErr with
  | Some rejection =>
      let! disk := getOwnedDisk a ctx location volumeID in
      match disk with
      | Ok disk => if sizeGiB <=? Disk_SizeGiB disk then Ret (diskCapacity location disk) else Ret (Err rejection)
      | Err _ => Ret (Err rejection)
      end
  | None =>
      let! readbackCtx := mutationReadbackContext a in
      let! resized := waitForDiskSize readbackCtx location volumeID sizeGiB in
      match resized with
      | Err _ => Ret (Err (wrapS ErrUnavailable "disk did not reach the requested size"))
      | Ok resized => Ret (diskCapacity location resized)
      end
  end end.

Definition ExpandVolume (ctx : context) (location volumeID : string) (capacityBytes : Z) : program (result Z) :=
  match bytesToGiB capacityBytes with
  | Err e => Ret (Err e)
  | Ok sizeGiB =>
    try_let! disk := getOwnedDisk a ctx location volumeID in
    if sizeGiB <=? Disk_SizeGiB disk then Ret (diskCapacity location disk)
    else
    try_let! _ := settleExistingAttachmentFence fuel a ctx (anyAttachmentIntent location volumeID) in
    try_let! attached := attachedVM a ctx location volumeID in
    if attached == "" then Ret (Err (wrapS ErrVolumeNotAttached "disk must be attached to a node to expand"))
    else
    try_let! targetVM := getOwnedVM a ctx location attached in
    match requireExactVMAttachmentCollection targetVM with Some e => Ret (Err e) | None =>
    match rejectPrimaryDiskReference targetVM volumeID with Some e => Ret (Err e) | None =>
    if negb (vmDiskRows targetVM volumeID =? 1) then Ret (Err (Msg "InSpace exact VM reported unexpected attachment rows"))
    else
    try_let! key := lockVM ctx attached in
    unlocking key (expandLocked ctx location volumeID attached sizeGiB)
    end end
  end.
End Volumes.
