(* ===== verification/CSISpecs.v ===== *)
(** * Specifications of the adapter's reads

    What an execution of each authoritative read of CSIAdapter has established when it succeeds,
    stated on the events it added to the history. The volume methods are verified against these
    statements in CSISafety. *)

From S2P Require Import Prelude GoErrors ClientTypes ClientErrors CSIFence CSIDetachAuthority Prog CSIAdapter.

(** ** Classes of actions *)

(** The calls that change cloud storage. *)
Definition is_mutation (x : act) : bool :=
  match x with
  | CreateDisk _ _ _ | DeleteDisk _ _ _ | AttachDisk _ _ _ _ | DetachDisk _ _ _ _
  | ResizeAttachedDisk _ _ _ _ _ => true
  | _ => false
  end.

(** The calls that change neither cloud storage nor a fence nor a lock. *)
Definition is_read (x : act) : bool :=
  match x with
  | ListDisks _ _ | GetDisk _ _ _ | ListVMs _ _ | GetVM _ _ _ | GetNetwork _ _ _
  | FenceGet _ _ | FenceList _ _ | ProviderIDForNode _ _ | AuthorizeMissingNodeDetach _ _
  | Now | Rand | CtxErr _ | Wait _ _ => true
  | _ => false
  end.

Definition is_lock (x : act) : bool :=
  match x with Lock _ _ | Unlock _ => true | _ => false end.

Definition reading (x : act) : Prop := is_read x = true.
Definition unmutating (x : act) : Prop := is_mutation x = false.
(** Neither a mutation nor an operation on the per-VM lock. *)
Definition quiet (x : act) : Prop := is_mutation x || is_lock x = false.

Lemma reading_quiet x : reading x -> quiet x.
Proof. by destruct x. Qed.

(** A read, or progress recorded on a fence. *)
Definition watching (x : act) : Prop :=
  match x with FenceSetObservation _ _ _ => true | _ => is_read x end = true.
Definition is_completion (x : act) : bool := match x with FenceDelete _ _ => true | _ => false end.

Lemma reading_watching x : reading x -> watching x.
Proof. by destruct x. Qed.

Lemma watching_quiet x : watching x -> quiet x.
Proof. by destruct x. Qed.

(** A guard that constrains mutations only. *)
Definition on_mutation (G : act -> history -> Prop) (x : act) (h : history) : Prop :=
  is_mutation x = true -> G x h.

Lemma on_mutation_unmutating G x h : unmutating x -> on_mutation G x h.
Proof. unfold unmutating, on_mutation. congruence. Qed.

Lemma quiet_unmutating x : quiet x -> unmutating x.
Proof. by intros [H _]%orb_false_iff. Qed.

Lemma on_mutation_quiet G x h : quiet x -> on_mutation G x h.
Proof. intros H. by apply on_mutation_unmutating, quiet_unmutating. Qed.

Lemma on_mutation_reading G x h : reading x -> on_mutation G x h.
Proof. intros H. by apply on_mutation_quiet, reading_quiet. Qed.

(** A guard that constrains the deletion of fences only. *)
Definition on_completion (G : context -> mutationFence -> history -> Prop) (x : act) (h : history) : Prop :=
  match x with FenceDelete ctx f => G ctx f h | _ => True end.

Lemma on_completion_watching G x h : watching x -> on_completion G x h.
Proof. by destruct x. Qed.

Lemma performed_app P (l l' : history) : performed P l -> performed P l' -> performed P (l ++ l').
Proof. apply Forall_app_2. Qed.

Lemma performed_quiet (l : history) : performed reading l -> performed quiet l.
Proof. intros H. eapply Forall_impl; [exact H|]. intros e. apply reading_quiet. Qed.

Lemma performed_unmutating (l : history) : performed quiet l -> performed unmutating l.
Proof. intros H. eapply Forall_impl; [exact H|]. intros e. apply quiet_unmutating. Qed.

Create HintDb only.
#[export] Hint Extern 1 (on_mutation _ _ _) => apply on_mutation_unmutating; reflexivity : inspace.
#[export] Hint Extern 1 (on_completion _ _ _) => exact I : inspace.

(** Walks a program: every action must be of the class, helpers through the database. *)
Ltac only_step :=
  cbv beta iota zeta;
  match goal with
  | |- only _ (bind _ _) => apply only_bind; [|intros ?]
  | |- only _ (Ret _) => exact I
  | |- only _ Panic => exact I
  | |- only _ OutOfFuel => exact I
  | |- only _ (call _) => split; [reflexivity|intros ?; exact I]
  | |- only _ (Act _ _) => split; [reflexivity|intros ?]
  | |- only _ (match ?e with _ => _ end) => destruct e
  | |- only _ _ => solve [eauto with only]
  end.
Ltac only_tac := repeat only_step.

(** ** Step tactics for specifications *)

Ltac wp_step :=
  cbv beta iota zeta;
  match goal with
  | |- wp _ (bind _ _) _ _ => apply wp_bind
  | |- wp _ (Ret _) _ _ => apply wp_ret
  | |- wp _ Panic _ _ => exact I
  | |- wp _ OutOfFuel _ _ => exact I
  | |- wp any_action (Act _ _) _ _ => split; [exact I|intros ?]
  | |- wp _ (Act _ _) _ _ => split; [solve [auto with inspace]|intros ?]
  | |- wp any_action (call ?x) ?h ?Q => apply (wp_call any_action x h Q); [exact I|intros ?]
  | |- wp ?G (call ?x) ?h ?Q => apply (wp_call G x h Q); [solve [auto with inspace]|intros ?]
  | |- wp _ (match ?e with _ => _ end) _ _ => destruct e eqn:?; simplify_eq
  end.

Section Reads.
Context `{JT : JSONText} (a : Adapter).

Lemma getOwnedDisk_reads ctx location d : only reading (getOwnedDisk a ctx location d).
Proof. unfold getOwnedDisk. only_tac. Qed.

Lemma scanCandidates_reads ctx location d members candidates attached rows :
  only reading (scanCandidates a ctx location d members candidates attached rows).
Proof. revert attached rows. induction candidates; intros; simpl scanCandidates; only_tac. Qed.
Hint Resolve scanCandidates_reads : only.

Lemma attachedVM_reads ctx location d : only reading (attachedVM a ctx location d).
Proof. unfold attachedVM. only_tac. Qed.

Lemma getVPCVM_reads ctx location u : only reading (getVPCVM a ctx location u).
Proof. unfold getVPCVM. only_tac. Qed.
Hint Resolve getVPCVM_reads : only.

Lemma getOwnedVM_reads ctx location u : only reading (getOwnedVM a ctx location u).
Proof. unfold getOwnedVM. only_tac. Qed.
Hint Resolve getOwnedVM_reads : only.

Lemma resolveVM_reads ctx location node : only reading (resolveVM a ctx location node).
Proof. unfold resolveVM. only_tac. Qed.

Lemma lockVM_unmutating ctx u : only unmutating (lockVM ctx u).
Proof. unfold lockVM, dispatchReserveShortfall. only_tac. Qed.

Lemma missingNodeDetachTarget_reads ctx location d node attached :
  only reading (missingNodeDetachTarget a ctx location d node attached).
Proof. unfold missingNodeDetachTarget. only_tac. Qed.

Lemma requireMutationDispatchReserve_reads ctx : only reading (requireMutationDispatchReserve ctx).
Proof. unfold requireMutationDispatchReserve, dispatchReserveShortfall. only_tac. Qed.

Lemma detachedContext_reads d : only reading (detachedContext d).
Proof. unfold detachedContext. only_tac. Qed.

Lemma waitUntil_reads ctx t : only reading (waitMutationReadbackUntil ctx t).
Proof. unfold waitMutationReadbackUntil. only_tac. Qed.
End Reads.

#[export] Hint Resolve getOwnedDisk_reads attachedVM_reads getVPCVM_reads getOwnedVM_reads resolveVM_reads
  missingNodeDetachTarget_reads requireMutationDispatchReserve_reads detachedContext_reads waitUntil_reads : only.
#[export] Hint Extern 1 (only reading (waitMutationReadback _ _)) => unfold waitMutationReadback; only_tac : only.
#[export] Hint Extern 1 (only _ (mutationReadbackContext _)) => unfold mutationReadbackContext : only.
#[export] Hint Extern 1 (only _ (destructiveReadbackContext _)) => unfold destructiveReadbackContext : only.

(** ** Candidate sets *)

Lemma networkVMMembers_valid acc l members :
  networkVMMembers acc l = Ok members -> (forall u, u ∈ acc -> uuidPattern u = true) ->
  forall u, u ∈ members -> uuidPattern u = true.
Proof.
  revert acc. induction l as [|raw l IH]; intros acc H Hacc; simpl in H; [by simplify_eq|].
  repeat case_test_in H; try done. eapply IH; [exact H|].
  intros u [->%elem_of_singleton|Hu]%elem_of_union; bool_hyps; eauto.
Qed.

Lemma listedVMs_valid acc l listed :
  listedVMs acc l = Ok listed -> (forall u, u ∈ acc -> uuidPattern u = true) ->
  forall u, u ∈ listed -> uuidPattern u = true.
Proof.
  revert acc. induction l as [|vm l IH]; intros acc H Hacc; simpl in H; [by simplify_eq|].
  repeat case_test_in H; try done. eapply IH; [exact H|].
  intros u [->%elem_of_singleton|Hu]%elem_of_union; bool_hyps; eauto.
Qed.

Lemma canonicalNetworkVMMembers_valid l members :
  canonicalNetworkVMMembers l = Ok members -> forall u, u ∈ members -> uuidPattern u = true.
Proof. destruct l; [|done]. intros H. eapply networkVMMembers_valid; [exact H|set_solver]. Qed.

(** Every row of the answer is in the set. *)
Lemma listedVMs_mono acc l listed : listedVMs acc l = Ok listed -> acc ⊆ listed.
Proof.
  revert acc. induction l as [|vm l IH]; intros acc H; simpl in H; [by simplify_eq|].
  repeat case_test_in H; try done. apply IH in H. set_solver.
Qed.

Lemma listedVMs_complete acc l listed vm :
  listedVMs acc l = Ok listed -> In vm l -> canonicalUUID (VM_UUID vm) ∈ listed.
Proof.
  revert acc. induction l as [|vm' l IH]; intros acc H; simpl in H; [done|].
  repeat case_test_in H; try done. intros [->|Hin]; [|by eauto].
  apply listedVMs_mono in H. set_solver.
Qed.

Lemma networkVMMembers_mono acc l members : networkVMMembers acc l = Ok members -> acc ⊆ members.
Proof.
  revert acc. induction l as [|raw l IH]; intros acc H; simpl in H; [by simplify_eq|].
  repeat case_test_in H; try done. apply IH in H. set_solver.
Qed.

Lemma networkVMMembers_complete acc l members raw :
  networkVMMembers acc l = Ok members -> In raw l -> canonicalUUID raw ∈ members.
Proof.
  revert acc. induction l as [|raw' l IH]; intros acc H; simpl in H; [done|].
  repeat case_test_in H; try done. intros [->|Hin]; [|by eauto].
  apply networkVMMembers_mono in H. set_solver.
Qed.

Lemma rows_fold_nonneg d l n :
  0 <= n -> 0 <= fold_left (fun rows s => if EqualFold (VMStorage_UUID s) d then rows + 1 else rows) l n.
Proof. revert n. induction l; intros; simpl; [done|]. apply IHl. case_match; lia. Qed.

Lemma vmDiskRows_nonneg vm d : 0 <= vmDiskRows vm d.
Proof. by apply rows_fold_nonneg. Qed.

(** ** The attachment scan *)

Section Scan.
Context (a : Adapter) (ctx : context) (location d : string).

(** The exact read of VM [u] showed [rows] rows of disk [d], none of them a boot disk. *)
Definition read_rows (u : string) (rows : Z) (h : history) : Prop :=
  exists vm, In (Ev (GetVM ctx location u) (Some vm, None)) h
    /\ EqualFold (TrimSpace (VM_UUID vm)) u = true
    /\ is_Some (VM_Storage vm)
    /\ rejectPrimaryDiskReference vm d = None
    /\ vmDiskRows vm d = rows.

(** The scan read the inventory and the VPC's membership, and then every VM that either of them
    names; exactly the VM [v] (none when [v] is empty) shows the disk, and it is in the VPC. *)
Definition scanned (v : string) (h : history) : Prop :=
  exists vms net members listed,
    In (Ev (ListVMs ctx location) (vms, None)) h
    /\ In (Ev (GetNetwork ctx location (network a)) (Some net, None)) h
    /\ EqualFold (TrimSpace (Network_UUID net)) (network a) = true
    /\ canonicalNetworkVMMembers (Network_VMUUIDs net) = Ok members
    /\ listedVMs ∅ vms = Ok listed
    /\ (v = "" \/ v ∈ members)
    /\ forall u, u ∈ members ∪ listed -> read_rows u (if u == v then 1 else 0) h.

Lemma read_rows_app u n h h' : read_rows u n h' -> read_rows u n (h' ++ h).
Proof. intros (vm & H & ?). exists vm. split; [|done]. apply in_or_app. auto. Qed.

Lemma read_rows_app_r u n h h' : read_rows u n h -> read_rows u n (h' ++ h).
Proof. intros (vm & H & ?). exists vm. split; [|done]. apply in_or_app. auto. Qed.

Lemma candidateRows_ok members u reply rows :
  candidateRows a members u d reply = Ok rows ->
  (rows = 0 \/ rows = 1 /\ u ∈ members) /\ read_rows u rows [Ev (GetVM ctx location u) reply].
Proof.
  destruct reply as [vm err]. unfold candidateRows, read_rows. intros H.
  destruct err; [done|]. destruct vm as [vm|]; [|done].
  pose proof (vmDiskRows_nonneg vm d) as Hn.
  case_test_in H; [done|]. unfold requireExactVMAttachmentCollection in H.
  destruct (VM_Storage vm) as [rs|] eqn:Hs; [|done].
  destruct (rejectPrimaryDiskReference vm d) eqn:Hp; [done|].
  assert (rows = vmDiskRows vm d /\ vmDiskRows vm d <= 1 /\ (0 < vmDiskRows vm d -> u ∈ members)) as (-> & Hle & Hm).
  { repeat case_test_in H; simplify_eq; bool_hyps; split_and!; auto; lia. }
  split; [destruct (decide (vmDiskRows vm d = 0)); [auto|right; split; [lia|apply Hm; lia]]|].
  exists vm. rewrite Hs. bool_hyps. split_and!; eauto. by left.
Qed.

Lemma scanCandidates_spec members candidates attached n :
  NoDup candidates -> (forall u, u ∈ candidates -> u <> "") -> attached ∉ candidates ->
  ensures (scanCandidates a ctx location d members candidates attached n) (fun r h =>
    match r with
    | Err _ => True
    | Ok (v, m) => exists w,
        v = (if w == "" then attached else w)
        /\ m = (if w == "" then n else n + 1)
        /\ (w = "" \/ attached = "" /\ w ∈ members /\ w ∈ candidates)
        /\ forall u, u ∈ candidates -> read_rows u (if u == w then 1 else 0) h
    end).
Proof.
  revert attached n. induction candidates as [|c candidates IH]; intros attached n Hnd Hne Hatt; simpl scanCandidates.
  { unfold ensures. wp_step. exists "". simpl. split_and!; auto. intros u Hu; by apply elem_of_nil in Hu. }
  apply NoDup_cons in Hnd as [Hc Hnd]. assert (c <> "") as Hc0 by (apply Hne; set_solver).
  unfold ensures. wp_step. wp_step; [|by wp_step].
  apply candidateRows_ok in Heqr0 as [Hrows Hread]. repeat (wp_step; try done).
  - destruct Hrows as [->|[-> Hmem]]; [done|]. bool_hyps.
    eapply ensures_use; [apply IH; set_solver|]. intros [[v m]|?] new; [|done].
    intros (w & -> & -> & Hw & Hu). assert (w = "") as -> by (destruct Hw as [?|[? _]]; congruence).
    rewrite bool_decide_eq_true_2 by done. exists c. rewrite bool_decide_eq_false_2 by done.
    split_and!; try done.
    + right. split; [|set_solver]. apply andb_false_iff in Heqb0 as [?|?]; bool_hyps; [done|]. set_solver.
    + intros u [->|Hin]%elem_of_cons.
      * rewrite bool_decide_eq_true_2 by done. by apply read_rows_app_r.
      * apply read_rows_app. rewrite bool_decide_eq_false_2 by (intros ->; done).
        specialize (Hu u Hin). rewrite bool_decide_eq_false_2 in Hu by set_solver. done.
  - destruct Hrows as [->|[-> _]]; [|done].
    eapply ensures_use; [apply IH; set_solver|]. intros [[v m]|?] new; [|done].
    intros (w & -> & -> & Hw & Hu). exists w. split_and!; try done; [set_solver|].
    intros u [->|Hin]%elem_of_cons; [|by apply read_rows_app, Hu].
    rewrite bool_decide_eq_false_2; [by apply read_rows_app_r|]. intros ->.
    destruct Hw as [?|(_ & _ & ?)]; done.
Qed.

Lemma attachedVM_spec :
  ensures (attachedVM a ctx location d) (fun r h => match r with Err _ => True | Ok v => scanned v h end).
Proof.
  unfold attachedVM, ensures. repeat (wp_step; try done).
  rename l into vms, n into net, a0 into members, a1 into listed.
  assert (forall u, u ∈ members ∪ listed -> u <> "") as Hne.
  { intros u [Hu|Hu]%elem_of_union; apply uuid_lower_nonempty;
      [eapply canonicalNetworkVMMembers_valid|eapply listedVMs_valid]; eauto; set_solver. }
  assert (forall u, u ∈ sort_strings (elements (members ∪ listed)) <-> u ∈ members ∪ listed) as Hc.
  { intros u. by rewrite sort_strings_perm, elem_of_elements. }
  eapply ensures_use; [apply scanCandidates_spec|].
  - rewrite sort_strings_perm. apply NoDup_elements.
  - intros u Hu%Hc. auto.
  - intros Hu%Hc. by apply Hne in Hu.
  - intros [[v m]|e] new; [|by intros; wp_step]. intros (w & -> & -> & Hw & Hu).
    replace (if w == "" then "" else w) with w by (by destruct (bool_decide_reflect (w = ""))).
    repeat (wp_step; try done). exists vms, net, members, listed. bool_hyps.
    split_and!; auto; [apply in_or_app; simpl; auto..| |].
    + destruct Hw as [?|(_ & ? & _)]; auto.
    + intros u Hin. apply read_rows_app, Hu, Hc, Hin.
Qed.
End Scan.

(** ** Exact disks and VMs *)

(** What the adapter requires of a disk before it mutates it. *)
Record owned_disk (a : Adapter) (d : string) (disk : Disk) : Prop := {
  od_uuid : canonicalUUID (Disk_UUID disk) = canonicalUUID d;
  od_pattern : uuidPattern (canonicalUUID d) = true;
  od_billing : Disk_BillingAccountID disk = billing a;
  od_positive : 0 < billing a;
  od_live : diskDeletedTombstone disk = false;
  od_named : TrimSpace (Disk_DisplayName disk) <> "";
  od_empty : EqualFold (TrimSpace (Disk_SourceImageType disk)) "EMPTY" = true;
  od_no_source : TrimSpace (Disk_SourceImage disk) = "";
  od_not_boot : Disk_ReadOnlyBootable disk = false
}.

Lemma validateExactDisk_ok disk d billing :
  validateExactDisk disk d billing = None ->
  canonicalUUID (Disk_UUID disk) = canonicalUUID d /\ uuidPattern (canonicalUUID d) = true
  /\ Disk_BillingAccountID disk = billing /\ 0 < billing.
Proof. unfold validateExactDisk. intros H. repeat case_test_in H; try done. by bool_hyps. Qed.

Lemma validateCSIMutableDisk_ok a disk d :
  validateCSIMutableDisk disk d (billing a) = None -> diskDeletedTombstone disk = false -> owned_disk a d disk.
Proof.
  unfold validateCSIMutableDisk. intros H Ht. destruct (validateExactDisk _ _ _) eqn:E; [done|].
  apply validateExactDisk_ok in E as (?&?&?&?). repeat case_test_in H; try done. bool_hyps. by constructor.
Qed.

Lemma getOwnedDisk_spec a ctx location d :
  ensures (getOwnedDisk a ctx location d) (fun r h =>
    match r with
    | Err _ => True
    | Ok disk => h = [Ev (GetDisk ctx location d) (Some disk, None)] /\ owned_disk a d disk
    end).
Proof.
  unfold getOwnedDisk, ensures. repeat (wp_step; try done).
  split; [done|]. by apply validateCSIMutableDisk_ok.
Qed.

(** The request still has the reserve the driver requires at dispatch, and is not cancelled. *)
Definition reserved (ctx : context) (h : history) : Prop :=
  In (Ev (CtxErr ctx) None) h
  /\ forall deadline, ctx_Deadline ctx = Some deadline ->
       exists now, In (Ev Now now) h /\ minimumMutationDispatchReserve <= deadline - now.

Lemma requireMutationDispatchReserve_spec ctx :
  ensures (requireMutationDispatchReserve ctx) (fun r h => r = None -> reserved ctx h).
Proof.
  unfold requireMutationDispatchReserve, dispatchReserveShortfall, ensures.
  repeat (wp_step; try done).
  all: intros _; split; [simpl; auto|]; intros deadline Hd; simplify_eq.
  eexists. split; [by left|]. by bool_hyps.
Qed.

(** A VM of the configured VPC that the inventory lists exactly once. *)
Definition owned_vm (a : Adapter) (ctx : context) (location u : string) (vm : VM) (h : history) : Prop :=
  In (Ev (GetVM ctx location u) (Some vm, None)) h
  /\ validateExactVM a vm u = None
  /\ (exists net members, In (Ev (GetNetwork ctx location (network a)) (Some net, None)) h
       /\ canonicalNetworkVMMembers (Network_VMUUIDs net) = Ok members /\ canonicalUUID u ∈ members)
  /\ exists vms, In (Ev (ListVMs ctx location) (vms, None)) h /\ listRows vms u = 1.

Lemma getOwnedVM_spec a ctx location u :
  ensures (getOwnedVM a ctx location u) (fun r h =>
    match r with Err _ => True | Ok vm => owned_vm a ctx location u vm h end).
Proof.
  unfold getOwnedVM, getVPCVM, ensures. repeat (wp_step; try done).
  all: simpl in *; simplify_eq; bool_hyps. unfold owned_vm. split_and!; [simpl; auto|done| |].
  - do 2 eexists. split_and!; [simpl; auto|done|done].
  - eexists. split; [simpl; auto|done].
Qed.

(** ** The requested node *)

(** The node names the VM: by its own provider ID, or by the one Kubernetes records for it. *)
Definition names_vm (ctx : context) (location nodeID vmUUID : string) (h : history) : Prop :=
  exists providerID, parseProviderID providerID = Ok (location, vmUUID)
    /\ (providerID = TrimSpace nodeID
        \/ In (Ev (ProviderIDForNode ctx (TrimSpace nodeID)) (providerID, None)) h).

Lemma names_vm_app ctx location nodeID v h h' : names_vm ctx location nodeID v h -> names_vm ctx location nodeID v (h' ++ h).
Proof. intros (p & ? & H). exists p. split; [done|]. rewrite in_app_iff. tauto. Qed.

Lemma resolveVM_spec a ctx location nodeID :
  ensures (resolveVM a ctx location nodeID) (fun r h =>
    match r with Err _ => True | Ok v => names_vm ctx location nodeID v h end).
Proof.
  unfold resolveVM, ensures. repeat (wp_step; try done).
  all: apply wp_skip; intros [vm|e] new; repeat (wp_step; try done).
  all: apply names_vm_app; bool_hyps; subst; eexists; (split; [eassumption|]); simpl; auto.
Qed.

(** ** The per-VM lock *)

(** The lock on [key] was taken and not released, and nothing mutated the cloud since. *)
Definition locked (key : string) (h : history) : Prop :=
  exists newer c older, h = newer ++ Ev (Lock c key) None :: older /\ performed quiet newer.

Lemma locked_app key new h : performed quiet new -> locked key h -> locked key (new ++ h).
Proof.
  intros Hn (newer & c & older & -> & Hq). exists (new ++ newer), c, older.
  rewrite <-app_assoc. split; [done|]. by apply performed_app.
Qed.

Lemma lockVM_spec ctx u :
  ensures (lockVM ctx u) (fun r h =>
    match r with Err _ => True | Ok key => key = ToLower u /\ locked key h end).
Proof.
  unfold lockVM, dispatchReserveShortfall, ensures. repeat (wp_step; try done).
  - split; [done|]. exists [Ev Now r]. do 2 eexists. split; [done|]. by repeat constructor.
  - split; [done|]. exists []. do 2 eexists. split; [done|]. constructor.
Qed.

Lemma locked_prefix key h h' : locked key h -> locked key (h ++ h').
Proof. intros (n & c & o & -> & ?). exists n, c, (o ++ h'). by rewrite <-app_assoc. Qed.

(** ** Missing nodes *)

(** The detach authority accepted a request that binds the missing node to the VM and the disk. *)
Definition detach_authority_given `{JT : JSONText} (a : Adapter) (ctx : context) (location d nodeID vm : string) (h : history) : Prop :=
  exists request ownership, In (Ev (AuthorizeMissingNodeDetach ctx request) None) h
    /\ validateMissingNodeDetachRequest request = Ok ownership
    /\ req_NodeName request = TrimSpace nodeID /\ req_VMUUID request = vm /\ req_DiskUUID request = d
    /\ req_Location request = location /\ req_NetworkUUID request = network a
    /\ req_BillingAccountID request = billing a.

Lemma missingNodeDetachTarget_spec `{JT : JSONText} a ctx location d nodeID vm :
  ensures (missingNodeDetachTarget a ctx location d nodeID vm) (fun r h =>
    r = Ok true -> detach_authority_given a ctx location d nodeID vm h).
Proof.
  unfold missingNodeDetachTarget, ensures. wp_step; [done|]. wp_step. apply wp_skip.
  intros [target|e] new; [|done]. repeat (wp_step; try done).
  intros _. bool_hyps. do 2 eexists. split_and!; [by left|eassumption|..]; done.
Qed.
