(* ===== verification/CSIReadback.v ===== *)
(** * Specifications of fence acquisition and mutation readback

    What the helpers of CSIRecovery establish: none of them mutates cloud storage, an acquired
    fence carries the requested intent and is the newest event, and the readback loops return
    only after the reads that justify completing the fence. *)

From S2P Require Import Prelude GoErrors ClientTypes ClientErrors CSIFence CSIDetachAuthority Prog CSIAdapter CSIRecovery CSISpecs.


#[export] Hint Extern 2 (only watching _) => (eapply only_mono; [exact reading_watching|]) : only.
#[export] Hint Extern 2 (only quiet _) => (eapply only_mono; [exact watching_quiet|]) : only.

Section Quiet.
Context `{JT : JSONText} `{TT : TimeText} (sha256_hex : string -> string) (fuel : nat) (a : Adapter).

Lemma deleteMutationFenceDetached_quiet f : only quiet (deleteMutationFenceDetached a f).
Proof. unfold deleteMutationFenceDetached. only_tac. Qed.
Hint Resolve deleteMutationFenceDetached_quiet : only.

Lemma clearFence_quiet f e : only quiet (clearFence a f e).
Proof. unfold clearFence. only_tac. Qed.

Lemma beginDiskCreateFence_quiet ctx i : only quiet (beginDiskCreateFence sha256_hex ctx i).
Proof. unfold beginDiskCreateFence. only_tac. Qed.

Lemma waitForDiskReady_watches ctx i disk : only watching (waitForDiskReady fuel a ctx i disk).
Proof.
  unfold waitForDiskReady. generalize (canonicalUUID (Disk_UUID disk)).
  revert disk. induction fuel as [|n IH]; intros disk s; simpl waitForDiskReady_loop; only_tac.
Qed.
Hint Resolve waitForDiskReady_watches : only.

Lemma completeFencedDisk_quiet ctx i f disk : only quiet (completeFencedDisk ctx i f disk).
Proof. unfold completeFencedDisk. only_tac. Qed.
Hint Resolve completeFencedDisk_quiet : only.

Lemma finishFencedDisk_quiet ctx i f disk : only quiet (finishFencedDisk fuel a ctx i f disk).
Proof. unfold finishFencedDisk. only_tac. Qed.
Hint Resolve finishFencedDisk_quiet : only.

Lemma finishUndispatchedFencedDisk_quiet ctx i f disk : only quiet (finishUndispatchedFencedDisk fuel a ctx i f disk).
Proof. unfold finishUndispatchedFencedDisk, clearUndispatchedDiskCreateFence. pose proof clearFence_quiet. only_tac. Qed.

Lemma reconcileDiskCreateFence_quiet ctx i f : only quiet (reconcileDiskCreateFence sha256_hex fuel a ctx i f).
Proof.
  assert (forall n, only quiet (reconcileDiskCreateFence_loop fuel a n ctx i f)).
  { induction n as [|n IH]; simpl reconcileDiskCreateFence_loop; only_tac. }
  unfold reconcileDiskCreateFence. only_tac.
Qed.

Lemma matchingDiskCreateFence_reads ctx location d disk : only reading (matchingDiskCreateFence ctx location d disk).
Proof. unfold matchingDiskCreateFence. only_tac. Qed.

Lemma updateMutationObservation_watches ctx f o : only watching (updateMutationObservation ctx f o).
Proof. unfold updateMutationObservation. only_tac. Qed.
Hint Resolve updateMutationObservation_watches : only.

Lemma resetObservation_watches ctx f : only watching (resetObservation ctx f).
Proof. unfold resetObservation. only_tac. Qed.
Hint Resolve resetObservation_watches : only.

Lemma recordAbsence_watches ctx kind f o : only watching (recordAbsence a ctx kind f o).
Proof. unfold recordAbsence. only_tac. Qed.
Hint Resolve recordAbsence_watches : only.

Lemma waitForDiskAbsent_watches ctx location d f : only watching (waitForDiskAbsent fuel a ctx location d f).
Proof.
  unfold waitForDiskAbsent. revert f.
  induction fuel as [|n IH]; intros f; simpl waitForDiskAbsent_loop; only_tac.
Qed.

Lemma waitForAttachment_watches ctx location d v w : only watching (waitForAttachment fuel a ctx location d v w).
Proof. unfold waitForAttachment. induction fuel as [|n IH]; simpl waitForAttachment_loop; only_tac. Qed.
Hint Resolve waitForAttachment_watches : only.

Lemma observeDetachState_reads ctx i : only reading (observeDetachState a ctx i).
Proof. unfold observeDetachState. only_tac. Qed.
Hint Resolve observeDetachState_reads : only.

Lemma waitForDetached_watches ctx i f : only watching (waitForDetached fuel a ctx i f).
Proof.
  unfold waitForDetached. revert f.
  induction fuel as [|n IH]; intros f; simpl waitForDetached_loop; only_tac.
Qed.
Hint Resolve waitForDetached_watches : only.

Lemma waitForFencedAttachment_watches ctx i f : only watching (waitForFencedAttachment fuel a ctx i f).
Proof. unfold waitForFencedAttachment. only_tac. Qed.
Hint Resolve waitForFencedAttachment_watches : only.

Lemma attachmentReadbackContext_reads i : only reading (attachmentReadbackContext a i).
Proof. unfold attachmentReadbackContext. only_tac. Qed.
Hint Resolve attachmentReadbackContext_reads : only.

Lemma completeResolvedFence_quiet ctx f : only quiet (completeResolvedFence ctx f).
Proof. unfold completeResolvedFence. only_tac. Qed.
Hint Resolve completeResolvedFence_quiet : only.

Lemma settleExistingAttachmentFence_quiet ctx i : only quiet (settleExistingAttachmentFence fuel a ctx i).
Proof. unfold settleExistingAttachmentFence. only_tac. Qed.
Hint Resolve settleExistingAttachmentFence_quiet : only.

Lemma finishAttachmentMutation_quiet i f e : only quiet (finishAttachmentMutation fuel a i f e).
Proof. unfold finishAttachmentMutation. only_tac. Qed.

Lemma prepareDiskDeleteFence_quiet ctx location d : only quiet (prepareDiskDeleteFence fuel a ctx location d).
Proof.
  unfold prepareDiskDeleteFence. generalize 3%nat as n.
  induction n as [|n IH]; simpl prepareDiskDeleteFence_loop; only_tac.
Qed.

Lemma prepareAttachmentFence_quiet ctx i : only quiet (prepareAttachmentFence fuel a ctx i).
Proof.
  unfold prepareAttachmentFence, beginAttachmentFence. generalize 3%nat as n.
  induction n as [|n IH]; simpl prepareAttachmentFence_loop; unfold beginAttachmentFence; only_tac.
Qed.
End Quiet.

#[export] Hint Resolve deleteMutationFenceDetached_quiet clearFence_quiet beginDiskCreateFence_quiet
  waitForDiskReady_watches completeFencedDisk_quiet finishFencedDisk_quiet finishUndispatchedFencedDisk_quiet
  reconcileDiskCreateFence_quiet matchingDiskCreateFence_reads updateMutationObservation_watches
  resetObservation_watches recordAbsence_watches waitForDiskAbsent_watches waitForAttachment_watches
  observeDetachState_reads waitForDetached_watches waitForFencedAttachment_watches
  attachmentReadbackContext_reads completeResolvedFence_quiet settleExistingAttachmentFence_quiet
  finishAttachmentMutation_quiet prepareDiskDeleteFence_quiet prepareAttachmentFence_quiet : only.

(** ** Acquisition *)

Section Acquisition.
Context `{JT : JSONText} `{TT : TimeText} (sha256_hex : string -> string) (fuel : nat) (a : Adapter).

(** The newest event is the exclusive creation of [fence] under [key], proposed with the encoding
    of [intent] and answered with a fence that decodes to it. *)
Definition acquired {I} `{Marshal I} (ctx : context) (key : string) (intent : I) (fence : mutationFence) (h : history) : Prop :=
  exists candidate token before,
    h = Ev (FenceCreate ctx candidate) (Some fence, true, None) :: before
    /\ newMutationFence key intent token = Ok candidate
    /\ decodeMutationIntent I fence = Ok intent.

Lemma acquired_app {I} `{Marshal I} ctx key (intent : I) f h h' :
  acquired ctx key intent f h -> acquired ctx key intent f (h ++ h').
Proof. intros (c & t & b & -> & ?). exists c, t, (b ++ h'). by split. Qed.

(** Closes the branch in which the store answered the creation. *)
Ltac acquisition :=
  cbn [deref] in *; try match goal with |- if ?b then _ else _ => destruct b; [|done] end;
  match goal with H : context [check! ?err in Ok _] |- _ => destruct err; [by repeat case_match|] end;
  repeat case_match; simplify_eq; bool_hyps; subst; do 3 eexists; split_and!; eauto.

Lemma prepareDiskDeleteFence_spec ctx location d :
  ensures (prepareDiskDeleteFence fuel a ctx location d) (fun r h =>
    match r with
    | Ok (f, true) => acquired ctx (diskAttachmentFenceKey location d) (diskDeleteIntent a location d) f h
    | _ => True
    end).
Proof.
  unfold prepareDiskDeleteFence. generalize 3%nat as n.
  induction n as [|n IH]; simpl prepareDiskDeleteFence_loop; unfold ensures; [by wp_step|].
  repeat (wp_step; try done).
  - apply wp_skip. intros [b|e] new; [|by wp_step].
    eapply ensures_use; [apply IH|]. intros [[f []]|?] new'; try done. apply acquired_app.
  - by acquisition.
  - eapply ensures_use; [apply IH|]. intros [[f []]|?] new'; try done. apply acquired_app.
Qed.

Lemma prepareAttachmentFence_spec ctx intent :
  ensures (prepareAttachmentFence fuel a ctx intent) (fun r h =>
    match r with
    | Ok (Some f) => acquired ctx (diskAttachmentFenceKey (da_Location intent) (da_DiskUUID intent)) intent f h
    | _ => True
    end).
Proof.
  unfold prepareAttachmentFence. generalize 3%nat as n.
  induction n as [|n IH]; simpl prepareAttachmentFence_loop; unfold ensures; [by wp_step|].
  wp_step. apply wp_skip. intros [b|e] new; [|by wp_step].
  wp_step; [by wp_step|]. unfold beginAttachmentFence. repeat (wp_step; try done).
  all: try (eapply ensures_use; [apply IH|]; intros [[f|]|?] new'; try done; apply acquired_app).
  by acquisition.
Qed.

Lemma beginDiskCreateFence_spec ctx intent :
  ensures (beginDiskCreateFence sha256_hex ctx intent) (fun r h =>
    match r with
    | Ok (f, true) => acquired ctx (diskCreateFenceKey sha256_hex (dc_Location intent) (dc_Name intent)) intent f h
    | _ => True
    end).
Proof.
  unfold beginDiskCreateFence, ensures. repeat (wp_step; try done).
  by acquisition.
Qed.
End Acquisition.

(** ** Absence proofs

    What the destructive readback loops of CSIRecovery have established when they return a fence:
    the newest cloud reads showed the resource gone, and the persisted count of earlier absences,
    spaced by the configured interval, had reached the required length. *)

(** The bookkeeping between the reads of an iteration and its end: the clock and the fence. *)
Definition bookkeeping (x : act) : Prop :=
  match x with Now | FenceSetObservation _ _ _ | FenceGet _ _ => True | _ => False end.

Section Record_.
Context `{JT : JSONText} `{TT : TimeText} (a : Adapter) (ctx : context) (kind : string).

(** Two earlier absences, spaced by the interval, and a third at least the interval later. *)
Definition third_absence (o : mutationObservation) (now : Z) : Prop :=
  mo_Count o = 2 /\ exists first last,
    parse_time (mo_FirstObservedAt o) = Some first /\ parse_time (mo_LastObservedAt o) = Some last
    /\ 0 < absencePoll a /\ first + wrap64 (absencePoll a) <= last /\ last + absencePoll a <= now.

(** Three absences over two intervals were already persisted. *)
Definition three_persisted (o : mutationObservation) : Prop :=
  mo_Count o = 3 /\ exists first last,
    parse_time (mo_FirstObservedAt o) = Some first /\ parse_time (mo_LastObservedAt o) = Some last
    /\ 0 < absencePoll a /\ first + wrap64 (2 * absencePoll a) <= last.

(** How a loop comes from the fence it was given to the one it works on: by the answers to its own observations, and,
    when another writer got there first, by the fence of the same authority that was then stored. *)
Inductive traced (h : history) (f0 : mutationFence) : mutationFence -> Prop :=
  | traced_start : traced h f0 f0
  | traced_observed cur encoded g :
      traced h f0 cur -> In (Ev (FenceSetObservation ctx cur encoded) (Some g, None)) h -> traced h f0 g
  | traced_current cur g :
      traced h f0 cur -> In (Ev (FenceGet ctx (Key cur)) (Some g, None)) h -> sameMutationFenceAuthority g cur = true -> traced h f0 g.

(** Why a loop that was given [f0] may finish. [f] is the fence it returns: the empty one when
    another controller completed the fence meanwhile; otherwise the fence its last iteration
    started with, the answer to the third observation, or, when another writer got there first,
    the fence of the same authority that is stored now. *)
Definition absence_recorded (f0 f : mutationFence) (h : history) : Prop :=
  exists cur o, traced h f0 cur /\ currentObservation a kind cur = Ok o
    /\ ((f = zero_fence /\ In (Ev (FenceGet ctx (Key cur)) (None, None)) h)
        \/ (f = cur /\ three_persisted o)
        \/ (exists now encoded, In (Ev Now now) h /\ third_absence o now
            /\ encodeMutationObservation (Build_mutationObservation kind 3 (mo_FirstObservedAt o) (format_time now)) = Ok encoded
            /\ (In (Ev (FenceSetObservation ctx cur encoded) (Some f, None)) h
                \/ (In (Ev (FenceGet ctx (Key cur)) (Some f, None)) h /\ sameMutationFenceAuthority f cur = true)))).

Lemma traced_mono h h' f0 f : (forall e, In e h -> In e h') -> traced h f0 f -> traced h' f0 f.
Proof. intros Hs. induction 1; [constructor|eapply traced_observed; eauto|eapply traced_current; eauto]. Qed.

Lemma traced_trans h f0 f1 f2 : traced h f0 f1 -> traced h f1 f2 -> traced h f0 f2.
Proof. intros H. induction 1; [done|eapply traced_observed; eauto|eapply traced_current; eauto]. Qed.

(** What a later iteration established, for the loop that started earlier. *)
Lemma absence_recorded_from old new f0 f1 f :
  traced old f0 f1 -> absence_recorded f1 f new -> absence_recorded f0 f (new ++ old).
Proof.
  intros Ht (cur & o & Hc & Ho & H). exists cur, o. split_and!; [|done|].
  - eapply traced_trans; eapply traced_mono; try eassumption; intros e He; rewrite in_app_iff; auto.
  - setoid_rewrite in_app_iff. destruct H as [[? ?]|[?|(n & e & ? & ? & ? & ?)]]; [left; tauto|tauto|].
    right; right. exists n, e. tauto.
Qed.

Lemma absence_recorded_app f0 f h h' : absence_recorded f0 f h -> absence_recorded f0 f (h ++ h').
Proof. apply absence_recorded_from. constructor. Qed.

Lemma recordAbsence_bookkeeping f o : only bookkeeping (recordAbsence a ctx kind f o).
Proof. unfold recordAbsence, updateMutationObservation. only_tac. Qed.

Lemma currentObservation_spaced f o :
  currentObservation a kind f = Ok o -> 2 <= mo_Count o ->
  exists first last, parse_time (mo_FirstObservedAt o) = Some first /\ parse_time (mo_LastObservedAt o) = Some last
    /\ 0 < absencePoll a /\ first + wrap64 ((mo_Count o - 1) * absencePoll a) <= last.
Proof.
  unfold currentObservation, validateMutationObservationSpacing. intros H Hc.
  case_test_in H; [injection H as <-; simpl in Hc; lia|].
  destruct (decodeMutationObservation (Observation f)) as [x|]; [|done]. case_test_in H; [done|].
  repeat case_test_in H; simplify_eq; bool_hyps; try lia. eauto 10.
Qed.

Lemma updateMutationObservation_spec f observation :
  ensures (updateMutationObservation ctx f observation) (fun r h =>
    match r with
    | Err _ => True
    | Ok None => In (Ev (FenceGet ctx (Key f)) (None, None)) h
    | Ok (Some g) => In (Ev (FenceSetObservation ctx f observation) (Some g, None)) h
        \/ (In (Ev (FenceGet ctx (Key f)) (Some g, None)) h /\ sameMutationFenceAuthority g f = true)
    end).
Proof.
  unfold updateMutationObservation, ensures. repeat (wp_step; try done); simpl; auto.
  right. split; [auto|]. by bool_hyps.
Qed.

Lemma traced_update f observation g new old :
  In (Ev (FenceSetObservation ctx f observation) (Some g, None)) new
    \/ (In (Ev (FenceGet ctx (Key f)) (Some g, None)) new /\ sameMutationFenceAuthority g f = true) ->
  traced (new ++ old) f g.
Proof.
  intros [H|[H Hs]].
  - eapply traced_observed; [constructor|]. rewrite in_app_iff. by left.
  - eapply traced_current; [constructor| |done]. rewrite in_app_iff. by left.
Qed.

Lemma resetObservation_spec f :
  ensures (resetObservation ctx f) (fun r h => match r with Ok g => traced h f g | Err _ => True end).
Proof.
  unfold resetObservation, ensures. wp_step; [constructor|]. wp_step. eapply ensures_use; [apply updateMutationObservation_spec|].
  intros [[g|]|e] new Hg; [|done..]. wp_step. by eapply traced_update.
Qed.

Lemma recordAbsence_spec cur o :
  currentObservation a kind cur = Ok o ->
  ensures (recordAbsence a ctx kind cur o) (fun r h =>
    match r with
    | AbsenceDone f => absence_recorded cur f h
    | AbsenceCompleted => absence_recorded cur zero_fence h
    | AbsenceAgain f => traced h cur f
    | _ => True
    end).
Proof.
  intros Ho. pose proof (traced_start : forall h f, traced h f f) as Hstart. unfold recordAbsence, ensures. repeat (wp_step; try done).
  all: try (eapply ensures_use; [apply updateMutationObservation_spec|]; intros [[g|]|e] new Hnew; wp_step; try done).
  all: try match goal with Hn : In (Ev (FenceGet _ _) (None, None)) _ |- _ =>
    exists cur, o; split_and!; [done|done|]; left; split; [done|]; rewrite in_app_iff; tauto end.
  - by eapply traced_update.
  - destruct (mo_Count o =? 2) eqn:Hc.
    2: by eapply traced_update.
    exists cur, o. split_and!; [done|done|]. right; right. bool_hyps.
    destruct (currentObservation_spaced cur o Ho) as (first & last & ? & ? & ? & Hsp); [lia|].
    rewrite Hc in *. simpl in *. simplify_eq. do 2 eexists. rewrite !in_app_iff. split_and!; eauto.
    + simpl. auto.
    + split; [done|]. exists first, z. split_and!; auto. by replace ((2 - 1) * absencePoll a) with (absencePoll a) in Hsp by lia.
    + tauto.
  - exists cur, o. split_and!; [done|done|]. right; left. split; [done|]. bool_hyps. assert (mo_Count o = 3) as Hc by lia.
    destruct (currentObservation_spaced cur o Ho) as (first & last & ? & ? & ? & Hsp); [lia|].
    split; [done|]. exists first, last. by rewrite Hc in Hsp.
Qed.
End Record_.

(** ** Deleted disks *)

Section DiskAbsent.
Context `{JT : JSONText} `{TT : TimeText} (fuel : nat) (a : Adapter) (ctx : context) (location d : string).

(** The newest cloud reads are an exact GET and then an inventory read, and both showed the disk
    gone; after them only the clock and the fence were used. *)
Definition disk_absent (h : history) : Prop :=
  exists rest listed exact before,
    h = rest ++ Ev (ListDisks ctx location) listed :: Ev (GetDisk ctx location d) exact :: before
    /\ performed bookkeeping rest
    /\ exactDiskAbsent a d exact = Ok true /\ listDiskAbsent a d listed = Ok true.

(** The proof that completes the delete fence [f0], as [f]. *)
Definition absence_proof (f0 f : mutationFence) (h : history) : Prop :=
  disk_absent h /\ absence_recorded a ctx diskDeleteAbsenceObservationKind f0 f h.

Lemma disk_absent_app h h' : disk_absent h -> disk_absent (h ++ h').
Proof.
  intros (r & l & e & b & -> & ?). exists r, l, e, (b ++ h'). by rewrite <-app_assoc.
Qed.

Lemma absence_proof_from old new f0 f1 f :
  traced ctx old f0 f1 -> absence_proof f1 f new -> absence_proof f0 f (new ++ old).
Proof. intros Ht [? ?]. split; [by apply disk_absent_app|by eapply absence_recorded_from]. Qed.

Lemma waitForDiskAbsent_spec f :
  ensures (waitForDiskAbsent fuel a ctx location d f) (fun r h =>
    match r with Err _ => True | Ok g => absence_proof f g h end).
Proof.
  unfold waitForDiskAbsent. revert f. induction fuel as [|n IH]; intros f; cbn [waitForDiskAbsent_loop]; unfold ensures; [done|].
  assert (forall g h, traced ctx h f g -> wp any_action (waitForDiskAbsent_loop a n ctx location d g) h
    (fun r h => match r with Err _ => True | Ok g => absence_proof f g h end)) as Hagain.
  { intros g h Hg. eapply ensures_use; [apply IH|]. intros [k|e] new; [|done]. by apply absence_proof_from. }
  assert (forall new old g, traced ctx new f g -> traced ctx (new ++ old) f g) as Hmono.
  { intros new old g. apply traced_mono. intros e He. rewrite in_app_iff. auto. }
  wp_step; [|done]. do 2 wp_step. wp_step; [|done]. do 2 wp_step. wp_step; [|done]. wp_step.
  { wp_step. eapply ensures_use; [apply resetObservation_spec|]. intros [g|e] new Hg; [|done]. unfold waitMutationReadback.
    wp_step. wp_step. wp_step; [done|]. apply Hagain. by apply (Hmono (_ :: new)), (traced_mono ctx new); [intros; right|]. }
  bool_hyps. subst. wp_step.
  apply (wp_use _ bookkeeping _ _ _ _ (recordAbsence_bookkeeping a ctx _ _ _)
    (fun _ _ _ => I) (recordAbsence_spec a ctx diskDeleteAbsenceObservationKind f a0 ltac:(done))).
  intros s new Hb Hs. assert (disk_absent (new ++ [Ev (ListDisks ctx location) r0; Ev (GetDisk ctx location d) r])).
  { exists new. do 3 eexists. split_and!; eauto. }
  unfold waitMutationReadback, waitMutationReadbackUntil. destruct s as [g| |g|t|e]; [| | | |done].
  - wp_step. split; [done|by apply absence_recorded_app].
  - wp_step. split; [done|by apply absence_recorded_app].
  - wp_step. wp_step. wp_step; [done|]. apply Hagain. by apply (Hmono (_ :: new)), (traced_mono ctx new); [intros; right|].
  - repeat (wp_step; try done); apply Hagain; constructor.
Qed.
End DiskAbsent.

(** ** Detached disks *)

Section ListedState.
Context (d : string).

Lemma listedRow_nonempty uuid s st : ls_VM (listedRow uuid s st) <> "".
Proof.
  unfold listedRow. destruct (uuidPattern (ToLower uuid)) eqn:E; simpl; repeat case_bool_decide; try done.
  all: by apply uuid_lower_nonempty.
Qed.

Lemma listedVMState_empty vm st :
  ls_VM (listedVMState d vm st) = "" -> ls_VM st = "" /\ vmDiskRows vm d = 0.
Proof.
  unfold listedVMState, vmDiskRows. generalize (storage_rows vm) as rows. intros rows. revert st.
  assert (forall rows st, ls_VM st <> "" -> ls_VM (fold_left (fun st s =>
    if EqualFold (VMStorage_UUID s) d then listedRow (VM_UUID vm) s st else st) rows st) <> "") as Hstay.
  { clear. induction rows as [|s rows IH]; intros st Hst; simpl; [done|].
    apply IH. case_test; [apply listedRow_nonempty|done]. }
  induction rows as [|s rows IH]; intros st; simpl; [done|]. case_test; [|apply IH].
  intros H. exfalso. eapply Hstay; [apply listedRow_nonempty|exact H].
Qed.

(** An inventory that shows the disk on no VM. *)
Lemma listedState_empty vms :
  ls_VM (listedState_of d vms) = "" -> forall vm, In vm vms -> vmDiskRows vm d = 0.
Proof.
  unfold listedState_of. intros H.
  assert (ls_VM (fold_left (fun st vm => listedVMState d vm st) vms (Build_listedState "" 0 None)) = "") as H'.
  { by case_test_in H. }
  clear H. revert H'. generalize (Build_listedState "" 0 None).
  induction vms as [|vm vms IH]; intros st H; simpl in *; [done|].
  assert (ls_VM (listedVMState d vm st) = "") as Hvm.
  { clear IH. revert H. generalize (listedVMState d vm st). induction vms as [|v vms IH]; intros s; simpl; [done|].
    intros H%IH. by apply listedVMState_empty in H as [? _]. }
  intros v [<-|Hin]; [by apply listedVMState_empty in Hvm as [_ ?]|by eapply IH].
Qed.
End ListedState.

Section Detached.
Context `{JT : JSONText} `{TT : TimeText} (fuel : nat) (a : Adapter) (ctx : context) (intent : diskAttachmentIntent).

(** The newest cloud reads are an inventory read that shows the disk on no VM and an exact read
    of the previous VM without it (or of a VM that is gone). *)
Definition disk_detached (h : history) : Prop :=
  exists rest vms exact before,
    h = rest ++ Ev (GetVM ctx (da_Location intent) (da_PreviousVMUUID intent)) exact
          :: Ev (ListVMs ctx (da_Location intent)) (vms, None) :: before
    /\ performed bookkeeping rest
    /\ exactDetachState a intent exact = Ok (false, None)
    /\ forall vm, In vm vms -> vmDiskRows vm (da_DiskUUID intent) = 0.

(** The proof that completes the detach fence [f0], as [f]. *)
Definition detach_proof (f0 f : mutationFence) (h : history) : Prop :=
  disk_detached h /\ absence_recorded a ctx detachAbsenceObservationKind f0 f h.

Lemma disk_detached_app h h' : disk_detached h -> disk_detached (h ++ h').
Proof. intros (r & l & e & b & -> & ?). exists r, l, e, (b ++ h'). by rewrite <-app_assoc. Qed.

Lemma exactDetachState_present reply e :
  exactDetachState a intent reply = Ok (true, e) -> da_PreviousVMUUID intent <> "".
Proof.
  destruct reply as [vm err]. unfold exactDetachState. intros H Hp.
  repeat (case_test_in H; simplify_eq).
  all: match goal with Hv : validateExactVM _ _ _ = None |- _ => unfold validateExactVM in Hv; by rewrite Hp in Hv end.
Qed.

Lemma observeDetachState_spec :
  ensures (observeDetachState a ctx intent) (fun r h => r = ("", None) -> disk_detached h).
Proof.
  unfold observeDetachState, ensures. wp_step. wp_step. wp_step. wp_step; [by wp_step|].
  wp_step. wp_step. wp_step; [|by wp_step]. wp_step.
  assert (forall x : string, (x, Join [ls_Err (listedState_of (da_DiskUUID intent) l); o]) = ("", None) -> x = "" /\ o = None) as Hj.
  { intros x [= -> Hj]. split; [done|]. apply Join_None in Hj.
    apply Forall_cons_1 in Hj as [_ Hj]. by apply Forall_cons_1 in Hj as [Hj _]. }
  repeat (wp_step; try done); intros [Hx ->]%Hj; bool_hyps; try done.
  - apply (proj1 (ToLower_nil_iff _)) in Hx. by eapply exactDetachState_present in Hx.
  - exists [], l, r. eexists. split_and!; eauto using listedState_empty. constructor.
Qed.

Lemma detach_proof_from old new f0 f1 f :
  traced ctx old f0 f1 -> detach_proof f1 f new -> detach_proof f0 f (new ++ old).
Proof. intros Ht [? ?]. split; [by apply disk_detached_app|by eapply absence_recorded_from]. Qed.

Lemma waitForDetached_spec f :
  ensures (waitForDetached fuel a ctx intent f) (fun r h =>
    match r with Err _ => True | Ok g => detach_proof f g h end).
Proof.
  unfold waitForDetached. revert f. induction fuel as [|n IH]; intros f; cbn [waitForDetached_loop]; unfold ensures; [done|].
  assert (forall g h, traced ctx h f g -> wp any_action (waitForDetached_loop a n ctx intent g) h
    (fun r h => match r with Err _ => True | Ok g => detach_proof f g h end)) as Hagain.
  { intros g h Hg. eapply ensures_use; [apply IH|]. intros [k|e] new; [|done]. by apply detach_proof_from. }
  assert (forall new old g, traced ctx new f g -> traced ctx (new ++ old) f g) as Hmono.
  { intros new old g. apply traced_mono. intros e He. rewrite in_app_iff. auto. }
  unfold waitMutationReadback, waitMutationReadbackUntil.
  wp_step; [|done]. wp_step. eapply ensures_use; [apply observeDetachState_spec|]. intros [v serr] new Hv.
  rewrite app_nil_r. wp_step.
  { wp_step. eapply ensures_use; [apply resetObservation_spec|]. intros [g|e] new' Hg; [|done]. wp_step; [done|]. wp_step; [done|].
    wp_step. wp_step. wp_step; [done|]. apply Hagain. by apply (Hmono (_ :: new')), (traced_mono ctx new'); [intros; right|]. }
  bool_hyps. subst. wp_step; [done|]. specialize (Hv eq_refl). wp_step.
  apply (wp_use _ bookkeeping _ _ _ _ (recordAbsence_bookkeeping a ctx _ _ _)
    (fun _ _ _ => I) (recordAbsence_spec a ctx detachAbsenceObservationKind f a0 ltac:(done))).
  intros s new' Hb Hs. assert (disk_detached (new' ++ new)).
  { destruct Hv as (r & vms & e & b & -> & Hr & ?). exists (new' ++ r), vms, e, b. rewrite <-app_assoc.
    split_and!; try tauto. by apply performed_app. }
  destruct s as [g| |g|t|e]; [| | | |done].
  - wp_step. split; [done|by apply absence_recorded_app].
  - wp_step. split; [done|by apply absence_recorded_app].
  - wp_step. wp_step. wp_step; [done|]. apply Hagain. by apply (Hmono (_ :: new')), (traced_mono ctx new'); [intros; right|].
  - repeat (wp_step; try done); apply Hagain; constructor.
Qed.
End Detached.

(** ** Settled attachments *)

Section Settled.
Context `{JT : JSONText} `{TT : TimeText} (fuel : nat) (a : Adapter) (ctx : context).

(** The scan that ends the history found the disk on [v] and on no other VM. *)
Definition scan_ends (location d v : string) (h : history) : Prop :=
  exists scan before, h = scan ++ before /\ performed reading scan /\ scanned a ctx location d v scan.

(** Why the fence [f0] of an attachment intent may be completed, as [f]: a detachment by the spaced absence proof, an
    attachment by a scan that shows the disk on the desired VM. *)
Definition attachment_proof (intent : diskAttachmentIntent) (f0 f : mutationFence) (h : history) : Prop :=
  if da_DesiredVMUUID intent == ""
  then detach_proof a ctx intent f0 f h
  else f = f0 /\ scan_ends (da_Location intent) (da_DiskUUID intent) (da_DesiredVMUUID intent) h.

Lemma attachment_proof_app intent f0 f h h' : attachment_proof intent f0 f h -> attachment_proof intent f0 f (h ++ h').
Proof.
  unfold attachment_proof. case_bool_decide.
  - intros [? ?]. split; [by apply disk_detached_app|by apply absence_recorded_app].
  - intros (-> & s & b & -> & ?). split; [done|]. exists s, (b ++ h'). by rewrite <-app_assoc.
Qed.

Lemma waitForAttachment_spec location d v w :
  ensures (waitForAttachment fuel a ctx location d v w) (fun r h => r = None -> scan_ends location d v h).
Proof.
  unfold waitForAttachment. induction fuel as [|n IH]; cbn [waitForAttachment_loop]; unfold ensures; [done|].
  wp_step. eapply (wp_use _ reading); [solve [only_tac]|done|apply attachedVM_spec|].
  intros [u|e] new Hr Hs; [|done]. rewrite app_nil_r. repeat (wp_step; try done).
  - intros _. bool_hyps. subst. exists new, []. by rewrite app_nil_r.
  - eapply ensures_use; [apply IH|]. intros o new' Ho ->. destruct (Ho eq_refl) as (s & b & -> & ?).
    exists s, (b ++ Ev (Wait ctx (poll a)) None :: new). by rewrite <-app_assoc.
Qed.

Lemma waitForFencedAttachment_spec intent f :
  ensures (waitForFencedAttachment fuel a ctx intent f) (fun r h =>
    match r with Err _ => True | Ok g => attachment_proof intent f g h end).
Proof.
  unfold waitForFencedAttachment, attachment_proof, ensures. wp_step; [done|]. wp_step.
  - bool_hyps. wp_step; [done|]. wp_step. eapply ensures_use; [apply waitForAttachment_spec|].
    intros [e|] new Hs; [done|]. wp_step. rewrite app_nil_r, bool_decide_eq_false_2 by done. auto.
  - bool_hyps. wp_step; [done|]. eapply ensures_use; [apply waitForDetached_spec|].
    intros [g|e] new; [|done]. by rewrite app_nil_r, bool_decide_eq_true_2.
Qed.
End Settled.
