(* ===== verification/CSISafety.v ===== *)
(** * Authority of the adapter's mutations

    Every cloud mutation the adapter dispatches is justified by the history of the same
    invocation, whatever the environment answered and wherever the process crashed: the durable
    fence was acquired and not given up, the exact reads came after it, and the attachment scan
    is the last read of the cloud before the request. *)

From S2P Require Import Prelude GoErrors ClientTypes ClientErrors CSIFence CSIDetachAuthority Prog CSIAdapter CSIRecovery CSIVolumes CSISpecs CSIReadback.

(** A helper without mutations at the end of a method. *)
Lemma wp_rest G {A} (p : program A) h : only quiet p -> wp (on_mutation G) p h (fun _ _ => True).
Proof. intros. apply (wp_only _ quiet); auto using on_mutation_quiet. Qed.

(** A read: its events, and what its specification says of them. *)
Ltac wp_read spec :=
  eapply (wp_use _ reading); [solve [only_tac] | intros; by apply on_mutation_reading | eapply spec |].
Ltac wp_reads :=
  apply (wp_only _ reading); [solve [only_tac] | intros; by apply on_mutation_reading |].
(** A helper that touches fences but not the cloud. *)
Ltac wp_quiet spec :=
  eapply (wp_use _ quiet); [solve [only_tac] | intros; by apply on_mutation_quiet | eapply spec |].
Ltac wp_done := solve [apply wp_rest; only_tac | apply wp_ret; exact I].

Section Held.
Context `{JT : JSONText} {I : Type} `{Marshal I}.

(** The fence was acquired in this invocation, and since then only reads were made: nothing
    that would give the fence up. *)
Definition held (ctx : context) (key : string) (intent : I) (f : mutationFence) (h : history) : Prop :=
  exists mid h0, h = mid ++ h0 /\ performed reading mid /\ acquired ctx key intent f h0.

Lemma held_app ctx key intent f new h :
  performed reading new -> held ctx key intent f h -> held ctx key intent f (new ++ h).
Proof.
  intros Hn (mid & h0 & -> & Hm & ?). exists (new ++ mid), h0. rewrite <-app_assoc.
  split_and!; try tauto. by apply performed_app.
Qed.

Lemma held_read ctx key intent f x r h :
  reading x -> held ctx key intent f h -> held ctx key intent f (Ev x r :: h).
Proof. intros Hx. apply (held_app _ _ _ _ [Ev x r]). by repeat constructor. Qed.

Lemma held_acquired ctx key intent f h h' : acquired ctx key intent f h -> held ctx key intent f (h ++ h').
Proof. intros. exists [], (h ++ h'). split_and!; [done|constructor|by apply acquired_app]. Qed.
End Held.

(** No mutation was dispatched yet. *)
Abbreviation unmutated := (performed unmutating).

Lemma unmutated_app (l l' : history) : performed quiet l -> unmutated l' -> unmutated (l ++ l').
Proof. intros. apply performed_app; auto using performed_unmutating. Qed.

Lemma unmutated_reads (l l' : history) : performed reading l -> unmutated l' -> unmutated (l ++ l').
Proof. auto using unmutated_app, performed_quiet. Qed.

(** Reduces a statement on the whole history to one on its oldest part. *)
Ltac older := repeat first [ apply unmutated_reads; [eassumption|]
  | apply locked_app; [by apply performed_quiet|] | apply held_app; [eassumption|]
  | apply names_vm_app ].

Section Delete.
Context `{JT : JSONText} `{TT : TimeText} (fuel : nat) (a : Adapter) (ctx : context) (location d : string).

(** What authorises [DeleteDisk]: the held delete fence; then a fresh exact read of the disk,
    owned and without snapshots; then a scan that found it attached to no VM; then the reserve. *)
Definition delete_authorized (h : history) : Prop :=
  exists reserve scan disk fence h1,
    h = reserve ++ scan ++ Ev (GetDisk ctx location d) (Some disk, None) :: h1
    /\ performed reading reserve /\ performed reading scan /\ unmutated h1
    /\ held ctx (diskAttachmentFenceKey location d) (diskDeleteIntent a location d) fence h1
    /\ owned_disk a d disk /\ Disk_Snapshots disk = Some []
    /\ scanned a ctx location d "" scan
    /\ reserved ctx reserve.

Definition delete_guard (x : act) (h : history) : Prop := x = DeleteDisk ctx location d /\ delete_authorized h.

Lemma dispatchDelete_guarded f createFence disk h :
  unmutated h ->
  held ctx (diskAttachmentFenceKey location d) (diskDeleteIntent a location d) f h ->
  wp (on_mutation delete_guard) (dispatchDelete fuel a ctx location d f createFence disk) h (fun _ _ => True).
Proof.
  intros Hu Hh. unfold dispatchDelete, abandon, completeDeletion. wp_step; [wp_done|].
  wp_step. wp_reads. intros [v|e] n1 Hn1; [|wp_done]. wp_step; [wp_done|].
  wp_step. wp_read getOwnedDisk_spec. intros [disk'|e] n2 _ Hd; [|wp_done]. destruct Hd as [-> Hd].
  wp_step; [wp_done|]. wp_step; [wp_done|].
  wp_step. wp_read attachedVM_spec. intros [v'|e] n3 Hn3 Hs; [|wp_done]. wp_step; [wp_done|].
  wp_step. wp_read requireMutationDispatchReserve_spec. intros [e|] n4 Hn4 Hr; [wp_done|].
  wp_step. split; [|intros r; wp_done].
  intros _. split; [done|]. bool_hyps. subst. exists n4, n3, disk', f, (n1 ++ h).
  split_and!; auto; [by older..|].
  unfold requireExactDiskSnapshotCollection, snapshots in *.
  destruct (Disk_Snapshots disk') as [[]|]; done.
Qed.

Lemma DeleteVolume_guarded : wp (on_mutation delete_guard) (DeleteVolume fuel a ctx location d) [] (fun _ _ => True).
Proof.
  unfold DeleteVolume, abandonIf, abandon, completeDeletion.
  wp_step. wp_quiet prepareDiskDeleteFence_spec. intros [[f issue]|e] n0 Hq Hacq; [|wp_done].
  wp_step. wp_step. wp_step; [wp_done| |wp_done].
  wp_step. wp_reads. intros [cf|e] n1 Hn1; [|wp_done].
  wp_step. wp_reads. intros rctx n2 Hn2. wp_step; [wp_done|].
  bool_hyps. subst. rewrite app_nil_r. apply dispatchDelete_guarded; older.
  - constructor; [done|]. by apply performed_unmutating.
  - apply held_read; [done|]. rewrite <-(app_nil_r n0). by apply held_acquired.
Qed.
End Delete.

Section Attach.
Context `{JT : JSONText} `{TT : TimeText} (fuel : nat) (a : Adapter) (ctx : context) (location d nodeID : string).

(** What authorises [AttachDisk]: the requested node names the VM; its lock is held; then the
    attach fence; then an exact read of the VM, in the VPC and without the disk; then the disk,
    owned; then a scan that found it attached to no VM; then the reserve. *)
Definition attach_authorized (vm : string) (h : history) : Prop :=
  exists reserve scan disk target vmreads fence h1,
    h = reserve ++ scan ++ Ev (GetDisk ctx location d) (Some disk, None) :: vmreads ++ h1
    /\ performed reading reserve /\ performed reading scan /\ performed reading vmreads /\ unmutated h1
    /\ names_vm ctx location nodeID vm h1 /\ locked (ToLower vm) h1
    /\ held ctx (diskAttachmentFenceKey location (ToLower d)) (attachIntent a location d vm) fence h1
    /\ owned_vm a ctx location vm target vmreads /\ vmDiskRows target d = 0
    /\ owned_disk a d disk
    /\ scanned a ctx location d "" scan
    /\ reserved ctx reserve.

Definition attach_guard (x : act) (h : history) : Prop :=
  exists vm, x = AttachDisk ctx location vm d /\ attach_authorized vm h.

Lemma attachLocked_guarded vm h :
  unmutated h -> names_vm ctx location nodeID vm h -> locked (ToLower vm) h ->
  wp (on_mutation attach_guard) (attachLocked fuel a ctx location d vm) h (fun _ _ => True).
Proof.
  intros Hu Hn Hl. unfold attachLocked, abandon, alreadyConverged.
  wp_step. wp_quiet prepareAttachmentFence_spec. intros [[f|]|e] n0 Hq Hacq; [|wp_done..].
  wp_step. wp_reads. intros [v|e] n1 Hn1; [|wp_done]. wp_step; [wp_done|]. wp_step; [wp_done|].
  wp_step. wp_read getOwnedVM_spec. intros [target|e] n2 Hn2 Hvm; [|wp_done]. do 2 (wp_step; [wp_done|]).
  wp_step. wp_read getOwnedDisk_spec. intros [disk|e] n3 _ Hd; [|wp_done]. destruct Hd as [-> Hd].
  wp_step. wp_read attachedVM_spec. intros [w|e] n4 Hn4 Hs; [|wp_done]. do 2 (wp_step; [wp_done|]).
  wp_step. wp_read requireMutationDispatchReserve_spec. intros [e|] n5 Hn5 Hr; [wp_done|].
  wp_step. split; [|intros r; wp_done].
  intros _. exists vm. split; [done|]. bool_hyps. subst. exists n5, n4, disk, target, n2, f, (n1 ++ n0 ++ h).
  split_and!; auto; older; auto using unmutated_app, locked_app, held_acquired.
Qed.

Lemma AttachVolume_guarded : wp (on_mutation attach_guard) (AttachVolume fuel a ctx location d nodeID) [] (fun _ _ => True).
Proof.
  unfold AttachVolume, GetVolume, unlocking.
  wp_step. wp_read resolveVM_spec. intros [vm|e] n0 Hn0 Hv; [|wp_done]. rewrite app_nil_r.
  wp_step. wp_reads. intros [vol|e] n1 Hn1; [|wp_done].
  wp_step. eapply (wp_use _ unmutating); [apply lockVM_unmutating|by intros; apply on_mutation_unmutating|apply lockVM_spec|].
  intros [key|e] n2 Hn2 Hl; [|wp_done]. destruct Hl as [-> Hl].
  wp_step. eapply wp_mono; [apply attachLocked_guarded|].
  - apply performed_app; [done|]. older. by apply performed_unmutating, performed_quiet.
  - by older.
  - destruct Hl as (n & c & o & -> & ?). exists n, c, (o ++ n1 ++ n0). by rewrite <-app_assoc.
  - intros r h _. by repeat wp_step.
Qed.
End Attach.

Section Detach.
Context `{JT : JSONText} `{TT : TimeText} (fuel : nat) (a : Adapter) (ctx : context) (location d nodeID : string).

(** The VM is the one the caller means: no node was named, the node names it, or the node is
    gone and the missing-node authority granted the detach after the final scan. *)
Definition detach_target_ok (vm : string) (recovery h1 : history) : Prop :=
  nodeID = "" \/ names_vm ctx location nodeID vm h1 \/ detach_authority_given a ctx location d nodeID vm recovery.

(** What authorises [DetachDisk]: the VM's lock and the detach fence are held; then an exact read
    of the VM, in the VPC and with exactly one row of the disk; then the disk, owned; then a scan
    that found it on this VM and no other; then the target check and the reserve. *)
Definition detach_authorized (vm : string) (h : history) : Prop :=
  exists reserve recovery scan disk target vmreads recoveryNode fence h1,
    h = reserve ++ recovery ++ scan ++ Ev (GetDisk ctx location d) (Some disk, None) :: vmreads ++ h1
    /\ performed reading reserve /\ performed reading recovery /\ performed reading scan
    /\ performed reading vmreads /\ unmutated h1
    /\ detach_target_ok vm recovery h1 /\ locked (ToLower vm) h1
    /\ held ctx (diskAttachmentFenceKey location (ToLower d)) (detachIntent a location d vm recoveryNode) fence h1
    /\ owned_vm a ctx location vm target vmreads /\ vmDiskRows target d = 1
    /\ owned_disk a d disk
    /\ scanned a ctx location d vm scan
    /\ reserved ctx reserve.

Definition detach_guard (x : act) (h : history) : Prop :=
  exists vm, vm <> "" /\ x = DetachDisk ctx location vm d /\ detach_authorized vm h.

Lemma detachTarget_reads vm : only reading (detachTarget a ctx location d nodeID vm).
Proof. unfold detachTarget. only_tac. Qed.

Lemma detachTarget_spec vm :
  ensures (detachTarget a ctx location d nodeID vm) (fun r h =>
    r = DetachFrom false -> nodeID = "" \/ names_vm ctx location nodeID vm h).
Proof.
  unfold detachTarget, ensures. wp_step; [wp_step; bool_hyps; auto|].
  wp_step. eapply ensures_use; [apply resolveVM_spec|]. intros [v|e] new Hv.
  - wp_step. rewrite app_nil_r. case_test; [done|]. bool_hyps. subst. auto.
  - repeat (wp_step; try done). apply wp_skip. intros [[]|?] ?; by wp_step.
Qed.

Lemma detachLocked_guarded vm recovered h :
  vm <> "" -> unmutated h -> (recovered = false -> nodeID = "" \/ names_vm ctx location nodeID vm h) ->
  locked (ToLower vm) h ->
  wp (on_mutation detach_guard) (detachLocked fuel a ctx location d nodeID vm recovered) h (fun _ _ => True).
Proof.
  intros Hvm0 Hu Ht Hl. unfold detachLocked, abandon, alreadyConverged.
  wp_step. wp_quiet prepareAttachmentFence_spec. intros [[f|]|e] n0 Hq Hacq; [|wp_done..].
  wp_step. wp_reads. intros [v|e] n1 Hn1; [|wp_done]. do 2 (wp_step; [wp_done|]).
  wp_step. wp_read getOwnedVM_spec. intros [target|e] n2 Hn2 Hvm; [|wp_done]. do 2 (wp_step; [wp_done|]).
  wp_step. wp_read getOwnedDisk_spec. intros [disk|e] n3 _ Hd; [|wp_done]. destruct Hd as [-> Hd].
  wp_step. wp_read attachedVM_spec. intros [w|e] n4 Hn4 Hs; [|wp_done]. do 2 (wp_step; [wp_done|]).
  wp_step. eapply (wp_use _ reading _ _ (fun r new => r = None -> recovered = true ->
    detach_authority_given a ctx location d nodeID vm new));
    [solve [only_tac]|by intros; apply on_mutation_reading| |].
  { unfold ensures. wp_step; [|by wp_step]. wp_step. eapply ensures_use; [apply missingNodeDetachTarget_spec|].
    intros [[]|e] new Hr; wp_step; try done. intros _ _. rewrite app_nil_r. auto. }
  intros [e|] n5 Hn5 Hrec; [wp_done|].
  wp_step. wp_read requireMutationDispatchReserve_spec. intros [e|] n6 Hn6 Hr; [wp_done|].
  wp_step. split; [|intros r; wp_done].
  intros _. exists vm. split; [done|]. split; [done|]. bool_hyps. subst.
  exists n6, n5, n4, disk, target, n2, (if recovered then TrimSpace nodeID else ""), f, (n1 ++ n0 ++ h).
  split_and!; auto; older; auto using unmutated_app, locked_app, held_acquired.
  destruct recovered; [right; right; auto|]. destruct (Ht eq_refl); [by left|right; left; by older].
Qed.

Lemma DetachVolume_guarded : wp (on_mutation detach_guard) (DetachVolume fuel a ctx location d nodeID) [] (fun _ _ => True).
Proof.
  unfold DetachVolume, unlocking.
  wp_step. wp_reads. intros [disk|e] n0 Hn0; [|wp_done]. rewrite app_nil_r.
  wp_step. apply (wp_only _ quiet); [solve [only_tac]|by intros; apply on_mutation_quiet|].
  intros [b|e] n1 Hn1; [|wp_done].
  wp_step. wp_reads. intros [vm|e] n2 Hn2; [|wp_done]. wp_step; [wp_done|].
  wp_step. eapply (wp_use _ reading); [apply detachTarget_reads|by intros; apply on_mutation_reading|apply detachTarget_spec|].
  intros [recovered| |e] n3 Hn3 Ht; [|wp_done..].
  wp_step. eapply (wp_use _ unmutating); [apply lockVM_unmutating|by intros; apply on_mutation_unmutating|apply lockVM_spec|].
  intros [key|e] n4 Hn4 Hl; [|wp_done]. destruct Hl as [-> Hl]. bool_hyps.
  wp_step. eapply wp_mono; [apply detachLocked_guarded|]; [done|..].
  - apply performed_app; [done|]. older. by apply unmutated_app, performed_unmutating, performed_quiet.
  - intros ->. destruct Ht as [?|(p & ? & Hp)]; [done|by left|right].
    exists p. split; [done|]. rewrite !in_app_iff. tauto.
  - by apply locked_prefix.
  - intros r h _. by repeat wp_step.
Qed.
End Detach.

Section Create.
Context `{JT : JSONText} `{TT : TimeText} (sha256_hex : string -> string) (fuel : nat) (a : Adapter) (ctx : context) (spec : VolumeSpec).

(** What authorises the paid [CreateDisk]: the requested size is exact; an inventory read without
    the name; the exclusive create fence; an inventory read without the name right after it; then
    the reserve. *)
Definition create_authorized (size : Z) (h : history) : Prop :=
  exists reserve disks fence h1,
    h = reserve ++ Ev (ListDisks ctx (Spec_Location spec)) (disks, None) :: h1
    /\ performed reading reserve /\ unmutated h1
    /\ bytesToGiB (Spec_CapacityBytes spec) = Ok size
    /\ acquired ctx (diskCreateFenceKey sha256_hex (Spec_Location spec) (Spec_Name spec)) (createIntent a spec size) fence h1
    /\ namedDisks disks (Spec_Name spec) = []
    /\ reserved ctx reserve.

Definition create_guard (x : act) (h : history) : Prop :=
  exists size, x = CreateDisk ctx (Spec_Location spec) (Build_CreateDiskRequest (Spec_Name spec) size (billing a) "EMPTY" "")
    /\ create_authorized size h.

Lemma uniqueNamedDisk_none disks name : uniqueNamedDisk disks name = Ok None -> namedDisks disks name = [].
Proof. unfold uniqueNamedDisk. by destruct (namedDisks disks name) as [|? []]. Qed.

Lemma EnsureVolume_guarded : wp (on_mutation create_guard) (EnsureVolume sha256_hex fuel a ctx spec) [] (fun _ _ => True).
Proof.
  unfold EnsureVolume, adoptExistingDisk, createFencedDisk, clearUndispatchedDiskCreateFence.
  wp_step; [|wp_done]. wp_step. wp_step. wp_step. wp_step; [wp_done|]. wp_step; [|wp_done]. wp_step; [wp_done|].
  wp_step. wp_quiet beginDiskCreateFence_spec. intros [[f acq]|e] n1 Hn1 Hacq; [|wp_done].
  wp_step; [|wp_done]. wp_step. wp_step. wp_step. wp_step; [wp_done|]. wp_step; [|wp_done]. wp_step; [wp_done|].
  wp_step. wp_read requireMutationDispatchReserve_spec. intros [e|] n2 Hn2 Hr; [wp_done|].
  wp_step. split; [|intros r; wp_done].
  intros _. exists a0. split; [done|]. subst. do 4 eexists.
  split_and!; eauto using acquired_app, uniqueNamedDisk_none.
  apply unmutated_app; [done|]. by repeat constructor.
Qed.
End Create.

Section Expand.
Context `{JT : JSONText} `{TT : TimeText} (fuel : nat) (a : Adapter) (ctx : context) (location d : string) (capacity : Z).

(** What authorises [ResizeAttachedDisk]: the requested size is exact; the VM that holds the disk
    was read, in the VPC and with exactly one row of it; its lock is held; then an exact read of
    the disk, owned and smaller than requested; then a scan that still finds it on this VM and no
    other; then the reserve. *)
Definition resize_authorized (vm : string) (size : Z) (h : history) : Prop :=
  exists reserve scan disk target h1,
    h = reserve ++ scan ++ Ev (GetDisk ctx location d) (Some disk, None) :: h1
    /\ performed reading reserve /\ performed reading scan /\ unmutated h1
    /\ bytesToGiB capacity = Ok size
    /\ owned_vm a ctx location vm target h1 /\ vmDiskRows target d = 1 /\ locked (ToLower vm) h1
    /\ owned_disk a d disk /\ Disk_SizeGiB disk < size
    /\ scanned a ctx location d vm scan
    /\ reserved ctx reserve.

Definition resize_guard (x : act) (h : history) : Prop :=
  exists vm size, vm <> "" /\ x = ResizeAttachedDisk ctx location vm d size /\ resize_authorized vm size h.

Lemma waitForDiskSize_quiet c size : only quiet (waitForDiskSize fuel a c location d size).
Proof. unfold waitForDiskSize. induction fuel as [|n IH]; simpl waitForDiskSize_loop; only_tac. Qed.
Hint Resolve waitForDiskSize_quiet : only.

Lemma owned_vm_in c u vm h h' : owned_vm a c location u vm h -> (forall e, In e h -> In e h') -> owned_vm a c location u vm h'.
Proof. intros (? & ? & (n & m & ? & ?) & (vms & ? & ?)) Hin. unfold owned_vm. split_and!; eauto 10. Qed.

Lemma expandLocked_guarded vm size target h :
  bytesToGiB capacity = Ok size -> vm <> "" -> unmutated h -> locked (ToLower vm) h ->
  owned_vm a ctx location vm target h -> vmDiskRows target d = 1 ->
  wp (on_mutation resize_guard) (expandLocked fuel a ctx location d vm size) h (fun _ _ => True).
Proof.
  intros Hsize Hvm0 Hu Hl Hvm Hrows. unfold expandLocked.
  wp_step. wp_read getOwnedDisk_spec. intros [disk|e] n1 _ Hd; [|wp_done]. destruct Hd as [-> Hd].
  wp_step; [wp_done|]. wp_step. wp_read attachedVM_spec. intros [w|e] n2 Hn2 Hs; [|wp_done]. wp_step; [wp_done|].
  wp_step. wp_read requireMutationDispatchReserve_spec. intros [e|] n3 Hn3 Hr; [wp_done|].
  wp_step. split; [|intros r; wp_done].
  intros _. exists vm, size. bool_hyps. subst. split_and!; try done.
  exists n3, n2, disk, target, h. split_and!; auto.
Qed.

Lemma ExpandVolume_guarded : wp (on_mutation resize_guard) (ExpandVolume fuel a ctx location d capacity) [] (fun _ _ => True).
Proof.
  unfold ExpandVolume, unlocking. wp_step; [|wp_done].
  wp_step. wp_reads. intros [disk|e] n0 Hn0; [|wp_done]. rewrite app_nil_r. wp_step; [wp_done|].
  wp_step. apply (wp_only _ quiet); [solve [only_tac]|by intros; apply on_mutation_quiet|].
  intros [b|e] n1 Hn1; [|wp_done].
  wp_step. wp_reads. intros [vm|e] n2 Hn2; [|wp_done]. wp_step; [wp_done|].
  wp_step. wp_read getOwnedVM_spec. intros [target|e] n3 Hn3 Hvm; [|wp_done]. do 3 (wp_step; [wp_done|]).
  wp_step. eapply (wp_use _ unmutating); [apply lockVM_unmutating|by intros; apply on_mutation_unmutating|apply lockVM_spec|].
  intros [key|e] n4 Hn4 Hl; [|wp_done]. destruct Hl as [-> Hl]. bool_hyps.
  wp_step. eapply wp_mono; [eapply expandLocked_guarded|]; try done.
  - apply performed_app; [done|]. older. by apply unmutated_app, performed_unmutating, performed_quiet.
  - by apply locked_prefix.
  - eapply owned_vm_in; [done|]. intros ev. rewrite !in_app_iff. tauto.
Qed.
End Expand.
