(* ===== verification/CSIRetention.v ===== *)
(** * Retention of durable fences

    A fence keeps every other controller from repeating a mutation whose outcome is unknown. Here:
    the adapter deletes a fence only when its own mutation was certainly not dispatched, or after
    reads that show the mutation's outcome. *)

From S2P Require Import Prelude GoErrors ClientTypes ClientErrors CSIFence CSIDetachAuthority Prog CSIAdapter CSIRecovery CSIVolumes CSISpecs CSIReadback CSISafety.

(** The SDK refused the mutation before it sent anything. *)
Definition blocked_reply (e : event res) : bool :=
  match e with
  | Ev (DeleteDisk _ _ _) r => errIs r ErrMutationBlocked
  | Ev (DetachDisk _ _ _ _) r => errIs r ErrMutationBlocked
  | Ev (AttachDisk _ _ _ _) r => errIs (snd r) ErrMutationBlocked
  | Ev (CreateDisk _ _ _) r => errIs (snd r) ErrMutationBlocked
  | _ => false
  end.

Ltac cwp_read :=
  apply (wp_only _ reading); [solve [only_tac] | intros; by apply on_completion_watching, reading_watching |].
Ltac cwp_watch :=
  apply (wp_only _ watching); [solve [only_tac] | intros; by apply on_completion_watching |].
Ltac cwp_spec spec :=
  eapply (wp_use _ watching); [solve [only_tac] | intros; by apply on_completion_watching | eapply spec |].
Ltac cwp_done := solve [apply (wp_only _ watching); [only_tac | intros; by apply on_completion_watching | done] | apply wp_ret; exact I].

Section Retention.
Context `{JT : JSONText} `{TT : TimeText} (fuel : nat) (a : Adapter) (ctx : context) (location d : string).

(** An earlier attachment or detachment of the disk, found behind its fence, has settled: the fence
    [stored] was read, and the reads since then, which went with nothing but observations on that
    fence, prove the outcome of exactly the intent that it carries. *)
Definition settled (c : context) (f : mutationFence) (h : history) : Prop :=
  exists new stored old intent,
    h = new ++ Ev (FenceGet ctx (diskAttachmentFenceKey location d)) (Some stored, None) :: old
    /\ performed watching new
    /\ decodeMutationIntent diskAttachmentIntent stored = Ok intent
    /\ da_Operation intent = "disk-attachment" /\ da_Location intent = location
    /\ da_DiskUUID intent = ToLower d /\ da_BillingAccountID intent = billing a
    /\ attachment_proof a c intent stored f new.

(** Why [FenceDelete c f] may follow [h]: the fence belongs to a settled earlier attempt; or this
    invocation acquired it and made only reads since; or its mutation was refused locally; or the
    method's own outcome proof. *)
Definition completable (intent : diskAttachmentIntent) (proof : context -> mutationFence -> history -> Prop)
    (c : context) (f : mutationFence) (h : history) : Prop :=
  settled c f h
  \/ held ctx (diskAttachmentFenceKey location (da_DiskUUID intent)) intent f h
  \/ (exists now m h1, h = Ev Now now :: m :: h1 /\ blocked_reply m = true
      /\ held ctx (diskAttachmentFenceKey location (da_DiskUUID intent)) intent f h1)
  \/ proof c f h.

Lemma attachment_key_lower : diskAttachmentFenceKey location (ToLower d) = diskAttachmentFenceKey location d.
Proof. unfold diskAttachmentFenceKey. by rewrite ToLower_idem. Qed.

Section WithGuard.
Context (intent : diskAttachmentIntent) (proof : context -> mutationFence -> history -> Prop).
Let G := on_completion (completable intent proof).

Lemma deleteDetached_completes f h :
  held ctx (diskAttachmentFenceKey location (da_DiskUUID intent)) intent f h ->
  wp G (deleteMutationFenceDetached a f) h (fun _ _ => True).
Proof.
  intros Hh. unfold deleteMutationFenceDetached, mutationReadbackContext, detachedContext.
  repeat (wp_step || (split; [exact I|intros ?])). split; [|done]. right; left. by apply held_read.
Qed.

Lemma abandon_completes f e h :
  held ctx (diskAttachmentFenceKey location (da_DiskUUID intent)) intent f h ->
  wp G (abandon a f e) h (fun _ _ => True).
Proof.
  intros Hh. unfold abandon, clearFence. wp_step. wp_step.
  eapply wp_mono; [by apply deleteDetached_completes|]. intros [x|] h' _; by repeat wp_step.
Qed.

Lemma deleteBlocked_completes f m h :
  blocked_reply m = true -> held ctx (diskAttachmentFenceKey location (da_DiskUUID intent)) intent f h ->
  wp G (deleteMutationFenceDetached a f) (m :: h) (fun _ _ => True).
Proof.
  intros Hb Hh. unfold deleteMutationFenceDetached, mutationReadbackContext, detachedContext.
  repeat (wp_step || (split; [exact I|intros ?])). split; [|done]. right; right; left. eauto 10.
Qed.

Lemma settleExisting_completes requested h :
  da_Location requested = location -> da_DiskUUID requested = ToLower d ->
  wp G (settleExistingAttachmentFence fuel a ctx requested) h (fun _ _ => True).
Proof.
  intros Hl Hd. unfold settleExistingAttachmentFence, G. wp_step; [done|].
  wp_step. split; [exact I|intros [st err]]. repeat (wp_step; try done).
  cwp_watch. intros rctx n1 Hn1. wp_step. cwp_spec waitForFencedAttachment_spec.
  intros [g|e] n2 Hn2 Hg; [|done]. wp_step. unfold completeResolvedFence. wp_step; [|by repeat wp_step].
  wp_step. split; [|intros []; by repeat (wp_step; try done)].
  left. bool_hyps. rewrite Hl, Hd, attachment_key_lower in *. do 4 eexists. rewrite app_assoc.
  split_and!; [reflexivity|by apply performed_app|eassumption|done|congruence|congruence|done|by apply attachment_proof_app].
Qed.

Lemma finishAttachmentMutation_completes f m err h :
  errIs err ErrMutationBlocked = blocked_reply m ->
  (forall c g new, performed watching new -> blocked_reply m = false -> attachment_proof a c intent f g new -> proof c g (new ++ m :: h)) ->
  held ctx (diskAttachmentFenceKey location (da_DiskUUID intent)) intent f h ->
  wp G (finishAttachmentMutation fuel a intent f err) (m :: h) (fun _ _ => True).
Proof.
  intros Hb Hp Hh. unfold finishAttachmentMutation. wp_step.
  - wp_step. eapply wp_mono; [apply deleteBlocked_completes; [congruence|done]|].
    intros [e|] h' _; by repeat wp_step.
  - wp_step. cwp_watch. intros rctx n1 Hn1. wp_step. cwp_spec waitForFencedAttachment_spec.
    intros [g|e] n2 Hn2 Hg; [|by wp_step]. unfold completeResolvedFence. wp_step; [|by wp_step].
    wp_step. split; [|intros []; by repeat (wp_step; try done)].
    right; right; right. rewrite app_assoc. apply Hp; [by apply performed_app|congruence|by apply attachment_proof_app].
Qed.

Lemma prepareAttachment_completes h :
  da_Location intent = location -> da_DiskUUID intent = ToLower d ->
  wp G (prepareAttachmentFence fuel a ctx intent) h (fun _ _ => True).
Proof.
  intros Hl Hd. unfold prepareAttachmentFence. generalize 3%nat as n. intros n. revert h.
  induction n as [|n IH]; intros h; cbn [prepareAttachmentFence_loop]; [done|].
  wp_step. eapply wp_mono; [by apply settleExisting_completes|]. intros [b|e] h1 _; [|done].
  wp_step; [done|]. wp_step. unfold beginAttachmentFence. 
  repeat (wp_step || (split; [exact I|intros ?])); try done; try apply IH.
Qed.

Lemma prepareDelete_completes h :
  wp G (prepareDiskDeleteFence fuel a ctx location d) h (fun _ _ => True).
Proof.
  unfold prepareDiskDeleteFence. generalize 3%nat as n. intros n. revert h.
  induction n as [|n IH]; intros h; cbn [prepareDiskDeleteFence_loop]; [done|].
  wp_step. split; [exact I|intros [st err]]. repeat (wp_step; try done).
  - eapply wp_mono; [by apply settleExisting_completes|]. intros [b|e] h1 _; [apply IH|done].
  - split; [exact I|intros tok]. repeat (wp_step || (split; [exact I|intros ?])); try done; try apply IH.
Qed.
End WithGuard.

(** ** DeleteVolume *)

(** The create fence that DeleteVolume completes with the deletion: listed, and with the disk's
    own UUID as its receipt. *)
Definition matching_create_fence (f : mutationFence) (h : history) : Prop :=
  exists fences, In (Ev (FenceList ctx ("disk-create/" +:+ ToLower location +:+ "/")) (fences, None)) h
    /\ In f fences /\ EqualFold (Receipt f) d = true.

(** A fence of this deletion: one that carries its intent, read or created by this invocation. *)
Definition delete_fence (f : mutationFence) (h : history) : Prop :=
  decodeMutationIntent diskAttachmentIntent f = Ok (diskDeleteIntent a location d)
  /\ (In (Ev (FenceGet ctx (diskAttachmentFenceKey location d)) (Some f, None)) h
      \/ exists candidate issue, In (Ev (FenceCreate ctx candidate) (Some f, issue, None)) h).

(** The newest exchanges, which went with nothing but observations on the deletion's fence, prove
    the disk gone: for the fence [f0] of the deletion, which they leave as [f]. *)
Definition deletion_shown (c : context) (f : mutationFence) (h : history) : Prop :=
  exists new f0 old, h = new ++ old /\ performed watching new /\ delete_fence f0 old /\ absence_proof a c location d f0 f new.

(** The matching create fence goes directly after the proof, then the deletion's own fence. *)
Definition deletion_proof (c : context) (f : mutationFence) (h : history) : Prop :=
  (matching_create_fence f h /\ exists g, deletion_shown c g h)
  \/ deletion_shown c f h
  \/ exists createFence h1, h = Ev (FenceDelete c createFence) None :: h1 /\ matching_create_fence createFence h1 /\ deletion_shown c f h1.

Lemma prepareDiskDeleteFence_origin :
  ensures (prepareDiskDeleteFence fuel a ctx location d) (fun r h => match r with Ok (f, _) => delete_fence f h | Err _ => True end).
Proof.
  unfold prepareDiskDeleteFence. generalize 3%nat as n.
  assert (forall new old f, delete_fence f new -> delete_fence f (new ++ old)) as Hmore.
  { intros new old f [Hd Hin]. split; [done|]. setoid_rewrite in_app_iff. destruct Hin as [?|(x & i & ?)]; [by left; left|right; exists x, i; by left]. }
  induction n as [|n IH]; simpl prepareDiskDeleteFence_loop; unfold ensures; [by wp_step|].
  assert (forall h, wp any_action (prepareDiskDeleteFence_loop fuel a n ctx location d) h
    (fun r h => match r with Ok (f, _) => delete_fence f h | Err _ => True end)) as Hagain.
  { intros h. eapply ensures_use; [apply IH|]. intros [[f i]|e] new Hf; [by apply Hmore|done]. }
  repeat (wp_step; try done).
  - bool_hyps. subst. split; [done|]. left. by left.
  - apply wp_skip. intros [b|e] new; [apply Hagain|done].
  - destruct o, o0; simplify_eq/=. bool_hyps. subst. split; [done|]. right. do 2 eexists. by left.
Qed.

Lemma matchCreateFences_ok disk fences acc f :
  matchCreateFences location d disk fences acc = Ok (Some f) ->
  acc = Some f \/ (In f fences /\ EqualFold (Receipt f) d = true).
Proof.
  revert acc. induction fences as [|g fences IH]; intros acc H; simpl in H; [left; congruence|].
  repeat (case_test_in H; try done); apply IH in H; simpl; bool_hyps; naive_solver.
Qed.

Lemma matchingDiskCreateFence_spec disk :
  ensures (matchingDiskCreateFence ctx location d disk) (fun r h =>
    match r with Ok (Some f) => matching_create_fence f h | _ => True end).
Proof.
  unfold matchingDiskCreateFence, ensures. repeat (wp_step; try done).
  destruct (matchCreateFences _ _ _ _ _) as [[f|]|] eqn:E; try done.
  apply matchCreateFences_ok in E as [?|?]; [done|]. exists l. simpl. auto.
Qed.

Let deleteG := on_completion (completable (diskDeleteIntent a location d) deletion_proof).
Let delete_held := held ctx (diskAttachmentFenceKey location d) (diskDeleteIntent a location d).

Lemma matching_create_fence_app f h new : matching_create_fence f h -> matching_create_fence f (new ++ h).
Proof. intros (l & ? & ?). exists l. rewrite in_app_iff. auto. Qed.

Lemma matching_create_fence_prefix f h h' : matching_create_fence f h -> matching_create_fence f (h ++ h').
Proof. intros (l & ? & ?). exists l. rewrite in_app_iff. auto. Qed.

Lemma delete_fence_app f h new : delete_fence f h -> delete_fence f (new ++ h).
Proof. intros [Hd Hin]. split; [done|]. setoid_rewrite in_app_iff. destruct Hin as [?|(x & i & ?)]; [by left; right|right; exists x, i; by right]. Qed.

Lemma completeDeletion_completes c cf f0 f n h :
  (forall g, cf = Some g -> matching_create_fence g h) -> delete_fence f0 h -> performed watching n -> absence_proof a c location d f0 f n ->
  wp deleteG (completeDeletion c cf f) (n ++ h) (fun _ _ => True).
Proof.
  intros Hcf Hf Hn Ha. assert (deletion_shown c f (n ++ h)) as Hp by (by exists n, f0, h).
  unfold completeDeletion, deleteG. wp_step. destruct cf as [g|].
  - assert (matching_create_fence g (n ++ h)) as Hg by (by apply matching_create_fence_app, Hcf). split.
    + right; right; right; left. split; [done|by exists f].
    + intros [e|]; [done|]. wp_step. split; [|intros []; by repeat wp_step].
      right; right; right; right; right. eauto.
  - wp_step. wp_step. split; [|intros []; by repeat wp_step]. by right; right; right; right; left.
Qed.

(** The readback that ends a deletion, and the completion it allows. *)
Lemma readback_completes {B} c cf f h (k : goerr -> program B) (onErr : error -> program B) :
  (forall g, cf = Some g -> matching_create_fence g h) -> delete_fence f h ->
  (forall e n, wp deleteG (k e) n (fun _ _ => True)) -> (forall e n, wp deleteG (onErr e) n (fun _ _ => True)) ->
  wp deleteG (let! resolved := waitForDiskAbsent fuel a c location d f in
              match resolved with
              | Err e => onErr e
              | Ok g => let! err := completeDeletion c cf g in k err
              end) h (fun _ _ => True).
Proof.
  intros Hcf Hf Hk He. wp_step. cwp_spec waitForDiskAbsent_spec. intros [g|e] n Hn Hp; [|apply He].
  wp_step. eapply wp_mono; [by eapply completeDeletion_completes|]. auto.
Qed.

(** The same when the completion ends the method. *)
Lemma readback_completes_last c cf f h (onErr : error -> program goerr) :
  (forall g, cf = Some g -> matching_create_fence g h) -> delete_fence f h -> (forall e n, wp deleteG (onErr e) n (fun _ _ => True)) ->
  wp deleteG (let! resolved := waitForDiskAbsent fuel a c location d f in
              match resolved with Err e => onErr e | Ok g => completeDeletion c cf g end) h (fun _ _ => True).
Proof.
  intros Hcf Hf He. wp_step. cwp_spec waitForDiskAbsent_spec. intros [g|e] n Hn Hp; [|apply He].
  by eapply completeDeletion_completes.
Qed.

Lemma abandon_delete f e h : delete_held f h -> wp deleteG (abandon a f e) h (fun _ _ => True).
Proof. intros. apply abandon_completes. simpl. by rewrite attachment_key_lower. Qed.

Lemma abandon_blocked f e m h :
  blocked_reply m = true -> delete_held f h -> wp deleteG (abandon a f e) (m :: h) (fun _ _ => True).
Proof.
  intros Hb Hh. unfold abandon, clearFence. wp_step. wp_step. eapply wp_mono.
  - apply deleteBlocked_completes; [done|]. simpl. by rewrite attachment_key_lower.
  - intros [x|] h' _; by repeat wp_step.
Qed.

Lemma dispatchDelete_completes f cf disk h :
  delete_held f h -> delete_fence f h -> (forall g, cf = Some g -> matching_create_fence g h) ->
  wp deleteG (dispatchDelete fuel a ctx location d f cf disk) h (fun _ _ => True).
Proof.
  intros Hh Hf Hcf. unfold dispatchDelete. wp_step; [by apply abandon_delete|].
  wp_step. cwp_read. intros [v1|e] n1 Hn1; [|apply abandon_delete; by older]. wp_step; [apply abandon_delete; by older|].
  wp_step. cwp_read. intros [d2|e] n2 Hn2; [|apply abandon_delete; by older]. do 2 (wp_step; [apply abandon_delete; by older|]).
  wp_step. cwp_read. intros [v3|e] n3 Hn3; [|apply abandon_delete; by older]. wp_step; [apply abandon_delete; by older|].
  wp_step. cwp_read. intros [e|] n4 Hn4; [apply abandon_delete; by older|].
  wp_step. split; [exact I|]. intros r. apply wp_ret.
  assert (forall n, wp deleteG (let! c := destructiveReadbackContext a in
    let! resolved := waitForDiskAbsent fuel a c location d f in
    match resolved with
    | Err _ => Ret (Some (wrapS ErrUnavailable "disk deletion remains ambiguous behind durable fence"))
    | Ok g => completeDeletion c cf g
    end) (n ++ h) (fun _ _ => True)) as Hread.
  { intros n. wp_step. cwp_read. intros c n5 Hn5. apply readback_completes_last; [|by do 2 apply delete_fence_app|by intros; wp_step].
    intros g ->. by do 2 apply matching_create_fence_app; apply Hcf. }
  rewrite !app_assoc, app_comm_cons in *. destruct r as [e|]; [|apply Hread].
  wp_step; [|apply Hread]. rewrite <-app_comm_cons, <-!app_assoc. apply abandon_blocked; [done|]. by older.
Qed.

(** Every fence that DeleteVolume deletes may be deleted. *)
Lemma DeleteVolume_completes : wp deleteG (DeleteVolume fuel a ctx location d) [] (fun _ _ => True).
Proof.
  unfold DeleteVolume, abandonIf.
  wp_step. eapply wp_mono; [apply wp_both; [apply prepareDelete_completes|apply wp_both; [apply prepareDiskDeleteFence_spec|apply prepareDiskDeleteFence_origin]]|].
  intros [[f issue]|e] h (_ & n0 & -> & Hacq & n0' & E & Hf); [|done]. rewrite app_nil_r in *. subst n0'.
  assert (issue = true -> delete_held f n0) as Hheld.
  { intros ->. rewrite <-(app_nil_r n0). by apply held_acquired. }
  wp_step. split; [exact I|]. intros reply. apply wp_ret.
  assert (issue = true -> forall n, performed reading n -> delete_held f (n ++ Ev (GetDisk ctx location d) reply :: n0)) as Hh.
  { intros Hi n Hn. apply held_app; [done|]. apply held_read; [done|by apply Hheld]. }
  assert (forall e n, performed reading n -> wp deleteG
    (if issue then abandon a f e else Ret (Some e)) (n ++ Ev (GetDisk ctx location d) reply :: n0) (fun _ _ => True)) as Hab.
  { intros e n Hn. destruct issue; [|done]. by apply abandon_delete, Hh. }
  wp_step; [| |apply (Hab _ []); constructor].
  all: wp_step; eapply (wp_use _ reading); [solve [only_tac]|by intros; apply on_completion_watching, reading_watching|apply matchingDiskCreateFence_spec|].
  all: intros [cf|e] n1 Hn1 Hcf; [|by apply Hab].
  all: wp_step; cwp_read; intros c n2 Hn2.
  all: assert (forall g, cf = Some g -> matching_create_fence g (n2 ++ n1 ++ Ev (GetDisk ctx location d) reply :: n0)) as Hcf'
    by (intros g ->; apply matching_create_fence_app, matching_create_fence_prefix, Hcf).
  all: assert (delete_fence f (n2 ++ n1 ++ Ev (GetDisk ctx location d) reply :: n0)) as Hf'
    by (do 2 apply delete_fence_app; by apply (delete_fence_app _ _ [_])).
  - apply readback_completes; [done|done| |]; intros; by repeat wp_step.
  - wp_step; [by apply readback_completes_last; [| |intros; wp_step]|]. bool_hyps. subst.
    apply dispatchDelete_completes; [|done|done]. rewrite app_assoc. apply Hh; [done|]. by apply performed_app.
Qed.

(** ** AttachVolume and DetachVolume *)

(** The outcome of the method's own mutation [x], which followed the acquisition of the fence [f0]
    for [intent] and was not refused: the reads after it prove the outcome of the intent, for the
    fence [f0], which they leave as [f]. *)
Definition attachment_outcome (intent : diskAttachmentIntent) (x : act) (c : context) (f : mutationFence) (h : history) : Prop :=
  exists new r f0 old, h = new ++ Ev x r :: old /\ performed watching new /\ blocked_reply (Ev x r) = false
    /\ held ctx (diskAttachmentFenceKey location (da_DiskUUID intent)) intent f0 old /\ attachment_proof a c intent f0 f new.

Section Attachment.
Context (intent : diskAttachmentIntent) (x : act).
Hypothesis (Hloc : da_Location intent = location) (Hdisk : da_DiskUUID intent = ToLower d).
Let G := on_completion (completable intent (attachment_outcome intent x)).
Let fence_held := held ctx (diskAttachmentFenceKey location (da_DiskUUID intent)) intent.

Lemma prepare_held {B} h (k : result (option mutationFence) -> program B) :
  (forall f h', fence_held f h' -> wp G (k (Ok (Some f))) h' (fun _ _ => True)) ->
  (forall h', wp G (k (Ok None)) h' (fun _ _ => True)) -> (forall e h', wp G (k (Err e)) h' (fun _ _ => True)) ->
  wp G (bind (prepareAttachmentFence fuel a ctx intent) k) h (fun _ _ => True).
Proof.
  intros Hk Hn He. wp_step.
  eapply wp_mono; [apply wp_both; [by apply prepareAttachment_completes|apply prepareAttachmentFence_spec]|].
  intros [[f|]|e] h' (_ & n & -> & Hacq); auto. apply Hk. unfold fence_held. rewrite <-Hloc. by apply held_acquired.
Qed.

Lemma read_held {A B} (p : program (result A)) f h (k : result A -> program B) :
  only reading p -> fence_held f h ->
  (forall v h', fence_held f h' -> wp G (k (Ok v)) h' (fun _ _ => True)) ->
  (forall e h', fence_held f h' -> wp G (k (Err e)) h' (fun _ _ => True)) ->
  wp G (bind p k) h (fun _ _ => True).
Proof.
  intros Hp Hh Hk He. wp_step. apply (wp_only _ reading); [done|by intros; apply on_completion_watching, reading_watching|].
  intros [v|e] n Hn; [apply Hk|apply He]; by apply held_app.
Qed.

Lemma read_held_err {B} (p : program goerr) f h (k : goerr -> program B) :
  only reading p -> fence_held f h ->
  (forall r h', fence_held f h' -> wp G (k r) h' (fun _ _ => True)) ->
  wp G (bind p k) h (fun _ _ => True).
Proof.
  intros Hp Hh Hk. wp_step. apply (wp_only _ reading); [done|by intros; apply on_completion_watching, reading_watching|].
  intros r n Hn. apply Hk. by apply held_app.
Qed.

(** The branches that give the held fence up. *)
Lemma abandon_read f e h : fence_held f h -> wp G (abandon a f e) h (fun _ _ => True).
Proof. apply abandon_completes. Qed.

Lemma converged f h : fence_held f h -> wp G (alreadyConverged a f) h (fun _ _ => True).
Proof. apply deleteDetached_completes. Qed.

Lemma mutate f r err h :
  fence_held f h -> errIs err ErrMutationBlocked = blocked_reply (Ev x r) ->
  wp G (finishAttachmentMutation fuel a intent f err) (Ev x r :: h) (fun _ _ => True).
Proof.
  intros Hh Hb. apply finishAttachmentMutation_completes; [done| |done]. intros c g new Hn Hm Hp. by exists new, r, f, h.
Qed.
End Attachment.

Ltac fence_step :=
  match goal with
  | |- wp _ (abandon _ _ _) _ _ => by apply abandon_read
  | |- wp _ (alreadyConverged _ _) _ _ => by apply converged
  | |- wp _ (Ret _) _ _ => exact I
  | |- wp _ (bind (prepareAttachmentFence _ _ _ _) _) _ _ => apply prepare_held; [done|done|intros ? ? ?|intros ?|intros ? ?]
  | |- wp _ (bind (requireMutationDispatchReserve _) _) _ _ =>
      eapply read_held_err; [solve [only_tac]|eassumption|intros ? ? ?]
  | |- wp _ (bind (call _) _) _ _ => fail
  | |- wp _ (bind (if _ then bind _ _ else Ret None) _) _ _ =>
      eapply read_held_err; [solve [only_tac]|eassumption|intros ? ? ?]
  | |- wp _ (bind _ _) _ _ => eapply read_held; [solve [only_tac]|eassumption|intros ? ? ?|intros ? ? ?]
  | |- wp _ (match ?e with _ => _ end) _ _ => destruct e
  end.

Lemma attachLocked_completes vm h :
  wp (on_completion (completable (attachIntent a location d vm) (attachment_outcome (attachIntent a location d vm) (AttachDisk ctx location vm d))))
    (attachLocked fuel a ctx location d vm) h (fun _ _ => True).
Proof.
  unfold attachLocked. repeat (cbv beta iota zeta; fence_step).
  wp_step. split; [exact I|]. intros [st err]. apply wp_ret. apply mutate; [done|].
  by destruct err, st as [s|]; simpl; try case_test.
Qed.

Lemma detachLocked_completes nodeID vm (recovered : bool) h :
  let intent := detachIntent a location d vm (if recovered then TrimSpace nodeID else "") in
  wp (on_completion (completable intent (attachment_outcome intent (DetachDisk ctx location vm d))))
    (detachLocked fuel a ctx location d nodeID vm recovered) h (fun _ _ => True).
Proof.
  unfold detachLocked. repeat (cbv beta iota zeta; fence_step).
  all: wp_step; (split; [exact I|]); intros err; apply wp_ret; by apply mutate.
Qed.

Lemma lockVM_completes P vm h : wp (on_completion P) (lockVM ctx vm) h (fun _ _ => True).
Proof. unfold lockVM, dispatchReserveShortfall. repeat (wp_step; try done). Qed.

(** The guards of the whole methods: the VM is the one the method worked on, which the acquired
    fence and the dispatched mutation name. *)
Definition attach_completable (c : context) (f : mutationFence) (h : history) : Prop :=
  exists vm, completable (attachIntent a location d vm) (attachment_outcome (attachIntent a location d vm) (AttachDisk ctx location vm d)) c f h.
Definition detach_completable (c : context) (f : mutationFence) (h : history) : Prop :=
  exists vm node, completable (detachIntent a location d vm node) (attachment_outcome (detachIntent a location d vm node) (DetachDisk ctx location vm d)) c f h.

Lemma AttachVolume_completes nodeID :
  wp (on_completion attach_completable) (AttachVolume fuel a ctx location d nodeID) [] (fun _ _ => True).
Proof.
  unfold AttachVolume, GetVolume, unlocking.
  wp_step. cwp_read. intros [vm|e] n0 _; [|done]. wp_step. cwp_read. intros [vol|e] n1 _; [|done].
  wp_step. eapply wp_mono; [apply lockVM_completes|]. intros [key|e] h1 _; [|done].
  wp_step. eapply wp_mono; [eapply wp_weaken; [|apply attachLocked_completes]|].
  - intros [] h; try done. intros Hc. by exists vm.
  - intros r h _. by repeat wp_step.
Qed.

Lemma DetachVolume_completes nodeID :
  wp (on_completion detach_completable) (DetachVolume fuel a ctx location d nodeID) [] (fun _ _ => True).
Proof.
  unfold DetachVolume, unlocking. wp_step. cwp_read. intros [disk|e] n0 _; [|done].
  wp_step. eapply wp_mono; [eapply wp_weaken; [|by apply (settleExisting_completes (detachIntent a location d "" "") (fun _ _ _ => False))]|].
  { intros [] h; try done. intros [Hs|[Hs|[Hs|Hs]]]; try done; exists "", ""; [by left|by right; left|by right; right; left]. }
  intros [b|e] h1 _; [|done].
  wp_step. cwp_read. intros [vm|e] n1 _; [|done]. wp_step; [done|].
  wp_step. apply (wp_only _ reading); [apply detachTarget_reads|by intros; apply on_completion_watching, reading_watching|].
  intros [recovered| |e] n2 _; [|done..].
  wp_step. eapply wp_mono; [apply lockVM_completes|]. intros [key|e] h2 _; [|done].
  wp_step. eapply wp_mono; [eapply wp_weaken; [|apply detachLocked_completes]|].
  - intros [] h; try done. intros Hc. by do 2 eexists.
  - intros r h _. by repeat wp_step.
Qed.
End Retention.
