(* ===== verification/CSITermination.v ===== *)
(** * Termination of the adapter's methods

    Every loop of the adapter that polls the cloud is bounded by a context: under a clock that
    does not run backwards, and timers that do not fire late in a context that has ended, the loop
    returns within a number of iterations that the configuration determines. *)

From S2P Require Import Prelude GoErrors ClientTypes ClientErrors CSIFence CSIDetachAuthority Prog CSIAdapter CSIRecovery CSIVolumes CSISpecs CSIReadback.

(** The latest time the history implies: what the clock said, plus the timers that fired since. *)
Fixpoint clock (h : history) : Z :=
  match h with
  | [] => 0
  | Ev Now t :: h => Z.max t (clock h)
  | Ev (Wait _ delay) None :: h => clock h + Z.max 0 delay
  | _ :: h => clock h
  end.

(** The clock never goes back, and a timer that fires does so before the context's deadline. *)
Definition honest (x : act) (h : history) : res x -> Prop :=
  match x as x return res x -> Prop with
  | Now => fun t => clock h <= t
  | Wait ctx delay => fun r => r = None -> forall deadline, ctx_Deadline ctx = Some deadline -> clock h + Z.max 0 delay <= deadline
  | _ => fun _ => True
  end.

Lemma clock_step x r h : clock h <= clock (Ev x r :: h).
Proof. destruct x; simpl; try lia. destruct r; lia. Qed.

Lemma clock_now t h : clock (Ev Now t :: h) = Z.max t (clock h).
Proof. done. Qed.

Ltac returns_step :=
  cbv beta iota zeta;
  match goal with
  | |- returns (bind _ _) => apply returns_bind; [|intros ?]
  | |- returns (Ret _) => exact I
  | |- returns (call _) => intros ?; exact I
  | |- returns (Act _ _) => intros ?
  | |- returns (match ?e with _ => _ end) => destruct e
  | |- returns _ => solve [eauto with returns]
  end.
Ltac returns_tac := repeat returns_step.
Create HintDb returns.

Section Returns.
Context `{JT : JSONText} `{TT : TimeText} (sha256_hex : string -> string) (a : Adapter).

Lemma getOwnedDisk_returns ctx location d : returns (getOwnedDisk a ctx location d).
Proof. unfold getOwnedDisk. returns_tac. Qed.

Lemma attachedVM_returns ctx location d : returns (attachedVM a ctx location d).
Proof.
  assert (forall m l v n, returns (scanCandidates a ctx location d m l v n)).
  { intros m l. induction l; intros; cbn [scanCandidates]; returns_tac. }
  unfold attachedVM. returns_tac.
Qed.

Lemma getVPCVM_returns ctx location u : returns (getVPCVM a ctx location u).
Proof. unfold getVPCVM. returns_tac. Qed.
Hint Resolve getVPCVM_returns : returns.

Lemma getOwnedVM_returns ctx location u : returns (getOwnedVM a ctx location u).
Proof. unfold getOwnedVM. returns_tac. Qed.
Hint Resolve getOwnedVM_returns : returns.

Lemma resolveVM_returns ctx location node : returns (resolveVM a ctx location node).
Proof. unfold resolveVM. returns_tac. Qed.
Hint Resolve resolveVM_returns : returns.

Lemma missingNodeDetachTarget_returns ctx location d node vm : returns (missingNodeDetachTarget a ctx location d node vm).
Proof. unfold missingNodeDetachTarget. returns_tac. Qed.
Hint Resolve missingNodeDetachTarget_returns : returns.

Lemma detachTarget_returns ctx location d node vm : returns (detachTarget a ctx location d node vm).
Proof. unfold detachTarget. returns_tac. Qed.

Lemma requireMutationDispatchReserve_returns ctx : returns (requireMutationDispatchReserve ctx).
Proof. unfold requireMutationDispatchReserve, dispatchReserveShortfall. returns_tac. Qed.

Lemma lockVM_returns ctx u : returns (lockVM ctx u).
Proof. unfold lockVM, dispatchReserveShortfall. returns_tac. Qed.

Lemma detachedContext_returns t : returns (detachedContext t).
Proof. unfold detachedContext. returns_tac. Qed.
Hint Resolve detachedContext_returns : returns.

Lemma abandon_returns f e : returns (abandon a f e).
Proof. unfold abandon, clearFence, deleteMutationFenceDetached, mutationReadbackContext. returns_tac. Qed.

Lemma alreadyConverged_returns f : returns (alreadyConverged a f).
Proof. unfold alreadyConverged, deleteMutationFenceDetached, mutationReadbackContext. returns_tac. Qed.

Lemma matchingDiskCreateFence_returns ctx location d disk : returns (matchingDiskCreateFence ctx location d disk).
Proof. unfold matchingDiskCreateFence. returns_tac. Qed.

Lemma updateMutationObservation_returns ctx f o : returns (updateMutationObservation ctx f o).
Proof. unfold updateMutationObservation. returns_tac. Qed.
Hint Resolve updateMutationObservation_returns : returns.

Lemma resetObservation_returns ctx f : returns (resetObservation ctx f).
Proof. unfold resetObservation. returns_tac. Qed.

Lemma observeDetachState_returns ctx i : returns (observeDetachState a ctx i).
Proof. unfold observeDetachState. returns_tac. Qed.

Lemma completeDeletion_returns ctx cf f : returns (completeDeletion ctx cf f).
Proof. unfold completeDeletion. returns_tac. Qed.

Lemma completeResolvedFence_returns ctx f : returns (completeResolvedFence ctx f).
Proof. unfold completeResolvedFence. returns_tac. Qed.

Lemma beginAttachmentFence_returns ctx i : returns (beginAttachmentFence ctx i).
Proof. unfold beginAttachmentFence. returns_tac. Qed.
End Returns.

#[export] Hint Resolve getOwnedDisk_returns attachedVM_returns getVPCVM_returns getOwnedVM_returns resolveVM_returns
  missingNodeDetachTarget_returns detachTarget_returns requireMutationDispatchReserve_returns lockVM_returns
  detachedContext_returns abandon_returns alreadyConverged_returns matchingDiskCreateFence_returns
  updateMutationObservation_returns resetObservation_returns observeDetachState_returns
  completeDeletion_returns completeResolvedFence_returns beginAttachmentFence_returns : returns.

(** A helper without loops only lets time pass. *)
Lemma total_later {A} (p : program A) h t :
  returns p -> t <= clock h -> total honest p h (fun _ h' => t <= clock h').
Proof.
  intros Hr Ht. apply (total_returns honest (fun _ => True)); auto; [|intros; etrans; [done|apply clock_step]].
  clear. induction p; simpl; auto.
Qed.

(** ** The polling loops *)

Section Loops.
Context `{JT : JSONText} `{TT : TimeText} (a : Adapter) (ctx : context) (deadline : Z).
Hypothesis (Hdeadline : ctx_Deadline ctx = Some deadline) (Hpoll : 0 < poll a).

Abbreviation later t := (fun _ h' => t <= clock h').

(** Enough iterations for the time that is left, one poll interval each. *)
Definition enough (n : nat) (h : history) : Prop := (1 <= n)%nat /\ deadline - clock h < poll a * Z.of_nat n.

(** One poll: it ends the loop, or the remaining iterations are still enough. *)
Lemma poll_step {A} n h t (k : goerr -> program A) :
  enough (S n) h -> t <= clock h ->
  (forall e h', t <= clock h' -> total honest (k (Some e)) h' (later t)) ->
  (forall h', enough n h' -> t <= clock h' -> total honest (k None) h' (later t)) ->
  total honest (bind (waitMutationReadback ctx (poll a)) k) h (later t).
Proof.
  intros [_ Hn] Ht He Hk. apply total_bind. intros [e|] HD; [by apply He|].
  specialize (HD eq_refl deadline Hdeadline). apply Hk; [|simpl; lia].
  unfold enough. simpl. destruct n; nia.
Qed.

Lemma enough_later n h h' : enough n h -> clock h <= clock h' -> enough n h'.
Proof. unfold enough. nia. Qed.

Lemma waitForAttachment_total n location d v w h t :
  enough n h -> t <= clock h -> total honest (waitForAttachment_loop a n ctx location d v w) h (later t).
Proof.
  revert h. induction n as [|n IH]; intros h Hn Ht; [destruct Hn; lia|]. cbn [waitForAttachment_loop].
  apply total_bind. eapply total_mono; [by apply (total_later _ _ (clock h)); [eauto with returns|]|].
  intros [u|e] h1 H1; cbv beta iota; [|simpl; lia]. repeat (case_test; [simpl; lia|]).
  apply (poll_step n); [by eapply enough_later|lia|done|]. intros. by apply IH.
Qed.

(** The next absence iteration will not be early. *)
Definition ripe (kind : string) (f : mutationFence) (h : history) : Prop :=
  forall o, currentObservation a kind f = Ok o -> forall last,
    parse_time (if mo_Count o =? 2 then mo_LastObservedAt o else mo_FirstObservedAt o) = Some last ->
    last + absencePoll a <= clock h.

Lemma recordAbsence_total kind f o h t :
  t <= clock h -> currentObservation a kind f = Ok o ->
  total honest (recordAbsence a ctx kind f o) h (fun s h' => t <= clock h' /\ clock h <= clock h' /\
    match s with
    | AbsenceEarly notBefore => ~ ripe kind f h /\ forall h'', notBefore <= clock h'' -> ripe kind f h''
    | _ => True
    end).
Proof.
  intros Ht Ho. unfold recordAbsence. apply total_bind. intros now Hnow. simpl in Hnow. apply total_ret.
  assert (forall next (final : bool), total honest (match encodeMutationObservation next with
      | Err e => Ret (AbsenceFail e)
      | Ok encoded => let! updated := updateMutationObservation ctx f encoded in
          match updated with
          | Err e => Ret (AbsenceFail e)
          | Ok None => Ret AbsenceCompleted
          | Ok (Some g) => Ret (if final then AbsenceDone g else AbsenceAgain g)
          end
      end) (Ev Now now :: h) (fun s h' => t <= clock h' /\ clock h <= clock h' /\
        match s with AbsenceEarly _ => False | _ => True end)) as Hpub.
  { intros next final. case_match; [|simpl; split_and!; lia]. apply total_bind.
    eapply total_mono; [apply (total_later _ _ (clock h)); [eauto with returns|apply clock_step]|].
    intros [[g|]|e] h1 H1; try destruct final; simpl; split_and!; lia. }
  cbv zeta beta. destruct (mo_Count o =? 0); [eapply total_mono; [apply (Hpub _ false)|]; intros [] ? ?; tauto|].
  destruct ((mo_Count o =? 1) || (mo_Count o =? 2)); [|destruct (mo_Count o =? 3); simpl; split_and!; lia].
  destruct (parse_time _) as [last|] eqn:Hl; [|simpl; split_and!; lia].
  destruct (now <? last + absencePoll a) eqn:He.
  - simpl. bool_hyps. split_and!; [lia|lia| |].
    + intros Hr. specialize (Hr o Ho _ Hl). lia.
    + intros h'' Hb o' Ho' last' Hl'. rewrite Ho in Ho'. injection Ho' as <-. rewrite Hl in Hl'. by injection Hl' as <-.
  - eapply total_mono; [apply (Hpub _ (mo_Count o =? 2))|]; intros [] ? ?; tauto.
Qed.

(** Waiting until a time lets it come. *)
Lemma waitUntil_total u h t :
  t <= clock h -> total honest (waitMutationReadbackUntil ctx u) h (fun r h' =>
    t <= clock h' /\ clock h <= clock h' /\ (r = None -> u <= clock h')).
Proof.
  intros Ht. unfold waitMutationReadbackUntil. apply total_bind. intros now Hnow. simpl in Hnow. apply total_ret.
  case_test; bool_hyps; [simpl; split_and!; lia|]. intros [e|] HD; apply total_ret; simpl; split_and!; try lia; done.
Qed.

(** Enough iterations when an early one may come between two polls. *)
Definition enough2 (n : nat) (ripe : Prop) (h : history) : Prop :=
  exists m, enough m h /\ (2 * m <= n \/ 2 * m <= S n /\ ripe)%nat.

Lemma enough2_later n (r r' : Prop) h h' : enough2 n r h -> clock h <= clock h' -> (r -> r') -> enough2 n r' h'.
Proof. intros (m & Hm & Hn) Hh Hr. exists m. split; [by eapply enough_later|]. tauto. Qed.

Lemma ripe_later kind f h h' : clock h <= clock h' -> ripe kind f h -> ripe kind f h'.
Proof. intros Hh Hr o Ho last Hl. specialize (Hr o Ho last Hl). lia. Qed.

(** The end of an iteration that observed absence. *)
Lemma absence_iteration n kind f o h t (again : mutationFence -> program (result mutationFence)) :
  enough2 (S n) (ripe kind f h) h -> t <= clock h -> currentObservation a kind f = Ok o ->
  (forall g h', enough2 n (ripe kind g h') h' -> t <= clock h' -> total honest (again g) h' (later t)) ->
  total honest (let! step := recordAbsence a ctx kind f o in
    match step with
    | AbsenceFail e => Ret (Err e)
    | AbsenceDone g => Ret (Ok g)
    | AbsenceCompleted => Ret (Ok zero_fence)
    | AbsenceEarly notBefore =>
        let! err := waitMutationReadbackUntil ctx notBefore in
        match err with Some e => Ret (Err e) | None => again f end
    | AbsenceAgain g =>
        let! err := waitMutationReadback ctx (poll a) in
        match err with Some e => Ret (Err e) | None => again g end
    end) h (later t).
Proof.
  intros (m & Hm & Hn) Ht Ho Hag. apply total_bind.
  eapply total_mono; [by apply recordAbsence_total|]. intros s h1 (H1 & H2 & Hs).
  destruct s as [g| |g|nb|e]; try (simpl; lia).
  - apply (poll_step (pred m)); [|done|done|].
    + destruct Hm as [? Hm]. replace (S (pred m)) with m by lia. by eapply enough_later; [split|].
    + intros h2 He H3. apply Hag; [|done]. exists (pred m). split; [done|]. left. destruct Hm. lia.
  - destruct Hs as [Hnr Hr]. apply total_bind. eapply total_mono; [by apply waitUntil_total|].
    intros [e|] h2 (H3 & H4 & H5); [simpl; lia|]. apply Hag; [|lia].
    exists m. split; [eapply enough_later; [done|lia]|]. right. split; [|by apply Hr, H5]. destruct Hn as [?|[_ ?]]; [lia|done].
Qed.

(** An iteration that saw the resource polls with whatever fence it then holds. *)
Lemma visible_iteration n (r : Prop) h t kind (again : mutationFence -> program (result mutationFence)) g :
  enough2 (S n) r h -> t <= clock h ->
  (forall h', enough2 n (ripe kind g h') h' -> t <= clock h' -> total honest (again g) h' (later t)) ->
  total honest (let! err := waitMutationReadback ctx (poll a) in
    match err with Some e => Ret (Err e) | None => again g end) h (later t).
Proof.
  intros (m & Hm & Hn) Ht Hag. apply (poll_step (pred m)); [|done|done|].
  - destruct Hm as [? Hm]. by replace (S (pred m)) with m by lia.
  - intros h2 He H3. apply Hag; [|done]. exists (pred m). split; [done|]. left. destruct Hm. lia.
Qed.

Lemma waitForDiskAbsent_total n location d f h t :
  enough2 n (ripe diskDeleteAbsenceObservationKind f h) h -> t <= clock h ->
  total honest (waitForDiskAbsent_loop a n ctx location d f) h (later t).
Proof.
  revert f h. induction n as [|n IH]; intros f h Hn Ht.
  { destruct Hn as (m & [? _] & ?). lia. }
  cbn [waitForDiskAbsent_loop]. destruct (currentObservation _ _ _) as [o|] eqn:Ho; [|done].
  apply total_bind. intros exact _. apply total_ret. destruct (exactDiskAbsent _ _ _) as [ga|]; [|done].
  apply total_bind. intros listed _. apply total_ret. destruct (listDiskAbsent _ _ _) as [la|]; [|done].
  set (h1 := Ev (ListDisks _ _) _ :: _). assert (clock h1 = clock h) as Hc by done. destruct (negb ga || negb la).
  - apply total_bind. eapply total_mono; [apply (total_later _ _ (clock h)); [eauto with returns|lia]|].
    intros [g|e] h2 H2; [|simpl; lia]. eapply visible_iteration; [by eapply enough2_later|lia|]; intros; by apply IH.
  - apply (absence_iteration n); [|lia|done|intros; by apply IH].
    eapply enough2_later; [done|lia|]. apply ripe_later. lia.
Qed.

Lemma waitForDetached_total n i f h t :
  enough2 n (ripe detachAbsenceObservationKind f h) h -> t <= clock h ->
  total honest (waitForDetached_loop a n ctx i f) h (later t).
Proof.
  revert f h. induction n as [|n IH]; intros f h Hn Ht.
  { destruct Hn as (m & [? _] & ?). lia. }
  cbn [waitForDetached_loop]. destruct (currentObservation _ _ _) as [o|] eqn:Ho; [|done].
  apply total_bind. eapply total_mono; [apply (total_later _ _ (clock h)); [eauto with returns|lia]|].
  intros [v serr] h1 H1. cbv beta iota. destruct (v != "").
  - apply total_bind. eapply total_mono; [by apply (total_later _ _ (clock h)); [eauto with returns|]|].
    intros [g|e] h2 H2; [|simpl; lia]. destruct serr; [simpl; lia|]. case_test; [simpl; lia|].
    eapply visible_iteration; [by eapply enough2_later|lia|]; intros; by apply IH.
  - destruct serr; [simpl; lia|]. apply (absence_iteration n); [|lia|done|intros; by apply IH].
    eapply enough2_later; [done|lia|]. by apply ripe_later.
Qed.
End Loops.

(** ** The methods *)

Section Methods.
Context `{JT : JSONText} `{TT : TimeText} (fuel : nat) (a : Adapter).

(** Iterations for a window of [d] nanoseconds: two per poll interval, and two more. *)
Definition iterations (d : Z) : nat := (2 * (2 + Z.to_nat (d / poll a)))%nat.

Hypothesis (Hpoll : 0 < poll a) (Hread : 0 <= readback a) (Hdestr : 0 <= destructive a).
Hypothesis (Hfuel : (iterations (readback a) <= fuel)%nat) (Hfuel2 : (iterations (destructive a) <= fuel)%nat).

Abbreviation later t := (fun _ h' => t <= clock h').

(** The readback windows are set from the clock, so a loop under one has its iterations. *)
Lemma window_enough d now h :
  0 <= d -> (iterations d <= fuel)%nat -> now <= clock h -> enough2 a (now + d) fuel False h.
Proof.
  intros Hd Hf Hn. exists (S (Z.to_nat (d / poll a))). unfold iterations in Hf. split; [|left; lia].
  split; [lia|]. pose proof (Z.mod_pos_bound d (poll a) Hpoll). pose proof (Z.div_mod d (poll a)).
  assert (0 <= d / poll a) by (apply Z.div_pos; lia). rewrite Nat2Z.inj_succ, Z2Nat.id by done. nia.
Qed.

Lemma window_total {B} d h t (k : context -> program B) :
  0 <= d -> (iterations d <= fuel)%nat -> t <= clock h ->
  (forall c deadline h', ctx_Deadline c = Some deadline -> enough2 a deadline fuel False h' -> t <= clock h' ->
     total honest (k c) h' (later t)) ->
  total honest (bind (detachedContext d) k) h (later t).
Proof.
  intros Hd Hf Ht Hk. apply total_bind. unfold detachedContext. apply total_bind. intros now Hnow. simpl in Hnow.
  apply total_ret, total_ret. eapply Hk; [done|apply window_enough; simpl; lia|simpl; lia].
Qed.

(** The rest of a method, once its loops are done. *)
Lemma rest_total {A} (p : program A) h t : returns p -> t <= clock h -> total honest p h (later t).
Proof. apply total_later. Qed.

Lemma then_total {A B} (p : program A) h t (k : A -> program B) :
  returns p -> t <= clock h -> (forall x h', t <= clock h' -> total honest (k x) h' (later t)) ->
  total honest (bind p k) h (later t).
Proof. intros. apply total_bind. eapply total_mono; [by apply total_later|]. auto. Qed.

Lemma readbackDelete_total {B} c deadline location d f h t (k : result mutationFence -> program B) :
  ctx_Deadline c = Some deadline -> enough2 a deadline fuel False h -> t <= clock h ->
  (forall x h', t <= clock h' -> total honest (k x) h' (later t)) ->
  total honest (bind (waitForDiskAbsent fuel a c location d f) k) h (later t).
Proof.
  intros Hc Hn Ht Hk. apply total_bind. eapply total_mono; [eapply waitForDiskAbsent_total; eauto|auto].
  by eapply enough2_later.
Qed.

Lemma readbackAttachment_total {B} c deadline i f h t (k : result mutationFence -> program B) :
  ctx_Deadline c = Some deadline -> enough2 a deadline fuel False h -> t <= clock h ->
  (forall x h', t <= clock h' -> total honest (k x) h' (later t)) ->
  total honest (bind (waitForFencedAttachment fuel a c i f) k) h (later t).
Proof.
  intros Hc Hn Ht Hk. apply total_bind. unfold waitForFencedAttachment.
  case_test; [by apply Hk|]. case_test.
  - case_test; [by apply Hk|]. apply total_bind. unfold waitForAttachment.
    eapply total_mono; [eapply waitForAttachment_total with (t := t); eauto|].
    + destruct Hn as (m & [H1 H2] & Hm). split; [destruct Hm as [?|[_ []]]; lia|]. destruct Hm as [?|[_ []]]; nia.
    + intros [e|] h' Hh; apply total_ret; auto.
  - case_test; [by apply Hk|]. eapply total_mono; [eapply waitForDetached_total; eauto|auto].
    by eapply enough2_later.
Qed.

Lemma attachmentWindow_total {B} i h t (k : context -> program B) :
  t <= clock h ->
  (forall c deadline h', ctx_Deadline c = Some deadline -> enough2 a deadline fuel False h' -> t <= clock h' ->
     total honest (k c) h' (later t)) ->
  total honest (bind (attachmentReadbackContext a i) k) h (later t).
Proof.
  intros Ht Hk. unfold attachmentReadbackContext, destructiveReadbackContext, mutationReadbackContext.
  case_test; by apply window_total.
Qed.

Lemma settle_total c i h t : t <= clock h -> total honest (settleExistingAttachmentFence fuel a c i) h (later t).
Proof.
  intros Ht. unfold settleExistingAttachmentFence. case_test; [done|].
  apply total_bind. intros [st err] _. apply total_ret. destruct err; [done|]. destruct st as [st|]; [|done].
  destruct (decodeMutationIntent _ _); [|done]. repeat (case_test; [done|]).
  apply attachmentWindow_total; [done|]. intros rc dl h1 Hc He Ht1. eapply readbackAttachment_total; eauto.
  intros x h2 Ht2. apply rest_total; [|done]. returns_tac.
Qed.

Lemma finishAttachment_total i f e h t : t <= clock h -> total honest (finishAttachmentMutation fuel a i f e) h (later t).
Proof.
  intros Ht. unfold finishAttachmentMutation. case_test.
  - apply rest_total; [|done]. unfold deleteMutationFenceDetached, mutationReadbackContext. returns_tac.
  - apply attachmentWindow_total; [done|]. intros rc dl h1 Hc He Ht1. eapply readbackAttachment_total; eauto.
    intros x h2 Ht2. apply rest_total; [|done]. returns_tac.
Qed.

Lemma prepareAttachment_total c i h t : t <= clock h -> total honest (prepareAttachmentFence fuel a c i) h (later t).
Proof.
  unfold prepareAttachmentFence. generalize 3%nat as n. intros n. revert h.
  induction n as [|n IH]; intros h Ht; cbn [prepareAttachmentFence_loop]; [done|].
  apply total_bind. eapply total_mono; [by apply settle_total|]. intros [b|e] h1 H1; [|done].
  destruct b; [done|]. apply then_total; [eauto with returns|done|]. intros [[f []]|e] h2 H2; [done|by apply IH|done].
Qed.

Lemma prepareDelete_total c location d h t : t <= clock h -> total honest (prepareDiskDeleteFence fuel a c location d) h (later t).
Proof.
  unfold prepareDiskDeleteFence. generalize 3%nat as n. intros n. revert h.
  induction n as [|n IH]; intros h Ht; cbn [prepareDiskDeleteFence_loop]; [done|].
  apply total_bind. intros [st err] _. apply total_ret. destruct err; [done|]. destruct st as [st|].
  - destruct (decodeMutationIntent _ _); [|done]. case_test; [done|].
    apply total_bind. eapply total_mono; [by apply settle_total|]. intros [b|e] h1 H1; [by apply IH|done].
  - apply total_bind. intros tok _. apply total_ret. destruct (newMutationFence _ _ _); [|done].
    apply total_bind. intros [[st acq] err] _. apply total_ret. destruct (deref _ _); [|done].
    destruct (decodeMutationIntent _ _); [|done]. case_test; [done|]. by apply IH.
Qed.

Ltac total_step :=
  cbv beta iota zeta;
  match goal with
  | |- total _ (Ret _) _ _ => first [assumption | simpl; lia]
  | |- total _ (bind (waitForDiskAbsent _ _ _ _ _ _) _) _ _ => eapply readbackDelete_total; [eassumption|eassumption|eassumption|intros ? ? ?]
  | |- total _ (bind (destructiveReadbackContext _) _) _ _ => apply window_total; [done|done|eassumption|intros ? ? ? ? ? ?]
  | |- total _ (finishAttachmentMutation _ _ _ _ _) _ _ => by apply finishAttachment_total
  | |- total _ (bind (call _) _) _ _ => apply total_bind; intros ? _; apply total_ret
  | |- total _ (bind _ _) _ _ => apply then_total; [solve [returns_tac]|eassumption|intros ? ? ?]
  | |- total _ (match ?e with _ => _ end) _ _ => destruct e
  | |- total _ _ _ _ => apply rest_total; [solve [eauto with returns]|eassumption]
  end.

Lemma dispatchDelete_total ctx location d f cf disk h t :
  t <= clock h -> total honest (dispatchDelete fuel a ctx location d f cf disk) h (later t).
Proof.
  intros Ht. unfold dispatchDelete. repeat total_step.
Qed.

Lemma DeleteVolume_returns ctx location d : total honest (DeleteVolume fuel a ctx location d) [] (later 0).
Proof.
  unfold DeleteVolume, abandonIf. apply total_bind. eapply total_mono; [by apply prepareDelete_total|].
  intros [[f issue]|e] h Ht; [|done]. apply total_bind. intros reply _. apply total_ret.
  assert (0 <= clock (Ev (GetDisk ctx location d) reply :: h)) by done.
  destruct (classifyFirstRead a issue d reply) as [|disk tombstone|e]; repeat total_step.
  by apply dispatchDelete_total.
Qed.

Lemma attachLocked_total ctx location d vm h t : t <= clock h -> total honest (attachLocked fuel a ctx location d vm) h (later t).
Proof.
  intros Ht. unfold attachLocked. cbv zeta. apply total_bind. eapply total_mono; [by apply prepareAttachment_total|].
  intros [[f|]|e] h1 H1; repeat total_step.
Qed.

Lemma detachLocked_total ctx location d node vm r h t : t <= clock h -> total honest (detachLocked fuel a ctx location d node vm r) h (later t).
Proof.
  intros Ht. unfold detachLocked. cbv zeta. apply total_bind. eapply total_mono; [by apply prepareAttachment_total|].
  intros [[f|]|e] h1 H1; repeat total_step.
Qed.

Lemma AttachVolume_returns ctx location d node : total honest (AttachVolume fuel a ctx location d node) [] (later 0).
Proof.
  unfold AttachVolume, GetVolume, unlocking. assert (0 <= clock []) by done. repeat total_step.
  apply total_bind. eapply total_mono; [by apply attachLocked_total|]. intros r h Ht. repeat total_step.
Qed.

Lemma DetachVolume_returns ctx location d node : total honest (DetachVolume fuel a ctx location d node) [] (later 0).
Proof.
  unfold DetachVolume, unlocking. assert (0 <= clock []) by done. do 2 total_step; [|done].
  apply total_bind. eapply total_mono; [by apply settle_total|]. intros [b|e] h1 H1; [|done]. repeat total_step.
  apply total_bind. eapply total_mono; [by apply detachLocked_total|]. intros r h Ht. repeat total_step.
Qed.
End Methods.
