(* ===== verification/CSIWorld.v ===== *)
(** * A reference environment for the adapter

    A concrete text encoding for the two codec classes, and a small cloud that answers the
    adapter's calls: disks, VMs of one VPC, the in-memory fence store and a clock. Programs run
    against it, so the statements about all environments have concrete instances. *)

From stdpp Require Import countable.
From S2P Require Import Prelude GoErrors ClientTypes ClientErrors CSIFence CSIDetachAuthority Prog CSIAdapter CSIRecovery CSIVolumes.

(** ** Reference text *)

Fixpoint json_tree (j : json) : gen_tree (string + Z) :=
  match j with
  | JNull => GenNode 0 []
  | JBool b => GenNode (if b then 1%nat else 2%nat) []
  | JInt z => GenLeaf (inr z)
  | JFloat s => GenNode 3 [GenLeaf (inl s)]
  | JStr s => GenLeaf (inl s)
  | JArr l => GenNode 4 (map json_tree l)
  | JObj fields => GenNode 5 (map (fun kv => GenNode 6 [GenLeaf (inl kv.1); json_tree kv.2]) fields)
  end.

Fixpoint tree_json (t : gen_tree (string + Z)) : json :=
  match t with
  | GenLeaf (inl s) => JStr s
  | GenLeaf (inr z) => JInt z
  | GenNode 1 _ => JBool true
  | GenNode 2 _ => JBool false
  | GenNode 3 [GenLeaf (inl s)] => JFloat s
  | GenNode 4 l => JArr (map tree_json l)
  | GenNode 5 l => JObj (map (fun t => match t with
      | GenNode _ [GenLeaf (inl k); v] => (k, tree_json v)
      | _ => ("", JNull)
      end) l)
  | _ => JNull
  end.

Fixpoint tree_json_tree (j : json) : tree_json (json_tree j) = j.
Proof.
  destruct j as [|[]| | | |l|fields]; try reflexivity; simpl; f_equal.
  - induction l as [|x l IH]; simpl; [reflexivity|]. by rewrite tree_json_tree, IH.
  - induction fields as [|[k v] fields IH]; simpl; [reflexivity|]. by rewrite tree_json_tree, IH.
Qed.

(** Binary digits, least significant first. *)
Fixpoint digits (p : positive) : string :=
  match p with xH => "" | xO p => String "0" (digits p) | xI p => String "1" (digits p) end.
Fixpoint of_digits (s : string) : positive :=
  match s with
  | EmptyString => xH
  | String c r => if Ascii.eqb c "1" then xI (of_digits r) else xO (of_digits r)
  end.

Lemma of_digits_digits p : of_digits (digits p) = p.
Proof. induction p; simpl; by rewrite ?IHp. Qed.

#[refine] Instance reference_json : JSONText := {
  print_json j := String "j" (digits (encode (json_tree j)));
  parse_json s := match s with
    | String "j" r => option_map tree_json (decode (of_digits r))
    | _ => None
    end
}.
Proof.
  - intros j _. simpl. rewrite of_digits_digits, decode_encode. simpl. by rewrite tree_json_tree.
  - done.
Defined.

#[refine] Instance reference_time : TimeText := {
  format_time t := String "t" (digits (encode t));
  parse_time s := match s with
    | String "t" r => decode (of_digits r)
    | _ => None
    end
}.
Proof.
  - intros t _. simpl. by rewrite of_digits_digits, decode_encode.
  - done.
Defined.

(** ** The cloud *)

Record world := {
  w_disks : list Disk; w_vms : list VM; w_network : Network; w_fences : MemoryStore.state;
  w_now : Z; w_serial : nat; w_uuids : list string
}.

Definition set_disks (w : world) (l : list Disk) : world :=
  Build_world l (w_vms w) (w_network w) (w_fences w) (w_now w) (w_serial w) (w_uuids w).
Definition set_vms (w : world) (l : list VM) : world :=
  Build_world (w_disks w) l (w_network w) (w_fences w) (w_now w) (w_serial w) (w_uuids w).
Definition set_fences (w : world) (s : MemoryStore.state) : world :=
  Build_world (w_disks w) (w_vms w) (w_network w) s (w_now w) (w_serial w) (w_uuids w).
Definition advance (w : world) (d : Z) : world :=
  Build_world (w_disks w) (w_vms w) (w_network w) (w_fences w) (w_now w + Z.max 0 d) (w_serial w) (w_uuids w).
Definition next_serial (w : world) : world :=
  Build_world (w_disks w) (w_vms w) (w_network w) (w_fences w) (w_now w) (S (w_serial w)) (w_uuids w).

Definition make_disk (uuid name : string) (size billing : Z) : Disk :=
  Build_Disk uuid name "Active" size billing "" "EMPTY" "" false "" "" (Some []).
Definition make_row (uuid : string) : VMStorage := Build_VMStorage uuid 0 0 "" "" "" 0 false false "" "".

(** An exact lookup that found nothing. *)
Definition not_found (method path uuid : string) : error :=
  APIErr (Build_APIError 404 method path "" false "" false false true uuid "") None.

Definition find_disk (w : world) (uuid : string) : option Disk := List.find (fun x => EqualFold (Disk_UUID x) uuid) (w_disks w).
Definition find_vm (w : world) (uuid : string) : option VM := List.find (fun x => EqualFold (VM_UUID x) uuid) (w_vms w).
Definition with_storage (vm : VM) (rows : list VMStorage) : VM :=
  let 'Build_VM u1 u2 u3 u4 u5 u6 u7 u8 u9 v1 v2 v3 v4 v5 v6 v7 v8 v9 w1 w2 w3 w4 w5 w6 w7 _ := vm in
  Build_VM u1 u2 u3 u4 u5 u6 u7 u8 u9 v1 v2 v3 v4 v5 v6 v7 v8 v9 w1 w2 w3 w4 w5 w6 w7 (Some rows).

Definition with_size (disk : Disk) (size : Z) : Disk :=
  let 'Build_Disk u1 u2 u3 _ u5 u6 u7 u8 u9 v1 v2 v3 := disk in Build_Disk u1 u2 u3 size u5 u6 u7 u8 u9 v1 v2 v3.

(** Deterministic answers. A new disk takes the next reserved UUID and is active at once; timers
    fire unless the context's deadline comes first. *)
Definition world_step (x : act) : world -> res x * world :=
  match x as x return world -> res x * world with
  | ListDisks _ _ => fun w => ((w_disks w, None), w)
  | GetDisk _ _ uuid => fun w =>
      (match find_disk w uuid with Some x => (Some x, None) | None => (None, Some (not_found "GET" ("/v1/bkk/storage/disks/" +:+ uuid) uuid)) end, w)
  | CreateDisk _ _ req => fun w =>
      match nth_error (w_uuids w) (w_serial w) with
      | Some uuid =>
          let disk := make_disk uuid (CreateDisk_DisplayName req) (CreateDisk_SizeGiB req) (CreateDisk_BillingAccountID req) in
          ((Some disk, None), next_serial (set_disks w (disk :: w_disks w)))
      | None => ((None, Some (Msg "quota")), w)
      end
  | DeleteDisk _ _ uuid => fun w => (None, set_disks w (List.filter (fun x => negb (EqualFold (Disk_UUID x) uuid)) (w_disks w)))
  | ListVMs _ _ => fun w => ((w_vms w, None), w)
  | GetVM _ _ uuid => fun w =>
      (match find_vm w uuid with Some x => (Some x, None) | None => (None, Some (not_found "GET" ("/v1/bkk/network/network/" +:+ uuid) uuid)) end, w)
  | GetNetwork _ _ _ => fun w => ((Some (w_network w), None), w)
  | AttachDisk _ _ vm disk => fun w =>
      let row := make_row disk in
      ((Some row, None), set_vms w (map (fun x => if EqualFold (VM_UUID x) vm then with_storage x (row :: storage_rows x) else x) (w_vms w)))
  | DetachDisk _ _ vm disk => fun w =>
      (None, set_vms w (map (fun x => if EqualFold (VM_UUID x) vm
        then with_storage x (List.filter (fun s => negb (EqualFold (VMStorage_UUID s) disk)) (storage_rows x)) else x) (w_vms w)))
  | ResizeAttachedDisk _ _ _ disk size => fun w =>
      let w' := set_disks w (map (fun x => if EqualFold (Disk_UUID x) disk then with_size x size else x) (w_disks w)) in
      ((Some (make_row disk), None), w')
  | FenceGet _ key => fun w => ((MemoryStore.Get (w_fences w) key, None), w)
  | FenceList _ prefix => fun w => ((MemoryStore.List_ (w_fences w) prefix, None), w)
  | FenceCreate _ f => fun w =>
      let '((g, acquired), s) := MemoryStore.Create (w_fences w) f in ((Some g, acquired, None), set_fences w s)
  | FenceSetReceipt _ f r => fun w =>
      match MemoryStore.SetReceipt (w_fences w) f r with
      | (Ok g, s) => ((Some g, None), set_fences w s)
      | (Err e, s) => ((None, Some e), set_fences w s)
      end
  | FenceSetObservation _ f o => fun w =>
      match MemoryStore.SetObservation (w_fences w) f o with
      | (Ok g, s) => ((Some g, None), set_fences w s)
      | (Err e, s) => ((None, Some e), set_fences w s)
      end
  | FenceDelete _ f => fun w => let '(e, s) := MemoryStore.Delete (w_fences w) f in (e, set_fences w s)
  | ProviderIDForNode _ _ => fun w => (("", Some (Sentinel ErrKubernetesNodeNotFound)), w)
  | AuthorizeMissingNodeDetach _ _ => fun w => (Some (Msg "no authority"), w)
  | Now => fun w => (w_now w, w)
  | Rand => fun w => (Ok "00112233445566778899aabbccddeeff", next_serial w)
  | CtxErr _ => fun w => (None, w)
  | Wait ctx delay => fun w =>
      match ctx_Deadline ctx with
      | Some deadline => if deadline <? w_now w + Z.max 0 delay then (Some (Sentinel DeadlineExceeded), w) else (None, advance w delay)
      | None => (None, advance w delay)
      end
  | Lock _ _ => fun w => (None, w)
  | Unlock _ => fun w => (tt, w)
  end.

(** ** A small cluster *)

Definition disk1 : string := "11111111-1111-4111-8111-111111111111".
Definition vm1 : string := "aaaaaaaa-aaaa-4aaa-8aaa-aaaaaaaaaaaa".
Definition vpc : string := "cccccccc-cccc-4ccc-8ccc-cccccccccccc".

Definition make_vm (uuid : string) (rows : list VMStorage) : VM :=
  Build_VM uuid 0 0 "node-1" "" "node-1" "running" 0 0 "" "" "" "" "" "" "" "" vpc 7 "" "" false "" "" "" (Some rows).

Definition cluster (disks : list Disk) (rows : list VMStorage) : world :=
  Build_world disks [make_vm vm1 rows]
    (Build_Network vpc "vpc" "" 0 "" "" false (Some [vm1]) 0 "" "") ∅ 1000000000000 0 [disk1; disk1].

Definition adapter : Adapter :=
  Build_Adapter "bkk" vpc 7 (2 * second) (30 * second) (30 * second) (120 * second) true true.
Definition request : context := Build_context (Some 4000000000000) false.
Definition node1 : string := "inspace://bkk/" +:+ vm1.
(** A stand-in for SHA-256; nothing below depends on its values. *)
Definition no_hash (s : string) : string := s.

Definition run_method {A} (p : program A) (w : world) : option A * world * history := run_hist world_step p w [].
Definition dispatched (h : history) : list act := List.filter (fun x => match x with
  | CreateDisk _ _ _ | DeleteDisk _ _ _ | AttachDisk _ _ _ _ | DetachDisk _ _ _ _ => true | _ => false end) (map (@ev_act act res) h).

Definition enough_fuel : nat := 200.

(** A volume's life: created, attached, detached and deleted, with one mutation each, and no fence
    left behind. *)
Example create_runs :
  let '(r, w, h) := run_method (EnsureVolume no_hash enough_fuel adapter request (Build_VolumeSpec "pvc-1" "bkk" (10 * gib))) (cluster [] []) in
  r = Some (Ok (Build_Volume disk1 "pvc-1" "bkk" (10 * gib)))
  /\ w_fences w = ∅ /\ List.length (w_disks w) = 1%nat /\ List.length (dispatched h) = 1%nat.
Proof. vm_compute. split_and!; reflexivity. Qed.

Example attach_runs :
  let '(r, w, h) := run_method (AttachVolume enough_fuel adapter request "bkk" disk1 node1) (cluster [make_disk disk1 "pvc-1" 10 7] []) in
  r = Some None /\ w_fences w = ∅ /\ List.length (dispatched h) = 1%nat.
Proof. vm_compute. split_and!; reflexivity. Qed.

Example detach_runs :
  let '(r, w, h) := run_method (DetachVolume enough_fuel adapter request "bkk" disk1 node1) (cluster [make_disk disk1 "pvc-1" 10 7] [make_row disk1]) in
  r = Some None /\ w_fences w = ∅ /\ List.length (dispatched h) = 1%nat.
Proof. vm_compute. split_and!; reflexivity. Qed.

Example delete_runs :
  let '(r, w, h) := run_method (DeleteVolume enough_fuel adapter request "bkk" disk1) (cluster [make_disk disk1 "pvc-1" 10 7] []) in
  r = Some None /\ w_fences w = ∅ /\ w_disks w = [] /\ List.length (dispatched h) = 1%nat.
Proof. vm_compute. split_and!; reflexivity. Qed.

Example expand_runs :
  let '(r, w, h) := run_method (ExpandVolume enough_fuel adapter request "bkk" disk1 (20 * gib)) (cluster [make_disk disk1 "pvc-1" 10 7] [make_row disk1]) in
  r = Some (Ok (20 * gib)) /\ w_fences w = ∅ /\ w_disks w = [make_disk disk1 "pvc-1" 20 7].
Proof. vm_compute. split_and!; reflexivity. Qed.

(** ** Events of a run *)

(** The newest event whose action satisfies [p], with what came after and before it. *)
Fixpoint find_event (p : act -> bool) (h : history) : option (history * event res * history) :=
  match h with
  | [] => None
  | e :: older =>
      if p (ev_act e) then Some ([], e, older)
      else match find_event p older with
           | Some (newer, e', o) => Some (e :: newer, e', o)
           | None => None
           end
  end.

Lemma find_event_app p h newer e older : find_event p h = Some (newer, e, older) -> h = newer ++ e :: older.
Proof.
  revert newer. induction h as [|e0 h IH]; intros newer; simpl; [done|].
  destruct (p (ev_act e0)); [by intros [= <- <- <-]|].
  destruct (find_event p h) as [[[n e1] o]|]; [|done]. intros [= <- -> ->]. by rewrite (IH n).
Qed.

(** The action of the event that [find_event] finds. *)
Definition found (p : act -> bool) (h : history) : option act :=
  option_map (fun x => ev_act x.1.2) (find_event p h).

Lemma found_split p h x : found p h = Some x -> exists newer r older, h = newer ++ Ev x r :: older.
Proof.
  unfold found. destruct (find_event p h) as [[[n [y r]] o]|] eqn:E; [|done]. simpl. intros [= ->].
  apply find_event_app in E. eauto.
Qed.

Definition delete_run := run_method (DeleteVolume enough_fuel adapter request "bkk" disk1) (cluster [make_disk disk1 "pvc-1" 10 7] []).
Definition attach_run := run_method (AttachVolume enough_fuel adapter request "bkk" disk1 node1) (cluster [make_disk disk1 "pvc-1" 10 7] []).
Definition detach_run := run_method (DetachVolume enough_fuel adapter request "bkk" disk1 node1) (cluster [make_disk disk1 "pvc-1" 10 7] [make_row disk1]).
Definition create_run := run_method (EnsureVolume no_hash enough_fuel adapter request (Build_VolumeSpec "pvc-1" "bkk" (10 * gib))) (cluster [] []).
Definition expand_run := run_method (ExpandVolume enough_fuel adapter request "bkk" disk1 (20 * gib)) (cluster [make_disk disk1 "pvc-1" 10 7] [make_row disk1]).
