(* ===== verification/CSICorrectness.v ===== *)
(** * Correctness of the CSI cloud adapter

    The main theorems about the volume methods, the attachment scan, the absence proofs and the
    fence store. Each is about every execution: any answers of the cloud, of Kubernetes and of the
    clock, in any order, with a crash at any point. *)

From S2P Require Import Prelude GoErrors ClientTypes ClientErrors CSIFence CSIDetachAuthority Prog CSIAdapter CSIRecovery CSIVolumes.
From S2P Require Import CSISpecs CSIReadback CSISafety CSIRetention CSITermination CSIWorld.

Section Authority.
Context `{JT : JSONText} `{TT : TimeText} (sha256_hex : string -> string) (fuel : nat) (a : Adapter) (ctx : context).

(** C1: DeleteVolume dispatches no mutation but DeleteDisk of the requested disk, and that only
    while the durable delete fence it acquired is still held, after an exact read that shows the
    disk owned by the account, EMPTY, not bootable and without snapshots, then a scan of every
    listed VM and every VPC member that shows the disk on none of them, then the deadline check. *)
Theorem DeleteVolume_authorized location d :
  dispatches (DeleteVolume fuel a ctx location d) (on_mutation (delete_guard a ctx location d)).
Proof. eapply wp_dispatches, DeleteVolume_guarded. Qed.

(** C2: AttachVolume dispatches no mutation but AttachDisk to the VM that the requested node
    names, while it holds that VM's lock and the attach fence, after exact reads that show the VM
    in the VPC without the disk and the disk owned, and a scan that shows it on no VM. *)
Theorem AttachVolume_authorized location d nodeID :
  dispatches (AttachVolume fuel a ctx location d nodeID) (on_mutation (attach_guard a ctx location d nodeID)).
Proof. eapply wp_dispatches, AttachVolume_guarded. Qed.

(** C3: DetachVolume dispatches no mutation but DetachDisk from the one VM that the final scan
    shows the disk on, while it holds that VM's lock and the detach fence, and only when the
    caller named no node, the node names this VM, or the missing-node authority granted it. *)
Theorem DetachVolume_authorized location d nodeID :
  dispatches (DetachVolume fuel a ctx location d nodeID) (on_mutation (detach_guard a ctx location d nodeID)).
Proof. eapply wp_dispatches, DetachVolume_guarded. Qed.

(** C4: EnsureVolume dispatches no mutation but the one paid CreateDisk with the requested name,
    size and account, directly after it acquired the exclusive create fence for the name and an
    inventory read after the acquisition showed no disk of that name. *)
Theorem EnsureVolume_authorized spec :
  dispatches (EnsureVolume sha256_hex fuel a ctx spec) (on_mutation (create_guard sha256_hex a ctx spec)).
Proof. eapply wp_dispatches, EnsureVolume_guarded. Qed.

(** C5: ExpandVolume dispatches no mutation but ResizeAttachedDisk on the one VM that holds the
    disk, under that VM's lock, to a size larger than the disk's current size. *)
Theorem ExpandVolume_authorized location d capacity :
  dispatches (ExpandVolume fuel a ctx location d capacity) (on_mutation (resize_guard a ctx location d capacity)).
Proof. eapply wp_dispatches, ExpandVolume_guarded. Qed.

(** C6: DeleteVolume deletes a fence only in these cases: it acquired the fence for this deletion
    itself and made only reads since; the SDK refused the deletion under that fence before sending
    it; the fence was read under the disk's key, carries an attachment or detachment, and the reads
    since then prove the outcome of exactly that intent; or, for the fence that carries this
    deletion, the newest exact and inventory reads showed the disk gone and the persisted, spaced
    absence observations on that fence, this one counted, had reached three (or another controller
    completed it).
    With that proof, and directly before its own fence, it deletes the create fence whose receipt is
    the disk. No mutation lies between such a proof and the deletion of the fence. *)
Theorem DeleteVolume_retains_fence location d :
  dispatches (DeleteVolume fuel a ctx location d)
    (on_completion (completable a ctx location d (diskDeleteIntent a location d) (deletion_proof a ctx location d))).
Proof. eapply wp_dispatches, DeleteVolume_completes. Qed.

(** C7: AttachVolume deletes a fence only in these cases: it acquired the fence for this attachment
    itself and made only reads since; the SDK refused the attachment under that fence before sending
    it; it dispatched AttachDisk to the VM that the acquired fence names, and a scan after that shows
    the disk on exactly this VM; or the fence was read under the disk's key, carries an earlier
    attachment or detachment, and the reads since then prove the outcome of exactly that intent (a
    scan that shows the disk on the VM it names, or the spaced absence proof). *)
Theorem AttachVolume_retains_fence location d nodeID :
  dispatches (AttachVolume fuel a ctx location d nodeID) (on_completion (attach_completable a ctx location d)).
Proof. eapply wp_dispatches, AttachVolume_completes. Qed.

(** C8: DetachVolume deletes a fence only in these cases: it acquired the fence for this detachment
    itself and made only reads since; the SDK refused the detachment under that fence before sending
    it; it dispatched DetachDisk from the VM that the acquired fence names, and after that the
    inventory showed the disk on no VM, an exact read the VM without it, and the spaced absence
    observations on that fence, this one counted, reached three (or another controller completed
    it); or the fence was read under the disk's key, carries an earlier attachment or detachment,
    and the reads since then prove the outcome of exactly that intent. *)
Theorem DetachVolume_retains_fence location d nodeID :
  dispatches (DetachVolume fuel a ctx location d nodeID) (on_completion (detach_completable a ctx location d)).
Proof. eapply wp_dispatches, DetachVolume_completes. Qed.
End Authority.

(** ** Runs against the reference cloud

    Each guard at work: the mutation, or the completion of the fence, that a run dispatches. *)

Lemma DeleteVolume_authorized_witness : exists newer r older, delete_run.2 = newer ++ Ev (DeleteDisk request "bkk" disk1) r :: older /\ delete_guard adapter request "bkk" disk1 (DeleteDisk request "bkk" disk1) older.
Proof.
  destruct (found_split is_mutation delete_run.2 (DeleteDisk request "bkk" disk1)) as (newer & r & older & Hh); [vm_compute; reflexivity|].
  exists newer, r, older. split; [exact Hh|].
  exact (DeleteVolume_authorized enough_fuel adapter request "bkk" disk1 _ _ newer _ r older (run_hist_exec _ _ _ _) Hh eq_refl).
Defined.

Lemma AttachVolume_authorized_witness : exists newer r older, attach_run.2 = newer ++ Ev (AttachDisk request "bkk" vm1 disk1) r :: older /\ attach_guard adapter request "bkk" disk1 node1 (AttachDisk request "bkk" vm1 disk1) older.
Proof.
  destruct (found_split is_mutation attach_run.2 (AttachDisk request "bkk" vm1 disk1)) as (newer & r & older & Hh); [vm_compute; reflexivity|].
  exists newer, r, older. split; [exact Hh|].
  exact (AttachVolume_authorized enough_fuel adapter request "bkk" disk1 node1 _ _ newer _ r older (run_hist_exec _ _ _ _) Hh eq_refl).
Defined.

Lemma DetachVolume_authorized_witness : exists newer r older, detach_run.2 = newer ++ Ev (DetachDisk request "bkk" vm1 disk1) r :: older /\ detach_guard adapter request "bkk" disk1 node1 (DetachDisk request "bkk" vm1 disk1) older.
Proof.
  destruct (found_split is_mutation detach_run.2 (DetachDisk request "bkk" vm1 disk1)) as (newer & r & older & Hh); [vm_compute; reflexivity|].
  exists newer, r, older. split; [exact Hh|].
  exact (DetachVolume_authorized enough_fuel adapter request "bkk" disk1 node1 _ _ newer _ r older (run_hist_exec _ _ _ _) Hh eq_refl).
Defined.

Definition created_spec : VolumeSpec := Build_VolumeSpec "pvc-1" "bkk" (10 * gib).
Definition created_request : CreateDiskRequest := Build_CreateDiskRequest "pvc-1" 10 7 "EMPTY" "".

Lemma EnsureVolume_authorized_witness : exists newer r older, create_run.2 = newer ++ Ev (CreateDisk request "bkk" created_request) r :: older /\ create_guard no_hash adapter request created_spec (CreateDisk request "bkk" created_request) older.
Proof.
  destruct (found_split is_mutation create_run.2 (CreateDisk request "bkk" created_request)) as (newer & r & older & Hh); [vm_compute; reflexivity|].
  exists newer, r, older. split; [exact Hh|].
  exact (EnsureVolume_authorized no_hash enough_fuel adapter request created_spec _ _ newer _ r older (run_hist_exec _ _ _ _) Hh eq_refl).
Defined.

Lemma ExpandVolume_authorized_witness : exists newer r older, expand_run.2 = newer ++ Ev (ResizeAttachedDisk request "bkk" vm1 disk1 20) r :: older /\ resize_guard adapter request "bkk" disk1 (20 * gib) (ResizeAttachedDisk request "bkk" vm1 disk1 20) older.
Proof.
  destruct (found_split is_mutation expand_run.2 (ResizeAttachedDisk request "bkk" vm1 disk1 20)) as (newer & r & older & Hh); [vm_compute; reflexivity|].
  exists newer, r, older. split; [exact Hh|].
  exact (ExpandVolume_authorized enough_fuel adapter request "bkk" disk1 (20 * gib) _ _ newer _ r older (run_hist_exec _ _ _ _) Hh eq_refl).
Defined.

(** The completion of a fence in a run, whatever fence and context it carries. *)
Definition completes_fence (h : history) : bool :=
  match found is_completion h with Some (FenceDelete _ _) => true | _ => false end.

Lemma completes_split h : completes_fence h = true -> exists c f newer r older, h = newer ++ Ev (FenceDelete c f) r :: older.
Proof.
  unfold completes_fence. destruct (found is_completion h) as [x|] eqn:E; [|done]. destruct x; try done. intros _.
  apply found_split in E. eauto.
Qed.

Lemma DeleteVolume_retains_fence_witness : exists c f newer r older, delete_run.2 = newer ++ Ev (FenceDelete c f) r :: older /\ completable adapter request "bkk" disk1 (diskDeleteIntent adapter "bkk" disk1) (deletion_proof adapter request "bkk" disk1) c f older.
Proof.
  destruct (completes_split delete_run.2) as (c & f & newer & r & older & Hh); [vm_compute; reflexivity|].
  exists c, f, newer, r, older. split; [exact Hh|].
  exact (DeleteVolume_retains_fence enough_fuel adapter request "bkk" disk1 _ _ newer _ r older (run_hist_exec _ _ _ _) Hh).
Defined.

Lemma AttachVolume_retains_fence_witness : exists c f newer r older, attach_run.2 = newer ++ Ev (FenceDelete c f) r :: older /\ attach_completable adapter request "bkk" disk1 c f older.
Proof.
  destruct (completes_split attach_run.2) as (c & f & newer & r & older & Hh); [vm_compute; reflexivity|].
  exists c, f, newer, r, older. split; [exact Hh|].
  exact (AttachVolume_retains_fence enough_fuel adapter request "bkk" disk1 node1 _ _ newer _ r older (run_hist_exec _ _ _ _) Hh).
Defined.

Lemma DetachVolume_retains_fence_witness : exists c f newer r older, detach_run.2 = newer ++ Ev (FenceDelete c f) r :: older /\ detach_completable adapter request "bkk" disk1 c f older.
Proof.
  destruct (completes_split detach_run.2) as (c & f & newer & r & older & Hh); [vm_compute; reflexivity|].
  exists c, f, newer, r, older. split; [exact Hh|].
  exact (DetachVolume_retains_fence enough_fuel adapter request "bkk" disk1 node1 _ _ newer _ r older (run_hist_exec _ _ _ _) Hh).
Defined.

(** ** At most one mutation *)

Definition mutations (h : history) : list act := List.filter is_mutation (map (@ev_act act res) h).

Lemma mutations_unmutated h : performed unmutating h -> mutations h = [].
Proof.
  induction h as [|[x r] h IH]; [done|]. intros [Hx Hh]%Forall_cons. unfold mutations in *; simpl in *.
  unfold unmutating in Hx. rewrite Hx. by apply IH.
Qed.

(** A method whose mutations need an unmutated history makes at most one. *)
Lemma dispatches_one {A} (p : program A) G :
  dispatches p (on_mutation G) -> (forall x h, G x h -> performed unmutating h) ->
  forall o h, exec p [] o h -> (List.length (mutations h) <= 1)%nat.
Proof.
  intros Hd HG o h He.
  assert (forall older newer, h = newer ++ older -> (List.length (mutations older) <= 1)%nat) as H.
  { induction older as [|[x r] older IH]; intros newer E; [simpl; lia|].
    specialize (Hd o h newer x r older He E). unfold mutations; simpl. destruct (is_mutation x) eqn:Hx; simpl.
    - specialize (HG _ _ (Hd Hx)). apply mutations_unmutated in HG. unfold mutations in HG. rewrite HG. simpl. lia.
    - apply (IH (newer ++ [Ev x r])). by rewrite <-app_assoc. }
  by apply (H h []).
Qed.

Ltac unmutated_parts :=
  repeat first [ apply performed_app | apply Forall_cons; split; [reflexivity|]
               | assumption | by apply performed_unmutating, performed_quiet ].

Section One.
Context `{JT : JSONText} `{TT : TimeText} (sha256_hex : string -> string) (fuel : nat) (a : Adapter) (ctx : context).

Lemma delete_guard_unmutated location d x h : delete_guard a ctx location d x h -> performed unmutating h.
Proof. intros (_ & r & s & disk & f & h1 & -> & ? & ? & ? & _). unmutated_parts. Qed.

Lemma attach_guard_unmutated location d n x h : attach_guard a ctx location d n x h -> performed unmutating h.
Proof. intros (vm & _ & r & s & disk & tg & v & f & h1 & -> & ? & ? & ? & ? & _). unmutated_parts. Qed.

Lemma detach_guard_unmutated location d n x h : detach_guard a ctx location d n x h -> performed unmutating h.
Proof. intros (vm & _ & _ & r & rc & s & disk & tg & v & rn & f & h1 & -> & ? & ? & ? & ? & ? & _). unmutated_parts. Qed.

Lemma create_guard_unmutated spec x h : create_guard sha256_hex a ctx spec x h -> performed unmutating h.
Proof. intros (sz & _ & r & disks & f & h1 & -> & ? & ? & _). unmutated_parts. Qed.

Lemma resize_guard_unmutated location d c x h : resize_guard a ctx location d c x h -> performed unmutating h.
Proof. intros (vm & sz & _ & _ & r & s & disk & tg & h1 & -> & ? & ? & ? & _). unmutated_parts. Qed.

(** The volume methods, one of which serves each controller RPC. *)
Inductive method :=
  | MEnsure (spec : VolumeSpec)
  | MDelete (location d : string)
  | MAttach (location d node : string)
  | MDetach (location d node : string)
  | MExpand (location d : string) (capacity : Z).

Definition executes (m : method) (h : history) : Prop :=
  match m with
  | MEnsure spec => exists o, exec (EnsureVolume sha256_hex fuel a ctx spec) [] o h
  | MDelete location d => exists o, exec (DeleteVolume fuel a ctx location d) [] o h
  | MAttach location d node => exists o, exec (AttachVolume fuel a ctx location d node) [] o h
  | MDetach location d node => exists o, exec (DetachVolume fuel a ctx location d node) [] o h
  | MExpand location d capacity => exists o, exec (ExpandVolume fuel a ctx location d capacity) [] o h
  end.

(** One invocation of any volume method dispatches at most one cloud mutation, so a lost or
    ambiguous response is never retried without a new invocation that finds the fence. *)
Theorem one_mutation_per_call m h : executes m h -> (List.length (mutations h) <= 1)%nat.
Proof.
  destruct m; intros [o He]; (eapply dispatches_one; [| |exact He]).
  - eapply wp_dispatches, EnsureVolume_guarded.
  - apply create_guard_unmutated.
  - eapply wp_dispatches, DeleteVolume_guarded.
  - apply delete_guard_unmutated.
  - eapply wp_dispatches, AttachVolume_guarded.
  - apply attach_guard_unmutated.
  - eapply wp_dispatches, DetachVolume_guarded.
  - apply detach_guard_unmutated.
  - eapply wp_dispatches, ExpandVolume_guarded.
  - apply resize_guard_unmutated.
Qed.
End One.

(** An execution of DeleteVolume against the reference cloud: its history holds the one DELETE. *)
Lemma one_mutation_per_call_witness :
  exists h, executes no_hash enough_fuel adapter request (MDelete "bkk" disk1) h /\ List.length (mutations h) = 1%nat
    /\ (List.length (mutations h) <= 1)%nat.
Proof.
  exists (run_method (DeleteVolume enough_fuel adapter request "bkk" disk1) (cluster [make_disk disk1 "pvc-1" 10 7] [])).2.
  assert (executes no_hash enough_fuel adapter request (MDelete "bkk" disk1)
    (run_method (DeleteVolume enough_fuel adapter request "bkk" disk1) (cluster [make_disk disk1 "pvc-1" 10 7] [])).2) as He.
  { eexists. apply run_hist_exec. }
  split; [exact He|]. split; [vm_compute; reflexivity|].
  exact (one_mutation_per_call no_hash enough_fuel adapter request (MDelete "bkk" disk1) _ He).
Defined.

(** ** Termination *)

Lemma defaulted_pos v dflt : 0 < dflt -> 0 < defaulted v dflt.
Proof. unfold defaulted. case_test; bool_hyps; lia. Qed.

Lemma New_positive has_api hn na config a :
  New has_api hn na config = Ok a ->
  0 < poll a /\ 0 < readback a /\ 0 < absencePoll a /\ 0 < destructive a /\ 0 < billing a
  /\ (network a = "" \/ uuidPattern (network a) = true).
Proof.
  unfold New. intros H. repeat (case_test_in H; try done). injection H as <-. simpl. bool_hyps.
  split_and!; try (apply defaulted_pos; reflexivity); [lia|].
  apply andb_false_iff in Heqb2 as [?|?]; bool_hyps; auto.
Qed.

(** C33: with an adapter that New accepted, a clock that does not run backwards and timers that
    respect their context's deadline, DeleteVolume, AttachVolume and DetachVolume return: their
    polling loops end within two iterations per poll interval of the readback window. *)
Theorem methods_terminate `{JT : JSONText} `{TT : TimeText} has_api hn na config a fuel ctx location d node :
  New has_api hn na config = Ok a ->
  (iterations a (readback a) <= fuel)%nat -> (iterations a (destructive a) <= fuel)%nat ->
  total honest (DeleteVolume fuel a ctx location d) [] (fun _ _ => True)
  /\ total honest (AttachVolume fuel a ctx location d node) [] (fun _ _ => True)
  /\ total honest (DetachVolume fuel a ctx location d node) [] (fun _ _ => True).
Proof.
  intros (H1 & H2 & _ & H3 & _)%New_positive Hf Hf2.
  split_and!; (eapply total_mono; [|done]); [apply DeleteVolume_returns|apply AttachVolume_returns|apply DetachVolume_returns]; auto; lia.
Qed.

Definition default_config : Config := Build_Config "bkk" vpc 7 0 0 0 0.

Lemma methods_terminate_witness :
  New true true true default_config = Ok adapter
  /\ total honest (DeleteVolume enough_fuel adapter request "bkk" disk1) [] (fun _ _ => True).
Proof.
  split; [vm_compute; reflexivity|].
  refine (proj1 (methods_terminate true true true default_config adapter enough_fuel request "bkk" disk1 node1 _ _ _)).
  - vm_compute. reflexivity.
  - apply Nat.leb_le. vm_compute. reflexivity.
  - apply Nat.leb_le. vm_compute. reflexivity.
Defined.

(** ** The attachment scan *)

Lemma networkVMMembers_sound acc l members u :
  networkVMMembers acc l = Ok members -> u ∈ members -> u ∈ acc \/ exists raw, In raw l /\ canonicalUUID raw = u.
Proof.
  revert acc. induction l as [|raw l IH]; intros acc H Hu; simpl in H; [left; by simplify_eq|].
  repeat case_test_in H; try done. destruct (IH _ H Hu) as [[->%elem_of_singleton|?]%elem_of_union|(r & ? & ?)]; simpl; eauto.
Qed.

(** When attachedVM succeeds, the inventory and the VPC were read, every VM that either of them
    names was then read exactly, and the disk shows in exactly one row of exactly the returned VM,
    which is a VPC member, or nowhere when the result is empty. *)
Theorem attachedVM_exhaustive a ctx location d v h :
  exec (attachedVM a ctx location d) [] (Some (Ok v)) h ->
  exists vms net uuids,
    In (Ev (ListVMs ctx location) (vms, None)) h /\ In (Ev (GetNetwork ctx location (network a)) (Some net, None)) h
    /\ Network_VMUUIDs net = Some uuids
    /\ (forall vm, In vm vms -> let u := canonicalUUID (VM_UUID vm) in read_rows ctx location d u (if u == v then 1 else 0) h)
    /\ (forall raw, In raw uuids -> let u := canonicalUUID raw in read_rows ctx location d u (if u == v then 1 else 0) h)
    /\ (v <> "" -> exists raw, In raw uuids /\ canonicalUUID raw = v).
Proof.
  intros He. apply (exec_ensures _ _ _ _ (attachedVM_spec a ctx location d)) in He as (vms & net & members & listed & H1 & H2 & _ & Hm & Hl & Hv & Hu).
  destruct (Network_VMUUIDs net) as [uuids|] eqn:E; [|done]. exists vms, net, uuids. split_and!; auto.
  - intros vm Hin u. apply Hu, elem_of_union_r. by eapply listedVMs_complete.
  - intros raw Hin u. apply Hu, elem_of_union_l. by eapply networkVMMembers_complete.
  - intros Hne. destruct Hv as [?|Hv]; [done|]. destruct (networkVMMembers_sound _ _ _ _ Hm Hv) as [?|?]; [set_solver|done].
Qed.

Lemma attachedVM_exhaustive_witness :
  exists h, exec (attachedVM adapter request "bkk" disk1) [] (Some (Ok vm1)) h
    /\ exists raw net uuids, In (Ev (GetNetwork request "bkk" vpc) (Some net, None)) h /\ Network_VMUUIDs net = Some uuids
       /\ In raw uuids /\ canonicalUUID raw = vm1.
Proof.
  pose (run := run_method (attachedVM adapter request "bkk" disk1) (cluster [make_disk disk1 "pvc-1" 10 7] [make_row disk1])).
  assert (exec (attachedVM adapter request "bkk" disk1) [] run.1.1 run.2) as He by apply run_hist_exec.
  assert (run.1.1 = Some (Ok vm1)) as Hr by (vm_compute; reflexivity). rewrite Hr in He.
  exists run.2. split; [exact He|].
  destruct (attachedVM_exhaustive adapter request "bkk" disk1 vm1 run.2 He) as (vms & net & uuids & _ & H2 & H3 & _ & _ & H6).
  destruct H6 as (raw & ? & ?); [discriminate|]. exists raw, net, uuids. split_and!; assumption.
Defined.

(** ** Absence *)

(** C28: the readback loops return a fence only on proof of absence. waitForDiskAbsent returns one
    only directly after an exact GET and an inventory read that both show the disk gone (or its
    deleted tombstone), waitForDetached only after an inventory read with the disk on no VM and an
    exact read of the previous VM without it; and both only when the fence they worked on, which they
    reached from the fence they were given by their own observations on it, carried two earlier
    absences, spaced by the interval and followed by it, or already three, or when another controller
    completed the fence meanwhile. *)
Theorem absence_loops_sound `{JT : JSONText} `{TT : TimeText} fuel a ctx location d intent f :
  ensures (waitForDiskAbsent fuel a ctx location d f) (fun r h =>
    match r with Err _ => True | Ok g => absence_proof a ctx location d f g h end)
  /\ ensures (waitForDetached fuel a ctx intent f) (fun r h =>
    match r with Err _ => True | Ok g => detach_proof a ctx intent f g h end).
Proof. split; [apply waitForDiskAbsent_spec|apply waitForDetached_spec]. Qed.

(** ** Exclusive fences *)

Section Exclusive.
Context `{JT : JSONText} `{TT : TimeText} {S : Type} `{FS : !FenceStore S}.

(** Any interleaving of the controllers' calls. *)
Fixpoint store_calls (s : S) (ops : list store_op) : S :=
  match ops with [] => s | o :: r => store_calls (store_exec s o).2 r end.

(** No call of the interleaving completes the fence stored under [k]. *)
Fixpoint uncompleted (k : string) (s : S) (ops : list store_op) : bool :=
  match ops with
  | [] => true
  | o :: r => negb (deletes k (store_view s) o) && uncompleted k (store_exec s o).2 r
  end.

Lemma store_view_step s o : store_view (store_exec s o).2 = (store_step (store_view s) o).2.
Proof. pose proof (store_refines s o) as H. destruct (store_exec s o) as [r s']. by rewrite <-H. Qed.

Lemma calls_keep_attempt ops k f s :
  keyed (store_view s) -> store_view s !! k = Some f -> uncompleted k s ops = true ->
  exists g, store_view (store_calls s ops) !! k = Some g /\ sameMutationFenceAttempt f g = true.
Proof.
  revert f s. induction ops as [|o ops IH]; intros f s Hk Hf Hu; simpl in *; [eauto using same_attempt_refl|].
  bool_hyps. destruct (step_keeps_attempt (store_view s) o k f) as (g & Hg & Hs); [done..|].
  destruct (IH g (store_exec s o).2) as (g' & Hg' & Hs'); [|by rewrite store_view_step|done|].
  - rewrite store_view_step. by apply keyed_step.
  - exists g'. split; [done|]. by eapply same_attempt_trans.
Qed.

(** A fence is exclusive, for any store that behaves as the atomic map. From the moment one
    caller acquires the fence of a key until a call deletes it, whatever other controllers do in
    between, every further Create for the key is told "not acquired", gets the first caller's
    attempt back, and changes nothing. *)
Theorem fence_exclusive s f g ops other :
  keyed (store_view s) -> (store_exec s (OpCreate f)).1 = RCreated g true ->
  uncompleted (Key f) (store_exec s (OpCreate f)).2 ops = true -> Key other = Key f ->
  let later := store_calls (store_exec s (OpCreate f)).2 ops in
  exists c, (store_exec later (OpCreate other)).1 = RCreated c false /\ sameMutationFenceAttempt f c = true
    /\ store_view (store_exec later (OpCreate other)).2 = store_view later.
Proof.
  intros Hk Hc Hu Ho later.
  assert (store_view (store_exec s (OpCreate f)).2 !! Key f = Some f) as Hf.
  { pose proof (store_refines s (OpCreate f)) as Hr. destruct (store_exec s (OpCreate f)) as [r s']. simpl in *. subst r.
    unfold MemoryStore.Create in Hr. destruct (store_view s !! Key f); simplify_eq. rewrite H0. apply lookup_insert_eq. }
  destruct (calls_keep_attempt ops (Key f) f (store_exec s (OpCreate f)).2) as (c & Hl & Hs); [|done|done|].
  - rewrite store_view_step. by apply keyed_step.
  - exists c. pose proof (store_refines later (OpCreate other)) as Hr.
    destruct (store_exec later (OpCreate other)) as [r s']. simpl in *. unfold MemoryStore.Create in Hr.
    rewrite Ho in Hr. unfold later in Hr. rewrite Hl in Hr. by simplify_eq.
Qed.
End Exclusive.

Definition first_fence : mutationFence := Build_mutationFence "disk-attachment/bkk/d" "{}" "aa" "" "".
Definition other_fence : mutationFence := Build_mutationFence "disk-attachment/bkk/d" "{}" "bb" "" "".
(** The loser tries to delete the fence it does not hold, and to record a receipt on it. *)
Definition rival_calls : list store_op :=
  [OpCreate other_fence; OpDelete other_fence; OpSetReceipt other_fence disk1; OpSetReceipt first_fence disk1].

Lemma fence_exclusive_witness :
  exists c, (store_exec (store_calls (store_exec (S := MemoryStore.state) ∅ (OpCreate first_fence)).2 rival_calls) (OpCreate other_fence)).1
    = RCreated c false /\ sameMutationFenceAttempt first_fence c = true.
Proof.
  destruct (fence_exclusive (S := MemoryStore.state) ∅ first_fence first_fence rival_calls other_fence) as (c & H1 & H2 & _).
  - intros k f H. simpl in H. by rewrite lookup_empty in H.
  - vm_compute. reflexivity.
  - vm_compute. reflexivity.
  - reflexivity.
  - exists c. split; [exact H1|exact H2].
Defined.

(** ** Durable encodings *)

(** What a fence records is what is read back. An intent (ASCII strings, 64-bit integers) that
    newMutationFence encodes decodes to itself, for both kinds of intent, and an absence observation
    that is accepted for persistence decodes to itself. *)
Theorem fence_codec_roundtrip `{JT : JSONText} `{TT : TimeText} key token fence create attachment o text :
  token <> "" -> plain_create create -> plain_attachment attachment ->
  is_ascii (mo_FirstObservedAt o) && is_ascii (mo_LastObservedAt o) = true ->
  (newMutationFence key create (Ok token) = Ok fence -> decodeMutationIntent diskCreateIntent fence = Ok create)
  /\ (newMutationFence key attachment (Ok token) = Ok fence -> decodeMutationIntent diskAttachmentIntent fence = Ok attachment)
  /\ (encodeMutationObservation o = Ok text -> decodeMutationObservation text = Ok o).
Proof.
  intros Ht Hc Ha Ho. split_and!; intros H.
  - eapply decode_new; eauto using plain_marshal_create, unmarshal_create.
  - eapply decode_new; eauto using plain_marshal_attachment, unmarshal_attachment.
  - by apply decode_encode_observation.
Qed.

Definition sample_create : diskCreateIntent := Build_diskCreateIntent "create-disk" "bkk" "pvc-1" 10 7.
Definition sample_detach : diskAttachmentIntent := Build_diskAttachmentIntent "disk-attachment" "bkk" disk1 7 "" vm1 "".
Definition sample_observation : mutationObservation :=
  Build_mutationObservation diskDeleteAbsenceObservationKind 2 (format_time 1000) (format_time 2000).

Lemma fence_codec_roundtrip_witness :
  decodeMutationIntent diskAttachmentIntent
    (Build_mutationFence "k" (print_json (marshal sample_detach)) "00112233" "" "") = Ok sample_detach
  /\ decodeMutationObservation (print_json (marshal sample_observation)) = Ok sample_observation.
Proof.
  destruct (fence_codec_roundtrip "k" "00112233" (Build_mutationFence "k" (print_json (marshal sample_detach)) "00112233" "" "")
    sample_create sample_detach sample_observation (print_json (marshal sample_observation))) as (_ & H1 & H2).
  - discriminate.
  - vm_compute. split_and!; [reflexivity|discriminate..].
  - vm_compute. split_and!; [reflexivity|discriminate..].
  - vm_compute. reflexivity.
  - split; [apply H1; vm_compute; reflexivity|apply H2; vm_compute; reflexivity].
Defined.

(** ** A volume's life *)

Definition then_run {A} (p : program A) (w : world) (accept : A -> bool) : option world :=
  match run_method p w with
  | (Some r, w', _) => if accept r then Some w' else None
  | _ => None
  end.

Definition succeeded (e : goerr) : bool := match e with None => true | Some _ => false end.
Definition returned {A} (r : result A) : bool := match r with Ok _ => true | Err _ => false end.

(** Each method on the world the one before left. *)
Definition lifecycle : option world :=
  w ← then_run (EnsureVolume no_hash enough_fuel adapter request created_spec) (cluster [] []) returned;
  w ← then_run (AttachVolume enough_fuel adapter request "bkk" disk1 node1) w succeeded;
  w ← then_run (ExpandVolume enough_fuel adapter request "bkk" disk1 (20 * gib)) w returned;
  w ← then_run (DetachVolume enough_fuel adapter request "bkk" disk1 node1) w succeeded;
  then_run (DeleteVolume enough_fuel adapter request "bkk" disk1) w succeeded.

(** The methods work together. Against the reference cloud a volume is created, attached,
    expanded, detached and deleted, each call on the state the one before left, every call succeeds,
    and neither a disk, an attachment row nor a fence is left behind. *)
Theorem lifecycle_completes :
  match lifecycle with
  | Some w => w_disks w = [] /\ map storage_rows (w_vms w) = [[]] /\ w_fences w = ∅
  | None => False
  end.
Proof. vm_compute. split_and!; reflexivity. Qed.
