(* ===== verification/CSIResults.v ===== *)
(** * Results of the volume methods

    What a successful EnsureVolume or ExpandVolume promises its caller, and the arithmetic of sizes
    behind it. *)

From S2P Require Import Prelude GoErrors ClientTypes ClientErrors CSIFence CSIDetachAuthority Prog CSIAdapter CSIRecovery CSIVolumes.
From S2P Require Import CSISpecs CSIReadback CSIWorld.

(** ** Sizes *)

Lemma gib_pos : 0 < gib. Proof. reflexivity. Qed.

Lemma bytesToGiB_ok bytes size :
  in_int64 bytes -> bytesToGiB bytes = Ok size -> 0 < bytes /\ 0 < size /\ (size - 1) * gib < bytes <= size * gib.
Proof.
  unfold bytesToGiB, in_int64, MinInt64, MaxInt64. intros Hb. case_test; [done|]. bool_hyps.
  pose proof gib_pos as Hg. unfold gib in *.
  rewrite (wrap64_small (bytes - 1)) by (unfold in_int64, MinInt64, MaxInt64; lia).
  rewrite Z.quot_div_nonneg by lia.
  pose proof (Z.div_mod (bytes - 1) 1073741824 ltac:(lia)). pose proof (Z.mod_pos_bound (bytes - 1) 1073741824 ltac:(lia)).
  assert (0 <= (bytes - 1) / 1073741824) by (apply Z.div_pos; lia).
  rewrite wrap64_small by (unfold in_int64, MinInt64, MaxInt64; lia).
  case_test; [done|]. intros [= <-]. lia.
Qed.

(** Every positive size has its number of GiB. *)
Lemma bytesToGiB_total bytes : 0 < bytes <= MaxInt64 -> exists size, bytesToGiB bytes = Ok size.
Proof.
  intros Hb. unfold bytesToGiB, MaxInt64 in *. rewrite (proj2 (Z.leb_gt bytes 0)) by lia.
  rewrite (wrap64_small (bytes - 1)) by (unfold in_int64, MinInt64, MaxInt64; lia).
  rewrite Z.quot_div_nonneg by (unfold gib; lia).
  assert (0 <= (bytes - 1) / gib <= bytes - 1).
  { split; [apply Z.div_pos; unfold gib; lia|]. apply Z.div_le_upper_bound; unfold gib; lia. }
  assert ((bytes - 1) / gib < 9223372036854775807 / gib + 1).
  { assert ((bytes - 1) / gib <= 9223372036854775807 / gib) by (apply Z.div_le_mono; unfold gib; lia). lia. }
  assert (9223372036854775807 / gib = 8589934591) by reflexivity.
  rewrite wrap64_small by (unfold in_int64, MinInt64, MaxInt64; lia).
  rewrite (proj2 (Z.ltb_ge _ _)) by lia. eauto.
Qed.

Lemma diskVolume_ok location disk v :
  diskVolume location disk = Ok v ->
  Volume_ID v = ToLower (Disk_UUID disk) /\ uuidPattern (Volume_ID v) = true /\ Volume_Name v = Disk_DisplayName disk
  /\ Volume_Location v = location /\ Volume_CapacityBytes v = Disk_SizeGiB disk * gib /\ 0 < Disk_SizeGiB disk.
Proof.
  unfold diskVolume. intros H. repeat (case_test_in H; try done). injection H as <-. simpl. bool_hyps.
  assert (MaxInt64 / gib = 8589934591) as E by reflexivity. rewrite E in *.
  split_and!; try done. apply wrap64_small. unfold in_int64, MinInt64, MaxInt64, gib. lia.
Qed.

Section Results.
Context `{JT : JSONText} `{TT : TimeText} (sha256_hex : string -> string) (fuel : nat) (a : Adapter).

(** A disk that matches the intent and is active. *)
Definition ready_disk (intent : diskCreateIntent) (disk : Disk) : Prop :=
  validateDiskCreateReadback disk intent = None /\ ToLower (TrimSpace (Disk_Status disk)) = "active".

Lemma validateDiskCreateReadback_ok disk intent :
  validateDiskCreateReadback disk intent = None ->
  Disk_DisplayName disk = dc_Name intent /\ Disk_SizeGiB disk = dc_SizeGiB intent
  /\ Disk_BillingAccountID disk = dc_BillingAccountID intent.
Proof.
  unfold validateDiskCreateReadback. intros H. case_test_in H; [done|].
  destruct (validateExactDisk _ _ _) eqn:E; [done|]. apply validateExactDisk_ok in E as (_ & _ & ? & _).
  repeat (case_test_in H; try done). by bool_hyps.
Qed.

Lemma waitForDiskReady_spec ctx intent disk :
  ensures (waitForDiskReady fuel a ctx intent disk) (fun r h => match r with Err _ => True | Ok d => ready_disk intent d end).
Proof.
  unfold waitForDiskReady. generalize (canonicalUUID (Disk_UUID disk)) as u. intros u. revert disk.
  induction fuel as [|n IH]; intros disk; cbn [waitForDiskReady_loop]; unfold ensures; [done|].
  repeat (wp_step; try done).
  - split; [done|]. by bool_hyps.
  - eapply ensures_use; [apply IH|]. by intros [|].
Qed.

(** The volume is the ready disk that carries the requested name and size. *)
Definition created (intent : diskCreateIntent) (v : Volume) : Prop :=
  Volume_Name v = dc_Name intent /\ Volume_Location v = dc_Location intent
  /\ Volume_CapacityBytes v = dc_SizeGiB intent * gib /\ uuidPattern (Volume_ID v) = true.

Lemma ready_created intent disk v :
  ready_disk intent disk -> diskVolume (dc_Location intent) disk = Ok v -> created intent v.
Proof.
  intros [(H1 & H2 & _)%validateDiskCreateReadback_ok _] (_ & ? & Hn & Hl & Hc & _)%diskVolume_ok.
  unfold created. split_and!; congruence.
Qed.

Abbreviation yields intent := (fun r (_ : history) => match r with Err _ => True | Ok v => created intent v end).

Lemma completeFencedDisk_spec ctx intent f disk :
  ready_disk intent disk -> ensures (completeFencedDisk ctx intent f disk) (yields intent).
Proof. intros Hr. unfold completeFencedDisk, ensures. repeat (wp_step; try done). by eapply ready_created. Qed.

Lemma finishFencedDisk_spec ctx intent f disk : ensures (finishFencedDisk fuel a ctx intent f disk) (yields intent).
Proof.
  unfold finishFencedDisk, ensures. wp_step; [done|]. wp_step. eapply ensures_use; [apply waitForDiskReady_spec|].
  intros [d|e] new Hd; [|done]. eapply ensures_use; [by apply completeFencedDisk_spec|]. done.
Qed.

Lemma finishUndispatchedFencedDisk_spec ctx intent f disk : ensures (finishUndispatchedFencedDisk fuel a ctx intent f disk) (yields intent).
Proof.
  unfold finishUndispatchedFencedDisk, ensures. wp_step; [wp_step; by apply wp_skip|]. wp_step.
  eapply ensures_use; [apply waitForDiskReady_spec|]. intros [d|e] new Hd.
  - eapply ensures_use; [by apply completeFencedDisk_spec|]. done.
  - wp_step. by apply wp_skip.
Qed.

Lemma reconcileDiskCreateFence_spec ctx intent f : ensures (reconcileDiskCreateFence sha256_hex fuel a ctx intent f) (yields intent).
Proof.
  assert (forall n, ensures (reconcileDiskCreateFence_loop fuel a n ctx intent f) (yields intent)) as Hl.
  { induction n as [|n IH]; cbn [reconcileDiskCreateFence_loop]; unfold ensures; [done|].
    unfold waitMutationReadback. repeat (wp_step; try done).
    all: try (eapply ensures_use; [apply IH|done]). eapply ensures_use; [apply finishFencedDisk_spec|done]. }
  unfold reconcileDiskCreateFence, ensures. wp_step; [|done]. wp_step; [done|]. apply Hl.
Qed.

Ltac yields_step :=
  cbv beta iota zeta;
  lazymatch goal with
  | |- wp _ (finishUndispatchedFencedDisk _ _ _ _ _ _) _ _ => eapply ensures_use; [apply finishUndispatchedFencedDisk_spec|done]
  | |- wp _ (reconcileDiskCreateFence _ _ _ _ _ _) _ _ => eapply ensures_use; [apply reconcileDiskCreateFence_spec|done]
  | |- wp _ (clearUndispatchedDiskCreateFence _ _ _) _ _ => apply wp_skip; intros
  | |- wp _ (deleteMutationFenceDetached _ _) _ _ => apply wp_skip; intros
  | |- wp _ (mutationReadbackContext _) _ _ => apply wp_skip; intros
  | |- wp _ (requireMutationDispatchReserve _) _ _ => apply wp_skip; intros
  | |- _ => wp_step; try done
  end.

Lemma createFencedDisk_spec ctx spec intent f :
  ensures (createFencedDisk sha256_hex fuel a ctx spec intent f) (yields intent).
Proof. unfold createFencedDisk, ensures. repeat yields_step. Qed.

Lemma adoptExistingDisk_spec ctx spec intent disk :
  dc_Location intent = Spec_Location spec ->
  ensures (adoptExistingDisk sha256_hex fuel a ctx spec intent disk) (yields intent).
Proof.
  intros Hl. unfold adoptExistingDisk, ensures. wp_step; [done|]. wp_step. eapply ensures_use; [apply waitForDiskReady_spec|].
  intros [rd|e] new Hr; [|done].
  assert (forall h, yields intent (diskVolume (Spec_Location spec) rd) h).
  { intros h. destruct (diskVolume _ _) eqn:E; [|done]. eapply ready_created; [exact Hr|by rewrite Hl]. }
  repeat (wp_step; try done); exact (H []).
Qed.

(** A successful EnsureVolume returns a disk read back with the requested name, the requested
    location and the requested size rounded up to GiB. *)
Lemma EnsureVolume_spec ctx spec :
  ensures (EnsureVolume sha256_hex fuel a ctx spec) (fun r _ =>
    match r with
    | Err _ => True
    | Ok v => exists size, bytesToGiB (Spec_CapacityBytes spec) = Ok size /\ created (createIntent a spec size) v
    end).
Proof.
  unfold EnsureVolume, ensures. destruct (bytesToGiB _) as [size|] eqn:Hs; [|done].
  assert (forall (p : program (result Volume)) h, ensures p (yields (createIntent a spec size)) -> wp any_action p h (fun r _ =>
    match r with Err _ => True | Ok v => exists size0, Ok size = Ok size0 /\ created (createIntent a spec size0) v end)) as Hy.
  { intros p h Hp. eapply ensures_use; [exact Hp|]. intros [v|e] new; [|done]. eauto. }
  wp_step. wp_step. wp_step. wp_step; [done|]. wp_step; [|done]. wp_step; [by apply Hy, adoptExistingDisk_spec|].
  wp_step. apply wp_skip. intros [[f acq]|e] new; [|done]. wp_step; [by apply Hy, createFencedDisk_spec|].
  apply Hy. unfold ensures. wp_step. repeat yields_step.
Qed.

(** ** ExpandVolume *)

Abbreviation reaches size := (fun r (_ : history) => match r with Err _ => True | Ok c => size * gib <= c end).

Lemma diskCapacity_ok location disk size : size <= Disk_SizeGiB disk ->
  match diskCapacity location disk with Err _ => True | Ok c => size * gib <= c end.
Proof.
  intros Hs. unfold diskCapacity. destruct (diskVolume _ _) as [v|] eqn:E; [|done]. simpl.
  apply diskVolume_ok in E as (_ & _ & _ & _ & -> & _). pose proof gib_pos. nia.
Qed.

Lemma waitForDiskSize_spec ctx location d size :
  ensures (waitForDiskSize fuel a ctx location d size) (fun r _ =>
    match r with Err _ => True | Ok disk => size <= Disk_SizeGiB disk end).
Proof.
  unfold waitForDiskSize. induction fuel as [|n IH]; cbn [waitForDiskSize_loop]; unfold ensures; [done|].
  wp_step. apply wp_skip. intros [disk|e] new.
  - wp_step; [wp_step; bool_hyps; lia|]. repeat (wp_step; try done). eapply ensures_use; [apply IH|done].
  - repeat (wp_step; try done). eapply ensures_use; [apply IH|done].
Qed.

Ltac reaches_done := apply diskCapacity_ok; bool_hyps; lia.

Lemma expandLocked_spec ctx location d vm size : ensures (expandLocked fuel a ctx location d vm size) (reaches size).
Proof.
  unfold expandLocked, ensures. wp_step. apply wp_skip. intros [disk|e] new; [|done]. wp_step; [wp_step; reaches_done|].
  wp_step. apply wp_skip. intros [final|e] new2; [|done]. wp_step; [done|].
  wp_step. apply wp_skip. intros [e|] new3; [done|]. wp_step. wp_step. wp_step. wp_step; [done|]. wp_step.
  - wp_step. apply wp_skip. intros [disk2|e2] new4; [|done]. wp_step; [wp_step; reaches_done|done].
  - wp_step. apply wp_skip. intros c new4. wp_step. eapply ensures_use; [apply waitForDiskSize_spec|].
    intros [disk2|e2] new5 H; [|done]. wp_step. reaches_done.
Qed.

(** A successful ExpandVolume reports a capacity that covers the requested bytes. *)
Lemma ExpandVolume_spec ctx location d capacity :
  in_int64 capacity ->
  ensures (ExpandVolume fuel a ctx location d capacity) (fun r _ =>
    match r with Err _ => True | Ok c => capacity <= c end).
Proof.
  intros Hc. unfold ExpandVolume, ensures. destruct (bytesToGiB capacity) as [size|] eqn:Hs; [|done].
  apply bytesToGiB_ok in Hs as (_ & _ & _ & Hs); [|done].
  assert (forall location disk, size <= Disk_SizeGiB disk ->
    match diskCapacity location disk with Err _ => True | Ok c => capacity <= c end) as Hd.
  { intros l disk Hd. apply diskCapacity_ok with (location := l) in Hd. destruct (diskCapacity _ _); [lia|done]. }
  wp_step. apply wp_skip. intros [disk|e] new; [|done]. wp_step; [wp_step; apply Hd; bool_hyps; lia|].
  wp_step. apply wp_skip. intros [x|e] new1; [|done].
  wp_step. apply wp_skip. intros [at_|e] new2; [|done]. wp_step; [done|].
  wp_step. apply wp_skip. intros [vm|e] new3; [|done]. do 3 (wp_step; [done|]).
  wp_step. apply wp_skip. intros [key|e] new4; [|done]. unfold unlocking.
  wp_step. eapply ensures_use; [apply expandLocked_spec|]. intros r new5 Hr. wp_step. wp_step. wp_step. destruct r; [lia|done].
Qed.
End Results.

(** ** Theorems *)

(** C40: sizes stay exact at 64 bits. bytesToGiB rejects exactly the sizes that are not positive, and
    otherwise returns the least number of GiB that covers the bytes; diskVolume reports exactly the
    disk's GiB in bytes, without wrapping, or an error. *)
Theorem sizes_exact bytes location disk :
  in_int64 bytes ->
  (if bytes <=? 0 then exists e, bytesToGiB bytes = Err e
   else exists size, bytesToGiB bytes = Ok size /\ (size - 1) * gib < bytes <= size * gib)
  /\ (forall v, diskVolume location disk = Ok v ->
        Volume_CapacityBytes v = Disk_SizeGiB disk * gib /\ 0 < Volume_CapacityBytes v <= MaxInt64).
Proof.
  intros Hb. split.
  - destruct (bytes <=? 0) eqn:E.
    + unfold bytesToGiB. rewrite E. eauto.
    + bool_hyps. destruct (bytesToGiB_total bytes) as [size Hs]; [unfold in_int64 in Hb; lia|].
      exists size. split; [done|]. by apply bytesToGiB_ok in Hs as (_ & _ & ?).
  - intros v Hv. pose proof (diskVolume_ok _ _ _ Hv) as (_ & _ & _ & _ & -> & Hpos).
    unfold diskVolume in Hv. repeat (case_test_in Hv; try done). bool_hyps.
    assert (MaxInt64 / gib = 8589934591) as E by reflexivity. rewrite E in *. unfold gib, MaxInt64 in *. lia.
Qed.

(** The largest request: the 2^33 GiB that cover it are representable, their bytes are not, and the
    conversion back refuses them. *)
Lemma sizes_exact_witness :
  bytesToGiB MaxInt64 = Ok 8589934592 /\ (8589934592 - 1) * gib < MaxInt64 <= 8589934592 * gib
  /\ diskVolume "bkk" (make_disk disk1 "pvc-1" 8589934592 7) = Err (Msg "InSpace disk size overflows bytes").
Proof.
  assert (in_int64 MaxInt64) as H by (unfold in_int64; vm_compute; split; discriminate).
  destruct (proj1 (sizes_exact MaxInt64 "bkk" (make_disk disk1 "pvc-1" 8589934592 7) H)) as (size & Hs & Hle).
  assert (size = 8589934592) as -> by (vm_compute in Hs; congruence).
  split; [exact Hs|]. split; [exact Hle|]. vm_compute. reflexivity.
Defined.

Section Theorems.
Context `{JT : JSONText} `{TT : TimeText} (sha256_hex : string -> string) (fuel : nat) (a : Adapter) (ctx : context).

(** A successful EnsureVolume returns a volume that was read back with the requested name and
    location and a size that is the least number of GiB covering the request: at least the requested
    bytes, and less than one GiB more. *)
Theorem EnsureVolume_result spec :
  in_int64 (Spec_CapacityBytes spec) ->
  ensures (EnsureVolume sha256_hex fuel a ctx spec) (fun r _ =>
    match r with
    | Err _ => True
    | Ok v => Volume_Name v = Spec_Name spec /\ Volume_Location v = Spec_Location spec /\ uuidPattern (Volume_ID v) = true
        /\ Spec_CapacityBytes spec <= Volume_CapacityBytes v < Spec_CapacityBytes spec + gib
    end).
Proof.
  intros Hb. eapply wp_mono; [apply EnsureVolume_spec|]. intros [v|e] h; [|done]. intros (size & Hs & Hn & Hl & Hc & Hu).
  apply bytesToGiB_ok in Hs as (_ & _ & ?); [|done]. simpl in *. split_and!; try done; unfold gib in *; lia.
Qed.

(** A successful ExpandVolume reports a capacity that covers the requested bytes, read from the
    disk after the resize. *)
Theorem ExpandVolume_result location d capacity :
  in_int64 capacity ->
  ensures (ExpandVolume fuel a ctx location d capacity) (fun r _ =>
    match r with Err _ => True | Ok c => capacity <= c end).
Proof. apply ExpandVolume_spec. Qed.
End Theorems.

Lemma EnsureVolume_result_witness :
  exists v, create_run.1.1 = Some (Ok v) /\ Volume_Name v = "pvc-1" /\ 10 * gib <= Volume_CapacityBytes v < 10 * gib + gib.
Proof.
  assert (in_int64 (10 * gib)) as H by (vm_compute; split; discriminate).
  exists (Build_Volume disk1 "pvc-1" "bkk" (10 * gib)). split; [vm_compute; reflexivity|].
  pose proof (EnsureVolume_result no_hash enough_fuel adapter request (Build_VolumeSpec "pvc-1" "bkk" (10 * gib)) H) as He.
  assert (exec (EnsureVolume no_hash enough_fuel adapter request (Build_VolumeSpec "pvc-1" "bkk" (10 * gib))) []
    (Some (Ok (Build_Volume disk1 "pvc-1" "bkk" (10 * gib)))) create_run.2) as Hx.
  { assert (create_run.1.1 = Some (Ok (Build_Volume disk1 "pvc-1" "bkk" (10 * gib)))) as <- by (vm_compute; reflexivity).
    apply run_hist_exec. }
  pose proof (wp_exec _ _ _ _ _ _ He Hx) as (Hn & _ & _ & Hc). split; [exact Hn|exact Hc].
Defined.

Lemma ExpandVolume_result_witness : expand_run.1.1 = Some (Ok (20 * gib)) /\ 20 * gib <= 20 * gib.
Proof.
  assert (expand_run.1.1 = Some (Ok (20 * gib))) as Hr by (vm_compute; reflexivity). split; [exact Hr|].
  assert (in_int64 (20 * gib)) as H by (vm_compute; split; discriminate).
  pose proof (ExpandVolume_result enough_fuel adapter request "bkk" disk1 (20 * gib) H) as He.
  assert (exec (ExpandVolume enough_fuel adapter request "bkk" disk1 (20 * gib)) [] (Some (Ok (20 * gib))) expand_run.2) as Hx.
  { rewrite <-Hr. apply run_hist_exec. }
  exact (wp_exec _ _ _ _ _ _ He Hx).
Defined.
