(* ===== verification/KeyedMutex.v ===== *)
(** * The keyed mutex

    Models modules/csi-driver/pkg/cloud/inspace/keyed_mutex.go under any number of goroutines. The
    map is guarded by [mu], so its critical sections are atomic steps; sending to and receiving
    from the one-slot channel of an entry are separate steps. Entries are allocated objects: a
    goroutine keeps a pointer to its entry across steps, while the map may drop the key and later
    hold another entry for it. [Lock] first tries to send without waiting; only a goroutine that found
    the slot full waits, and only a waiting one can be cancelled. The unlock function acts once
    ([sync.Once]), so a second call is no step. *)

From S2P Require Import Prelude.

Module KeyedMutex.
(** [keyedMutexEntry]: whether the slot of [held] is full, and [refs]. *)
Record entry := { e_held : bool; e_refs : nat }.

(** Where a goroutine is between [Lock] and the end of its unlock function. *)
Inductive phase :=
  | Trying       (* counted in refs, before the select with a default *)
  | Waiting      (* in the inner select *)
  | Holding      (* Lock returned *)
  | Cancelled    (* ctx.Done() chosen, before release *)
  | Released.    (* slot emptied, before release *)
#[export] Instance phase_eq_dec : EqDecision phase.
Proof. solve_decision. Defined.

Record goroutine := { g_key : string; g_entry : nat; g_phase : phase }.

Record state := {
  entries : gmap string nat;          (* key to pointer *)
  heap : gmap nat entry;              (* pointer to entry *)
  running : gmap nat goroutine        (* goroutines inside Lock or its unlock function *)
}.

Definition newKeyedMutex : state := Build_state ∅ ∅ ∅.

(** The first critical section of [Lock]: find or allocate the entry, and count the caller. *)
Definition enter (t : nat) (key : string) (s : state) : state :=
  match entries s !! key with
  | Some p =>
      Build_state (entries s) (alter (fun e => Build_entry (e_held e) (S (e_refs e))) p (heap s))
        (<[t := Build_goroutine key p Trying]> (running s))
  | None =>
      let p := fresh (dom (heap s)) in
      Build_state (<[key := p]> (entries s)) (<[p := Build_entry false 1]> (heap s))
        (<[t := Build_goroutine key p Trying]> (running s))
  end.

Definition set_phase (t : nat) (g : goroutine) (ph : phase) (s : state) : state :=
  Build_state (entries s) (heap s) (<[t := Build_goroutine (g_key g) (g_entry g) ph]> (running s)).

Definition set_held (p : nat) (b : bool) (s : state) : state :=
  Build_state (entries s) (alter (fun e => Build_entry b (e_refs e)) p (heap s)) (running s).

(** [release]: drop the reference, and the map's key with the last one. *)
Definition release (t : nat) (g : goroutine) (s : state) : state :=
  let heap' := alter (fun e => Build_entry (e_held e) (pred (e_refs e))) (g_entry g) (heap s) in
  let last := match heap s !! g_entry g with Some e => Nat.eqb (pred (e_refs e)) 0 | None => false end in
  Build_state (if last then delete (g_key g) (entries s) else entries s) heap' (delete t (running s)).

(** One step of one goroutine. *)
Inductive step (s : state) : state -> Prop :=
  | StepEnter t key : running s !! t = None -> step s (enter t key s)
  | StepAcquire t g e :
      running s !! t = Some g -> (g_phase g = Trying \/ g_phase g = Waiting) -> heap s !! g_entry g = Some e -> e_held e = false ->
      step s (set_held (g_entry g) true (set_phase t g Holding s))
  | StepBlock t g e :
      running s !! t = Some g -> g_phase g = Trying -> heap s !! g_entry g = Some e -> e_held e = true ->
      step s (set_phase t g Waiting s)
  | StepCancel t g :
      running s !! t = Some g -> g_phase g = Waiting -> step s (set_phase t g Cancelled s)
  | StepUnlock t g e :
      running s !! t = Some g -> g_phase g = Holding -> heap s !! g_entry g = Some e -> e_held e = true ->
      step s (set_held (g_entry g) false (set_phase t g Released s))
  | StepRelease t g :
      running s !! t = Some g -> (g_phase g = Cancelled \/ g_phase g = Released) -> step s (release t g s).

Inductive reachable : state -> Prop :=
  | ReachInit : reachable newKeyedMutex
  | ReachStep s s' : reachable s -> step s s' -> reachable s'.

(** [size], for the tests of the source. *)
Definition size_ (s : state) : nat := base.size (entries s).

(** ** Invariant *)

Definition at_entry (p : nat) (x : nat * goroutine) : Prop := g_entry x.2 = p.
#[export] Instance at_entry_dec p x : Decision (at_entry p x).
Proof. unfold at_entry. apply _. Defined.

(** The goroutines that reference entry [p]. *)
Definition users (p : nat) (s : state) : gmap nat goroutine := filter (at_entry p) (running s).

Record inv (s : state) : Prop := {
  inv_entry : forall t g, running s !! t = Some g -> entries s !! g_key g = Some (g_entry g);
  inv_heap : forall key p, entries s !! key = Some p -> exists e, heap s !! p = Some e /\ e_refs e = base.size (users p s) /\ (0 < e_refs e)%nat;
  inv_inj : forall k1 k2 p, entries s !! k1 = Some p -> entries s !! k2 = Some p -> k1 = k2;
  inv_held : forall key p e, entries s !! key = Some p -> heap s !! p = Some e ->
    e_held e = true <-> exists t g, running s !! t = Some g /\ g_entry g = p /\ g_phase g = Holding;
  inv_one : forall t1 t2 g1 g2, running s !! t1 = Some g1 -> running s !! t2 = Some g2 ->
    g_entry g1 = g_entry g2 -> g_phase g1 = Holding -> g_phase g2 = Holding -> t1 = t2
}.

(** ** Counting *)

Lemma users_insert p (m : gmap nat goroutine) t g :
  m !! t = None ->
  base.size (filter (at_entry p) (<[t := g]> m)) = (base.size (filter (at_entry p) m) + (if decide (g_entry g = p) then 1 else 0))%nat.
Proof.
  intros Ht. rewrite map_filter_insert. destruct (decide (g_entry g = p)) as [Hp|Hp].
  - rewrite decide_True by exact Hp. rewrite map_size_insert_None; [lia|]. apply map_lookup_filter_None. by left.
  - rewrite decide_False by exact Hp. rewrite delete_id by done. lia.
Qed.

Lemma users_delete p (m : gmap nat goroutine) t g :
  m !! t = Some g ->
  base.size (filter (at_entry p) m) = (base.size (filter (at_entry p) (delete t m)) + (if decide (g_entry g = p) then 1 else 0))%nat.
Proof.
  intros Ht. rewrite <-(insert_delete_id m t g) at 1 by done. apply users_insert. apply lookup_delete_eq.
Qed.

Lemma users_replace p (m : gmap nat goroutine) t g g' :
  m !! t = Some g -> g_entry g' = g_entry g ->
  base.size (filter (at_entry p) (<[t := g']> m)) = base.size (filter (at_entry p) m).
Proof.
  intros Ht He. rewrite (users_delete p m t g Ht), <-(insert_delete_eq m t g').
  rewrite users_insert by apply lookup_delete_eq. by rewrite He.
Qed.

Lemma users_none p (m : gmap nat goroutine) :
  (forall t g, m !! t = Some g -> g_entry g <> p) -> base.size (filter (at_entry p) m) = 0%nat.
Proof.
  intros H. apply map_size_empty_iff, map_empty. intros t. apply map_lookup_filter_None. right.
  intros g Hg Ha. by apply (H t g Hg).
Qed.

(** A goroutine references its entry. *)
Lemma users_pos (m : gmap nat goroutine) t g : m !! t = Some g -> (0 < base.size (filter (at_entry (g_entry g)) m))%nat.
Proof. intros Ht. rewrite (users_delete _ m t g Ht), decide_True by done. lia. Qed.

(** ** Preservation *)

Lemma inv_init : inv newKeyedMutex.
Proof. split; unfold newKeyedMutex; simpl; intros *; rewrite ?lookup_empty; done. Qed.

(** A change of phase that is not to or from [Holding], or that moves the slot with it. *)
Lemma inv_phase s t g ph b :
  inv s -> running s !! t = Some g ->
  (b = true <-> exists t' g', <[t := Build_goroutine (g_key g) (g_entry g) ph]> (running s) !! t' = Some g' /\ g_entry g' = g_entry g /\ g_phase g' = Holding) ->
  (ph = Holding -> forall t' g', running s !! t' = Some g' -> g_entry g' = g_entry g -> g_phase g' <> Holding) ->
  inv (set_held (g_entry g) b (set_phase t g ph s)).
Proof.
  intros [I1 I2 I3 I4 I5] Ht Hb Hph. split; simpl.
  - intros t' g' [[<- <-]|[_ ?]]%lookup_insert_Some; simpl; eauto.
  - intros key p Hk. destruct (I2 key p Hk) as (e & He & Hr & Hp). unfold users in *; simpl.
    rewrite (users_replace p _ t g) by done. destruct (decide (p = g_entry g)) as [->|Hne].
    + rewrite lookup_alter_eq, He. simpl. eauto.
    + rewrite lookup_alter_ne by done. eauto.
  - eauto.
  - intros key p e Hk. destruct (decide (p = g_entry g)) as [->|Hne].
    + rewrite lookup_alter_eq. intros He. apply fmap_Some in He as (e0 & He0 & ->). simpl. exact Hb.
    + rewrite lookup_alter_ne by done. intros He. rewrite (I4 key p e Hk He). split.
      * intros (t' & g' & Ht' & Hp' & Hh'). exists t', g'. rewrite lookup_insert_ne by (intros ->; congruence). done.
      * intros (t' & g' & [[<- <-]|[Hn Ht']]%lookup_insert_Some & Hp' & Hh'); [simpl in Hp'; congruence|eauto].
  - intros t1 t2 g1 g2 [[<- <-]|[? H1]]%lookup_insert_Some [[<- <-]|[? H2]]%lookup_insert_Some; simpl; intros He Hh1 Hh2; [done|..].
    + exfalso. by eapply Hph.
    + exfalso. by eapply (Hph Hh2 t1 g1).
    + by eapply I5.
Qed.

Lemma set_held_id s p e : heap s !! p = Some e -> set_held p (e_held e) s = s.
Proof.
  intros He. destruct s as [en hp ru]; unfold set_held; simpl in *. f_equal. apply map_eq. intros q.
  destruct (decide (p = q)) as [<-|Hne]; [rewrite lookup_alter_eq, He; by destruct e|by rewrite lookup_alter_ne].
Qed.

Lemma inv_acquire s t g e :
  inv s -> running s !! t = Some g -> heap s !! g_entry g = Some e -> e_held e = false ->
  inv (set_held (g_entry g) true (set_phase t g Holding s)).
Proof.
  intros I Ht He Hf. apply inv_phase; [done|done| |].
  - split; [intros _|done]. exists t. eexists. rewrite lookup_insert_eq. done.
  - intros _ t' g' Ht' Hg' Hh. destruct I as [I1 _ _ I4 _].
    assert (e_held e = true); [|congruence]. rewrite (I4 (g_key g) (g_entry g) e); eauto.
Qed.

Lemma inv_wait s t g ph :
  inv s -> running s !! t = Some g -> g_phase g <> Holding -> ph <> Holding -> inv (set_phase t g ph s).
Proof.
  intros I Ht Hw Hph. pose proof I as [I1 I2 _ I4 _]. destruct (I2 _ _ (I1 _ _ Ht)) as (e & He & _ & _).
  rewrite <-(set_held_id (set_phase t g ph s) (g_entry g) e) by done. apply inv_phase; [done|done| |done].
  rewrite (I4 (g_key g) (g_entry g) e) by eauto. split.
  - intros (t' & g' & Ht' & ? & ?). exists t', g'. rewrite lookup_insert_ne by (intros ->; congruence). done.
  - intros (t' & g' & [[<- <-]|[_ ?]]%lookup_insert_Some & ? & ?); [done|eauto].
Qed.

Lemma inv_unlock s t g :
  inv s -> running s !! t = Some g -> g_phase g = Holding -> inv (set_held (g_entry g) false (set_phase t g Released s)).
Proof.
  intros I Ht Hh. apply inv_phase; [done|done| |done]. split; [done|].
  intros (t' & g' & [[<- <-]|[Hne Ht']]%lookup_insert_Some & He & Hp); [done|].
  destruct Hne. destruct I as [_ _ _ _ I5]. by eapply I5.
Qed.

Lemma inv_enter s t key : inv s -> running s !! t = None -> inv (enter t key s).
Proof.
  intros I Ht. pose proof I as [I1 I2 I3 I4 I5]. unfold enter. destruct (entries s !! key) as [p|] eqn:Hk.
  - split; simpl.
    + intros t' g' [[<- <-]|[_ ?]]%lookup_insert_Some; simpl; eauto.
    + intros k q Hq. destruct (I2 k q Hq) as (e & He & Hr & Hp). unfold users in *; simpl. rewrite users_insert by done. simpl.
      destruct (decide (p = q)) as [<-|Hne]; [rewrite lookup_alter_eq, He|rewrite lookup_alter_ne by done]; simpl; eexists; (split; [done|]); simpl; lia.
    + eauto.
    + intros k q e Hq He. assert (exists e0, heap s !! q = Some e0 /\ e_held e = e_held e0) as (e0 & He0 & ->).
      { destruct (decide (p = q)) as [<-|Hne]; [rewrite lookup_alter_eq in He; apply fmap_Some in He as (e0 & ? & ->); eauto|].
        rewrite lookup_alter_ne in He by done. eauto. }
      rewrite (I4 k q e0 Hq He0). split.
      * intros (t' & g' & ? & ? & ?). exists t', g'. rewrite lookup_insert_ne by congruence. done.
      * intros (t' & g' & [[<- <-]|[_ ?]]%lookup_insert_Some & ? & ?); [done|eauto].
    + intros t1 t2 g1 g2 [[<- <-]|[? H1]]%lookup_insert_Some [[<- <-]|[? H2]]%lookup_insert_Some; simpl; intros; try done. by eapply I5.
  - set (p := fresh (dom (heap s))).
    assert (heap s !! p = None) as Hp by (apply not_elem_of_dom, is_fresh).
    assert (forall k q, entries s !! k = Some q -> q <> p) as Hold.
    { intros k q Hq ->. destruct (I2 k p Hq) as (e & ? & _). congruence. }
    assert (forall t' g', running s !! t' = Some g' -> g_entry g' <> p) as Hold' by eauto.
    split; simpl.
    + intros t' g' [[<- <-]|[_ Hg']]%lookup_insert_Some; simpl; [apply lookup_insert_eq|].
      rewrite lookup_insert_ne; [eauto|]. intros ?. apply I1 in Hg'. congruence.
    + intros k q [[<- <-]|[Hne Hq]]%lookup_insert_Some; unfold users; simpl; rewrite users_insert by done; simpl.
      * rewrite lookup_insert_eq, decide_True by done. eexists. split; [done|]. simpl.
        rewrite users_none by done. lia.
      * rewrite decide_False by (apply not_eq_sym; eauto). rewrite lookup_insert_ne by (apply not_eq_sym; eauto).
        rewrite Nat.add_0_r. by eapply I2.
    + intros k1 k2 q [[<- <-]|[? H1]]%lookup_insert_Some [[<- Hq]|[? H2]]%lookup_insert_Some; try done; [|subst|by eauto].
      * by apply Hold in H2.
      * by apply Hold in H1.
    + intros k q e [[<- <-]|[Hne Hq]]%lookup_insert_Some He.
      * rewrite lookup_insert_eq in He. injection He as <-. simpl. split; [done|].
        intros (t' & g' & [[<- <-]|[_ Hg']]%lookup_insert_Some & ? & ?); [done|]. by eapply Hold' in Hg'.
      * rewrite lookup_insert_ne in He by (apply not_eq_sym; eauto). rewrite (I4 k q e Hq He). split.
        -- intros (t' & g' & ? & ? & ?). exists t', g'. rewrite lookup_insert_ne by congruence. done.
        -- intros (t' & g' & [[<- <-]|[_ ?]]%lookup_insert_Some & ? & ?); [done|eauto].
    + intros t1 t2 g1 g2 [[<- <-]|[? H1]]%lookup_insert_Some [[<- <-]|[? H2]]%lookup_insert_Some; simpl; intros; try done. by eapply I5.
Qed.

Lemma inv_release s t g :
  inv s -> running s !! t = Some g -> g_phase g <> Holding -> inv (release t g s).
Proof.
  intros I Ht Hh. pose proof I as [I1 I2 I3 I4 I5]. pose proof (I1 t g Ht) as Hk.
  destruct (I2 _ _ Hk) as (e & He & Hr & Hp). unfold release. rewrite He.
  unfold users in Hr. rewrite (users_delete _ _ t g Ht), decide_True in Hr by done.
  set (last := Nat.eqb (pred (e_refs e)) 0).
  set (en := if last then delete (g_key g) (entries s) else entries s).
  assert (forall k q, en !! k = Some q -> entries s !! k = Some q) as Hsub.
  { intros k q. unfold en. destruct last; [intros [_ ?]%lookup_delete_Some; done|done]. }
  assert (forall t' g', delete t (running s) !! t' = Some g' -> en !! g_key g' = Some (g_entry g')) as Hen.
  { intros t' g' [Hne Hg']%lookup_delete_Some. unfold en. destruct last eqn:El; [|eauto].
    rewrite lookup_delete_ne; [eauto|]. intros Hkey. pose proof (I1 _ _ Hg') as Hk'. rewrite <-Hkey, Hk in Hk'. injection Hk' as Hge.
    apply Nat.eqb_eq in El. assert (0 < base.size (filter (at_entry (g_entry g)) (delete t (running s))))%nat; [|lia].
    rewrite Hge. apply (users_pos _ t'). rewrite lookup_delete_ne by done. done. }
  split; simpl.
  - exact Hen.
  - intros k q Hq. destruct (I2 k q (Hsub _ _ Hq)) as (e' & He' & Hr' & Hp'). unfold users in *; simpl.
    rewrite (users_delete _ _ t g Ht) in Hr'. destruct (decide (g_entry g = q)) as [<-|Hne].
    + rewrite lookup_alter_eq, He. simpl. eexists. split; [done|]. simpl. split; [lia|].
      unfold en in Hq. destruct last eqn:El; [|apply Nat.eqb_neq in El; lia].
      apply lookup_delete_Some in Hq as [Hne Hq]. exfalso. apply Hne. by eapply I3.
    + rewrite lookup_alter_ne by done. exists e'. split; [done|]. lia.
  - eauto.
  - intros k q e' Hq He'. assert (exists e0, heap s !! q = Some e0 /\ e_held e' = e_held e0) as (e0 & He0 & ->).
    { destruct (decide (g_entry g = q)) as [<-|Hne]; [rewrite lookup_alter_eq in He'; apply fmap_Some in He' as (e0 & ? & ->); eauto|].
      rewrite lookup_alter_ne in He' by done. eauto. }
    rewrite (I4 k q e0 (Hsub _ _ Hq) He0). split.
    + intros (t' & g' & ? & ? & ?). exists t', g'. rewrite lookup_delete_ne by (intros ->; congruence). done.
    + intros (t' & g' & [_ ?]%lookup_delete_Some & ? & ?). eauto.
  - intros t1 t2 g1 g2 [_ H1]%lookup_delete_Some [_ H2]%lookup_delete_Some. by eapply I5.
Qed.

Lemma inv_step s s' : inv s -> step s s' -> inv s'.
Proof.
  intros I [t key Ht|t g e Ht Hp He Hf|t g e Ht Hp He Hf|t g Ht Hp|t g e Ht Hp He Hf|t g Ht Hp].
  - by apply inv_enter.
  - by eapply inv_acquire.
  - apply inv_wait; [done|done|congruence|done].
  - apply inv_wait; [done|done|congruence|done].
  - by apply inv_unlock.
  - apply inv_release; [done|done|]. by destruct Hp as [-> | ->].
Qed.

Lemma reachable_inv s : reachable s -> inv s.
Proof. induction 1; eauto using inv_init, inv_step. Qed.

(** ** What callers rely on *)

Definition owns (s : state) (t : nat) (key : string) : Prop :=
  exists g, running s !! t = Some g /\ g_key g = key /\ g_phase g = Holding.

Lemma owners_equal s t1 t2 key : inv s -> owns s t1 key -> owns s t2 key -> t1 = t2.
Proof.
  intros I (g1 & H1 & K1 & P1) (g2 & H2 & K2 & P2). destruct I as [I1 _ _ _ I5].
  apply (I5 t1 t2 g1 g2); [done|done| |done|done].
  pose proof (I1 _ _ H1) as E1. pose proof (I1 _ _ H2) as E2. rewrite K1 in E1. rewrite K2 in E2. congruence.
Qed.

Lemma idle_empty s : inv s -> running s = ∅ -> entries s = ∅.
Proof.
  intros [_ I2 _ _ _] Hr. apply map_empty. intros key. destruct (entries s !! key) as [p|] eqn:E; [|done].
  destruct (I2 key p E) as (e & _ & Hu & Hpos). exfalso. unfold users in Hu. rewrite Hr, map_filter_empty, map_size_empty in Hu. lia.
Qed.

(** A goroutine that waits for a key nobody holds can take it. *)
Lemma waiter_enabled s t g :
  inv s -> running s !! t = Some g -> (forall t', ~ owns s t' (g_key g)) ->
  exists e, heap s !! g_entry g = Some e /\ e_held e = false.
Proof.
  intros [I1 I2 I3 I4 _] Ht Hno. destruct (I2 _ _ (I1 _ _ Ht)) as (e & He & _). exists e. split; [done|].
  destruct (e_held e) eqn:Hh; [|done]. exfalso.
  apply (I4 _ _ _ (I1 _ _ Ht) He) in Hh as (t' & g' & Ht' & Hg' & Hp'). apply (Hno t'). exists g'. split_and!; [done| |done].
  eapply I3; [by apply (I1 t')|]. rewrite Hg'. by apply (I1 t).
Qed.

(** The unlock function of a holder never blocks. *)
Lemma holder_enabled s t g :
  inv s -> running s !! t = Some g -> g_phase g = Holding -> exists e, heap s !! g_entry g = Some e /\ e_held e = true.
Proof.
  intros [I1 I2 _ I4 _] Ht Hh. destruct (I2 _ _ (I1 _ _ Ht)) as (e & He & _). exists e. split; [done|].
  apply (I4 _ _ _ (I1 _ _ Ht) He). eauto.
Qed.

Lemma acquire_owns s t g : owns (set_held (g_entry g) true (set_phase t g Holding s)) t (g_key g).
Proof. eexists. simpl. rewrite lookup_insert_eq. done. Qed.

(** C29: in every interleaving of any number of goroutines, with cancellations at any point, at
    most one goroutine is between a successful Lock of a key and its unlock, although the map
    drops and re-creates the entry of a key. *)
Theorem mutual_exclusion s t1 t2 key : reachable s -> owns s t1 key -> owns s t2 key -> t1 = t2.
Proof. intros. eapply owners_equal; eauto using reachable_inv. Qed.

(** An uncontended goroutine is not turned away: its only step takes the key. *)
Lemma trying_granted s s' t g :
  inv s -> running s !! t = Some g -> g_phase g = Trying -> (forall t', ~ owns s t' (g_key g)) ->
  step s s' -> running s' !! t = Some g \/ owns s' t (g_key g).
Proof.
  intros I Ht Hp Hno Hs. destruct (waiter_enabled s t g I Ht Hno) as (e & He & Hf).
  destruct Hs as [t' key Ht'|t' g' e' Ht' Hp' He' Hf'|t' g' e' Ht' Hp' He' Hf'|t' g' Ht' Hp'|t' g' e' Ht' Hp' He' Hf'|t' g' Ht' Hp'];
    destruct (decide (t' = t)) as [->|Hne]; simplify_eq; try (right; apply acquire_owns); try (by destruct Hp'; congruence); try congruence; left.
  - unfold enter. destruct (entries s !! key); simpl; by rewrite lookup_insert_ne.
  - simpl. by rewrite lookup_insert_ne.
  - simpl. by rewrite lookup_insert_ne.
  - simpl. by rewrite lookup_insert_ne.
  - simpl. by rewrite lookup_insert_ne.
  - simpl. by rewrite lookup_delete_ne.
Qed.

(** The moves the code allows a goroutine, [None] for one that has left: a holder can only empty the
    slot, and one that cancelled or released can only leave. *)
Definition advances (ph : phase) (after : option phase) : Prop :=
  match ph with
  | Trying => after = Some Holding \/ after = Some Waiting
  | Waiting => after = Some Holding \/ after = Some Cancelled
  | Holding => after = Some Released
  | Cancelled | Released => after = None
  end.

(** A step of goroutine [t] alone: it advances [t] and leaves every other goroutine where it is. *)
Definition own_step (t : nat) (g : goroutine) (s s' : state) : Prop :=
  step s s' /\ (forall t', t' <> t -> running s' !! t' = running s !! t') /\ advances (g_phase g) (g_phase <$> running s' !! t).

(** Only its own step moves a goroutine. *)
Lemma step_advances s s' t g :
  running s !! t = Some g -> step s s' -> running s' !! t = Some g \/ advances (g_phase g) (g_phase <$> running s' !! t).
Proof.
  intros Ht Hs.
  destruct Hs as [t' key Ht'|t' g' e' Ht' Hp' He' Hf'|t' g' e' Ht' Hp' He' Hf'|t' g' Ht' Hp'|t' g' e' Ht' Hp' He' Hf'|t' g' Ht' Hp'];
    (destruct (decide (t' = t)) as [->|Hne]; [simplify_eq; right|left]); try congruence; simpl;
    try (by rewrite lookup_insert_ne); try (by rewrite lookup_delete_ne);
    rewrite ?lookup_insert_eq, ?lookup_delete_eq; simpl.
  - unfold enter. destruct (entries s !! key); simpl; by rewrite lookup_insert_ne.
  - destruct Hp' as [-> | ->]; simpl; auto.
  - rewrite Hp'. simpl. auto.
  - rewrite Hp'. simpl. auto.
  - by rewrite Hp'.
  - destruct Hp' as [-> | ->]; done.
Qed.

(** Every goroutine inside the mutex has a step of its own, whatever the others do. *)
Lemma own_step_enabled s t g : inv s -> running s !! t = Some g -> exists s', own_step t g s s'.
Proof.
  intros I Ht. assert (forall s', step s s' -> (forall t', t' <> t -> running s' !! t' = running s !! t') ->
    running s' !! t <> Some g -> own_step t g s s') as Hown.
  { intros s' Hs Ho Hn. split_and!; [done|done|]. by destruct (step_advances s s' t g Ht Hs). }
  pose proof I as [I1 I2 _ _ _]. destruct (I2 _ _ (I1 _ _ Ht)) as (e & He & _).
  destruct (g_phase g) eqn:E.
  - destruct (e_held e) eqn:Hh; eexists; (apply Hown; [first [by eapply StepBlock|by eapply StepAcquire; eauto]|..]); simpl;
      try (intros t' Hne; by rewrite lookup_insert_ne); rewrite lookup_insert_eq; intros [=Hg]; rewrite <-Hg in E; discriminate E.
  - eexists. apply Hown; [by eapply StepCancel|..]; simpl; [intros t' Hne; by rewrite lookup_insert_ne|].
    rewrite lookup_insert_eq. intros [=Hg]. rewrite <-Hg in E. discriminate E.
  - destruct (holder_enabled s t g) as (e' & ? & ?); [done..|].
    eexists. apply Hown; [by eapply StepUnlock|..]; simpl; [intros t' Hne; by rewrite lookup_insert_ne|].
    rewrite lookup_insert_eq. intros [=Hg]. rewrite <-Hg in E. discriminate E.
  - eexists. apply Hown; [eapply StepRelease; eauto|..]; simpl; [intros t' Hne; by rewrite lookup_delete_ne|].
    by rewrite lookup_delete_eq.
  - eexists. apply Hown; [eapply StepRelease; eauto|..]; simpl; [intros t' Hne; by rewrite lookup_delete_ne|].
    by rewrite lookup_delete_eq.
Qed.

(** The own step of a holder leaves the key free. *)
Lemma own_step_frees s s' t g :
  inv s -> running s !! t = Some g -> g_phase g = Holding -> own_step t g s s' -> forall t', ~ owns s' t' (g_key g).
Proof.
  intros I Ht Hh (_ & Ho & Ha) t' (g' & Ht' & Hk & Hp). rewrite Hh in Ha. simpl in Ha.
  destruct (decide (t' = t)) as [->|Hne]; [rewrite Ht' in Ha; simpl in Ha; congruence|].
  rewrite Ho in Ht' by done. apply Hne. apply (owners_equal s t' t (g_key g)); [done|by exists g'|by exists g].
Qed.

(** How many own steps a goroutine has left at most. *)
Definition steps_left (ph : phase) : nat :=
  match ph with Trying => 4 | Waiting => 3 | Holding => 2 | Cancelled | Released => 1 end.

Lemma advances_decreases ph ph' : advances ph (Some ph') -> (steps_left ph' < steps_left ph)%nat.
Proof. destruct ph; simpl; intros H; destruct_or?; simplify_eq; simpl; lia. Qed.

(** A goroutine alone can leave. *)
Lemma can_leave n : forall s t g,
  inv s -> running s !! t = Some g -> (steps_left (g_phase g) <= n)%nat ->
  exists s', rtc step s s' /\ inv s' /\ running s' = delete t (running s).
Proof.
  induction n as [|n IH]; intros s t g I Ht Hn; [destruct (g_phase g); simpl in Hn; lia|].
  destruct (own_step_enabled s t g I Ht) as (s1 & Hs & Ho & Ha). pose proof (inv_step _ _ I Hs) as I1.
  destruct (running s1 !! t) as [g1|] eqn:E1; simpl in Ha.
  - apply advances_decreases in Ha. destruct (IH s1 t g1 I1 E1) as (s' & Hr & I' & Hd); [lia|].
    exists s'. split_and!; [by eapply rtc_l|done|]. rewrite Hd. apply map_eq. intros t'.
    destruct (decide (t' = t)) as [->|Hne]; [by rewrite !lookup_delete_eq|rewrite !lookup_delete_ne by done; auto].
  - exists s1. split_and!; [by apply rtc_once|done|]. apply map_eq. intros t'.
    destruct (decide (t' = t)) as [->|Hne]; [by rewrite lookup_delete_eq|rewrite lookup_delete_ne by done; auto].
Qed.

(** All goroutines can leave. *)
Lemma can_drain n : forall s, inv s -> base.size (running s) = n -> exists s', rtc step s s' /\ inv s' /\ running s' = ∅.
Proof.
  induction n as [|n IH]; intros s I Hn; [exists s; split_and!; [done|done|by apply map_size_empty_iff]|].
  destruct (map_choose (running s)) as (t & g & Ht); [intros H; rewrite H, map_size_empty in Hn; done|].
  destruct (can_leave (steps_left (g_phase g)) s t g I Ht) as (s1 & Hr & I1 & Hd); [done|].
  destruct (IH s1 I1) as (s' & Hr' & I' & He); [rewrite Hd, map_size_delete, Ht; lia|].
  exists s'. split_and!; [by etransitivity|done|done].
Qed.

(** C39: the keyed mutex neither leaks nor sticks. When no goroutine is inside it the map is empty. A
    goroutine that asks for a key nobody holds can take it in one step, and one that has not blocked
    yet is never turned away, whatever its context. Every goroutine inside has a step of its own
    ([own_step]: the others stay where they are): a holder can always empty its slot, which leaves the
    key free, one that cancelled or released can always leave, one that waits can always be cancelled;
    no step of another goroutine moves it or takes this away. So from every reachable state all
    goroutines can leave and the map is then empty. *)
Theorem no_leak_no_stuck s :
  reachable s ->
  (running s = ∅ -> size_ s = 0%nat)
  /\ (forall t g, running s !! t = Some g -> g_phase g = Trying \/ g_phase g = Waiting -> (forall t', ~ owns s t' (g_key g)) ->
        exists s', step s s' /\ owns s' t (g_key g))
  /\ (forall t g s', running s !! t = Some g -> g_phase g = Trying -> (forall t', ~ owns s t' (g_key g)) ->
        step s s' -> running s' !! t = Some g \/ owns s' t (g_key g))
  /\ (forall t g, running s !! t = Some g -> exists s', own_step t g s s')
  /\ (forall t g s', running s !! t = Some g -> g_phase g = Holding -> own_step t g s s' -> forall t', ~ owns s' t' (g_key g))
  /\ (forall t g s', running s !! t = Some g -> step s s' ->
        running s' !! t = Some g \/ advances (g_phase g) (g_phase <$> running s' !! t))
  /\ exists s', rtc step s s' /\ running s' = ∅ /\ size_ s' = 0%nat.
Proof.
  intros I%reachable_inv. split_and!.
  - intros Hr. unfold size_. by rewrite (idle_empty s), map_size_empty.
  - intros t g Ht Hw Hno. destruct (waiter_enabled s t g) as (e & He & Hf); [done..|].
    eexists. split; [by eapply StepAcquire|apply acquire_owns].
  - intros t g s' Ht Hp Hno. by apply trying_granted.
  - intros t g. by apply own_step_enabled.
  - intros t g s' Ht Hh. by apply own_step_frees.
  - intros t g s'. by apply step_advances.
  - destruct (can_drain _ s I eq_refl) as (s' & Hr & I' & He). exists s'. split_and!; [done|done|].
    unfold size_. by rewrite (idle_empty s'), map_size_empty.
Qed.

(** Two goroutines on one key: the first holds it, the second waits. *)
Definition entered : state := enter 0 "vm" newKeyedMutex.
Definition pointer : nat := default 0%nat (entries entered !! "vm").
Definition locked_state : state := set_held pointer true (set_phase 0 (Build_goroutine "vm" pointer Trying) Holding entered).
Definition contended : state := enter 1 "vm" locked_state.

Lemma contended_reachable : reachable contended.
Proof.
  assert (reachable entered) as H1 by (eapply ReachStep; [apply ReachInit|by apply StepEnter]).
  assert (reachable locked_state) as H2.
  { eapply ReachStep; [exact H1|].
    apply (StepAcquire entered 0 (Build_goroutine "vm" pointer Trying) (Build_entry false 1)); vm_compute; auto. }
  eapply ReachStep; [exact H2|]. apply StepEnter. vm_compute. reflexivity.
Qed.

Lemma contended_owner : owns contended 0 "vm".
Proof. exists (Build_goroutine "vm" pointer Holding). vm_compute. split_and!; reflexivity. Qed.

Lemma mutual_exclusion_witness : owns contended 0 "vm" /\ forall t, owns contended t "vm" -> t = 0%nat.
Proof.
  split; [exact contended_owner|]. intros t Ht.
  exact (mutual_exclusion contended t 0 "vm" contended_reachable Ht contended_owner).
Defined.

(** The first goroutine gives the key back by a step of its own, and the second can then take it. *)
Lemma no_leak_no_stuck_witness :
  exists s1 s2, step contended s1 /\ (forall t, ~ owns s1 t "vm") /\ running s1 !! 1%nat = running contended !! 1%nat
    /\ step s1 s2 /\ owns s2 1 "vm".
Proof.
  destruct (no_leak_no_stuck contended contended_reachable) as (_ & _ & _ & Hown & Hfree & _).
  destruct (Hown 0%nat (Build_goroutine "vm" pointer Holding)) as (s1 & Hs1); [vm_compute; reflexivity|].
  pose proof (Hfree 0%nat (Build_goroutine "vm" pointer Holding) s1 ltac:(vm_compute; reflexivity) eq_refl Hs1) as Hfr.
  destruct Hs1 as (Hs1 & Ho & _). assert (running s1 !! 1%nat = running contended !! 1%nat) as Hr by (apply Ho; discriminate).
  destruct (no_leak_no_stuck s1 (ReachStep contended s1 contended_reachable Hs1)) as (_ & Htake & _).
  destruct (Htake 1%nat (Build_goroutine "vm" pointer Trying)) as (s2 & Hs2 & Ho2);
    [rewrite Hr; vm_compute; reflexivity|by left|exact Hfr|].
  exists s1, s2. split_and!; assumption.
Defined.
End KeyedMutex.
