(* ===== verification/CSIDriver.v ===== *)
(** * The CSI driver: volume handles and RPC handlers

    Models modules/csi-driver/pkg/driver: volume.go, capabilities.go, driver.go, controller.go,
    expand.go, node.go and identity.go. A handler is a program over the two interfaces it is given
    ([cloud.Interface] and [host.Mounter]); a gRPC status is its code (the message text is dropped).
    Requests carry the protobuf fields the handlers read; a getter on a nil message returns the
    zero value, as the generated getters do. *)

From S2P Require Import Prelude GoErrors GoURL Prog CSIAdapter.

(** ** volume.go *)

Definition driverUUIDPattern := uuid_lower_pattern.
Definition driverLocationPattern := location_pattern.
Definition virtioSerialLength : nat := 20.

Record VolumeRef := { Ref_Location : string; Ref_ID : string }.

Definition NewVolumeHandle (location volumeID : string) : result string :=
  let location := ToLower location in
  let volumeID := ToLower volumeID in
  if negb (driverLocationPattern location) then Err (Msg "invalid location")
  else if negb (driverUUIDPattern volumeID) then Err (Msg "invalid volume UUID")
  else Ok ("inspace://" +:+ location +:+ "/" +:+ volumeID).

Definition ParseVolumeHandle (handle : string) : result VolumeRef :=
  match url_Parse handle with
  | None => Err (Msg "parse")
  | Some u =>
      if (URL_Scheme u != "inspace") || (URL_Host u == "") || (URL_RawQuery u != "") || (URL_Fragment u != "") || (URL_User u != None)
      then Err (Msg "expected inspace://<location>/<volume-uuid>")
      else
        let location := ToLower (URL_Host u) in
        let id := ToLower (TrimPrefix (EscapedPath u) "/") in
        if ContainsChar "/" id || (id == "") then Err (Msg "expected exactly one volume UUID path segment")
        else match unescape_path id with
        | None => Err (Wrap "decode volume UUID" [Msg "invalid URL escape"])
        | Some decoded =>
            if negb (driverLocationPattern location) || negb (driverUUIDPattern decoded) then Err (Msg "invalid location or volume UUID")
            else Ok (Build_VolumeRef location decoded)
        end
  end.

Definition VirtioDevicePath (volumeID : string) : result string :=
  let id := ToLower volumeID in
  if negb (driverUUIDPattern id) then Err (Msg "invalid volume UUID")
  else Ok ("/dev/disk/by-id/virtio-" +:+ take_string virtioSerialLength id).

(** ** driver.go *)

Inductive code_ :=
  | Canceled_ | InvalidArgument | DeadlineExceeded_ | NotFound | AlreadyExists | PermissionDenied
  | FailedPrecondition | ResourceExhausted | Aborted | OutOfRange | Unavailable | Unauthenticated | Internal.
#[export] Instance code_eq_dec : EqDecision code_.
Proof. solve_decision. Defined.

(** What a handler returns: a response or a status. *)
Inductive rpc (A : Type) := Reply (a : A) | Status (c : code_).
Arguments Reply {A} a.
Arguments Status {A} c.

Inductive Mode := ModeController | ModeNode | ModeAll.
#[export] Instance Mode_eq_dec : EqDecision Mode.
Proof. solve_decision. Defined.

Record DriverConfig := {
  DC_Mode : Mode; DC_PluginName : string; DC_PluginVersion : string; DC_Location : string;
  DC_NodeID : string; DC_DefaultVolumeSize : Z; DC_MaxVolumeSize : Z; DC_MaxVolumesPerNode : Z
}.

(** [has_cloud] and [has_mounter] are [d.cloud != nil] and [d.mounter != nil]. *)
Record Driver := { cfg : DriverConfig; has_cloud : bool; has_mounter : bool }.

Definition DefaultVolumeSize : Z := 10 * 1073741824.
Definition DefaultMaxVolumeSize : Z := 2000 * 1073741824.
Definition TopologyLocationKey : string := "topology.inspace.cloud/location".

(** [mode] is the text of [Config.Mode]. *)
Definition parseMode (mode : string) : option Mode :=
  if mode == "" then Some ModeAll
  else if mode == "controller" then Some ModeController
  else if mode == "node" then Some ModeNode
  else if mode == "all" then Some ModeAll
  else None.

Definition NewDriver (mode name version location nodeID : string) (defaultSize maxSize maxVolumes : Z)
    (has_cloud has_mounter : bool) : result Driver :=
  if location == "" then Err (Msg "location is required")
  else
    let name := if name == "" then "csi.inspace.cloud" else name in
    let version := if version == "" then "dev" else version in
    match parseMode mode with
    | None => Err (Msg "unsupported driver mode")
    | Some m =>
        let defaultSize := if defaultSize =? 0 then DefaultVolumeSize else defaultSize in
        let maxSize := if maxSize =? 0 then DefaultMaxVolumeSize else maxSize in
        if (defaultSize <? 0) || (maxSize <? 0) || (maxVolumes <? 0) then Err (Msg "size and volume limits cannot be negative")
        else if (0 <? maxSize) && (maxSize <? defaultSize) then Err (Msg "default volume size exceeds maximum volume size")
        else Ok (Build_Driver (Build_DriverConfig m name version location nodeID defaultSize maxSize maxVolumes) has_cloud has_mounter)
    end.

Definition controllerEnabled (d : Driver) : bool := (DC_Mode (cfg d) == ModeController) || (DC_Mode (cfg d) == ModeAll).
Definition nodeEnabled (d : Driver) : bool := (DC_Mode (cfg d) == ModeNode) || (DC_Mode (cfg d) == ModeAll).

Definition cloudStatus (e : error) : code_ :=
  if Is e Canceled then Canceled_
  else if Is e DeadlineExceeded then DeadlineExceeded_
  else if Is e ErrNotFound then NotFound
  else if Is e ErrVolumeAttachedElsewhere then FailedPrecondition
  else if Is e ErrVolumeNotAttached then FailedPrecondition
  else if Is e ErrIncompatibleVolume then AlreadyExists
  else if Is e ErrSnapshotsPresent then FailedPrecondition
  else if Is e ErrInvalidNode then NotFound
  else if Is e ErrUnavailable then Unavailable
  else if Is e ErrUnauthenticated then Unauthenticated
  else if Is e ErrPermissionDenied then PermissionDenied
  else if Is e ErrConflict then Aborted
  else if Is e ErrRejected then InvalidArgument
  else Internal.

Definition hostStatus (e : error) : code_ :=
  if Is e Canceled then Canceled_
  else if Is e DeadlineExceeded then DeadlineExceeded_
  else if Is e ErrMountConflict then FailedPrecondition
  else if Is e ErrDeviceNotResized then Unavailable
  else Internal.

Definition volumeRef (d : Driver) (handle : string) : rpc VolumeRef :=
  match ParseVolumeHandle handle with
  | Err _ => Status InvalidArgument
  | Ok ref => if Ref_Location ref != DC_Location (cfg d) then Status InvalidArgument else Reply ref
  end.

Definition topology (location : string) : gmap string string := {[TopologyLocationKey := location]}.

(** ** capabilities.go *)

Record MountVolume := { MV_FsType : string; MV_MountFlags : list string }.
Inductive access_type := AccessMount (m : option MountVolume) | AccessBlock | AccessUnset.
(** [csi.VolumeCapability]; the access mode is its number, [None] when absent. *)
Record VolumeCapability := { VC_AccessMode : option Z; VC_Access : access_type }.
Definition SINGLE_NODE_WRITER : Z := 1.

Definition GetMount_ (c : option VolumeCapability) : option MountVolume :=
  match c with Some c => match VC_Access c with AccessMount m => m | _ => None end | None => None end.

Definition validCapability (c : option VolumeCapability) : bool :=
  match c with
  | None => false
  | Some cap =>
      match VC_AccessMode cap with
      | None => false
      | Some mode =>
          (mode =? SINGLE_NODE_WRITER) &&
          match GetMount_ c with
          | None => false
          | Some m => (MV_FsType m == "") || (MV_FsType m == "ext4")
          end
      end
  end.

(** [true] when the list is accepted. *)
Definition validateVolumeCapabilities (l : list (option VolumeCapability)) : bool :=
  match l with [] => false | _ => forallb validCapability l end.

Definition fsType (c : option VolumeCapability) : string :=
  match GetMount_ c with
  | Some m => if MV_FsType m != "" then MV_FsType m else "ext4"
  | None => "ext4"
  end.

(** ** The interfaces *)

(** [host.Mount] and [host.VolumeStats]. *)
Record Mount := {
  Mount_Source : string; Mount_Target : string; Mount_FSType : string; Mount_ReadOnly : bool;
  Mount_Bind : bool; Mount_Flags : list string
}.
Record VolumeStats_ := {
  VS_TotalBytes : Z; VS_AvailableBytes : Z; VS_UsedBytes : Z;
  VS_TotalInodes : Z; VS_AvailableInodes : Z; VS_UsedInodes : Z
}.

Inductive dact :=
  | CProbe
  | CEnsureVolume (spec : VolumeSpec)
  | CGetVolume (location id : string)
  | CDeleteVolume (location id : string)
  | CAttachVolume (location id node : string)
  | CDetachVolume (location id node : string)
  | CExpandVolume (location id : string) (capacity : Z)
  | MProbe
  | MWaitForDevice (path : string)
  | MGetMount (target : string)
  | MSameSource (mounted : Mount) (expected : string)
  | MFormatAndMount (device target fs : string) (flags : list string)
  | MBindMount (source target : string) (readOnly : bool) (flags : list string)
  | MUnmount (target : string)
  | MExpandFilesystem (device path : string) (minimum : Z)
  | MVolumeStats (path : string).

Definition dres (x : dact) : Type :=
  match x with
  | CProbe | CDeleteVolume _ _ | CAttachVolume _ _ _ | CDetachVolume _ _ _ => goerr
  | CEnsureVolume _ | CGetVolume _ _ => result Volume
  | CExpandVolume _ _ _ => result Z
  | MProbe | MFormatAndMount _ _ _ _ | MBindMount _ _ _ _ | MUnmount _ => goerr
  | MWaitForDevice _ => result string
  | MGetMount _ => result (option Mount)
  | MSameSource _ _ => result bool
  | MExpandFilesystem _ _ _ => result Z
  | MVolumeStats _ => result VolumeStats_
  end.

Abbreviation handler A := (prog dres (rpc A)).
Abbreviation dhistory := (list (event dres)).

(** [x, err := call; if err != nil { return nil, status(err) }]. *)
Notation "'cloud!' x ':=' p 'in' k" :=
  (bind (call p) (fun r => match r with Ok x => k | Err e => Ret (Status (cloudStatus e)) end))
  (at level 10, x binder, p at level 100, k at level 200) : go_scope.
Notation "'host!' x ':=' p 'in' k" :=
  (bind (call p) (fun r => match r with Ok x => k | Err e => Ret (Status (hostStatus e)) end))
  (at level 10, x binder, p at level 100, k at level 200) : go_scope.
(** [if cond { return nil, status.Error(c, ...) }]. *)
Notation "'reject!' b 'with' c 'in' k" := (if b then Ret (Status c) else k)
  (at level 10, b at level 100, c at level 9, k at level 200) : go_scope.
(** [x, err := f(); if err != nil { return nil, err }] for a function that returns a status. *)
Notation "'status!' x ':=' p 'in' k" := (match p with Reply x => k | Status c => Ret (Status c) end)
  (at level 10, x binder, p at level 100, k at level 200) : go_scope.

(** ** controller.go *)

Record TopologyRequirement := {
  (** a topology is [None] when nil; its segments are a map *)
  TR_Requisite : list (option (gmap string string)); TR_Preferred : list (option (gmap string string))
}.
Record CreateVolumeRequest := {
  CV_Name : string; CV_HasContentSource : bool; CV_MutableParameters : gmap string string;
  CV_Parameters : gmap string string; CV_Capabilities : list (option VolumeCapability);
  CV_Accessibility : option TopologyRequirement;
  (** required and limit bytes *)
  CV_CapacityRange : option (Z * Z)
}.
Record CreateVolumeResponse := {
  CVR_VolumeId : string; CVR_CapacityBytes : Z; CVR_VolumeContext : gmap string string;
  CVR_Topology : list (gmap string string)
}.

(** The closure [validate] of [validateAccessibility]: whether a candidate names the location. *)
Fixpoint topologyMatches (location : string) (candidates : list (option (gmap string string))) (matched : bool) : rpc bool :=
  match candidates with
  | [] => Reply matched
  | candidate :: rest =>
      match candidate with
      | None => Status InvalidArgument
      | Some segments =>
          if bool_decide (segments = ∅) then Status InvalidArgument
          else if bool_decide (map_Forall (fun k _ => k = TopologyLocationKey) segments) then
            topologyMatches location rest (if default "" (segments !! TopologyLocationKey) == location then true else matched)
          else Status InvalidArgument
      end
  end.

Definition validateAccessibility (d : Driver) (requirements : option TopologyRequirement) : rpc unit :=
  match requirements with
  | None => Reply tt
  | Some r =>
      let empty {A} (l : list A) := match l with [] => true | _ => false end in
      if empty (TR_Requisite r) && empty (TR_Preferred r) then Status InvalidArgument
      else match topologyMatches (DC_Location (cfg d)) (TR_Requisite r) false with
      | Status c => Status c
      | Reply requisiteMatched =>
        match topologyMatches (DC_Location (cfg d)) (TR_Preferred r) false with
        | Status c => Status c
        | Reply preferredMatched =>
            if negb (empty (TR_Requisite r)) && negb requisiteMatched then Status ResourceExhausted
            else if empty (TR_Requisite r) && negb (empty (TR_Preferred r)) && negb preferredMatched then Status ResourceExhausted
            else Reply tt
        end
      end
  end.

(** The map iteration order is unspecified; every failure has the same code. *)
Definition validateParameters (parameters : gmap string string) : bool :=
  bool_decide (map_Forall (fun k v => k = "csi.storage.k8s.io/fstype" /\ (v = "" \/ v = "ext4")) parameters).

Definition validateVolumeContext (volumeContext : gmap string string) (location : string) : bool :=
  bool_decide (map_Forall (fun k v => (k = "location" /\ v = location) \/ (k = "fsType" /\ v = "ext4")) volumeContext).

(** capacity, required, limit *)
Definition requestedCapacity (d : Driver) (capacityRange : option (Z * Z)) : rpc (Z * Z * Z) :=
  let '(required, limit) := default (0, 0) capacityRange in
  if (required <? 0) || (limit <? 0) then Status InvalidArgument
  else if (0 <? limit) && (limit <? required) then Status InvalidArgument
  else
    let capacity :=
      if required =? 0 then
        let c := DC_DefaultVolumeSize (cfg d) in
        if (0 <? limit) && (limit <? c) then limit else c
      else required in
    if capacity <=? 0 then Status OutOfRange
    else if (0 <? DC_MaxVolumeSize (cfg d)) && (DC_MaxVolumeSize (cfg d) <? capacity) then Status OutOfRange
    else Reply (capacity, required, limit).

Definition CreateVolume (d : Driver) (request : option CreateVolumeRequest) : handler CreateVolumeResponse :=
  reject! negb (has_cloud d) with Unavailable in
  match request with None => Ret (Status InvalidArgument) | Some req =>
  reject! CV_Name req == "" with InvalidArgument in
  reject! CV_HasContentSource req with InvalidArgument in
  reject! negb (bool_decide (CV_MutableParameters req = ∅)) with InvalidArgument in
  reject! negb (validateParameters (CV_Parameters req)) with InvalidArgument in
  reject! negb (validateVolumeCapabilities (CV_Capabilities req)) with InvalidArgument in
  status! _ := validateAccessibility d (CV_Accessibility req) in
  status! '(capacity, required, limit) := requestedCapacity d (CV_CapacityRange req) in
  cloud! volume := CEnsureVolume (Build_VolumeSpec (CV_Name req) (DC_Location (cfg d)) capacity) in
  reject! (Volume_Location volume != DC_Location (cfg d)) || (Volume_ID volume == "") with Internal in
  reject! Volume_CapacityBytes volume <=? 0 with Internal in
  reject! (Volume_CapacityBytes volume <? required) || ((0 <? limit) && (limit <? Volume_CapacityBytes volume)) with AlreadyExists in
  match NewVolumeHandle (Volume_Location volume) (Volume_ID volume) with
  | Err _ => Ret (Status Internal)
  | Ok handle => Ret (Reply (Build_CreateVolumeResponse handle (Volume_CapacityBytes volume)
      (<["location" := Volume_Location volume]> {["fsType" := "ext4"]}) [topology (Volume_Location volume)]))
  end end.

(** A request with a volume ID; [node] is the node ID of a publish or unpublish. *)
Definition DeleteVolume_rpc (d : Driver) (volumeId : option string) : handler unit :=
  reject! negb (has_cloud d) with Unavailable in
  match volumeId with None => Ret (Status InvalidArgument) | Some id =>
  reject! id == "" with InvalidArgument in
  status! ref := volumeRef d id in
  let! err := call (CDeleteVolume (Ref_Location ref) (Ref_ID ref)) in
  match err with
  | Some e => if Is e ErrNotFound then Ret (Reply tt) else Ret (Status (cloudStatus e))
  | None => Ret (Reply tt)
  end end.

Record PublishRequest := { PR_VolumeId : string; PR_NodeId : string; PR_Capability : option VolumeCapability }.

Definition ControllerPublishVolume (d : Driver) (request : option PublishRequest) : handler (gmap string string) :=
  reject! negb (has_cloud d) with Unavailable in
  match request with None => Ret (Status InvalidArgument) | Some req =>
  reject! PR_VolumeId req == "" with InvalidArgument in
  reject! PR_NodeId req == "" with InvalidArgument in
  reject! negb (validateVolumeCapabilities [PR_Capability req]) with InvalidArgument in
  status! ref := volumeRef d (PR_VolumeId req) in
  cloud! _ := CGetVolume (Ref_Location ref) (Ref_ID ref) in
  let! err := call (CAttachVolume (Ref_Location ref) (Ref_ID ref) (PR_NodeId req)) in
  match err with
  | Some e => Ret (Status (cloudStatus e))
  | None =>
      match VirtioDevicePath (Ref_ID ref) with
      | Err _ => Ret (Status Internal)
      | Ok devicePath => Ret (Reply (<["devicePath" := devicePath]> {["location" := Ref_Location ref]}))
      end
  end end.

Definition ControllerUnpublishVolume (d : Driver) (request : option (string * string)) : handler unit :=
  reject! negb (has_cloud d) with Unavailable in
  match request with None => Ret (Status InvalidArgument) | Some (id, node) =>
  reject! id == "" with InvalidArgument in
  status! ref := volumeRef d id in
  let! err := call (CDetachVolume (Ref_Location ref) (Ref_ID ref) node) in
  match err with
  | Some e => if Is e ErrNotFound then Ret (Reply tt) else Ret (Status (cloudStatus e))
  | None => Ret (Reply tt)
  end end.

Record ValidateRequest := {
  VR_VolumeId : string; VR_Capabilities : list (option VolumeCapability); VR_Parameters : gmap string string;
  VR_MutableParameters : gmap string string; VR_VolumeContext : gmap string string
}.
(** [None]: the capabilities are not supported (the response carries only a message). *)
Record Confirmed := {
  CF_Capabilities : list (option VolumeCapability); CF_VolumeContext : gmap string string; CF_Parameters : gmap string string
}.

Definition ValidateVolumeCapabilities (d : Driver) (request : option ValidateRequest) : handler (option Confirmed) :=
  reject! negb (has_cloud d) with Unavailable in
  match request with None => Ret (Status InvalidArgument) | Some req =>
  reject! VR_VolumeId req == "" with InvalidArgument in
  status! ref := volumeRef d (VR_VolumeId req) in
  cloud! _ := CGetVolume (Ref_Location ref) (Ref_ID ref) in
  reject! match VR_Capabilities req with [] => true | _ => false end with InvalidArgument in
  reject! negb (validateParameters (VR_Parameters req)) with InvalidArgument in
  reject! negb (bool_decide (VR_MutableParameters req = ∅)) with InvalidArgument in
  reject! negb (validateVolumeContext (VR_VolumeContext req) (Ref_Location ref)) with InvalidArgument in
  if negb (validateVolumeCapabilities (VR_Capabilities req)) then Ret (Reply None)
  else
    let confirm (key value : string) (supplied : gmap string string) (m : gmap string string) : gmap string string :=
      match supplied !! key with Some _ => <[key := value]> m | None => m end in
    Ret (Reply (Some (Build_Confirmed (VR_Capabilities req)
      (confirm "fsType" "ext4" (VR_VolumeContext req) (confirm "location" (Ref_Location ref) (VR_VolumeContext req) ∅))
      (confirm "csi.storage.k8s.io/fstype" "ext4" (VR_Parameters req) ∅))))
  end.

(** ** expand.go *)

Definition expansionCapacity (d : Driver) (capacityRange : option (Z * Z)) : rpc (Z * Z) :=
  match capacityRange with
  | None => Status InvalidArgument
  | Some (required, limit) =>
      if (required <? 0) || (limit <? 0) then Status InvalidArgument
      else
        let required := if required =? 0 then limit else required in
        if required =? 0 then Status InvalidArgument
        else if (0 <? limit) && (limit <? required) then Status InvalidArgument
        else if (0 <? DC_MaxVolumeSize (cfg d)) && (DC_MaxVolumeSize (cfg d) <? required) then Status OutOfRange
        else Reply (required, limit)
  end.

Record ExpandRequest := {
  ER_VolumeId : string; ER_Capability : option VolumeCapability; ER_CapacityRange : option (Z * Z);
  (** node requests only *)
  ER_VolumePath : string; ER_StagingTargetPath : string
}.

(** The new capacity, and [NodeExpansionRequired]. *)
Definition ControllerExpandVolume (d : Driver) (request : option ExpandRequest) : handler (Z * bool) :=
  reject! negb (has_cloud d) with Unavailable in
  match request with None => Ret (Status InvalidArgument) | Some req =>
  reject! ER_VolumeId req == "" with InvalidArgument in
  reject! match ER_Capability req with Some c => negb (validateVolumeCapabilities [Some c]) | None => false end with InvalidArgument in
  status! ref := volumeRef d (ER_VolumeId req) in
  status! '(required, limit) := expansionCapacity d (ER_CapacityRange req) in
  cloud! capacity := CExpandVolume (Ref_Location ref) (Ref_ID ref) required in
  reject! (capacity <? required) || ((0 <? limit) && (limit <? capacity)) with OutOfRange in
  Ret (Reply (capacity, true))
  end.

Definition mountBelongsToDevice (mounted : Mount) (device stagingPath : string) : handler bool :=
  host! matches_ := MSameSource mounted device in
  if matches_ || (stagingPath == "") then Ret (Reply matches_)
  else
  host! staged := MGetMount stagingPath in
  match staged with
  | None => Ret (Reply false)
  | Some staged =>
    host! stagedMatches := MSameSource staged device in
    if negb stagedMatches then Ret (Reply false)
    else host! boundToStage := MSameSource mounted stagingPath in Ret (Reply boundToStage)
  end.

Definition NodeExpandVolume (d : Driver) (request : option ExpandRequest) : handler Z :=
  reject! negb (has_mounter d) with Unavailable in
  match request with None => Ret (Status InvalidArgument) | Some req =>
  reject! ER_VolumeId req == "" with InvalidArgument in
  reject! ER_VolumePath req == "" with InvalidArgument in
  reject! match ER_Capability req with Some c => negb (validateVolumeCapabilities [Some c]) | None => false end with InvalidArgument in
  status! ref := volumeRef d (ER_VolumeId req) in
  let required := fst (default (0, 0) (ER_CapacityRange req)) in
  reject! required <? 0 with InvalidArgument in
  match VirtioDevicePath (Ref_ID ref) with Err _ => Ret (Status Internal) | Ok devicePath =>
  host! actualDevice := MWaitForDevice devicePath in
  host! mounted := MGetMount (ER_VolumePath req) in
  match mounted with None => Ret (Status NotFound) | Some mounted =>
  let! belongs := mountBelongsToDevice mounted actualDevice (ER_StagingTargetPath req) in
  match belongs with
  | Status c => Ret (Status c)
  | Reply false => Ret (Status FailedPrecondition)
  | Reply true =>
      host! capacity := MExpandFilesystem actualDevice (ER_VolumePath req) required in
      Ret (Reply capacity)
  end end end end.

(** ** node.go *)

Record NodeRequest := {
  NR_VolumeId : string; NR_StagingTargetPath : string; NR_TargetPath : string; NR_VolumePath : string;
  NR_Capability : option VolumeCapability; NR_PublishContext : gmap string string; NR_Readonly : bool
}.

Definition mountFlags (c : option VolumeCapability) : list string :=
  match GetMount_ c with Some m => MV_MountFlags m | None => [] end.

Definition NodeStageVolume (d : Driver) (request : option NodeRequest) : handler unit :=
  reject! negb (has_mounter d) with Unavailable in
  match request with None => Ret (Status InvalidArgument) | Some req =>
  reject! NR_VolumeId req == "" with InvalidArgument in
  reject! NR_StagingTargetPath req == "" with FailedPrecondition in
  reject! negb (validateVolumeCapabilities [NR_Capability req]) with FailedPrecondition in
  status! ref := volumeRef d (NR_VolumeId req) in
  match VirtioDevicePath (Ref_ID ref) with Err _ => Ret (Status Internal) | Ok devicePath =>
  let published := default "" (NR_PublishContext req !! "devicePath") in
  reject! (published != "") && (published != devicePath) with InvalidArgument in
  let publishedLocation := default "" (NR_PublishContext req !! "location") in
  reject! (publishedLocation != "") && (publishedLocation != Ref_Location ref) with InvalidArgument in
  host! actualDevice := MWaitForDevice devicePath in
  host! mounted := MGetMount (NR_StagingTargetPath req) in
  match mounted with
  | Some mounted =>
      host! matches_ := MSameSource mounted actualDevice in
      reject! negb matches_ || (Mount_FSType mounted != fsType (NR_Capability req)) || Mount_ReadOnly mounted with FailedPrecondition in
      Ret (Reply tt)
  | None =>
      let! err := call (MFormatAndMount actualDevice (NR_StagingTargetPath req) (fsType (NR_Capability req)) (mountFlags (NR_Capability req))) in
      match err with Some e => Ret (Status (hostStatus e)) | None => Ret (Reply tt) end
  end end end.

Definition NodeUnstageVolume (d : Driver) (request : option NodeRequest) : handler unit :=
  reject! negb (has_mounter d) with Unavailable in
  match request with None => Ret (Status InvalidArgument) | Some req =>
  reject! NR_VolumeId req == "" with InvalidArgument in
  reject! NR_StagingTargetPath req == "" with FailedPrecondition in
  status! _ := volumeRef d (NR_VolumeId req) in
  let! err := call (MUnmount (NR_StagingTargetPath req)) in
  match err with Some e => Ret (Status (hostStatus e)) | None => Ret (Reply tt) end
  end.

Definition NodePublishVolume (d : Driver) (request : option NodeRequest) : handler unit :=
  reject! negb (has_mounter d) with Unavailable in
  match request with None => Ret (Status InvalidArgument) | Some req =>
  reject! NR_VolumeId req == "" with InvalidArgument in
  reject! NR_StagingTargetPath req == "" with FailedPrecondition in
  reject! NR_TargetPath req == "" with InvalidArgument in
  reject! negb (validateVolumeCapabilities [NR_Capability req]) with FailedPrecondition in
  status! ref := volumeRef d (NR_VolumeId req) in
  match VirtioDevicePath (Ref_ID ref) with Err _ => Ret (Status Internal) | Ok devicePath =>
  host! actualDevice := MWaitForDevice devicePath in
  host! staged := MGetMount (NR_StagingTargetPath req) in
  match staged with
  | None => Ret (Status FailedPrecondition)
  | Some stagedMount =>
    host! stagedSourceMatches := MSameSource stagedMount actualDevice in
    reject! negb stagedSourceMatches || (Mount_FSType stagedMount != fsType (NR_Capability req)) || Mount_ReadOnly stagedMount with FailedPrecondition in
    host! published := MGetMount (NR_TargetPath req) in
    match published with
    | Some publishedMount =>
        host! matches_ := MSameSource publishedMount (NR_StagingTargetPath req) in
        reject! negb matches_ || negb (Bool.eqb (Mount_ReadOnly publishedMount) (NR_Readonly req)) with FailedPrecondition in
        Ret (Reply tt)
    | None =>
        let! err := call (MBindMount (NR_StagingTargetPath req) (NR_TargetPath req) (NR_Readonly req) (mountFlags (NR_Capability req))) in
        match err with Some e => Ret (Status (hostStatus e)) | None => Ret (Reply tt) end
    end
  end end end.

Definition NodeUnpublishVolume (d : Driver) (request : option NodeRequest) : handler unit :=
  reject! negb (has_mounter d) with Unavailable in
  match request with None => Ret (Status InvalidArgument) | Some req =>
  reject! NR_VolumeId req == "" with InvalidArgument in
  reject! NR_TargetPath req == "" with InvalidArgument in
  status! _ := volumeRef d (NR_VolumeId req) in
  let! err := call (MUnmount (NR_TargetPath req)) in
  match err with Some e => Ret (Status (hostStatus e)) | None => Ret (Reply tt) end
  end.

(** node ID, maximum volumes, topology *)
Definition NodeGetInfo (d : Driver) : rpc (string * Z * gmap string string) :=
  if DC_NodeID (cfg d) == "" then Status FailedPrecondition
  else Reply (DC_NodeID (cfg d), DC_MaxVolumesPerNode (cfg d), topology (DC_Location (cfg d))).

Definition NodeGetVolumeStats (d : Driver) (request : option NodeRequest) : handler VolumeStats_ :=
  reject! negb (has_mounter d) with Unavailable in
  match request with None => Ret (Status InvalidArgument) | Some req =>
  reject! NR_VolumeId req == "" with InvalidArgument in
  reject! NR_VolumePath req == "" with InvalidArgument in
  status! _ := volumeRef d (NR_VolumeId req) in
  let! stats := call (MVolumeStats (NR_VolumePath req)) in
  match stats with
  | Err e => if Is e ErrNotExist then Ret (Status NotFound) else Ret (Status (hostStatus e))
  | Ok stats =>
      host! mounted := MGetMount (NR_VolumePath req) in
      match mounted with None => Ret (Status NotFound) | Some _ => Ret (Reply stats) end
  end end.

(** ** identity.go *)

Definition Probe_rpc (d : Driver) : handler unit :=
  let! cloudOk := (if controllerEnabled d then
      if negb (has_cloud d) then Ret (Some Unavailable)
      else let! err := call CProbe in Ret (option_map cloudStatus err)
    else Ret None) in
  match cloudOk with Some c => Ret (Status c) | None =>
  let! hostOk := (if nodeEnabled d then
      if negb (has_mounter d) then Ret (Some Unavailable)
      else let! err := call MProbe in Ret (option_map hostStatus err)
    else Ret None) in
  match hostOk with Some c => Ret (Status c) | None => Ret (Reply tt) end end.

(** ** The adapter behind the driver

    The driver's calls of [cloud.Interface] are the adapter's methods. *)

Definition is_cloud (x : dact) : bool :=
  match x with
  | CProbe | CEnsureVolume _ | CGetVolume _ _ | CDeleteVolume _ _ | CAttachVolume _ _ _ | CDetachVolume _ _ _ | CExpandVolume _ _ _ => true
  | _ => false
  end.

(** The location a cloud call works on. *)
Definition call_location (x : dact) : option string :=
  match x with
  | CEnsureVolume spec => Some (Spec_Location spec)
  | CGetVolume l _ | CDeleteVolume l _ | CAttachVolume l _ _ | CDetachVolume l _ _ | CExpandVolume l _ _ => Some l
  | _ => None
  end.
(** The volume it works on. *)
Definition call_volume (x : dact) : option string :=
  match x with
  | CGetVolume _ id | CDeleteVolume _ id | CAttachVolume _ id _ | CDetachVolume _ id _ | CExpandVolume _ id _ => Some id
  | _ => None
  end.

(** ** Capabilities the services advertise *)

Inductive capability :=
  | CREATE_DELETE_VOLUME | PUBLISH_UNPUBLISH_VOLUME | EXPAND_VOLUME | STAGE_UNSTAGE_VOLUME | GET_VOLUME_STATS
  | VOLUME_ACCESSIBILITY_CONSTRAINTS | CONTROLLER_SERVICE | VOLUME_EXPANSION_ONLINE.

Definition ControllerGetCapabilities : list capability := [CREATE_DELETE_VOLUME; PUBLISH_UNPUBLISH_VOLUME; EXPAND_VOLUME].
Definition NodeGetCapabilities : list capability := [STAGE_UNSTAGE_VOLUME; EXPAND_VOLUME; GET_VOLUME_STATS].
Definition GetPluginCapabilities (d : Driver) : list capability :=
  VOLUME_ACCESSIBILITY_CONSTRAINTS :: (if controllerEnabled d then [CONTROLLER_SERVICE; VOLUME_EXPANSION_ONLINE] else []).
