(* ===== verification/CSIDriverSpec.v ===== *)
(** * Properties of the CSI driver's handlers

    Volume handles round trip and name exactly one volume; every handler works on the driver's own
    location and on the volume its request names; host mutations happen only after the mount state
    that justifies them was read. *)

From S2P Require Import Prelude GoErrors GoURL Prog CSIAdapter CSIDriver CSISpecs.

(** ** Handles *)

Lemma all_but_last p d r : all_chars p (take_string (String.length r) (String d r)) = true ->
  p (last_char d r) = true -> all_chars p (String d r) = true.
Proof.
  revert d. induction r as [|e r IH]; intros d Ht Hl; simpl in *; [by rewrite Hl|].
  bool_hyps. rewrite H. simpl. by apply IH.
Qed.

Lemma bounded_label_chars edge mid q n s : (forall c, edge c = true -> q c = true) -> (forall c, mid c = true -> q c = true) ->
  bounded_label edge mid n s = true -> all_chars q s = true /\ s <> "".
Proof.
  intros He Hm. unfold bounded_label. destruct s as [|c r]; [done|]. intros H; bool_hyps. split; [|done].
  destruct r as [|d r]; [simpl; by rewrite He|]. bool_hyps.
  change (all_chars q (String c (String d r))) with (q c && all_chars q (String d r)).
  rewrite He by done. apply all_but_last; [|by apply He]. by eapply all_chars_impl.
Qed.
Lemma location_chars s : location_pattern s = true -> all_chars label_char s = true /\ s <> "".
Proof. apply bounded_label_chars; unfold label_char; [|done]. by intros c ->. Qed.

Lemma match_seq_all (q : ascii -> bool) cls s :
  Forall (fun p => forall c, p c = true -> q c = true) cls -> match_seq cls s = true -> all_chars q s = true.
Proof.
  revert s. induction cls as [|p cls IH]; intros [|c s] Hq; simpl; try done.
  apply Forall_cons in Hq as [Hp Hq]. intros H; bool_hyps. rewrite Hp by done. by apply IH.
Qed.

Lemma uuid_chars s : uuid_lower_pattern s = true -> all_chars label_char s = true.
Proof.
  assert (forall c, is_hex_lower c = true -> label_char c = true) by (intros c; ascii_cases c).
  assert (forall c, is_dash c = true -> label_char c = true) by (intros c; ascii_cases c).
  apply match_seq_all. unfold uuid_classes.
  repeat first [apply Forall_app_2 | apply Forall_cons_2 | apply Forall_nil_2 | apply Forall_replicate]; auto.
Qed.

Lemma location_lower s : location_pattern s = true -> ToLower s = s.
Proof.
  intros H. apply location_chars in H as [H _]. induction s as [|c s IH]; simpl in *; [done|].
  bool_hyps. rewrite IH by done. f_equal. ascii_cases c.
Qed.

(** The canonical reference parses to its two parts. *)
Lemma parse_reference location id :
  driverLocationPattern location = true -> driverUUIDPattern id = true ->
  ParseVolumeHandle ("inspace://" +:+ location +:+ "/" +:+ id) = Ok (Build_VolumeRef location id).
Proof.
  intros Hl Hi. pose proof (location_chars _ Hl) as [Hlc Hne]. pose proof (uuid_chars _ Hi) as Hic.
  unfold ParseVolumeHandle. rewrite url_Parse_reference by done. cbn [URL_Scheme URL_Host URL_RawQuery URL_Fragment URL_User].
  rewrite (bool_decide_eq_false_2 (location = "")) by done.
  assert (EscapedPath (Build_URL "inspace" "" None location ("/" +:+ id) "" "" "") = "/" +:+ id) as ->.
  { apply EscapedPath_plain; [done|done|]. simpl. rewrite all_chars_app. simpl.
    eapply all_chars_impl; [apply label_char_plain|done]. }
  assert (TrimPrefix ("/" +:+ id) "/" = id) as ->.
  { change ("/" +:+ id) with (String "/" id). reflexivity. }
  rewrite (uuid_lower_fixed id) by done. rewrite (location_lower location) by done.
  assert (ContainsChar "/" id = false) as -> by (by eapply all_chars_ContainsChar).
  rewrite (bool_decide_eq_false_2 (id = "")) by (by apply uuid_lower_nonempty).
  rewrite unescape_path_plain by (by eapply all_chars_ContainsChar).
  simpl. by rewrite Hl, Hi.
Qed.

Lemma new_handle_parses location id handle :
  NewVolumeHandle location id = Ok handle -> ParseVolumeHandle handle = Ok (Build_VolumeRef (ToLower location) (ToLower id)).
Proof.
  unfold NewVolumeHandle. intros H. repeat (case_test_in H; try done). injection H as <-. bool_hyps. by apply parse_reference.
Qed.

Lemma parse_ok handle ref :
  ParseVolumeHandle handle = Ok ref ->
  driverLocationPattern (Ref_Location ref) = true /\ driverUUIDPattern (Ref_ID ref) = true.
Proof.
  unfold ParseVolumeHandle. intros H. repeat (case_test_in H; try done). injection H as <-. by bool_hyps.
Qed.

Lemma volumeRef_ok d handle ref :
  volumeRef d handle = Reply ref ->
  ParseVolumeHandle handle = Ok (Build_VolumeRef (DC_Location (cfg d)) (Ref_ID ref)) /\ Ref_Location ref = DC_Location (cfg d).
Proof.
  unfold volumeRef. intros H. destruct (ParseVolumeHandle handle) as [r|] eqn:E; [|done].
  case_test_in H; [done|]. injection H as <-. bool_hyps. split; [|done]. destruct r; simpl in *. congruence.
Qed.

(** ** Confinement *)

(** A call a handler may make for [handle]: on a dependency the driver has, in its own location, on
    the volume the handle names. *)
Definition confined (d : Driver) (handle : string) (x : dact) : Prop :=
  (if is_cloud x then has_cloud d else has_mounter d) = true
  /\ (forall l, call_location x = Some l -> l = DC_Location (cfg d))
  /\ (forall v, call_volume x = Some v -> ParseVolumeHandle handle = Ok (Build_VolumeRef (DC_Location (cfg d)) v)).

Ltac confined_step :=
  cbv beta iota zeta;
  match goal with
  | |- only _ (bind _ _) => apply only_bind; [|intros ?]
  | |- only _ (Ret _) => exact I
  | |- only _ (call _) => split; [|intros ?; exact I]
  | |- only _ (match ?e with _ => _ end) => destruct e eqn:?
  end.
(** Discharges the confinement of one call from the tests that precede it. *)
Ltac confined_call :=
  repeat match goal with H : volumeRef _ _ = Reply _ |- _ => apply volumeRef_ok in H as [? ?] end;
  bool_hyps; unfold confined; simpl; split_and!; intros; simplify_eq; congruence.
Ltac confined_tac := repeat confined_step; confined_call.

Section Confined.
Context (d : Driver).

Lemma CreateVolume_confined req : only (confined d "") (CreateVolume d req).
Proof. unfold CreateVolume. confined_tac. Qed.

Lemma DeleteVolume_confined id : only (confined d (default "" id)) (DeleteVolume_rpc d id).
Proof. unfold DeleteVolume_rpc. confined_tac. Qed.

Lemma ControllerPublishVolume_confined r : only (confined d (default "" (option_map PR_VolumeId r))) (ControllerPublishVolume d r).
Proof. unfold ControllerPublishVolume. confined_tac. Qed.

Lemma ControllerUnpublishVolume_confined r : only (confined d (default "" (option_map fst r))) (ControllerUnpublishVolume d r).
Proof. unfold ControllerUnpublishVolume. confined_tac. Qed.

Lemma ValidateVolumeCapabilities_confined r : only (confined d (default "" (option_map VR_VolumeId r))) (ValidateVolumeCapabilities d r).
Proof. unfold ValidateVolumeCapabilities. confined_tac. Qed.

Lemma ControllerExpandVolume_confined r : only (confined d (default "" (option_map ER_VolumeId r))) (ControllerExpandVolume d r).
Proof. unfold ControllerExpandVolume. confined_tac. Qed.

Lemma NodeStageVolume_confined r : only (confined d (default "" (option_map NR_VolumeId r))) (NodeStageVolume d r).
Proof. unfold NodeStageVolume. confined_tac. Qed.

Lemma NodePublishVolume_confined r : only (confined d (default "" (option_map NR_VolumeId r))) (NodePublishVolume d r).
Proof. unfold NodePublishVolume. confined_tac. Qed.

Lemma NodeExpandVolume_confined r : only (confined d (default "" (option_map ER_VolumeId r))) (NodeExpandVolume d r).
Proof. unfold NodeExpandVolume, mountBelongsToDevice. confined_tac. Qed.

Lemma NodeUnstageVolume_confined r : only (confined d (default "" (option_map NR_VolumeId r))) (NodeUnstageVolume d r).
Proof. unfold NodeUnstageVolume. confined_tac. Qed.

Lemma NodeUnpublishVolume_confined r : only (confined d (default "" (option_map NR_VolumeId r))) (NodeUnpublishVolume d r).
Proof. unfold NodeUnpublishVolume. confined_tac. Qed.

Lemma NodeGetVolumeStats_confined r : only (confined d (default "" (option_map NR_VolumeId r))) (NodeGetVolumeStats d r).
Proof. unfold NodeGetVolumeStats. confined_tac. Qed.

Lemma Probe_confined : only (confined d "") (Probe_rpc d).
Proof. unfold Probe_rpc. confined_tac. Qed.
End Confined.

(** ** Capacities *)

Lemma requestedCapacity_ok d range capacity required limit :
  requestedCapacity d range = Reply (capacity, required, limit) ->
  (required, limit) = default (0, 0) range
  /\ 0 < capacity /\ required <= capacity /\ (0 < limit -> capacity <= limit)
  /\ (0 < DC_MaxVolumeSize (cfg d) -> capacity <= DC_MaxVolumeSize (cfg d)).
Proof.
  unfold requestedCapacity. destruct (default (0, 0) range) as [r l]. intros H.
  repeat (case_test_in H; try done); injection H as <- <- <-; bool_hyps;
    repeat match goal with H : _ && _ = false |- _ => apply andb_false_iff in H as [?|?]; bool_hyps end; split_and!; try lia; done.
Qed.

Lemma expansionCapacity_ok d range required limit :
  expansionCapacity d range = Reply (required, limit) ->
  0 < required /\ 0 <= limit /\ (0 < limit -> required <= limit)
  /\ (0 < DC_MaxVolumeSize (cfg d) -> required <= DC_MaxVolumeSize (cfg d))
  /\ exists r, range = Some (r, limit) /\ required = (if r =? 0 then limit else r).
Proof.
  unfold expansionCapacity. destruct range as [[r l]|]; [|done]. intros H.
  destruct ((r <? 0) || (l <? 0)) eqn:E0; [done|]. set (q := if r =? 0 then l else r) in *.
  assert (0 <= q) by (unfold q; bool_hyps; destruct (r =? 0); lia).
  repeat (case_test_in H; try done); injection H as <- <-; bool_hyps;
    repeat match goal with H : _ && _ = false |- _ => apply andb_false_iff in H as [?|?]; bool_hyps end; split_and!; try lia; eauto.
Qed.

(** ** Host mutations *)

Definition on_host (G : dact -> dhistory -> Prop) (x : dact) (h : dhistory) : Prop :=
  match x with
  | MFormatAndMount _ _ _ _ | MBindMount _ _ _ _ | MExpandFilesystem _ _ _ => G x h
  | _ => True
  end.

(** The canonical device of the volume was found on this host. *)
Definition device_found (handle device : string) (h : dhistory) : Prop :=
  exists ref path, ParseVolumeHandle handle = Ok ref /\ VirtioDevicePath (Ref_ID ref) = Ok path
    /\ In (Ev (MWaitForDevice path) (Ok device)) h.

(** Formatting and mounting needs the volume's own device and a staging target that the newest read
    showed unmounted. *)
Definition stage_guard (req : NodeRequest) (x : dact) (h : dhistory) : Prop :=
  exists device, x = MFormatAndMount device (NR_StagingTargetPath req) (fsType (NR_Capability req)) (mountFlags (NR_Capability req))
    /\ device_found (NR_VolumeId req) device h
    /\ exists older, h = Ev (MGetMount (NR_StagingTargetPath req)) (Ok None) :: older.

(** Publishing needs a writable stage of the volume's own device with the requested filesystem, and a
    target that the newest read showed unmounted. *)
Definition publish_guard (req : NodeRequest) (x : dact) (h : dhistory) : Prop :=
  x = MBindMount (NR_StagingTargetPath req) (NR_TargetPath req) (NR_Readonly req) (mountFlags (NR_Capability req))
  /\ (exists older, h = Ev (MGetMount (NR_TargetPath req)) (Ok None) :: older)
  /\ exists device staged, device_found (NR_VolumeId req) device h
    /\ In (Ev (MGetMount (NR_StagingTargetPath req)) (Ok (Some staged))) h
    /\ In (Ev (MSameSource staged device) (Ok true)) h
    /\ Mount_FSType staged = fsType (NR_Capability req) /\ Mount_ReadOnly staged = false.

(** Growing a filesystem needs the volume's own device, mounted at the path directly or through its
    stage. *)
Definition expand_guard (req : ExpandRequest) (x : dact) (h : dhistory) : Prop :=
  exists device mounted, x = MExpandFilesystem device (ER_VolumePath req) (fst (default (0, 0) (ER_CapacityRange req)))
    /\ device_found (ER_VolumeId req) device h
    /\ In (Ev (MGetMount (ER_VolumePath req)) (Ok (Some mounted))) h
    /\ (In (Ev (MSameSource mounted device) (Ok true)) h
        \/ exists staged, In (Ev (MGetMount (ER_StagingTargetPath req)) (Ok (Some staged))) h
             /\ In (Ev (MSameSource staged device) (Ok true)) h
             /\ In (Ev (MSameSource mounted (ER_StagingTargetPath req)) (Ok true)) h).

(** Walks a handler: only the mutation's own guard is left. *)
Ltac handler_step :=
  cbv beta iota zeta;
  match goal with
  | |- wp _ (bind _ _) _ _ => apply wp_bind
  | |- wp _ (Ret _) _ _ => first [exact I | apply wp_ret]
  | |- wp ?G (call ?x) ?h ?Q =>
      lazymatch x with
      | MFormatAndMount _ _ _ _ => fail | MBindMount _ _ _ _ => fail | MExpandFilesystem _ _ _ => fail
      | _ => apply (wp_call G x h Q); [exact I|intros ?]
      end
  | |- wp _ (match ?e with _ => _ end) _ _ => destruct e eqn:?; simplify_eq
  end.

Lemma device_found_ref d handle ref path device h :
  volumeRef d handle = Reply ref -> VirtioDevicePath (Ref_ID ref) = Ok path ->
  In (Ev (MWaitForDevice path) (Ok device)) h -> device_found handle device h.
Proof. intros [Hp _]%volumeRef_ok Hv Hin. do 2 eexists. split_and!; [exact Hp|exact Hv|done]. Qed.

Lemma NodeStageVolume_guarded d req : wp (on_host (stage_guard req)) (NodeStageVolume d (Some req)) [] (fun _ _ => True).
Proof.
  unfold NodeStageVolume. repeat handler_step. apply wp_call; [|intros r; by repeat handler_step].
  eexists. split_and!; [done| |eauto]. eapply device_found_ref; eauto. simpl. auto.
Qed.

Lemma NodePublishVolume_guarded d req : wp (on_host (publish_guard req)) (NodePublishVolume d (Some req)) [] (fun _ _ => True).
Proof.
  unfold NodePublishVolume. repeat handler_step. apply wp_call; [|intros r; by repeat handler_step].
  bool_hyps. subst. split; [done|]. split; [eauto|]. do 2 eexists.
  split_and!; [eapply device_found_ref; eauto; simpl; auto 10|..]; simpl; auto 10.
Qed.

Lemma NodeExpandVolume_guarded d req : wp (on_host (expand_guard req)) (NodeExpandVolume d (Some req)) [] (fun _ _ => True).
Proof.
  unfold NodeExpandVolume, mountBelongsToDevice. repeat handler_step.
  all: apply wp_call; [|intros r; by repeat handler_step].
  all: bool_hyps; subst; do 2 eexists; (split_and!; [done|eapply device_found_ref; eauto; simpl; auto 10|simpl; auto 10|]).
  all: simpl in *; try (left; by auto 10).
  all: try (right; eexists; split_and!; eauto 10).
Qed.

(** ** Theorems *)

(** A volume handle round trips. The handle that NewVolumeHandle builds parses back to exactly
    its location and volume UUID in lower case, a driver of that location accepts it, and no two
    volumes share a handle. *)
Theorem volume_handle_roundtrip location id handle :
  NewVolumeHandle location id = Ok handle ->
  ParseVolumeHandle handle = Ok (Build_VolumeRef (ToLower location) (ToLower id))
  /\ (forall d, DC_Location (cfg d) = ToLower location -> volumeRef d handle = Reply (Build_VolumeRef (ToLower location) (ToLower id)))
  /\ (forall location' id', NewVolumeHandle location' id' = Ok handle -> ToLower location' = ToLower location /\ ToLower id' = ToLower id).
Proof.
  intros H%new_handle_parses. split; [done|]. split.
  - intros d Hd. unfold volumeRef. rewrite H. simpl. by rewrite bool_decide_eq_true_2.
  - intros l i H'%new_handle_parses. rewrite H in H'. by injection H' as -> ->.
Qed.

Lemma volume_handle_roundtrip_witness :
  ParseVolumeHandle "inspace://bkk01/0a1b2c3d-1111-4222-8333-444455556666"
    = Ok (Build_VolumeRef "bkk01" "0a1b2c3d-1111-4222-8333-444455556666").
Proof.
  exact (proj1 (volume_handle_roundtrip "BKK01" "0A1B2C3D-1111-4222-8333-444455556666"
    "inspace://bkk01/0a1b2c3d-1111-4222-8333-444455556666" ltac:(vm_compute; reflexivity))).
Defined.

(** Every handler is confined. Whatever the request and the answers, a handler calls only a
    dependency the driver was given, every cloud call is for the driver's own location, and every
    call on a volume is for the one volume that the request's handle names there. *)
Theorem handlers_confined d id create publish unpublish validate expand node :
  only (confined d "") (CreateVolume d create)
  /\ only (confined d (default "" id)) (DeleteVolume_rpc d id)
  /\ only (confined d (default "" (option_map PR_VolumeId publish))) (ControllerPublishVolume d publish)
  /\ only (confined d (default "" (option_map fst unpublish))) (ControllerUnpublishVolume d unpublish)
  /\ only (confined d (default "" (option_map VR_VolumeId validate))) (ValidateVolumeCapabilities d validate)
  /\ only (confined d (default "" (option_map ER_VolumeId expand))) (ControllerExpandVolume d expand)
  /\ only (confined d (default "" (option_map ER_VolumeId expand))) (NodeExpandVolume d expand)
  /\ only (confined d (default "" (option_map NR_VolumeId node))) (NodeStageVolume d node)
  /\ only (confined d (default "" (option_map NR_VolumeId node))) (NodePublishVolume d node)
  /\ only (confined d (default "" (option_map NR_VolumeId node))) (NodeUnstageVolume d node)
  /\ only (confined d (default "" (option_map NR_VolumeId node))) (NodeUnpublishVolume d node)
  /\ only (confined d (default "" (option_map NR_VolumeId node))) (NodeGetVolumeStats d node)
  /\ only (confined d "") (Probe_rpc d).
Proof.
  split_and!; auto using CreateVolume_confined, DeleteVolume_confined, ControllerPublishVolume_confined,
    ControllerUnpublishVolume_confined, ValidateVolumeCapabilities_confined, ControllerExpandVolume_confined,
    NodeExpandVolume_confined, NodeStageVolume_confined, NodePublishVolume_confined,
    NodeUnstageVolume_confined, NodeUnpublishVolume_confined, NodeGetVolumeStats_confined, Probe_confined.
Qed.

(** C31: the node's destructive steps are guarded. A device is formatted and mounted only when it is
    the device of the requested volume and the staging target was just read as unmounted; a bind
    mount is made only from a writable stage of that device with the requested filesystem onto a
    target just read as unmounted; a filesystem is grown only when the path is mounted from that
    device, directly or through its stage. *)
Theorem node_mutations_guarded d node expand :
  dispatches (NodeStageVolume d (Some node)) (on_host (stage_guard node))
  /\ dispatches (NodePublishVolume d (Some node)) (on_host (publish_guard node))
  /\ dispatches (NodeExpandVolume d (Some expand)) (on_host (expand_guard expand)).
Proof.
  split_and!; eapply wp_dispatches; [apply NodeStageVolume_guarded|apply NodePublishVolume_guarded|apply NodeExpandVolume_guarded].
Qed.

(** A host on which nothing is mounted and every device appears. *)
Definition fresh_host (x : dact) (s : unit) : dres x * unit :=
  match x as x return dres x * unit with
  | MWaitForDevice path => (Ok path, s)
  | MGetMount _ => (Ok None, s)
  | MSameSource _ _ => (Ok false, s)
  | MFormatAndMount _ _ _ _ => (None, s)
  | MBindMount _ _ _ _ => (None, s)
  | MUnmount _ => (None, s)
  | MExpandFilesystem _ _ minimum => (Ok minimum, s)
  | MVolumeStats _ => (Err (Sentinel ErrNotExist), s)
  | MProbe => (None, s)
  | CProbe => (None, s)
  | CEnsureVolume _ => (Err (Sentinel ErrUnavailable), s)
  | CGetVolume _ _ => (Err (Sentinel ErrUnavailable), s)
  | CDeleteVolume _ _ => (None, s)
  | CAttachVolume _ _ _ => (None, s)
  | CDetachVolume _ _ _ => (None, s)
  | CExpandVolume _ _ _ => (Err (Sentinel ErrUnavailable), s)
  end.

Definition node_driver : Driver := Build_Driver (Build_DriverConfig ModeNode "csi.inspace.cloud" "dev" "bkk01" "node-1" 0 0 0) false true.
Definition stage_request : NodeRequest :=
  Build_NodeRequest "inspace://bkk01/0a1b2c3d-1111-4222-8333-444455556666" "/stage" "/target" ""
    (Some (Build_VolumeCapability (Some SINGLE_NODE_WRITER) (AccessMount (Some (Build_MountVolume "" ["noatime"]))))) ∅ false.
Definition stage_run := run_hist fresh_host (NodeStageVolume node_driver (Some stage_request)) tt [].
Definition staged_device : string := "/dev/disk/by-id/virtio-0a1b2c3d-1111-4222-8".

(** Staging on it formats the volume's own device, by its twenty-character serial. *)
Lemma node_mutations_guarded_witness :
  exists older, stage_run.2 = Ev (MFormatAndMount staged_device "/stage" "ext4" ["noatime"]) None :: older
    /\ stage_guard stage_request (MFormatAndMount staged_device "/stage" "ext4" ["noatime"]) older.
Proof.
  exists (tail stage_run.2). assert (stage_run.2 = Ev (MFormatAndMount staged_device "/stage" "ext4" ["noatime"]) None :: tail stage_run.2) as H
    by (vm_compute; reflexivity).
  split; [exact H|].
  exact (proj1 (node_mutations_guarded node_driver stage_request (Build_ExpandRequest "" None None "" "")) _ _ [] _ _ _ (run_hist_exec _ _ _ _) H).
Defined.
