(* ===== verification/CSILink.v ===== *)
(** * The CSI controller: handlers linked with the adapter

    modules/csi-driver/pkg/driver calls its cloud through [cloud.Interface], which the adapter of
    modules/csi-driver/pkg/cloud/inspace implements. [link] replaces each call by the adapter's
    method, so an RPC becomes one program over the InSpace API, the fence store and the clock. *)

From S2P Require Import Prelude GoErrors GoURL ClientTypes ClientErrors CSIFence CSIDetachAuthority Prog CSIAdapter CSIRecovery CSIVolumes.
From S2P Require Import CSISpecs CSIReadback CSISafety CSIWorld CSIResults CSIDriver CSIDriverSpec.

Section Link.
Context `{JT : JSONText} `{TT : TimeText} (sha256_hex : string -> string) (fuel : nat) (a : Adapter) (ctx : context).

(** The implementation of one call. A controller has no mounter: the call would dereference nil. *)
Definition cloud_method (x : dact) : program (dres x) :=
  match x as x return program (dres x) with
  | CProbe => Probe a ctx
  | CEnsureVolume spec => EnsureVolume sha256_hex fuel a ctx spec
  | CGetVolume location id => GetVolume a ctx location id
  | CDeleteVolume location id => DeleteVolume fuel a ctx location id
  | CAttachVolume location id node => AttachVolume fuel a ctx location id node
  | CDetachVolume location id node => DetachVolume fuel a ctx location id node
  | CExpandVolume location id capacity => ExpandVolume fuel a ctx location id capacity
  | MProbe => Panic
  | MWaitForDevice _ => Panic
  | MGetMount _ => Panic
  | MSameSource _ _ => Panic
  | MFormatAndMount _ _ _ _ => Panic
  | MBindMount _ _ _ _ => Panic
  | MUnmount _ => Panic
  | MExpandFilesystem _ _ _ => Panic
  | MVolumeStats _ => Panic
  end.

Fixpoint link {A} (p : prog dres A) : program A :=
  match p with
  | Ret x => Ret x
  | Act x k => bind (cloud_method x) (fun r => link (k r))
  | Panic => Panic
  | OutOfFuel => OutOfFuel
  end.

Section Wp.
Context (G : act -> history -> Prop).

Lemma wp_link_bind {A B} (p : prog dres A) (f : A -> prog dres B) h Q :
  wp G (link p) h (fun x h' => wp G (link (f x)) h' Q) -> wp G (link (bind p f)) h Q.
Proof.
  revert h. induction p as [x|x k IH| |]; intros h; simpl; [done| |done|done].
  intros H%wp_bind_inv. apply wp_bind. eapply wp_mono; [exact H|]. intros r h'. apply IH.
Qed.

Lemma wp_link_call x h Q : wp G (cloud_method x) h Q -> wp G (link (call x)) h Q.
Proof. intros H. simpl. apply wp_bind. eapply wp_mono; [exact H|]. done. Qed.
End Wp.

(** ** Walking a linked handler *)

Ltac link_step :=
  cbv beta iota zeta;
  match goal with
  | |- wp _ (link (bind _ _)) _ _ => apply wp_link_bind
  | |- wp _ (link (Ret _)) _ _ => apply wp_ret
  | |- wp _ (link (match ?e with _ => _ end)) _ _ => destruct e eqn:?; simplify_eq
  end.

(** Enters the adapter's method of the next call. *)
Ltac link_call := apply wp_link_call; cbn [cloud_method].

Lemma wp_guard_mono (G G' : act -> history -> Prop) {A} (p : program A) h Q :
  wp G p h Q -> (forall x h, G x h -> G' x h) -> wp G' p h Q.
Proof.
  intros H HG. revert h H. induction p as [x|x k IH| |]; intros h; simpl; [done| |done|done].
  intros [? H]. split; [by apply HG|]. intros r. by apply IH.
Qed.

Lemma on_mutation_mono (G G' : act -> history -> Prop) {A} (p : program A) h Q :
  wp (on_mutation G) p h Q -> (forall x h, G x h -> G' x h) -> wp (on_mutation G') p h Q.
Proof. intros H HG. eapply wp_guard_mono; [exact H|]. intros x h' Hx Hm. apply HG, Hx, Hm. Qed.

Section Handlers.
Context (d : Driver).
Let loc := DC_Location (cfg d).

(** The handle names volume [v] in the driver's location. *)
Definition handle_names (handle v : string) : Prop := ParseVolumeHandle handle = Ok (Build_VolumeRef loc v).

Definition delete_rpc_guard (handle : string) (x : act) (h : history) : Prop :=
  exists v, handle_names handle v /\ delete_guard a ctx loc v x h.
Definition unpublish_rpc_guard (handle node : string) (x : act) (h : history) : Prop :=
  exists v, handle_names handle v /\ detach_guard a ctx loc v node x h.
(** The handler looks the volume up first. *)
Definition publish_rpc_guard (handle node : string) (x : act) (h : history) : Prop :=
  exists v newer older, handle_names handle v /\ h = newer ++ older /\ performed reading older /\ attach_guard a ctx loc v node x newer.
Definition create_rpc_guard (req : CreateVolumeRequest) (x : act) (h : history) : Prop :=
  exists capacity required limit, requestedCapacity d (CV_CapacityRange req) = Reply (capacity, required, limit)
    /\ create_guard sha256_hex a ctx (Build_VolumeSpec (CV_Name req) loc capacity) x h.
Definition expand_rpc_guard (req : ExpandRequest) (x : act) (h : history) : Prop :=
  exists v required limit, handle_names (ER_VolumeId req) v
    /\ expansionCapacity d (ER_CapacityRange req) = Reply (required, limit)
    /\ resize_guard a ctx loc v required x h.

Lemma volumeRef_names handle ref :
  volumeRef d handle = Reply ref -> handle_names handle (Ref_ID ref) /\ Ref_Location ref = loc.
Proof. apply volumeRef_ok. Qed.

Lemma delete_rpc_guarded handle :
  wp (on_mutation (delete_rpc_guard handle)) (link (DeleteVolume_rpc d (Some handle))) [] (fun _ _ => True).
Proof.
  unfold DeleteVolume_rpc. repeat link_step; try exact I. apply volumeRef_names in Heqr as [Hv ->].
  link_call. eapply wp_mono; [eapply on_mutation_mono; [apply DeleteVolume_guarded|]|].
  - intros x h Hx. by exists (Ref_ID a0).
  - intros r h _. by repeat link_step.
Qed.

Lemma unpublish_rpc_guarded handle node :
  wp (on_mutation (unpublish_rpc_guard handle node)) (link (ControllerUnpublishVolume d (Some (handle, node)))) [] (fun _ _ => True).
Proof.
  unfold ControllerUnpublishVolume. repeat link_step; try exact I. apply volumeRef_names in Heqr as [Hv ->].
  link_call. eapply wp_mono; [eapply on_mutation_mono; [apply DetachVolume_guarded|]|].
  - intros x h Hx. by exists (Ref_ID a0).
  - intros r h _. by repeat link_step.
Qed.

Lemma publish_rpc_guarded req :
  wp (on_mutation (publish_rpc_guard (PR_VolumeId req) (PR_NodeId req))) (link (ControllerPublishVolume d (Some req))) [] (fun _ _ => True).
Proof.
  unfold ControllerPublishVolume. repeat link_step; try exact I. apply volumeRef_names in Heqr as [Hv ->].
  link_call. unfold GetVolume. apply (wp_only _ reading); [solve [only_tac]|by intros; apply on_mutation_reading|].
  intros [vol|e] old Hold; [|done]. link_step. rewrite app_nil_r. link_call.
  eapply wp_mono; [eapply wp_guard_mono; [eapply (wp_prefix _ _ [] old), AttachVolume_guarded|]|].
  - intros x h (new & -> & Hx) Hm. exists (Ref_ID a0), new, old. split_and!; auto.
  - intros r h _. by repeat link_step.
Qed.

Lemma create_rpc_guarded req :
  wp (on_mutation (create_rpc_guard req)) (link (CreateVolume d (Some req))) [] (fun _ _ => True).
Proof.
  unfold CreateVolume. repeat link_step; try exact I.
  link_call. eapply wp_mono; [eapply on_mutation_mono; [apply EnsureVolume_guarded|]|].
  - intros x h Hx. unfold create_rpc_guard. eauto.
  - intros r h _. by repeat link_step.
Qed.

Lemma expand_rpc_guarded req :
  wp (on_mutation (expand_rpc_guard req)) (link (ControllerExpandVolume d (Some req))) [] (fun _ _ => True).
Proof.
  unfold ControllerExpandVolume. repeat link_step; try exact I.
  all: apply volumeRef_names in Heqr as [Hv ->].
  all: link_call; eapply wp_mono; [eapply on_mutation_mono; [apply ExpandVolume_guarded|]|intros r h _; by repeat link_step].
  all: intros x h Hx; unfold expand_rpc_guard; eauto 10.
Qed.

(** ** What the caller gets *)

(** The created volume: its handle names a disk in the location, its capacity is a whole number
    of GiB inside the requested range, and it is accessible from the location. *)
Definition create_reply (req : CreateVolumeRequest) (resp : CreateVolumeResponse) : Prop :=
  exists id size, ParseVolumeHandle (CVR_VolumeId resp) = Ok (Build_VolumeRef (ToLower loc) id)
    /\ CVR_CapacityBytes resp = size * gib /\ 0 < size
    /\ fst (default (0, 0) (CV_CapacityRange req)) <= CVR_CapacityBytes resp
    /\ (0 < snd (default (0, 0) (CV_CapacityRange req)) -> CVR_CapacityBytes resp <= snd (default (0, 0) (CV_CapacityRange req)))
    /\ CVR_Topology resp = [topology loc] /\ CVR_VolumeContext resp !! "location" = Some loc.

Lemma create_rpc_replies req :
  ensures (link (CreateVolume d (Some req))) (fun r _ => match r with Status _ => True | Reply resp => create_reply req resp end).
Proof.
  unfold CreateVolume, ensures. repeat link_step; try exact I. apply requestedCapacity_ok in Heqr0 as (Hr & _).
  link_call. eapply ensures_use; [apply EnsureVolume_spec|]. intros [v|e] new; [|done].
  intros (size & _ & (_ & Hl & Hc & _)). simpl in Hl. repeat link_step; try exact I. bool_hyps.
  exists (ToLower (Volume_ID v)), size. simpl. rewrite <-Hr. simpl. apply new_handle_parses in Heqr0. pose proof gib_pos.
  rewrite Hc in *. simpl in *. split_and!; try done; try nia.
  - by rewrite Heqr0, Hl.
  - by rewrite Hl.
  - by rewrite Hl, lookup_insert_eq.
Qed.

(** The new size covers what was asked for and stays within the limit. *)
Lemma expand_rpc_replies req :
  ensures (link (ControllerExpandVolume d (Some req))) (fun r _ =>
    match r with
    | Status _ => True
    | Reply (capacity, nodeExpansion) => nodeExpansion = true /\ exists required limit,
        ER_CapacityRange req = Some (required, limit)
        /\ required <= capacity /\ (0 < limit -> capacity <= limit) /\ 0 < capacity
    end).
Proof.
  unfold ControllerExpandVolume, ensures. repeat link_step; try exact I.
  all: apply expansionCapacity_ok in Heqr0 as (Hpos & _ & _ & _ & r & -> & Hq).
  all: link_call; apply wp_skip; intros [c|e] new; [|done]; repeat link_step; try exact I.
  all: bool_hyps; (split; [done|]); do 2 eexists; (split; [done|]).
  all: match goal with H : _ && _ = false |- _ => apply andb_false_iff in H as [?|?]; bool_hyps end.
  all: destruct (r =? 0) eqn:E; bool_hyps; split_and!; lia.
Qed.
End Handlers.
End Link.

(** ** Theorems *)

Section Theorems.
Context `{JT : JSONText} `{TT : TimeText} (sha256_hex : string -> string) (fuel : nat) (a : Adapter) (ctx : context) (d : Driver).

(** The whole controller, from the RPC to the InSpace API. A mutation that any controller RPC
    causes is the one mutation of its kind, on the volume the request's handle names in the driver's
    own location (or with the requested name and accepted capacity), with the authority that the
    adapter's method needs. *)
Theorem controller_authorized create handle publish node expand :
  dispatches (link sha256_hex fuel a ctx (CreateVolume d (Some create))) (on_mutation (create_rpc_guard sha256_hex a ctx d create))
  /\ dispatches (link sha256_hex fuel a ctx (DeleteVolume_rpc d (Some handle))) (on_mutation (delete_rpc_guard a ctx d handle))
  /\ dispatches (link sha256_hex fuel a ctx (ControllerPublishVolume d (Some publish)))
       (on_mutation (publish_rpc_guard a ctx d (PR_VolumeId publish) (PR_NodeId publish)))
  /\ dispatches (link sha256_hex fuel a ctx (ControllerUnpublishVolume d (Some (handle, node))))
       (on_mutation (unpublish_rpc_guard a ctx d handle node))
  /\ dispatches (link sha256_hex fuel a ctx (ControllerExpandVolume d (Some expand))) (on_mutation (expand_rpc_guard a ctx d expand)).
Proof.
  split_and!; eapply wp_dispatches; [apply create_rpc_guarded|apply delete_rpc_guarded|apply publish_rpc_guarded
    |apply unpublish_rpc_guarded|apply expand_rpc_guarded].
Qed.

(** What the controller promises for a new volume. A successful CreateVolume returns a handle
    that parses to a disk in the driver's location, a capacity that is a whole number of GiB within
    the requested range, and the location as topology and volume context. *)
Theorem CreateVolume_contract create :
  ensures (link sha256_hex fuel a ctx (CreateVolume d (Some create))) (fun r _ =>
    match r with Status _ => True | Reply resp => create_reply d create resp end).
Proof. apply create_rpc_replies. Qed.

(** A successful ControllerExpandVolume reports a capacity that covers the required bytes and
    stays within the limit, and asks for the node's part of the expansion. *)
Theorem ControllerExpandVolume_contract expand :
  ensures (link sha256_hex fuel a ctx (ControllerExpandVolume d (Some expand))) (fun r _ =>
    match r with
    | Status _ => True
    | Reply (capacity, nodeExpansion) => nodeExpansion = true /\ exists required limit,
        ER_CapacityRange expand = Some (required, limit)
        /\ required <= capacity /\ (0 < limit -> capacity <= limit) /\ 0 < capacity
    end).
Proof. apply expand_rpc_replies. Qed.
End Theorems.

Definition controller : Driver :=
  Build_Driver (Build_DriverConfig ModeController "csi.inspace.cloud" "dev" "bkk" "" (10 * gib) (2000 * gib) 0) true false.
Definition handle1 : string := "inspace://bkk/" +:+ disk1.
Definition rpc_run := run_method (link no_hash enough_fuel adapter request (DeleteVolume_rpc controller (Some handle1)))
  (cluster [make_disk disk1 "pvc-1" 10 7] []).

(** The DeleteVolume RPC against the reference cloud succeeds and deletes the named disk. *)
Lemma controller_authorized_witness :
  rpc_run.1.1 = Some (Reply tt)
  /\ exists newer r older, rpc_run.2 = newer ++ Ev (DeleteDisk request "bkk" disk1) r :: older
    /\ delete_rpc_guard adapter request controller handle1 (DeleteDisk request "bkk" disk1) older.
Proof.
  split; [vm_compute; reflexivity|].
  destruct (found_split is_mutation rpc_run.2 (DeleteDisk request "bkk" disk1)) as (newer & r & older & Hh); [vm_compute; reflexivity|].
  exists newer, r, older. split; [exact Hh|].
  exact (proj1 (proj2 (controller_authorized no_hash enough_fuel adapter request controller
    (Build_CreateVolumeRequest "" false ∅ ∅ [] None None) handle1 (Build_PublishRequest "" "" None) "" (Build_ExpandRequest "" None None "" "")))
    _ _ newer _ r older (run_hist_exec _ _ _ _) Hh eq_refl).
Defined.
