(* ===== verification/KubernetesFence.v ===== *)
(** * The durable fence store on Kubernetes Leases

    Models modules/csi-driver/pkg/cloud/inspace/kubernetes_fence.go. A call of the Kubernetes API is
    one action that answers with a status, a body and an error ([kubernetesAPIRequestWithLimit]:
    the HTTP transport, the token file and the size limits are the environment's). Bodies are JSON
    text; what is decoded from them is checked and converted as the source does. *)

From S2P Require Import Prelude GoErrors CSIFence Prog CSIAdapter.

(** ** Leases *)

(** [kubernetesLease]. A nil map is the empty one: the source writes to a map only after it read a
    non-empty value from it. *)
Record kubernetesLease := {
  L_APIVersion : string; L_Kind : string; L_Name : string; L_Namespace : string; L_UID : string;
  L_ResourceVersion : string; L_Labels : gmap string string; L_Annotations : gmap string string;
  L_HolderIdentity : string; L_LeaseDurationSeconds : Z
}.
Definition zero_lease : kubernetesLease := Build_kubernetesLease "" "" "" "" "" "" ∅ ∅ "" 0.

Definition managedLabel : string := "storage.inspace.cloud/mutation-fence".
Definition keyAnnotation : string := "storage.inspace.cloud/fence-key".
Definition intentAnnotation : string := "storage.inspace.cloud/fence-intent".
Definition attemptAnnotation : string := "storage.inspace.cloud/fence-attempt".
Definition receiptAnnotation : string := "storage.inspace.cloud/fence-receipt".
Definition observationAnnotation : string := "storage.inspace.cloud/fence-observation".
Definition maxKubernetesLeaseListItems : nat := 4096.

(** [m[key]]. *)
Definition annotation (m : gmap string string) (key : string) : string := default "" (m !! key).

Definition set_annotations (l : kubernetesLease) (m : gmap string string) : kubernetesLease :=
  Build_kubernetesLease (L_APIVersion l) (L_Kind l) (L_Name l) (L_Namespace l) (L_UID l) (L_ResourceVersion l)
    (L_Labels l) m (L_HolderIdentity l) (L_LeaseDurationSeconds l).

Section Fence.
Context `{JT : JSONText} `{TT : TimeText}.
(** [hex.EncodeToString(sum[:20])] of the SHA-256 sum. *)
Context (sha256_hex20 : string -> string).

Definition mutationFenceLeaseName (key : string) : string := "inspace-csi-" +:+ sha256_hex20 key.

Definition validateMutationFence (fence : mutationFence) : goerr :=
  if (Key fence == "") || (Intent fence == "") || (Attempt fence == "") then Some (Msg "CSI mutation fence is incomplete")
  else if negb (Nat.eqb (String.length (Attempt fence)) 32) then Some (Msg "CSI mutation fence attempt token is invalid")
  else if negb (all_chars is_hex (Attempt fence)) then Some (Msg "CSI mutation fence attempt token is invalid")
  else if (Receipt fence != "") && negb (uuidPattern (ToLower (Receipt fence))) then Some (Msg "CSI mutation fence receipt is invalid")
  else if Observation fence != "" then
    match decodeMutationObservation (Observation fence) with Err e => Some e | Ok _ => None end
  else None.

Definition mutationFenceLease (fence : mutationFence) (namespace : string) : kubernetesLease :=
  let annotations := <[keyAnnotation := Key fence]> (<[intentAnnotation := Intent fence]> {[attemptAnnotation := Attempt fence]}) in
  let annotations := if Receipt fence != "" then <[receiptAnnotation := Receipt fence]> annotations else annotations in
  let annotations := if Observation fence != "" then <[observationAnnotation := Observation fence]> annotations else annotations in
  Build_kubernetesLease "coordination.k8s.io/v1" "Lease" (mutationFenceLeaseName (Key fence)) namespace "" ""
    {[managedLabel := "true"]} annotations (Attempt fence) 0.

Definition mutationFenceFromLease (lease : kubernetesLease) : result mutationFence :=
  if annotation (L_Labels lease) managedLabel != "true" then Err (Msg "refusing foreign Kubernetes Lease at CSI mutation fence name")
  else
    let fence := Build_mutationFence (annotation (L_Annotations lease) keyAnnotation) (annotation (L_Annotations lease) intentAnnotation)
      (annotation (L_Annotations lease) attemptAnnotation) (ToLower (annotation (L_Annotations lease) receiptAnnotation))
      (annotation (L_Annotations lease) observationAnnotation) in
    check! validateMutationFence fence in
    if (L_HolderIdentity lease != "") && (L_HolderIdentity lease != Attempt fence)
    then Err (Msg "CSI mutation Lease holder identity does not match its attempt token")
    else Ok fence.

(** ** JSON *)

(** [validateUniqueJSONValue]: no object repeats a key. *)
Fixpoint unique_json (j : json) : bool :=
  match j with
  | JArr l => forallb unique_json l
  | JObj fields => bool_decide (NoDup (map fst fields)) && forallb (fun kv => unique_json kv.2) fields
  | _ => true
  end.

(** [decodeSchemaObject]: an object whose keys spell the schema's fields exactly. *)
Definition decodeSchemaObject (j : json) (fields : list string) : result (list (string * json)) :=
  match j with
  | JObj kvs =>
      if forallb (fun kv => forallb (fun field => negb (EqualFold kv.1 field) || (kv.1 == field)) fields) kvs
      then Ok kvs
      else Err (Msg "non-canonical JSON schema field")
  | _ => Err (Msg "expected a non-null JSON object")
  end.

Definition field (kvs : list (string * json)) (key : string) : option json :=
  option_map snd (List.find (fun kv => kv.1 == key) kvs).

Definition validateKubernetesLeaseObject (j : json) : goerr :=
  match decodeSchemaObject j ["apiVersion"; "kind"; "metadata"; "spec"] with
  | Err e => Some e
  | Ok object =>
    match field object "metadata" with
    | None => Some (Msg "Kubernetes Lease response is missing metadata")
    | Some metadata =>
      match decodeSchemaObject metadata ["name"; "namespace"; "uid"; "resourceVersion"; "labels"; "annotations"] with
      | Err e => Some (Wrap "Lease metadata" [e])
      | Ok _ =>
        match field object "spec" with
        | None => None
        | Some spec =>
          match decodeSchemaObject spec ["holderIdentity"; "leaseDurationSeconds"] with
          | Err e => Some (Wrap "Lease spec" [e])
          | Ok _ => None
          end
        end
      end
    end
  end.

Fixpoint validateKubernetesLeaseListItems (index : nat) (items : list json) : goerr :=
  match items with
  | [] => None
  | item :: rest =>
      if Nat.leb maxKubernetesLeaseListItems index then Some (Msg "Kubernetes Lease list exceeds its limit")
      else guard! validateKubernetesLeaseObject item in validateKubernetesLeaseListItems (S index) rest
  end.

(** [json.Unmarshal] into [map[string]string]. *)
Fixpoint set_map (m : gmap string string) (fields : list (string * json)) : result (gmap string string) :=
  match fields with
  | [] => Ok m
  | (k, JStr v) :: r => set_map (<[k := v]> m) r
  | (k, JNull) :: r => set_map (<[k := ""]> m) r
  | _ => Err (Msg "json: cannot unmarshal into Go value of type string")
  end.
Definition set_string_map (put : gmap string string -> kubernetesLease) (old : gmap string string) (v : json) : result kubernetesLease :=
  match v with
  | JNull => Ok (put ∅)
  | JObj fields => result_map put (set_map old fields)
  | _ => Err (Msg "json: cannot unmarshal into Go struct field of type map[string]string")
  end.

Definition metadata_setter : field_setter kubernetesLease := fun l key v =>
  let 'Build_kubernetesLease av kd nm ns uid rv lb an hi ld := l in
  if EqualFold key "name" then Some (set_string (fun s => Build_kubernetesLease av kd s ns uid rv lb an hi ld) l v)
  else if EqualFold key "namespace" then Some (set_string (fun s => Build_kubernetesLease av kd nm s uid rv lb an hi ld) l v)
  else if EqualFold key "uid" then Some (set_string (fun s => Build_kubernetesLease av kd nm ns s rv lb an hi ld) l v)
  else if EqualFold key "resourceVersion" then Some (set_string (fun s => Build_kubernetesLease av kd nm ns uid s lb an hi ld) l v)
  else if EqualFold key "labels" then Some (set_string_map (fun m => Build_kubernetesLease av kd nm ns uid rv m an hi ld) lb v)
  else if EqualFold key "annotations" then Some (set_string_map (fun m => Build_kubernetesLease av kd nm ns uid rv lb m hi ld) an v)
  else None.

(** [int32] field. *)
Definition set_int32 {A} (put : Z -> A) (old : A) (v : json) : result A :=
  match v with
  | JInt z => if (-2147483648 <=? z) && (z <=? 2147483647) then Ok (put z) else Err (Msg "json: number out of range")
  | JNull => Ok old
  | _ => Err (Msg "json: cannot unmarshal into Go struct field of type int32")
  end.
Definition spec_setter : field_setter kubernetesLease := fun l key v =>
  let 'Build_kubernetesLease av kd nm ns uid rv lb an hi ld := l in
  if EqualFold key "holderIdentity" then Some (set_string (fun s => Build_kubernetesLease av kd nm ns uid rv lb an s ld) l v)
  else if EqualFold key "leaseDurationSeconds" then Some (set_int32 (fun z => Build_kubernetesLease av kd nm ns uid rv lb an hi z) l v)
  else None.

Definition lease_setter : field_setter kubernetesLease := fun l key v =>
  let 'Build_kubernetesLease av kd nm ns uid rv lb an hi ld := l in
  if EqualFold key "apiVersion" then Some (set_string (fun s => Build_kubernetesLease s kd nm ns uid rv lb an hi ld) l v)
  else if EqualFold key "kind" then Some (set_string (fun s => Build_kubernetesLease av s nm ns uid rv lb an hi ld) l v)
  else if EqualFold key "metadata" then Some (unmarshal_struct false metadata_setter l v)
  else if EqualFold key "spec" then Some (unmarshal_struct false spec_setter l v)
  else None.

(** Syntax, unique keys, the whole text, the exact schema, then [json.Unmarshal]. *)
Definition decodeMutationLease (data : string) : result kubernetesLease :=
  let decoded :=
    match parse_json data with
    | None => Err (Msg "invalid JSON")
    | Some j =>
        if negb (unique_json j) then Err (Msg "duplicate JSON object key")
        else check! validateKubernetesLeaseObject j in unmarshal_struct false lease_setter zero_lease j
    end in
  match decoded with Ok l => Ok l | Err _ => Err (wrapS ErrUnavailable "decode Kubernetes mutation Lease") end.

Fixpoint unmarshal_items (items : list json) : result (list kubernetesLease) :=
  match items with
  | [] => Ok []
  | j :: r => try! l := unmarshal_struct false lease_setter zero_lease j in try! rest := unmarshal_items r in Ok (l :: rest)
  end.

Definition decodeMutationLeaseList (data : string) : result (list kubernetesLease) :=
  let decoded :=
    match parse_json data with
    | None => Err (Msg "invalid JSON")
    | Some j =>
        if negb (unique_json j) then Err (Msg "duplicate JSON object key")
        else try! object := decodeSchemaObject j ["items"] in
        match field object "items" with
        | None => Err (Msg "Kubernetes Lease list response is missing items")
        | Some (JArr items) => check! validateKubernetesLeaseListItems 0 items in unmarshal_items items
        | Some _ => Err (Msg "Kubernetes Lease list items must be a non-null JSON array")
        end
    end in
  match decoded with Ok l => Ok l | Err _ => Err (wrapS ErrUnavailable "decode Kubernetes mutation Lease list") end.

(** [json.Marshal] of a lease; maps are written in key order. *)
Fixpoint insert_pair (x : string * json) (l : list (string * json)) : list (string * json) :=
  match l with [] => [x] | y :: r => if String.leb x.1 y.1 then x :: l else y :: insert_pair x r end.
Definition map_json (m : gmap string string) : json :=
  JObj (foldr insert_pair [] (map (fun kv => (kv.1, JStr kv.2)) (map_to_list m))).
Definition omit_map (name : string) (m : gmap string string) : list (string * json) :=
  if bool_decide (m = ∅) then [] else [(name, map_json m)].
Definition marshal_lease (l : kubernetesLease) : json :=
  JObj (omitempty "apiVersion" (L_APIVersion l) ++ omitempty "kind" (L_Kind l)
    ++ [("metadata", JObj ([("name", JStr (L_Name l))] ++ omitempty "namespace" (L_Namespace l) ++ omitempty "uid" (L_UID l)
           ++ omitempty "resourceVersion" (L_ResourceVersion l) ++ omit_map "labels" (L_Labels l) ++ omit_map "annotations" (L_Annotations l)));
        ("spec", JObj (omitempty "holderIdentity" (L_HolderIdentity l)
           ++ if L_LeaseDurationSeconds l =? 0 then [] else [("leaseDurationSeconds", JInt (L_LeaseDurationSeconds l))]))]).
End Fence.

(** ** The Kubernetes API *)

Inductive kact :=
  | KRequest (ctx : context) (method path : string) (body : option json)
  | KNow.
Definition kres (x : kact) : Type :=
  match x with
  | KRequest _ _ _ _ => Z * string * goerr   (* status, body, error *)
  | KNow => Z
  end.
Abbreviation kprogram := (prog kres).
Abbreviation khistory := (list (event kres)).

(** [url.PathEscape]. *)
Fixpoint PathEscape (s : string) : string :=
  match s with
  | EmptyString => ""
  | String c r =>
      if is_alnum_lower c || is_upper c || ContainsChar c "-_.~$&+=:@" then String c (PathEscape r)
      else
        let hex (n : nat) := ascii_of_nat (if Nat.ltb n 10 then 48 + n else 55 + n) in
        String "%" (String (hex (Nat.div (code c) 16)) (String (hex (Nat.modulo (code c) 16)) (PathEscape r)))
  end.

Definition success (status : Z) : bool := (200 <=? status) && (status <? 300).
Definition ambiguousKubernetesMutationStatus (status : Z) : bool :=
  (status =? 408) || (status =? 429) || (500 <=? status) || (status =? 0).

Definition kubernetesFenceStatusError (status : Z) : goerr :=
  if (status =? 0) || (status =? 404) || success status then None
  else if ambiguousKubernetesMutationStatus status then Some (wrapS ErrUnavailable "Kubernetes mutation Lease request failed")
  else Some (Msg "Kubernetes mutation Lease request failed").

(** [return nil, err]: a nil result with an error that may be nil itself. *)
Definition nil_with {A} (none : A) (err : goerr) : result A :=
  match err with Some e => Err e | None => Ok none end.

Section Store.
Context `{JT : JSONText} `{TT : TimeText} (sha256_hex20 : string -> string) (namespace : string).

Definition mutationLeaseCollectionPath : string :=
  "/apis/coordination.k8s.io/v1/namespaces/" +:+ PathEscape namespace +:+ "/leases".
Definition mutationLeasePath (name : string) : string := mutationLeaseCollectionPath +:+ "/" +:+ PathEscape name.

Definition readbackContext : kprogram context :=
  let! now := call KNow in Ret (Build_context (Some (now + 15 * second)) true).

(** The lease (zero unless the status is a success) and the status. *)
Definition getMutationLease (ctx : context) (name : string) : kprogram (result (kubernetesLease * Z)) :=
  let! '(status, data, err) := call (KRequest ctx "GET" (mutationLeasePath name) None) in
  match err with
  | Some e => Ret (Err e)
  | None =>
      if negb (success status) then Ret (Ok (zero_lease, status))
      else match decodeMutationLease data with Err e => Ret (Err e) | Ok lease => Ret (Ok (lease, status)) end
  end.

Definition Get (ctx : context) (key : string) : kprogram (result (option mutationFence)) :=
  if key == "" then Ret (Err (Msg "CSI mutation fence key is required"))
  else
  try_let! '(lease, status) := getMutationLease ctx (mutationFenceLeaseName sha256_hex20 key) in
  if status =? 404 then Ret (Ok None)
  else if negb (success status) then Ret (nil_with None (kubernetesFenceStatusError status))
  else match mutationFenceFromLease lease with
  | Err e => Ret (Err e)
  | Ok fence =>
      if Key fence != key then Ret (Err (Msg "CSI mutation Lease hash collision or foreign fence identity"))
      else Ret (Ok (Some fence))
  end.

(** The loop of [List]: convert, reject duplicates, filter. *)
Fixpoint listFences (prefix : string) (seen : gset string) (items : list kubernetesLease) (acc : list mutationFence) : result (list mutationFence) :=
  match items with
  | [] => Ok acc
  | lease :: rest =>
      try! fence := mutationFenceFromLease lease in
      if bool_decide (Key fence ∈ seen) then Err (Msg "CSI mutation Lease list contains duplicate key")
      else listFences prefix ({[Key fence]} ∪ seen) rest (if HasPrefix (Key fence) prefix then acc ++ [fence] else acc)
  end.

Definition List_ (ctx : context) (prefix : string) : kprogram (result (list mutationFence)) :=
  let! '(status, data, err) := call (KRequest ctx "GET"
    (mutationLeaseCollectionPath +:+ "?labelSelector=storage.inspace.cloud%2Fmutation-fence%3Dtrue") None) in
  match err with
  | Some e => Ret (Err e)
  | None =>
      if negb (success status) then Ret (nil_with [] (kubernetesFenceStatusError status))
      else match decodeMutationLeaseList data with
      | Err e => Ret (Err e)
      | Ok items => Ret (result_map (foldr MemoryStore.insert_by_key []) (listFences prefix ∅ items []))
      end
  end.

(** The pointer to a fence and whether this caller acquired it. [kubernetesFenceStatusError] is nil for a 404, so a
    POST that is answered 404 gives neither a fence nor an error. *)
Definition Create (ctx : context) (candidate : mutationFence) : kprogram (result (option mutationFence * bool)) :=
  match validateMutationFence candidate with
  | Some e => Ret (Err e)
  | None =>
    let! '(status, data, requestErr) := call (KRequest ctx "POST" mutationLeaseCollectionPath
      (Some (marshal_lease (mutationFenceLease sha256_hex20 candidate namespace)))) in
    if (requestErr == None) && success status then
      match decodeMutationLease data with
      | Err e => Ret (Err e)
      | Ok stored =>
        match mutationFenceFromLease stored with
        | Err e => Ret (Err e)
        | Ok fence =>
            if fence != candidate then Ret (Err (Msg "Kubernetes API changed the CSI mutation fence during creation"))
            else Ret (Ok (Some fence, true))
        end
      end
    else if (requestErr == None) && negb (status =? 409) && negb (ambiguousKubernetesMutationStatus status)
    then Ret (nil_with (None, false) (kubernetesFenceStatusError status))
    else
      let! readbackCtx := readbackContext in
      let! current := Get readbackCtx (Key candidate) in
      match current with
      | Err e => Ret (nil_with (None, false) (Join [requestErr; kubernetesFenceStatusError status; Some e]))
      | Ok None => Ret (nil_with (None, false) (Join [requestErr; kubernetesFenceStatusError status; Some (Msg "CSI mutation Lease create outcome is not visible")]))
      | Ok (Some current) =>
          Ret (Ok (Some current, (Intent current == Intent candidate) && (Attempt current == Attempt candidate) && (Receipt current == Receipt candidate)))
      end
  end.

(** What the [GET] before a write finds: no lease, a status without one (its error may be nil), or the fence that the
    lease carries. *)
Inductive found_lease :=
  | LeaseGone
  | LeaseRefused (err : goerr)
  | LeaseFound (lease : kubernetesLease) (current : mutationFence).
Definition currentFence (ctx : context) (fence : mutationFence) : kprogram found_lease :=
  let! got := getMutationLease ctx (mutationFenceLeaseName sha256_hex20 (Key fence)) in
  Ret match got with
  | Err e => LeaseRefused (Some e)
  | Ok (lease, status) =>
      if status =? 404 then LeaseGone
      else if negb (success status) then LeaseRefused (kubernetesFenceStatusError status)
      else match mutationFenceFromLease lease with
      | Err e => LeaseRefused (Some e)
      | Ok current => LeaseFound lease current
      end
  end.

(** A [PUT] of the whole lease: its resource version makes it conditional. *)
Definition putLease (ctx : context) (fence : mutationFence) (lease : kubernetesLease) : kprogram (Z * string * goerr) :=
  call (KRequest ctx "PUT" (mutationLeasePath (mutationFenceLeaseName sha256_hex20 (Key fence))) (Some (marshal_lease lease))).

(** An answer that leaves the outcome of the [PUT] open. *)
Definition openOutcome (status : Z) (requestErr : goerr) : bool :=
  negb (requestErr == None) || ambiguousKubernetesMutationStatus status || (status =? 409).

(** As in [Create], a PUT that is answered 404 gives neither a fence nor an error. *)
Definition SetReceipt (ctx : context) (fence : mutationFence) (receipt : string) : kprogram (result (option mutationFence)) :=
  match validateMutationFence fence with
  | Some e => Ret (Err e)
  | None =>
    if negb (uuidPattern (ToLower receipt)) then Ret (Err (Msg "CSI mutation receipt is not a valid UUID"))
    else
    let! found := currentFence ctx fence in
    match found with
    | LeaseGone => Ret (Err (Msg "CSI mutation Lease disappeared before receipt persistence"))
    | LeaseRefused err => Ret (nil_with None err)
    | LeaseFound lease current =>
      if negb (sameMutationFenceState current fence) then Ret (Err (Msg "CSI mutation Lease changed before receipt persistence"))
      else if (Receipt current != "") && EqualFold (Receipt current) receipt then Ret (Ok (Some current))
      else
      let lease := set_annotations lease (<[receiptAnnotation := ToLower receipt]> (L_Annotations lease)) in
      let! '(status, data, requestErr) := putLease ctx fence lease in
      if (requestErr == None) && success status then
        match decodeMutationLease data with
        | Err e => Ret (Err e)
        | Ok storedLease =>
          match mutationFenceFromLease storedLease with
          | Err e => Ret (Err e)
          | Ok stored =>
              if (Key stored != Key fence) || (Intent stored != Intent fence) || (Attempt stored != Attempt fence)
                 || (Observation stored != Observation fence) || negb (EqualFold (Receipt stored) receipt)
              then Ret (Err (Msg "Kubernetes API returned a mismatched CSI mutation receipt"))
              else Ret (Ok (Some stored))
          end
        end
      else if negb (openOutcome status requestErr) then Ret (nil_with None (kubernetesFenceStatusError status))
      else
        let! readbackCtx := readbackContext in
        let! readback := Get readbackCtx (Key fence) in
        match readback with
        | Ok (Some r) =>
            if (Intent r == Intent fence) && (Attempt r == Attempt fence) && (Observation r == Observation fence) && EqualFold (Receipt r) receipt
            then Ret (Ok (Some r))
            else Ret (nil_with None (Join [requestErr; kubernetesFenceStatusError status]))
        | Ok None => Ret (nil_with None (Join [requestErr; kubernetesFenceStatusError status]))
        | Err e => Ret (nil_with None (Join [requestErr; kubernetesFenceStatusError status; Some e]))
        end
    end
  end.

Definition SetObservation (ctx : context) (fence : mutationFence) (observation : string) : kprogram (result (option mutationFence)) :=
  match validateMutationFence fence with
  | Some e => Ret (Err e)
  | None =>
    match (if observation == "" then None else match decodeMutationObservation observation with Err e => Some e | Ok _ => None end) with
    | Some e => Ret (Err e)
    | None =>
      let! found := currentFence ctx fence in
      match found with
      | LeaseGone => Ret (Err (wrapS ErrMutationFenceChanged "CSI mutation Lease disappeared before observation persistence"))
      | LeaseRefused err => Ret (nil_with None err)
      | LeaseFound lease current =>
        if (Observation current == observation) && sameMutationFenceAuthority current fence then Ret (Ok (Some current))
        else if negb (sameMutationFenceState current fence) then Ret (Err (wrapS ErrMutationFenceChanged "before observation persistence"))
        else
        let annotations := if observation == "" then delete observationAnnotation (L_Annotations lease)
                           else <[observationAnnotation := observation]> (L_Annotations lease) in
        let! '(status, data, requestErr) := putLease ctx fence (set_annotations lease annotations) in
        if (requestErr == None) && success status then
          match decodeMutationLease data with
          | Err e => Ret (Err e)
          | Ok storedLease =>
            match mutationFenceFromLease storedLease with
            | Err e => Ret (Err e)
            | Ok stored =>
                if negb (sameMutationFenceAuthority stored fence) || (Observation stored != observation)
                then Ret (Err (Msg "Kubernetes API returned a mismatched CSI mutation observation"))
                else Ret (Ok (Some stored))
            end
          end
        else if negb (openOutcome status requestErr) then Ret (nil_with None (kubernetesFenceStatusError status))
        else
          let! readbackCtx := readbackContext in
          let! readback := Get readbackCtx (Key fence) in
          match readback with
          | Ok (Some r) =>
              if sameMutationFenceAuthority r fence then
                if Observation r == observation then Ret (Ok (Some r)) else Ret (Err (wrapS ErrMutationFenceChanged "during observation persistence"))
              else Ret (nil_with None (Join [requestErr; kubernetesFenceStatusError status]))
          | Ok None => Ret (nil_with None (Join [requestErr; kubernetesFenceStatusError status]))
          | Err e => Ret (nil_with None (Join [requestErr; kubernetesFenceStatusError status; Some e]))
          end
      end
    end
  end.

(** The preconditions of the [DELETE]. *)
Definition deleteOptions (lease : kubernetesLease) : json :=
  JObj [("apiVersion", JStr "v1"); ("kind", JStr "DeleteOptions");
        ("preconditions", JObj (omitempty "uid" (L_UID lease) ++ omitempty "resourceVersion" (L_ResourceVersion lease)))].

Definition Delete (ctx : context) (fence : mutationFence) : kprogram goerr :=
  match validateMutationFence fence with
  | Some e => Ret (Some e)
  | None =>
    let! found := currentFence ctx fence in
    match found with
    | LeaseGone => Ret None
    | LeaseRefused err => Ret err
    | LeaseFound lease current =>
      if negb (sameMutationFenceState current fence) then Ret (Some (Msg "CSI mutation Lease changed before completion"))
      else
      let! '(deleteStatus, _, deleteErr) := call (KRequest ctx "DELETE"
        (mutationLeasePath (mutationFenceLeaseName sha256_hex20 (Key fence))) (Some (deleteOptions lease))) in
      if (deleteErr == None) && negb (deleteStatus =? 404) && negb (success deleteStatus) && negb (ambiguousKubernetesMutationStatus deleteStatus)
      then Ret (kubernetesFenceStatusError deleteStatus)
      else
        let! readbackCtx := readbackContext in
        let! remaining := Get readbackCtx (Key fence) in
        match remaining with
        | Ok None => Ret None
        | Ok (Some _) => Ret (Join [deleteErr; kubernetesFenceStatusError deleteStatus; Some (Msg "CSI mutation Lease completion is not yet visible")])
        | Err e => Ret (Join [deleteErr; kubernetesFenceStatusError deleteStatus; Some e; Some (Msg "CSI mutation Lease completion is not yet visible")])
        end
    end
  end.
End Store.
