(* ===== verification/KubernetesFenceSpec.v ===== *)
(** * Properties of the Lease fence store

    The fence of a Lease is the one written to it; acquisition is granted only to the caller's own attempt; and every
    update or deletion is conditional on the version of the Lease whose fence was compared. *)

From S2P Require Import Prelude GoErrors CSIFence Prog CSIAdapter KubernetesFence CSISpecs CSIWorld.

Section Spec.
Context `{JT : JSONText} `{TT : TimeText} (sha256_hex20 : string -> string) (namespace : string).

(** ** Fences and Leases *)

Lemma annotation_insert m k k' v :
  annotation (<[k := v]> m) k' = if decide (k = k') then v else annotation m k'.
Proof. unfold annotation. case_decide; subst; by rewrite ?lookup_insert_eq, ?lookup_insert_ne. Qed.

Lemma annotation_delete m k k' :
  annotation (delete k m) k' = if decide (k = k') then "" else annotation m k'.
Proof. unfold annotation. case_decide; subst; by rewrite ?lookup_delete_eq, ?lookup_delete_ne. Qed.

Lemma annotation_singleton k k' v : annotation {[k := v]} k' = if decide (k = k') then v else "".
Proof. unfold annotation. case_decide; subst; by rewrite ?lookup_singleton_eq, ?lookup_singleton_ne. Qed.

Lemma validate_lower f :
  validateMutationFence f = None -> validateMutationFence (set_Receipt f (ToLower (Receipt f))) = None.
Proof.
  unfold validateMutationFence; simpl. rewrite ToLower_idem.
  destruct (decide (Receipt f = "")) as [E|E]; [by rewrite E|].
  rewrite !(bool_decide_eq_false_2 (Receipt f = "")) by done.
  rewrite !(bool_decide_eq_false_2 (ToLower (Receipt f) = "")) by (by rewrite ToLower_nil_iff). done.
Qed.

Ltac lookups := repeat (rewrite annotation_insert || rewrite annotation_singleton); simpl.

Lemma lease_annotations f :
  let m := L_Annotations (mutationFenceLease sha256_hex20 f namespace) in
  annotation m keyAnnotation = Key f /\ annotation m intentAnnotation = Intent f
  /\ annotation m attemptAnnotation = Attempt f /\ annotation m receiptAnnotation = Receipt f
  /\ annotation m observationAnnotation = Observation f.
Proof.
  unfold mutationFenceLease; simpl. destruct (decide (Receipt f = "")) as [Er|Er]; destruct (decide (Observation f = "")) as [Eo|Eo];
    rewrite ?(bool_decide_eq_true_2 (Receipt f = "")), ?(bool_decide_eq_false_2 (Receipt f = "")) by done;
    rewrite ?(bool_decide_eq_true_2 (Observation f = "")), ?(bool_decide_eq_false_2 (Observation f = "")) by done;
    simpl; split_and!; lookups; congruence.
Qed.

Lemma fence_of_lease f :
  validateMutationFence f = None ->
  mutationFenceFromLease (mutationFenceLease sha256_hex20 f namespace) = Ok (set_Receipt f (ToLower (Receipt f))).
Proof.
  intros Hv. unfold mutationFenceFromLease.
  destruct (lease_annotations f) as (-> & -> & -> & -> & ->).
  assert (annotation (L_Labels (mutationFenceLease sha256_hex20 f namespace)) managedLabel = "true") as -> by (unfold mutationFenceLease; simpl; by lookups).
  simpl. change (Build_mutationFence (Key f) (Intent f) (Attempt f) (ToLower (Receipt f)) (Observation f)) with (set_Receipt f (ToLower (Receipt f))).
  rewrite validate_lower by done. by rewrite (bool_decide_eq_true_2 (Attempt f = Attempt f)), andb_false_r.
Qed.

(** ** Reads *)

(** A successful answer of the API that carries the lease. *)
Definition answered (lease : kubernetesLease) (reply : Z * string * goerr) : Prop :=
  let '(status, data, err) := reply in err = None /\ success status = true /\ decodeMutationLease data = Ok lease.

(** The history ends with a read of the fence's Lease that showed [f]. *)
Definition read_fence (key : string) (f : mutationFence) (h : khistory) : Prop :=
  exists ctx lease reply older,
    h = Ev (KRequest ctx "GET" (mutationLeasePath namespace (mutationFenceLeaseName sha256_hex20 key)) None) reply :: older
    /\ answered lease reply /\ mutationFenceFromLease lease = Ok f.

Lemma from_lease_valid lease f : mutationFenceFromLease lease = Ok f -> validateMutationFence f = None.
Proof.
  unfold mutationFenceFromLease. intros H. case_test_in H; [done|].
  destruct (validateMutationFence _) eqn:E; [done|]. case_test_in H; [done|]. by injection H as <-.
Qed.

Lemma Get_spec ctx key :
  ensures (Get sha256_hex20 namespace ctx key) (fun r h =>
    match r with Ok (Some f) => Key f = key /\ read_fence key f h | _ => True end).
Proof.
  unfold Get, getMutationLease, ensures. repeat (wp_step; try done); [by destruct (kubernetesFenceStatusError _)|].
  bool_hyps. split; [done|]. unfold read_fence, answered. do 4 eexists. by split_and!.
Qed.

(** ** Acquisition *)

Lemma attempt_of_parts f g :
  Key f = Key g -> (Intent f == Intent g) && (Attempt f == Attempt g) && (Receipt f == Receipt g) = true ->
  sameMutationFenceAttempt f g = true.
Proof.
  intros Hk H. bool_hyps. unfold sameMutationFenceAttempt. by rewrite !bool_decide_eq_true_2.
Qed.

Lemma Create_spec ctx candidate :
  ensures (Create sha256_hex20 namespace ctx candidate) (fun r h =>
    match r with
    | Ok (Some f, acquired) => Key f = Key candidate /\ validateMutationFence f = None
        /\ (acquired = true -> sameMutationFenceAttempt f candidate = true)
        /\ (acquired = false -> read_fence (Key candidate) f h)
    | Ok (None, acquired) => acquired = false
    | Err _ => True
    end).
Proof.
  unfold Create, readbackContext, ensures. repeat (wp_step; try done).
  - bool_hyps. subst. split_and!; try done. intros _. apply same_attempt_refl.
  - by destruct (kubernetesFenceStatusError _).
  - eapply ensures_use; [apply Get_spec|]. intros [[f|]|e] new Hf; [|by simpl; destruct (Join _)..]. destruct Hf as [Hk Hr].
    wp_step. split; [done|]. destruct Hr as (c & lease & reply & older & -> & Ha & Hl). split_and!.
    + by eapply from_lease_valid.
    + by apply attempt_of_parts.
    + intros _. unfold read_fence. simpl. eauto 10.
Qed.

(** ** Conditional writes *)

(** A PUT or DELETE of the fence's Lease is preceded by the read that showed the expected fence,
    and carries that Lease's UID and resource version. *)
Definition conditional (fence : mutationFence) (x : kact) (h : khistory) : Prop :=
  match x with
  | KRequest ctx method path (Some body) =>
      exists lease current reply older,
        path = mutationLeasePath namespace (mutationFenceLeaseName sha256_hex20 (Key fence))
        /\ h = Ev (KRequest ctx "GET" path None) reply :: older
        /\ answered lease reply /\ mutationFenceFromLease lease = Ok current
        /\ sameMutationFenceState current fence = true
        /\ ((method = "PUT" /\ exists annotations, body = marshal_lease (set_annotations lease annotations))
            \/ (method = "DELETE" /\ body = deleteOptions lease))
  | _ => True
  end.

Definition unconditional (x : kact) : Prop :=
  match x with KRequest _ _ _ (Some _) => False | _ => True end.

Lemma Get_unconditional ctx key : only unconditional (Get sha256_hex20 namespace ctx key).
Proof. unfold Get, getMutationLease. only_tac. Qed.

Lemma currentFence_unconditional ctx f : only unconditional (currentFence sha256_hex20 namespace ctx f).
Proof. unfold currentFence, getMutationLease. only_tac. Qed.

Lemma currentFence_spec ctx f :
  ensures (currentFence sha256_hex20 namespace ctx f) (fun r h =>
    match r with
    | LeaseFound lease current => mutationFenceFromLease lease = Ok current /\ exists reply,
        h = [Ev (KRequest ctx "GET" (mutationLeasePath namespace (mutationFenceLeaseName sha256_hex20 (Key f))) None) reply]
        /\ answered lease reply
    | _ => True
    end).
Proof.
  unfold currentFence, getMutationLease, ensures. repeat (wp_step; try done);
    (destruct (_ =? 404); [done|]); (destruct (success _) eqn:Hs; [|done]); (destruct (mutationFenceFromLease _) eqn:Hl; [|done]); [done|].
  split; [done|]. eexists. split; [done|]. unfold answered. by bool_hyps.
Qed.

Lemma conditional_unconditional f x h : unconditional x -> conditional f x h.
Proof. by destruct x as [? ? ? []|]. Qed.

Ltac read_current := wp_step; eapply (wp_use _ unconditional);
  [apply currentFence_unconditional|intros; by apply conditional_unconditional|apply currentFence_spec|].
Ltac readback := wp_step; apply (wp_only _ unconditional);
  [unfold readbackContext; pose proof Get_unconditional; only_tac|intros; by apply conditional_unconditional|intros].

Ltac write_call := match goal with |- wp ?G (call ?x) ?h ?Q => apply (wp_call G x h Q) end.

Lemma Delete_conditional ctx f : wp (conditional f) (Delete sha256_hex20 namespace ctx f) [] (fun _ _ => True).
Proof.
  unfold Delete. wp_step; [done|]. read_current. intros [|e|lease current] new _ Hc; [done..|].
  destruct Hc as (Hl & reply & -> & Ha). wp_step; [done|]. wp_step. write_call.
  - simpl. bool_hyps. eauto 15.
  - intros [[st data] err]. wp_step; [done|]. readback. readback. by repeat wp_step.
Qed.

Lemma SetObservation_conditional ctx f o : wp (conditional f) (SetObservation sha256_hex20 namespace ctx f o) [] (fun _ _ => True).
Proof.
  unfold SetObservation, putLease. wp_step; [done|]. wp_step; [done|].
  read_current. intros [|e|lease current] new _ Hc; [done..|].
  destruct Hc as (Hl & reply & -> & Ha). wp_step; [done|]. wp_step; [done|]. wp_step. write_call.
  - simpl. bool_hyps. eauto 15.
  - intros [[st data] err]. wp_step; [by repeat wp_step|]. wp_step; [done|]. readback. readback. by repeat wp_step.
Qed.

Lemma SetReceipt_conditional ctx f u : wp (conditional f) (SetReceipt sha256_hex20 namespace ctx f u) [] (fun _ _ => True).
Proof.
  unfold SetReceipt, putLease. wp_step; [done|]. wp_step; [done|].
  read_current. intros [|e|lease current] new _ Hc; [done..|].
  destruct Hc as (Hl & reply & -> & Ha). wp_step; [done|]. wp_step; [done|]. wp_step. write_call.
  - simpl. bool_hyps. eauto 15.
  - intros [[st data] err]. wp_step; [by repeat wp_step|]. wp_step; [done|]. readback. readback. by repeat wp_step.
Qed.
End Spec.

(** ** Theorems *)

Section Theorems.
Context `{JT : JSONText} `{TT : TimeText} (sha256_hex20 : string -> string) (namespace : string).

(** The Lease store grants acquisition only to the caller's own attempt. Create answers
    acquired = true only with a fence of the caller's key, intent and random attempt token;
    acquired = false comes with the valid fence that a read after the POST showed, or, when the
    API server answers 404, with no fence at all. *)
Theorem lease_acquisition_sound ctx candidate :
  ensures (Create sha256_hex20 namespace ctx candidate) (fun r h =>
    match r with
    | Ok (Some f, acquired) => Key f = Key candidate /\ validateMutationFence f = None
        /\ (acquired = true -> sameMutationFenceAttempt f candidate = true)
        /\ (acquired = false -> read_fence sha256_hex20 namespace (Key candidate) f h)
    | Ok (None, acquired) => acquired = false
    | Err _ => True
    end).
Proof. apply Create_spec. Qed.

(** The Lease store writes only on what it compared. Every PUT and DELETE that SetReceipt,
    SetObservation or Delete sends follows directly a GET of the fence's own Lease whose fence
    equals the expected one in every field, and carries the UID and resource version of that Lease,
    so the API server rejects it when anything changed since. *)
Theorem lease_writes_conditional ctx f receipt observation :
  dispatches (Delete sha256_hex20 namespace ctx f) (conditional sha256_hex20 namespace f)
  /\ dispatches (SetReceipt sha256_hex20 namespace ctx f receipt) (conditional sha256_hex20 namespace f)
  /\ dispatches (SetObservation sha256_hex20 namespace ctx f observation) (conditional sha256_hex20 namespace f).
Proof.
  split_and!; eapply wp_dispatches; [apply Delete_conditional|apply SetReceipt_conditional|apply SetObservation_conditional].
Qed.
End Theorems.
