(* ===== verification/KubernetesWire.v ===== *)
(** * The Lease wire format

    The JSON text of a Lease that the store writes decodes, through the strict checks of
    kubernetes_fence.go, to the same Lease. *)

From S2P Require Import Prelude GoErrors CSIFence Prog CSIAdapter KubernetesFence KubernetesFenceSpec CSIWorld.

(** ** Maps *)

Definition text_field (kv : string * string) : string * json := (kv.1, JStr kv.2).

Lemma insert_pair_perm x l : insert_pair x l ≡ₚ x :: l.
Proof.
  induction l as [|y l IH]; simpl; [done|]. case_test; [done|]. rewrite IH. apply Permutation_swap.
Qed.

(** The fields of an encoded map: its pairs, in some order. *)
Lemma map_json_fields m : exists l, map_json m = JObj (map text_field l) /\ l ≡ₚ map_to_list m.
Proof.
  assert (forall l, foldr insert_pair [] l ≡ₚ l) as Hp.
  { induction l as [|x l IH]; simpl; [done|]. by rewrite insert_pair_perm, IH. }
  destruct (Permutation_map_inv text_field (l1 := foldr insert_pair [] (map text_field (map_to_list m))) (map_to_list m)) as (l & Hl & Hq).
  { apply Hp. }
  exists l. split; [|done]. unfold map_json. f_equal. exact Hl.
Qed.

Lemma set_map_fields l acc :
  NoDup l.*1 -> set_map acc (map text_field l) = Ok (list_to_map l ∪ acc).
Proof.
  revert acc. induction l as [|[k v] l IH]; intros acc Hn; simpl; [by rewrite map_empty_union|].
  apply NoDup_cons in Hn as [Hk Hn]. rewrite IH by done. f_equal.
  rewrite <-insert_union_r by (by apply not_elem_of_list_to_map_1). by rewrite insert_union_l.
Qed.

Lemma set_map_json m fields : map_json m = JObj fields -> set_map ∅ fields = Ok m.
Proof.
  destruct (map_json_fields m) as (l & -> & Hl). intros [= <-].
  rewrite set_map_fields by (rewrite Hl; apply NoDup_fst_map_to_list).
  rewrite map_union_empty. f_equal. rewrite <-(list_to_map_to_list m). apply list_to_map_proper; [|done].
  rewrite Hl. apply NoDup_fst_map_to_list.
Qed.

(** ** Fields *)

Lemma set_fields_step {A} d (f : field_setter A) x y key v r :
  f x key v = Some (Ok y) -> set_fields d f x ((key, v) :: r) = set_fields d f y r.
Proof. intros H. simpl. by rewrite H. Qed.

Lemma set_fields_omitempty {A} d (f : field_setter A) x y key v r :
  (v = "" -> y = x) -> (v <> "" -> f x key (JStr v) = Some (Ok y)) ->
  set_fields d f x (omitempty key v ++ r) = set_fields d f y r.
Proof.
  intros H1 H2. unfold omitempty. case_bool_decide as E; simpl; [by rewrite (H1 E)|]. by rewrite (H2 E).
Qed.

Lemma set_fields_omit_map {A} d (f : field_setter A) x y key m r :
  (m = ∅ -> y = x) -> f x key (map_json m) = Some (Ok y) ->
  set_fields d f x (omit_map key m ++ r) = set_fields d f y r.
Proof.
  intros H1 H2. unfold omit_map. case_bool_decide as E; simpl; [by rewrite (H1 E)|]. by rewrite H2.
Qed.

Lemma set_string_map_json (put : gmap string string -> kubernetesLease) m :
  set_string_map put ∅ (map_json m) = Ok (put m).
Proof.
  destruct (map_json_fields m) as (l & E & _). rewrite E. simpl. by rewrite (set_map_json m _ E).
Qed.

Definition in_int32 (z : Z) : Prop := -2147483648 <= z <= 2147483647.

Lemma unmarshal_metadata av kd nm ns uid rv lb an :
  unmarshal_struct false metadata_setter (Build_kubernetesLease av kd "" "" "" "" ∅ ∅ "" 0)
    (JObj ([("name", JStr nm)] ++ omitempty "namespace" ns ++ omitempty "uid" uid ++ omitempty "resourceVersion" rv
      ++ omit_map "labels" lb ++ omit_map "annotations" an))
  = Ok (Build_kubernetesLease av kd nm ns uid rv lb an "" 0).
Proof.
  unfold unmarshal_struct. cbn [app].
  rewrite (set_fields_step _ _ _ (Build_kubernetesLease av kd nm "" "" "" ∅ ∅ "" 0)) by reflexivity.
  rewrite (set_fields_omitempty _ _ _ (Build_kubernetesLease av kd nm ns "" "" ∅ ∅ "" 0)); [|by intros ->|reflexivity].
  rewrite (set_fields_omitempty _ _ _ (Build_kubernetesLease av kd nm ns uid "" ∅ ∅ "" 0)); [|by intros ->|reflexivity].
  rewrite (set_fields_omitempty _ _ _ (Build_kubernetesLease av kd nm ns uid rv ∅ ∅ "" 0)); [|by intros ->|reflexivity].
  rewrite (set_fields_omit_map _ _ _ (Build_kubernetesLease av kd nm ns uid rv lb ∅ "" 0)); [|by intros ->|].
  2: { cbn -[set_string_map map_json EqualFold]. rewrite <-(set_string_map_json (fun m => Build_kubernetesLease av kd nm ns uid rv m ∅ "" 0)). reflexivity. }
  rewrite <-(app_nil_r (omit_map "annotations" an)).
  rewrite (set_fields_omit_map _ _ _ (Build_kubernetesLease av kd nm ns uid rv lb an "" 0)); [done|by intros ->|].
  rewrite <-(set_string_map_json (fun m => Build_kubernetesLease av kd nm ns uid rv lb m "" 0)). reflexivity.
Qed.

Lemma unmarshal_spec av kd nm ns uid rv lb an hi ld :
  in_int32 ld ->
  unmarshal_struct false spec_setter (Build_kubernetesLease av kd nm ns uid rv lb an "" 0)
    (JObj (omitempty "holderIdentity" hi ++ if ld =? 0 then [] else [("leaseDurationSeconds", JInt ld)]))
  = Ok (Build_kubernetesLease av kd nm ns uid rv lb an hi ld).
Proof.
  intros Hl. unfold unmarshal_struct.
  rewrite (set_fields_omitempty _ _ _ (Build_kubernetesLease av kd nm ns uid rv lb an hi 0)); [|by intros ->|reflexivity].
  destruct (ld =? 0) eqn:E; bool_hyps; [by subst|].
  rewrite (set_fields_step _ _ _ (Build_kubernetesLease av kd nm ns uid rv lb an hi ld)); [done|].
  transitivity (Some (set_int32 (fun z => Build_kubernetesLease av kd nm ns uid rv lb an hi z) (Build_kubernetesLease av kd nm ns uid rv lb an hi 0) (JInt ld))); [reflexivity|].
  unfold set_int32. unfold in_int32 in Hl. by rewrite (proj2 (Z.leb_le _ _) (proj1 Hl)), (proj2 (Z.leb_le _ _) (proj2 Hl)).
Qed.

(** [json.Unmarshal] inverts [json.Marshal]. *)
Lemma unmarshal_lease l :
  in_int32 (L_LeaseDurationSeconds l) -> unmarshal_struct false lease_setter zero_lease (marshal_lease l) = Ok l.
Proof.
  destruct l as [av kd nm ns uid rv lb an hi ld]. simpl L_LeaseDurationSeconds. intros Hl.
  unfold marshal_lease; cbn [L_APIVersion L_Kind L_Name L_Namespace L_UID L_ResourceVersion L_Labels L_Annotations L_HolderIdentity L_LeaseDurationSeconds].
  unfold unmarshal_struct at 1. unfold zero_lease.
  rewrite (set_fields_omitempty _ _ _ (Build_kubernetesLease av "" "" "" "" "" ∅ ∅ "" 0)); [|by intros ->|reflexivity].
  rewrite (set_fields_omitempty _ _ _ (Build_kubernetesLease av kd "" "" "" "" ∅ ∅ "" 0)); [|by intros ->|reflexivity].
  rewrite (set_fields_step _ _ _ (Build_kubernetesLease av kd nm ns uid rv lb an "" 0)).
  2: { rewrite <-unmarshal_metadata. reflexivity. }
  rewrite (set_fields_step _ _ _ (Build_kubernetesLease av kd nm ns uid rv lb an hi ld)); [done|].
  rewrite <-(unmarshal_spec av kd nm ns uid rv lb an hi ld Hl). reflexivity.
Qed.

(** ** The strict checks *)

(** A property of keys and values that holds of every field. *)
Lemma forallb_omitempty (P : string * json -> bool) key v :
  (forall s, P (key, JStr s) = true) -> forallb P (omitempty key v) = true.
Proof. intros H. unfold omitempty. case_bool_decide; simpl; by rewrite ?H. Qed.

Lemma forallb_omit_map (P : string * json -> bool) key m :
  P (key, map_json m) = true -> forallb P (omit_map key m) = true.
Proof. intros H. unfold omit_map. case_bool_decide; simpl; by rewrite ?H. Qed.

Lemma keys_omitempty key v : map fst (omitempty key v) = if v == "" then [] else [key].
Proof. unfold omitempty. by case_bool_decide. Qed.

Lemma keys_omit_map key m : map fst (omit_map key m) = if bool_decide (m = ∅) then [] else [key].
Proof. unfold omit_map. by case_bool_decide. Qed.

Lemma unique_map_json m : unique_json (map_json m) = true.
Proof.
  destruct (map_json_fields m) as (l & -> & Hl). simpl. apply andb_true_iff. split.
  - apply bool_decide_eq_true. rewrite map_map. simpl. change (NoDup l.*1). rewrite Hl. apply NoDup_fst_map_to_list.
  - apply forallb_forall. intros x [y [<- _]]%in_map_iff. done.
Qed.

Ltac split_fields := rewrite ?forallb_app, ?andb_true_iff; split_and!.

Ltac case_ifs := repeat match goal with |- context [if ?b then _ else _] => destruct b end.

Lemma unique_marshal_lease l : unique_json (marshal_lease l) = true.
Proof.
  destruct l as [av kd nm ns uid rv lb an hi ld]. unfold marshal_lease; simpl unique_json.
  assert (forall key v, forallb (fun kv : string * json => unique_json kv.2) (omitempty key v) = true) as Ho
    by (intros; by apply forallb_omitempty).
  assert (forall key m, forallb (fun kv : string * json => unique_json kv.2) (omit_map key m) = true) as Hm
    by (intros; apply forallb_omit_map, unique_map_json).
  apply andb_true_iff. split; [rewrite !map_app, !keys_omitempty; case_ifs; vm_compute; reflexivity|].
  rewrite !forallb_app, !Ho. simpl. rewrite !forallb_app, !Ho, !Hm, !map_app, !keys_omitempty, !keys_omit_map. simpl.
  rewrite !andb_true_r. apply andb_true_iff. split; [case_ifs; vm_compute; reflexivity|].
  case_ifs; vm_compute; reflexivity.
Qed.

(** Keys of the schema in their own spelling pass the schema check. *)
Definition spelled (fields : list string) (kv : string * json) : bool :=
  forallb (fun field => negb (EqualFold kv.1 field) || (kv.1 == field)) fields.

Lemma decodeSchemaObject_ok kvs fields : forallb (spelled fields) kvs = true -> decodeSchemaObject (JObj kvs) fields = Ok kvs.
Proof. intros H. simpl. unfold spelled in H. by rewrite H. Qed.

Lemma field_app kvs kvs' key : ~ In key (map fst kvs) -> field (kvs ++ kvs') key = field kvs' key.
Proof.
  unfold field. induction kvs as [|[k v] kvs IH]; intros H; simpl in *; [done|].
  rewrite bool_decide_eq_false_2 by tauto. apply IH. tauto.
Qed.

Lemma validate_marshal_lease l : validateKubernetesLeaseObject (marshal_lease l) = None.
Proof.
  destruct l as [av kd nm ns uid rv lb an hi ld]. unfold validateKubernetesLeaseObject, marshal_lease; cbn [L_APIVersion L_Kind L_Name L_Namespace L_UID L_ResourceVersion L_Labels L_Annotations L_HolderIdentity L_LeaseDurationSeconds].
  assert (forall k v x, ~ In x [k] -> ~ In x (map fst (omitempty k v))) as Hk.
  { intros k v x Hx. rewrite keys_omitempty. case_bool_decide; [intros []|done]. }
  rewrite decodeSchemaObject_ok.
  2: { rewrite !forallb_app, !forallb_omitempty by (intros; vm_compute; reflexivity). vm_compute. reflexivity. }
  rewrite !field_app by (apply Hk; intros [?|[]]; discriminate).
  unfold field at 1. simpl List.find. cbn [option_map snd].
  rewrite decodeSchemaObject_ok.
  2: { cbn [forallb]. rewrite !forallb_app, !forallb_omitempty, !forallb_omit_map by (intros; vm_compute; reflexivity). vm_compute. reflexivity. }
  unfold field. simpl List.find. cbn [option_map snd].
  rewrite decodeSchemaObject_ok; [done|].
  rewrite !forallb_app, !forallb_omitempty by (intros; vm_compute; reflexivity). by destruct (ld =? 0).
Qed.

(** Text that JSON reproduces. *)
Definition plain_map (m : gmap string string) : bool :=
  forallb (fun kv => is_ascii kv.1 && is_ascii kv.2) (map_to_list m).
Definition plain_lease (l : kubernetesLease) : bool :=
  is_ascii (L_APIVersion l) && is_ascii (L_Kind l) && is_ascii (L_Name l) && is_ascii (L_Namespace l) && is_ascii (L_UID l)
  && is_ascii (L_ResourceVersion l) && plain_map (L_Labels l) && plain_map (L_Annotations l) && is_ascii (L_HolderIdentity l)
  && (-2147483648 <=? L_LeaseDurationSeconds l) && (L_LeaseDurationSeconds l <=? 2147483647).

Lemma plain_map_json m : plain_map m = true -> plain_json (map_json m) = true.
Proof.
  unfold plain_map. destruct (map_json_fields m) as (l & -> & Hl). rewrite !forallb_forall. intros H. simpl.
  apply forallb_forall. intros x [y [<- Hy]]%in_map_iff. simpl. apply H, list_elem_of_In. rewrite <-Hl. by apply list_elem_of_In.
Qed.

Lemma plain_omit_map name m :
  is_ascii name = true -> plain_map m = true ->
  forallb (fun kv => is_ascii kv.1 && plain_json kv.2) (omit_map name m) = true.
Proof. intros Hn Hm. apply forallb_omit_map. cbn [fst snd]. by rewrite Hn, plain_map_json. Qed.

Lemma plain_marshal_lease l : plain_lease l = true -> plain_json (marshal_lease l) = true.
Proof.
  destruct l as [av kd nm ns uid rv lb an hi ld]. unfold plain_lease; simpl. intros H. bool_hyps.
  rewrite !forallb_app, !plain_omitempty by done. simpl. rewrite !forallb_app, !plain_omitempty, !plain_omit_map by done.
  destruct (ld =? 0); simpl; rewrite ?andb_true_r; by bool_hyps.
Qed.

(** Encoding a Lease and decoding its text is the identity. *)
Lemma decode_lease `{JT : JSONText} l : plain_lease l = true -> decodeMutationLease (print_json (marshal_lease l)) = Ok l.
Proof.
  intros Hp. unfold decodeMutationLease. rewrite parse_print_json by (by apply plain_marshal_lease).
  rewrite unique_marshal_lease, validate_marshal_lease. simpl negb. cbv iota.
  rewrite unmarshal_lease; [done|]. unfold plain_lease in Hp. bool_hyps. by unfold in_int32.
Qed.

(** A Lease of ASCII text. *)
Lemma plain_map_insert m k v : is_ascii k = true -> is_ascii v = true -> plain_map m = true -> plain_map (<[k := v]> m) = true.
Proof.
  unfold plain_map. rewrite !forallb_forall. intros Hk Hv H [k' v'] Hin. apply list_elem_of_In, elem_of_map_to_list in Hin.
  apply lookup_insert_Some in Hin as [[<- <-]|[_ Hin]]; simpl; [by rewrite Hk, Hv|].
  apply (H (k', v')), list_elem_of_In. by apply elem_of_map_to_list.
Qed.

Lemma plain_map_singleton k v : is_ascii k = true -> is_ascii v = true -> plain_map {[k := v]} = true.
Proof. intros Hk Hv. by apply (plain_map_insert ∅ k v). Qed.

Definition plain_fence (f : mutationFence) : bool :=
  is_ascii (Key f) && is_ascii (Intent f) && is_ascii (Attempt f) && is_ascii (Receipt f) && is_ascii (Observation f).

Section Theorems.
Context `{JT : JSONText} `{TT : TimeText} (sha256_hex20 : string -> string) (namespace : string).

Lemma plain_fence_lease f :
  plain_fence f = true -> is_ascii namespace = true -> is_ascii (sha256_hex20 (Key f)) = true ->
  plain_lease (mutationFenceLease sha256_hex20 f namespace) = true.
Proof.
  unfold plain_fence, plain_lease, mutationFenceLease, mutationFenceLeaseName; simpl. intros Hf Hn Hh. bool_hyps.
  assert (is_ascii ("inspace-csi-" +:+ sha256_hex20 (Key f)) = true) as -> by exact Hh.
  rewrite !andb_true_iff. split_and!; try done;
    repeat match goal with
    | |- plain_map (if ?b then _ else _) = _ => destruct b
    | |- plain_map (<[_ := _]> _) = _ => apply plain_map_insert
    | |- plain_map {[_ := _]} = _ => apply plain_map_singleton
    end; done.
Qed.

(** C38: a fence of ASCII text survives its Lease and the wire. For a valid fence all of whose fields are ASCII text,
    in a namespace and under a key hash of ASCII text, the JSON text of the Lease that it is written to passes the
    strict checks of decodeMutationLease and decodes to that Lease, and the fence read from it is the fence, with its
    receipt in lower case. Fences with other bytes are not covered: validity admits them, and encoding/json does not
    reproduce text that is not UTF-8. *)
Theorem lease_roundtrip f :
  validateMutationFence f = None -> plain_fence f = true -> is_ascii namespace = true -> is_ascii (sha256_hex20 (Key f)) = true ->
  let lease := mutationFenceLease sha256_hex20 f namespace in
  decodeMutationLease (print_json (marshal_lease lease)) = Ok lease
  /\ mutationFenceFromLease lease = Ok (set_Receipt f (ToLower (Receipt f))).
Proof. intros Hv Hf Hn Hh. split; [by apply decode_lease, plain_fence_lease|by apply fence_of_lease]. Qed.
End Theorems.

Definition lease_fence : mutationFence :=
  Build_mutationFence "disk-attachment/bkk/11111111-1111-4111-8111-111111111111" "{}" "00112233445566778899aabbccddeeff"
    "ABCDEF01-2345-4678-9ABC-DEF012345678" "".

Lemma lease_roundtrip_witness :
  decodeMutationLease (print_json (marshal_lease (mutationFenceLease no_hash lease_fence "kube-system")))
    = Ok (mutationFenceLease no_hash lease_fence "kube-system")
  /\ mutationFenceFromLease (mutationFenceLease no_hash lease_fence "kube-system")
     = Ok (set_Receipt lease_fence "abcdef01-2345-4678-9abc-def012345678").
Proof.
  exact (lease_roundtrip no_hash "kube-system" lease_fence ltac:(vm_compute; reflexivity) ltac:(vm_compute; reflexivity)
    ltac:(vm_compute; reflexivity) ltac:(vm_compute; reflexivity)).
Defined.
