(* ===== verification/KubernetesServer.v ===== *)
(** * The API server behind the Lease store

    What the Lease store relies on: the documented behaviour of the Kubernetes API for one
    collection of Leases, as an interface. A request is answered, and may take effect, whatever the
    answer says; reads do not write; every stored object has a UID and a resource version, and the
    two together identify one version of it; a replacement or deletion that names a resource
    version takes effect only on that version; a creation only where there is no object; a
    replacement of an object that does not exist, and a creation in a namespace that does not exist,
    are answered 404; an answer carries an HTTP status. Other clients may act at any time.

    On top of it: executions of the store's operations against a server, and what it means that an
    operation takes effect at one point as the operation of the atomic map. *)

From S2P Require Import Prelude GoErrors CSIFence Prog CSIAdapter KubernetesFence.

Section Server.
Context `{JT : JSONText} `{TT : TimeText} (sha256_hex20 : string -> string) (namespace : string).

Abbreviation lease_path := (mutationLeasePath namespace).
Abbreviation key_path k := (lease_path (mutationFenceLeaseName sha256_hex20 k)).

(** What a client sent is what is stored, but for the fields the server owns. *)
Definition written (sent new : kubernetesLease) : Prop :=
  L_Labels new = L_Labels sent /\ L_Annotations new = L_Annotations sent /\ L_HolderIdentity new = L_HolderIdentity sent.

(** The version a client named, if it named one. *)
Definition names_version (sent old : kubernetesLease) : Prop :=
  (L_UID sent = "" \/ L_UID sent = L_UID old) /\ (L_ResourceVersion sent = "" \/ L_ResourceVersion sent = L_ResourceVersion old).

Class LeaseServer := {
  server : Type;
  stored : server -> string -> option kubernetesLease;
  (** method, path and body; the answer; the state after it *)
  handle : context -> string -> string -> option json -> server -> Z * string * goerr -> server -> Prop;
  (** the server at a later time, after requests of any client *)
  later : server -> server -> Prop;
  later_refl : forall s, later s s;
  later_trans : forall s t u, later s t -> later t u -> later s u;
  handle_later : forall ctx m p b s ans t, handle ctx m p b s ans t -> later s t;
  (** without an error there was an HTTP response, whose status is not 0 *)
  answered_status : forall ctx m p b s status data t, handle ctx m p b s (status, data, None) t -> status <> 0;
  stored_versioned : forall s p l, stored s p = Some l -> L_UID l <> "" /\ L_ResourceVersion l <> "";
  version_identifies : forall s t p l l', later s t -> stored s p = Some l -> stored t p = Some l' ->
    L_UID l' = L_UID l -> L_ResourceVersion l' = L_ResourceVersion l -> l' = l;
  get_reads : forall ctx name s status data err t,
    handle ctx "GET" (lease_path name) None s (status, data, err) t ->
    (forall p, stored t p = stored s p)
    /\ (err = None -> status = 404 -> stored s (lease_path name) = None)
    /\ (err = None -> success status = true -> forall l, decodeMutationLease data = Ok l -> stored s (lease_path name) = Some l);
  post_creates : forall ctx l s status data err t,
    handle ctx "POST" (mutationLeaseCollectionPath namespace) (Some (marshal_lease l)) s (status, data, err) t ->
    ((forall p, stored t p = stored s p)
     \/ (stored s (lease_path (L_Name l)) = None
         /\ exists new, written l new /\ stored t (lease_path (L_Name l)) = Some new
         /\ forall p, p <> lease_path (L_Name l) -> stored t p = stored s p))
    /\ (err = None -> success status = true -> forall l', decodeMutationLease data = Ok l' -> stored t (lease_path (L_Name l)) = Some l')
    /\ (err = None -> status = 404 -> stored t (lease_path (L_Name l)) = None);
  put_replaces : forall ctx name l s status data err t,
    handle ctx "PUT" (lease_path name) (Some (marshal_lease l)) s (status, data, err) t ->
    ((forall p, stored t p = stored s p)
     \/ (exists old new, stored s (lease_path name) = Some old /\ names_version l old /\ written l new
         /\ stored t (lease_path name) = Some new /\ forall p, p <> lease_path name -> stored t p = stored s p))
    /\ (err = None -> success status = true -> forall l', decodeMutationLease data = Ok l' -> stored t (lease_path name) = Some l')
    /\ (err = None -> status = 404 -> stored t (lease_path name) = None);
  delete_removes : forall ctx name l s ans t,
    handle ctx "DELETE" (lease_path name) (Some (deleteOptions l)) s ans t ->
    (forall p, stored t p = stored s p)
    \/ (exists old, stored s (lease_path name) = Some old /\ names_version l old
        /\ stored t (lease_path name) = None /\ forall p, p <> lease_path name -> stored t p = stored s p)
}.

Context `{LS : LeaseServer}.

Definition unchanged (s t : server) : Prop := forall p, stored t p = stored s p.

(** ** The fences a server holds *)

Definition fence_at (s : server) (k : string) : option mutationFence :=
  match stored s (key_path k) with
  | Some l => match mutationFenceFromLease l with Ok f => if Key f == k then Some f else None | Err _ => None end
  | None => None
  end.

Definition represents (s : server) (m : MemoryStore.state) : Prop := forall k, m !! k = fence_at s k.

(** The map's operation did what it was asked for. *)
Definition succeeds (r : store_reply) : bool :=
  match r with RCreated _ acquired => acquired | RUpdated (Ok _) => true | RDeleted None => true | _ => false end.

(** The transition is the map's operation, and a successful one. *)
Definition effect (o : store_op) (s t : server) : Prop :=
  forall m, represents s m -> succeeds (store_step m o).1 = true /\ represents t (store_step m o).2.

(** ** Proof rules *)

(** The answer to one action of the store. *)
Definition answers (x : kact) : server -> kres x -> server -> Prop :=
  match x as x return server -> kres x -> server -> Prop with
  | KRequest ctx method path body => handle ctx method path body
  | KNow => fun s _ t => t = s
  end.

Lemma answers_later x s r t : answers x s r t -> later s t.
Proof. destruct x; simpl; [apply handle_later|]. intros ->. apply later_refl. Qed.

(** Other clients act before each request. [seen] collects the states after the program's own
    requests; the postcondition sees the result, the last state and [seen]. *)
Fixpoint reads {A} (p : kprogram A) (s : server) (seen : list server) (Q : A -> server -> list server -> Prop) : Prop :=
  match p with
  | Ret x => Q x s seen
  | Act x k => forall s0 r s1, later s s0 -> answers x s0 r s1 -> unchanged s0 s1 /\ reads (k r) s1 (s1 :: seen) Q
  | Panic | OutOfFuel => True
  end.

(** The program takes effect at one of its requests, as the operation [o], or not at all. *)
Fixpoint linearizes {A} (o : store_op) (p : kprogram A) (s : server) (seen : list server) (Q : A -> server -> list server -> Prop) : Prop :=
  match p with
  | Ret x => Q x s seen
  | Act x k => forall s0 r s1, later s s0 -> answers x s0 r s1 ->
      (unchanged s0 s1 /\ linearizes o (k r) s1 (s1 :: seen) Q) \/ (effect o s0 s1 /\ reads (k r) s1 (s1 :: seen) Q)
  | Panic | OutOfFuel => True
  end.

Lemma reads_mono {A} (p : kprogram A) s seen (Q R : A -> server -> list server -> Prop) :
  reads p s seen Q -> (forall x t seen', Q x t seen' -> R x t seen') -> reads p s seen R.
Proof.
  intros H HR. revert s seen H. induction p as [x|x k IH| |]; intros s seen; simpl; [apply HR| |done|done].
  intros H s0 r s1 Hl Ha. destruct (H s0 r s1 Hl Ha) as [Hu Hk]. split; [done|]. by apply IH.
Qed.

Lemma reads_bind {A B} (p : kprogram A) (f : A -> kprogram B) s seen Q :
  reads p s seen (fun x t seen' => reads (f x) t seen' Q) -> reads (bind p f) s seen Q.
Proof.
  revert s seen. induction p as [x|x k IH| |]; intros s seen; simpl; [done| |done|done].
  intros H s0 r s1 Hl Ha. destruct (H s0 r s1 Hl Ha) as [Hu Hk]. split; [done|]. by apply IH.
Qed.

Lemma linearizes_bind {A B} o (p : kprogram A) (f : A -> kprogram B) s seen Q :
  reads p s seen (fun x t seen' => linearizes o (f x) t seen' Q) -> linearizes o (bind p f) s seen Q.
Proof.
  revert s seen. induction p as [x|x k IH| |]; intros s seen; simpl; [done| |done|done].
  intros H s0 r s1 Hl Ha. destruct (H s0 r s1 Hl Ha) as [Hu Hk]. left. split; [done|]. by apply IH.
Qed.

Lemma linearizes_reads {A} o (p : kprogram A) s seen Q : reads p s seen Q -> linearizes o p s seen Q.
Proof.
  revert s seen. induction p as [x|x k IH| |]; intros s seen; simpl; [done| |done|done].
  intros H s0 r s1 Hl Ha. destruct (H s0 r s1 Hl Ha) as [Hu Hk]. left. split; [done|]. by apply IH.
Qed.

Lemma linearizes_then {A B} o (p : kprogram A) (g : A -> B) s seen Q :
  linearizes o p s seen (fun x => Q (g x)) -> linearizes o (bind p (fun x => Ret (g x))) s seen Q.
Proof.
  revert s seen. induction p as [x|x k IH| |]; intros s seen; simpl; [done| |done|done].
  intros H s0 r s1 Hl Ha. destruct (H s0 r s1 Hl Ha) as [[Hu Hk]|[He Hk]]; [left; eauto|right]. split; [done|].
  apply reads_bind. by eapply reads_mono.
Qed.

(** One write, then reads. *)
Lemma linearizes_write {A} o x (k : kres x -> kprogram A) s seen Q :
  (forall s0 r s1, later s s0 -> answers x s0 r s1 -> unchanged s0 s1 \/ effect o s0 s1) ->
  (forall s0 r s1, answers x s0 r s1 -> reads (k r) s1 (s1 :: seen) Q) -> linearizes o (bind (call x) k) s seen Q.
Proof.
  intros Hw Hk s0 r s1 Hl Ha. destruct (Hw s0 r s1 Hl Ha) as [?|?]; [left|right]; split; try done.
  - apply linearizes_reads. by eapply Hk.
  - by eapply Hk.
Qed.
End Server.

(** The instance determines the namespace. *)
Arguments server {JT namespace LeaseServer}.
Arguments stored {JT namespace LeaseServer}.
Arguments handle {JT namespace LeaseServer}.
Arguments later {JT namespace LeaseServer}.
Arguments later_refl {JT namespace LeaseServer}.
Arguments later_trans {JT namespace LeaseServer}.
Arguments handle_later {JT namespace LeaseServer}.
Arguments answered_status {JT namespace LeaseServer}.
Arguments stored_versioned {JT namespace LeaseServer}.
Arguments version_identifies {JT namespace LeaseServer}.
Arguments get_reads {JT namespace LeaseServer}.
Arguments post_creates {JT namespace LeaseServer}.
Arguments put_replaces {JT namespace LeaseServer}.
Arguments delete_removes {JT namespace LeaseServer}.
Arguments unchanged {JT namespace LS}.
Arguments fence_at {JT TT} sha256_hex20 {namespace LS}.
Arguments represents {JT TT} sha256_hex20 {namespace LS}.
Arguments effect {JT TT} sha256_hex20 {namespace LS}.
Arguments answers {JT namespace LS}.
Arguments answers_later {JT namespace LS}.
Arguments reads {JT namespace LS A}.
Arguments linearizes {JT TT} sha256_hex20 {namespace LS A}.
