(* ===== verification/KubernetesRefinement.v ===== *)
(** * The Lease store refines the atomic map

    Every operation of kubernetes_fence.go, run against an API server with any activity of other
    clients between its requests, takes effect at most once, and then exactly as the operation of
    the in-memory store: the resource version it carries keeps it from acting on anything but the
    fence it compared. *)

From S2P Require Import Prelude GoErrors CSIFence Prog CSIAdapter KubernetesFence CSISpecs KubernetesFenceSpec KubernetesServer.

Section Refinement.
Context `{JT : JSONText} `{TT : TimeText} (sha256_hex20 : string -> string) (namespace : string) {LS : LeaseServer namespace}.

Abbreviation lease_path := (mutationLeasePath namespace).
Abbreviation key_path k := (lease_path (mutationFenceLeaseName sha256_hex20 k)).
Abbreviation fence_at := (fence_at sha256_hex20).
Abbreviation effect := (effect sha256_hex20).
Abbreviation represents := (represents sha256_hex20).
Abbreviation linearizes := (linearizes sha256_hex20).

(** ** Updates of the represented map *)

Lemma fence_at_stored s k l f :
  stored s (key_path k) = Some l -> mutationFenceFromLease l = Ok f -> fence_at s k = if Key f == k then Some f else None.
Proof. intros Hs Hf. unfold KubernetesServer.fence_at. by rewrite Hs, Hf. Qed.

Lemma fence_at_absent s k : stored s (key_path k) = None -> fence_at s k = None.
Proof. intros Hs. unfold KubernetesServer.fence_at. by rewrite Hs. Qed.

Lemma same_authority_key f g : sameMutationFenceAuthority f g = true -> Key f = Key g.
Proof. unfold sameMutationFenceAuthority, sameMutationFenceAttempt. intros. by bool_hyps. Qed.

Lemma fence_at_key s k f : fence_at s k = Some f -> Key f = k.
Proof. unfold KubernetesServer.fence_at. intros H. repeat (case_test_in H; try done). bool_hyps. by simplify_eq. Qed.

(** Before, the Lease of [K] held the fence of [K] or nothing; so no other key is visible there. *)
Definition only_key (s : server) (K : string) : Prop :=
  stored s (key_path K) = None
  \/ exists l f, stored s (key_path K) = Some l /\ mutationFenceFromLease l = Ok f /\ Key f = K.

Lemma other_key s t K k :
  only_key s K -> only_key t K -> (forall p, p <> key_path K -> stored t p = stored s p) -> k <> K ->
  fence_at t k = fence_at s k.
Proof.
  intros Hs Ht Ho Hk. destruct (decide (key_path k = key_path K)) as [E|E].
  - assert (forall u, only_key u K -> fence_at u k = None) as Hn.
    { intros u [Hu|(l & f & Hu & Hf & HK)]; rewrite <-E in Hu; [by apply fence_at_absent|].
      rewrite (fence_at_stored u k l f) by done. by rewrite bool_decide_eq_false_2 by congruence. }
    by rewrite !Hn.
  - unfold KubernetesServer.fence_at. by rewrite Ho.
Qed.

Lemma represents_write s t m K l f :
  only_key s K -> stored t (key_path K) = Some l -> mutationFenceFromLease l = Ok f -> Key f = K ->
  (forall p, p <> key_path K -> stored t p = stored s p) ->
  represents s m -> represents t (<[K := f]> m).
Proof.
  intros Hs Ht Hf HK Ho Hm k. destruct (decide (k = K)) as [->|Hk].
  - rewrite lookup_insert_eq, (fence_at_stored t K l f) by done. by rewrite bool_decide_eq_true_2.
  - rewrite lookup_insert_ne by done. rewrite (Hm k). symmetry. eapply other_key; eauto. right. eauto.
Qed.

Lemma represents_remove s t m K :
  only_key s K -> stored t (key_path K) = None -> (forall p, p <> key_path K -> stored t p = stored s p) ->
  represents s m -> represents t (delete K m).
Proof.
  intros Hs Ht Ho Hm k. destruct (decide (k = K)) as [->|Hk].
  - by rewrite lookup_delete_eq, fence_at_absent.
  - rewrite lookup_delete_ne by done. rewrite (Hm k). symmetry. eapply other_key; eauto. by left.
Qed.

(** ** What a call confirms *)

(** A call that does not fail replies, or comes back with neither a fence nor an error. *)
Inductive lease_reply :=
  | Replied (r : store_reply)
  | Empty.

(** The fences, by key, agree with a reply. *)
Definition reply_agrees (o : store_op) (r : store_reply) (fences : string -> option mutationFence) : Prop :=
  match o, r with
  | OpGet k, RFence x => fences k = x
  | OpCreate c, RCreated f acquired => fences (Key c) = Some f /\ (acquired = true -> sameMutationFenceAttempt f c = true)
  | OpSetReceipt c u, RUpdated (Ok f) =>
      fences (Key c) = Some f /\ sameMutationFenceAttempt f c = true /\ EqualFold (Receipt f) u = true
  | OpSetObservation c ob, RUpdated (Ok f) =>
      fences (Key c) = Some f /\ sameMutationFenceAuthority f c = true /\ Observation f = ob
  | OpDelete c, RDeleted None => fences (Key c) = None
  | _, _ => False
  end.

(** The fences agree with what a call that did not fail gave. The empty reply of a write says that there is no fence
    under its key. *)
Definition confirms (o : store_op) (x : lease_reply) (fences : string -> option mutationFence) : Prop :=
  match x, o with
  | Replied r, _ => reply_agrees o r fences
  | Empty, (OpCreate c | OpSetReceipt c _ | OpSetObservation c _) => fences (Key c) = None
  | Empty, _ => False
  end.

(** One of the states that the call saw confirms its reply. *)
Definition confirmed (o : store_op) (x : result lease_reply) (t : server) (seen : list server) : Prop :=
  match x with Ok r => exists s, s ∈ seen /\ confirms o r (fence_at s) | Err _ => True end.

(** ** Reads *)

(** What was stored at a state that the call saw. *)
Definition observed (name : string) (x : option kubernetesLease) (t : server) (seen : list server) : Prop :=
  exists s, s ∈ seen /\ later s t /\ stored s (lease_path name) = x.

(** The Lease was stored at some earlier time. *)
Definition was_stored (name : string) (l : kubernetesLease) (s : server) : Prop :=
  exists s0, later s0 s /\ stored s0 (lease_path name) = Some l.

Lemma was_stored_later name l s t : was_stored name l s -> later s t -> was_stored name l t.
Proof. intros (s0 & H1 & H2) Ht. exists s0. split; [by eapply later_trans|done]. Qed.

Lemma observed_was_stored name l t seen : observed name (Some l) t seen -> was_stored name l t.
Proof. intros (s & _ & ? & ?). by exists s. Qed.

Lemma getMutationLease_reads ctx name s seen :
  reads (getMutationLease namespace ctx name) s seen (fun r t seen' =>
    match r with
    | Ok (l, status) => status <> 0 /\ (status = 404 -> observed name None t seen') /\ (success status = true -> observed name (Some l) t seen')
    | Err _ => True
    end).
Proof.
  unfold getMutationLease. apply reads_bind. intros s0 [[status data] err] s1 Hl Ha. simpl in Ha.
  pose proof Ha as (Hu & Hn & Hg)%get_reads. split; [exact Hu|]. simpl. destruct err; [done|]. apply answered_status in Ha.
  assert (forall x, stored s0 (lease_path name) = x -> observed name x s1 (s1 :: seen)) as Ho.
  { intros x Hx. exists s1. split_and!; [by left|apply later_refl|]. by rewrite Hu. }
  destruct (success status) eqn:Hst; simpl; [|split_and!; [done|by auto|by rewrite ?Hst]].
  destruct (decodeMutationLease data) as [l|] eqn:Hd; [|done]. simpl. auto.
Qed.

(** Only a 404 and a success have no error. *)
Lemma status_error status : status <> 0 -> status <> 404 -> success status = false -> kubernetesFenceStatusError status <> None.
Proof.
  intros Hz Hn Hs. unfold kubernetesFenceStatusError. rewrite Hs, (proj2 (Z.eqb_neq _ _) Hz), (proj2 (Z.eqb_neq _ _) Hn). simpl.
  by destruct (ambiguousKubernetesMutationStatus status).
Qed.

Lemma definite_status status : ambiguousKubernetesMutationStatus status = false -> status <> 0.
Proof. intros H ->. done. Qed.

(** A failed write whose answer does not leave the outcome open: 404 comes back empty, every other status as an error. *)
Lemma refused_reply {A} (none : A) status :
  ambiguousKubernetesMutationStatus status = false -> success status = false ->
  status = 404 /\ nil_with none (kubernetesFenceStatusError status) = Ok none
  \/ exists e, nil_with none (kubernetesFenceStatusError status) = Err e.
Proof.
  intros Ha Hs. destruct (decide (status = 404)) as [->|Hn]; [by left|right].
  pose proof (status_error status (definite_status _ Ha) Hn Hs). destruct (kubernetesFenceStatusError status); [by eexists|done].
Qed.

(** The errors joined after an open outcome are not all nil. *)
Lemma open_error {A} (none : A) status err rest :
  (err = None -> status <> 0) -> (err = None -> ambiguousKubernetesMutationStatus status = true \/ status = 409) ->
  exists e, nil_with none (Join (err :: kubernetesFenceStatusError status :: rest)) = Err e.
Proof.
  intros Hz Ho. destruct err as [e|]; [by eexists|]. specialize (Hz eq_refl). specialize (Ho eq_refl).
  assert (kubernetesFenceStatusError status <> None) as He.
  { apply status_error; [done|intros ->; by destruct Ho|]. unfold success. apply andb_false_iff. destruct Ho as [Ho|Ho]; [|subst; right; done].
    unfold ambiguousKubernetesMutationStatus in Ho. rewrite !orb_true_iff in Ho. rewrite Z.leb_gt, Z.ltb_ge. lia. }
  unfold Join. destruct (kubernetesFenceStatusError status) as [e|]; [|done]. by eexists.
Qed.

Lemma currentFence_reads ctx f s seen :
  reads (currentFence sha256_hex20 namespace ctx f) s seen (fun r t seen' =>
    match r with
    | LeaseGone => observed (mutationFenceLeaseName sha256_hex20 (Key f)) None t seen'
    | LeaseRefused err => err <> None
    | LeaseFound l current => mutationFenceFromLease l = Ok current /\ observed (mutationFenceLeaseName sha256_hex20 (Key f)) (Some l) t seen'
    end).
Proof.
  unfold currentFence. apply reads_bind. eapply reads_mono; [apply getMutationLease_reads|].
  intros [[l status]|e] t seen' H; [|done]. destruct H as (Hz & Hn & Hs). simpl. destruct (status =? 404) eqn:E; bool_hyps; [by apply Hn|].
  destruct (success status) eqn:E'; simpl; [|by apply status_error]. destruct (mutationFenceFromLease l) eqn:Hf; [|done]. simpl. auto.
Qed.

(** A read that does not fail shows the fence of the key. *)
Lemma Get_reads ctx k s seen :
  reads (Get sha256_hex20 namespace ctx k) s seen (fun r t seen' =>
    match r with Ok x => exists u, u ∈ seen' /\ fence_at u k = x | Err _ => True end).
Proof.
  unfold Get. case_test; [done|]. apply reads_bind. eapply reads_mono; [apply getMutationLease_reads|].
  intros [[l status]|e] t seen' H; [|done]. destruct H as (Hz & Hn & Hs). simpl. destruct (status =? 404) eqn:E; bool_hyps.
  - destruct (Hn E) as (u & Hu & _ & Hx). exists u. split; [done|]. by apply fence_at_absent.
  - destruct (success status) eqn:E'; simpl.
    2: { pose proof (status_error status Hz E E'). by destruct (kubernetesFenceStatusError status). }
    destruct (mutationFenceFromLease l) as [f|] eqn:Hf; [|done].
    case_test; [done|]. simpl. bool_hyps. destruct (Hs eq_refl) as (u & Hu & _ & Hx). exists u. split; [done|].
    rewrite (fence_at_stored u k l f) by done. by rewrite bool_decide_eq_true_2.
Qed.

(** The reads that follow a write whose outcome is open. *)
Lemma readback_reads {A} k (f : result (option mutationFence) -> kprogram A) s seen Q :
  (forall r t seen', match r with Ok x => exists u, u ∈ seen' /\ fence_at u k = x | Err _ => True end -> reads (f r) t seen' Q) ->
  reads (let! c := readbackContext in let! r := Get sha256_hex20 namespace c k in f r) s seen Q.
Proof.
  intros Hf. intros s0 r s1 Hl ->. split; [by intros p|]. cbn [bind]. apply reads_bind.
  eapply reads_mono; [apply Get_reads|]. intros x t seen' Hx. by apply Hf.
Qed.

(** ** Writes *)

(** A conditional write finds the version that was read. *)
Lemma same_version name l sent old s :
  was_stored name l s -> stored s (lease_path name) = Some old -> names_version sent old ->
  L_UID sent = L_UID l -> L_ResourceVersion sent = L_ResourceVersion l -> old = l.
Proof.
  intros (s0 & Hl & Hs) Hold [Hu Hr] Eu Er. destruct (stored_versioned s0 _ l Hs) as [Nu Nr].
  eapply version_identifies; [exact Hl|exact Hs|exact Hold| |]; destruct Hu, Hr; congruence.
Qed.

Lemma only_key_stored s K l f :
  stored s (key_path K) = Some l -> mutationFenceFromLease l = Ok f -> Key f = K -> only_key s K.
Proof. right. eauto. Qed.

Lemma same_state_refl f : sameMutationFenceState f f = true.
Proof. unfold sameMutationFenceState, sameMutationFenceAuthority, sameMutationFenceAttempt. by rewrite !bool_decide_eq_true_2. Qed.

Lemma represented s m K l f :
  represents s m -> stored s (key_path K) = Some l -> mutationFenceFromLease l = Ok f -> Key f = K -> m !! K = Some f.
Proof.
  intros Hm Hs Hf HK. rewrite (Hm K), (fence_at_stored s K l f) by done. by rewrite bool_decide_eq_true_2.
Qed.

Lemma delete_effect f l s t old :
  was_stored (mutationFenceLeaseName sha256_hex20 (Key f)) l s -> mutationFenceFromLease l = Ok f ->
  stored s (key_path (Key f)) = Some old -> names_version l old -> stored t (key_path (Key f)) = None ->
  (forall p, p <> key_path (Key f) -> stored t p = stored s p) -> effect (OpDelete f) s t.
Proof.
  intros Hw Hf Hs Hv Ht Ho m Hm. assert (old = l) as -> by (by eapply same_version).
  pose proof (represented s m (Key f) l f Hm Hs Hf eq_refl) as Hk. simpl. unfold MemoryStore.Delete. rewrite Hk, same_state_refl.
  split; [done|]. eapply represents_remove; eauto using only_key_stored.
Qed.

Lemma update_effect o f g l sent new s t old :
  was_stored (mutationFenceLeaseName sha256_hex20 (Key f)) l s -> mutationFenceFromLease l = Ok f -> Key g = Key f ->
  (forall m, m !! Key f = Some f -> succeeds (store_step m o).1 = true /\ (store_step m o).2 = <[Key f := g]> m) ->
  L_UID sent = L_UID l -> L_ResourceVersion sent = L_ResourceVersion l ->
  stored s (key_path (Key f)) = Some old -> names_version sent old -> mutationFenceFromLease new = Ok g ->
  stored t (key_path (Key f)) = Some new -> (forall p, p <> key_path (Key f) -> stored t p = stored s p) -> effect o s t.
Proof.
  intros Hw Hf HK Hop Hu Hr Hs Hv Hg Ht Ho m Hm. assert (old = l) as -> by (by eapply same_version).
  pose proof (represented s m (Key f) l f Hm Hs Hf eq_refl) as Hk. destruct (Hop m Hk) as [? ->].
  split; [done|]. by apply (represents_write s t m (Key f) new g); eauto using only_key_stored.
Qed.

(** ** The fence a written Lease carries *)

Lemma from_lease_written sent new : written sent new -> mutationFenceFromLease new = mutationFenceFromLease sent.
Proof. intros (El & Ea & Eh). unfold mutationFenceFromLease. by rewrite El, Ea, Eh. Qed.

(** Replacing annotations other than key, intent and attempt. *)
Lemma from_lease_annotations l f m g :
  mutationFenceFromLease l = Ok f ->
  annotation m keyAnnotation = Key f -> annotation m intentAnnotation = Intent f -> annotation m attemptAnnotation = Attempt f ->
  g = Build_mutationFence (Key f) (Intent f) (Attempt f) (ToLower (annotation m receiptAnnotation)) (annotation m observationAnnotation) ->
  validateMutationFence g = None -> mutationFenceFromLease (set_annotations l m) = Ok g.
Proof.
  unfold mutationFenceFromLease, set_annotations; simpl. intros Hf -> -> -> -> Hv. rewrite Hv.
  case_test_in Hf; [done|]. destruct (validateMutationFence _); [done|]. case_test_in Hf; [done|].
  injection Hf as <-. simpl in *. by match goal with H : _ && _ = false |- _ => rewrite H end.
Qed.

Lemma from_lease_fields l f :
  mutationFenceFromLease l = Ok f ->
  annotation (L_Annotations l) keyAnnotation = Key f /\ annotation (L_Annotations l) intentAnnotation = Intent f
  /\ annotation (L_Annotations l) attemptAnnotation = Attempt f
  /\ ToLower (annotation (L_Annotations l) receiptAnnotation) = Receipt f
  /\ annotation (L_Annotations l) observationAnnotation = Observation f.
Proof.
  unfold mutationFenceFromLease. intros Hf. case_test_in Hf; [done|]. destruct (validateMutationFence _); [done|].
  case_test_in Hf; [done|]. by injection Hf as <-.
Qed.

Lemma from_lease_receipt l f u :
  mutationFenceFromLease l = Ok f -> uuidPattern (ToLower u) = true ->
  mutationFenceFromLease (set_annotations l (<[receiptAnnotation := ToLower u]> (L_Annotations l))) = Ok (set_Receipt f (ToLower u)).
Proof.
  intros Hf Hu. pose proof (from_lease_valid l f Hf) as Hv. destruct (from_lease_fields l f Hf) as (Hk & Hi & Ha & _ & Ho).
  eapply (from_lease_annotations l f); [done|..]; rewrite ?annotation_insert; simpl; try done.
  - unfold set_Receipt. by rewrite ToLower_idem, <-Ho.
  - revert Hv. unfold validateMutationFence; simpl. rewrite ToLower_idem, Hu, andb_false_r. by repeat case_test.
Qed.

Lemma from_lease_observation l f o :
  mutationFenceFromLease l = Ok f ->
  (if o == "" then None else match decodeMutationObservation o with Err e => Some e | Ok _ => None end) = None ->
  mutationFenceFromLease (set_annotations l (if o == "" then delete observationAnnotation (L_Annotations l)
    else <[observationAnnotation := o]> (L_Annotations l))) = Ok (set_Observation f o).
Proof.
  intros Hf Ho. pose proof (from_lease_valid l f Hf) as Hv. destruct (from_lease_fields l f Hf) as (Hk & Hi & Ha & Hr & _).
  assert (validateMutationFence (set_Observation f o) = None) as Hg.
  { revert Hv Ho. unfold validateMutationFence; simpl. by repeat case_test. }
  destruct (decide (o = "")) as [->|E]; [rewrite bool_decide_eq_true_2 by done|rewrite bool_decide_eq_false_2 by done];
    eapply (from_lease_annotations l f); rewrite ?annotation_insert, ?annotation_delete; simpl; try done;
    unfold set_Observation; by rewrite Hr.
Qed.

(** ** Operations *)

(** The operation of the atomic map that a call of the Lease store stands for: receipts are stored
    in lower case. *)
Definition canonical (o : store_op) : store_op :=
  match o with
  | OpCreate f => OpCreate (set_Receipt f (ToLower (Receipt f)))
  | OpSetReceipt f r => OpSetReceipt f (ToLower r)
  | _ => o
  end.

Definition created (r : result (option mutationFence * bool)) : result lease_reply :=
  result_map (fun x => match x.1 with Some f => Replied (RCreated f x.2) | None => Empty end) r.
Definition updated (r : result (option mutationFence)) : result lease_reply :=
  result_map (fun x => match x with Some f => Replied (RUpdated (Ok f)) | None => Empty end) r.
Definition deleted (e : goerr) : result lease_reply := match e with None => Ok (Replied (RDeleted None)) | Some e => Err e end.

(** A call, and its reply unless it fails. *)
Definition lease_op (ctx : context) (o : store_op) : kprogram (result lease_reply) :=
  match o with
  | OpGet k => let! r := Get sha256_hex20 namespace ctx k in Ret (result_map (fun x => Replied (RFence x)) r)
  | OpCreate f => let! r := Create sha256_hex20 namespace ctx f in Ret (created r)
  | OpSetReceipt f u => let! r := SetReceipt sha256_hex20 namespace ctx f u in Ret (updated r)
  | OpSetObservation f ob => let! r := SetObservation sha256_hex20 namespace ctx f ob in Ret (updated r)
  | OpDelete f => let! e := Delete sha256_hex20 namespace ctx f in Ret (deleted e)
  end.

Lemma linearizes_current {A} o ctx f (k : found_lease -> kprogram A) s seen Q :
  (forall r t seen', match r with
     | LeaseGone => observed (mutationFenceLeaseName sha256_hex20 (Key f)) None t seen'
     | LeaseRefused err => err <> None
     | LeaseFound l current => mutationFenceFromLease l = Ok current
         /\ observed (mutationFenceLeaseName sha256_hex20 (Key f)) (Some l) t seen'
     end -> linearizes o (k r) t seen' Q) ->
  linearizes o (bind (currentFence sha256_hex20 namespace ctx f) k) s seen Q.
Proof.
  intros H. apply linearizes_bind. eapply reads_mono; [apply currentFence_reads|]. intros r t seen' Hr. by apply H.
Qed.

(** An observed Lease that carries the fence of its key. *)
Lemma observed_fence K l f t seen :
  observed (mutationFenceLeaseName sha256_hex20 K) (Some l) t seen -> mutationFenceFromLease l = Ok f -> Key f = K ->
  exists u, u ∈ seen /\ fence_at u K = Some f.
Proof.
  intros (u & Hu & _ & Hs) Hf HK. exists u. split; [done|].
  rewrite (fence_at_stored u K l f) by done. by rewrite bool_decide_eq_true_2.
Qed.

(** Reads that end in the reply of a confirmed state. *)
Ltac readback := apply readback_reads; intros [[?|]|e] ? ? ?Hr.

Lemma Delete_linearizes ctx f s seen :
  linearizes (OpDelete f) (Delete sha256_hex20 namespace ctx f) s seen (fun e => confirmed (OpDelete f) (deleted e)).
Proof.
  unfold Delete. case_test; [done|]. apply linearizes_current. intros [|[e|]|l c] t seen' H; [|done|done|].
  { destruct H as (u & Hu & _ & Hx). simpl. exists u. split; [done|]. by apply fence_at_absent. }
  destruct H as [Hf Hw]. case_test; [done|]. bool_hyps. apply same_state_eq in Heqb as <-. apply linearizes_write.
  - intros s0 r s1 Hl Ha. simpl in Ha. apply delete_removes in Ha as [?|(old & Hs & Hv & Ht & Ho)]; [by left|right].
    eapply delete_effect; eauto using was_stored_later, observed_was_stored.
  - intros s0 [[st data] err] t' _. case_test.
    { bool_hyps. assert (kubernetesFenceStatusError st <> None) by (by apply status_error; [apply definite_status|..]).
      simpl. unfold deleted. by destruct (kubernetesFenceStatusError st). }
    readback; simpl; [|done|]; unfold deleted, Join; by destruct err, (kubernetesFenceStatusError st).
Qed.

(** A conditional PUT of the Lease that carries [f], with annotations that carry [g]. *)
Lemma put_linear o ctx f g l m t0 s r t :
  was_stored (mutationFenceLeaseName sha256_hex20 (Key f)) l t0 -> later t0 s -> mutationFenceFromLease l = Ok f -> Key g = Key f ->
  (forall m, m !! Key f = Some f -> succeeds (store_step m o).1 = true /\ (store_step m o).2 = <[Key f := g]> m) ->
  mutationFenceFromLease (set_annotations l m) = Ok g ->
  answers (KRequest ctx "PUT" (key_path (Key f)) (Some (marshal_lease (set_annotations l m)))) s r t ->
  unchanged s t \/ effect o s t.
Proof.
  intros Hw Hl Hf HK Hop Hg Ha. destruct r as [[st data] err]. simpl in Ha.
  apply put_replaces in Ha as [[?|(old & new & Hs & Hv & Hn & Ht & Ho)] _]; [by left|right].
  eapply (update_effect o f g l (set_annotations l m) new s t old); eauto using was_stored_later.
  by rewrite (from_lease_written _ _ Hn).
Qed.

(** A 404 to a PUT shows that there is no fence. *)
Lemma put_absent ctx K l data s t :
  answers (KRequest ctx "PUT" (key_path K) (Some (marshal_lease l))) s (404, data, None) t -> fence_at t K = None.
Proof. intros Ha. simpl in Ha. apply put_replaces in Ha as (_ & _ & Hn). apply fence_at_absent. by apply Hn. Qed.

(** What follows a PUT that did not succeed: empty where there is no fence, an error, or the readback. *)
Lemma put_fails {A} o ctx K l st data err s t seen (none : A) (reply : result A -> result lease_reply) (back : kprogram (result A)) :
  answers (KRequest ctx "PUT" (key_path K) (Some (marshal_lease l))) s (st, data, err) t ->
  (err == None) && success st = false ->
  (forall x, (fence_at x K = None -> confirms o Empty (fence_at x))) ->
  reply (Ok none) = Ok Empty -> (forall e, reply (Err e) = Err e) ->
  ((forall rest, exists e, nil_with none (Join (err :: kubernetesFenceStatusError st :: rest)) = Err e) ->
   reads back t (t :: seen) (fun r => confirmed o (reply r))) ->
  reads (if negb (openOutcome st err) then Ret (nil_with none (kubernetesFenceStatusError st)) else back) t (t :: seen)
    (fun r => confirmed o (reply r)).
Proof.
  intros Ha Hs He Hok Herr Hback. unfold openOutcome. destruct err as [e|].
  { apply Hback. intros rest. apply open_error; done. }
  rewrite bool_decide_eq_true_2 in Hs by done. simpl in Hs. rewrite (bool_decide_eq_true_2 (None = None)) by done. simpl.
  destruct (ambiguousKubernetesMutationStatus st || (st =? 409)) eqn:E; simpl.
  - apply Hback. intros rest. apply open_error; intros _; [by eapply answered_status|]. apply orb_true_iff in E. by rewrite Z.eqb_eq in E.
  - apply orb_false_iff in E as [E _]. destruct (refused_reply none st E Hs) as [[-> ->]|[e ->]]; [|by rewrite Herr].
    rewrite Hok. exists t. split; [by left|]. apply He. by eapply put_absent.
Qed.

(** A successful answer to a PUT shows the fence that is stored. *)
Lemma put_shows ctx K l st data s t l' f :
  answers (KRequest ctx "PUT" (key_path K) (Some (marshal_lease l))) s (st, data, None) t -> success st = true ->
  decodeMutationLease data = Ok l' -> mutationFenceFromLease l' = Ok f -> Key f = K -> fence_at t K = Some f.
Proof.
  intros Ha Hst Hd Hf HK. simpl in Ha. apply put_replaces in Ha as (_ & Hg & _).
  rewrite (fence_at_stored t K l' f) by auto. by rewrite bool_decide_eq_true_2.
Qed.

Lemma SetReceipt_linearizes ctx f u s seen :
  linearizes (canonical (OpSetReceipt f u)) (SetReceipt sha256_hex20 namespace ctx f u) s seen
    (fun r => confirmed (OpSetReceipt f u) (updated r)).
Proof.
  unfold SetReceipt, putLease. destruct (validateMutationFence f); [done|]. destruct (uuidPattern (ToLower u)) eqn:Hu; [|done].
  apply linearizes_current. intros [|[e|]|l c] t seen' H; [done..|]. destruct H as [Hf Hw].
  destruct (sameMutationFenceState c f) eqn:Hc; [|done]. apply same_state_eq in Hc as <-. cbn [negb]. cbv iota. case_test.
  { bool_hyps. destruct (observed_fence (Key c) l c t seen') as (x & Hx & Hfx); [done..|]. exists x. split; [done|].
    simpl. eauto using same_attempt_refl. }
  apply linearizes_write.
  - intros s0 r s1 Hl Ha. eapply (put_linear _ ctx c (set_Receipt c (ToLower u))); eauto using from_lease_receipt, observed_was_stored.
    intros m Hm. simpl. unfold MemoryStore.SetReceipt. by rewrite Hm, same_state_refl.
  - intros s0 [[st data] err] t' Ha. case_test.
    + bool_hyps. subst err. destruct (decodeMutationLease data) as [l'|] eqn:Hd; [|done].
      destruct (mutationFenceFromLease l') as [g|] eqn:Hg; [|done]. case_test; [done|]. bool_hyps.
      exists t'. split; [by left|]. simpl. split_and!; [by eapply put_shows| |done].
      unfold sameMutationFenceAttempt. by rewrite !bool_decide_eq_true_2.
    + eapply (put_fails (OpSetReceipt c u) ctx (Key c)); [done|done|done|done|done|]. intros Hje. readback;
        [|by destruct (Hje []) as [? ->]|by destruct (Hje [Some e]) as [? ->]]. case_test; [|by destruct (Hje []) as [? ->]].
      bool_hyps. destruct Hr as (x & Hx & Hfx). exists x.
      split; [done|]. simpl. split_and!; [done| |done]. unfold sameMutationFenceAttempt.
      by rewrite !bool_decide_eq_true_2 by (done || by eapply fence_at_key).
Qed.

Lemma SetObservation_linearizes ctx f ob s seen :
  linearizes (OpSetObservation f ob) (SetObservation sha256_hex20 namespace ctx f ob) s seen
    (fun r => confirmed (OpSetObservation f ob) (updated r)).
Proof.
  unfold SetObservation, putLease. destruct (validateMutationFence f); [done|].
  destruct (if ob == "" then None else _) eqn:Hob; [done|]. apply linearizes_current.
  intros [|[e|]|l c] t seen' H; [done..|]. destruct H as [Hf Hw]. case_test.
  { bool_hyps. destruct (observed_fence (Key f) l c t seen') as (x & Hx & Hfx); [done|done| |].
    { by apply same_authority_key. }
    exists x. by split_and!. }
  destruct (sameMutationFenceState c f) eqn:Hc; [|done]. apply same_state_eq in Hc as <-. cbn [negb]. cbv iota.
  apply linearizes_write.
  - intros s0 r s1 Hl Ha. eapply (put_linear _ ctx c (set_Observation c ob)); eauto using from_lease_observation, observed_was_stored.
    intros m Hm. simpl. unfold MemoryStore.SetObservation. rewrite Hm, same_state_refl.
    match goal with H : _ && sameMutationFenceAuthority _ _ = false |- _ => rewrite H end. simpl. by rewrite Hob.
  - intros s0 [[st data] err] t' Ha. case_test.
    + bool_hyps. subst err. destruct (decodeMutationLease data) as [l'|] eqn:Hd; [|done].
      destruct (mutationFenceFromLease l') as [g|] eqn:Hg; [|done]. case_test; [done|]. bool_hyps.
      exists t'. split; [by left|]. simpl. split_and!; [eapply put_shows; eauto using same_authority_key|done|done].
    + eapply (put_fails (OpSetObservation c ob) ctx (Key c)); [done|done|done|done|done|]. intros Hje. readback;
        [|by destruct (Hje []) as [? ->]|by destruct (Hje [Some e]) as [? ->]]. case_test; [|by destruct (Hje []) as [? ->]].
      case_test; [|done]. bool_hyps. destruct Hr as (x & Hx & Hfx). exists x. by split_and!.
Qed.

(** A successful answer to the POST shows the fence that is stored. *)
Lemma post_shows ctx f st data s t l' :
  answers (KRequest ctx "POST" (mutationLeaseCollectionPath namespace) (Some (marshal_lease (mutationFenceLease sha256_hex20 f namespace)))) s (st, data, None) t ->
  success st = true -> decodeMutationLease data = Ok l' -> mutationFenceFromLease l' = Ok f -> fence_at t (Key f) = Some f.
Proof.
  intros Ha Hst Hd Hf. simpl in Ha. apply post_creates in Ha as (_ & Hg & _).
  rewrite (fence_at_stored t (Key f) l' f) by auto. by rewrite bool_decide_eq_true_2.
Qed.

(** A 404 to the POST shows that there is no fence. *)
Lemma post_absent ctx f data s t :
  answers (KRequest ctx "POST" (mutationLeaseCollectionPath namespace) (Some (marshal_lease (mutationFenceLease sha256_hex20 f namespace)))) s (404, data, None) t ->
  fence_at t (Key f) = None.
Proof. intros Ha. simpl in Ha. apply post_creates in Ha as (_ & _ & Hn). apply fence_at_absent. by apply Hn. Qed.

Lemma Create_linearizes ctx f s seen :
  linearizes (canonical (OpCreate f)) (Create sha256_hex20 namespace ctx f) s seen (fun r => confirmed (OpCreate f) (created r)).
Proof.
  unfold Create. destruct (validateMutationFence f) eqn:Hv; [done|]. apply linearizes_write.
  - intros s0 [[st data] err] s1 Hl Ha. simpl in Ha. apply post_creates in Ha as [[?|(Hs & new & Hn & Ht & Ho)] _]; [by left|right].
    intros m Hm. simpl in Hs. assert (m !! Key f = None) as Hk by (rewrite (Hm (Key f)); by apply fence_at_absent).
    simpl. unfold MemoryStore.Create; simpl. rewrite Hk. split; [done|].
    eapply (represents_write s0 s1 m (Key f) new); eauto; [by left|]. rewrite (from_lease_written _ _ Hn). by apply fence_of_lease.
  - intros s0 [[st data] err] t Ha. case_test.
    + bool_hyps. subst err. destruct (decodeMutationLease data) as [l'|] eqn:Hd; [|done].
      destruct (mutationFenceFromLease l') as [g|] eqn:Hg; [|done]. case_test; [done|]. bool_hyps. subst g.
      exists t. split; [by left|]. simpl. split; [by eapply post_shows|]. intros _. apply same_attempt_refl.
    + assert (err = None -> success st = false) as Hs by (intros ->; by rewrite bool_decide_eq_true_2 in Heqb by done).
      case_test.
      { bool_hyps. subst err. specialize (Hs eq_refl). destruct (refused_reply (A := option mutationFence * bool) (None, false) st) as [[-> ->]|[e ->]]; [done|done| |done].
        exists t. split; [by left|]. simpl. by eapply post_absent. }
      assert (forall rest, exists e, nil_with (A := option mutationFence * bool) (None, false) (Join (err :: kubernetesFenceStatusError st :: rest)) = Err e) as Hje.
      { intros rest. apply open_error; intros ->; [by eapply answered_status|]. rewrite bool_decide_eq_true_2 in Heqb0 by done. simpl in Heqb0.
        destruct (st =? 409) eqn:E9; [right; by apply Z.eqb_eq|left]. by destruct (ambiguousKubernetesMutationStatus st). }
      readback; [|by destruct (Hje [Some (Msg "CSI mutation Lease create outcome is not visible")]) as [? ->]|by destruct (Hje [Some e]) as [? ->]].
      destruct Hr as (x & Hx & Hfx). exists x. split; [done|]. simpl.
      split; [done|]. apply attempt_of_parts. by eapply fence_at_key.
Qed.

Lemma lease_op_linearizes ctx o s : linearizes (canonical o) (lease_op ctx o) s [] (confirmed o).
Proof.
  destruct o as [k|f|f u|f ob|f]; apply linearizes_then;
    [|apply Create_linearizes|apply SetReceipt_linearizes|apply SetObservation_linearizes|apply Delete_linearizes].
  apply linearizes_reads. eapply reads_mono; [apply Get_reads|]. by intros [x|e].
Qed.
End Refinement.
