(* ===== verification/KubernetesPool.v ===== *)
(** * Controllers that share the Lease store

    Any number of controllers call the store at the same time. Their requests interleave, other
    clients act in between, and a call may stop anywhere. Whatever happens, the fences in the
    cluster are what some sequence of atomic calls leaves, in which each call occurs at most once,
    and every reply agrees with a point of that sequence. *)

From S2P Require Import Prelude GoErrors CSIFence Prog CSIAdapter KubernetesFence KubernetesFenceSpec KubernetesServer KubernetesRefinement.

Section Pool.
Context `{JT : JSONText} `{TT : TimeText} (sha256_hex20 : string -> string) {namespace : string} {LS : LeaseServer namespace}.

Abbreviation fence_at := (fence_at sha256_hex20).
Abbreviation represents := (represents sha256_hex20).
Abbreviation confirmed := (confirmed sha256_hex20 namespace).
Abbreviation linearizes := (linearizes sha256_hex20).

(** A call and what is left of it. *)
Abbreviation client := (store_op * kprogram (result lease_reply))%type.

(** One request of one call, or something else that leaves the fences alone. *)
Inductive pool_step : server * list client -> server * list client -> Prop :=
  | PoolRequest s before o x k after r t :
      answers x s r t -> pool_step (s, before ++ (o, Act x k) :: after) (t, before ++ (o, k r) :: after)
  | PoolOther s t pool : later s t -> (forall k, fence_at t k = fence_at s k) -> pool_step (s, pool) (t, pool).

Definition calling (calls : list (context * store_op)) : list client :=
  map (fun c => (c.2, lease_op sha256_hex20 namespace c.1 c.2)) calls.

(** Every call of the sequence did what it was asked for. *)
Fixpoint successful (m : MemoryStore.state) (ops : list store_op) : bool :=
  match ops with [] => true | o :: r => succeeds (store_step m o).1 && successful (store_step m o).2 r end.

Lemma store_run_app m a b : store_run m (a ++ b) = store_run (store_run m a) b.
Proof. revert m. induction a as [|o a IH]; intros m; simpl; [done|apply IH]. Qed.

Lemma successful_app m a b : successful m (a ++ b) = successful m a && successful (store_run m a) b.
Proof. revert m. induction a as [|o a IH]; intros m; simpl; [done|]. by rewrite IH, andb_assoc. Qed.

(** ** The invariant *)

(** Each state was left by a part of the sequence. *)
Definition recorded (m : MemoryStore.state) (applied : list store_op) (seen : list server) : Prop :=
  forall u, u ∈ seen -> exists before, before `prefix_of` applied /\ represents u (store_run m before).

(** Calls that may still take effect, and calls that only read. *)
Inductive tracks (m : MemoryStore.state) (applied : list store_op) (s : server) : list client -> list store_op -> Prop :=
  | TracksNil : tracks m applied s [] []
  | TracksPending o p u seen pool pending :
      later u s -> recorded m applied seen -> linearizes (canonical o) p u seen (confirmed o) ->
      tracks m applied s pool pending -> tracks m applied s ((o, p) :: pool) (canonical o :: pending)
  | TracksSettled o p u seen pool pending :
      later u s -> recorded m applied seen -> reads p u seen (confirmed o) ->
      tracks m applied s pool pending -> tracks m applied s ((o, p) :: pool) pending.

Lemma recorded_mono m a b seen : a `prefix_of` b -> recorded m a seen -> recorded m b seen.
Proof. intros Hab H u Hu. destruct (H u Hu) as (c & Hc & Hr). exists c. split; [by etrans|done]. Qed.

Lemma recorded_cons m applied t seen : represents t (store_run m applied) -> recorded m applied seen -> recorded m applied (t :: seen).
Proof. intros Ht Hs u [->|Hu]%elem_of_cons; [by exists applied|by apply Hs]. Qed.

Lemma tracks_mono m a b s t pool pending :
  a `prefix_of` b -> later s t -> tracks m a s pool pending -> tracks m b t pool pending.
Proof.
  intros Hab Hst. induction 1; [constructor|eapply TracksPending|eapply TracksSettled];
    try (by eapply later_trans); try (by eapply recorded_mono); done.
Qed.

Lemma tracks_app m a s pool pool' pending :
  tracks m a s (pool ++ pool') pending <-> exists p p', pending = p ++ p' /\ tracks m a s pool p /\ tracks m a s pool' p'.
Proof.
  revert pending. induction pool as [|[o q] pool IH]; intros pending; simpl.
  - split; [intros H; exists [], pending; split_and!; [done|constructor|done]|]. intros (p & p' & -> & Hp & ?). by inversion Hp; subst.
  - split.
    + inversion 1 as [|? ? u seen ? pend ? ? ? Ht|? ? u seen ? pend ? ? ? Ht]; subst;
        apply IH in Ht as (p & p' & -> & ? & ?); [exists (canonical o :: p), p'|exists p, p']; split_and!; try done;
        [by eapply TracksPending|by eapply TracksSettled].
    + intros (p & p' & -> & Hp & ?). inversion Hp; subst; [eapply TracksPending|eapply TracksSettled]; eauto; apply IH; eauto.
Qed.

Lemma represents_eq s t m : (forall k, fence_at t k = fence_at s k) -> represents s m -> represents t m.
Proof. intros H Hs k. by rewrite (Hs k), H. Qed.

Lemma represents_unchanged s t m : unchanged s t -> represents s m -> represents t m.
Proof. intros H. apply represents_eq. intros k. unfold KubernetesServer.fence_at. by rewrite H. Qed.

(** One request keeps the call on track. *)
Lemma tracks_request m applied s t o x k r pending :
  tracks m applied s [(o, Act x k)] pending -> answers x s r t ->
  represents s (store_run m applied) -> successful m applied = true ->
  exists applied' pending', tracks m applied' t [(o, k r)] pending' /\ applied `prefix_of` applied'
    /\ applied' ++ pending' ≡ₚ applied ++ pending /\ represents t (store_run m applied') /\ successful m applied' = true.
Proof.
  intros Ht Ha Hs Hok. pose proof (later_refl t) as Htt.
  inversion Ht as [|? ? u seen ? pend Hl Hr Hlin Hn|? ? u seen ? pend Hl Hr Hlin Hn]; inversion Hn; subst; simpl in Hlin.
  - destruct (Hlin s r t Hl Ha) as [[Hu Hk]|[He Hk]].
    + apply (represents_unchanged s t) in Hs; [|done]. exists applied, [canonical o]. split_and!; try done.
      econstructor; [exact Htt|by apply recorded_cons|exact Hk|constructor].
    + destruct (He _ Hs) as [Hsuc Hrep]. exists (applied ++ [canonical o]), [].
      assert (represents t (store_run m (applied ++ [canonical o]))) as Hrep' by (by rewrite store_run_app).
      split_and!; [|by apply prefix_app_r|by rewrite app_nil_r|done|].
      * apply (TracksSettled _ _ _ _ _ t (t :: seen)); [done| |done|constructor].
        apply recorded_cons; [done|]. eapply recorded_mono; [by apply prefix_app_r|done].
      * rewrite successful_app, Hok. simpl. by rewrite Hsuc.
  - destruct (Hlin s r t Hl Ha) as [Hu Hk]. apply (represents_unchanged s t) in Hs; [|done]. exists applied, [].
    split_and!; try done. apply (TracksSettled _ _ _ _ _ t (t :: seen)); [done|by apply recorded_cons|done|constructor].
Qed.

(** The calls so far are the atomic ones in [applied]; [pending] may follow. *)
Definition on_track (m : MemoryStore.state) (all : list store_op) (σ : server * list client) : Prop :=
  exists applied pending, tracks m applied σ.1 σ.2 pending /\ applied ++ pending ≡ₚ all
    /\ represents σ.1 (store_run m applied) /\ successful m applied = true.

Lemma on_track_step m all σ τ : pool_step σ τ -> on_track m all σ -> on_track m all τ.
Proof.
  intros Hst (applied & pending & Ht & Hp & Hs & Hok). destruct Hst as [s b o x k a r t Ha|s t pool Hl Hf]; simpl in *.
  - change (b ++ (o, Act x k) :: a) with (b ++ [(o, Act x k)] ++ a) in Ht. apply tracks_app in Ht as (pb & q & -> & Hb & Ht).
    apply tracks_app in Ht as (pc & pa & -> & Hc & Hafter).
    destruct (tracks_request m applied s t o x k r pc) as (applied' & pc' & Hc' & Hpre & Hperm & Hs' & Hok'); [done..|].
    pose proof (answers_later x s r t Ha) as Hlat. exists applied', (pb ++ pc' ++ pa). split_and!; [|..|done|done].
    + apply (tracks_app _ _ _ b ((o, k r) :: a)). exists pb, (pc' ++ pa). split_and!; [done|by eapply tracks_mono|].
      apply (tracks_app _ _ _ [(o, k r)] a). exists pc', pa. split_and!; [done|done|by eapply tracks_mono].
    + rewrite <-Hp. rewrite (Permutation_app_swap_app applied' pb), (Permutation_app_swap_app applied pb).
      by rewrite !(app_assoc applied'), !(app_assoc applied), Hperm.
  - exists applied, pending. split_and!; [by eapply tracks_mono|done|by eapply represents_eq|done].
Qed.

Lemma on_track_start s m calls : represents s m -> on_track m (map canonical calls.*2) (s, calling calls).
Proof.
  intros Hs. exists [], (map canonical calls.*2). simpl. split_and!; [|done|done|done].
  induction calls as [|[ctx o] calls IH]; simpl; [constructor|].
  apply (TracksPending _ _ _ _ _ s []); [apply later_refl|by intros u ?%not_elem_of_nil|apply lease_op_linearizes|done].
Qed.

Lemma confirms_ext o r f g : (forall k, f k = g k) -> confirms o r f -> confirms o r g.
Proof. intros H. unfold confirms, reply_agrees. repeat case_match; by rewrite <-?H. Qed.

(** A finished call was confirmed by a state on the way. *)
Lemma tracks_confirmed m applied s pool pending o r :
  tracks m applied s pool pending -> (o, Ret (Ok r)) ∈ pool ->
  exists before, before `prefix_of` applied /\ confirms o r (fun k => store_run m before !! k).
Proof.
  assert (forall o' (x : result lease_reply) u seen, recorded m applied seen -> confirmed o' x u seen -> x = Ok r ->
    exists before, before `prefix_of` applied /\ confirms o' r (fun k => store_run m before !! k)) as Hc.
  { intros o' x u seen Hr Hx ->. destruct Hx as (v & Hv & Hc). destruct (Hr v Hv) as (b & Hb & Hm). exists b.
    split; [done|]. eapply confirms_ext; [|exact Hc]. intros k. by rewrite (Hm k). }
  induction 1 as [|o' p u seen pool pending Hl Hr Hlin Ht IH|o' p u seen pool pending Hl Hr Hlin Ht IH];
    [by intros ?%not_elem_of_nil|..]; intros [[= -> <-]|Hin]%elem_of_cons;
    [exact (Hc _ _ u seen Hr Hlin eq_refl)|by apply IH|exact (Hc _ _ u seen Hr Hlin eq_refl)|by apply IH].
Qed.

Lemma pool_on_track s m calls σ : represents s m -> rtc pool_step (s, calling calls) σ -> on_track m (map canonical calls.*2) σ.
Proof.
  intros Hs. pose proof (on_track_start s m calls Hs) as H. revert H. generalize (s, calling calls). intros σ0 H Hrun.
  induction Hrun as [|? ? ? Hst Hrun IH]; [done|]. apply IH. by eapply on_track_step.
Qed.

(** ** Exclusivity *)

Lemma represents_keyed s m : represents s m -> keyed m.
Proof. intros Hm k f Hk. rewrite (Hm k) in Hk. by eapply fence_at_key. Qed.

Lemma keyed_run ops m : keyed m -> keyed (store_run m ops).
Proof. revert m. induction ops as [|o ops IH]; intros m Hm; simpl; [done|]. apply IH. by apply keyed_step. Qed.

(** Along a sequence of calls the attempt of a key stays, unless a call deletes it. *)
Lemma run_keeps_attempt ops : forall m k f g,
  keyed m -> m !! k = Some f -> store_run m ops !! k = Some g ->
  sameMutationFenceAttempt f g = true \/ exists d, OpDelete d ∈ ops /\ sameMutationFenceAttempt f d = true.
Proof.
  induction ops as [|o ops IH]; intros m k f g Hm Hf Hg; simpl in *.
  { left. rewrite Hf in Hg. injection Hg as <-. apply same_attempt_refl. }
  destruct (deletes k m o) eqn:Hd.
  - destruct o as [| | | |d]; try done. simpl in Hd. bool_hyps. assert (d = f) as -> by congruence.
    right. exists f. split; [by left|apply same_attempt_refl].
  - destruct (step_keeps_attempt m o k f) as (f' & Hf' & Hs); [done..|].
    destruct (IH (store_step m o).2 k f' g) as [H|(d & H1 & H2)]; [by apply keyed_step|done|done|..].
    + left. by eapply same_attempt_trans.
    + right. exists d. split; [by right|]. by eapply same_attempt_trans.
Qed.

Lemma same_attempt_sym f g : sameMutationFenceAttempt f g = true -> sameMutationFenceAttempt g f = true.
Proof. unfold sameMutationFenceAttempt. intros. bool_hyps. by rewrite !bool_decide_eq_true_2. Qed.

Lemma canonical_delete ops d : OpDelete d ∈ map canonical ops -> OpDelete d ∈ ops.
Proof. intros ([] & [= ->] & ?)%list_elem_of_fmap; done. Qed.

(** The later of two points of a sequence. *)
Lemma acquired_between m k a b f g c d :
  keyed m -> a `prefix_of` b -> store_run m a !! k = Some f -> store_run m b !! k = Some g ->
  sameMutationFenceAttempt f c = true -> sameMutationFenceAttempt g d = true -> sameMutationFenceAttempt c d = false ->
  exists e, OpDelete e ∈ b /\ sameMutationFenceAttempt e c = true.
Proof.
  intros Hm [rest ->] Hf Hg Hc Hd Hne. rewrite store_run_app in Hg.
  destruct (run_keeps_attempt rest (store_run m a) k f g) as [H|(e & He & Hs)]; [by apply keyed_run|done|done|..].
  - exfalso. assert (sameMutationFenceAttempt c d = true); [|congruence].
    eapply same_attempt_trans; [by apply same_attempt_sym|]. by eapply same_attempt_trans.
  - exists e. split; [set_solver|]. eapply same_attempt_trans; [by apply same_attempt_sym|done].
Qed.

(** ** Theorems *)

(** C20: the Lease store refines the atomic map. Controllers call its operations concurrently
    against an API server with optimistic concurrency; requests interleave with each other and with
    other clients, answers may be lost or wrong about the outcome, calls may stop anywhere. At any
    time the fences in the cluster are what a sequence of successful atomic calls of the in-memory
    store leaves, in which each call occurs at most once, and every call that returned without an
    error agrees with some point of that sequence: a fence that it returned is what the map held
    there, and where it returned neither a fence nor an error, as Create, SetReceipt and
    SetObservation do when their write is answered 404, or no fence, the map held none. *)
Theorem lease_store_refines s m calls t pool :
  represents s m -> rtc pool_step (s, calling calls) (t, pool) ->
  exists applied, applied ⊆+ map canonical calls.*2 /\ successful m applied = true /\ represents t (store_run m applied)
    /\ forall o r, (o, Ret (Ok r)) ∈ pool ->
         exists before, before `prefix_of` applied /\ confirms o r (fun k => store_run m before !! k).
Proof.
  intros Hs Hrun. destruct (pool_on_track s m calls (t, pool) Hs Hrun) as (applied & pending & Ht & Hp & Hr & Hok).
  exists applied. split_and!; [|done|done|].
  - rewrite <-Hp. by apply submseteq_inserts_r.
  - intros o r Hin. by eapply tracks_confirmed.
Qed.

(** A fence on Leases is exclusive in the cluster. When two concurrent Creates for one key,
    with different attempt tokens, are both told that they acquired it, then a Delete was called
    with a fence of one of the two attempts: nobody else's call can take a held fence away. *)
Theorem lease_store_exclusive s m calls t pool c d f g :
  represents s m -> rtc pool_step (s, calling calls) (t, pool) ->
  (OpCreate c, Ret (Ok (Replied (RCreated f true)))) ∈ pool -> (OpCreate d, Ret (Ok (Replied (RCreated g true)))) ∈ pool ->
  Key c = Key d -> Attempt c <> Attempt d ->
  exists e, OpDelete e ∈ calls.*2 /\ (sameMutationFenceAttempt e c = true \/ sameMutationFenceAttempt e d = true).
Proof.
  intros Hs Hrun Hc Hd HK HA. destruct (pool_on_track s m calls (t, pool) Hs Hrun) as (applied & pending & Ht & Hp & _ & _).
  pose proof (represents_keyed s m Hs) as Hm.
  assert (sameMutationFenceAttempt c d = false) as Hne.
  { unfold sameMutationFenceAttempt. by rewrite (bool_decide_eq_false_2 _ HA), andb_false_r. }
  assert (forall e b, b `prefix_of` applied -> OpDelete e ∈ b -> OpDelete e ∈ calls.*2) as Hin.
  { intros e b [rest ->] He. apply canonical_delete. rewrite <-Hp. set_solver. }
  destruct (tracks_confirmed _ _ _ _ _ _ _ Ht Hc) as (a & Ha & Hf & Hfc).
  destruct (tracks_confirmed _ _ _ _ _ _ _ Ht Hd) as (b & Hb & Hg & Hgd). rewrite <-HK in Hg.
  destruct (prefix_weak_total a b applied Ha Hb) as [Hab|Hab].
  - destruct (acquired_between m (Key c) a b f g c d) as (e & He & Hs'); auto. exists e. eauto.
  - destruct (acquired_between m (Key c) b a g f d c) as (e & He & Hs'); auto; [|exists e; eauto].
    destruct (sameMutationFenceAttempt d c) eqn:E; [|done]. apply same_attempt_sym in E. congruence.
Qed.
End Pool.
