(* ===== verification/KubernetesReference.v ===== *)
(** * A reference API server

    A log of writes with the Leases they leave: the interface of the API server is satisfiable, by
    a server that runs. *)

From S2P Require Import Prelude GoErrors CSIFence Prog CSIAdapter KubernetesFence KubernetesFenceSpec KubernetesWire KubernetesServer KubernetesRefinement KubernetesPool CSIWorld CSIRecovery.

(** ** Leases of any duration *)

Lemma set_fields_error {A} d (f : field_setter A) x key v r e :
  f x key v = Some (Err e) -> set_fields d f x ((key, v) :: r) = Err e.
Proof. intros H. simpl. by rewrite H. Qed.

Lemma unmarshal_spec_range av kd nm ns uid rv lb an hi ld :
  ~ in_int32 ld -> exists e,
  unmarshal_struct false spec_setter (Build_kubernetesLease av kd nm ns uid rv lb an "" 0)
    (JObj (omitempty "holderIdentity" hi ++ if ld =? 0 then [] else [("leaseDurationSeconds", JInt ld)])) = Err e.
Proof.
  intros Hl. unfold unmarshal_struct.
  rewrite (set_fields_omitempty _ _ _ (Build_kubernetesLease av kd nm ns uid rv lb an hi 0)); [|by intros ->|reflexivity].
  destruct (ld =? 0) eqn:E; bool_hyps; [subst; exfalso; apply Hl; unfold in_int32; lia|].
  eexists. apply set_fields_error.
  transitivity (Some (set_int32 (fun z => Build_kubernetesLease av kd nm ns uid rv lb an hi z) (Build_kubernetesLease av kd nm ns uid rv lb an hi 0) (JInt ld))); [reflexivity|].
  unfold set_int32, in_int32 in *. destruct (_ && _) eqn:E'; [bool_hyps; lia|reflexivity].
Qed.

(** What decodes from an encoded Lease is the Lease. *)
Lemma unmarshal_sound l l' : unmarshal_struct false lease_setter zero_lease (marshal_lease l) = Ok l' -> l' = l.
Proof.
  destruct (decide (-2147483648 <= L_LeaseDurationSeconds l <= 2147483647)) as [H|H].
  { rewrite unmarshal_lease by done. congruence. }
  destruct l as [av kd nm ns uid rv lb an hi ld]. simpl in H. destruct (unmarshal_spec_range av kd nm ns uid rv lb an hi ld H) as [e He].
  unfold marshal_lease; cbn [L_APIVersion L_Kind L_Name L_Namespace L_UID L_ResourceVersion L_Labels L_Annotations L_HolderIdentity L_LeaseDurationSeconds].
  unfold unmarshal_struct at 1. unfold zero_lease.
  rewrite (set_fields_omitempty _ _ _ (Build_kubernetesLease av "" "" "" "" "" ∅ ∅ "" 0)); [|by intros ->|reflexivity].
  rewrite (set_fields_omitempty _ _ _ (Build_kubernetesLease av kd "" "" "" "" ∅ ∅ "" 0)); [|by intros ->|reflexivity].
  rewrite (set_fields_step _ _ _ (Build_kubernetesLease av kd nm ns uid rv lb an "" 0)).
  2: { rewrite <-unmarshal_metadata. reflexivity. }
  rewrite (set_fields_error _ _ _ _ _ _ e); [done|]. rewrite <-He. reflexivity.
Qed.

(** ** The log *)

(** A write of a path: the UID's number and the Lease, or its removal. The number of older writes is the version. *)
Abbreviation log := (list (string * option (nat * kubernetesLease))).

Definition stamp (e : nat * nat * kubernetesLease) : kubernetesLease :=
  let '(u, n, l) := e in
  Build_kubernetesLease (L_APIVersion l) (L_Kind l) (L_Name l) (L_Namespace l) (String "u" (digits (Pos.of_succ_nat u)))
    (String "v" (digits (Pos.of_succ_nat n))) (L_Labels l) (L_Annotations l) (L_HolderIdentity l) (L_LeaseDurationSeconds l).

Fixpoint entry (s : log) (p : string) : option (nat * nat * kubernetesLease) :=
  match s with
  | [] => None
  | (q, x) :: r => if q == p then option_map (fun ul => (ul.1, List.length r, ul.2)) x else entry r p
  end.
Definition log_stored (s : log) (p : string) : option kubernetesLease := option_map stamp (entry s p).

Lemma entry_version s p u n l : entry s p = Some (u, n, l) -> (n < List.length s)%nat.
Proof.
  induction s as [|[q x] s IH]; simpl; [done|]. case_test; [|intros H; specialize (IH H); lia].
  destruct x as [[v y]|]; simpl; [|done]. intros [= _ <- _]. lia.
Qed.

Lemma entry_later s new p u n l : entry (new ++ s) p = Some (u, n, l) -> (n < List.length s)%nat -> entry s p = Some (u, n, l).
Proof.
  induction new as [|[q x] new IH]; simpl; [done|]. case_test; [|done]. destruct x as [[v y]|]; simpl; [|done].
  intros [= _ <- _]. rewrite length_app. lia.
Qed.

Lemma version_injective n m : digits (Pos.of_succ_nat n) = digits (Pos.of_succ_nat m) -> n = m.
Proof. intros H. apply (f_equal of_digits) in H. rewrite !of_digits_digits in H. lia. Qed.

(** ** Requests *)

Definition names_version_b (uid rv : string) (old : kubernetesLease) : bool :=
  ((uid == "") || (uid == L_UID old)) && ((rv == "") || (rv == L_ResourceVersion old)).

Definition precondition (j : json) (name : string) : string :=
  match j with
  | JObj fields => match field fields "preconditions" with
      | Some (JObj pre) => match field pre name with Some (JStr v) => v | _ => "" end
      | _ => ""
      end
  | _ => ""
  end.

Section Requests.
Context `{JT : JSONText} (namespace : string).

Definition failed (status : Z) : Z * string * goerr := (status, "", None).

(** Writes the Lease if its text can be returned. *)
Definition write_lease (s : log) (p : string) (u : nat) (l : kubernetesLease) (status : Z) : (Z * string * goerr) * log :=
  let new := stamp (u, List.length s, l) in
  if plain_lease new then ((status, print_json (marshal_lease new), None), (p, Some (u, l)) :: s) else (failed 400, s).

Definition serve (method path : string) (body : option json) (s : log) : (Z * string * goerr) * log :=
  if method == "GET" then
    match log_stored s path with
    | None => (failed 404, s)
    | Some l => if plain_lease l then ((200, print_json (marshal_lease l), None), s) else (failed 500, s)
    end
  else
  match body with
  | None => (failed 400, s)
  | Some j =>
    if method == "DELETE" then
      match entry s path with
      | None => (failed 404, s)
      | Some e =>
          if names_version_b (precondition j "uid") (precondition j "resourceVersion") (stamp e)
          then (failed 200, (path, None) :: s) else (failed 409, s)
      end
    else
    match unmarshal_struct false lease_setter zero_lease j with
    | Err _ => (failed 400, s)
    | Ok l =>
        if method == "POST" then
          match entry s (mutationLeasePath namespace (L_Name l)) with
          | Some _ => (failed 409, s)
          | None => write_lease s (mutationLeasePath namespace (L_Name l)) (List.length s) l 201
          end
        else
          match entry s path with
          | None => (failed 404, s)
          | Some (u, n, old) =>
              if names_version_b (L_UID l) (L_ResourceVersion l) (stamp (u, n, old)) then write_lease s path u l 200 else (failed 409, s)
          end
    end
  end.
End Requests.

(** ** The interface holds *)

Lemma names_version_ok sent old :
  names_version_b (L_UID sent) (L_ResourceVersion sent) old = true -> names_version sent old.
Proof. unfold names_version_b, names_version. rewrite andb_true_iff, !orb_true_iff, !bool_decide_eq_true. tauto. Qed.

Lemma precondition_uid l : precondition (deleteOptions l) "uid" = L_UID l.
Proof.
  unfold deleteOptions, omitempty. case_bool_decide as E; case_bool_decide; cbn; rewrite ?E; reflexivity.
Qed.

Lemma precondition_version l : precondition (deleteOptions l) "resourceVersion" = L_ResourceVersion l.
Proof.
  unfold deleteOptions, omitempty. case_bool_decide; case_bool_decide as E; cbn; rewrite ?E; reflexivity.
Qed.

Lemma stored_write s p x : log_stored ((p, x) :: s) p = option_map (fun ul => stamp (ul.1, List.length s, ul.2)) x.
Proof. unfold log_stored. simpl. rewrite bool_decide_eq_true_2 by done. by destruct x. Qed.

Lemma stored_other s p x q : q <> p -> log_stored ((p, x) :: s) q = log_stored s q.
Proof. intros H. unfold log_stored. simpl. by rewrite bool_decide_eq_false_2 by congruence. Qed.

Section Laws.
Context `{JT : JSONText} (namespace : string).

Lemma serve_post p j s : serve namespace "POST" p (Some j) s =
  match unmarshal_struct false lease_setter zero_lease j with
  | Err _ => (failed 400, s)
  | Ok l => match entry s (mutationLeasePath namespace (L_Name l)) with
      | Some _ => (failed 409, s)
      | None => write_lease s (mutationLeasePath namespace (L_Name l)) (List.length s) l 201
      end
  end.
Proof. reflexivity. Qed.

Lemma serve_put p j s : serve namespace "PUT" p (Some j) s =
  match unmarshal_struct false lease_setter zero_lease j with
  | Err _ => (failed 400, s)
  | Ok l => match entry s p with
      | None => (failed 404, s)
      | Some (u, n, old) =>
          if names_version_b (L_UID l) (L_ResourceVersion l) (stamp (u, n, old)) then write_lease s p u l 200 else (failed 409, s)
      end
  end.
Proof. reflexivity. Qed.

Lemma serve_delete p j s : serve namespace "DELETE" p (Some j) s =
  match entry s p with
  | None => (failed 404, s)
  | Some e => if names_version_b (precondition j "uid") (precondition j "resourceVersion") (stamp e)
      then (failed 200, (p, None) :: s) else (failed 409, s)
  end.
Proof. reflexivity. Qed.

Lemma serve_later m p b s : exists new, (serve namespace m p b s).2 = new ++ s.
Proof.
  unfold serve, write_lease. repeat case_test; simpl; first [by exists []|by eexists [_]].
Qed.

(** The answer to a write is what is stored after it. *)
Lemma write_lease_answer s p u l status status' data err t :
  write_lease s p u l status = ((status', data, err), t) -> success status = true ->
  (t = s /\ success status' = false)
  \/ (t = (p, Some (u, l)) :: s /\ forall l', decodeMutationLease data = Ok l' -> log_stored t p = Some l').
Proof.
  unfold write_lease. intros H Hs. case_test_in H; injection H as <- <- <- <-; [right|by left].
  split; [done|]. intros l'. rewrite stored_write, decode_lease by done. simpl. congruence.
Qed.

Lemma write_lease_status s p u l status status' data err t :
  write_lease s p u l status = ((status', data, err), t) -> status' = status \/ status' = 400.
Proof. unfold write_lease, failed. intros H. case_test_in H; injection H as <- <- <- <-; auto. Qed.

Lemma serve_status m p b s : (serve namespace m p b s).1.1.1 <> 0.
Proof.
  unfold serve, failed. repeat case_test; simpl; try done;
    match goal with |- context [write_lease ?s ?p ?u ?l ?st] =>
      destruct (write_lease s p u l st) as [[[st' data] err] t] eqn:E; apply write_lease_status in E as [->| ->]; done end.
Qed.

#[refine] Instance reference_server : LeaseServer namespace := {
  server := log;
  stored := log_stored;
  handle ctx m p b s ans t := serve namespace m p b s = (ans, t);
  later s t := exists new, t = new ++ s
}.
Proof.
  - intros s. by exists [].
  - intros s t u [a ->] [b ->]. exists (b ++ a). by rewrite app_assoc.
  - intros ctx m p b s ans t H. destruct (serve_later m p b s) as [new Hn]. exists new. by rewrite H in Hn.
  - intros ctx m p b s status data t H. pose proof (serve_status m p b s) as Hst. by rewrite H in Hst.
  - intros s p l. unfold log_stored. by destruct (entry s p) as [[[u n] x]|]; simpl; [intros [= <-]|].
  - intros s t p l l' [new ->]. unfold log_stored. destruct (entry s p) as [[[u n] x]|] eqn:E; [|done].
    destruct (entry (new ++ s) p) as [[[u' n'] x']|] eqn:E'; [|done]. simpl. intros [= <-] [= <-] _ [= Hv].
    apply version_injective in Hv as ->. apply entry_later in E'; [congruence|by eapply entry_version].
  - intros ctx name s status data err t. unfold serve, failed. simpl. intros H. case_test_in H; [case_test_in H|];
      injection H as <- <- <- <-; (split; [done|]); split; try done. intros _ _ l'. rewrite decode_lease by done. congruence.
  - intros ctx l s status data err t. rewrite serve_post. unfold failed. intros H.
    destruct (unmarshal_struct _ _ _ (marshal_lease l)) as [l'|] eqn:Hl; [|injection H as <- <- <- <-; split; [by left|done]].
    apply unmarshal_sound in Hl as ->. destruct (entry s _) eqn:E; [injection H as <- <- <- <-; split; [by left|done]|].
    assert (status <> 404) as Hst by (apply write_lease_status in H as [->| ->]; done).
    apply write_lease_answer in H as [[-> Hf]|[-> Hd]]; [split_and!; [by left|congruence|done]|split_and!; [right|auto|done]|done].
    split; [unfold log_stored; by rewrite E|]. eexists. rewrite stored_write. split_and!; [|done|]; [done|].
    intros p Hp. by apply stored_other.
  - intros ctx name l s status data err t. rewrite serve_put. unfold failed. intros H.
    destruct (unmarshal_struct _ _ _ (marshal_lease l)) as [l'|] eqn:Hl; [|injection H as <- <- <- <-; split; [by left|done]].
    apply unmarshal_sound in Hl as ->. destruct (entry s _) as [[[u n] old]|] eqn:E.
    2: { injection H as <- <- <- <-. split_and!; [by left|done|]. intros _ _. unfold log_stored. by rewrite E. }
    destruct (names_version_b _ _ _) eqn:Hv; [|injection H as <- <- <- <-; split; [by left|done]].
    assert (status <> 404) as Hst by (apply write_lease_status in H as [->| ->]; done).
    apply write_lease_answer in H as [[-> Hf]|[-> Hd]]; [split_and!; [by left|congruence|done]|split_and!; [right|auto|done]|done].
    eexists _, _. unfold log_stored at 1. rewrite E, stored_write. split_and!; [done|by apply names_version_ok| |done|]; [done|].
    intros p Hp. by apply stored_other.
  - intros ctx name l s ans t. rewrite serve_delete. unfold failed. intros H. destruct (entry s _) as [e|] eqn:E; [|injection H as <- <-; by left].
    rewrite precondition_uid, precondition_version in H.
    destruct (names_version_b _ _ _) eqn:Hv; injection H as <- <-; [right|by left].
    eexists. unfold log_stored at 1. rewrite E, stored_write. split_and!; [done|by apply names_version_ok|done|].
    intros p Hp. by apply stored_other.
Defined.
End Laws.

(** ** Runs *)

#[local] Existing Instance reference_server.

Definition reply (x : kact) (s : log) : kres x * log :=
  match x as x return kres x * log with
  | KRequest _ method path body => serve "kube-system" method path body s
  | KNow => (0, s)
  end.

Abbreviation lease_client := (store_op * kprogram (result lease_reply))%type.

(** The next request of the [i]-th call. *)
Fixpoint advance (i : nat) (s : log) (pool : list lease_client) : log * list lease_client :=
  match i, pool with
  | O, (o, Act x k) :: r => let '(a, t) := reply x s in (t, (o, k a) :: r)
  | S i, c :: r => let '(t, r') := advance i s r in (t, c :: r')
  | _, _ => (s, pool)
  end.
Fixpoint run_pool (schedule : list nat) (s : log) (pool : list lease_client) : log * list lease_client :=
  match schedule with [] => (s, pool) | i :: r => let '(t, pool') := advance i s pool in run_pool r t pool' end.

Abbreviation pool_step := (pool_step no_hash (LS := reference_server "kube-system")).

Lemma advance_steps i s pool before : let '(t, pool') := advance i s pool in rtc pool_step (s, before ++ pool) (t, before ++ pool').
Proof.
  revert pool before. induction i as [|i IH]; intros [|[o p] pool] before; simpl; try done.
  - destruct p as [|x k| |]; [done| |done|done]. destruct (reply x s) as [a t] eqn:E. apply rtc_once, PoolRequest.
    destruct x; simpl in *; [done|]. by injection E as _ <-.
  - specialize (IH pool (before ++ [(o, p)])). destruct (advance i s pool) as [t pool']. by rewrite <-!app_assoc in IH.
Qed.

Lemma run_pool_steps schedule s pool : rtc pool_step (s, pool) (run_pool schedule s pool).
Proof.
  revert s pool. induction schedule as [|i schedule IH]; intros s pool; simpl; [done|].
  pose proof (advance_steps i s pool []) as H. destruct (advance i s pool) as [t pool']. by etrans.
Qed.

(** Two controllers race for the fence of one disk; the first completes its attempt and deletes the
    fence, then the second acquires it. *)
Definition fence_a : mutationFence := Build_mutationFence "disk-attachment/bkk/d" "{}" "00112233445566778899aabbccddeeff" "" "".
Definition fence_b : mutationFence := Build_mutationFence "disk-attachment/bkk/d" "{}" "ffeeddccbbaa99887766554433221100" "" "".
Definition caller : context := Build_context None false.
Definition race : list (context * store_op) :=
  [(caller, OpCreate fence_a); (caller, OpCreate fence_b); (caller, OpDelete fence_a); (caller, OpCreate fence_b)].
Definition race_schedule : list nat := [0; 1; 1; 2; 1; 2; 2; 2; 3]%nat.
Definition race_calls := calling no_hash (namespace := "kube-system") race.
Definition race_end := run_pool race_schedule [] race_calls.

Lemma nothing_stored : represents no_hash (LS := reference_server "kube-system") [] ∅.
Proof. intros k. by rewrite lookup_empty. Qed.

(** ** A Lease that vanishes *)

(** One controller reads the Lease to record a receipt on it, another one completes the fence, then the first one
    sends its PUT, which is answered 404. *)
Definition vanishing : list (context * store_op) :=
  [(caller, OpCreate fence_a); (caller, OpSetReceipt fence_a "abcdef01-2345-4678-9abc-def012345678"); (caller, OpDelete fence_a)].
Definition vanishing_end := run_pool [0; 1; 2; 2; 2; 2; 1]%nat [] (calling no_hash (namespace := "kube-system") vanishing).

(** What is left of a program whose first call records a receipt and comes back with neither a fence nor an error. *)
Definition after_empty_receipt {A} (p : program A) : option (program A) :=
  match p with
  | Act x k =>
      match x as x return (res x -> program A) -> option (program A) with
      | FenceSetReceipt _ _ _ => fun k => Some (k (None, None))
      | _ => fun _ => None
      end k
  | _ => None
  end.
(** What is left of a program whose first request is answered 404. *)
Definition after_404 {A} (p : kprogram A) : option (kprogram A) :=
  match p with
  | Act x k =>
      match x as x return (kres x -> kprogram A) -> option (kprogram A) with
      | KRequest _ _ _ _ => fun k => Some (k (failed 404))
      | KNow => fun _ => None
      end k
  | _ => None
  end.

(** The Lease store answers a write of a Lease that vanished with neither a fence nor an error, since the error of
    status 404 is nil; the adapter, which completes a created disk with SetReceipt, then follows a nil pointer. A list
    that is answered 404 is an empty list. *)
Theorem vanished_lease_empty :
  vanishing_end.2 !! 1%nat = Some (OpSetReceipt fence_a "abcdef01-2345-4678-9abc-def012345678", Ret (Ok Empty))
  /\ (forall ctx intent fence ready, after_empty_receipt (completeFencedDisk ctx intent fence ready) = Some Panic)
  /\ (forall ctx prefix, after_404 (List_ "kube-system" ctx prefix) = Some (Ret (Ok []))).
Proof. split; [vm_compute; reflexivity|]. split; reflexivity. Qed.

(** ** Witnesses *)

(** The race, and the vanishing Lease: its empty reply agrees with a point of the sequence that has no fence. *)
Lemma lease_store_refines_witness :
  ((exists f, (OpCreate fence_b, Ret (Ok (Replied (RCreated f false)))) ∈ race_end.2)
   /\ exists applied, applied ⊆+ map canonical race.*2 /\ successful ∅ applied = true
        /\ represents no_hash (LS := reference_server "kube-system") race_end.1 (store_run ∅ applied))
  /\ exists applied before, applied ⊆+ map canonical vanishing.*2 /\ successful ∅ applied = true
       /\ before `prefix_of` applied /\ store_run ∅ before !! Key fence_a = None.
Proof.
  split.
  - split; [exists fence_a; vm_compute; right; left|].
    destruct (lease_store_refines no_hash (LS := reference_server "kube-system") [] ∅ race race_end.1 race_end.2 nothing_stored)
      as (applied & H1 & H2 & H3 & _).
    + rewrite <-surjective_pairing. apply run_pool_steps.
    + exists applied. split; [exact H1|split; [exact H2|exact H3]].
  - destruct (lease_store_refines no_hash (LS := reference_server "kube-system") [] ∅ vanishing vanishing_end.1 vanishing_end.2 nothing_stored)
      as (applied & H1 & H2 & _ & H4).
    + rewrite <-surjective_pairing. apply run_pool_steps.
    + destruct (H4 (OpSetReceipt fence_a "abcdef01-2345-4678-9abc-def012345678") Empty) as (before & Hb & Hc); [vm_compute; right; left|].
      exists applied, before. split; [exact H1|split; [exact H2|split; [exact Hb|exact Hc]]].
Defined.

Lemma lease_store_exclusive_witness :
  exists e, OpDelete e ∈ race.*2 /\ (sameMutationFenceAttempt e fence_a = true \/ sameMutationFenceAttempt e fence_b = true).
Proof.
  apply (lease_store_exclusive no_hash (LS := reference_server "kube-system") [] ∅ race race_end.1 race_end.2 fence_a fence_b fence_a fence_b nothing_stored).
  - rewrite <-surjective_pairing. apply run_pool_steps.
  - vm_compute. left.
  - vm_compute. right. right. right. left.
  - reflexivity.
  - discriminate.
Defined.
