(* ===== verification/GoJSON.v ===== *)
(** * Struct codecs of encoding/json

    How [json.Marshal] and [json.Unmarshal] treat the types that the durable records of the
    repository are made of: strings, integers, booleans, times, pointers, slices, maps and structs
    with tagged fields. A codec encodes a value and decodes JSON into an existing value. Struct
    codecs are built field by field; that decoding inverts encoding is proved once, for the
    values that encoding/json reproduces ([c_good]). *)

From S2P Require Import Prelude GoErrors CSIFence.

Record codec (A : Type) := {
  c_zero : A;                        (* the zero value *)
  c_empty : A -> bool;               (* what omitempty omits *)
  c_enc : A -> json;
  c_dec : A -> json -> result A;     (* into an existing value *)
  c_good : A -> bool;                (* reproduced by encoding and decoding *)
}.
Arguments c_zero {A}. Arguments c_empty {A}. Arguments c_enc {A}. Arguments c_dec {A}. Arguments c_good {A}.

(** Encoding, then decoding into a zero value, is the identity. *)
Class CodecOk {A} (C : codec A) : Prop := {
  codec_roundtrip a : c_good C a = true -> c_dec C (c_zero C) (c_enc C a) = Ok a;
  codec_plain a : c_good C a = true -> plain_json (c_enc C a) = true;
  codec_empty a : c_empty C a = true -> a = c_zero C
}.
(** A type that never encodes as null. *)
Class NotNull {A} (C : codec A) : Prop := not_null a : c_enc C a <> JNull.

Definition type_error {A} : result A := Err (Msg "json: cannot unmarshal value into Go value").

(** ** Scalars *)

Definition string_codec : codec string := {|
  c_zero := ""; c_empty s := s == ""; c_enc := JStr;
  c_dec old j := match j with JStr s => Ok s | JNull => Ok old | _ => type_error end;
  c_good := is_ascii
|}.
Definition int64_codec : codec Z := {|
  c_zero := 0; c_empty z := z =? 0; c_enc := JInt;
  c_dec old j := match j with
    | JInt z => if (MinInt64 <=? z) && (z <=? MaxInt64) then Ok z else Err (Msg "json: number out of range")
    | JNull => Ok old
    | _ => type_error
    end;
  c_good z := (MinInt64 <=? z) && (z <=? MaxInt64)
|}.
Definition bool_codec : codec bool := {|
  c_zero := false; c_empty b := negb b; c_enc := JBool;
  c_dec old j := match j with JBool b => Ok b | JNull => Ok old | _ => type_error end;
  c_good _ := true
|}.

#[export] Instance string_codec_ok : CodecOk string_codec.
Proof. split; simpl; try done. intros s H. by bool_hyps. Qed.
#[export] Instance int64_codec_ok : CodecOk int64_codec.
Proof. split; simpl; try done; [by intros z ->|]. intros z H. by bool_hyps. Qed.
#[export] Instance bool_codec_ok : CodecOk bool_codec.
Proof. split; simpl; try done. by intros []. Qed.
#[export] Instance string_not_null : NotNull string_codec.
Proof. done. Qed.

(** ** Times *)

Definition max_time : Z := 315537897600000000000.
Definition good_time (t : Z) : bool := (0 <? t) && (t <? max_time).

Section Time.
Context `{TT : TimeText}.

Definition time_codec : codec Z := {|
  c_zero := 0; c_empty _ := false; c_enc t := JStr (format_time t);
  c_dec old j := match j with
    | JStr s => match parse_time s with Some t => Ok t | None => Err (Msg "parsing time") end
    | JNull => Ok old
    | _ => type_error
    end;
  c_good t := good_time t && is_ascii (format_time t)
|}.
#[export] Instance time_codec_ok : CodecOk time_codec.
Proof.
  split; simpl; try done; intros t H; bool_hyps; [|done]. rewrite parse_format_time; [done|].
  unfold good_time in *. by bool_hyps.
Qed.
#[export] Instance time_not_null : NotNull time_codec.
Proof. done. Qed.
End Time.

(** ** Pointers, slices and maps *)

Definition ptr_codec {A} (C : codec A) : codec (option A) := {|
  c_zero := None; c_empty x := match x with None => true | _ => false end;
  c_enc x := match x with None => JNull | Some a => c_enc C a end;
  c_dec old j := match j with
    | JNull => Ok None
    | _ => result_map Some (c_dec C (default (c_zero C) old) j)
    end;
  c_good x := match x with None => true | Some a => c_good C a end
|}.
#[export] Instance ptr_codec_ok {A} (C : codec A) `{!CodecOk C, !NotNull C} : CodecOk (ptr_codec C).
Proof.
  split; simpl; try done.
  - intros [a|] H; [|done]. pose proof (codec_roundtrip a H) as Hr. pose proof (not_null a) as Hn.
    destruct (c_enc C a); by rewrite ?Hr.
  - intros [a|] H; [by apply codec_plain|done].
  - by intros [].
Qed.

Fixpoint dec_list {A} (C : codec A) (l : list json) : result (list A) :=
  match l with
  | [] => Ok []
  | j :: r => try! a := c_dec C (c_zero C) j in try! rest := dec_list C r in Ok (a :: rest)
  end.
(** A slice; the nil slice is the empty one. *)
Definition list_codec {A} (C : codec A) : codec (list A) := {|
  c_zero := []; c_empty l := match l with [] => true | _ => false end;
  c_enc l := JArr (map (c_enc C) l);
  c_dec old j := match j with JArr l => dec_list C l | JNull => Ok [] | _ => type_error end;
  c_good := forallb (c_good C)
|}.
#[export] Instance list_codec_ok {A} (C : codec A) `{!CodecOk C} : CodecOk (list_codec C).
Proof.
  split; simpl.
  - induction a as [|a l IH]; simpl; [done|]. intros H. bool_hyps. by rewrite codec_roundtrip, IH.
  - induction a as [|a l IH]; simpl; [done|]. intros H. bool_hyps. by rewrite codec_plain, IH.
  - by intros [].
Qed.

(** [map[string]T], a nil map being [None]. *)
Fixpoint dec_map {A} (C : codec A) (m : gmap string A) (l : list (string * json)) : result (gmap string A) :=
  match l with
  | [] => Ok m
  | (k, j) :: r => try! a := c_dec C (c_zero C) j in dec_map C (<[k := a]> m) r
  end.
Fixpoint insert_key {A} (x : string * A) (l : list (string * A)) : list (string * A) :=
  match l with [] => [x] | y :: r => if String.leb x.1 y.1 then x :: l else y :: insert_key x r end.
Definition map_codec {A} (C : codec A) : codec (option (gmap string A)) := {|
  c_zero := None; c_empty m := match m with None => true | Some m => bool_decide (m = ∅) end;
  c_enc m := match m with
    | None => JNull
    | Some m => JObj (map (fun kv => (kv.1, c_enc C kv.2)) (foldr insert_key [] (map_to_list m)))
    end;
  c_dec old j := match j with JObj l => result_map Some (dec_map C (default ∅ old) l) | JNull => Ok None | _ => type_error end;
  c_good m := match m with None => true | Some m => forallb (fun kv => is_ascii kv.1 && c_good C kv.2) (map_to_list m) end
|}.

(** ** Structs *)

(** A tagged field of [A], with the type of its value hidden. *)
Record jfield (A : Type) := {
  jf_name : string;
  jf_omit : A -> bool;
  jf_enc : A -> json;
  jf_dec : A -> json -> result A;
  jf_good : A -> bool;
  jf_put : A -> A -> A;             (* the value of the first argument in the second *)
}.
Arguments jf_name {A}. Arguments jf_omit {A}. Arguments jf_enc {A}. Arguments jf_dec {A}. Arguments jf_good {A}. Arguments jf_put {A}.

Definition jfield_of {A B} (name : string) (omit : bool) (C : codec B) (get : A -> B) `{!Put get} : jfield A := {|
  jf_name := name;
  jf_omit a := omit && c_empty C (get a);
  jf_enc a := c_enc C (get a);
  jf_dec x j := result_map (fun b => x <| get := b |>) (c_dec C (get x) j);
  jf_good a := c_good C (get a);
  jf_put a x := x <| get := get a |>
|}.
(** [json:"-"]: never encoded nor decoded. *)
Definition jfield_skip {A} (get : A -> bool) `{!Put get} : jfield A := {|
  jf_name := ""; jf_omit _ := true; jf_enc _ := JNull; jf_dec x _ := Ok x;
  jf_good a := negb (get a); jf_put a x := x <| get := get a |>
|}.
(** [json:"name"] and [json:"name,omitempty"]. *)
Notation "n ':=:' C # p" := (jfield_of n false C p) (at level 60, C at level 50, p at level 0) : go_scope.
Notation "n ':=?' C # p" := (jfield_of n true C p) (at level 60, C at level 50, p at level 0) : go_scope.

Definition enc_fields {A} (fields : list (jfield A)) (a : A) : list (string * json) :=
  flat_map (fun f => if jf_omit f a then [] else [(jf_name f, jf_enc f a)]) fields.

(** The exact spelling is preferred, then any case. *)
Definition struct_setter {A} (fields : list (jfield A)) : field_setter A := fun x key v =>
  match List.find (fun f => jf_name f == key) fields with
  | Some f => Some (jf_dec f x v)
  | None => option_map (fun f => jf_dec f x v) (List.find (fun f => EqualFold (jf_name f) key) fields)
  end.

Definition struct_codec {A} (zero : A) (fields : list (jfield A)) : codec A := {|
  c_zero := zero; c_empty _ := false;
  c_enc a := JObj (enc_fields fields a);
  c_dec := unmarshal_struct false (struct_setter fields);
  c_good a := forallb (fun f => jf_good f a) fields
|}.

#[export] Instance struct_not_null {A} (zero : A) fields : NotNull (struct_codec zero fields).
Proof. done. Qed.

(** Each field decodes into a value that holds the fields before it. *)
Fixpoint decodes {A} (fields : list (jfield A)) (a x : A) : Prop :=
  match fields with
  | [] => x = a
  | f :: r => (jf_good f a = true -> if jf_omit f a then jf_put f a x = x else jf_dec f x (jf_enc f a) = Ok (jf_put f a x))
              /\ decodes r a (jf_put f a x)
  end.

Lemma find_name {A} (fields before : list (jfield A)) f r :
  fields = before ++ f :: r -> NoDup (map jf_name fields) -> List.find (fun g => jf_name g == jf_name f) fields = Some f.
Proof.
  intros -> Hn. induction before as [|g before IH]; simpl; [by rewrite bool_decide_eq_true_2|].
  simpl in Hn. apply NoDup_cons in Hn as [Hg Hn]. rewrite bool_decide_eq_false_2; [by apply IH|].
  intros E. apply Hg. rewrite E. apply list_elem_of_In, in_map, in_app_iff. right. by left.
Qed.

Lemma set_fields_decodes {A} (fields : list (jfield A)) a rest : forall before x,
  fields = before ++ rest -> NoDup (map jf_name fields) -> forallb (fun f => jf_good f a) rest = true -> decodes rest a x ->
  set_fields false (struct_setter fields) x (enc_fields rest a) = Ok a.
Proof.
  induction rest as [|f rest IH]; intros before x E Hn Hg Hd; simpl in *; [by rewrite Hd|].
  bool_hyps. destruct Hd as [Hf Hd]. specialize (Hf ltac:(done)).
  assert (forall y, decodes rest a y -> set_fields false (struct_setter fields) y (enc_fields rest a) = Ok a) as Hr.
  { intros y. apply (IH (before ++ [f])); [by rewrite <-app_assoc|done|done]. }
  destruct (jf_omit f a); simpl; [rewrite Hf in Hd; by apply Hr|].
  unfold struct_setter at 1. rewrite (find_name fields before f rest) by done. rewrite Hf. by apply Hr.
Qed.

Lemma plain_fields {A} (fields : list (jfield A)) a :
  Forall (fun f => is_ascii (jf_name f) = true /\ (jf_good f a = true -> plain_json (jf_enc f a) = true)) fields ->
  forallb (fun f => jf_good f a) fields = true ->
  forallb (fun kv => is_ascii kv.1 && plain_json kv.2) (enc_fields fields a) = true.
Proof.
  induction 1 as [|f fields [Hn Hp] _ IH]; simpl; [done|]. intros H. bool_hyps.
  rewrite forallb_app, IH by done. destruct (jf_omit f a); simpl; [done|]. by rewrite Hn, Hp.
Qed.

(** A struct codec is sound when its field names are distinct ASCII text, its fields' values are
    plain, and its fields decode one after the other. *)
Lemma struct_codec_ok {A} (zero : A) fields :
  bool_decide (NoDup (map jf_name fields)) && forallb (fun f => is_ascii (jf_name f)) fields = true ->
  (forall a, Forall (fun f => jf_good f a = true -> plain_json (jf_enc f a) = true) fields) ->
  (forall a, decodes fields a zero) -> CodecOk (struct_codec zero fields).
Proof.
  intros Hn Hp Hd. bool_hyps. split; simpl; [..|done].
  - intros a Hg. by apply (set_fields_decodes fields a fields []).
  - intros a Hg. apply plain_fields; [|done]. apply Forall_forall. intros f Hf. split.
    + rewrite forallb_forall in H0. apply H0. by apply list_elem_of_In.
    + specialize (Hp a). rewrite Forall_forall in Hp. by apply Hp.
Qed.

Lemma jfield_plain {A B} name omit (C : codec B) `{!CodecOk C} (get : A -> B) `{!Put get} a :
  jf_good (jfield_of name omit C get) a = true -> plain_json (jf_enc (jfield_of name omit C get) a) = true.
Proof. simpl. apply codec_plain. Qed.

(** One field, when the value under construction has its zero value there. *)
Lemma decode_step {A B} name omit (C : codec B) `{!CodecOk C} (get : A -> B) `{!Put get} a x :
  get x = c_zero C -> x <| get := c_zero C |> = x ->
  jf_good (jfield_of name omit C get) a = true ->
  if jf_omit (jfield_of name omit C get) a then jf_put (jfield_of name omit C get) a x = x
  else jf_dec (jfield_of name omit C get) x (jf_enc (jfield_of name omit C get) a) = Ok (jf_put (jfield_of name omit C get) a x).
Proof.
  intros Hz Hx Hg. simpl in *. destruct (omit && c_empty C (get a)) eqn:E.
  - bool_hyps. by rewrite (codec_empty (get a)).
  - by rewrite Hz, codec_roundtrip.
Qed.

Lemma decode_skip {A} (get : A -> bool) `{!Put get} a x :
  x <| get := false |> = x ->
  jf_good (jfield_skip get) a = true ->
  if jf_omit (jfield_skip get) a then jf_put (jfield_skip get) a x = x
  else jf_dec (jfield_skip get) x (jf_enc (jfield_skip get) a) = Ok (jf_put (jfield_skip get) a x).
Proof. intros Hx Hg. simpl in *. bool_hyps. by rewrite Hg. Qed.

Ltac eval_value :=
  lazymatch goal with
  | |- decodes ?fs ?a ?x => let y := eval cbn in x in change (decodes fs a y)
  end.
Ltac decode_fields :=
  repeat lazymatch goal with
  | |- decodes (jfield_of _ _ _ _ :: _) _ _ => split; [apply decode_step; [exact _|reflexivity|reflexivity]|eval_value]
  | |- decodes (jfield_skip _ :: _) _ _ => split; [apply decode_skip; reflexivity|eval_value]
  | |- decodes [] _ _ => reflexivity
  end.
(** Proves that a struct codec is sound. *)
Ltac struct_ok :=
  apply struct_codec_ok;
  [vm_compute; reflexivity
  |intros; repeat (apply Forall_cons_2;
     [lazymatch goal with |- context [jfield_skip] => reflexivity || (intros; reflexivity) | _ => apply jfield_plain; exact _ end|]); apply Forall_nil_2
  |intros []; decode_fields].

(** ** Text *)

Section Text.
Context `{JT : JSONText}.

(** [json.Marshal]. It fails only on a time outside the years 0 to 9999, which neither the clock nor
    parsed text gives. *)
Definition Marshal {A} (C : codec A) (a : A) : string := print_json (c_enc C a).
(** [json.Unmarshal] into a zero value. *)
Definition Unmarshal {A} (C : codec A) (value : string) : result A :=
  match parse_json value with Some j => c_dec C (c_zero C) j | None => Err (Msg "invalid JSON") end.

Lemma Unmarshal_Marshal {A} (C : codec A) `{!CodecOk C} a : c_good C a = true -> Unmarshal C (Marshal C a) = Ok a.
Proof. intros H. unfold Unmarshal, Marshal. rewrite parse_print_json by (by apply codec_plain). by apply codec_roundtrip. Qed.

Lemma Marshal_nonempty {A} (C : codec A) a : Marshal C a <> "".
Proof. apply print_json_nonempty. Qed.
End Text.
