(* ===== verification/GoNet.v ===== *)
(** * IPv4 addresses of net/netip

    The modelled code parses addresses only to require a public IPv4 one. [netip.ParseAddr]
    accepts dotted decimal without leading zeros; any other text is an error or an IPv6 address,
    for which [Is4] is false. *)

From S2P Require Import Prelude GoErrors GoURL.


Definition digit (n : nat) : string := String (ascii_of_nat (48 + n)) EmptyString.
Definition print_octet (n : nat) : string :=
  if Nat.ltb n 10 then digit n
  else if Nat.ltb n 100 then digit (Nat.div n 10) +:+ digit (Nat.modulo n 10)
  else digit (Nat.div n 100) +:+ digit (Nat.modulo (Nat.div n 10) 10) +:+ digit (Nat.modulo n 10).
(** The number from 0 to 255 with this decimal text. *)
Definition parse_octet (s : string) : option nat := List.find (fun n => print_octet n == s) (seq 0 256).

Record IPv4 := { o1 : nat; o2 : nat; o3 : nat; o4 : nat }.

(** [netip.ParseAddr] followed by [Is4]. *)
Definition ParseAddr4 (s : string) : option IPv4 :=
  match SplitChar "." s with
  | [a; b; c; d] =>
      match parse_octet a, parse_octet b, parse_octet c, parse_octet d with
      | Some a, Some b, Some c, Some d => Some (Build_IPv4 a b c d)
      | _, _, _, _ => None
      end
  | _ => None
  end.
(** [Addr.String]. *)
Definition IPv4_String (a : IPv4) : string :=
  print_octet (o1 a) +:+ "." +:+ print_octet (o2 a) +:+ "." +:+ print_octet (o3 a) +:+ "." +:+ print_octet (o4 a).

(** [Addr.IsGlobalUnicast]: not unspecified, broadcast, loopback, multicast or link-local. *)
Definition IsGlobalUnicast (a : IPv4) : bool :=
  let all n := Nat.eqb (o1 a) n && Nat.eqb (o2 a) n && Nat.eqb (o3 a) n && Nat.eqb (o4 a) n in
  negb (all 0%nat) && negb (all 255%nat) && negb (Nat.eqb (o1 a) 127)
  && negb (Nat.leb 224 (o1 a) && Nat.leb (o1 a) 239) && negb (Nat.eqb (o1 a) 169 && Nat.eqb (o2 a) 254).
(** [Addr.IsPrivate]. *)
Definition IsPrivate (a : IPv4) : bool :=
  Nat.eqb (o1 a) 10 || (Nat.eqb (o1 a) 172 && Nat.leb 16 (o2 a) && Nat.leb (o2 a) 31)
  || (Nat.eqb (o1 a) 192 && Nat.eqb (o2 a) 168).

(** [addr, err := netip.ParseAddr(s)] with the tests
    [err != nil || !addr.Is4() || !addr.IsGlobalUnicast() || addr.IsPrivate()]. *)
Definition public_IPv4 (s : string) : option IPv4 :=
  match ParseAddr4 s with
  | Some a => if negb (IsGlobalUnicast a) || IsPrivate a then None else Some a
  | None => None
  end.

(** ** Canonical text *)

Fixpoint join_char (sep : ascii) (l : list string) : string :=
  match l with [] => "" | [s] => s | s :: r => s +:+ String sep (join_char sep r) end.

Lemma join_split sep s : join_char sep (SplitChar sep s) = s.
Proof.
  induction s as [|c s IH]; simpl; [done|].
  assert (SplitChar sep s <> []) as Hne by (destruct s; simpl; [done|repeat case_test; done]).
  case_bool_decide as E.
  - subst. simpl. destruct (SplitChar sep s) eqn:Es; [done|]. by rewrite IH.
  - destruct (SplitChar sep s) as [|p ps]; [done|]. simpl in *. destruct ps; by rewrite <-IH.
Qed.

Lemma parse_octet_print s n : parse_octet s = Some n -> print_octet n = s.
Proof. unfold parse_octet. intros H. apply find_some in H as [_ H]. by bool_hyps. Qed.

(** The text of an IPv4 address is canonical: parsing accepts only what printing produces. *)
Lemma ParseAddr4_String s a : ParseAddr4 s = Some a -> IPv4_String a = s.
Proof.
  unfold ParseAddr4. intros H. rewrite <-(join_split "." s).
  destruct (SplitChar "." s) as [|a1 [|a2 [|a3 [|a4 [|]]]]]; try done.
  destruct (parse_octet a1) eqn:E1; [|done]. destruct (parse_octet a2) eqn:E2; [|done].
  destruct (parse_octet a3) eqn:E3; [|done]. destruct (parse_octet a4) eqn:E4; [|done].
  injection H as <-. unfold IPv4_String. simpl o1. simpl o2. simpl o3. simpl o4.
  by rewrite (parse_octet_print a1), (parse_octet_print a2), (parse_octet_print a3), (parse_octet_print a4).
Qed.

Lemma public_IPv4_String s a : public_IPv4 s = Some a -> IPv4_String a = s.
Proof. unfold public_IPv4. destruct (ParseAddr4 s) eqn:E; [|done]. case_test; [done|]. intros [= <-]. by apply ParseAddr4_String. Qed.

Lemma public_IPv4_nonempty s a : public_IPv4 s = Some a -> s <> "".
Proof. intros H ->. done. Qed.

(** ** IP addresses and prefixes of net and net/netip

    [netip.ParseAddr] with IPv6 text, [net.ParseIP], [netip.ParsePrefix] and the tests on their
    results. IPv4 text is parsed in GoNet; here an IPv4 address also has its 32-bit value, on which
    prefixes are masked. *)

(** ** IPv6 text *)

(** Up to four hexadecimal digits, and the rest; a fifth digit is an error. *)
Fixpoint hex_field (room : nat) (acc : Z) (s : string) : option (Z * string) :=
  match s with
  | String c r =>
      if is_hex c then match room with O => None | S room => hex_field room (16 * acc + Z.of_nat (hex_value c)) r end
      else Some (acc, s)
  | EmptyString => Some (acc, "")
  end.

(** The loop of [parseIPv6] over the remaining text [s]: the 16-bit fields so far, newest first, and
    how many of them precede the ellipsis. Eight iterations fill the address. *)
Fixpoint ipv6_fields (fuel : nat) (fields : list Z) (ellipsis : option nat) (s : string) : option (list Z * option nat) :=
  match fuel with
  | O => if s == "" then Some (fields, ellipsis) else None
  | S fuel =>
    if Nat.leb 8 (List.length fields) then if s == "" then Some (fields, ellipsis) else None
    else match hex_field 4 0 s with
    | None => None
    | Some (acc, rest) =>
      if rest == s then None
      else if HasPrefix rest "." then
        if (match ellipsis with None => negb (Nat.eqb (List.length fields) 6) | _ => false end) || Nat.ltb 6 (List.length fields) then None
        else match ParseAddr4 s with
        | None => None
        | Some a => Some (Z.of_nat (o3 a * 256 + o4 a) :: Z.of_nat (o1 a * 256 + o2 a) :: fields, ellipsis)
        end
      else
        let fields := acc :: fields in
        match rest with
        | EmptyString => Some (fields, ellipsis)
        | String ":" EmptyString => None
        | String ":" (String ":" tail) =>
            match ellipsis with
            | Some _ => None
            | None => if tail == "" then Some (fields, Some (List.length fields)) else ipv6_fields fuel fields (Some (List.length fields)) tail
            end
        | String ":" tail => ipv6_fields fuel fields ellipsis tail
        | _ => None
        end
    end
  end.

Definition expand_ellipsis (fields : list Z) (ellipsis : option nat) : option (list Z) :=
  let n := List.length fields in
  match ellipsis with
  | None => if Nat.eqb n 8 then Some fields else None
  | Some k => if Nat.ltb n 8 then Some (take k fields ++ replicate (8 - n) 0 ++ drop k fields) else None
  end.

(** The eight fields, and the zone. *)
Definition parseIPv6 (s : string) : option (list Z * string) :=
  let '(body, zone) := CutChar "%" s in
  if ContainsChar "%" s && (zone == "") then None
  else
    let parsed :=
      match body with
      | String ":" (String ":" EmptyString) => Some ([], Some 0%nat)
      | String ":" (String ":" tail) => ipv6_fields 9 [] (Some 0%nat) tail
      | _ => ipv6_fields 9 [] None body
      end in
    match parsed with
    | None => None
    | Some (fields, ellipsis) => match expand_ellipsis (rev fields) ellipsis with Some l => Some (l, zone) | None => None end
    end.

Inductive Addr := Addr4 (a : IPv4) | Addr6 (fields : list Z) (zone : string).

(** The first dot or colon decides which syntax applies. *)
Fixpoint ParseAddr_kind (s : string) : option bool :=
  match s with
  | EmptyString => None
  | String "." _ => Some false
  | String ":" _ => Some true
  | String "%" _ => None
  | String _ r => ParseAddr_kind r
  end.
Definition ParseAddr (s : string) : option Addr :=
  match ParseAddr_kind s with
  | None => None
  | Some false => option_map Addr4 (ParseAddr4 s)
  | Some true => option_map (fun p => Addr6 p.1 p.2) (parseIPv6 s)
  end.

(** [net.ParseIP]: no zone. *)
Definition ParseIP (s : string) : option Addr :=
  match ParseAddr s with
  | Some (Addr6 fields zone) => if zone == "" then Some (Addr6 fields "") else None
  | a => a
  end.

(** [IP.To4]: an IPv4 address or an IPv4-mapped IPv6 address. *)
Definition To4 (a : Addr) : option (Z * Z) :=
  match a with
  | Addr4 a => Some (Z.of_nat (o1 a * 256 + o2 a), Z.of_nat (o3 a * 256 + o4 a))
  | Addr6 [0; 0; 0; 0; 0; 65535; hi; lo] _ => Some (hi, lo)
  | Addr6 _ _ => None
  end.
(** [IP.IsLoopback]. *)
Definition IsLoopback (a : Addr) : bool :=
  match To4 a with
  | Some (hi, _) => hi `div` 256 =? 127
  | None => match a with Addr6 fields _ => fields == [0; 0; 0; 0; 0; 0; 0; 1] | Addr4 _ => false end
  end.

(** ** Prefixes *)

Definition decimal_value (s : string) : Z := fold_left (fun acc c => 10 * acc + (Z.of_nat (code c) - 48)) (list_ascii_of_string s) 0.

(** The text after the slash: decimal digits without a leading zero. *)
Definition prefix_bits (s : string) (max : Z) : option Z :=
  match s with
  | EmptyString => None
  | String c r =>
      if negb (all_chars is_digit s) || ((r != "") && (c == "0"%char)) then None
      else if decimal_value s <=? max then Some (decimal_value s) else None
  end.

Record Prefix := { px_Addr : Addr; px_Bits : Z }.

Definition ParsePrefix (s : string) : option Prefix :=
  match CutLast "/" s with
  | None => None
  | Some (addr, bits) =>
      match ParseAddr addr with
      | Some (Addr4 a) => option_map (Build_Prefix (Addr4 a)) (prefix_bits bits 32)
      | Some (Addr6 fields zone) => if zone == "" then option_map (Build_Prefix (Addr6 fields "")) (prefix_bits bits 128) else None
      | None => None
      end
  end.

Definition Is4 (a : Addr) : bool := match a with Addr4 _ => true | Addr6 _ _ => false end.

(** The 32-bit value of an IPv4 address and the address with a given value. *)
Definition IPv4_value (a : IPv4) : Z := 16777216 * Z.of_nat (o1 a) + 65536 * Z.of_nat (o2 a) + 256 * Z.of_nat (o3 a) + Z.of_nat (o4 a).
Definition IPv4_of_value (v : Z) : IPv4 :=
  let byte k := Z.to_nat (Z.land (Z.shiftr v k) 255) in Build_IPv4 (byte 24) (byte 16) (byte 8) (byte 0).
(** [Prefix.Masked] on IPv4: the host bits are cleared. *)
Definition masked_value (v bits : Z) : Z := Z.shiftl (Z.shiftr v (32 - bits)) (32 - bits).

Fixpoint decimal_digits (fuel : nat) (n : Z) (acc : string) : string :=
  match fuel with
  | O => acc
  | S fuel =>
      let acc := String (ascii_of_nat (48 + Z.to_nat (n `mod` 10))) acc in
      if n <? 10 then acc else decimal_digits fuel (n `div` 10) acc
  end.
(** [strconv.FormatInt(n, 10)] for a 64-bit integer: at most nineteen digits. *)
Definition FormatInt (n : Z) : string := if n <? 0 then String "-" (decimal_digits 20 (- n) "") else decimal_digits 20 n "".

(** [prefix.Masked().String()] of an IPv4 prefix. *)
Definition masked_String (a : IPv4) (bits : Z) : string := IPv4_String (IPv4_of_value (masked_value (IPv4_value a) bits)) +:+ "/" +:+ FormatInt bits.

(** ** Sample texts *)

Definition accepts (s : string) : bool := match ParseAddr s with Some _ => true | None => false end.

Example ParseAddr_valid :
  forallb accepts ["::1"; "::"; "1::8:7"; "::ffff:127.0.0.1"; "fe80::1%eth0"; "10.0.0.1"; "1:2:3:4:5:6:7:8"; "1:2:3:4:5:6:7::"; "1:2:3:4:5:6:1.2.3.4"] = true.
Proof. vm_compute. reflexivity. Qed.
Example ParseAddr_invalid :
  existsb accepts [""; ":"; ":::"; "1::2::3"; "1:2:3:4:5:6:7"; "1:2:3:4:5:6:7:8:9"; "::12345"; "fe80::1%"; "010.0.0.1"; "1:2:3:4:5:6:7:1.2.3.4"; "1:2:3:4:5:6:7:8::"; "::1."] = false.
Proof. vm_compute. reflexivity. Qed.
Example IsLoopback_samples :
  map (fun s => match ParseIP s with Some a => IsLoopback a | None => false end) ["::1"; "::ffff:127.9.0.1"; "127.0.0.53"; "::2"; "128.0.0.1"; "::1%lo"]
  = [true; true; true; false; false; false].
Proof. vm_compute. reflexivity. Qed.
Example ParsePrefix_samples :
  map (fun s => match ParsePrefix s with Some p => px_Bits p | None => -1 end) ["10.0.0.0/8"; "10.0.0.0/08"; "10.0.0.0/33"; "::/0"; "2001:db8::/129"; "10.0.0.0"; "0.0.0.0/0"]
  = [8; -1; -1; 0; -1; -1; 0].
Proof. vm_compute. reflexivity. Qed.
