(* ===== verification/ClientJSON.v ===== *)
(** * The client's check for duplicate object keys (modules/client/client.go)

    [encoding/json] lets the last of two equal keys win, so a response whose text names an identity
    twice could be read as either. The client walks the tokens of a response first and refuses a
    repeated key at any depth, and everything but one complete value. Shown here: the walk accepts
    exactly the token sequences of one value whose objects have distinct keys. *)

From S2P Require Import Prelude GoErrors CSIFence.

(** ** json.Decoder *)

(** [json.Token]: delimiters, strings (keys too), and the other scalars, whose values no code looks at. *)
Inductive token :=
  | Delim (c : ascii)
  | TString (s : string)
  | TScalar.

(** What follows the tokens: the end of the text, or an error, before which [More] may answer either
    way. The text is in memory, so the error is one of syntax or of a text that ends too early. *)
Inductive broken := BadSyntax | EndsEarly | EndsInside.
Definition broken_error (b : broken) : error :=
  match b with BadSyntax => Msg "invalid character" | EndsEarly => Sentinel EOF | EndsInside => Sentinel ErrUnexpectedEOF end.
Inductive tail := AtEOF | Broken (more : bool) (b : broken).

(** [json.Decoder]: the tokens it has yet to deliver. *)
Record decoder := { dec_tokens : list token; dec_tail : tail }.

(** The tokens of a value, commas and colons dropped. *)
Fixpoint tokens_of (j : json) : list token :=
  match j with
  | JStr s => [TString s]
  | JArr l => Delim "[" :: flat_map tokens_of l ++ [Delim "]"]
  | JObj fields => Delim "{" :: flat_map (fun kv => TString kv.1 :: tokens_of kv.2) fields ++ [Delim "}"]
  | _ => [TScalar]
  end.

(** [json.NewDecoder] on a text. On the text of one value the decoder delivers the tokens of that
    value; nothing is assumed of other texts. *)
Class JSONDecoder `{JT : JSONText} := {
  NewDecoder : string -> decoder;
  NewDecoder_value s j : parse_json s = Some j -> NewDecoder s = Build_decoder (tokens_of j) AtEOF
}.

(** [Decoder.Token]. *)
Definition Token (d : decoder) : result (token * decoder) :=
  match dec_tokens d with
  | t :: r => Ok (t, Build_decoder r (dec_tail d))
  | [] => match dec_tail d with AtEOF => Err (Sentinel EOF) | Broken _ b => Err (broken_error b) end
  end.
(** [Decoder.More]: another element follows in the current array or object. *)
Definition More (d : decoder) : bool :=
  match dec_tokens d with
  | Delim c :: _ => (c != "]"%char) && (c != "}"%char)
  | _ :: _ => true
  | [] => match dec_tail d with AtEOF => false | Broken more _ => more end
  end.

(** ** validateJSONValue

    The recursion and the two loops each consume a token, so fuel beyond the number of tokens left is
    never used up; [None] is an exhausted fuel. *)

Definition terminator (d : decoder) (close : ascii) (text : string) : result decoder :=
  match Token d with
  | Err e => Err (Wrap text [e])
  | Ok (Delim c, d) => if c == close then Ok d else Err (Msg text)
  | Ok _ => Err (Msg text)
  end.

Fixpoint validateJSONValue (fuel : nat) (d : decoder) : option (result decoder) :=
  match fuel with
  | O => None
  | S fuel =>
    match Token d with
    | Err e => Some (Err (Wrap "invalid JSON" [e]))
    | Ok (Delim c, d) =>
        if c == "{"%char then object_loop fuel ∅ d
        else if c == "["%char then array_loop fuel d
        else Some (Err (Msg "unexpected JSON delimiter"))
    | Ok (_, d) => Some (Ok d)
    end
  end
with object_loop (fuel : nat) (seen : gset string) (d : decoder) : option (result decoder) :=
  match fuel with
  | O => None
  | S fuel =>
    if More d then
      match Token d with
      | Err e => Some (Err (Wrap "invalid JSON object key" [e]))
      | Ok (TString key, d) =>
          if bool_decide (key ∈ seen) then Some (Err (Msg "duplicate JSON object key"))
          else match validateJSONValue fuel d with
          | Some (Ok d) => object_loop fuel ({[key]} ∪ seen) d
          | other => other
          end
      | Ok _ => Some (Err (Msg "invalid JSON object key"))
      end
    else Some (terminator d "}" "invalid JSON object")
  end
with array_loop (fuel : nat) (d : decoder) : option (result decoder) :=
  match fuel with
  | O => None
  | S fuel =>
    if More d then
      match validateJSONValue fuel d with
      | Some (Ok d) => array_loop fuel d
      | other => other
      end
    else Some (terminator d "]" "invalid JSON array")
  end.

(** Every call and every iteration takes a token or ends. *)
Definition fuel_for (d : decoder) : nat := (2 * List.length (dec_tokens d) + 2)%nat.

Definition validateJSONTokens (d : decoder) : option goerr :=
  match validateJSONValue (fuel_for d) d with
  | None => None
  | Some (Err e) => Some (Some e)
  | Some (Ok d) =>
      match Token d with
      | Err (Sentinel EOF) => Some None
      | Err e => Some (Some (Wrap "invalid trailing JSON" [e]))
      | Ok _ => Some (Some (Msg "unexpected trailing JSON token"))
      end
  end.

Section Text.
Context `{JD : JSONDecoder}.
(** [None] is excluded by [validateJSON_total] below. *)
Definition validateJSONNoDuplicateObjectKeys (data : string) : goerr :=
  match validateJSONTokens (NewDecoder data) with Some r => r | None => None end.
End Text.

(** ** What it accepts *)

Fixpoint unique_keys (j : json) : bool :=
  match j with
  | JArr l => forallb unique_keys l
  | JObj fields => bool_decide (NoDup (map fst fields)) && forallb (fun kv => unique_keys kv.2) fields
  | _ => true
  end.

Section json_ind'.
Context (P : json -> Prop).
Hypothesis Hscalar : forall j, (match j with JArr _ | JObj _ => False | _ => True end) -> P j.
Hypothesis Harr : forall l, Forall P l -> P (JArr l).
Hypothesis Hobj : forall fields, Forall (fun kv => P kv.2) fields -> P (JObj fields).
Fixpoint json_ind' (j : json) : P j :=
  match j with
  | JArr l => Harr l ((fix go l : Forall P l := match l with [] => Forall_nil_2 _ | x :: r => Forall_cons_2 _ _ _ (json_ind' x) (go r) end) l)
  | JObj fields => Hobj fields ((fix go l : Forall (fun kv => P kv.2) l :=
      match l with [] => Forall_nil_2 _ | x :: r => Forall_cons_2 _ _ _ (json_ind' x.2) (go r) end) fields)
  | JNull => Hscalar JNull I | JBool b => Hscalar (JBool b) I | JInt z => Hscalar (JInt z) I
  | JFloat l => Hscalar (JFloat l) I | JStr s => Hscalar (JStr s) I
  end.
End json_ind'.

Abbreviation left d := (List.length (dec_tokens d)).

Lemma Token_left d t d' : Token d = Ok (t, d') -> left d = S (left d').
Proof. destruct d as [[|u r] e]; unfold Token; simpl; [by destruct e|]. by intros [= -> <-]. Qed.
Lemma Token_split d t d' : Token d = Ok (t, d') -> dec_tokens d = t :: dec_tokens d' /\ dec_tail d' = dec_tail d.
Proof. destruct d as [[|u r] e]; unfold Token; simpl; [by destruct e|]. by intros [= -> <-]. Qed.
Lemma terminator_left d c s d' : terminator d c s = Ok d' -> (left d' <= left d)%nat.
Proof.
  unfold terminator. destruct (Token d) as [[u d1]|] eqn:E; [|done]. apply Token_left in E.
  destruct u as [k| |]; [|done..]. case_test; [intros [= ->]; lia|done].
Qed.

(** The walk ends, and a value takes at least one token. *)
Lemma validate_total fuel :
  (forall d, (2 * left d + 1 <= fuel)%nat -> exists r, validateJSONValue fuel d = Some r /\ forall d', r = Ok d' -> (left d' < left d)%nat)
  /\ (forall seen d, (2 * left d + 2 <= fuel)%nat -> exists r, object_loop fuel seen d = Some r /\ forall d', r = Ok d' -> (left d' <= left d)%nat)
  /\ (forall d, (2 * left d + 2 <= fuel)%nat -> exists r, array_loop fuel d = Some r /\ forall d', r = Ok d' -> (left d' <= left d)%nat).
Proof.
  induction fuel as [|fuel (IHv & IHo & IHa)]; [split_and!; intros; lia|]. split_and!.
  - intros d Hf. simpl. destruct (Token d) as [[u d1]|e] eqn:E; [|by eexists]. apply Token_left in E.
    destruct u as [c|s|]; [|by eexists; split; [done|intros ? [= <-]; lia]..].
    case_test; [|case_test; [|by eexists]].
    + destruct (IHo ∅ d1) as (r & -> & Hr); [lia|]. eexists. split; [done|]. intros d' H. specialize (Hr d' H). lia.
    + destruct (IHa d1) as (r & -> & Hr); [lia|]. eexists. split; [done|]. intros d' H. specialize (Hr d' H). lia.
  - intros seen d Hf. simpl. case_test; [|by eexists; split; [done|]; intros d'; apply terminator_left].
    destruct (Token d) as [[u d1]|e] eqn:E; [|by eexists]. apply Token_left in E. destruct u as [c|key|]; [by eexists| |by eexists].
    case_test; [by eexists|]. destruct (IHv d1) as (r & -> & Hr); [lia|]. destruct r as [d2|e]; [|by eexists].
    specialize (Hr d2 eq_refl). destruct (IHo ({[key]} ∪ seen) d2) as (r & -> & Hr2); [lia|]. eexists. split; [done|].
    intros d' H. specialize (Hr2 d' H). lia.
  - intros d Hf. simpl. case_test; [|by eexists; split; [done|]; intros d'; apply terminator_left].
    destruct (IHv d) as (r & -> & Hr); [lia|]. destruct r as [d2|e]; [|by eexists].
    specialize (Hr d2 eq_refl). destruct (IHa d2) as (r & -> & Hr2); [lia|]. eexists. split; [done|].
    intros d' H. specialize (Hr2 d' H). lia.
Qed.

Lemma validateJSON_total d : exists r, validateJSONTokens d = Some r.
Proof.
  unfold validateJSONTokens, fuel_for. destruct (validate_total (2 * left d + 2)) as (H & _).
  destruct (H d) as ([d'|e] & -> & _); [lia|..]; [|by eexists]. by repeat case_test; eexists.
Qed.

(** [d] starts with the tokens [ts] and continues as [d']. *)
Definition starts (d : decoder) (ts : list token) (d' : decoder) : Prop :=
  dec_tokens d = ts ++ dec_tokens d' /\ dec_tail d' = dec_tail d.

Lemma starts_app d ts d1 us d2 : starts d ts d1 -> starts d1 us d2 -> starts d (ts ++ us) d2.
Proof. intros [H1 H2] [H3 H4]. split; [by rewrite H1, H3, app_assoc|congruence]. Qed.
Lemma starts_Token d t d' : Token d = Ok (t, d') -> starts d [t] d'.
Proof. apply Token_split. Qed.
Lemma starts_terminator d c s d' : terminator d c s = Ok d' -> starts d [Delim c] d'.
Proof.
  unfold terminator. destruct (Token d) as [[u d1]|] eqn:E; [|done]. destruct u as [k| |]; [|done..].
  case_test; [|done]. intros [= <-]. bool_hyps. subst. by apply starts_Token.
Qed.
Lemma Token_starts d t ts d' : starts d (t :: ts) d' -> exists d1, Token d = Ok (t, d1) /\ starts d1 ts d'.
Proof. destruct d as [l e]. intros [H1 H2]. simpl in *. subst. eexists. split; [done|]. by split. Qed.

Definition object_tokens (fields : list (string * json)) : list token := flat_map (fun kv => TString kv.1 :: tokens_of kv.2) fields.

Lemma validate_sound fuel :
  (forall d d', validateJSONValue fuel d = Some (Ok d') -> exists j, unique_keys j = true /\ starts d (tokens_of j) d')
  /\ (forall seen d d', object_loop fuel seen d = Some (Ok d') -> exists fields, NoDup (map fst fields) /\ Forall (fun kv => kv.1 ∉ seen) fields
        /\ forallb (fun kv => unique_keys kv.2) fields = true /\ starts d (object_tokens fields ++ [Delim "}"]) d')
  /\ (forall d d', array_loop fuel d = Some (Ok d') -> exists l, forallb unique_keys l = true /\ starts d (flat_map tokens_of l ++ [Delim "]"]) d').
Proof.
  induction fuel as [|fuel (IHv & IHo & IHa)]; [done|]. split_and!.
  - intros d d' H. simpl in H. destruct (Token d) as [[u d1]|e] eqn:E; [|done]. apply starts_Token in E.
    destruct u as [c|s|]; [|injection H as <-; by exists (JStr s)|injection H as <-; by exists JNull].
    case_test_in H; [|case_test_in H; [|done]]; bool_hyps; subst.
    + apply IHo in H as (fields & Hn & _ & Hu & Hs). exists (JObj fields). simpl. rewrite Hu. split; [by rewrite bool_decide_eq_true_2|].
      by apply (starts_app _ [_] d1).
    + apply IHa in H as (l & Hu & Hs). exists (JArr l). split; [done|]. by apply (starts_app _ [_] d1).
  - intros seen d d' H. simpl in H. case_test_in H; [|injection H as H; apply starts_terminator in H; by exists []; split_and!; [constructor..|]].
    destruct (Token d) as [[u d1]|e] eqn:E; [|done]. apply starts_Token in E. destruct u as [c|key|]; [done| |done].
    case_test_in H; [done|]. bool_hyps. destruct (validateJSONValue fuel d1) as [[d2|e]|] eqn:Ev; [|done..].
    apply IHv in Ev as (j & Hj & Hs). apply IHo in H as (fields & Hn & Hf & Hu & Ho). exists ((key, j) :: fields). split_and!.
    + simpl. constructor; [|done]. intros (kv & Hk & Hin)%list_elem_of_fmap. rewrite Forall_forall in Hf. apply (Hf kv Hin). set_solver.
    + constructor; [done|]. eapply Forall_impl; [exact Hf|]. set_solver.
    + simpl. by rewrite Hj.
    + simpl. apply (starts_app _ [_] d1); [done|]. rewrite <-app_assoc. by apply (starts_app _ _ d2).
  - intros d d' H. simpl in H. case_test_in H; [|injection H as H; apply starts_terminator in H; by exists []].
    destruct (validateJSONValue fuel d) as [[d2|e]|] eqn:Ev; [|done..]. apply IHv in Ev as (j & Hj & Hs).
    apply IHa in H as (l & Hu & Ha). exists (j :: l). simpl. rewrite Hj. split; [done|]. rewrite <-app_assoc. by apply (starts_app _ _ d2).
Qed.

Lemma starts_left d ts d' : starts d ts d' -> left d = (List.length ts + left d')%nat.
Proof. intros [H _]. by rewrite H, length_app. Qed.
Lemma starts_split d ts us d' : starts d (ts ++ us) d' -> exists d1, starts d ts d1 /\ starts d1 us d'.
Proof. intros [H1 H2]. exists (Build_decoder (us ++ dec_tokens d') (dec_tail d)). by split; split; simpl; rewrite ?H1, ?app_assoc. Qed.

(** A value starts with a token that is not a closing delimiter. *)
Lemma tokens_of_open j : exists t ts, tokens_of j = t :: ts /\ forall d d' us, starts d (t :: us) d' -> More d = true.
Proof.
  assert (forall (t : token) d d' us, (match t with Delim c => c = "["%char \/ c = "{"%char | _ => True end) -> starts d (t :: us) d' -> More d = true) as Hm.
  { intros t [l e] d' us Ht [H _]. simpl in *. subst. unfold More. simpl. destruct t as [c| |]; [|done..]. by destruct Ht as [->| ->]. }
  destruct j; simpl; eexists _, _; (split; [reflexivity|]); intros d d' us; apply Hm; auto.
Qed.

Definition complete (j : json) : Prop := unique_keys j = true -> forall fuel d d',
  starts d (tokens_of j) d' -> (2 * left d + 1 <= fuel)%nat -> validateJSONValue fuel d = Some (Ok d').

Lemma array_complete l : Forall complete l -> forallb unique_keys l = true -> forall fuel d d',
  starts d (flat_map tokens_of l ++ [Delim "]"]) d' -> (2 * left d + 2 <= fuel)%nat -> array_loop fuel d = Some (Ok d').
Proof.
  induction 1 as [|j l Hj _ IH]; intros Hu fuel d d' Hs Hf; (destruct fuel as [|fuel]; [lia|]); simpl in *.
  - destruct (Token_starts _ _ _ _ Hs) as (d1 & E & [H1 H2]). simpl in *. unfold More, terminator. rewrite E.
    apply Token_split in E as [-> _]. simpl. f_equal. f_equal. destruct d1, d'. simpl in *. by subst.
  - bool_hyps. rewrite <-app_assoc in Hs. destruct (tokens_of_open j) as (t & ts & Et & Hm).
    rewrite (Hm d d' (ts ++ flat_map tokens_of l ++ [Delim "]"])) by (by rewrite Et in Hs).
    apply starts_split in Hs as (d1 & Hs1 & Hs2). rewrite (Hj ltac:(done) fuel d d1) by (done || lia).
    apply IH; [done..|]. apply starts_left in Hs1. rewrite Et in Hs1. simpl in Hs1. lia.
Qed.

Lemma object_complete fields : Forall (fun kv => complete kv.2) fields -> forallb (fun kv => unique_keys kv.2) fields = true ->
  NoDup (map fst fields) -> forall fuel seen d d', Forall (fun kv => kv.1 ∉ seen) fields ->
  starts d (object_tokens fields ++ [Delim "}"]) d' -> (2 * left d + 2 <= fuel)%nat -> object_loop fuel seen d = Some (Ok d').
Proof.
  induction 1 as [|[key j] fields Hj _ IH]; intros Hu Hn fuel seen d d' Hseen Hs Hf; (destruct fuel as [|fuel]; [lia|]); simpl in *.
  - destruct (Token_starts _ _ _ _ Hs) as (d1 & E & [H1 H2]). simpl in *. unfold More, terminator. rewrite E.
    apply Token_split in E as [-> _]. simpl. f_equal. f_equal. destruct d1, d'. simpl in *. by subst.
  - bool_hyps. apply NoDup_cons in Hn as [Hkey Hn]. apply Forall_cons in Hseen as [Hk Hseen]. simpl in Hk.
    destruct (Token_starts _ _ _ _ Hs) as (d1 & E & Hs1).
    assert (More d = true) as -> by (apply Token_split in E as [E _]; unfold More; by rewrite E).
    rewrite E. rewrite bool_decide_eq_false_2 by done. apply Token_left in E. rewrite <-app_assoc in Hs1.
    apply starts_split in Hs1 as (d2 & Hs1 & Hs2). rewrite (Hj ltac:(done) fuel d1 d2) by (done || lia).
    apply starts_left in Hs1. apply IH; [done..| |done|lia]. rewrite Forall_forall in Hseen. apply Forall_forall. intros kv Hin.
    apply not_elem_of_union. split; [|by apply Hseen]. intros <-%elem_of_singleton. apply Hkey. by apply (list_elem_of_fmap_2 fst).
Qed.

Lemma validate_complete j : complete j.
Proof.
  induction j as [j Hj|l IH|fields IH] using json_ind'; intros Hu fuel d d' Hs Hf; (destruct fuel as [|fuel]; [lia|]).
  - assert (exists t, tokens_of j = [t] /\ match t with Delim _ => False | _ => True end) as (t & Et & Ht).
    { by destruct j; try done; eexists. }
    rewrite Et in Hs. destruct (Token_starts _ _ _ _ Hs) as (d1 & E & [H1 H2]). simpl in *. rewrite E.
    destruct d1, d'. simpl in *. subst. by destruct t.
  - simpl in Hs. destruct (Token_starts _ _ _ _ Hs) as (d1 & E & Hs1). simpl. rewrite E. apply Token_left in E.
    apply (array_complete l); [done..|lia].
  - simpl in Hu. bool_hyps. destruct (Token_starts _ _ _ _ Hs) as (d1 & E & Hs1). simpl. rewrite E. apply Token_left in E.
    apply (object_complete fields); [done..| |done|lia]. apply Forall_forall. set_solver.
Qed.

(** The tokens are those of one value with distinct keys, and then the text ends. *)
Definition one_value (d : decoder) : Prop :=
  exists j, unique_keys j = true /\ dec_tokens d = tokens_of j /\ Token (Build_decoder [] (dec_tail d)) = Err (Sentinel EOF).

Lemma validateJSONTokens_spec d : validateJSONTokens d = Some None <-> one_value d.
Proof.
  unfold validateJSONTokens. split.
  - destruct (validateJSONValue _ d) as [[d'|e]|] eqn:E; [|done..]. apply validate_sound in E as (j & Hj & Hs & Ht). intros H. exists j.
    destruct d' as [[|t l] e]; simpl in *; [|by repeat case_test_in H].
    split_and!; [done|by rewrite Hs, app_nil_r|]. rewrite <-Ht. by destruct (Token _) as [[]|[[]| | | | | | |]].
  - intros (j & Hj & Hs & Ht). destruct d as [l e]. simpl in *. subst.
    rewrite (validate_complete j Hj _ _ (Build_decoder [] e)); [by rewrite Ht|by split; simpl; [rewrite app_nil_r|]|unfold fuel_for; lia].
Qed.

(** A token sequence determines the shape of its value. *)
Fixpoint shape (j : json) : json :=
  match j with
  | JStr s => JStr s
  | JArr l => JArr (map shape l)
  | JObj fields => JObj (map (fun kv => (kv.1, shape kv.2)) fields)
  | _ => JNull
  end.

Lemma unique_keys_shape j : unique_keys (shape j) = unique_keys j.
Proof.
  induction j as [j Hj|l IH|fields IH] using json_ind'; [by destruct j| |]; simpl.
  - induction IH as [|x l Hx _ IH]; simpl; [done|]. by rewrite Hx, IH.
  - f_equal; [by rewrite map_map|]. induction IH as [|x l Hx _ IH]; simpl; [done|]. by rewrite Hx, IH.
Qed.

Definition determined (j : json) : Prop := forall j' r r', tokens_of j ++ r = tokens_of j' ++ r' -> shape j = shape j' /\ r = r'.

Lemma not_closing j c r r' : tokens_of j ++ r = Delim c :: r' -> c <> "]"%char /\ c <> "}"%char.
Proof. by destruct j; simpl; intros [= <- _]. Qed.

Lemma array_determined l : Forall determined l -> forall l' r r',
  flat_map tokens_of l ++ Delim "]" :: r = flat_map tokens_of l' ++ Delim "]" :: r' -> map shape l = map shape l' /\ r = r'.
Proof.
  induction 1 as [|j l Hj _ IH]; intros [|j' l'] r r'; simpl; rewrite <-?app_assoc.
  - by intros [= ->].
  - intros H. symmetry in H. by apply not_closing in H as [].
  - intros H. by apply not_closing in H as [].
  - intros [Hs H]%Hj. apply IH in H as [Hm ->]. split; [by rewrite Hs, Hm|done].
Qed.

Lemma object_determined fields : Forall (fun kv => determined kv.2) fields -> forall fields' r r',
  object_tokens fields ++ Delim "}" :: r = object_tokens fields' ++ Delim "}" :: r' ->
  map (fun kv => (kv.1, shape kv.2)) fields = map (fun kv => (kv.1, shape kv.2)) fields' /\ r = r'.
Proof.
  induction 1 as [|[k j] fields Hj _ IH]; intros [|[k' j'] fields'] r r'; simpl; rewrite <-?app_assoc; [by intros [= ->]|done..|].
  intros [= <- [Hs H]%Hj]. apply IH in H as [Hm ->]. split; [|done]. simpl in *. by rewrite Hs, Hm.
Qed.

Lemma tokens_determined j : determined j.
Proof.
  induction j as [j Hj|l IH|fields IH] using json_ind'; intros j' r r' H.
  - destruct j; try done; destruct j'; simpl in H; by simplify_eq.
  - destruct j' as [| | | | |l'|fields']; simpl in H; try by simplify_eq. injection H as H. rewrite <-!app_assoc in H.
    apply (array_determined l IH) in H as [Hm ->]. simpl. by rewrite Hm.
  - destruct j' as [| | | | |l'|fields']; simpl in H; try by simplify_eq. injection H as H. rewrite <-!app_assoc in H.
    apply (object_determined fields IH) in H as [Hm ->]. simpl. by rewrite Hm.
Qed.

Section Accepts.
Context `{JD : JSONDecoder}.

Lemma validate_None data : validateJSONNoDuplicateObjectKeys data = None <-> one_value (NewDecoder data).
Proof.
  unfold validateJSONNoDuplicateObjectKeys. rewrite <-validateJSONTokens_spec.
  destruct (validateJSON_total (NewDecoder data)) as [r ->]. split; [by intros ->|by intros [= ->]].
Qed.

(** On the text of a value the check is exactly that its objects have distinct keys. *)
Lemma validate_value data j : parse_json data = Some j -> validateJSONNoDuplicateObjectKeys data = None <-> unique_keys j = true.
Proof.
  intros Hp. rewrite validate_None, (NewDecoder_value data j Hp). split; [|by exists j].
  intros (j' & Hj' & Ht & _). simpl in Ht. rewrite <-unique_keys_shape.
  destruct (tokens_determined j j' [] []) as [-> _]; [by rewrite !app_nil_r|]. by rewrite unique_keys_shape.
Qed.

(** C37: the check of the client's responses is exact. It ends on every text; it accepts exactly the texts
    whose tokens are those of one value, without a duplicate key in any object, followed by the end of
    the text; and on the text of a value it accepts exactly when every object of it, at any depth, has
    distinct keys. *)
Theorem duplicate_key_check_exact :
  (forall data, exists verdict, validateJSONTokens (NewDecoder data) = Some verdict /\ validateJSONNoDuplicateObjectKeys data = verdict)
  /\ (forall data, validateJSONNoDuplicateObjectKeys data = None <-> one_value (NewDecoder data))
  /\ (forall data j, parse_json data = Some j -> validateJSONNoDuplicateObjectKeys data = None <-> unique_keys j = true).
Proof.
  split_and!; [|apply validate_None|apply validate_value]. intros data. destruct (validateJSON_total (NewDecoder data)) as [r Hr]. exists r.
  split; [done|]. unfold validateJSONNoDuplicateObjectKeys. by rewrite Hr.
Qed.
End Accepts.
