(* ===== verification/ClientResources.v ===== *)
(** * Resources and requests of the InSpace client (modules/client/types.go)

    The compute, network, load balancer, firewall and floating IP types beside the storage types of
    ClientTypes, with the JSON of every type that the client decodes or sends. [int] and [int64] fields
    are 64-bit, [int32] fields 32-bit. A [json.RawMessage] is kept as the text of its value. *)

From S2P Require Import Prelude GoErrors ClientTypes CSIFence GoJSON.

(** ** Types *)

Record Location := {
  Location_DisplayName : string; Location_Description : string; Location_Slug : string; Location_CountryCode : string;
  Location_IsDefault : bool; Location_IsPreferred : bool; Location_OrderNumber : Z
}.
Record HostPool := {
  HostPool_UUID : string; HostPool_Name : string; HostPool_Description : string; HostPool_IsDefaultDesignated : bool;
  HostPool_IsVisible : bool; HostPool_StoragePoolUUID : string; HostPool_UIPosition : Z; HostPool_GuestLimits : json;
  HostPool_CreatedAt : string; HostPool_UpdatedAt : string
}.
Record CreateVMRequest := {
  CreateVM_Name : string; CreateVM_Description : string; CreateVM_OSName : string; CreateVM_OSVersion : string;
  CreateVM_DiskGiB : Z; CreateVM_VCPU : Z; CreateVM_MemoryMiB : Z; CreateVM_DesignatedPoolUUID : string;
  CreateVM_Username : string; CreateVM_Password : string; CreateVM_PublicKey : string; CreateVM_BillingAccountID : Z;
  CreateVM_NetworkUUID : string; CreateVM_CloudInit : string; CreateVM_CloudInitJSON : string;
  CreateVM_ReservePublicIP : option bool
}.
Record VMImageVersion := { VMImageVersion_OSVersion : string; VMImageVersion_DisplayName : string; VMImageVersion_Published : bool }.
Record VMImage := {
  VMImage_OSName : string; VMImage_DisplayName : string; VMImage_UIPosition : Z; VMImage_IsDefault : bool;
  VMImage_IsAppCatalog : bool; VMImage_Icon : string; VMImage_Versions : list VMImageVersion
}.
Record LoadBalancerRule := {
  Rule_UUID : string; Rule_Protocol : string; Rule_SourcePort : Z; Rule_TargetPort : Z; Rule_CreatedAt : string
}.
Record LoadBalancerTarget := {
  Target_UUID : string; Target_Type : string; Target_IPAddress : string; Target_CreatedAt : string
}.
Record LoadBalancer := {
  LB_UUID : string; LB_DisplayName : string; LB_NetworkUUID : string; LB_BillingAccountID : Z; LB_PrivateAddress : string;
  LB_PublicAddress : string; LB_PublicIPv4 : string; LB_IsDeleted : bool; LB_CreatedAt : string; LB_UpdatedAt : string;
  LB_ForwardingRules : list LoadBalancerRule; LB_Targets : list LoadBalancerTarget
}.
Record CreateLoadBalancerRequest := {
  CreateLB_DisplayName : string; CreateLB_BillingAccountID : Z; CreateLB_NetworkUUID : string; CreateLB_ReservePublicIP : bool;
  CreateLB_Rules : list LoadBalancerRule; CreateLB_Targets : list LoadBalancerTarget
}.
Record FirewallRule := {
  fr_UUID : string; fr_Protocol : string; fr_Direction : string; fr_PortStart : option Z; fr_PortEnd : option Z;
  fr_EndpointSpecType : string; fr_EndpointSpec : list string
}.
Record FirewallResource := { fx_ResourceType : string; fx_ResourceUUID : string }.
Record Firewall := {
  fw_UUID : string; fw_Name : string; fw_DisplayName : string; fw_Description : string; fw_BillingAccountID : Z;
  fw_Rules : list FirewallRule; fw_ResourcesAssigned : option (list FirewallResource) (* a nil slice is [None] *); fw_CreatedAt : string
}.
Definition EffectiveName (f : Firewall) : string := if fw_DisplayName f != "" then fw_DisplayName f else fw_Name f.
Record CreateFirewallRequest := {
  CreateFW_DisplayName : string; CreateFW_Description : string; CreateFW_BillingAccountID : Z; CreateFW_Rules : list FirewallRule
}.
Record UpdateFirewallRequest := { UpdateFW_Name : string; UpdateFW_Description : string; UpdateFW_Rules : list FirewallRule }.

Record FloatingIP := {
  fip_UUID : string; fip_ID : Z; fip_Address : string; fip_UserID : Z; fip_BillingAccountID : Z; fip_Type : string;
  fip_Name : string; fip_Enabled : bool; fip_IsDeleted : bool; fip_IsIPv6 : bool; fip_IsVirtual : bool;
  fip_AssignedTo : string; fip_AssignedToResourceType : string; fip_AssignedToPrivateIP : string;
  fip_CreatedAt : string; fip_UpdatedAt : string; fip_UnassignedAt : string;
  assignedToPresent : bool; assignedTypePresent : bool; assignedPrivatePresent : bool; assignmentCorroborated : bool;
  stableIdentityPresent : bool; isIPv6Present : bool; isVirtualPresent : bool
}.
Record CreateFloatingIPRequest := { CreateFIP_Name : string; CreateFIP_BillingAccountID : Z }.
Record UpdateFloatingIPRequest := { UpdateFIP_Name : string; UpdateFIP_BillingAccountID : Z }.
Record FloatingIPFilters := { Filter_BillingAccountID : Z; Filter_VMUUID : string }.

(** ** Record updates *)

#[export] Instance eta_VMStorage : Eta VMStorage := fun r =>
  Build_VMStorage (VMStorage_UUID r) (VMStorage_ID r) (VMStorage_UserID r) (VMStorage_Name r) (VMStorage_Pool r) (VMStorage_Type r)
    (VMStorage_SizeGiB r) (VMStorage_Primary r) (VMStorage_Shared r) (VMStorage_CreatedAt r) (VMStorage_UpdatedAt r).
#[export] Instance eta_VM : Eta VM := fun r =>
  Build_VM (VM_UUID r) (VM_ID r) (VM_UserID r) (VM_Name r) (VM_Description r) (VM_Hostname r) (VM_Status r) (VM_VCPU r) (VM_MemoryMiB r)
    (VM_OSName r) (VM_OSVersion r) (VM_Username r) (VM_MAC r) (VM_LicenseType r) (VM_PrivateIPv4 r) (VM_PublicIPv4 r) (VM_PublicIPv6 r)
    (VM_NetworkUUID r) (VM_BillingAccountID r) (VM_DesignatedPoolName r) (VM_DesignatedPoolUUID r) (VM_Backup r) (VM_CreatedAt r)
    (VM_UpdatedAt r) (VM_Tags r) (VM_Storage r).
#[export] Instance eta_DiskSnapshot : Eta DiskSnapshot := fun r =>
  Build_DiskSnapshot (DiskSnapshot_UUID r) (DiskSnapshot_DiskUUID r) (DiskSnapshot_DisplayName r) (DiskSnapshot_SizeGiB r) (DiskSnapshot_CreatedAt r).
#[export] Instance eta_Disk : Eta Disk := fun r =>
  Build_Disk (Disk_UUID r) (Disk_DisplayName r) (Disk_Status r) (Disk_SizeGiB r) (Disk_BillingAccountID r) (Disk_StoragePoolUUID r)
    (Disk_SourceImageType r) (Disk_SourceImage r) (Disk_ReadOnlyBootable r) (Disk_CreatedAt r) (Disk_UpdatedAt r) (Disk_Snapshots r).
#[export] Instance eta_Network : Eta Network := fun r =>
  Build_Network (Network_UUID r) (Network_Name r) (Network_Type r) (Network_VLANID r) (Network_Subnet r) (Network_SubnetIPv6 r)
    (Network_IsDefault r) (Network_VMUUIDs r) (Network_ResourcesCount r) (Network_CreatedAt r) (Network_UpdatedAt r).
#[export] Instance eta_Location : Eta Location := fun r =>
  Build_Location (Location_DisplayName r) (Location_Description r) (Location_Slug r) (Location_CountryCode r) (Location_IsDefault r)
    (Location_IsPreferred r) (Location_OrderNumber r).
#[export] Instance eta_HostPool : Eta HostPool := fun r =>
  Build_HostPool (HostPool_UUID r) (HostPool_Name r) (HostPool_Description r) (HostPool_IsDefaultDesignated r) (HostPool_IsVisible r)
    (HostPool_StoragePoolUUID r) (HostPool_UIPosition r) (HostPool_GuestLimits r) (HostPool_CreatedAt r) (HostPool_UpdatedAt r).
#[export] Instance eta_VMImageVersion : Eta VMImageVersion := fun r =>
  Build_VMImageVersion (VMImageVersion_OSVersion r) (VMImageVersion_DisplayName r) (VMImageVersion_Published r).
#[export] Instance eta_VMImage : Eta VMImage := fun r =>
  Build_VMImage (VMImage_OSName r) (VMImage_DisplayName r) (VMImage_UIPosition r) (VMImage_IsDefault r) (VMImage_IsAppCatalog r)
    (VMImage_Icon r) (VMImage_Versions r).
#[export] Instance eta_LoadBalancerRule : Eta LoadBalancerRule := fun r =>
  Build_LoadBalancerRule (Rule_UUID r) (Rule_Protocol r) (Rule_SourcePort r) (Rule_TargetPort r) (Rule_CreatedAt r).
#[export] Instance eta_LoadBalancerTarget : Eta LoadBalancerTarget := fun r =>
  Build_LoadBalancerTarget (Target_UUID r) (Target_Type r) (Target_IPAddress r) (Target_CreatedAt r).
#[export] Instance eta_LoadBalancer : Eta LoadBalancer := fun r =>
  Build_LoadBalancer (LB_UUID r) (LB_DisplayName r) (LB_NetworkUUID r) (LB_BillingAccountID r) (LB_PrivateAddress r) (LB_PublicAddress r)
    (LB_PublicIPv4 r) (LB_IsDeleted r) (LB_CreatedAt r) (LB_UpdatedAt r) (LB_ForwardingRules r) (LB_Targets r).
#[export] Instance eta_CreateLoadBalancerRequest : Eta CreateLoadBalancerRequest := fun r =>
  Build_CreateLoadBalancerRequest (CreateLB_DisplayName r) (CreateLB_BillingAccountID r) (CreateLB_NetworkUUID r) (CreateLB_ReservePublicIP r)
    (CreateLB_Rules r) (CreateLB_Targets r).
#[export] Instance eta_FirewallRule : Eta FirewallRule := fun r =>
  Build_FirewallRule (fr_UUID r) (fr_Protocol r) (fr_Direction r) (fr_PortStart r) (fr_PortEnd r) (fr_EndpointSpecType r) (fr_EndpointSpec r).
#[export] Instance eta_FirewallResource : Eta FirewallResource := fun r =>
  Build_FirewallResource (fx_ResourceType r) (fx_ResourceUUID r).
#[export] Instance eta_Firewall : Eta Firewall := fun r =>
  Build_Firewall (fw_UUID r) (fw_Name r) (fw_DisplayName r) (fw_Description r) (fw_BillingAccountID r) (fw_Rules r) (fw_ResourcesAssigned r)
    (fw_CreatedAt r).
#[export] Instance eta_CreateFirewallRequest : Eta CreateFirewallRequest := fun r =>
  Build_CreateFirewallRequest (CreateFW_DisplayName r) (CreateFW_Description r) (CreateFW_BillingAccountID r) (CreateFW_Rules r).
#[export] Instance eta_UpdateFirewallRequest : Eta UpdateFirewallRequest := fun r =>
  Build_UpdateFirewallRequest (UpdateFW_Name r) (UpdateFW_Description r) (UpdateFW_Rules r).
#[export] Instance eta_FloatingIP : Eta FloatingIP := fun r =>
  Build_FloatingIP (fip_UUID r) (fip_ID r) (fip_Address r) (fip_UserID r) (fip_BillingAccountID r) (fip_Type r) (fip_Name r) (fip_Enabled r)
    (fip_IsDeleted r) (fip_IsIPv6 r) (fip_IsVirtual r) (fip_AssignedTo r) (fip_AssignedToResourceType r) (fip_AssignedToPrivateIP r)
    (fip_CreatedAt r) (fip_UpdatedAt r) (fip_UnassignedAt r) (assignedToPresent r) (assignedTypePresent r) (assignedPrivatePresent r)
    (assignmentCorroborated r) (stableIdentityPresent r) (isIPv6Present r) (isVirtualPresent r).
#[export] Instance eta_CreateFloatingIPRequest : Eta CreateFloatingIPRequest := fun r =>
  Build_CreateFloatingIPRequest (CreateFIP_Name r) (CreateFIP_BillingAccountID r).
#[export] Instance eta_UpdateFloatingIPRequest : Eta UpdateFloatingIPRequest := fun r =>
  Build_UpdateFloatingIPRequest (UpdateFIP_Name r) (UpdateFIP_BillingAccountID r).

(** ** JSON *)

(** A slice, with the nil slice as [None]. *)
Definition slice_codec {A} (C : codec A) : codec (option (list A)) := {|
  c_zero := None; c_empty x := match x with None | Some [] => true | _ => false end;
  c_enc x := match x with None => JNull | Some l => JArr (map (c_enc C) l) end;
  c_dec old j := match j with JArr l => result_map Some (dec_list C l) | JNull => Ok None | _ => type_error end;
  c_good x := match x with None => true | Some l => forallb (c_good C) l end
|}.
Definition MinInt32 : Z := -2147483648.
Definition MaxInt32 : Z := 2147483647.
Definition int32_codec : codec Z := {|
  c_zero := 0; c_empty z := z =? 0; c_enc := JInt;
  c_dec old j := match j with
    | JInt z => if (MinInt32 <=? z) && (z <=? MaxInt32) then Ok z else Err (Msg "json: number out of range")
    | JNull => Ok old
    | _ => type_error
    end;
  c_good z := (MinInt32 <=? z) && (z <=? MaxInt32)
|}.
(** [any]: null is nil. *)
Definition any_codec : codec json := {|
  c_zero := JNull; c_empty j := match j with JNull => true | _ => false end; c_enc j := j; c_dec _ j := Ok j; c_good := plain_json
|}.

Section Codecs.
Context `{JT : JSONText}.

Definition raw_codec : codec string := {|
  c_zero := ""; c_empty s := s == ""; c_enc s := match parse_json s with Some j => j | None => JNull end;
  c_dec _ j := Ok (print_json j); c_good _ := false
|}.

Definition location_codec : codec Location :=
  struct_codec (Build_Location "" "" "" "" false false 0)
    ["display_name" :=: string_codec # Location_DisplayName; "description" :=? string_codec # Location_Description;
     "slug" :=: string_codec # Location_Slug; "country_code" :=? string_codec # Location_CountryCode;
     "is_default" :=: bool_codec # Location_IsDefault; "is_preferred" :=: bool_codec # Location_IsPreferred;
     "order_nr" :=? int64_codec # Location_OrderNumber].
Definition hostPool_codec : codec HostPool :=
  struct_codec (Build_HostPool "" "" "" false false "" 0 JNull "" "")
    ["uuid" :=: string_codec # HostPool_UUID; "name" :=: string_codec # HostPool_Name;
     "description" :=? string_codec # HostPool_Description; "is_default_designated" :=: bool_codec # HostPool_IsDefaultDesignated;
     "is_visible" :=: bool_codec # HostPool_IsVisible; "storage_pool_uuid" :=? string_codec # HostPool_StoragePoolUUID;
     "ui_position" :=? int64_codec # HostPool_UIPosition; "guest_limits" :=? any_codec # HostPool_GuestLimits;
     "created_at" :=? string_codec # HostPool_CreatedAt; "updated_at" :=? string_codec # HostPool_UpdatedAt].
Definition vmStorage_codec : codec VMStorage :=
  struct_codec zero_VMStorage
    ["uuid" :=: string_codec # VMStorage_UUID; "id" :=? int64_codec # VMStorage_ID; "user_id" :=? int64_codec # VMStorage_UserID;
     "name" :=? string_codec # VMStorage_Name; "pool" :=? string_codec # VMStorage_Pool; "type" :=? string_codec # VMStorage_Type;
     "size" :=: int64_codec # VMStorage_SizeGiB; "primary" :=: bool_codec # VMStorage_Primary;
     "shared" :=: bool_codec # VMStorage_Shared; "created_at" :=? string_codec # VMStorage_CreatedAt;
     "updated_at" :=? string_codec # VMStorage_UpdatedAt].
Definition vm_codec : codec VM :=
  struct_codec zero_VM
    ["uuid" :=: string_codec # VM_UUID; "id" :=? int64_codec # VM_ID; "user_id" :=? int64_codec # VM_UserID;
     "name" :=: string_codec # VM_Name; "description" :=? string_codec # VM_Description; "hostname" :=? string_codec # VM_Hostname;
     "status" :=: string_codec # VM_Status; "vcpu" :=: int64_codec # VM_VCPU; "memory" :=: int64_codec # VM_MemoryMiB;
     "os_name" :=? string_codec # VM_OSName; "os_version" :=? string_codec # VM_OSVersion; "username" :=? string_codec # VM_Username;
     "mac" :=? string_codec # VM_MAC; "license_type" :=? string_codec # VM_LicenseType;
     "private_ipv4" :=? string_codec # VM_PrivateIPv4; "public_ipv4" :=? string_codec # VM_PublicIPv4;
     "public_ipv6" :=? string_codec # VM_PublicIPv6; "network_uuid" :=? string_codec # VM_NetworkUUID;
     "billing_account" :=? int64_codec # VM_BillingAccountID; "designated_pool_name" :=? string_codec # VM_DesignatedPoolName;
     "designated_pool_uuid" :=? string_codec # VM_DesignatedPoolUUID; "backup" :=: bool_codec # VM_Backup;
     "created_at" :=? string_codec # VM_CreatedAt; "updated_at" :=? string_codec # VM_UpdatedAt;
     "tags" :=? raw_codec # VM_Tags; "storage" :=? slice_codec vmStorage_codec # VM_Storage].
Definition diskSnapshot_codec : codec DiskSnapshot :=
  struct_codec (Build_DiskSnapshot "" "" "" 0 "")
    ["uuid" :=: string_codec # DiskSnapshot_UUID; "disk_uuid" :=? string_codec # DiskSnapshot_DiskUUID;
     "display_name" :=? string_codec # DiskSnapshot_DisplayName; "size_gb" :=: int64_codec # DiskSnapshot_SizeGiB;
     "created_at" :=? string_codec # DiskSnapshot_CreatedAt].
Definition disk_codec : codec Disk :=
  struct_codec zero_Disk
    ["uuid" :=: string_codec # Disk_UUID; "display_name" :=? string_codec # Disk_DisplayName; "status" :=: string_codec # Disk_Status;
     "size_gb" :=: int64_codec # Disk_SizeGiB; "billing_account_id" :=? int64_codec # Disk_BillingAccountID;
     "storage_pool_uuid" :=? string_codec # Disk_StoragePoolUUID; "source_image_type" :=? string_codec # Disk_SourceImageType;
     "source_image" :=? string_codec # Disk_SourceImage; "read_only_bootable" :=? bool_codec # Disk_ReadOnlyBootable;
     "created_at" :=? string_codec # Disk_CreatedAt; "updated_at" :=? string_codec # Disk_UpdatedAt;
     "snapshots" :=? slice_codec diskSnapshot_codec # Disk_Snapshots].
Definition network_codec : codec Network :=
  struct_codec zero_Network
    ["uuid" :=: string_codec # Network_UUID; "name" :=: string_codec # Network_Name; "type" :=? string_codec # Network_Type;
     "vlan_id" :=? int64_codec # Network_VLANID; "subnet" :=? string_codec # Network_Subnet;
     "subnet_ipv6" :=? string_codec # Network_SubnetIPv6; "is_default" :=: bool_codec # Network_IsDefault;
     "vm_uuids" :=? slice_codec string_codec # Network_VMUUIDs; "resources_count" :=? int64_codec # Network_ResourcesCount;
     "created_at" :=? string_codec # Network_CreatedAt; "updated_at" :=? string_codec # Network_UpdatedAt].
Definition vmImageVersion_codec : codec VMImageVersion :=
  struct_codec (Build_VMImageVersion "" "" false)
    ["os_version" :=: string_codec # VMImageVersion_OSVersion; "display_name" :=: string_codec # VMImageVersion_DisplayName;
     "published" :=: bool_codec # VMImageVersion_Published].
Definition vmImage_codec : codec VMImage :=
  struct_codec (Build_VMImage "" "" 0 false false "" [])
    ["os_name" :=: string_codec # VMImage_OSName; "display_name" :=: string_codec # VMImage_DisplayName;
     "ui_position" :=? int64_codec # VMImage_UIPosition; "is_default" :=: bool_codec # VMImage_IsDefault;
     "is_app_catalog" :=: bool_codec # VMImage_IsAppCatalog; "icon" :=? string_codec # VMImage_Icon;
     "versions" :=: list_codec vmImageVersion_codec # VMImage_Versions].
Definition loadBalancerRule_codec : codec LoadBalancerRule :=
  struct_codec (Build_LoadBalancerRule "" "" 0 0 "")
    ["uuid" :=? string_codec # Rule_UUID; "protocol" :=? string_codec # Rule_Protocol; "source_port" :=: int32_codec # Rule_SourcePort;
     "target_port" :=: int32_codec # Rule_TargetPort; "created_at" :=? string_codec # Rule_CreatedAt].
Definition loadBalancerTarget_codec : codec LoadBalancerTarget :=
  struct_codec (Build_LoadBalancerTarget "" "" "" "")
    ["target_uuid" :=: string_codec # Target_UUID; "target_type" :=: string_codec # Target_Type;
     "target_ip_address" :=? string_codec # Target_IPAddress; "created_at" :=? string_codec # Target_CreatedAt].
Definition zero_LoadBalancer : LoadBalancer := Build_LoadBalancer "" "" "" 0 "" "" "" false "" "" [] [].
Definition loadBalancer_codec : codec LoadBalancer :=
  struct_codec zero_LoadBalancer
    ["uuid" :=: string_codec # LB_UUID; "display_name" :=: string_codec # LB_DisplayName; "network_uuid" :=: string_codec # LB_NetworkUUID;
     "billing_account_id" :=? int64_codec # LB_BillingAccountID; "private_address" :=? string_codec # LB_PrivateAddress;
     "public_address" :=? string_codec # LB_PublicAddress; "public_ipv4" :=? string_codec # LB_PublicIPv4;
     "is_deleted" :=: bool_codec # LB_IsDeleted; "created_at" :=? string_codec # LB_CreatedAt; "updated_at" :=? string_codec # LB_UpdatedAt;
     "forwarding_rules" :=? list_codec loadBalancerRule_codec # LB_ForwardingRules; "targets" :=? list_codec loadBalancerTarget_codec # LB_Targets].
Definition createLoadBalancer_codec : codec CreateLoadBalancerRequest :=
  struct_codec (Build_CreateLoadBalancerRequest "" 0 "" false [] [])
    ["display_name" :=? string_codec # CreateLB_DisplayName; "billing_account_id" :=? int64_codec # CreateLB_BillingAccountID;
     "network_uuid" :=? string_codec # CreateLB_NetworkUUID; "reserve_public_ip" :=: bool_codec # CreateLB_ReservePublicIP;
     "rules" :=? list_codec loadBalancerRule_codec # CreateLB_Rules; "targets" :=: list_codec loadBalancerTarget_codec # CreateLB_Targets].
Definition firewallRule_codec : codec FirewallRule :=
  struct_codec (Build_FirewallRule "" "" "" None None "" [])
    ["uuid" :=? string_codec # fr_UUID; "protocol" :=: string_codec # fr_Protocol; "direction" :=: string_codec # fr_Direction;
     "port_start" :=: ptr_codec int32_codec # fr_PortStart; "port_end" :=: ptr_codec int32_codec # fr_PortEnd;
     "endpoint_spec_type" :=: string_codec # fr_EndpointSpecType; "endpoint_spec" :=? list_codec string_codec # fr_EndpointSpec].
Definition firewallResource_codec : codec FirewallResource :=
  struct_codec (Build_FirewallResource "" "")
    ["resource_type" :=: string_codec # fx_ResourceType; "resource_uuid" :=: string_codec # fx_ResourceUUID].
Definition zero_Firewall : Firewall := Build_Firewall "" "" "" "" 0 [] None "".
Definition firewall_codec : codec Firewall :=
  struct_codec zero_Firewall
    ["uuid" :=: string_codec # fw_UUID; "name" :=? string_codec # fw_Name; "display_name" :=? string_codec # fw_DisplayName;
     "description" :=? string_codec # fw_Description; "billing_account_id" :=? int64_codec # fw_BillingAccountID;
     "rules" :=? list_codec firewallRule_codec # fw_Rules; "resources_assigned" :=? slice_codec firewallResource_codec # fw_ResourcesAssigned;
     "created_at" :=? string_codec # fw_CreatedAt].
Definition createFirewall_codec : codec CreateFirewallRequest :=
  struct_codec (Build_CreateFirewallRequest "" "" 0 [])
    ["display_name" :=: string_codec # CreateFW_DisplayName; "description" :=? string_codec # CreateFW_Description;
     "billing_account_id" :=? int64_codec # CreateFW_BillingAccountID; "rules" :=: list_codec firewallRule_codec # CreateFW_Rules].
Definition updateFirewall_codec : codec UpdateFirewallRequest :=
  struct_codec (Build_UpdateFirewallRequest "" "" [])
    ["display_name" :=: string_codec # UpdateFW_Name; "description" :=: string_codec # UpdateFW_Description;
     "rules" :=: list_codec firewallRule_codec # UpdateFW_Rules].
Definition createFloatingIP_codec : codec CreateFloatingIPRequest :=
  struct_codec (Build_CreateFloatingIPRequest "" 0)
    ["name" :=? string_codec # CreateFIP_Name; "billing_account_id" :=: int64_codec # CreateFIP_BillingAccountID].
Definition updateFloatingIP_codec : codec UpdateFloatingIPRequest :=
  struct_codec (Build_UpdateFloatingIPRequest "" 0)
    ["name" :=: string_codec # UpdateFIP_Name; "billing_account_id" :=: int64_codec # UpdateFIP_BillingAccountID].
End Codecs.

(** ** FloatingIP.UnmarshalJSON *)

Definition zero_FloatingIP : FloatingIP :=
  Build_FloatingIP "" 0 "" 0 0 "" "" false false false false "" "" "" "" "" "" false false false false false false false.

Definition canonicalFloatingIPResponseFields : list string :=
  ["uuid"; "id"; "address"; "user_id"; "billing_account_id"; "type"; "name"; "enabled"; "is_deleted"; "is_ipv6"; "is_virtual";
   "assigned_to"; "assigned_to_resource_type"; "assigned_to_private_ip"; "created_at"; "updated_at"; "unassigned_at"].
Definition stable_fields : list string :=
  ["uuid"; "id"; "address"; "user_id"; "billing_account_id"; "type"; "name"; "enabled"; "is_deleted"; "is_ipv6"; "created_at"; "updated_at"].

(** The exported fields: the type without its methods. *)
Definition floatingIPWithoutMethods : codec FloatingIP :=
  struct_codec zero_FloatingIP
    ["uuid" :=? string_codec # fip_UUID; "id" :=? int64_codec # fip_ID; "address" :=: string_codec # fip_Address;
     "user_id" :=? int64_codec # fip_UserID; "billing_account_id" :=? int64_codec # fip_BillingAccountID;
     "type" :=? string_codec # fip_Type; "name" :=? string_codec # fip_Name; "enabled" :=: bool_codec # fip_Enabled;
     "is_deleted" :=: bool_codec # fip_IsDeleted; "is_ipv6" :=: bool_codec # fip_IsIPv6; "is_virtual" :=: bool_codec # fip_IsVirtual;
     "assigned_to" :=? string_codec # fip_AssignedTo; "assigned_to_resource_type" :=? string_codec # fip_AssignedToResourceType;
     "assigned_to_private_ip" :=? string_codec # fip_AssignedToPrivateIP; "created_at" :=? string_codec # fip_CreatedAt;
     "updated_at" :=? string_codec # fip_UpdatedAt; "unassigned_at" :=? string_codec # fip_UnassignedAt].

(** [map[string]json.RawMessage]: the last of equal keys. *)
Definition raw_fields (j : json) : list (string * json) := match j with JObj fields => rev fields | _ => [] end.
Definition raw_field (j : json) (key : string) : option json := option_map snd (List.find (fun kv => kv.1 == key) (raw_fields j)).
Definition present (j : json) (key : string) : bool := match raw_field j key with Some _ => true | None => false end.

Definition UnmarshalJSON (j : json) : result FloatingIP :=
  try! decoded := c_dec floatingIPWithoutMethods zero_FloatingIP j in
  if existsb (fun kv => existsb (fun canonical => (kv.1 != canonical) && EqualFold kv.1 canonical) canonicalFloatingIPResponseFields) (raw_fields j)
  then Err (Msg "inspace: non-canonical floating IP response field")
  else Ok (decoded <| assignedToPresent := present j "assigned_to" |> <| assignedTypePresent := present j "assigned_to_resource_type" |>
             <| assignedPrivatePresent := present j "assigned_to_private_ip" |> <| isIPv6Present := present j "is_ipv6" |>
             <| isVirtualPresent := present j "is_virtual" |>
             <| stableIdentityPresent := forallb (fun key => match raw_field j key with None | Some JNull => false | _ => true end) stable_fields |>).
Definition floatingIP_codec : codec FloatingIP := {|
  c_zero := zero_FloatingIP; c_empty _ := false; c_enc := c_enc floatingIPWithoutMethods; c_dec _ := UnmarshalJSON; c_good _ := false
|}.
