(* ===== verification/GoHTTP.v ===== *)
(** * HTTP requests, responses and redirects

    What the client uses of net/http and net/url: form and query encoding, the parts of a request and
    of a response, and [http.Client.Do] with a redirect policy. Sending one request is the action
    [RoundTrip] of the environment, which may answer with any response or transport error; reading a
    body may fail after any prefix. *)

From S2P Require Import Prelude GoErrors ClientErrors GoURL Prog GoJSON.

(** ** url.Values *)

(** One value per key, as the client sets them. *)
Definition Values : Type := list (string * string).
Definition Values_Set (v : Values) (key value : string) : Values := List.filter (fun kv => kv.1 != key) v ++ [(key, value)].

(** [url.QueryEscape]. *)
Fixpoint QueryEscape (s : string) : string :=
  match s with
  | EmptyString => ""
  | String c r =>
      if unreserved c then String c (QueryEscape r)
      else if c == " "%char then String "+" (QueryEscape r)
      else String "%" (String (hex_digit (Nat.div (code c) 16)) (String (hex_digit (Nat.modulo (code c) 16)) (QueryEscape r)))
  end.
Fixpoint join_with (sep : string) (l : list string) : string :=
  match l with [] => "" | [s] => s | s :: r => s +:+ sep +:+ join_with sep r end.
(** [Values.Encode]: sorted by key. *)
Definition Encode (v : Values) : string :=
  join_with "&" (map (fun kv => QueryEscape kv.1 +:+ "=" +:+ QueryEscape kv.2) (foldr insert_key [] v)).

(** ** URLs *)

(** [splitHostPort]. *)
Definition split_host_port (hostPort : string) : string * string :=
  let '(host, port) := match CutLast ":" hostPort with
    | Some (h, p) => if valid_optional_port p then (h, p) else (hostPort, "")
    | None => (hostPort, "")
    end in
  let n := String.length host in
  if HasPrefix host "[" && (last_char "[" host == "]"%char) && Nat.leb 2 n then (take_string (n - 2) (drop_string 1 host), port) else (host, port).
Definition Hostname (u : URL) : string := fst (split_host_port (URL_Host u)).
Definition Port (u : URL) : string := snd (split_host_port (URL_Host u)).

(** [strings.TrimRight(s, "/")]. *)
Definition TrimRight_slash (s : string) : string :=
  let fix go l := match l with c :: r => if c == "/"%char then go r else l | [] => [] end in
  string_of_list_ascii (rev (go (rev (list_ascii_of_string s)))).
Fixpoint TrimLeft_slash (s : string) : string := match s with String "/" r => TrimLeft_slash r | _ => s end.

(** ** Requests and responses *)

(** The context a request is sent under: the caller's, or one with an extra time limit. *)
Record sending := { sn_Context : context; sn_Timeout : option Z }.

Record request := {
  rq_Method : string; rq_Scheme : string; rq_Host : string; rq_Path : string; rq_RawQuery : string;
  rq_Header : list (string * string); rq_Body : option string; rq_Sending : option sending
}.

(** A response as headers and what its body delivers: its bytes and how reading ends after them. *)
Record response := {
  rs_Status : Z; rs_Header : list (string * string); rs_ContentLength : Z; rs_Body : string; rs_BodyErr : goerr
}.
(** [Header.Values] of a canonical key. *)
Definition header_values (h : list (string * string)) (key : string) : list string := map snd (List.filter (fun kv => kv.1 == key) h).
Definition header_get (h : list (string * string)) (key : string) : string := match header_values h key with v :: _ => v | [] => "" end.

(** [io.ReadAll(io.LimitReader(body, n))]. *)
Definition read_limited (r : response) (n : Z) : string * goerr :=
  if n <=? Z.of_nat (String.length (rs_Body r)) then (take_string (Z.to_nat n) (rs_Body r), None) else (rs_Body r, rs_BodyErr r).

(** ** http.Client.Do *)

Inductive hact :=
  | BuildRequest (r : request)            (* http.NewRequestWithContext *)
  | ContextErr (s : option sending)       (* ctx.Err() *)
  | RoundTrip (r : request).              (* one request on the wire *)
Definition hres (x : hact) : Type :=
  match x with BuildRequest _ => goerr | ContextErr _ => goerr | RoundTrip _ => result response end.

(** [*url.Error] around what the transport or the policy reported. *)
Definition url_error (e : error) : error :=
  match Client.net_error e with Some (t, p) => UrlErr t p e | None => UrlErr false false e end.

(** [redirectBehavior] with the Location header: a request body can always be replayed here. *)
Definition redirect_location (r : response) : option string :=
  let loc := header_get (rs_Header r) "Location" in
  if ((rs_Status r =? 301) || (rs_Status r =? 302) || (rs_Status r =? 303) || (rs_Status r =? 307) || (rs_Status r =? 308)) && (loc != "")
  then Some loc else None.
(** [req.URL.Parse(loc)], as far as the policy looks at the result: its scheme and host. *)
Definition resolve_location (rq : request) (loc : string) : option URL :=
  match url_Parse loc with
  | None => None
  | Some u =>
      Some (if URL_Scheme u != "" then u
            else if URL_Host u != "" then Build_URL (rq_Scheme rq) (URL_Opaque u) (URL_User u) (URL_Host u) (URL_Path u) (URL_RawPath u) (URL_RawQuery u) (URL_Fragment u)
            else Build_URL (rq_Scheme rq) (URL_Opaque u) (URL_User u) (rq_Host rq) (URL_Path u) (URL_RawPath u) (URL_RawQuery u) (URL_Fragment u))
  end.

(** [Client.Do] with a policy that allows no redirect: the response and the policy's error are both
    returned. *)
Definition http_Do (checkRedirect : URL -> list request -> error) (rq : request) : prog hres (option response * goerr) :=
  let! answer := call (RoundTrip rq) in
  match answer with
  | Err e => Ret (None, Some (url_error e))
  | Ok resp =>
      match redirect_location resp with
      | None => Ret (Some resp, None)
      | Some loc =>
          match resolve_location rq loc with
          | None => Ret (None, Some (url_error (Msg "failed to parse Location header")))
          | Some target => Ret (Some resp, Some (url_error (checkRedirect target [rq])))
          end
      end
  end.
