(* ===== verification/ClientTransport.v ===== *)
(** * Sending requests and trusting responses (modules/client/client.go)

    [NewClient], the redirect policy, [doBody] with the contracts of every endpoint, and the errors it
    builds. A mutation is sent once or reported as not dispatched; a success is trusted only when the
    response is complete, has a status and a body that its endpoint allows, and is JSON without
    duplicate keys. What [json.Unmarshal] leaves in the result when it fails is not modelled: a failed
    call has no result. *)

From S2P Require Import Prelude GoErrors ClientErrors CSIFence GoNet GoURL Prog GoJSON GoHTTP ClientJSON ClientResources.
Import Client.

Definition defaultUserAgent : string := "cloud-provider-inspace/dev".
Definition defaultReadTimeout : Z := 30000000000.
Definition maxResponseBodyBytes : Z := 4194304.
Definition warrenCorrelationIDHeader : string := "X-Warren-Correlation-Id".
Definition maxWarrenCorrelationIDSize : nat := 128.

Definition warrenCorrelationIDPattern (s : string) : bool :=
  match s with
  | EmptyString => false
  | String c _ => (is_alpha c || is_digit c) && all_chars (fun c => is_alpha c || is_digit c || one_of "._:-" c) s
  end.

(** ** NewClient *)

Record Options := { opt_BaseURL : string; opt_APIKey : string; opt_UserAgent : string; opt_DangerouslyAllowMutations : bool }.
Record Client := { baseURL : URL; apiKey : string; userAgent : string; dangerouslyAllowMutations : bool }.

Definition isLiteralLoopback (host : string) : bool :=
  if EqualFold host "localhost" then true
  else match ParseIP host with Some ip => IsLoopback ip | None => false end.

Definition with_path (u : URL) (path : string) : URL :=
  Build_URL (URL_Scheme u) (URL_Opaque u) (URL_User u) (URL_Host u) path (URL_RawPath u) (URL_RawQuery u) (URL_Fragment u).

Definition NewClient (opts : Options) : result Client :=
  if TrimSpace (opt_BaseURL opts) == "" then Err (Msg "inspace: base URL is required")
  else match url_Parse (opt_BaseURL opts) with
  | None => Err (Msg "inspace: parse base URL")
  | Some u =>
    if ((URL_Scheme u != "http") && (URL_Scheme u != "https")) || (URL_Host u == "") then Err (Msg "inspace: base URL must be an absolute http(s) URL")
    else if (URL_Scheme u != "https") && negb (isLiteralLoopback (Hostname u)) then Err (Msg "inspace: non-loopback base URL must use HTTPS")
    else if (match URL_User u with Some _ => true | None => false end) || (URL_RawQuery u != "") || (URL_Fragment u != "")
    then Err (Msg "inspace: base URL must not contain credentials, query, or fragment")
    else if TrimSpace (opt_APIKey opts) == "" then Err (Msg "inspace: API key is required")
    else
      let userAgent := TrimSpace (opt_UserAgent opts) in
      let userAgent := if userAgent == "" then defaultUserAgent else userAgent in
      Ok (Build_Client (with_path u (TrimRight_slash (URL_Path u))) (opt_APIKey opts) userAgent (opt_DangerouslyAllowMutations opts))
  end.

Definition effectivePort (u : URL) : string := if Port u != "" then Port u else if URL_Scheme u == "https" then "443" else "80".
Definition sameOrigin (left right : URL) : bool :=
  EqualFold (URL_Scheme left) (URL_Scheme right) && EqualFold (Hostname left) (Hostname right) && (effectivePort left == effectivePort right).

Definition isMutation (method : string) : bool :=
  (method == MethodPost) || (method == MethodPut) || (method == MethodPatch) || (method == MethodDelete).

(** [CheckRedirect]: no redirect is followed. *)
Definition checkRedirect (base : URL) (target : URL) (via : list request) : error :=
  match last via with
  | Some prior =>
      if isMutation (rq_Method prior) then wrapS ErrMutationRedirect ""
      else if negb (sameOrigin base target) then wrapS ErrCrossOriginRedirect ""
      else wrapS ErrReadRedirect ""
  | None => if negb (sameOrigin base target) then wrapS ErrCrossOriginRedirect "" else Msg "inspace: redirect blocked"
  end.

(** ** Local checks *)

Definition locationPath (location resource : string) : result string :=
  if negb (locationPattern location) then Err (Msg "inspace: invalid location")
  else Ok ("/v1/" +:+ location +:+ "/" +:+ TrimLeft_slash resource).
Definition validateUUID (value : string) : goerr := if negb (uuidPattern value) then Some (Msg "inspace: invalid UUID") else None.
Definition validateResponseUUID (value : string) : goerr :=
  match validateUUID value with Some e => Some (Wrap "inspace: malformed response identity" [e]) | None => None end.
Definition validateExpectedResponseUUID (value expected : string) : goerr :=
  guard! validateResponseUUID value in
  if negb (EqualFold value expected) then Some (Msg "inspace: response UUID does not match expected UUID") else None.

(** [mutationNotDispatchedError]. *)
Definition mutationNotDispatched (err : error) : error := Wrap "" [err; Sentinel ErrMutationNotDispatched].

(** ** Errors from responses *)

Definition validWarrenCorrelationID (value : string) : bool :=
  (value != "") && Nat.leb (String.length value) maxWarrenCorrelationIDSize && warrenCorrelationIDPattern value.
Definition validatedWarrenCorrelationID (header : list (string * string)) : string :=
  match header_values header warrenCorrelationIDHeader with
  | [value] => if negb (validWarrenCorrelationID value) then "" else value
  | _ => ""
  end.

Definition newMalformedResponseAPIError (method path : string) (status : Z) (message correlationID : string) (cause : goerr) : error :=
  APIErr (Build_APIError status method path message (retryableHTTPResponseFailure status cause) correlationID false true false "" "") cause.
Definition newIncompleteAPIError (method path : string) (status : Z) (message correlationID : string) (cause : goerr) : error :=
  APIErr (Build_APIError status method path message (retryableHTTPResponseFailure status cause) correlationID true false false "" "") cause.
(** [&APIError{StatusCode, Method, Path, Message, CorrelationID}]. *)
Definition plainAPIError (method path : string) (status : Z) (message correlationID : string) : error :=
  APIErr (Build_APIError status method path message false correlationID false false false "" "") None.

(** What [fmt.Sprint] prints of a decoded value, and the order in which a range over a map visits its
    keys. *)
Class FmtText := {
  Sprint : json -> string;
  Sprint_string s : Sprint (JStr s) = s;
  range_order : list string -> list string;
  range_order_perm l : range_order l ≡ₚ l
}.

Record errorPayload := { pl_Error : json; pl_Message : string; pl_Errors : option (gmap string json) }.
#[export] Instance eta_errorPayload : Eta errorPayload := fun r => Build_errorPayload (pl_Error r) (pl_Message r) (pl_Errors r).
Definition errorPayload_codec : codec errorPayload :=
  struct_codec (Build_errorPayload JNull "" None)
    ["error" :=: any_codec # pl_Error; "message" :=: string_codec # pl_Message; "errors" :=: map_codec any_codec # pl_Errors].

(** [http.StatusText] of the error statuses. *)
Definition StatusText (status : Z) : string :=
  match List.find (fun p => fst p =? status)
    [(400, "Bad Request"); (401, "Unauthorized"); (402, "Payment Required"); (403, "Forbidden"); (404, "Not Found");
     (405, "Method Not Allowed"); (406, "Not Acceptable"); (407, "Proxy Authentication Required"); (408, "Request Timeout");
     (409, "Conflict"); (410, "Gone"); (411, "Length Required"); (412, "Precondition Failed"); (413, "Request Entity Too Large");
     (414, "Request URI Too Long"); (415, "Unsupported Media Type"); (416, "Requested Range Not Satisfiable");
     (417, "Expectation Failed"); (418, "I'm a teapot"); (421, "Misdirected Request"); (422, "Unprocessable Entity"); (423, "Locked");
     (424, "Failed Dependency"); (425, "Too Early"); (426, "Upgrade Required"); (428, "Precondition Required");
     (429, "Too Many Requests"); (431, "Request Header Fields Too Large"); (451, "Unavailable For Legal Reasons");
     (500, "Internal Server Error"); (501, "Not Implemented"); (502, "Bad Gateway"); (503, "Service Unavailable");
     (504, "Gateway Timeout"); (505, "HTTP Version Not Supported"); (506, "Variant Also Negotiates"); (507, "Insufficient Storage");
     (508, "Loop Detected"); (510, "Not Extended"); (511, "Network Authentication Required");
     (100, "Continue"); (101, "Switching Protocols"); (102, "Processing"); (103, "Early Hints");
     (300, "Multiple Choices"); (301, "Moved Permanently"); (302, "Found"); (303, "See Other"); (304, "Not Modified");
     (305, "Use Proxy"); (307, "Temporary Redirect"); (308, "Permanent Redirect")]
  with Some p => snd p | None => "" end.

(** ** Endpoint contracts *)

Inductive successBodyContract := successJSON | successEmpty | successEmptyOrJSON | successExactEmpty | successJSONTrue.
#[export] Instance successBodyContract_eq_dec : EqDecision successBodyContract.
Proof. solve_decision. Defined.
Record endpointContract := { ec_method : string; ec_pathTemplate : string; ec_statuses : list Z; ec_body : successBodyContract }.

Definition statusOKOnly : list Z := [200].
Definition statusCreatedOnly : list Z := [201].
Definition statusOKOrCreated : list Z := [200; 201].
Definition statusNoContentOnly : list Z := [204].
Definition statusOKOrNoContent : list Z := [200; 204].

Definition endpointContracts : list endpointContract :=
  [Build_endpointContract MethodGet "/v1/config/locations" statusOKOnly successJSON;
   Build_endpointContract MethodGet "/v1/config/vm_images" statusOKOnly successJSON;
   Build_endpointContract MethodGet "/v1/{location}/user-resource/host_pool/list" statusOKOnly successJSON;
   Build_endpointContract MethodGet "/v1/{location}/user-resource/vm/list" statusOKOnly successJSON;
   Build_endpointContract MethodGet "/v1/{location}/user-resource/vm" statusOKOnly successJSON;
   Build_endpointContract MethodGet "/v1/{location}/storage/disks" statusOKOnly successJSON;
   Build_endpointContract MethodGet "/v1/{location}/storage/disks/{uuid}" statusOKOnly successJSON;
   Build_endpointContract MethodGet "/v1/{location}/network/ip_addresses" statusOKOnly successJSON;
   Build_endpointContract MethodGet "/v1/{location}/network/ip_addresses/{address}" statusOKOnly successJSON;
   Build_endpointContract MethodGet "/v1/{location}/network/firewalls" statusOKOnly successJSON;
   Build_endpointContract MethodGet "/v1/{location}/network/load_balancers" statusOKOnly successJSON;
   Build_endpointContract MethodGet "/v1/{location}/network/load_balancers/{uuid}" statusOKOnly successJSON;
   Build_endpointContract MethodGet "/v1/{location}/network/network/{uuid}" statusOKOnly successJSON;
   Build_endpointContract MethodGet "/v1/{location}/network/networks" statusOKOnly successJSON;
   Build_endpointContract MethodPost "/v1/{location}/user-resource/vm" statusOKOrCreated successJSON;
   Build_endpointContract MethodPost "/v1/{location}/storage/disks" statusCreatedOnly successJSON;
   Build_endpointContract MethodPost "/v1/{location}/network/ip_addresses" statusOKOrCreated successJSON;
   Build_endpointContract MethodPost "/v1/{location}/network/firewalls" statusOKOrCreated successJSON;
   Build_endpointContract MethodPost "/v1/{location}/network/load_balancers" statusOKOrCreated successJSON;
   Build_endpointContract MethodPost "/v1/{location}/user-resource/vm/storage/attach" statusOKOnly successJSON;
   Build_endpointContract MethodPost "/v1/{location}/user-resource/vm/storage/detach" statusOKOnly successJSON;
   Build_endpointContract MethodPost "/v1/{location}/network/ip_addresses/{address}/assign" statusOKOnly successJSON;
   Build_endpointContract MethodPost "/v1/{location}/network/ip_addresses/{address}/unassign" statusOKOnly successJSON;
   Build_endpointContract MethodPost "/v1/{location}/network/firewalls/{uuid}/vms" statusOKOnly successJSON;
   Build_endpointContract MethodPost "/v1/{location}/network/load_balancers/{uuid}/targets" statusOKOnly successJSON;
   Build_endpointContract MethodPost "/v1/{location}/network/load_balancers/{uuid}/forwarding_rules" statusOKOnly successJSON;
   Build_endpointContract MethodPut "/v1/{location}/network/firewalls/{uuid}" statusOKOnly successJSON;
   Build_endpointContract MethodPatch "/v1/{location}/network/ip_addresses/{address}" statusOKOnly successJSON;
   Build_endpointContract MethodPatch "/v1/{location}/user-resource/vm/storage" statusOKOnly successJSON;
   Build_endpointContract MethodPatch "/v1/{location}/user-resource/vm" statusOKOnly successJSON;
   Build_endpointContract MethodPost "/v1/{location}/user-resource/vm/stop" statusOKOrNoContent successEmptyOrJSON;
   Build_endpointContract MethodPost "/v1/{location}/user-resource/vm/start" statusOKOrNoContent successEmptyOrJSON;
   Build_endpointContract MethodDelete "/v1/{location}/user-resource/vm" statusOKOrNoContent successEmptyOrJSON;
   Build_endpointContract MethodDelete "/v1/{location}/storage/disks/{uuid}" statusNoContentOnly successEmpty;
   Build_endpointContract MethodDelete "/v1/{location}/network/ip_addresses/{address}" statusOKOnly successJSONTrue;
   Build_endpointContract MethodDelete "/v1/{location}/network/firewalls/{uuid}" statusNoContentOnly successEmpty;
   Build_endpointContract MethodDelete "/v1/{location}/network/firewalls/{uuid}/vms" statusOKOrNoContent successExactEmpty;
   Build_endpointContract MethodDelete "/v1/{location}/network/load_balancers/{uuid}" statusOKOnly successEmpty;
   Build_endpointContract MethodDelete "/v1/{location}/network/load_balancers/{uuid}/targets/{uuid}" statusOKOrNoContent successEmpty;
   Build_endpointContract MethodDelete "/v1/{location}/network/load_balancers/{uuid}/forwarding_rules/{uuid}" statusOKOrNoContent successEmpty].

Definition segment_matches (part template : string) : bool :=
  if template == "{location}" then locationPattern part
  else if template == "{uuid}" then uuidPattern part
  else if template == "{address}" then match ParseIP part with Some _ => true | None => false end
  else part == template.
Fixpoint segments_match (parts templates : list string) : bool :=
  match parts, templates with
  | [], [] => true
  | p :: ps, t :: ts => segment_matches p t && segments_match ps ts
  | _, _ => false
  end.
Definition endpointPathMatches (path template : string) : bool := segments_match (SplitChar "/" path) (SplitChar "/" template).
Definition endpointSuccessContract (method path : string) : option endpointContract :=
  List.find (fun contract => (ec_method contract == method) && endpointPathMatches path (ec_pathTemplate contract)) endpointContracts.
Definition containsHTTPStatus (statuses : list Z) (candidate : Z) : bool := existsb (fun status => status =? candidate) statuses.

Section Transport.
Context `{JD : JSONDecoder} `{FT : FmtText} (c : Client).

Definition newAPIError (method path : string) (status : Z) (data correlationID : string) : error :=
  let trimmed := TrimSpace data in
  let malformed := match trimmed with
    | String ch _ => if (ch == "{"%char) || (ch == "["%char) then match validateJSONNoDuplicateObjectKeys trimmed with Some _ => true | None => false end else false
    | EmptyString => false
    end in
  let message :=
    if malformed then trimmed
    else match Unmarshal errorPayload_codec data with
    | Err _ => trimmed
    | Ok payload =>
        if pl_Message payload != "" then pl_Message payload
        else match pl_Error payload with
        | JNull =>
            let errors := default ∅ (pl_Errors payload) in
            let keys := map fst (map_to_list errors) in
            match keys with
            | [] => trimmed
            | _ => join_with "; " (map (fun key => key +:+ ": " +:+ Sprint (default JNull (errors !! key))) (range_order keys))
            end
        | error => Sprint error
        end
    end in
  let message := if message == "" then StatusText status else message in
  APIErr (Build_APIError status method path message (retryableAPIStatus status) correlationID false malformed false "" "") None.

Definition validateSuccessResponse (method path : string) (status : Z) (expectsJSON : bool) (data correlationID : string) : goerr :=
  match endpointSuccessContract method path with
  | None => Some (plainAPIError method path status "successful response has no registered SDK endpoint contract" correlationID)
  | Some contract =>
    if negb (containsHTTPStatus (ec_statuses contract) status) then
      Some (plainAPIError method path status "unexpected successful HTTP status for this endpoint" correlationID)
    else if negb (Bool.eqb expectsJSON (ec_body contract == successJSON)) then
      Some (plainAPIError method path status "internal response contract mismatch" correlationID)
    else
      let trimmed := TrimSpace data in
      match ec_body contract with
      | successJSON => None
      | successEmpty => if trimmed != "" then Some (newMalformedResponseAPIError method path status "expected an empty success body" correlationID None) else None
      | successEmptyOrJSON =>
          if trimmed != "" then
            match validateJSONNoDuplicateObjectKeys trimmed with
            | Some err => Some (newMalformedResponseAPIError method path status "invalid optional success response" correlationID (Some err))
            | None => None
            end
          else None
      | successExactEmpty => if data != "" then Some (newMalformedResponseAPIError method path status "expected exactly zero success body bytes" correlationID None) else None
      | successJSONTrue => if data != "true" then Some (newMalformedResponseAPIError method path status "expected the exact JSON boolean true success body" correlationID None) else None
      end
  end.

(** ** doBody *)

Record answer := { an_Status : Z; an_CorrelationID : string; an_Data : string }.

(** From the response to the bytes of a success that the endpoint's contract allows. *)
Definition readResponse (method path : string) (expectsJSON : bool) (resp : response) : result answer :=
  let correlationID := validatedWarrenCorrelationID (rs_Header resp) in
  let status := rs_Status resp in
  let incomplete text cause := Err (newIncompleteAPIError method path status text correlationID cause) in
  if maxResponseBodyBytes <? rs_ContentLength resp then incomplete "declared response body exceeds the limit and was not trusted" None
  else match read_limited resp (maxResponseBodyBytes + 1) with
  | (_, Some err) => incomplete "response body could not be read completely" (Some err)
  | (data, None) =>
    if maxResponseBodyBytes <? Z.of_nat (String.length data) then incomplete "response body exceeds the limit and was not trusted" None
    else if (0 <? rs_ContentLength resp) && negb (Z.of_nat (String.length data) =? rs_ContentLength resp) then
      incomplete "response body length does not match declared length" None
    else if (status <? 200) || (300 <=? status) then Err (newAPIError method path status data correlationID)
    else check! validateSuccessResponse method path status expectsJSON data correlationID in Ok (Build_answer status correlationID data)
  end.

Definition newRequest (rq : request) : prog hres goerr :=
  match rq_Sending rq with None => Ret (Some (Msg "net/http: nil Context")) | Some _ => call (BuildRequest rq) end.

(** The request of a call: the read timeout applies to GET. *)
Definition the_request (ctx : option context) (method path : string) (query : Values) (body : option string) (contentType : string) : request :=
  let timeout := if method == MethodGet then Some defaultReadTimeout else None in
  Build_request method (URL_Scheme (baseURL c)) (URL_Host (baseURL c)) (TrimRight_slash (URL_Path (baseURL c)) +:+ path) (Encode query)
    ([("apikey", apiKey c); ("Accept", "application/json"); ("User-Agent", userAgent c)]
     ++ (if contentType != "" then [("Content-Type", contentType)] else []))
    body (option_map (fun x => Build_sending x timeout) ctx).

(** What [httpClient.Do] returned: a response may come with the error of the redirect policy. *)
Definition settle (method path : string) (expectsJSON : bool) (sent : option response * goerr) : prog hres (result answer) :=
  match sent with
  | (Some resp, Some err) =>
      Ret (Err (APIErr (Build_APIError (rs_Status resp) method path "redirect blocked" (retryableAPIStatus (rs_Status resp))
                          (validatedWarrenCorrelationID (rs_Header resp)) false false false "" "") (Some err)))
  | (None, Some err) => Ret (Err (Wrap "inspace" [err]))
  | (None, None) => Panic
  | (Some resp, None) => Ret (readResponse method path expectsJSON resp)
  end.

(** [doBody] up to the decoding of the result. *)
Definition exchange (ctx : option context) (method path : string) (query : Values) (body : option string) (contentType : string) (expectsJSON : bool)
    : prog hres (result answer) :=
  if isMutation method && negb (isLiteralLoopback (Hostname (baseURL c))) && negb (dangerouslyAllowMutations c) then Ret (Err (wrapS ErrMutationBlocked ""))
  else
    let rq := the_request ctx method path query body contentType in
    let! buildErr := newRequest rq in
    match buildErr with
    | Some err =>
        let buildErr := Wrap "inspace: build request" [err] in
        Ret (Err (if isMutation method then mutationNotDispatched buildErr else buildErr))
    | None =>
      let! done := if isMutation method then call (ContextErr (rq_Sending rq)) else Ret None in
      match done with
      | Some ctxErr => Ret (Err (mutationNotDispatched (Wrap "inspace" [ctxErr])))
      | None =>
        let! sent := http_Do (checkRedirect (baseURL c)) rq in
        settle method path expectsJSON sent
      end
    end.

(** [doBody] from the trimmed body of a success to the value. *)
Definition decodeBody {A} (C : codec A) (method path : string) (a : answer) : result A :=
  let malformed text cause := Err (newMalformedResponseAPIError method path (an_Status a) text (an_CorrelationID a) cause) in
  let trimmed := TrimSpace (an_Data a) in
  match trimmed with
  | EmptyString => malformed "expected a non-empty JSON value" None
  | String first _ =>
    if trimmed == "null" then malformed "expected a non-null JSON value" None
    else match validateJSONNoDuplicateObjectKeys trimmed with
    | Some err => malformed "invalid JSON" (Some err)
    | None =>
      if (first == "{"%char) && (match parse_json trimmed with Some (JObj []) => true | _ => false end) then malformed "expected a non-empty JSON object" None
      else match Unmarshal C trimmed with
      | Err err => malformed "cannot decode" (Some err)
      | Ok value => Ok value
      end
    end
  end.

Definition doBody {A} (C : codec A) (ctx : option context) (method path : string) (query : Values) (body : option string) (contentType : string) : prog hres (result A) :=
  let! a := exchange ctx method path query body contentType true in
  Ret (try! a := a in decodeBody C method path a).
(** With [out == nil]. *)
Definition doBodyNil (ctx : option context) (method path : string) (query : Values) (body : option string) (contentType : string) : prog hres goerr :=
  let! a := exchange ctx method path query body contentType false in
  Ret (match a with Ok _ => None | Err e => Some e end).

(** [do] and [doJSON]. [json.Marshal] does not fail on the client's request types. *)
Definition form_body (form : option Values) : option string := option_map Encode form.
Definition form_type (form : option Values) : string := match form with Some _ => "application/x-www-form-urlencoded" | None => "" end.
Definition do {A} (C : codec A) (ctx : option context) (method path : string) (query : Values) (form : option Values) : prog hres (result A) :=
  doBody C ctx method path query (form_body form) (form_type form).
Definition doNil (ctx : option context) (method path : string) (query : Values) (form : option Values) : prog hres goerr :=
  doBodyNil ctx method path query (form_body form) (form_type form).
Definition doJSON {A} (C : codec A) (ctx : option context) (method path : string) (query : Values) (input : option string) : prog hres (result A) :=
  doBody C ctx method path query input "application/json".
Definition doJSONNil (ctx : option context) (method path : string) (query : Values) (input : option string) : prog hres goerr :=
  doBodyNil ctx method path query input "application/json".
End Transport.

(** ** Lists *)

Fixpoint check_identities {A} (identity : A -> result string) (seen : gset string) (l : list A) : goerr :=
  match l with
  | [] => None
  | item :: r =>
      match identity item with
      | Err e => Some (Wrap "inspace: decode response: invalid list element identity" [e])
      | Ok key =>
          if key == "" then Some (Msg "inspace: decode response: invalid list element identity: empty canonical key")
          else if bool_decide (key ∈ seen) then Some (Msg "inspace: decode response: duplicate canonical identity")
          else check_identities identity ({[key]} ∪ seen) r
      end
  end.
(** The result is nil only when nothing was decoded into it. *)
Definition validatedListResponse {A} (answered : result (option (list A))) (identity : A -> result string) : result (list A) :=
  try! answered := answered in
  match answered with
  | None => Err (Msg "inspace: decode response: expected a JSON array, got an empty or null body")
  | Some l => check! check_identities identity ∅ l in Ok l
  end.
Definition validatedUUIDListIdentity (value : string) : result string := check! validateUUID value in Ok (ToLower value).
Definition validatedRequiredListIdentity (value : string) : result string :=
  if value == "" then Err (Msg "inspace: empty identity")
  else if value != TrimSpace value then Err (Msg "inspace: invalid identity")
  else Ok (ToLower value).
