(* ===== verification/ClientEndpoints.v ===== *)
(** * Compute, storage, network, firewall and load balancer endpoints

    The methods of modules/client/compute.go, storage.go, network.go, firewall.go and loadbalancer.go:
    local checks, the one request, and the checks of what it answered. *)

From S2P Require Import Prelude GoErrors ClientTypes ClientErrors CSIFence GoNet GoURL Prog GoJSON GoHTTP ClientJSON ClientResources ClientTransport.
Import Client.

Definition setOptional (values : Values) (key value : string) : Values := if value != "" then Values_Set values key value else values.
(** [strconv.FormatBool]. *)
Definition FormatBool (b : bool) : string := if b then "true" else "false".
Definition upper_char (ch : ascii) : ascii := if is_lower ch then ascii_of_nat (code ch - 32) else ch.
Fixpoint ToUpper (s : string) : string := match s with EmptyString => "" | String ch r => String (upper_char ch) (ToUpper r) end.

Section Endpoints.
Context `{JD : JSONDecoder} `{FT : FmtText} (c : Client) (ctx : option context).

(** The checks after a response: an error replaces the result. *)
Definition checked {A} (answered : result A) (test : A -> goerr) : result A :=
  try! result := answered in check! test result in Ok result.
(** An exact read: errors are bound to the requested UUID, and the answer must have it. *)
Definition exact_read {A} (answered : result A) (uuid_of : A -> string) (uuid : string) : result A :=
  match answered with
  | Err e => Err (bindExactLookupError e uuid)
  | Ok result => if negb (EqualFold (uuid_of result) uuid) then Err (Msg "inspace: exact response UUID does not match requested UUID") else Ok result
  end.

(** ** compute.go *)

Definition ListLocations : prog hres (result (list Location)) :=
  let! result := do c (slice_codec location_codec) ctx MethodGet "/v1/config/locations" [] None in
  Ret (validatedListResponse result (fun location =>
    if negb (locationPattern (Location_Slug location)) then Err (Msg "inspace: invalid location slug") else Ok (Location_Slug location))).

Definition ListHostPools (location : string) : prog hres (result (list HostPool)) :=
  match locationPath location "user-resource/host_pool/list" with
  | Err e => Ret (Err e)
  | Ok path =>
    let! result := do c (slice_codec hostPool_codec) ctx MethodGet path [] None in
    Ret (validatedListResponse result (fun pool => validatedUUIDListIdentity (HostPool_UUID pool)))
  end.

Definition vm_identity (vm : VM) : result string :=
  if TrimSpace (VM_Name vm) == "" then Err (Msg "inspace: VM list row has an empty name")
  else if TrimSpace (VM_Status vm) == "" then Err (Msg "inspace: VM list row has an empty status")
  else validatedUUIDListIdentity (VM_UUID vm).
Definition ListVMs (location : string) : prog hres (result (list VM)) :=
  match locationPath location "user-resource/vm/list" with
  | Err e => Ret (Err e)
  | Ok path =>
    let! result := do c (slice_codec vm_codec) ctx MethodGet path [] None in
    Ret (validatedListResponse result vm_identity)
  end.

Definition GetVM (location uuid : string) : prog hres (result VM) :=
  match validateUUID uuid with
  | Some e => Ret (Err e)
  | None =>
    match locationPath location "user-resource/vm" with
    | Err e => Ret (Err e)
    | Ok path =>
      let! result := do c vm_codec ctx MethodGet path [("uuid", uuid)] None in
      Ret (exact_read result VM_UUID uuid)
    end
  end.

Definition createVM_form (input : CreateVMRequest) : result Values :=
  let form := [("name", CreateVM_Name input); ("os_name", CreateVM_OSName input); ("os_version", CreateVM_OSVersion input);
    ("disks", FormatInt (CreateVM_DiskGiB input)); ("vcpu", FormatInt (CreateVM_VCPU input)); ("ram", FormatInt (CreateVM_MemoryMiB input))] in
  let form := setOptional form "description" (CreateVM_Description input) in
  let form := setOptional form "designated_pool_uuid" (CreateVM_DesignatedPoolUUID input) in
  let form := setOptional form "username" (CreateVM_Username input) in
  let form := setOptional form "password" (CreateVM_Password input) in
  let form := setOptional form "public_key" (CreateVM_PublicKey input) in
  let form := setOptional form "network_uuid" (CreateVM_NetworkUUID input) in
  let cloudInit := if CreateVM_CloudInit input == "" then CreateVM_CloudInitJSON input else CreateVM_CloudInit input in
  try! form :=
    if cloudInit != "" then
      match parse_json cloudInit with Some (JObj _) => Ok (Values_Set form "cloud_init" cloudInit) | _ => Err (Msg "inspace: cloud init must be a JSON object") end
    else Ok form in
  let form := if negb (CreateVM_BillingAccountID input =? 0) then Values_Set form "billing_account_id" (FormatInt (CreateVM_BillingAccountID input)) else form in
  Ok (match CreateVM_ReservePublicIP input with Some b => Values_Set form "reserve_public_ip" (FormatBool b) | None => form end).

Definition createVM_check (input : CreateVMRequest) : goerr :=
  if (CreateVM_Name input == "") || (CreateVM_OSName input == "") || (CreateVM_OSVersion input == "") then Some (Msg "inspace: VM name, OS name, and OS version are required")
  else if (CreateVM_VCPU input <=? 0) || (CreateVM_MemoryMiB input <=? 0) || (CreateVM_DiskGiB input <=? 0) then Some (Msg "inspace: VM vCPU, memory, and disk must be positive")
  else if (CreateVM_CloudInit input != "") && (CreateVM_CloudInitJSON input != "") then Some (Msg "inspace: set only one of CloudInit or CloudInitJSON")
  else None.
Definition CreateVM (location : string) (input : CreateVMRequest) : prog hres (result VM) :=
  match createVM_check input with
  | Some e => Ret (Err e)
  | None =>
    match locationPath location "user-resource/vm" with
    | Err e => Ret (Err e)
    | Ok path =>
      match createVM_form input with
      | Err e => Ret (Err e)
      | Ok form =>
        let! result := do c vm_codec ctx MethodPost path [] (Some form) in
        Ret (checked result (fun vm => validateResponseUUID (VM_UUID vm)))
      end
    end
  end.

Definition DeleteVM (location uuid : string) : prog hres goerr :=
  match validateUUID uuid with
  | Some e => Ret (Some e)
  | None =>
    match locationPath location "user-resource/vm" with
    | Err e => Ret (Some e)
    | Ok path => doNil c ctx MethodDelete path [] (Some [("uuid", uuid)])
    end
  end.

Definition vmPower (location uuid action : string) : prog hres goerr :=
  match validateUUID uuid with
  | Some e => Ret (Some e)
  | None =>
    match locationPath location ("user-resource/vm/" +:+ action) with
    | Err e => Ret (Some e)
    | Ok path => doNil c ctx MethodPost path [] (Some [("uuid", uuid)])
    end
  end.
Definition StopVM (location uuid : string) : prog hres goerr := vmPower location uuid "stop".
Definition StartVM (location uuid : string) : prog hres goerr := vmPower location uuid "start".

Definition UpdateVMCompute (location uuid : string) (vcpu memoryMiB : Z) : prog hres (result VM) :=
  if (vcpu <=? 0) || (memoryMiB <=? 0) then Ret (Err (Msg "inspace: VM vCPU and memory must be positive"))
  else match validateUUID uuid with
  | Some e => Ret (Err e)
  | None =>
    match locationPath location "user-resource/vm" with
    | Err e => Ret (Err e)
    | Ok path =>
      let! result := do c vm_codec ctx MethodPatch path [] (Some [("uuid", uuid); ("vcpu", FormatInt vcpu); ("ram", FormatInt memoryMiB)]) in
      Ret (checked result (fun vm =>
        guard! validateExpectedResponseUUID (VM_UUID vm) uuid in
        if negb (VM_VCPU vm =? vcpu) || negb (VM_MemoryMiB vm =? memoryMiB) then Some (Msg "inspace: resized VM reports another size") else None))
    end
  end.

(** ** storage.go *)

Definition createDisk_check (input : CreateDiskRequest) : result string :=
  if CreateDisk_SizeGiB input <=? 0 then Err (Msg "inspace: disk size must be positive")
  else
    let sourceType := ToUpper (TrimSpace (CreateDisk_SourceImageType input)) in
    let sourceType := if sourceType == "" then "EMPTY" else sourceType in
    if negb ((sourceType == "EMPTY") || (sourceType == "OS_BASE") || (sourceType == "DISK") || (sourceType == "SNAPSHOT"))
    then Err (Msg "inspace: disk source image type must be EMPTY, OS_BASE, DISK, or SNAPSHOT")
    else if (sourceType != "EMPTY") && (CreateDisk_SourceImage input == "") then Err (Msg "inspace: source image is required for non-empty disks")
    else Ok sourceType.
Definition createDisk_form (input : CreateDiskRequest) (sourceType : string) : Values :=
  let form := [("size_gb", FormatInt (CreateDisk_SizeGiB input)); ("source_image_type", sourceType)] in
  let form := setOptional form "display_name" (CreateDisk_DisplayName input) in
  let form := setOptional form "source_image" (CreateDisk_SourceImage input) in
  if negb (CreateDisk_BillingAccountID input =? 0) then Values_Set form "billing_account_id" (FormatInt (CreateDisk_BillingAccountID input)) else form.
Definition CreateDisk (location : string) (input : CreateDiskRequest) : prog hres (result Disk) :=
  match createDisk_check input with
  | Err e => Ret (Err e)
  | Ok sourceType =>
    match locationPath location "storage/disks" with
    | Err e => Ret (Err e)
    | Ok path =>
      let! result := do c disk_codec ctx MethodPost path [] (Some (createDisk_form input sourceType)) in
      Ret (checked result (fun disk => validateResponseUUID (Disk_UUID disk)))
    end
  end.

Definition GetDisk (location diskUUID : string) : prog hres (result Disk) :=
  match validateUUID diskUUID with
  | Some e => Ret (Err e)
  | None =>
    match locationPath location ("storage/disks/" +:+ diskUUID) with
    | Err e => Ret (Err e)
    | Ok path =>
      let! result := do c disk_codec ctx MethodGet path [] None in
      Ret (exact_read result Disk_UUID diskUUID)
    end
  end.

Definition ListDisks (location : string) : prog hres (result (list Disk)) :=
  match locationPath location "storage/disks" with
  | Err e => Ret (Err e)
  | Ok path =>
    let! result := do c (slice_codec disk_codec) ctx MethodGet path [] None in
    Ret (validatedListResponse result (fun disk => validatedUUIDListIdentity (Disk_UUID disk)))
  end.

Definition DeleteDisk (location diskUUID : string) : prog hres goerr :=
  match validateUUID diskUUID with
  | Some e => Ret (Some e)
  | None =>
    match locationPath location ("storage/disks/" +:+ diskUUID) with
    | Err e => Ret (Some e)
    | Ok path => doNil c ctx MethodDelete path [] None
    end
  end.

(** The checks shared by the calls on a disk of a VM. *)
Definition vm_disk_path (location vmUUID diskUUID resource : string) : result string :=
  check! validateUUID vmUUID in check! validateUUID diskUUID in locationPath location resource.
Definition AttachDisk (location vmUUID diskUUID : string) : prog hres (result VMStorage) :=
  match vm_disk_path location vmUUID diskUUID "user-resource/vm/storage/attach" with
  | Err e => Ret (Err e)
  | Ok path =>
    let! result := do c vmStorage_codec ctx MethodPost path [] (Some [("uuid", vmUUID); ("storage_uuid", diskUUID)]) in
    Ret (checked result (fun row => validateExpectedResponseUUID (VMStorage_UUID row) diskUUID))
  end.
Definition ResizeAttachedDisk (location vmUUID diskUUID : string) (sizeGiB : Z) : prog hres (result VMStorage) :=
  if sizeGiB <=? 0 then Ret (Err (Msg "inspace: disk size must be positive"))
  else match vm_disk_path location vmUUID diskUUID "user-resource/vm/storage" with
  | Err e => Ret (Err e)
  | Ok path =>
    let! result := do c vmStorage_codec ctx MethodPatch path [] (Some [("uuid", vmUUID); ("disk_uuid", diskUUID); ("size_gb", FormatInt sizeGiB)]) in
    Ret (checked result (fun row =>
      guard! validateExpectedResponseUUID (VMStorage_UUID row) diskUUID in
      if VMStorage_SizeGiB row <? sizeGiB then Some (Msg "inspace: resized disk reports a smaller size") else None))
  end.
(** [struct { Success bool }]. *)
Record detachResult := { dr_Success : bool }.
#[export] Instance eta_detachResult : Eta detachResult := fun r => Build_detachResult (dr_Success r).
Definition detachResult_codec : codec detachResult := struct_codec (Build_detachResult false) ["success" :=: bool_codec # dr_Success].
Definition DetachDisk (location vmUUID diskUUID : string) : prog hres goerr :=
  match vm_disk_path location vmUUID diskUUID "user-resource/vm/storage/detach" with
  | Err e => Ret (Some e)
  | Ok path =>
    let! result := do c detachResult_codec ctx MethodPost path [] (Some [("uuid", vmUUID); ("storage_uuid", diskUUID)]) in
    Ret (match result with
      | Err e => Some e
      | Ok r => if negb (dr_Success r) then Some (Msg "inspace: detach disk response reported failure") else None
      end)
  end.

(** ** network.go *)

Definition GetNetwork (location networkUUID : string) : prog hres (result Network) :=
  match validateUUID networkUUID with
  | Some e => Ret (Err e)
  | None =>
    match locationPath location ("network/network/" +:+ networkUUID) with
    | Err e => Ret (Err e)
    | Ok path =>
      let! result := do c network_codec ctx MethodGet path [] None in
      Ret (exact_read result Network_UUID networkUUID)
    end
  end.
Definition ListNetworks (location : string) : prog hres (result (list Network)) :=
  match locationPath location "network/networks" with
  | Err e => Ret (Err e)
  | Ok path =>
    let! result := do c (slice_codec network_codec) ctx MethodGet path [] None in
    Ret (validatedListResponse result (fun network => validatedUUIDListIdentity (Network_UUID network)))
  end.
Definition ListVMImages : prog hres (result (list VMImage)) :=
  let! result := do c (slice_codec vmImage_codec) ctx MethodGet "/v1/config/vm_images" [] None in
  Ret (validatedListResponse result (fun image => validatedRequiredListIdentity (VMImage_OSName image))).

(** ** firewall.go *)

Definition firewall_identity (firewall : Firewall) : result string :=
  if TrimSpace (EffectiveName firewall) == "" then Err (Msg "inspace: firewall list row has an empty effective name")
  else validatedUUIDListIdentity (fw_UUID firewall).
Definition ListFirewalls (location : string) : prog hres (result (list Firewall)) :=
  match locationPath location "network/firewalls" with
  | Err e => Ret (Err e)
  | Ok path =>
    let! result := do c (slice_codec firewall_codec) ctx MethodGet path [] None in
    Ret (validatedListResponse result firewall_identity)
  end.
Definition GetFirewall (location firewallUUID : string) : prog hres (result Firewall) :=
  match validateUUID firewallUUID with
  | Some e => Ret (Err e)
  | None =>
    match locationPath location "network/firewalls" with
    | Err e => Ret (Err e)
    | Ok path =>
      let! items := ListFirewalls location in
      Ret (try! items := items in
        match List.find (fun item => EqualFold (fw_UUID item) firewallUUID) items with
        | Some item => Ok item
        | None => Err (plainAPIError MethodGet path 404 "firewall not found in list response; absence is not exact-authoritative" "")
        end)
    end
  end.

Definition port_in_range (port : option Z) : bool := match port with Some p => (1 <=? p) && (p <=? 65535) | None => true end.
Definition validateFirewallRule (rule : FirewallRule) : goerr :=
  if negb ((fr_Protocol rule == "tcp") || (fr_Protocol rule == "udp") || (fr_Protocol rule == "icmp"))
  then Some (Msg "inspace: firewall protocol must be tcp, udp, or icmp")
  else if (fr_Direction rule != "inbound") && (fr_Direction rule != "outbound") then Some (Msg "inspace: firewall direction must be inbound or outbound")
  else if (fr_EndpointSpecType rule != "any") && (fr_EndpointSpecType rule != "ip_prefixes")
  then Some (Msg "inspace: firewall endpoint spec type must be any or ip_prefixes")
  else if (fr_EndpointSpecType rule == "ip_prefixes") && (match fr_EndpointSpec rule with [] => true | _ => false end)
  then Some (Msg "inspace: ip_prefixes firewall rule requires endpoint prefixes")
  else if negb (forallb (fun endpoint => match ParsePrefix endpoint, ParseAddr endpoint with None, None => false | _, _ => true end) (fr_EndpointSpec rule))
  then Some (Msg "inspace: firewall endpoint must be an IP address or CIDR prefix")
  else if negb (port_in_range (fr_PortStart rule)) then Some (Msg "inspace: firewall port_start must be between 1 and 65535")
  else if negb (port_in_range (fr_PortEnd rule)) then Some (Msg "inspace: firewall port_end must be between 1 and 65535")
  else match fr_PortStart rule, fr_PortEnd rule with
  | Some a, Some b => if b <? a then Some (Msg "inspace: firewall port_start must not exceed port_end") else None
  | _, _ => None
  end.
Fixpoint first_error {A} (test : A -> goerr) (l : list A) : goerr := match l with [] => None | x :: r => guard! test x in first_error test r end.

Definition createFirewallPath (location : string) (input : CreateFirewallRequest) : result string :=
  if CreateFW_DisplayName input == "" then Err (Msg "inspace: firewall display name is required")
  else if (match CreateFW_Rules input with [] => true | _ => false end) then Err (Msg "inspace: firewall must have at least one rule")
  else check! first_error validateFirewallRule (CreateFW_Rules input) in locationPath location "network/firewalls".
Definition updateFirewallPath (location firewallUUID : string) (input : UpdateFirewallRequest) : result string :=
  check! validateUUID firewallUUID in
  if negb (locationPattern (UpdateFW_Name input)) then Err (Msg "inspace: firewall name must be a non-empty lowercase DNS label")
  else if (match UpdateFW_Rules input with [] => true | _ => false end) then Err (Msg "inspace: firewall must have at least one rule")
  else check! first_error (fun rule =>
      guard! (if fr_UUID rule != "" then validateUUID (fr_UUID rule) else None) in validateFirewallRule rule) (UpdateFW_Rules input) in
    locationPath location ("network/firewalls/" +:+ firewallUUID).
Definition firewallVMPath (location firewallUUID vmUUID : string) : result string :=
  check! validateUUID firewallUUID in check! validateUUID vmUUID in locationPath location ("network/firewalls/" +:+ firewallUUID +:+ "/vms").

Definition CreateFirewall (location : string) (input : CreateFirewallRequest) : prog hres (result Firewall) :=
  match createFirewallPath location input with
  | Err e => Ret (Err (mutationNotDispatched e))
  | Ok path =>
    let! result := doJSON c firewall_codec ctx MethodPost path [] (Some (Marshal createFirewall_codec input)) in
    Ret (checked result (fun firewall => validateResponseUUID (fw_UUID firewall)))
  end.
Definition UpdateFirewall (location firewallUUID : string) (input : UpdateFirewallRequest) : prog hres (result Firewall) :=
  match updateFirewallPath location firewallUUID input with
  | Err e => Ret (Err (mutationNotDispatched e))
  | Ok path =>
    let! result := doJSON c firewall_codec ctx MethodPut path [] (Some (Marshal updateFirewall_codec input)) in
    Ret (checked result (fun firewall => validateExpectedResponseUUID (fw_UUID firewall) firewallUUID))
  end.
Definition DeleteFirewall (location firewallUUID : string) : prog hres goerr :=
  match validateUUID firewallUUID with
  | Some e => Ret (Some (mutationNotDispatched e))
  | None =>
    match locationPath location ("network/firewalls/" +:+ firewallUUID) with
    | Err e => Ret (Some (mutationNotDispatched e))
    | Ok path => doJSONNil c ctx MethodDelete path [] None
    end
  end.

(** The rows of an assignment answer: VMs with distinct UUIDs, the requested one among them once. *)
Fixpoint assignment_rows (vmUUID : string) (seen : gset string) (matches : Z) (rows : list FirewallResource) : goerr :=
  match rows with
  | [] => if negb (matches =? 1) then Some (Msg "inspace: firewall assignment response does not contain the requested VM exactly once") else None
  | row :: r =>
      if fx_ResourceType row != "vm" then Some (Msg "inspace: firewall assignment response row has another resource type")
      else match validateResponseUUID (fx_ResourceUUID row) with
      | Some e => Some (Wrap "inspace: firewall assignment response row" [e])
      | None =>
          let canonicalUUID := ToLower (fx_ResourceUUID row) in
          if bool_decide (canonicalUUID ∈ seen) then Some (Msg "inspace: firewall assignment response contains duplicate VM UUID")
          else assignment_rows vmUUID ({[canonicalUUID]} ∪ seen) (if EqualFold (fx_ResourceUUID row) vmUUID then matches + 1 else matches) r
      end
  end.
Definition AssignFirewallToVM (location firewallUUID vmUUID : string) : prog hres goerr :=
  match firewallVMPath location firewallUUID vmUUID with
  | Err e => Ret (Some (mutationNotDispatched e))
  | Ok path =>
    let! result := doJSON c (slice_codec firewallResource_codec) ctx MethodPost path [("vm_uuid", vmUUID)] None in
    Ret (match result with Err e => Some e | Ok rows => assignment_rows vmUUID ∅ 0 (default [] rows) end)
  end.
Definition UnassignFirewallFromVM (location firewallUUID vmUUID : string) : prog hres goerr :=
  match firewallVMPath location firewallUUID vmUUID with
  | Err e => Ret (Some (mutationNotDispatched e))
  | Ok path => doJSONNil c ctx MethodDelete path [("vm_uuid", vmUUID)] None
  end.

(** ** loadbalancer.go *)

Definition loadBalancer_identity (loadBalancer : LoadBalancer) : result string :=
  if TrimSpace (LB_DisplayName loadBalancer) == "" then Err (Msg "inspace: load balancer list row has an empty display name")
  else check! validateUUID (LB_NetworkUUID loadBalancer) in validatedUUIDListIdentity (LB_UUID loadBalancer).
Definition ListLoadBalancers (location : string) : prog hres (result (list LoadBalancer)) :=
  match locationPath location "network/load_balancers" with
  | Err e => Ret (Err e)
  | Ok path =>
    let! result := do c (slice_codec loadBalancer_codec) ctx MethodGet path [] None in
    Ret (validatedListResponse result loadBalancer_identity)
  end.
Definition GetLoadBalancer (location loadBalancerUUID : string) : prog hres (result LoadBalancer) :=
  match validateUUID loadBalancerUUID with
  | Some e => Ret (Err e)
  | None =>
    match locationPath location ("network/load_balancers/" +:+ loadBalancerUUID) with
    | Err e => Ret (Err e)
    | Ok path =>
      let! result := do c loadBalancer_codec ctx MethodGet path [] None in
      Ret (exact_read result LB_UUID loadBalancerUUID)
    end
  end.

Fixpoint validate_rules (seen : gset Z) (rules : list LoadBalancerRule) : goerr :=
  match rules with
  | [] => None
  | rule :: r =>
      if (Rule_SourcePort rule <? 1) || (65535 <? Rule_SourcePort rule) || (Rule_TargetPort rule <? 1) || (65535 <? Rule_TargetPort rule)
      then Some (Msg "inspace: load balancer ports must be between 1 and 65535")
      else if (Rule_Protocol rule != "") && (Rule_Protocol rule != "TCP") then Some (Msg "inspace: load balancer supports TCP only")
      else if bool_decide (Rule_SourcePort rule ∈ seen) then Some (Msg "inspace: duplicate load balancer source port")
      else validate_rules ({[Rule_SourcePort rule]} ∪ seen) r
  end.
Definition validateRules (rules : list LoadBalancerRule) : goerr := validate_rules ∅ rules.

(** A nil [Targets] is sent as an empty array, like the empty list here. *)
Definition createLoadBalancerPath (location : string) (input : CreateLoadBalancerRequest) : result string :=
  if CreateLB_DisplayName input == "" then Err (Msg "inspace: load balancer display name is required")
  else check! validateUUID (CreateLB_NetworkUUID input) in check! validateRules (CreateLB_Rules input) in
    check! first_error (fun target =>
      if Target_Type target != "vm" then Some (Msg "inspace: load balancer target type must be vm") else validateUUID (Target_UUID target)) (CreateLB_Targets input) in
    locationPath location "network/load_balancers".
Definition CreateLoadBalancer (location : string) (input : CreateLoadBalancerRequest) : prog hres (result LoadBalancer) :=
  match createLoadBalancerPath location input with
  | Err e => Ret (Err e)
  | Ok path =>
    let! result := doJSON c loadBalancer_codec ctx MethodPost path [] (Some (Marshal createLoadBalancer_codec input)) in
    Ret (checked result (fun lb => validateResponseUUID (LB_UUID lb)))
  end.
Definition DeleteLoadBalancer (location loadBalancerUUID : string) : prog hres goerr :=
  match validateUUID loadBalancerUUID with
  | Some e => Ret (Some e)
  | None =>
    match locationPath location ("network/load_balancers/" +:+ loadBalancerUUID) with
    | Err e => Ret (Some e)
    | Ok path => doJSONNil c ctx MethodDelete path [] None
    end
  end.
(** The checks shared by the calls on a child of a load balancer. *)
Definition child_path (location loadBalancerUUID childUUID resource : string) : result string :=
  check! validateUUID loadBalancerUUID in check! validateUUID childUUID in locationPath location ("network/load_balancers/" +:+ loadBalancerUUID +:+ resource).
Definition AddLoadBalancerTarget (location loadBalancerUUID vmUUID : string) : prog hres (result LoadBalancerTarget) :=
  match child_path location loadBalancerUUID vmUUID "/targets" with
  | Err e => Ret (Err e)
  | Ok path =>
    let! result := doJSON c loadBalancerTarget_codec ctx MethodPost path [] (Some (Marshal loadBalancerTarget_codec (Build_LoadBalancerTarget vmUUID "vm" "" ""))) in
    Ret (checked result (fun target =>
      guard! validateExpectedResponseUUID (Target_UUID target) vmUUID in
      if Target_Type target != "vm" then Some (Msg "inspace: load balancer target response type does not match expected type") else None))
  end.
Definition RemoveLoadBalancerTarget (location loadBalancerUUID vmUUID : string) : prog hres goerr :=
  match child_path location loadBalancerUUID vmUUID ("/targets/" +:+ vmUUID) with
  | Err e => Ret (Some e)
  | Ok path => doJSONNil c ctx MethodDelete path [] None
  end.
Definition addRulePath (location loadBalancerUUID : string) (rule : LoadBalancerRule) : result string :=
  check! validateUUID loadBalancerUUID in check! validateRules [rule] in locationPath location ("network/load_balancers/" +:+ loadBalancerUUID +:+ "/forwarding_rules").
Definition AddLoadBalancerRule (location loadBalancerUUID : string) (rule : LoadBalancerRule) : prog hres (result LoadBalancerRule) :=
  match addRulePath location loadBalancerUUID rule with
  | Err e => Ret (Err e)
  | Ok path =>
    let! result := doJSON c loadBalancerRule_codec ctx MethodPost path [] (Some (Marshal loadBalancerRule_codec rule)) in
    let expectedProtocol := if Rule_Protocol rule == "" then "TCP" else Rule_Protocol rule in
    Ret (checked result (fun got =>
      guard! (if Rule_UUID got != "" then validateResponseUUID (Rule_UUID got) else None) in
      if ((Rule_Protocol got != "") && (Rule_Protocol got != expectedProtocol)) || negb (Rule_SourcePort got =? Rule_SourcePort rule)
         || negb (Rule_TargetPort got =? Rule_TargetPort rule)
      then Some (Msg "inspace: load balancer rule response does not match requested protocol/ports") else None))
  end.
Definition RemoveLoadBalancerRule (location loadBalancerUUID ruleUUID : string) : prog hres goerr :=
  match child_path location loadBalancerUUID ruleUUID ("/forwarding_rules/" +:+ ruleUUID) with
  | Err e => Ret (Some e)
  | Ok path => doJSONNil c ctx MethodDelete path [] None
  end.
End Endpoints.
