(* ===== verification/ClientFloatingIP.v ===== *)
(** * Floating IP endpoints (modules/client/floatingip.go)

    Reads of a floating IP may omit the whole assignment tuple. Such a sparse answer proves nothing by
    itself: the client reads the address a second time through the other endpoint and requires both
    representations to agree on the complete stable identity. *)

From S2P Require Import Prelude GoErrors ClientErrors CSIFence GoNet Prog GoJSON GoHTTP ClientJSON ClientResources ClientTransport ClientEndpoints.
Import Client.

Definition validatePublicIPv4 (value : string) : goerr :=
  match public_IPv4 value with Some _ => None | None => Some (Msg "inspace: floating IP address must be a public IPv4 address") end.

Definition sparse : error := wrapS ErrSparseFloatingIPAssignment "inspace: assignment omitted without authoritative unassignment".

Definition validateFloatingIPBaseIdentity (result : FloatingIP) (expectedAddress : string) : goerr :=
  match validatePublicIPv4 (fip_Address result) with
  | Some err => Some (Wrap "inspace: malformed floating IP response identity" [err])
  | None =>
    if (expectedAddress != "") && (fip_Address result != expectedAddress) then Some (Msg "inspace: floating IP response address does not match expected address")
    else if fip_UUID result != "" then validateResponseUUID (fip_UUID result)
    else None
  end.

Definition validateFloatingIPStableAuthority (result : FloatingIP) (allowDeleted : bool) : goerr :=
  guard! validateFloatingIPBaseIdentity result "" in
  if negb (stableIdentityPresent result) then Some (Msg "inspace: floating IP response omits a required stable identity field")
  else if fip_UUID result == "" then Some (Msg "inspace: floating IP response has no UUID authority")
  else if (fip_ID result <? 1) || (fip_UserID result <? 1) || (fip_BillingAccountID result <? 1) then Some (Msg "inspace: floating IP response has incomplete numeric identity")
  else if fip_Type result != "public" then Some (Msg "inspace: floating IP response has non-public type")
  else if negb (isIPv6Present result) || fip_IsIPv6 result then Some (Msg "inspace: public IPv4 response has missing or true is_ipv6")
  else if fip_IsDeleted result && negb allowDeleted then Some (Msg "inspace: floating IP response is deleted")
  else if (TrimSpace (fip_CreatedAt result) == "") || (TrimSpace (fip_UpdatedAt result) == "") then Some (Msg "inspace: floating IP response has incomplete creation/update identity")
  else None.

(** Nothing of the assignment is there. *)
Definition wholly_sparse (result : FloatingIP) : bool :=
  negb (assignedToPresent result || assignedTypePresent result || assignedPrivatePresent result
        || (fip_AssignedTo result != "") || (fip_AssignedToResourceType result != "") || (fip_AssignedToPrivateIP result != "")).
Definition validateSparseFloatingIPAuthority (result : FloatingIP) (allowDeleted : bool) : goerr :=
  guard! validateFloatingIPStableAuthority result allowDeleted in
  if negb (wholly_sparse result) then Some (Msg "inspace: floating IP response is not a wholly sparse assignment tuple") else None.

Definition resource_type (t : string) : bool := (t == "virtual_machine") || (t == "service") || (t == "load_balancer").

Definition validateFloatingIPResponseIdentity (result : FloatingIP) (expectedAddress : string) (allowOmittedUnassigned : bool) : goerr :=
  guard! validateFloatingIPBaseIdentity result expectedAddress in
  if negb (assignedToPresent result) then
    if (fip_AssignedTo result != "") || assignedTypePresent result || (fip_AssignedToResourceType result != "") || assignedPrivatePresent result
       || (fip_AssignedToPrivateIP result != "") then Some (Msg "inspace: malformed omitted-assignment floating IP response")
    else if allowOmittedUnassigned && (fip_UnassignedAt result != "") then None
    else if allowOmittedUnassigned && assignmentCorroborated result then None
    else if allowOmittedUnassigned && fip_IsDeleted result then validateSparseFloatingIPAuthority result true
    else Some sparse
  else if fip_AssignedTo result == "" then
    if (fip_AssignedToResourceType result != "") || (fip_AssignedToPrivateIP result != "") then Some (Msg "inspace: malformed unassigned floating IP response") else None
  else if negb (assignedTypePresent result) then Some (Msg "inspace: malformed assigned floating IP response: assigned_to_resource_type field is omitted")
  else guard! validateResponseUUID (fip_AssignedTo result) in
    if negb (resource_type (fip_AssignedToResourceType result)) then Some (Msg "inspace: malformed floating IP response resource type")
    else if fip_AssignedToPrivateIP result != "" then
      match ParseAddr (fip_AssignedToPrivateIP result) with
      | Some (Addr4 a) => if negb (IsPrivate a) then Some (Msg "inspace: malformed floating IP response private address") else None
      | _ => Some (Msg "inspace: malformed floating IP response private address")
      end
    else None.

Definition floatingIP_identity (address : FloatingIP) : result string :=
  check! validateFloatingIPBaseIdentity address "" in
  match validateFloatingIPResponseIdentity address "" true with
  | Some assignmentErr => if negb (Is assignmentErr ErrSparseFloatingIPAssignment) then Err assignmentErr else Ok (fip_Address address)
  | None => Ok (fip_Address address)
  end.
Definition validateFloatingIPCollectionShape (result : result (option (list FloatingIP))) : GoErrors.result (list FloatingIP) :=
  validatedListResponse result floatingIP_identity.

(** ** Readback *)

Definition validateFloatingIPStableReadback (result : FloatingIP) (allowMissingIsVirtual : bool) : goerr :=
  guard! validateFloatingIPStableAuthority result false in
  if negb (isVirtualPresent result) && negb allowMissingIsVirtual then Some (Msg "inspace: floating IP response omits is_virtual")
  else validateFloatingIPResponseIdentity result (fip_Address result) false.
(** [ValidateFloatingIPStableReadback]. *)
Definition ValidateFloatingIPStableReadback (result : FloatingIP) : goerr := validateFloatingIPStableReadback result false.

#[export] Instance FloatingIP_eq_dec : EqDecision FloatingIP.
Proof. solve_decision. Defined.
Definition ValidateFloatingIPStableReadbackMatch (exact listed : FloatingIP) : goerr :=
  if negb (Bool.eqb (isVirtualPresent exact) (isVirtualPresent listed)) then Some (Msg "inspace: exact and list floating IP identities disagree on is_virtual presence")
  else
    let allowMissingIsVirtual := negb (isVirtualPresent exact) in
    match validateFloatingIPStableReadback exact allowMissingIsVirtual with
    | Some err => Some (Wrap "exact floating IP identity is incomplete" [err])
    | None =>
      match validateFloatingIPStableReadback listed allowMissingIsVirtual with
      | Some err => Some (Wrap "listed floating IP identity is incomplete" [err])
      | None => if exact == listed then None else Some (Msg "inspace: exact and list floating IP identities disagree")
      end
    end.

Definition same_stable_identity (left right : FloatingIP) : bool :=
  (fip_Address left == fip_Address right) && EqualFold (fip_UUID left) (fip_UUID right) && (fip_ID left =? fip_ID right)
  && (fip_UserID left =? fip_UserID right) && (fip_BillingAccountID left =? fip_BillingAccountID right) && (fip_Type left == fip_Type right)
  && (fip_Name left == fip_Name right) && Bool.eqb (fip_Enabled left) (fip_Enabled right) && Bool.eqb (fip_IsDeleted left) (fip_IsDeleted right)
  && Bool.eqb (fip_IsIPv6 left) (fip_IsIPv6 right) && Bool.eqb (isIPv6Present left) (isIPv6Present right)
  && Bool.eqb (fip_IsVirtual left) (fip_IsVirtual right) && Bool.eqb (isVirtualPresent left) (isVirtualPresent right)
  && (fip_CreatedAt left == fip_CreatedAt right) && (fip_UpdatedAt left == fip_UpdatedAt right).
Definition validateFloatingIPStableIdentityMatch (left right : FloatingIP) : goerr :=
  match validateSparseFloatingIPAuthority left false with
  | Some err => Some (Wrap "primary sparse representation is not authoritative" [err])
  | None =>
    match validateFloatingIPStableAuthority right false with
    | Some err => Some (Wrap "corroborating floating IP representation is not authoritative" [err])
    | None => if negb (same_stable_identity left right) then Some (Msg "inspace: floating IP sparse-read identity mismatch") else None
    end
  end.
Definition corroborateSparseFloatingIP (primary corroborating : FloatingIP) : result FloatingIP :=
  check! validateFloatingIPStableIdentityMatch primary corroborating in
  match validateFloatingIPResponseIdentity corroborating (fip_Address primary) true with
  | None => Ok corroborating
  | Some assignmentErr =>
      if negb (Is assignmentErr ErrSparseFloatingIPAssignment) then Err assignmentErr
      else Ok (corroborating <| assignmentCorroborated := true |>)
  end.

Section Methods.
Context `{JD : JSONDecoder} `{FT : FmtText} (c : Client) (ctx : option context).

(** ** Reads *)

Definition list_query (filters : option FloatingIPFilters) : result Values :=
  match filters with
  | None => Ok []
  | Some f =>
      let query := if negb (Filter_BillingAccountID f =? 0) then Values_Set [] "billing_account_id" (FormatInt (Filter_BillingAccountID f)) else [] in
      if Filter_VMUUID f != "" then check! validateUUID (Filter_VMUUID f) in Ok (Values_Set query "vm_uuid" (Filter_VMUUID f)) else Ok query
  end.
Definition listFloatingIPsRaw (location : string) (filters : option FloatingIPFilters) : prog hres (result (option (list FloatingIP))) :=
  match locationPath location "network/ip_addresses" with
  | Err e => Ret (Err e)
  | Ok path =>
    match list_query filters with
    | Err e => Ret (Err e)
    | Ok query => do c (slice_codec floatingIP_codec) ctx MethodGet path query None
    end
  end.
Definition getFloatingIPRaw (location address : string) : prog hres (result FloatingIP) :=
  match validatePublicIPv4 address with
  | Some e => Ret (Err e)
  | None =>
    match locationPath location ("network/ip_addresses/" +:+ address) with
    | Err e => Ret (Err e)
    | Ok path =>
      let! result := do c floatingIP_codec ctx MethodGet path [] None in
      Ret (match result with Err e => Err (bindExactFloatingIPLookupError e address) | Ok ip => Ok ip end)
    end
  end.

Definition resolveSparseFloatingIPWithExactRead (location : string) (listed : FloatingIP) : prog hres (result FloatingIP) :=
  match validateSparseFloatingIPAuthority listed false with
  | Some e => Ret (Err e)
  | None =>
    let! exact := getFloatingIPRaw location (fip_Address listed) in
    Ret (match exact with
      | Err e => Err (Wrap "reading exact floating IP" [e])
      | Ok exact => corroborateSparseFloatingIP listed exact
      end)
  end.
Definition resolveSparseFloatingIPWithListRead (location : string) (exact : FloatingIP) : prog hres (result FloatingIP) :=
  match validateSparseFloatingIPAuthority exact false with
  | Some e => Ret (Err e)
  | None =>
    let! listed := listFloatingIPsRaw location (Some (Build_FloatingIPFilters (fip_BillingAccountID exact) "")) in
    Ret (match validateFloatingIPCollectionShape listed with
      | Err e => Err (Wrap "reading floating IP collection for corroboration" [e])
      | Ok listed =>
          match List.filter (fun ip => fip_Address ip == fip_Address exact) listed with
          | [] => Err (Msg "floating IP is absent from corroborating collection")
          | [match_] => corroborateSparseFloatingIP exact match_
          | _ => Err (Msg "floating IP appears more than once in corroborating collection")
          end
      end)
  end.

Fixpoint resolve_rows (location : string) (rows : list FloatingIP) : prog hres (result (list FloatingIP)) :=
  match rows with
  | [] => Ret (Ok [])
  | row :: r =>
      let! resolved :=
        match validateFloatingIPResponseIdentity row "" true with
        | None => Ret (Ok row)
        | Some identityErr =>
            if negb (Is identityErr ErrSparseFloatingIPAssignment) then Ret (Err (Wrap "inspace: decode response: invalid list element identity" [identityErr]))
            else
              let! resolved := resolveSparseFloatingIPWithExactRead location row in
              Ret (match resolved with Err e => Err (Wrap "inspace: decode response: sparse list element could not be authoritatively resolved" [e]) | ok => ok end)
        end in
      match resolved with
      | Err e => Ret (Err e)
      | Ok row => let! rest := resolve_rows location r in Ret (result_map (cons row) rest)
      end
  end.
Definition filter_check (filters : FloatingIPFilters) (row : FloatingIP) : goerr :=
  if negb (Filter_BillingAccountID filters =? 0) && negb (fip_BillingAccountID row =? Filter_BillingAccountID filters)
  then Some (Msg "inspace: decode response: list element belongs to another billing account")
  else if (Filter_VMUUID filters != "") && (negb (EqualFold (fip_AssignedTo row) (Filter_VMUUID filters)) || (fip_AssignedToResourceType row != "virtual_machine"))
  then Some (Msg "inspace: decode response: list element does not belong to filtered VM")
  else None.
Definition ListFloatingIPs (location : string) (filters : option FloatingIPFilters) : prog hres (result (list FloatingIP)) :=
  let! raw := listFloatingIPsRaw location filters in
  match validateFloatingIPCollectionShape raw with
  | Err e => Ret (Err e)
  | Ok rows =>
    let! resolved := resolve_rows location rows in
    Ret (try! rows := resolved in
      match filters with
      | None => Ok rows
      | Some f => check! first_error (filter_check f) rows in Ok rows
      end)
  end.
Definition GetFloatingIP (location address : string) : prog hres (result FloatingIP) :=
  let! read := getFloatingIPRaw location address in
  match read with
  | Err e => Ret (Err e)
  | Ok result =>
    match validateFloatingIPResponseIdentity result address true with
    | None => Ret (Ok result)
    | Some identityErr =>
        if negb (Is identityErr ErrSparseFloatingIPAssignment) then Ret (Err identityErr)
        else
          let! resolved := resolveSparseFloatingIPWithListRead location result in
          Ret (match resolved with
            | Err e => Err (Wrap "inspace: exact floating IP returned a sparse assignment tuple that could not be authoritatively resolved" [e])
            | ok => ok
            end)
    end
  end.

(** ** Mutations *)

Definition unassigned (ip : FloatingIP) : bool := (fip_AssignedTo ip == "") && (fip_AssignedToResourceType ip == "") && (fip_AssignedToPrivateIP ip == "").

(** A sparse mutation receipt, confirmed by [GetFloatingIP]. *)
Definition corroborate_receipt (location address : string) (receipt : FloatingIP) : prog hres (result FloatingIP) :=
  let! readback := GetFloatingIP location address in
  Ret (match readback with
    | Err e => Err (Wrap "inspace: sparse floating IP response could not be corroborated by exact/list readback" [e])
    | Ok readback =>
        match corroborateSparseFloatingIP receipt readback with
        | Err e => Err (Wrap "inspace: sparse floating IP response disagrees with readback" [e])
        | ok => ok
        end
    end).

Definition CreateFloatingIP (location : string) (input : CreateFloatingIPRequest) : prog hres (result FloatingIP) :=
  if CreateFIP_BillingAccountID input <? 1 then Ret (Err (Msg "inspace: floating IP billing account ID is required"))
  else match locationPath location "network/ip_addresses" with
  | Err e => Ret (Err e)
  | Ok path =>
    let! answered := doJSON c floatingIP_codec ctx MethodPost path [] (Some (Marshal createFloatingIP_codec input)) in
    match answered with
    | Err e => Ret (Err e)
    | Ok result =>
      let identityErr := validateFloatingIPResponseIdentity result "" false in
      if (match identityErr with Some e => negb (Is e ErrSparseFloatingIPAssignment) | None => false end) then Ret (match identityErr with Some e => Err e | None => Ok result end)
      else match validateFloatingIPStableAuthority result false with
      | Some e => Ret (Err (Wrap "inspace: floating IP creation response is not authoritative" [e]))
      | None =>
        if negb (fip_BillingAccountID result =? CreateFIP_BillingAccountID input) || (fip_Name result != CreateFIP_Name input)
        then Ret (Err (Msg "inspace: floating IP creation response metadata does not match requested metadata"))
        else match identityErr with
        | None => Ret (if negb (unassigned result) then Err (Msg "inspace: floating IP creation response unexpectedly reports assignment") else Ok result)
        | Some _ => corroborate_receipt location (fip_Address result) result
        end
      end
    end
  end.

Definition update_path (location address : string) (input : UpdateFloatingIPRequest) : result string :=
  check! validatePublicIPv4 address in
  if UpdateFIP_Name input == "" then Err (Msg "inspace: floating IP name is required")
  else if UpdateFIP_BillingAccountID input <? 1 then Err (Msg "inspace: floating IP billing account ID is required")
  else locationPath location ("network/ip_addresses/" +:+ address).
Definition UpdateFloatingIP (location address : string) (input : UpdateFloatingIPRequest) : prog hres (result FloatingIP) :=
  match update_path location address input with
  | Err e => Ret (Err e)
  | Ok path =>
    let! result := doJSON c floatingIP_codec ctx MethodPatch path [] (Some (Marshal updateFloatingIP_codec input)) in
    Ret (checked result (fun ip => validateFloatingIPResponseIdentity ip address false))
  end.

Definition assign_path (location address resourceUUID resourceType : string) : result string :=
  check! validatePublicIPv4 address in check! validateUUID resourceUUID in
  if negb (resource_type resourceType) then Err (Msg "inspace: floating IP resource type must be virtual_machine, service, or load_balancer")
  else locationPath location ("network/ip_addresses/" +:+ address +:+ "/assign").
Definition AssignFloatingIP (location address resourceUUID resourceType : string) : prog hres (result FloatingIP) :=
  match assign_path location address resourceUUID resourceType with
  | Err e => Ret (Err e)
  | Ok path =>
    let! result := doJSON c floatingIP_codec ctx MethodPost path []
      (Some (print_json (JObj [("assigned_to", JStr resourceUUID); ("assigned_to_resource_type", JStr resourceType)]))) in
    Ret (checked result (fun ip =>
      guard! validateFloatingIPResponseIdentity ip address false in
      if negb (EqualFold (fip_AssignedTo ip) resourceUUID) || (fip_AssignedToResourceType ip != resourceType)
      then Some (Msg "inspace: floating IP assignment response does not match requested resource") else None))
  end.

Definition UnassignFloatingIP (location address : string) : prog hres (result FloatingIP) :=
  match validatePublicIPv4 address with
  | Some e => Ret (Err e)
  | None =>
    match locationPath location ("network/ip_addresses/" +:+ address +:+ "/unassign") with
    | Err e => Ret (Err e)
    | Ok path =>
      let! answered := doJSON c floatingIP_codec ctx MethodPost path [] None in
      match answered with
      | Err e => Ret (Err e)
      | Ok result =>
        let! settled :=
          match validateFloatingIPResponseIdentity result address false with
          | None => Ret (Ok result)
          | Some identityErr =>
              if negb (Is identityErr ErrSparseFloatingIPAssignment) then Ret (Err identityErr)
              else match validateSparseFloatingIPAuthority result false with
              | Some e => Ret (Err (Wrap "inspace: sparse floating IP unassignment response is not authoritative" [e]))
              | None => corroborate_receipt location address result
              end
          end in
        Ret (checked settled (fun ip => if negb (unassigned ip) then Some (Msg "inspace: floating IP unassignment response/readback still reports resource") else None))
      end
    end
  end.

Definition DeleteFloatingIP (location address : string) : prog hres goerr :=
  match validatePublicIPv4 address with
  | Some e => Ret (Some e)
  | None =>
    match locationPath location ("network/ip_addresses/" +:+ address) with
    | Err e => Ret (Some e)
    | Ok path => doJSONNil c ctx MethodDelete path [] None
    end
  end.
End Methods.
