(* ===== verification/NodeFirewall.v ===== *)
(** * Names and policy hashes of node load balancer firewalls (modules/client/node_load_balancer_firewall.go)

    The cloud controller names the firewalls it owns after the cluster and the VM, shard or Service,
    and records or embeds a hash of the canonical text of their rules, which Karpenter recomputes. *)

From S2P Require Import Prelude GoErrors ClientErrors GoNet GoHTTP ClientResources.

(** ** Patterns *)

(** The text between a prefix and a suffix of known lengths. *)
Definition after_prefix (prefix s : string) : option string := if HasPrefix s prefix then Some (drop_string (String.length prefix) s) else None.
Definition hex_pattern (n : nat) (s : string) : bool := match_seq (replicate n is_hex_lower) s.

(** [^[a-z0-9](?:[a-z0-9-]{0,34}[a-z0-9])?$]. *)
Definition nodeLoadBalancerServiceUIDPattern (s : string) : bool := bounded_label is_alnum_lower (fun c => is_alnum_lower c || is_dash c) 34 s.
(** [^[0-9a-f]{64}$]. *)
Definition nodeLoadBalancerPolicyHashPattern (s : string) : bool := hex_pattern 64 s.
(** The canonical lower-case UUID. *)
Definition nodeLoadBalancerVMUUIDPattern (s : string) : bool := uuid_lower_pattern s.

(** The groups of [^inlb-([0-9a-f]{n})M(S)$] for a literal [M] and a pattern [S]. *)
Definition two_groups (n : nat) (middle : string) (pattern : string -> bool) (name : string) : option (string * string) :=
  match after_prefix "inlb-" name with
  | None => None
  | Some rest =>
      let hash := take_string n rest in
      match after_prefix middle (drop_string n rest) with
      | Some tail => if hex_pattern n hash && pattern tail then Some (hash, tail) else None
      | None => None
      end
  end.
Definition nodeLoadBalancerShardFirewallPattern : string -> option (string * string) := two_groups 32 "-shard-" (hex_pattern 8).
Definition nodeLoadBalancerICMPFirewallPattern : string -> option (string * string) := two_groups 32 "-icmp-" (hex_pattern 8).
Definition nodeLoadBalancerVMFirewallPattern : string -> option (string * string) := two_groups 8 "-vm-" uuid_lower_pattern.
(** [^inlb-([0-9a-f]{8})$]. *)
Definition nodeLoadBalancerShardNamePattern (s : string) : option string :=
  match after_prefix "inlb-" s with Some hash => if hex_pattern 8 hash then Some hash else None | None => None end.
(** [^inlb-([0-9a-f]{8})-(UID)-([0-9a-f]{8})$]: the last nine characters are the final group and its
    dash. *)
Definition nodeLoadBalancerServiceFirewallPattern (name : string) : option (string * string * string) :=
  match two_groups 8 "-" (fun tail =>
    let n := (String.length tail - 9)%nat in
    Nat.leb 10 (String.length tail) && nodeLoadBalancerServiceUIDPattern (take_string n tail)
    && (match after_prefix "-" (drop_string n tail) with Some hash => hex_pattern 8 hash | None => false end)) name with
  | Some (cluster, tail) => let n := (String.length tail - 9)%nat in Some (cluster, take_string n tail, drop_string (S n) tail)
  | None => None
  end.

Definition NodeLoadBalancerVMFirewallDescription : string := "Managed InSpace public-node-local VM firewall".
Definition validNodeLoadBalancerServiceUID (value : string) : bool := Nat.leb (String.length value) 36 && nodeLoadBalancerServiceUIDPattern value.

Section Hashes.
(** [hex.EncodeToString(sha256.Sum256(value))]. *)
Context (sha256_hex : string -> string).

Definition nodeLoadBalancerFullHash (value : string) : string := sha256_hex value.
Definition nodeLoadBalancerShortHash (value : string) : string := take_string 8 (nodeLoadBalancerFullHash value).
Definition nodeLoadBalancerOwnershipHash (value : string) : string := take_string 32 (nodeLoadBalancerFullHash value).

(** ** Policies *)

Fixpoint canonical_prefixes (seen : gset string) (l : list string) : result (list string) :=
  match l with
  | [] => Ok []
  | value :: r =>
      match ParsePrefix value with
      | Some (Build_Prefix (Addr4 a) bits) =>
          if masked_String a bits != value then Err (Msg "firewall rule prefix must be canonical IPv4 CIDR")
          else if bool_decide (value ∈ seen) then Err (Msg "firewall rule prefix is duplicated")
          else result_map (cons value) (canonical_prefixes ({[value]} ∪ seen) r)
      | _ => Err (Msg "firewall rule prefix must be canonical IPv4 CIDR")
      end
  end.
Definition canonicalNodeLoadBalancerFirewallEndpoints (rule : FirewallRule) : result (list string) :=
  if fr_EndpointSpecType rule == "any" then
    match fr_EndpointSpec rule with [] => Ok [] | _ => Err (Msg "firewall rule endpoint any must not include prefixes") end
  else if fr_EndpointSpecType rule == "ip_prefixes" then
    match fr_EndpointSpec rule with
    | [] => Err (Msg "firewall rule must include IPv4 prefixes")
    | l => result_map sort_strings (canonical_prefixes ∅ l)
    end
  else Err (Msg "firewall rule endpoint type is unsupported").

(** The one port of a rule. *)
Definition rule_port (rule : FirewallRule) : option Z :=
  match fr_PortStart rule, fr_PortEnd rule with
  | Some a, Some b => if negb (a =? b) || (a <? 1) || (65535 <? a) then None else Some a
  | _, _ => None
  end.
Definition rule_key (rule : FirewallRule) (port : string) (endpoints : list string) : string :=
  join_with "|" [fr_Protocol rule; port; fr_EndpointSpecType rule; join_with "," endpoints].

Fixpoint canonical_keys (seenRules seenPorts : gset string) (rules : list FirewallRule) : result (list string) :=
  match rules with
  | [] => Ok []
  | rule :: r =>
      if fr_Direction rule != "inbound" then Err (Msg "firewall rule must be inbound")
      else if (fr_Protocol rule != "tcp") && (fr_Protocol rule != "udp") then Err (Msg "firewall rule protocol must be lowercase tcp or udp")
      else match rule_port rule with
      | None => Err (Msg "firewall rule must contain one explicit valid port")
      | Some p =>
          let port := FormatInt p in
          let portKey := fr_Protocol rule +:+ "|" +:+ port in
          if bool_decide (portKey ∈ seenPorts) then Err (Msg "firewall rule duplicates a public port")
          else
            try! endpoints := canonicalNodeLoadBalancerFirewallEndpoints rule in
            let key := rule_key rule port endpoints in
            if bool_decide (key ∈ seenRules) then Err (Msg "firewall rule duplicates an existing canonical rule")
            else result_map (cons key) (canonical_keys ({[key]} ∪ seenRules) ({[portKey]} ∪ seenPorts) r)
      end
  end.
Definition newline : string := String (ascii_of_nat 10) EmptyString.
Definition canonicalNodeLoadBalancerPortFirewallPolicy (rules : list FirewallRule) : result string :=
  match rules with
  | [] => Err (Msg "firewall requires at least one ingress rule")
  | _ => try! keys := canonical_keys ∅ ∅ rules in Ok (join_with newline (sort_strings keys))
  end.

Definition NodeLoadBalancerVMFirewallSpecHash (rules : list FirewallRule) : result string :=
  result_map nodeLoadBalancerFullHash (canonicalNodeLoadBalancerPortFirewallPolicy rules).
Definition NodeLoadBalancerShardFirewallSpecHash (rules : list FirewallRule) : result string :=
  result_map nodeLoadBalancerFullHash (canonicalNodeLoadBalancerPortFirewallPolicy rules).
Definition NodeLoadBalancerServiceFirewallSpecHash (rules : list FirewallRule) : result string :=
  result_map nodeLoadBalancerShortHash (canonicalNodeLoadBalancerPortFirewallPolicy rules).
Definition NodeLoadBalancerClusterICMPFirewallSpecHash (rules : list FirewallRule) : result string :=
  match rules with
  | [rule] =>
      if (fr_Protocol rule != "icmp") || (fr_Direction rule != "inbound") || (match fr_PortStart rule with Some _ => true | None => false end)
         || (match fr_PortEnd rule with Some _ => true | None => false end) || (fr_EndpointSpecType rule != "any")
         || (match fr_EndpointSpec rule with [] => false | _ => true end)
      then Err (Msg "cluster ICMP firewall must contain only portless inbound ICMP from any")
      else Ok (nodeLoadBalancerShortHash "icmp|inbound|any")
  | _ => Err (Msg "cluster ICMP firewall must contain exactly one rule")
  end.

(** ** Names *)

Definition NodeLoadBalancerVMFirewallName (cluster vmUUID : string) : result string :=
  if cluster == "" then Err (Msg "cluster identity is required")
  else if negb (nodeLoadBalancerVMUUIDPattern vmUUID) then Err (Msg "VM UUID must be a lowercase canonical UUID")
  else Ok ("inlb-" +:+ nodeLoadBalancerShortHash cluster +:+ "-vm-" +:+ vmUUID).
Definition ParseNodeLoadBalancerVMFirewallName (cluster name : string) : option string :=
  if cluster == "" then None
  else match nodeLoadBalancerVMFirewallPattern name with
  | Some (hash, vm) => if hash != nodeLoadBalancerShortHash cluster then None else Some vm
  | None => None
  end.
Definition NodeLoadBalancerShardFirewallName (cluster shard : string) : result string :=
  if cluster == "" then Err (Msg "cluster identity is required")
  else match nodeLoadBalancerShardNamePattern shard with
  | None => Err (Msg "managed shard name must match inlb-<8 lowercase hex characters>")
  | Some hash => Ok ("inlb-" +:+ nodeLoadBalancerOwnershipHash cluster +:+ "-shard-" +:+ hash)
  end.
Definition NodeLoadBalancerServiceFirewallName (cluster serviceUID : string) (rules : list FirewallRule) : result (string * string) :=
  if (cluster == "") || negb (validNodeLoadBalancerServiceUID serviceUID) then Err (Msg "cluster identity and a lowercase DNS Service UID of at most 36 characters are required")
  else try! hash := NodeLoadBalancerServiceFirewallSpecHash rules in
    Ok ("inlb-" +:+ nodeLoadBalancerShortHash cluster +:+ "-" +:+ serviceUID +:+ "-" +:+ hash, hash).
Definition NodeLoadBalancerClusterICMPFirewallName (cluster : string) (rules : list FirewallRule) : result (string * string) :=
  if cluster == "" then Err (Msg "cluster identity is required")
  else try! hash := NodeLoadBalancerClusterICMPFirewallSpecHash rules in
    Ok ("inlb-" +:+ nodeLoadBalancerOwnershipHash cluster +:+ "-icmp-" +:+ hash, hash).

(** ** Validators *)

Definition billing_mismatch (firewall : Firewall) (cluster : string) (billingAccountID : Z) : bool :=
  (cluster == "") || (billingAccountID <? 1) || negb (fw_BillingAccountID firewall =? billingAccountID).

Definition ValidateNodeLoadBalancerVMFirewallIdentity (firewall : Firewall) (cluster vmUUID : string) (billingAccountID : Z) : goerr :=
  if billing_mismatch firewall cluster billingAccountID then Some (Msg "VM firewall cluster and billing identity do not match")
  else match NodeLoadBalancerVMFirewallName cluster vmUUID with
  | Err e => Some e
  | Ok name =>
    if EffectiveName firewall != name then Some (Msg "name is not the owned firewall for VM")
    else if (fw_Description firewall != "") && (fw_Description firewall != NodeLoadBalancerVMFirewallDescription) then Some (Msg "VM firewall description is not the managed description")
    else match NodeLoadBalancerVMFirewallSpecHash (fw_Rules firewall) with
    | Err e => Some e
    | Ok _ =>
        if forallb (fun row => EqualFold (fx_ResourceType row) "vm" && (fx_ResourceUUID row == vmUUID)) (default [] (fw_ResourcesAssigned firewall)) then None
        else Some (Msg "VM firewall assignment is not the VM")
    end
  end.
Definition ValidateNodeLoadBalancerVMFirewall (firewall : Firewall) (cluster vmUUID : string) (billingAccountID : Z) (expectedPolicyHash : string) : goerr :=
  guard! ValidateNodeLoadBalancerVMFirewallIdentity firewall cluster vmUUID billingAccountID in
  if negb (nodeLoadBalancerPolicyHashPattern expectedPolicyHash) then Some (Msg "expected VM firewall policy hash is invalid")
  else match NodeLoadBalancerVMFirewallSpecHash (fw_Rules firewall) with
  | Err e => Some e
  | Ok actual => if actual != expectedPolicyHash then Some (Msg "VM firewall policy hash does not match expected hash") else None
  end.
Definition ValidateNodeLoadBalancerShardFirewall (firewall : Firewall) (cluster shard : string) (billingAccountID : Z) (expectedPolicyHash : string) : goerr :=
  if billing_mismatch firewall cluster billingAccountID then Some (Msg "shard firewall cluster and billing identity do not match")
  else match NodeLoadBalancerShardFirewallName cluster shard with
  | Err e => Some e
  | Ok name =>
    if (EffectiveName firewall != name) || (match nodeLoadBalancerShardFirewallPattern (EffectiveName firewall) with None => true | _ => false end)
    then Some (Msg "name is not the owned firewall for shard")
    else if negb (nodeLoadBalancerPolicyHashPattern expectedPolicyHash) then Some (Msg "expected shard firewall policy hash is invalid")
    else match NodeLoadBalancerShardFirewallSpecHash (fw_Rules firewall) with
    | Err e => Some e
    | Ok actual => if actual != expectedPolicyHash then Some (Msg "shard firewall policy hash does not match expected hash") else None
    end
  end.
Definition ValidateNodeLoadBalancerServiceFirewall (firewall : Firewall) (cluster : string) (billingAccountID : Z) : goerr :=
  if billing_mismatch firewall cluster billingAccountID then Some (Msg "Service firewall cluster and billing identity do not match")
  else match nodeLoadBalancerServiceFirewallPattern (EffectiveName firewall) with
  | Some (owner, uid, named) =>
    if (owner != nodeLoadBalancerShortHash cluster) || negb (validNodeLoadBalancerServiceUID uid) then Some (Msg "name is not an owned Service firewall for this cluster")
    else match NodeLoadBalancerServiceFirewallSpecHash (fw_Rules firewall) with
    | Err e => Some e
    | Ok hash => if named != hash then Some (Msg "name spec hash does not match Service policy hash") else None
    end
  | None => Some (Msg "name is not an owned Service firewall for this cluster")
  end.
Definition ValidateNodeLoadBalancerClusterICMPFirewall (firewall : Firewall) (cluster : string) (billingAccountID : Z) : goerr :=
  if billing_mismatch firewall cluster billingAccountID then Some (Msg "cluster ICMP firewall cluster and billing identity do not match")
  else match nodeLoadBalancerICMPFirewallPattern (EffectiveName firewall) with
  | Some (owner, named) =>
    if owner != nodeLoadBalancerOwnershipHash cluster then Some (Msg "name is not an owned cluster ICMP firewall")
    else match NodeLoadBalancerClusterICMPFirewallSpecHash (fw_Rules firewall) with
    | Err e => Some e
    | Ok hash => if named != hash then Some (Msg "name spec hash does not match cluster ICMP policy hash") else None
    end
  | None => Some (Msg "name is not an owned cluster ICMP firewall")
  end.
End Hashes.
