(* ===== verification/ClientWire.v ===== *)
(** * What the client puts on the wire, and what it reports

    The lemmas behind the theorems on the client: the routes that its calls use are exactly those with
    a contract, one exchange sends at most the one request it was asked for, a refusal to dispatch is
    reported only when nothing was sent, and an error with an HTTP status stands for a response to that
    request. *)

From S2P Require Import Prelude GoErrors ClientErrors CSIFence GoNet GoURL Prog GoJSON GoHTTP ClientJSON ClientResources ClientTransport.
Import Client.

(** ** Histories *)

Definition requests (h : list (event hres)) : list request :=
  flat_map (fun e => match ev_act e with RoundTrip rq => [rq] | _ => [] end) h.
Definition mutations (h : list (event hres)) : list request := List.filter (fun rq => isMutation (rq_Method rq)) (requests h).

Lemma requests_app h h' : requests (h ++ h') = requests h ++ requests h'.
Proof. apply flat_map_app. Qed.
Lemma mutations_app h h' : mutations (h ++ h') = mutations h ++ mutations h'.
Proof. unfold mutations. by rewrite requests_app, List.filter_app. Qed.

(** The error says that nothing was sent. *)
Definition undispatched (e : error) : bool := Is e ErrMutationBlocked || Is e ErrMutationNotDispatched.
(** An error of the network, the context or the standard library wraps neither the client's own
    sentinels nor its API errors. *)
Definition foreign (e : error) : Prop := undispatched e = false /\ AsAPI e = None.
Definition foreign_opt (e : goerr) : Prop := match e with Some e => foreign e | None => True end.
Definition plain_event (e : event hres) : Prop :=
  match e with
  | Ev (BuildRequest _) r => foreign_opt r
  | Ev (ContextErr _) r => foreign_opt r
  | Ev (RoundTrip _) r => match r with Err e => foreign e | Ok resp => foreign_opt (rs_BodyErr resp) end
  end.
Definition plain (h : list (event hres)) : Prop := Forall plain_event h.

(** ** Errors *)

Lemma undispatched_wrap text e : undispatched (Wrap text [e]) = undispatched e.
Proof. unfold undispatched. simpl. by rewrite !orb_false_r. Qed.
Lemma AsAPI_wrap text e : AsAPI (Wrap text [e]) = AsAPI e.
Proof. simpl. by destruct (AsAPI e). Qed.
Lemma foreign_wrap text e : foreign e -> foreign (Wrap text [e]).
Proof. unfold foreign. by rewrite undispatched_wrap, AsAPI_wrap. Qed.
Lemma foreign_url e : foreign e -> foreign (url_error e).
Proof. intros [H1 H2]. unfold url_error. by destruct (net_error e) as [[]|]; split. Qed.
Lemma undispatched_url e : undispatched (url_error e) = undispatched e.
Proof. unfold url_error. by destruct (net_error e) as [[]|]. Qed.
Lemma foreign_msg s : foreign (Msg s).
Proof. done. Qed.
#[export] Hint Resolve foreign_wrap foreign_url foreign_msg : inspace.
Lemma IsNotFound_api e a : AsAPI e = Some a -> IsNotFound (Some e) = IsNotFoundAPI a.
Proof. unfold IsNotFound. simpl. by intros ->. Qed.
Lemma IsNotFound_wrap text e : IsNotFound (Some (Wrap text [e])) = IsNotFound (Some e).
Proof. unfold IsNotFound, errAsAPI. by rewrite AsAPI_wrap. Qed.

(** The errors of the JSON walk are foreign. *)
Lemma terminator_foreign d ch s e : terminator d ch s = Err e -> foreign e.
Proof.
  unfold terminator, Token. destruct (dec_tokens d) as [|t r]; [destruct (dec_tail d) as [|m []]; by intros [= <-]|].
  destruct t; [|by intros [= <-]..]. case_test; [done|by intros [= <-]].
Qed.
Lemma Token_foreign d e : Token d = Err e -> foreign e.
Proof. unfold Token. destruct (dec_tokens d); [|done]. destruct (dec_tail d) as [|m []]; by intros [= <-]. Qed.
Lemma walk_foreign fuel :
  (forall d e, validateJSONValue fuel d = Some (Err e) -> foreign e)
  /\ (forall seen d e, object_loop fuel seen d = Some (Err e) -> foreign e)
  /\ (forall d e, array_loop fuel d = Some (Err e) -> foreign e).
Proof.
  induction fuel as [|fuel (IHv & IHo & IHa)]; [done|]. split_and!.
  - intros d e. simpl. destruct (Token d) as [[t d']|e'] eqn:E; [|intros [= <-]; apply Token_foreign in E; eauto with inspace].
    destruct t as [ch| |]; [|done..]. case_test; [apply IHo|]. case_test; [apply IHa|by intros [= <-]].
  - intros seen d e. simpl. case_test; [|intros [= H]; by eapply terminator_foreign].
    destruct (Token d) as [[t d']|e'] eqn:E; [|intros [= <-]; apply Token_foreign in E; eauto with inspace].
    destruct t as [ch|key|]; [by intros [= <-]| |by intros [= <-]]. case_test; [by intros [= <-]|].
    destruct (validateJSONValue fuel d') as [[d2|e2]|] eqn:Ev; [apply IHo|intros [= <-]; by eapply IHv|done].
  - intros d e. simpl. case_test; [|intros [= H]; by eapply terminator_foreign].
    destruct (validateJSONValue fuel d) as [[d2|e2]|] eqn:Ev; [apply IHa|intros [= <-]; by eapply IHv|done].
Qed.

(** Decoding errors are foreign. *)
Class Quiet {A} (C : codec A) : Prop := quiet : forall old j e, c_dec C old j = Err e -> foreign e.

#[export] Instance quiet_string : Quiet string_codec.
Proof. intros old j e. by destruct j; intros [= <-]. Qed.
#[export] Instance quiet_bool : Quiet bool_codec.
Proof. intros old j e. by destruct j; intros [= <-]. Qed.
#[export] Instance quiet_int64 : Quiet int64_codec.
Proof. intros old j e. destruct j; simpl; try case_test; by intros [= <-]. Qed.
#[export] Instance quiet_int32 : Quiet int32_codec.
Proof. intros old j e. destruct j; simpl; try case_test; by intros [= <-]. Qed.
#[export] Instance quiet_any : Quiet any_codec.
Proof. done. Qed.
#[export] Instance quiet_raw `{JT : JSONText} : Quiet raw_codec.
Proof. done. Qed.
#[export] Instance quiet_ptr {A} (C : codec A) `{!Quiet C} : Quiet (ptr_codec C).
Proof. intros old j e. destruct j; simpl; try done; destruct (c_dec C _ _) eqn:E; try done; intros [= <-]; by eapply quiet. Qed.
Lemma quiet_dec_list {A} (C : codec A) `{!Quiet C} l e : dec_list C l = Err e -> foreign e.
Proof.
  induction l as [|j l IH]; simpl; [done|]. destruct (c_dec C _ _) eqn:E; [|intros [= <-]; by eapply quiet].
  destruct (dec_list C l); [done|]. intros [= <-]. by apply IH.
Qed.
#[export] Instance quiet_list {A} (C : codec A) `{!Quiet C} : Quiet (list_codec C).
Proof. intros old j e. destruct j; simpl; try done; try (by intros [= <-]). apply quiet_dec_list, _. Qed.
#[export] Instance quiet_slice {A} (C : codec A) `{!Quiet C} : Quiet (slice_codec C).
Proof.
  intros old j e. destruct j; simpl; try done; try (by intros [= <-]).
  destruct (dec_list C l) eqn:E; [done|]. intros [= <-]. by eapply quiet_dec_list.
Qed.
Lemma quiet_field {A B} name omit (C : codec B) `{!Quiet C} (get : A -> B) `{!Put get} x j e : jf_dec (jfield_of name omit C get) x j = Err e -> foreign e.
Proof. simpl. destruct (c_dec C _ _) eqn:E; [done|]. intros [= <-]. by eapply quiet. Qed.
Lemma quiet_struct {A} (zero : A) fields : Forall (fun f => forall x j e, jf_dec f x j = Err e -> foreign e) fields -> Quiet (struct_codec zero fields).
Proof.
  intros Hf old j e. rewrite Forall_forall in Hf. destruct j; simpl; try done; try (by intros [= <-]). revert old.
  induction fields0 as [|[key v] r IH]; intros old; simpl; [done|].
  destruct (struct_setter fields old key v) as [[y|e']|] eqn:E; [apply IH| |apply IH].
  intros [= <-]. unfold struct_setter in E. destruct (List.find _ fields) as [f|] eqn:Ef.
  - injection E as E. apply find_some in Ef as [Hin _]. apply list_elem_of_In in Hin. by eapply Hf.
  - destruct (List.find (fun f => EqualFold _ _) fields) as [f|] eqn:Ef'; [|done]. injection E as E.
    apply find_some in Ef' as [Hin _]. apply list_elem_of_In in Hin. by eapply Hf.
Qed.
Ltac quiet_struct := apply quiet_struct; repeat (apply Forall_cons_2; [intros ???; apply quiet_field; exact _|]); apply Forall_nil_2.

#[local] Opaque maxResponseBodyBytes.

Section Exchange.
Context `{JD : JSONDecoder} `{FT : FmtText} (c : Client).

Lemma validate_foreign data e : validateJSONNoDuplicateObjectKeys data = Some e -> foreign e.
Proof.
  unfold validateJSONNoDuplicateObjectKeys, validateJSONTokens. destruct (validateJSONValue _ _) as [[d|e']|] eqn:E; [| |done].
  - destruct (Token d) as [[t d']|e'] eqn:Et; [by intros [= <-]|]. apply Token_foreign in Et.
    assert (forall x, foreign x -> foreign (Wrap "invalid trailing JSON" [x])) by eauto with inspace.
    destruct e' as [[]| | | | | | |]; intros [= <-]; auto.
  - intros [= <-]. by apply walk_foreign in E.
Qed.

(** ** One exchange *)

(** The body arrived whole. *)
Definition complete_body (resp : response) : Prop :=
  rs_BodyErr resp = None /\ Z.of_nat (String.length (rs_Body resp)) <= maxResponseBodyBytes
  /\ (0 < rs_ContentLength resp -> Z.of_nat (String.length (rs_Body resp)) = rs_ContentLength resp).

Lemma length_take_string n s : (n <= String.length s)%nat -> String.length (take_string n s) = n.
Proof. revert s. induction n as [|n IH]; intros [|ch s] H; simpl in *; try lia. rewrite IH; lia. Qed.

Lemma read_whole resp data limit : 0 <= limit ->
  read_limited resp (limit + 1) = (data, None) -> Z.of_nat (String.length data) <= limit -> data = rs_Body resp /\ rs_BodyErr resp = None.
Proof.
  intros Hl. unfold read_limited. case_test; bool_hyps; intros H Hd; [exfalso|].
  - assert (data = take_string (Z.to_nat (limit + 1)) (rs_Body resp)) as -> by congruence. rewrite length_take_string in Hd by lia. lia.
  - split; congruence.
Qed.

Lemma foreign_cause a (cause : goerr) : foreign_opt cause -> undispatched (APIErr a cause) = false.
Proof. destruct cause as [e|]; [|done]. intros [H _]. done. Qed.

Lemma readResponse_errors method path expects resp e :
  foreign_opt (rs_BodyErr resp) -> readResponse method path expects resp = Err e ->
  undispatched e = false /\ exists a, AsAPI e = Some a /\ StatusCode a = rs_Status resp /\ Method a = method /\ Path a = path /\ ExactLookup a = false
    /\ RequestedAddress a = "" /\ (ResponseBodyIncomplete a = false -> ResponseBodyMalformed a = false -> complete_body resp).
Proof.
  intros Hb. unfold readResponse. case_test; [intros [= <-]; split; [done|]; eexists; split; [reflexivity|]; done|].
  destruct (read_limited resp _) as [data [err|]] eqn:Er.
  { intros [= <-]. assert (foreign err) as Hf by (unfold read_limited in Er; case_test_in Er; [done|]; injection Er as _ Er; by rewrite Er in Hb).
    split; [by apply foreign_cause|]. eexists. split; [reflexivity|]. done. }
  case_test; [intros [= <-]; split; [done|]; eexists; split; [reflexivity|]; done|].
  case_test; [intros [= <-]; split; [done|]; eexists; split; [reflexivity|]; done|].
  assert (complete_body resp) as Hc.
  { bool_hyps. destruct (read_whole resp data maxResponseBodyBytes) as [-> Hbe]; [by vm_compute|done|done|]. split_and!; [done..|]. intros Hl.
    apply andb_false_iff in Heqb1 as [Hx|Hx]; bool_hyps; lia. }
  case_test; [intros [= <-]; split; [done|]; eexists; split; [reflexivity|]; done|].
  destruct (validateSuccessResponse _ _ _ _ _ _) as [e'|] eqn:Ev; [|done]. intros [= ->]. unfold validateSuccessResponse in Ev.
  repeat (case_test_in Ev; try done); injection Ev as <-;
    (split; [first [done|apply foreign_cause; simpl; by eapply validate_foreign]|]; eexists; split; [reflexivity|]; done).
Qed.

(** The API error stands for a response to [rq]. *)
Definition responded (rq : request) (path : string) (a : APIError) (new : list (event hres)) : Prop :=
  exists resp, Ev (RoundTrip rq) (Ok resp) ∈ new /\ StatusCode a = rs_Status resp /\ Method a = rq_Method rq /\ Path a = path
    /\ ExactLookup a = false /\ RequestedAddress a = ""
    /\ (ResponseBodyIncomplete a = false -> ResponseBodyMalformed a = false -> StatusCode a = 404 \/ StatusCode a = 400 -> complete_body resp).
(** A failed exchange: nothing was sent, or the error does not say so and reports the response, if any. *)
Definition failed_exchange (rq : request) (path : string) (e : error) (new : list (event hres)) : Prop :=
  plain new -> (undispatched e = true -> requests new = [] /\ isMutation (rq_Method rq) = true) /\ forall a, AsAPI e = Some a -> responded rq path a new.
(** A success: the one request was answered, without redirect, by a whole response that its contract allows. *)
Definition answered (rq : request) (path : string) (expectsJSON : bool) (a : answer) (new : list (event hres)) : Prop :=
  exists resp new0, new = Ev (RoundTrip rq) (Ok resp) :: new0 /\ requests new0 = [] /\ redirect_location resp = None
    /\ readResponse (rq_Method rq) path expectsJSON resp = Ok a.

Definition silent (x : hact) : Prop := match x with RoundTrip _ => False | _ => True end.
(** A mutation may be sent: to a loopback host or by a client that allows it, right after its context
    was found live. *)
Definition sendable (rq : request) (h : list (event hres)) : Prop :=
  isMutation (rq_Method rq) = true ->
  (isLiteralLoopback (Hostname (baseURL c)) = true \/ dangerouslyAllowMutations c = true) /\ exists h0, h = Ev (ContextErr (rq_Sending rq)) None :: h0.

Lemma redirected_status resp loc : redirect_location resp = Some loc -> rs_Status resp <> 404 /\ rs_Status resp <> 400.
Proof.
  unfold redirect_location. case_test; [|done]. intros _. apply andb_true_iff in Heqb as [H _]. rewrite !orb_true_iff, !Z.eqb_eq in H. lia.
Qed.

Lemma checkRedirect_dispatched base target rq : undispatched (checkRedirect base target [rq]) = false /\ AsAPI (checkRedirect base target [rq]) = None.
Proof. unfold checkRedirect. simpl. by repeat case_test. Qed.

(** The outcome of an exchange whose new events are known. *)
Definition exchanged (rq : request) (path : string) (expectsJSON : bool) (h : list (event hres)) (r : result answer) (h' : list (event hres)) : Prop :=
  exists new, h' = new ++ h /\ (requests new = [] \/ requests new = [rq])
    /\ match r with Ok a => answered rq path expectsJSON a new | Err e => failed_exchange rq path e new end.

Lemma local_failure rq path expects h e (new : list (event hres)) :
  (plain new -> AsAPI e = None /\ (undispatched e = true -> isMutation (rq_Method rq) = true)) -> requests new = [] ->
  exchanged rq path expects h (Err e) (new ++ h).
Proof. intros He Hn. exists new. split; [done|]. split; [by left|]. intros Hp. destruct (He Hp) as [Ha Hm]. split; [by auto|]. intros a. by rewrite Ha. Qed.

Lemma send_wp (G : hact -> list (event hres) -> Prop) rq path expects h new :
  G (RoundTrip rq) (new ++ h) -> requests new = [] ->
  wp G (let! sent := http_Do (checkRedirect (baseURL c)) rq in settle (rq_Method rq) path expects sent) (new ++ h) (exchanged rq path expects h).
Proof.
  intros HG Hn. assert (forall ans, requests (Ev (RoundTrip rq) ans :: new) = [rq]) as Hreq by (intros ans; simpl; by rewrite Hn). apply wp_bind. unfold http_Do. apply wp_bind, wp_call; [done|]. intros [resp|e].
  - assert (Ev (RoundTrip rq) (Ok resp) ∈ Ev (RoundTrip rq) (Ok resp) :: new) as Hin by apply list_elem_of_here.
    destruct (redirect_location resp) as [loc|] eqn:El.
    + destruct (redirected_status resp loc El) as [H1 H2].
      destruct (resolve_location rq loc) as [target|]; apply wp_ret, wp_ret; exists (Ev (RoundTrip rq) (Ok resp) :: new); (split; [done|]); (split; [by right|]); intros Hp; [|by split].
      destruct (checkRedirect_dispatched (baseURL c) target rq) as [Hd _]. split.
      * match goal with |- undispatched ?e = true -> _ => change (undispatched e) with (undispatched (url_error (checkRedirect (baseURL c) target [rq]))) end. by rewrite undispatched_url, Hd.
      * intros a [= <-]. exists resp. simpl. split_and!; try done. intros _ _ [?|?]; lia.
    + apply wp_ret, wp_ret. exists (Ev (RoundTrip rq) (Ok resp) :: new). split; [done|]. split; [by right|].
      destruct (readResponse (rq_Method rq) path expects resp) as [a|e] eqn:Er; [by exists resp, new|]. intros Hp. apply Forall_cons in Hp as [Hp _].
      destruct (readResponse_errors _ _ _ _ _ Hp Er) as (Hu & a & Ha & Hst & Hm & Hpa & Hx & Had & Hco).
      split; [by rewrite Hu|]. rewrite Ha. intros b [= <-]. exists resp. split_and!; try done. auto.
  - apply wp_ret, wp_ret. exists (Ev (RoundTrip rq) (Err e) :: new). split; [done|]. split; [by right|]. intros Hp. apply Forall_cons in Hp as [Hp _].
    apply foreign_url in Hp as [Hu Ha]. rewrite undispatched_wrap, AsAPI_wrap, Hu, Ha. done.
Qed.

(** The request is sent at most once, under any guard that admits it on a history without new requests. *)
Lemma exchange_wp (G : hact -> list (event hres) -> Prop) ctx method path query body ct expects h :
  let rq := the_request c ctx method path query body ct in
  (forall x h', silent x -> G x h') -> (forall new, requests new = [] -> sendable rq (new ++ h) -> G (RoundTrip rq) (new ++ h)) ->
  wp G (exchange c ctx method path query body ct expects) h (exchanged rq path expects h).
Proof.
  intros rq Hs Hr. unfold exchange. fold rq. case_test; [apply wp_ret, (local_failure _ _ _ _ _ []); [|done]; intros _; bool_hyps; by split|].
  assert (forall new : list (event hres), requests new = [] -> sendable rq (new ++ h) ->
    wp G (let! sent := http_Do (checkRedirect (baseURL c)) rq in settle method path expects sent) (new ++ h) (exchanged rq path expects h)) as Hsend.
  { intros new Hn Hse. apply (send_wp G rq); [by apply Hr|done]. }
  apply wp_bind. unfold newRequest. destruct (rq_Sending rq) as [s|] eqn:Es; [|apply wp_ret, wp_ret, (local_failure _ _ _ _ _ []); [|done]; intros _; destruct (isMutation method) eqn:Em; by split].
  apply (wp_call G (BuildRequest rq)); [by apply Hs|]. intros [e|].
  - apply wp_ret, (local_failure _ _ _ _ _ [Ev (BuildRequest rq) (Some e)]); [|done]. intros [[Hu Ha] _]%Forall_cons.
    destruct (isMutation method) eqn:Em; rewrite ?AsAPI_wrap, ?undispatched_wrap; [simpl; rewrite Ha; by split|]. by rewrite Hu.
  - apply wp_bind. destruct (isMutation method) eqn:Em; [|apply wp_ret; apply (Hsend [Ev (BuildRequest rq) None]); [done|]; intros Hm; change (isMutation (rq_Method rq)) with (isMutation method) in Hm; congruence].
    apply (wp_call G (ContextErr (Some s))); [by apply Hs|]. intros [e|].
    2: { apply (Hsend [Ev (ContextErr (Some s)) None; Ev (BuildRequest rq) None]); [done|]. intros _. rewrite Es. split; [|by eexists].
      destruct (isLiteralLoopback _); [by left|]. destruct (dangerouslyAllowMutations c); [by right|]. done. }
    apply wp_ret, (local_failure _ _ _ _ _ [Ev (ContextErr (Some s)) (Some e); Ev (BuildRequest rq) None]); [|done].
    intros [[_ Ha] _]%Forall_cons. simpl. rewrite Ha. by split.
Qed.

(** ** Values *)

(** The value was decoded from the one answer: a whole response, not a redirect, with a status that the
    endpoint's contract allows and one JSON value without duplicate keys. *)
Definition trusted {A} (C : codec A) (rq : request) (path : string) (v : A) (new : list (event hres)) : Prop :=
  exists resp new0 contract j, new = Ev (RoundTrip rq) (Ok resp) :: new0 /\ requests new0 = [] /\ redirect_location resp = None /\ complete_body resp
    /\ endpointSuccessContract (rq_Method rq) path = Some contract /\ rs_Status resp ∈ ec_statuses contract /\ ec_body contract = successJSON
    /\ parse_json (TrimSpace (rs_Body resp)) = Some j /\ unique_keys j = true /\ c_dec C (c_zero C) j = Ok v.

Lemma readResponse_Ok method path expects resp a :
  readResponse method path expects resp = Ok a ->
  complete_body resp /\ a = Build_answer (rs_Status resp) (validatedWarrenCorrelationID (rs_Header resp)) (rs_Body resp)
  /\ validateSuccessResponse method path (rs_Status resp) expects (rs_Body resp) (an_CorrelationID a) = None.
Proof.
  unfold readResponse. case_test; [done|]. destruct (read_limited resp _) as [data [err|]] eqn:Er; [done|].
  case_test; [done|]. case_test; [done|]. case_test; [done|]. bool_hyps.
  destruct (read_whole resp data maxResponseBodyBytes) as [-> Hbe]; [by vm_compute|done|done|].
  destruct (validateSuccessResponse _ _ _ _ _ _) eqn:Ev; [done|]. intros [= <-]. split_and!; [|done..]. split_and!; [done..|]. intros Hl.
  apply andb_false_iff in Heqb1 as [Hx|Hx]; bool_hyps; lia.
Qed.

Lemma success_contract method path status expects data corr :
  validateSuccessResponse method path status expects data corr = None ->
  exists contract, endpointSuccessContract method path = Some contract /\ status ∈ ec_statuses contract /\ expects = (ec_body contract == successJSON).
Proof.
  unfold validateSuccessResponse. destruct (endpointSuccessContract method path) as [k|] eqn:E; [|done]. case_test; [done|]. case_test; [done|]. intros _.
  exists k. bool_hyps. split_and!; [done| |by apply Bool.eqb_prop].
  unfold containsHTTPStatus in *. apply existsb_exists in Heqb as (s & Hin & Hs). bool_hyps. subst. by apply list_elem_of_In.
Qed.

(** A body that is decoded is one value with distinct keys; a failure is a malformed response. *)
Lemma decodeBody_outcome {A} (C : codec A) `{!Quiet C} method path a :
  match decodeBody C method path a with
  | Ok v => exists j, parse_json (TrimSpace (an_Data a)) = Some j /\ unique_keys j = true /\ c_dec C (c_zero C) j = Ok v
  | Err e => undispatched e = false /\ exists b, AsAPI e = Some b /\ StatusCode b = an_Status a /\ Method b = method /\ Path b = path /\ ExactLookup b = false
      /\ RequestedAddress b = "" /\ ResponseBodyMalformed b = true
  end.
Proof.
  unfold decodeBody. destruct (TrimSpace (an_Data a)) as [|first rest] eqn:Et; [by split; [|eexists]|]. rewrite <-Et. clear Et.
  set (text := TrimSpace (an_Data a)). case_test; [by split; [|eexists]|].
  destruct (validateJSONNoDuplicateObjectKeys text) as [err|] eqn:Ev; [split; [by apply foreign_cause, (validate_foreign text)|by eexists]|].
  match goal with |- context [if ?b then _ else _] => destruct b end; [by split; [|eexists]|]. unfold Unmarshal. destruct (parse_json text) as [j|] eqn:Ep; [|by split; [|eexists]].
  destruct (c_dec C (c_zero C) j) as [v|e] eqn:Ed; [|split; [by apply foreign_cause, (quiet _ _ _ Ed)|by eexists]].
  exists j. split_and!; [done| |done]. by apply (validate_value text).
Qed.

Lemma doBody_wp (G : hact -> list (event hres) -> Prop) {A} (C : codec A) `{!Quiet C} ctx method path query body ct h :
  let rq := the_request c ctx method path query body ct in
  (forall x h', silent x -> G x h') -> (forall new, requests new = [] -> sendable rq (new ++ h) -> G (RoundTrip rq) (new ++ h)) ->
  wp G (doBody c C ctx method path query body ct) h (fun r h' => exists new, h' = new ++ h /\ (requests new = [] \/ requests new = [rq])
    /\ match r with Ok v => trusted C rq path v new | Err e => failed_exchange rq path e new end).
Proof.
  intros rq Hs Hr. unfold doBody. apply wp_bind. eapply wp_mono; [by apply exchange_wp|]. intros r h' (new & -> & Hq & Hn). apply wp_ret. exists new. split; [done|]. split; [done|].
  destruct r as [a|e]; [|done]. destruct Hn as (resp & new0 & Hnew & Hn0 & Hl & Hread). apply readResponse_Ok in Hread as (Hc & Ha & Hv).
  change (rq_Method (the_request c ctx method path query body ct)) with method in Hv.
  pose proof (decodeBody_outcome C method path a) as Hd. destruct (decodeBody C method path a) as [v|e].
  - destruct Hd as (j & Hj & Hu & Hdec). apply success_contract in Hv as (k & Hk & Hst & Hb). exists resp, new0, k, j. subst a. split_and!; try done. symmetry in Hb. by bool_hyps.
  - destruct Hd as (Hu & b & Hb & Hst & Hm & Hp & Hx & Had & Hmal). intros _. split; [by rewrite Hu|]. rewrite Hb. intros ? [= <-]. exists resp. subst a new. split_and!; try done; try apply list_elem_of_here.
Qed.

Lemma doBodyNil_wp (G : hact -> list (event hres) -> Prop) ctx method path query body ct h :
  let rq := the_request c ctx method path query body ct in
  (forall x h', silent x -> G x h') -> (forall new, requests new = [] -> sendable rq (new ++ h) -> G (RoundTrip rq) (new ++ h)) ->
  wp G (doBodyNil c ctx method path query body ct) h (fun r h' => exists new, h' = new ++ h /\ (requests new = [] \/ requests new = [rq])
    /\ match r with None => exists a, answered rq path false a new | Some e => failed_exchange rq path e new end).
Proof.
  intros rq Hs Hr. unfold doBodyNil. apply wp_bind. eapply wp_mono; [by apply exchange_wp|]. intros r h' (new & -> & Hq & Hn). apply wp_ret. exists new. split; [done|]. split; [done|].
  destruct r as [a|e]; [by exists a|done].
Qed.
End Exchange.
