(* ===== verification/ClientRoutes.v ===== *)
(** * Routes

    Every path that the client builds from a valid location and valid identities splits into its
    segments, and exactly one contract covers it. The segments that come from the caller are left open:
    a template that differs in a fixed segment, or in length, cannot match. *)

From S2P Require Import Prelude GoErrors ClientErrors GoNet GoURL GoHTTP ClientTransport.
Import Client.

(** ** Paths *)

Definition path_of (segments : list string) : string := join_char "/" segments.
Definition no_slash (s : string) : Prop := ContainsChar "/" s = false.

Lemma SplitChar_app sep a r : ContainsChar sep a = false -> SplitChar sep (a +:+ String sep r) = a :: SplitChar sep r.
Proof.
  induction a as [|ch a IH]; intros H; simpl in *; [by rewrite bool_decide_eq_true_2|]. bool_hyps.
  rewrite bool_decide_eq_false_2 by congruence. by rewrite IH.
Qed.
Lemma SplitChar_one sep a : ContainsChar sep a = false -> SplitChar sep a = [a].
Proof.
  induction a as [|ch a IH]; intros H; simpl in *; [done|]. bool_hyps. rewrite bool_decide_eq_false_2 by congruence. by rewrite IH.
Qed.
Lemma split_join sep l : l <> [] -> Forall (fun s => ContainsChar sep s = false) l -> SplitChar sep (join_char sep l) = l.
Proof.
  intros Hl. induction 1 as [|s l Hs _ IH]; [done|]. destruct l as [|s' l]; [by apply SplitChar_one|].
  change (join_char sep (s :: s' :: l)) with (s +:+ String sep (join_char sep (s' :: l))). by rewrite SplitChar_app, IH.
Qed.

Lemma match_seq_no_slash classes s : forallb (fun p : ascii -> bool => negb (p "/"%char)) classes = true -> match_seq classes s = true -> no_slash s.
Proof.
  revert s. induction classes as [|p classes IH]; intros [|ch s]; simpl; try done. intros H1 H2. bool_hyps. unfold no_slash in *. simpl.
  rewrite IH by done. rewrite bool_decide_eq_false_2; [done|]. intros <-. congruence.
Qed.
Lemma uuid_no_slash s : uuidPattern s = true -> no_slash s.
Proof. apply match_seq_no_slash. by vm_compute. Qed.

Lemma last_char_slash d s : last_char d s <> "/"%char -> ContainsChar "/" (take_string (String.length s) (String d s)) = false -> ContainsChar "/" (String d s) = false.
Proof.
  revert d. induction s as [|ch s IH]; intros d Hl Ht; [simpl in *; by rewrite bool_decide_eq_false_2 by congruence|].
  change (take_string (String.length (String ch s)) (String d (String ch s))) with (String d (take_string (String.length s) (String ch s))) in Ht.
  simpl in Ht. apply orb_false_iff in Ht as [Hd Ht]. simpl. rewrite Hd. simpl. apply (IH ch Hl). exact Ht.
Qed.
Lemma location_no_slash s : locationPattern s = true -> no_slash s.
Proof.
  unfold locationPattern, location_pattern, bounded_label, no_slash. destruct s as [|ch r]; [done|]. intros H. bool_hyps.
  assert (is_alnum_lower "/"%char = false) as Hs by done. simpl.
  rewrite bool_decide_eq_false_2 by (intros <-; congruence). simpl. destruct r as [|d r]; [done|]. bool_hyps.
  apply last_char_slash; [intros E; rewrite E in *; congruence|]. eapply all_chars_ContainsChar; [done|by vm_compute].
Qed.
Lemma octet_digits s n : GoNet.parse_octet s = Some n -> all_chars is_digit s = true.
Proof.
  unfold GoNet.parse_octet. intros H. apply find_some in H as [Hin E]. bool_hyps. subst.
  assert (forallb (fun n => all_chars is_digit (print_octet n)) (seq 0 256) = true) as Hall by by vm_compute.
  rewrite forallb_forall in Hall. by apply Hall.
Qed.
Lemma kind_digits a r : all_chars is_digit a = true -> ParseAddr_kind (a +:+ String "." r) = Some false.
Proof. induction a as [|ch a IH]; [done|]. simpl. intros H. bool_hyps. rewrite IH by done. ascii_cases ch. Qed.

(** The text of a public IPv4 address is one segment, and [net.ParseIP] accepts it. *)
Lemma address_segment s : (exists a, public_IPv4 s = Some a) -> no_slash s /\ exists ip, ParseIP s = Some ip.
Proof.
  intros [a H]. unfold public_IPv4 in H. destruct (ParseAddr4 s) as [b|] eqn:Ea; [|done]. clear H. pose proof Ea as Ep. unfold ParseAddr4 in Ea.
  pose proof (join_split "." s) as Ej. destruct (SplitChar "." s) as [|a1 [|a2 [|a3 [|a4 [|]]]]] eqn:Es; try done.
  destruct (GoNet.parse_octet a1) eqn:E1; [|done]. destruct (GoNet.parse_octet a2) eqn:E2; [|done].
  destruct (GoNet.parse_octet a3) eqn:E3; [|done]. destruct (GoNet.parse_octet a4) eqn:E4; [|done].
  apply octet_digits in E1, E2, E3, E4. split.
  - unfold no_slash. rewrite <-Ej. simpl. repeat (rewrite ContainsChar_app; simpl).
    by rewrite !(all_chars_ContainsChar is_digit "/") by done.
  - assert (ParseAddr_kind s = Some false) as Hk by (rewrite <-Ej; by apply kind_digits).
    unfold ParseIP, ParseAddr. rewrite Hk, Ep. by eexists.
Qed.

(** ** Contracts *)

(** A segment that the code fixes, or one that the caller gave. *)
Definition fits (parts : list string) (shape : list (option string)) : Prop :=
  Forall2 (fun p s => match s with Some l => p = l | None => True end) parts shape.
Fixpoint clash (shape : list (option string)) (template : list string) : bool :=
  match shape, template with
  | [], [] => false
  | Some l :: shape, t :: template => negb (segment_matches l t) || clash shape template
  | None :: shape, _ :: template => clash shape template
  | _, _ => true
  end.
Lemma clash_sound parts shape template : fits parts shape -> clash shape template = true -> segments_match parts template = false.
Proof.
  intros Hf. revert template. induction Hf as [|p s parts shape Hs _ IH]; intros [|t template]; simpl; try done.
  destruct s as [l|]; [|intros H; rewrite IH by done; apply andb_false_r]. subst. intros [H|H]%orb_true_iff; [bool_hyps; by rewrite H|].
  rewrite IH by done. apply andb_false_r.
Qed.

Lemma find_unique {A} (f g : A -> bool) l k : List.filter f l = [k] -> (forall x, g x = true -> f x = true) -> g k = true -> List.find g l = Some k.
Proof.
  intros Hl Hg Hk. induction l as [|x l IH]; simpl in *; [done|]. destruct (g x) eqn:Egx.
  - rewrite (Hg x Egx) in Hl. by injection Hl as -> _.
  - destruct (f x) eqn:Efx; [|by apply IH]. injection Hl as -> _. congruence.
Qed.

(** The contracts that a path of this shape may have. *)
Definition may_match (method : string) (shape : list (option string)) (k : endpointContract) : bool :=
  (ec_method k == method) && negb (clash shape (SplitChar "/" (ec_pathTemplate k))).
Definition candidates (method : string) (shape : list (option string)) : list endpointContract := List.filter (may_match method shape) endpointContracts.

Lemma may_match_sound method segments shape k :
  SplitChar "/" (path_of segments) = segments -> fits segments shape ->
  (ec_method k == method) && endpointPathMatches (path_of segments) (ec_pathTemplate k) = true -> may_match method shape k = true.
Proof.
  intros E Hf Hx. bool_hyps. unfold may_match, endpointPathMatches in *. rewrite E in *. rewrite bool_decide_eq_true_2 by done. simpl. apply negb_true_iff.
  destruct (clash shape _) eqn:Ec; [|done]. rewrite (clash_sound _ _ _ Hf Ec) in *. done.
Qed.
Lemma route_in contracts method segments shape k :
  segments <> [] -> Forall no_slash segments -> fits segments shape -> List.filter (may_match method shape) contracts = [k] ->
  segments_match segments (SplitChar "/" (ec_pathTemplate k)) = true ->
  List.find (fun k => (ec_method k == method) && endpointPathMatches (path_of segments) (ec_pathTemplate k)) contracts = Some k.
Proof.
  intros Hn Hs Hf Hk Hm. assert (SplitChar "/" (path_of segments) = segments) as E by (by apply split_join).
  apply (find_unique _ _ _ _ Hk); [intros x; by apply may_match_sound|].
  assert (In k (List.filter (may_match method shape) contracts)) as Hin by (rewrite Hk; by left). apply filter_In in Hin as [_ Hin].
  unfold may_match in Hin. bool_hyps. unfold endpointPathMatches. rewrite E, Hm. by rewrite bool_decide_eq_true_2.
Qed.
Lemma route_contract method segments shape k :
  segments <> [] -> Forall no_slash segments -> fits segments shape -> candidates method shape = [k] ->
  segments_match segments (SplitChar "/" (ec_pathTemplate k)) = true -> endpointSuccessContract method (path_of segments) = Some k.
Proof. exact (route_in endpointContracts method segments shape k). Qed.

(** ** Segments *)

Inductive segment := Lit (s : string) | Loc (s : string) | Uid (s : string) | Adr (s : string).
Definition seg_text (x : segment) : string := match x with Lit s | Loc s | Uid s | Adr s => s end.
Definition seg_template (x : segment) : string := match x with Lit s => s | Loc _ => "{location}" | Uid _ => "{uuid}" | Adr _ => "{address}" end.
Definition seg_shape (x : segment) : option string := match x with Lit s => Some s | _ => None end.
(** A literal is a plain word; the rest is what the caller's checks accept. *)
Definition seg_ok (x : segment) : Prop :=
  match x with
  | Lit s => no_slash s /\ s <> "{location}" /\ s <> "{uuid}" /\ s <> "{address}"
  | Loc s => locationPattern s = true
  | Uid s => uuidPattern s = true
  | Adr s => exists a, public_IPv4 s = Some a
  end.
Definition url_path (segments : list segment) : string := path_of (map seg_text segments).

Lemma seg_ok_no_slash x : seg_ok x -> no_slash (seg_text x).
Proof. destruct x; simpl; [by intros []|apply location_no_slash|apply uuid_no_slash|by intros []%address_segment]. Qed.
Lemma seg_ok_matches x : seg_ok x -> segment_matches (seg_text x) (seg_template x) = true.
Proof.
  destruct x; simpl; unfold segment_matches.
  - intros (_ & H1 & H2 & H3). rewrite !bool_decide_eq_false_2 by done. by apply bool_decide_eq_true_2.
  - done.
  - done.
  - intros H. apply address_segment in H as [_ [ip H]]. simpl. by rewrite H.
Qed.
Lemma segments_fit segments : fits (map seg_text segments) (map seg_shape segments).
Proof. induction segments as [|[] segments IH]; constructor; done. Qed.
Lemma segments_ok_match segments : Forall seg_ok segments -> segments_match (map seg_text segments) (map seg_template segments) = true.
Proof. induction 1 as [|x segments Hx _ IH]; simpl; [done|]. by rewrite seg_ok_matches, IH. Qed.

(** A route: checked segments whose template is a contract's, and no other's. *)
Lemma routed method segments k :
  segments <> [] -> candidates method (map seg_shape segments) = [k] -> SplitChar "/" (ec_pathTemplate k) = map seg_template segments ->
  Forall seg_ok segments -> endpointSuccessContract method (url_path segments) = Some k.
Proof.
  intros Hn Hk Ht Hs. apply (route_contract _ _ (map seg_shape segments)).
  - by destruct segments.
  - clear -Hs. induction Hs; constructor; [by apply seg_ok_no_slash|done].
  - apply segments_fit.
  - done.
  - rewrite Ht. by apply segments_ok_match.
Qed.
(** The same as a test on the shape and the template, which the caller's texts do not enter. *)
Definition has_route (method : string) (segments : list segment) : bool :=
  match segments, candidates method (map seg_shape segments) with
  | _ :: _, [k] => SplitChar "/" (ec_pathTemplate k) == map seg_template segments
  | _, _ => false
  end.
Lemma has_route_contract method segments :
  has_route method segments = true -> Forall seg_ok segments -> exists k, endpointSuccessContract method (url_path segments) = Some k.
Proof.
  unfold has_route. destruct segments as [|x segments]; [done|]. destruct (candidates _ _) as [|k [|]] eqn:Ek; [done| |done]. intros Ht Hs. bool_hyps.
  exists k. by apply routed.
Qed.
Lemma split_url_path segments : segments <> [] -> Forall seg_ok segments -> SplitChar "/" (url_path segments) = map seg_text segments.
Proof.
  intros Hn Hs. apply split_join; [by destruct segments|]. clear Hn. induction Hs; constructor; [by apply seg_ok_no_slash|done].
Qed.
