(* ===== verification/ClientCalls.v ===== *)
(** * The calls of the client and what they promise

    Every exported method of modules/client that talks to the API, as one family of programs; the
    request that each call stands for, as a table of the REST interface; and what the value of a
    successful call is known to satisfy. *)

From S2P Require Import Prelude GoErrors ClientTypes ClientErrors CSIFence GoNet Prog GoJSON GoHTTP ClientJSON ClientResources ClientTransport ClientEndpoints ClientFloatingIP ClientWire ClientRoutes.
Import Client.

Inductive sdk_call :=
  | Do_ListLocations | Do_ListHostPools (location : string) | Do_ListVMs (location : string) | Do_GetVM (location uuid : string)
  | Do_CreateVM (location : string) (input : CreateVMRequest) | Do_DeleteVM (location uuid : string)
  | Do_StopVM (location uuid : string) | Do_StartVM (location uuid : string)
  | Do_UpdateVMCompute (location uuid : string) (vcpu memoryMiB : Z)
  | Do_ListDisks (location : string) | Do_GetDisk (location diskUUID : string) | Do_CreateDisk (location : string) (input : CreateDiskRequest)
  | Do_DeleteDisk (location diskUUID : string) | Do_AttachDisk (location vmUUID diskUUID : string)
  | Do_ResizeAttachedDisk (location vmUUID diskUUID : string) (sizeGiB : Z) | Do_DetachDisk (location vmUUID diskUUID : string)
  | Do_GetNetwork (location networkUUID : string) | Do_ListNetworks (location : string) | Do_ListVMImages
  | Do_ListFirewalls (location : string) | Do_GetFirewall (location firewallUUID : string)
  | Do_CreateFirewall (location : string) (input : CreateFirewallRequest)
  | Do_UpdateFirewall (location firewallUUID : string) (input : UpdateFirewallRequest) | Do_DeleteFirewall (location firewallUUID : string)
  | Do_AssignFirewallToVM (location firewallUUID vmUUID : string) | Do_UnassignFirewallFromVM (location firewallUUID vmUUID : string)
  | Do_ListLoadBalancers (location : string) | Do_GetLoadBalancer (location loadBalancerUUID : string)
  | Do_CreateLoadBalancer (location : string) (input : CreateLoadBalancerRequest) | Do_DeleteLoadBalancer (location loadBalancerUUID : string)
  | Do_AddLoadBalancerTarget (location loadBalancerUUID vmUUID : string) | Do_RemoveLoadBalancerTarget (location loadBalancerUUID vmUUID : string)
  | Do_AddLoadBalancerRule (location loadBalancerUUID : string) (rule : LoadBalancerRule)
  | Do_RemoveLoadBalancerRule (location loadBalancerUUID ruleUUID : string)
  | Do_ListFloatingIPs (location : string) (filters : option FloatingIPFilters) | Do_GetFloatingIP (location address : string)
  | Do_CreateFloatingIP (location : string) (input : CreateFloatingIPRequest)
  | Do_UpdateFloatingIP (location address : string) (input : UpdateFloatingIPRequest)
  | Do_AssignFloatingIP (location address resourceUUID resourceType : string) | Do_UnassignFloatingIP (location address : string)
  | Do_DeleteFloatingIP (location address : string).

Definition sdk_result (x : sdk_call) : Type :=
  match x with
  | Do_ListLocations => list Location | Do_ListHostPools _ => list HostPool | Do_ListVMs _ => list VM
  | Do_GetVM _ _ | Do_CreateVM _ _ | Do_UpdateVMCompute _ _ _ _ => VM
  | Do_ListDisks _ => list Disk | Do_GetDisk _ _ | Do_CreateDisk _ _ => Disk
  | Do_AttachDisk _ _ _ | Do_ResizeAttachedDisk _ _ _ _ => VMStorage
  | Do_GetNetwork _ _ => Network | Do_ListNetworks _ => list Network | Do_ListVMImages => list VMImage
  | Do_ListFirewalls _ => list Firewall | Do_GetFirewall _ _ | Do_CreateFirewall _ _ | Do_UpdateFirewall _ _ _ => Firewall
  | Do_ListLoadBalancers _ => list LoadBalancer | Do_GetLoadBalancer _ _ | Do_CreateLoadBalancer _ _ => LoadBalancer
  | Do_AddLoadBalancerTarget _ _ _ => LoadBalancerTarget | Do_AddLoadBalancerRule _ _ _ => LoadBalancerRule
  | Do_ListFloatingIPs _ _ => list FloatingIP
  | Do_GetFloatingIP _ _ | Do_CreateFloatingIP _ _ | Do_UpdateFloatingIP _ _ _ | Do_AssignFloatingIP _ _ _ _ | Do_UnassignFloatingIP _ _ => FloatingIP
  | _ => unit
  end.

(** A method that returns only an error. *)
Definition done_or (p : prog hres goerr) : prog hres (result unit) := let! e := p in Ret (match e with None => Ok tt | Some e => Err e end).

(** ** The REST interface *)

(** Method, path, query, body and content type. *)
Record wire := { w_method : string; w_path : list segment; w_query : Values; w_body : option string; w_type : string }.

Definition resource (location : string) (rest : list segment) : list segment := [Lit ""; Lit "v1"; Loc location] ++ rest.
Definition vm_path (location : string) (rest : list segment) : list segment := resource location ([Lit "user-resource"; Lit "vm"] ++ rest).
Definition network_path (location kind : string) (rest : list segment) : list segment := resource location ([Lit "network"; Lit kind] ++ rest).
Definition disks_path (location : string) (rest : list segment) : list segment := resource location ([Lit "storage"; Lit "disks"] ++ rest).

Definition get (path : list segment) (query : Values) : wire := Build_wire MethodGet path query None "".
Definition send_form (method : string) (path : list segment) (form : Values) : wire := Build_wire method path [] (Some (Encode form)) "application/x-www-form-urlencoded".
Definition send_json (method : string) (path : list segment) (query : Values) (body : option string) : wire := Build_wire method path query body "application/json".

Definition form_of (form : result Values) : Values := match form with Ok v => v | Err _ => [] end.

Section Table.
Context `{JT : JSONText}.

Definition wire_of (x : sdk_call) : wire :=
  match x with
  | Do_ListLocations => get [Lit ""; Lit "v1"; Lit "config"; Lit "locations"] []
  | Do_ListVMImages => get [Lit ""; Lit "v1"; Lit "config"; Lit "vm_images"] []
  | Do_ListHostPools l => get (resource l [Lit "user-resource"; Lit "host_pool"; Lit "list"]) []
  | Do_ListVMs l => get (vm_path l [Lit "list"]) []
  | Do_GetVM l u => get (vm_path l []) [("uuid", u)]
  | Do_CreateVM l i => send_form MethodPost (vm_path l []) (form_of (createVM_form i))
  | Do_DeleteVM l u => send_form MethodDelete (vm_path l []) [("uuid", u)]
  | Do_StopVM l u => send_form MethodPost (vm_path l [Lit "stop"]) [("uuid", u)]
  | Do_StartVM l u => send_form MethodPost (vm_path l [Lit "start"]) [("uuid", u)]
  | Do_UpdateVMCompute l u cpu ram => send_form MethodPatch (vm_path l []) [("uuid", u); ("vcpu", FormatInt cpu); ("ram", FormatInt ram)]
  | Do_ListDisks l => get (disks_path l []) []
  | Do_GetDisk l d => get (disks_path l [Uid d]) []
  | Do_CreateDisk l i => send_form MethodPost (disks_path l []) (match createDisk_check i with Ok t => createDisk_form i t | Err _ => [] end)
  | Do_DeleteDisk l d => Build_wire MethodDelete (disks_path l [Uid d]) [] None ""
  | Do_AttachDisk l v d => send_form MethodPost (vm_path l [Lit "storage"; Lit "attach"]) [("uuid", v); ("storage_uuid", d)]
  | Do_DetachDisk l v d => send_form MethodPost (vm_path l [Lit "storage"; Lit "detach"]) [("uuid", v); ("storage_uuid", d)]
  | Do_ResizeAttachedDisk l v d n => send_form MethodPatch (vm_path l [Lit "storage"]) [("uuid", v); ("disk_uuid", d); ("size_gb", FormatInt n)]
  | Do_GetNetwork l n => get (network_path l "network" [Uid n]) []
  | Do_ListNetworks l => get (network_path l "networks" []) []
  | Do_ListFirewalls l | Do_GetFirewall l _ => get (network_path l "firewalls" []) []
  | Do_CreateFirewall l i => send_json MethodPost (network_path l "firewalls" []) [] (Some (Marshal createFirewall_codec i))
  | Do_UpdateFirewall l f i => send_json MethodPut (network_path l "firewalls" [Uid f]) [] (Some (Marshal updateFirewall_codec i))
  | Do_DeleteFirewall l f => send_json MethodDelete (network_path l "firewalls" [Uid f]) [] None
  | Do_AssignFirewallToVM l f v => send_json MethodPost (network_path l "firewalls" [Uid f; Lit "vms"]) [("vm_uuid", v)] None
  | Do_UnassignFirewallFromVM l f v => send_json MethodDelete (network_path l "firewalls" [Uid f; Lit "vms"]) [("vm_uuid", v)] None
  | Do_ListLoadBalancers l => get (network_path l "load_balancers" []) []
  | Do_GetLoadBalancer l b => get (network_path l "load_balancers" [Uid b]) []
  | Do_CreateLoadBalancer l i => send_json MethodPost (network_path l "load_balancers" []) [] (Some (Marshal createLoadBalancer_codec i))
  | Do_DeleteLoadBalancer l b => send_json MethodDelete (network_path l "load_balancers" [Uid b]) [] None
  | Do_AddLoadBalancerTarget l b v =>
      send_json MethodPost (network_path l "load_balancers" [Uid b; Lit "targets"]) [] (Some (Marshal loadBalancerTarget_codec (Build_LoadBalancerTarget v "vm" "" "")))
  | Do_RemoveLoadBalancerTarget l b v => send_json MethodDelete (network_path l "load_balancers" [Uid b; Lit "targets"; Uid v]) [] None
  | Do_AddLoadBalancerRule l b r => send_json MethodPost (network_path l "load_balancers" [Uid b; Lit "forwarding_rules"]) [] (Some (Marshal loadBalancerRule_codec r))
  | Do_RemoveLoadBalancerRule l b r => send_json MethodDelete (network_path l "load_balancers" [Uid b; Lit "forwarding_rules"; Uid r]) [] None
  | Do_ListFloatingIPs l f => get (network_path l "ip_addresses" []) (form_of (list_query f))
  | Do_GetFloatingIP l a => get (network_path l "ip_addresses" [Adr a]) []
  | Do_CreateFloatingIP l i => send_json MethodPost (network_path l "ip_addresses" []) [] (Some (Marshal createFloatingIP_codec i))
  | Do_UpdateFloatingIP l a i => send_json MethodPatch (network_path l "ip_addresses" [Adr a]) [] (Some (Marshal updateFloatingIP_codec i))
  | Do_AssignFloatingIP l a r t =>
      send_json MethodPost (network_path l "ip_addresses" [Adr a; Lit "assign"]) []
        (Some (print_json (JObj [("assigned_to", JStr r); ("assigned_to_resource_type", JStr t)])))
  | Do_UnassignFloatingIP l a => send_json MethodPost (network_path l "ip_addresses" [Adr a; Lit "unassign"]) [] None
  | Do_DeleteFloatingIP l a => send_json MethodDelete (network_path l "ip_addresses" [Adr a]) [] None
  end.
End Table.

Section Calls.
Context `{JD : JSONDecoder} `{FT : FmtText} (c : Client) (ctx : option context).

Definition sdk_run (x : sdk_call) : prog hres (result (sdk_result x)) :=
  match x with
  | Do_ListLocations => ListLocations c ctx
  | Do_ListHostPools l => ListHostPools c ctx l
  | Do_ListVMs l => ListVMs c ctx l
  | Do_GetVM l u => GetVM c ctx l u
  | Do_CreateVM l i => CreateVM c ctx l i
  | Do_DeleteVM l u => done_or (DeleteVM c ctx l u)
  | Do_StopVM l u => done_or (StopVM c ctx l u)
  | Do_StartVM l u => done_or (StartVM c ctx l u)
  | Do_UpdateVMCompute l u cpu ram => UpdateVMCompute c ctx l u cpu ram
  | Do_ListDisks l => ListDisks c ctx l
  | Do_GetDisk l d => GetDisk c ctx l d
  | Do_CreateDisk l i => CreateDisk c ctx l i
  | Do_DeleteDisk l d => done_or (DeleteDisk c ctx l d)
  | Do_AttachDisk l v d => AttachDisk c ctx l v d
  | Do_ResizeAttachedDisk l v d n => ResizeAttachedDisk c ctx l v d n
  | Do_DetachDisk l v d => done_or (DetachDisk c ctx l v d)
  | Do_GetNetwork l n => GetNetwork c ctx l n
  | Do_ListNetworks l => ListNetworks c ctx l
  | Do_ListVMImages => ListVMImages c ctx
  | Do_ListFirewalls l => ListFirewalls c ctx l
  | Do_GetFirewall l f => GetFirewall c ctx l f
  | Do_CreateFirewall l i => CreateFirewall c ctx l i
  | Do_UpdateFirewall l f i => UpdateFirewall c ctx l f i
  | Do_DeleteFirewall l f => done_or (DeleteFirewall c ctx l f)
  | Do_AssignFirewallToVM l f v => done_or (AssignFirewallToVM c ctx l f v)
  | Do_UnassignFirewallFromVM l f v => done_or (UnassignFirewallFromVM c ctx l f v)
  | Do_ListLoadBalancers l => ListLoadBalancers c ctx l
  | Do_GetLoadBalancer l b => GetLoadBalancer c ctx l b
  | Do_CreateLoadBalancer l i => CreateLoadBalancer c ctx l i
  | Do_DeleteLoadBalancer l b => done_or (DeleteLoadBalancer c ctx l b)
  | Do_AddLoadBalancerTarget l b v => AddLoadBalancerTarget c ctx l b v
  | Do_RemoveLoadBalancerTarget l b v => done_or (RemoveLoadBalancerTarget c ctx l b v)
  | Do_AddLoadBalancerRule l b r => AddLoadBalancerRule c ctx l b r
  | Do_RemoveLoadBalancerRule l b r => done_or (RemoveLoadBalancerRule c ctx l b r)
  | Do_ListFloatingIPs l f => ListFloatingIPs c ctx l f
  | Do_GetFloatingIP l a => GetFloatingIP c ctx l a
  | Do_CreateFloatingIP l i => CreateFloatingIP c ctx l i
  | Do_UpdateFloatingIP l a i => UpdateFloatingIP c ctx l a i
  | Do_AssignFloatingIP l a r t => AssignFloatingIP c ctx l a r t
  | Do_UnassignFloatingIP l a => UnassignFloatingIP c ctx l a
  | Do_DeleteFloatingIP l a => done_or (DeleteFloatingIP c ctx l a)
  end.

(** The request of a call. *)
Definition request_of (w : wire) : request := the_request c ctx (w_method w) (url_path (w_path w)) (w_query w) (w_body w) (w_type w).
Definition call_request (x : sdk_call) : request := request_of (wire_of x).
End Calls.
