(* ===== verification/ClientPromises.v ===== *)
(** * Foreign errors, identities and registered requests

    The parts of the proof that every call of the client keeps its promises: the codecs and checks fail
    with foreign errors only, lists have distinct identities, and the requests of the table have a
    contract. *)

From S2P Require Import Prelude GoErrors ClientTypes ClientErrors CSIFence GoNet Prog GoJSON GoHTTP ClientJSON ClientResources ClientTransport ClientEndpoints ClientFloatingIP ClientWire ClientRoutes ClientCalls.
Import Client.

(** ** Codecs *)

#[export] Instance quiet_location : Quiet location_codec.
Proof. quiet_struct. Qed.
#[export] Instance quiet_hostPool : Quiet hostPool_codec.
Proof. quiet_struct. Qed.
#[export] Instance quiet_vmStorage : Quiet vmStorage_codec.
Proof. quiet_struct. Qed.
#[export] Instance quiet_vm `{JT : JSONText} : Quiet vm_codec.
Proof. quiet_struct. Qed.
#[export] Instance quiet_diskSnapshot : Quiet diskSnapshot_codec.
Proof. quiet_struct. Qed.
#[export] Instance quiet_disk : Quiet disk_codec.
Proof. quiet_struct. Qed.
#[export] Instance quiet_detachResult : Quiet detachResult_codec.
Proof. quiet_struct. Qed.
#[export] Instance quiet_network : Quiet network_codec.
Proof. quiet_struct. Qed.
#[export] Instance quiet_vmImageVersion : Quiet vmImageVersion_codec.
Proof. quiet_struct. Qed.
#[export] Instance quiet_vmImage : Quiet vmImage_codec.
Proof. quiet_struct. Qed.
#[export] Instance quiet_loadBalancerRule : Quiet loadBalancerRule_codec.
Proof. quiet_struct. Qed.
#[export] Instance quiet_loadBalancerTarget : Quiet loadBalancerTarget_codec.
Proof. quiet_struct. Qed.
#[export] Instance quiet_loadBalancer : Quiet loadBalancer_codec.
Proof. quiet_struct. Qed.
#[export] Instance quiet_firewallRule : Quiet firewallRule_codec.
Proof. quiet_struct. Qed.
#[export] Instance quiet_firewallResource : Quiet firewallResource_codec.
Proof. quiet_struct. Qed.
#[export] Instance quiet_firewall : Quiet firewall_codec.
Proof. quiet_struct. Qed.
#[export] Instance quiet_floatingIP : Quiet floatingIP_codec.
Proof.
  assert (Quiet floatingIPWithoutMethods) as Hq by quiet_struct. intros old j e. simpl. unfold UnmarshalJSON.
  destruct (c_dec floatingIPWithoutMethods zero_FloatingIP j) eqn:E; [|intros [= <-]; by eapply Hq]. case_test; [by intros [= <-]|done].
Qed.

(** ** Binding *)

(** The cause of the first API error. *)
Fixpoint cause_of (x : error) : option (option error) :=
  match x with
  | APIErr _ c => Some c
  | Wrap _ es =>
      (fix first es := match es with
       | [] => None
       | y :: r => match cause_of y with Some c => Some c | None => first r end
       end) es
  | UrlErr _ _ y | NetErr _ _ (Some y) => cause_of y
  | _ => None
  end.
Lemma cause_Is e s c : cause_of e = Some (Some c) -> Is c s = true -> Is e s = true.
Proof.
  intros He Hs. induction e as [t|t|t es IH|a c' IH|timeout temp inner IH|timeout temp inner IH|timeout temp|n] using error_ind'; simpl in *; try done.
  - induction IH as [|x es Hx _ IHes]; [done|]. simpl. destruct (cause_of x) as [y|]; [injection He as ->; by rewrite Hx|]. rewrite IHes by done. apply orb_true_r.
  - injection He as ->. done.
  - destruct inner as [x|]; [|done]. by apply IH.
  - by apply IH.
Qed.
Lemma bindAPI_AsAPI f e : AsAPI (bindAPI f e) = option_map f (AsAPI e).
Proof. unfold bindAPI. destruct (AsAPI e) eqn:E; simpl; [done|by rewrite E]. Qed.
Lemma bindAPI_undispatched f e : undispatched e = false -> undispatched (bindAPI f e) = false.
Proof.
  intros H. unfold bindAPI. destruct (AsAPI e) as [a|]; [|done].
  change (undispatched (APIErr (f a) (match cause_of e with Some c => c | None => None end)) = false).
  destruct (cause_of e) as [[x|]|] eqn:E; [|done..]. unfold undispatched in *. apply orb_false_iff in H as [H1 H2].
  change ((Is x ErrMutationBlocked || Is x ErrMutationNotDispatched) = false). apply orb_false_iff. split; [destruct (Is x ErrMutationBlocked) eqn:Ex|destruct (Is x ErrMutationNotDispatched) eqn:Ex]; try done;
    (eapply cause_Is in Ex; [|done]); congruence.
Qed.

(** ** Checks *)

Lemma foreign_sparse : foreign sparse.
Proof. done. Qed.
#[export] Hint Resolve foreign_sparse : inspace.
Lemma some_foreign e err : foreign_opt e -> e = Some err -> foreign err.
Proof. by intros H ->. Qed.

Lemma validateUUID_spec v : match validateUUID v with None => uuidPattern v = true | Some e => foreign e end.
Proof. unfold validateUUID. by destruct (uuidPattern v). Qed.
Lemma validateUUID_foreign v : foreign_opt (validateUUID v).
Proof. pose proof (validateUUID_spec v). by destruct (validateUUID v). Qed.
Lemma validateUUID_None v : validateUUID v = None -> uuidPattern v = true.
Proof. intros H. pose proof (validateUUID_spec v) as Hs. by rewrite H in Hs. Qed.
Lemma validateResponseUUID_spec v : match validateResponseUUID v with None => uuidPattern v = true | Some e => foreign e end.
Proof. unfold validateResponseUUID. pose proof (validateUUID_spec v). destruct (validateUUID v); eauto with inspace. Qed.
Lemma validateExpectedResponseUUID_spec v u :
  match validateExpectedResponseUUID v u with None => uuidPattern v = true /\ EqualFold v u = true | Some e => foreign e end.
Proof.
  unfold validateExpectedResponseUUID. pose proof (validateResponseUUID_spec v). destruct (validateResponseUUID v); [done|].
  by destruct (EqualFold v u) eqn:E.
Qed.
Lemma validatePublicIPv4_spec v : match validatePublicIPv4 v with None => exists a, public_IPv4 v = Some a | Some e => foreign e end.
Proof. unfold validatePublicIPv4. destruct (public_IPv4 v) as [a|]; [by exists a|done]. Qed.
Lemma locationPath_spec l r :
  match locationPath l r with Ok p => locationPattern l = true /\ p = "/v1/" +:+ l +:+ "/" +:+ TrimLeft_slash r | Err e => foreign e end.
Proof. unfold locationPath. by destruct (locationPattern l). Qed.

(** Identities of a list: what the check accepts is there once. *)
Definition distinct {A} (key : A -> string) (l : list A) : Prop := NoDup (map key l).

Lemma check_identities_spec {A} (identity : A -> result string) (key : A -> string) (ok : A -> Prop) seen l :
  (forall x, match identity x with Ok k => k = key x /\ ok x | Err e => foreign e end) ->
  match check_identities identity seen l with
  | None => distinct key l /\ Forall ok l /\ Forall (fun x => key x ∉ seen) l
  | Some e => foreign e
  end.
Proof.
  intros Hi. unfold distinct. revert seen. induction l as [|x l IH]; intros seen; simpl; [split_and!; constructor|].
  specialize (Hi x). destruct (identity x) as [k|e]; [|eauto with inspace]. destruct Hi as [-> Hx]. case_test; [done|]. case_test; [done|]. bool_hyps.
  specialize (IH ({[key x]} ∪ seen)). destruct (check_identities identity _ l); [done|]. destruct IH as (Hd & Ho & Hs). rewrite Forall_forall in Hs.
  split_and!; constructor; try done.
  - rewrite list_elem_of_fmap. intros (y & Hk & Hy). apply Hs in Hy. set_solver.
  - apply Forall_forall. intros y Hy. apply Hs in Hy. set_solver.
Qed.
Lemma validatedListResponse_spec {A} (identity : A -> result string) (key : A -> string) (ok : A -> Prop) answered :
  (forall x, match identity x with Ok k => k = key x /\ ok x | Err e => foreign e end) ->
  match validatedListResponse (Ok answered) identity with Ok l => distinct key l /\ Forall ok l | Err e => foreign e end.
Proof.
  intros Hi. unfold validatedListResponse. destruct answered as [l|]; [|done].
  pose proof (check_identities_spec identity key ok ∅ l Hi) as Hc. destruct (check_identities identity ∅ l); [done|]. naive_solver.
Qed.
Definition has_uuid {A} (uuid : A -> string) (x : A) : Prop := uuidPattern (uuid x) = true.
Definition by_uuid {A} (uuid : A -> string) (l : list A) : Prop := distinct (fun x => ToLower (uuid x)) l /\ Forall (has_uuid uuid) l.
Lemma uuid_identity_spec v : match validatedUUIDListIdentity v with Ok k => k = ToLower v /\ uuidPattern v = true | Err e => foreign e end.
Proof. unfold validatedUUIDListIdentity. pose proof (validateUUID_spec v). by destruct (validateUUID v). Qed.
Lemma vm_identity_spec x : match vm_identity x with Ok k => k = ToLower (VM_UUID x) /\ uuidPattern (VM_UUID x) = true | Err e => foreign e end.
Proof. unfold vm_identity. case_test; [done|]. case_test; [done|]. apply uuid_identity_spec. Qed.
Lemma firewall_identity_spec x : match firewall_identity x with Ok k => k = ToLower (fw_UUID x) /\ uuidPattern (fw_UUID x) = true | Err e => foreign e end.
Proof. unfold firewall_identity. case_test; [done|]. apply uuid_identity_spec. Qed.
Lemma loadBalancer_identity_spec x : match loadBalancer_identity x with Ok k => k = ToLower (LB_UUID x) /\ uuidPattern (LB_UUID x) = true | Err e => foreign e end.
Proof.
  unfold loadBalancer_identity. case_test; [done|]. pose proof (validateUUID_spec (LB_NetworkUUID x)). destruct (validateUUID _); [done|]. apply uuid_identity_spec.
Qed.
Lemma required_identity_spec v : match validatedRequiredListIdentity v with Ok k => k = ToLower v /\ v <> "" | Err e => foreign e end.
Proof. unfold validatedRequiredListIdentity. case_test; [done|]. case_test; [done|]. by bool_hyps. Qed.

(** ** Checks of floating IPs *)

Lemma base_identity_spec ip expected :
  match validateFloatingIPBaseIdentity ip expected with
  | None => (exists a, public_IPv4 (fip_Address ip) = Some a) /\ (expected <> "" -> fip_Address ip = expected)
  | Some e => foreign e
  end.
Proof.
  unfold validateFloatingIPBaseIdentity. pose proof (validatePublicIPv4_spec (fip_Address ip)) as Ha. destruct (validatePublicIPv4 _); [eauto with inspace|].
  case_test; [done|]. assert (expected <> "" -> fip_Address ip = expected) by (intros; apply andb_false_iff in Heqb as [?|?]; bool_hyps; done).
  case_test; [|done]. pose proof (validateResponseUUID_spec (fip_UUID ip)). destruct (validateResponseUUID _); done.
Qed.
Lemma stable_authority_foreign ip d : foreign_opt (validateFloatingIPStableAuthority ip d).
Proof.
  unfold validateFloatingIPStableAuthority. pose proof (base_identity_spec ip "") as Hb. destruct (validateFloatingIPBaseIdentity ip ""); [done|]. clear Hb.
  by repeat (match goal with |- context [if ?b then _ else _] => destruct b end).
Qed.
Lemma sparse_authority_foreign ip d : foreign_opt (validateSparseFloatingIPAuthority ip d).
Proof.
  unfold validateSparseFloatingIPAuthority. pose proof (stable_authority_foreign ip d) as Hs. destruct (validateFloatingIPStableAuthority ip d); [done|]. by case_test.
Qed.
(** The answer says that nothing is assigned: explicitly, or with what the client accepts in its place. *)
Definition settled_unassigned (ip : FloatingIP) : Prop :=
  assignedToPresent ip = true \/ fip_UnassignedAt ip <> "" \/ assignmentCorroborated ip = true
  \/ (fip_IsDeleted ip = true /\ validateSparseFloatingIPAuthority ip true = None).
Definition identified (ip : FloatingIP) (expected : string) : Prop :=
  (expected <> "" -> fip_Address ip = expected) /\ (exists a, public_IPv4 (fip_Address ip) = Some a)
  /\ (fip_AssignedTo ip = "" -> settled_unassigned ip).
Lemma response_identity_spec ip expected allow :
  match validateFloatingIPResponseIdentity ip expected allow with
  | None => identified ip expected /\ (allow = false -> assignedToPresent ip = true)
  | Some e => foreign e
  end.
Proof.
  unfold validateFloatingIPResponseIdentity, identified, settled_unassigned. pose proof (base_identity_spec ip expected) as Hb.
  destruct (validateFloatingIPBaseIdentity ip expected); [done|]. destruct Hb as [Ha He]. destruct (assignedToPresent ip) eqn:Ep; simpl.
  - case_test; [case_test; [done|]; split_and!; auto|]. case_test; [done|].
    pose proof (validateResponseUUID_spec (fip_AssignedTo ip)) as Hr. destruct (validateResponseUUID _); [done|]. case_test; [done|].
    bool_hyps. case_test; [|split_and!; auto; done]. destruct (ParseAddr _) as [[a|z x]|]; [|done..]. case_test; [done|]. split_and!; auto; done.
  - case_test; [done|]. case_test; [bool_hyps; subst; split_and!; auto; done|]. case_test; [bool_hyps; subst; split_and!; auto; done|].
    case_test; [|done]. bool_hyps. subst. pose proof (sparse_authority_foreign ip true) as Hs.
    destruct (validateSparseFloatingIPAuthority ip true) eqn:E; [done|]. split_and!; auto; done.
Qed.
(** A list row names its address; whether it is assigned may still be open. *)
Lemma floatingIP_identity_spec ip :
  match floatingIP_identity ip with Ok k => k = fip_Address ip /\ exists a, public_IPv4 (fip_Address ip) = Some a | Err e => foreign e end.
Proof.
  unfold floatingIP_identity. pose proof (base_identity_spec ip "") as Hb. destruct (validateFloatingIPBaseIdentity ip ""); [done|]. destruct Hb as [Hb _].
  pose proof (response_identity_spec ip "" true) as Hr. destruct (validateFloatingIPResponseIdentity ip "" true); [|done]. by case_test.
Qed.

(** Two representations of one floating IP, both complete, that say nothing of an assignment or agree. *)
Definition agree (primary corroborating : FloatingIP) : Prop :=
  validateSparseFloatingIPAuthority primary false = None /\ validateFloatingIPStableAuthority corroborating false = None
  /\ same_stable_identity primary corroborating = true.
Lemma identity_match_spec left right : match validateFloatingIPStableIdentityMatch left right with None => agree left right | Some e => foreign e end.
Proof.
  unfold validateFloatingIPStableIdentityMatch, agree. pose proof (sparse_authority_foreign left false). destruct (validateSparseFloatingIPAuthority left false); [eauto with inspace|].
  pose proof (stable_authority_foreign right false). destruct (validateFloatingIPStableAuthority right false); [eauto with inspace|]. by destruct (same_stable_identity left right).
Qed.
Lemma agree_address left right : agree left right -> fip_Address right = fip_Address left.
Proof. intros (_ & _ & H). unfold same_stable_identity in H. by bool_hyps. Qed.
Lemma agree_metadata left right : agree left right -> fip_BillingAccountID right = fip_BillingAccountID left /\ fip_Name right = fip_Name left.
Proof. intros (_ & _ & H). unfold same_stable_identity in H. by bool_hyps. Qed.
(** Only the sentinel stands for an open assignment. *)
Definition decided (e : goerr) : Prop := match e with Some e => Is e ErrSparseFloatingIPAssignment = false | None => True end.
Lemma response_uuid_decided v : decided (validateResponseUUID v).
Proof. unfold validateResponseUUID, validateUUID. by case_test. Qed.
Lemma base_identity_decided ip expected : decided (validateFloatingIPBaseIdentity ip expected).
Proof.
  unfold validateFloatingIPBaseIdentity, validatePublicIPv4. destruct (public_IPv4 _); [|done]. case_test; [done|]. case_test; [|done]. apply response_uuid_decided.
Qed.
Lemma sparse_authority_decided ip d : decided (validateSparseFloatingIPAuthority ip d).
Proof.
  unfold validateSparseFloatingIPAuthority, validateFloatingIPStableAuthority. pose proof (base_identity_decided ip "") as Hb.
  destruct (validateFloatingIPBaseIdentity ip ""); [done|]. by repeat (match goal with |- context [if ?b then _ else _] => destruct b end).
Qed.
Lemma open_assignment ip expected allow e :
  validateFloatingIPResponseIdentity ip expected allow = Some e -> Is e ErrSparseFloatingIPAssignment = true ->
  wholly_sparse ip = true /\ validateFloatingIPBaseIdentity ip expected = None.
Proof.
  unfold validateFloatingIPResponseIdentity. pose proof (base_identity_decided ip expected) as Hb.
  destruct (validateFloatingIPBaseIdentity ip expected) as [e'|]; [intros [= <-]; simpl in Hb; congruence|]. clear Hb. unfold wholly_sparse.
  destruct (assignedToPresent ip) eqn:Ep; simpl.
  - case_test; [case_test; [by intros [= <-]|done]|]. case_test; [by intros [= <-]|]. pose proof (response_uuid_decided (fip_AssignedTo ip)) as Hr.
    destruct (validateResponseUUID _) as [e'|]; [intros [= <-]; simpl in Hr; congruence|]. case_test; [by intros [= <-]|].
    case_test; [|done]. destruct (ParseAddr _) as [[a|z x]|]; [case_test; [by intros [= <-]|done]|by intros [= <-]..].
  - case_test; [by intros [= <-]|]. case_test; [done|]. case_test; [done|]. intros He Hi. split; [|done]. clear -Heqb. bool_hyps.
    by repeat match goal with H : ?x = _ |- _ => rewrite H; clear H end.
Qed.

(** The corroborated value is the second representation, which settles the assignment or is marked. *)
Lemma corroborate_spec primary corroborating :
  match corroborateSparseFloatingIP primary corroborating with
  | Ok ip => agree primary corroborating /\ identified ip (fip_Address primary)
      /\ (ip = corroborating \/ wholly_sparse corroborating = true /\ ip = corroborating <| assignmentCorroborated := true |>)
  | Err e => foreign e
  end.
Proof.
  unfold corroborateSparseFloatingIP. pose proof (identity_match_spec primary corroborating) as Hm. destruct (validateFloatingIPStableIdentityMatch _ _); [done|].
  pose proof (response_identity_spec corroborating (fip_Address primary) true) as Hr.
  destruct (validateFloatingIPResponseIdentity corroborating (fip_Address primary) true) as [e|] eqn:E; [|naive_solver].
  destruct (Is e ErrSparseFloatingIPAssignment) eqn:Ei; simpl; [|done]. destruct (open_assignment _ _ _ _ E Ei) as [Hw Hb]. split; [done|].
  pose proof (base_identity_spec corroborating (fip_Address primary)) as Hs. rewrite Hb in Hs. destruct Hs as [Hs1 Hs2]. split; [|by right].
  split_and!; [done..|]. intros _. by right; right; left.
Qed.
