(* ===== verification/ClientSafety.v ===== *)
(** * Every call keeps its promises

    For each of the client's calls: which requests it may send, and what its result stands for. A call
    sends its own request of the table first and at most once, and after it only reads; a mutation is
    sent only by a client that may and under a live context; a success comes from a whole response
    that the contract allows; an error that says nothing was sent is true; and an error that means
    absence comes from a whole answer to an exact read. *)

From S2P Require Import Prelude GoErrors ClientTypes ClientErrors CSIFence GoNet GoURL Prog GoJSON GoHTTP ClientJSON ClientResources ClientTransport ClientEndpoints ClientFloatingIP ClientWire ClientRoutes ClientCalls ClientPromises.
Import Client.

Section Safety.
Context `{JD : JSONDecoder} `{FT : FmtText} (c : Client) (ctx : option context).

(** ** Requests *)

Definition wire_path (path : string) : string := TrimRight_slash (URL_Path (baseURL c)) +:+ path.
Definition registered (rq : request) : Prop :=
  exists path k, rq_Path rq = wire_path path /\ endpointSuccessContract (rq_Method rq) path = Some k.
Definition call_guard (own : request) (x : hact) (h : list (event hres)) : Prop :=
  match x with
  | RoundTrip rq => registered rq /\ sendable c rq h /\ ((rq = own /\ requests h = []) \/ rq_Method rq = MethodGet)
  | _ => True
  end.

(** The request of a table entry whose route is checked. *)
Definition routed_wire (w : wire) : Prop := exists k, endpointSuccessContract (w_method w) (url_path (w_path w)) = Some k.
Lemma routed_registered w : routed_wire w -> registered (request_of c ctx w).
Proof. intros [k Hk]. by exists (url_path (w_path w)), k. Qed.

(** ** Outcomes *)

Definition contractual (w : wire) (h : list (event hres)) : Prop :=
  exists resp k, Ev (RoundTrip (request_of c ctx w)) (Ok resp) ∈ h /\ complete_body resp /\ redirect_location resp = None
    /\ endpointSuccessContract (w_method w) (url_path (w_path w)) = Some k /\ rs_Status resp ∈ ec_statuses k.

(** The exact read that an absence is about: the VM detail endpoint takes the UUID in the query. *)
Definition exact_request (a : APIError) : request :=
  the_request c ctx MethodGet (Path a) (if isExactVMDetailPath (Path a) then [("uuid", RequestedUUID a)] else []) None "".
Definition absent (e : error) (h : list (event hres)) : Prop :=
  exists a resp, AsAPI e = Some a /\ Ev (RoundTrip (exact_request a)) (Ok resp) ∈ h /\ rs_Status resp = StatusCode a /\ complete_body resp
    /\ authoritative_absence a.

Definition outcome {A} (w : wire) (good : A -> Prop) (r : result A) (h : list (event hres)) : Prop :=
  match r with
  | Ok v => contractual w h /\ good v
  | Err e => plain h -> (undispatched e = true -> mutations h = []) /\ (IsNotFound (Some e) = true -> absent e h)
  end.
Definition keeps {A} (w : wire) (good : A -> Prop) (p : prog hres (result A)) : Prop :=
  wp (call_guard (request_of c ctx w)) p [] (outcome w good).

Lemma not_absent e : AsAPI e = None -> IsNotFound (Some e) = false.
Proof. unfold IsNotFound. simpl. by intros ->. Qed.
Lemma not_exact e a : AsAPI e = Some a -> ExactLookup a = false -> IsNotFound (Some e) = false.
Proof.
  intros Ha Hx. rewrite (IsNotFound_api _ _ Ha). destruct (IsNotFoundAPI a) eqn:E; [|done].
  apply IsNotFoundAPI_ok in E as (_ & _ & E & _). congruence.
Qed.

(** A refusal before any request. *)
Lemma keeps_local {A} w (good : A -> Prop) e : AsAPI e = None -> keeps w good (Ret (Err e)).
Proof. intros He. apply wp_ret. intros _. split; [done|]. by rewrite not_absent. Qed.
Lemma keeps_refused {A} w (good : A -> Prop) e : foreign e -> keeps w good (Ret (Err e)).
Proof. intros [_ He]. by apply keeps_local. Qed.
Lemma keeps_undispatched {A} w (good : A -> Prop) e : foreign e -> keeps w good (Ret (Err (mutationNotDispatched e))).
Proof. intros [_ He]. apply keeps_local. simpl. by rewrite He. Qed.

Lemma done_refused w (good : unit -> Prop) e : foreign e -> keeps w good (done_or (Ret (Some e))).
Proof. apply keeps_refused. Qed.
Lemma done_undispatched w (good : unit -> Prop) e : foreign e -> keeps w good (done_or (Ret (Some (mutationNotDispatched e)))).
Proof. apply keeps_undispatched. Qed.

Lemma guard_silent own x h : silent x -> call_guard own x h.
Proof. by destruct x. Qed.
Lemma guard_own w new : routed_wire w -> requests new = [] -> sendable c (request_of c ctx w) (new ++ []) -> call_guard (request_of c ctx w) (RoundTrip (request_of c ctx w)) (new ++ []).
Proof. intros Hw Hn Hs. rewrite app_nil_r in *. split_and!; [by apply routed_registered|done|by left]. Qed.

(** A failed own exchange. *)
Lemma mutations_none h : requests h = [] -> mutations h = [].
Proof. unfold mutations. by intros ->. Qed.
Lemma failed_outcome {A} w (good : A -> Prop) path e new :
  failed_exchange (request_of c ctx w) path e new -> outcome w good (Err e) new.
Proof.
  intros Hf Hp. destruct (Hf Hp) as [Hu Ha]. split; [intros Hx; by apply mutations_none, Hu|].
  destruct (AsAPI e) as [a|] eqn:E; [|by rewrite not_absent]. destruct (Ha a eq_refl) as (resp & _ & _ & _ & _ & Hx & _). by rewrite (not_exact _ _ E Hx).
Qed.
Lemma foreign_outcome {A} w (good : A -> Prop) e h : foreign e -> outcome w good (Err e) h.
Proof. intros [Hu Ha] _. rewrite Hu, not_absent; done. Qed.

Lemma trusted_contractual {A} (C : codec A) w v new : trusted C (request_of c ctx w) (url_path (w_path w)) v new -> contractual w new.
Proof.
  intros (resp & new0 & k & j & -> & _ & Hl & Hc & Hk & Hs & _). exists resp, k. split_and!; try done. apply list_elem_of_here.
Qed.

(** A call that decodes one answer and checks it. *)
Lemma keeps_do {A B} (C : codec A) `{!Quiet C} w (good : B -> Prop) (f : result A -> result B) :
  routed_wire w -> (forall e, f (Err e) = Err e) -> (forall v, match f (Ok v) with Ok b => good b | Err e => foreign e end) ->
  keeps w good (let! r := doBody c C ctx (w_method w) (url_path (w_path w)) (w_query w) (w_body w) (w_type w) in Ret (f r)).
Proof.
  intros Hw He Hf. apply wp_bind. eapply wp_mono; [apply doBody_wp; [done|intros; by apply guard_silent|intros; by apply guard_own]|].
  intros r h' (new & -> & Hq & Hn). rewrite app_nil_r. apply wp_ret. destruct r as [v|e].
  - specialize (Hf v). destruct (f (Ok v)) as [b|e]; [|by apply foreign_outcome]. split; [|done]. by eapply trusted_contractual.
  - rewrite He. by eapply failed_outcome.
Qed.
(** A call that only reports whether it was done. *)
Lemma keeps_nil w : routed_wire w ->
  keeps w (fun _ => True) (done_or (doBodyNil c ctx (w_method w) (url_path (w_path w)) (w_query w) (w_body w) (w_type w))).
Proof.
  intros Hw. apply wp_bind. eapply wp_mono; [apply doBodyNil_wp; [intros; by apply guard_silent|intros; by apply guard_own]|].
  intros r h' (new & -> & Hq & Hn). rewrite app_nil_r. apply wp_ret. destruct r as [e|]; [by eapply failed_outcome|]. split; [|done].
  destruct Hn as (a & resp & new0 & -> & _ & Hl & Hr). apply readResponse_Ok in Hr as (Hc & _ & Hv). apply success_contract in Hv as (k & Hk & Hs & _).
  exists resp, k. split_and!; try done. apply list_elem_of_here.
Qed.

(** ** Reads *)

(** A read may run after anything: it sends registered GETs only, and its errors neither claim that a
    mutation was held back nor mean absence without an exact answer. *)
Definition read_fails (e : error) (new : list (event hres)) : Prop := plain new -> undispatched e = false /\ (IsNotFound (Some e) = true -> absent e new).
Definition reads {A} (Q : A -> list (event hres) -> Prop) (p : prog hres (result A)) : Prop :=
  forall own h, wp (call_guard own) p h (fun r h' => exists new, h' = new ++ h /\ mutations new = [] /\ match r with Ok v => Q v new | Err e => read_fails e new end).

Lemma plain_app h h' : plain (h ++ h') <-> plain h /\ plain h'.
Proof. apply Forall_app. Qed.
Lemma absent_wrap text e h : absent e h -> absent (Wrap text [e]) h.
Proof. intros (a & resp & Ha & H). exists a, resp. by rewrite AsAPI_wrap. Qed.
Lemma absent_more e new h : absent e h -> absent e (new ++ h).
Proof. intros (a & resp & Ha & Hin & H). exists a, resp. split_and!; try naive_solver. apply elem_of_app. by right. Qed.
Lemma absent_later e new h : absent e new -> absent e (new ++ h).
Proof. intros (a & resp & Ha & Hin & H). exists a, resp. split_and!; try naive_solver. apply elem_of_app. by left. Qed.
Lemma read_fails_foreign e new : foreign e -> read_fails e new.
Proof. intros [Hu Ha] _. by rewrite not_absent. Qed.
Lemma read_fails_wrap text e new : read_fails e new -> read_fails (Wrap text [e]) new.
Proof. intros H Hp. destruct (H Hp) as [Hu Ha]. rewrite undispatched_wrap, IsNotFound_wrap. split; [done|]. intros Hn. by apply absent_wrap, Ha. Qed.
Lemma read_fails_later e new old : read_fails e new -> read_fails e (new ++ old).
Proof. intros H [Hp _]%plain_app. destruct (H Hp) as [Hu Ha]. split; [done|]. intros Hn. by apply absent_later, Ha. Qed.

Lemma reads_ret {A} (Q : A -> list (event hres) -> Prop) r : match r with Ok v => Q v [] | Err e => foreign e end -> reads Q (Ret r).
Proof. intros H own h. apply wp_ret. exists []. split_and!; [done..|]. destruct r; [done|by apply read_fails_foreign]. Qed.
Lemma answers_bind {A B} (Q : A -> list (event hres) -> Prop) (R : B -> list (event hres) -> Prop) p (f : result A -> prog hres (result B)) :
  reads Q p -> (forall v new, Q v new -> reads (fun b new' => R b (new' ++ new)) (f (Ok v)))
  -> (forall e new, read_fails e new -> reads (fun b new' => R b (new' ++ new)) (f (Err e)) \/ exists e', f (Err e) = Ret (Err e') /\ read_fails e' new) ->
  reads R (let! r := p in f r).
Proof.
  intros Hp Hok Herr own h. apply wp_bind. eapply wp_mono; [apply Hp|]. intros r h' (new & -> & Hm & Hr).
  assert (reads (fun b new' => R b (new' ++ new)) (f r) \/ exists e', f r = Ret (Err e') /\ read_fails e' new) as [Hf|(e' & -> & He)].
  { destruct r as [v|e]; [left; by apply Hok|by apply Herr]. }
  - eapply wp_mono; [apply Hf|]. intros r' h' (new' & -> & Hm' & Hr'). exists (new' ++ new). rewrite app_assoc, mutations_app, Hm, Hm'. split_and!; [done..|].
    destruct r'; [done|by apply read_fails_later].
  - apply wp_ret. by exists new.
Qed.
Lemma reads_map {A B} (Q : A -> list (event hres) -> Prop) (R : B -> list (event hres) -> Prop) p (f : result A -> result B) :
  reads Q p -> (forall v new, Q v new -> match f (Ok v) with Ok b => R b new | Err e => foreign e end) ->
  (forall e new, read_fails e new -> match f (Err e) with Ok b => R b new | Err e => read_fails e new end) -> reads R (let! r := p in Ret (f r)).
Proof.
  intros Hp Hok Herr own h. apply wp_bind. eapply wp_mono; [apply Hp|]. intros r h' (new & -> & Hm & Hr). apply wp_ret. exists new. split_and!; [done..|].
  destruct r as [v|e]; [|by apply Herr]. specialize (Hok _ _ Hr). destruct (f (Ok v)); [done|by apply read_fails_foreign].
Qed.
Lemma answers_mono {A} (Q R : A -> list (event hres) -> Prop) p : reads Q p -> (forall v new, Q v new -> R v new) -> reads R p.
Proof.
  intros Hp H own h. eapply wp_mono; [apply Hp|]. intros r h' (new & -> & Hm & Hr). exists new. split_and!; [done..|]. destruct r; auto.
Qed.
(** A read as a call of its own. *)
Lemma reads_keeps {A} w (good : A -> Prop) p : reads (fun v new => contractual w new /\ good v) p -> keeps w good p.
Proof.
  intros Hp. eapply wp_mono; [apply Hp|]. intros r h' (new & -> & Hm & Hr). rewrite app_nil_r. destruct r as [v|e]; [done|].
  intros H. destruct (Hr H) as [Hu Ha]. split; [by rewrite Hu|done].
Qed.

(** One GET. *)
Lemma reads_do {A} (C : codec A) `{!Quiet C} w : routed_wire w -> w_method w = MethodGet ->
  forall own h, wp (call_guard own) (doBody c C ctx (w_method w) (url_path (w_path w)) (w_query w) (w_body w) (w_type w)) h
    (fun r h' => exists new, h' = new ++ h /\ mutations new = [] /\ match r with
      | Ok v => trusted C (request_of c ctx w) (url_path (w_path w)) v new
      | Err e => failed_exchange (request_of c ctx w) (url_path (w_path w)) e new end).
Proof.
  intros Hw Hg own h. assert (rq_Method (request_of c ctx w) = MethodGet) as Hm by done.
  eapply wp_mono; [apply doBody_wp; [done|intros; by apply guard_silent|]|].
  - intros new Hn Hs. split_and!; [by apply (routed_registered w)|done|by right].
  - intros r h' (new & -> & Hq & Hr). exists new. split_and!; [done| |done]. change (requests new = [] \/ requests new = [request_of c ctx w]) in Hq.
    unfold mutations. destruct Hq as [-> | ->]; [done|]. cbn [List.filter]. by rewrite Hm.
Qed.
Lemma failed_read w path e new : w_method w = MethodGet -> failed_exchange (request_of c ctx w) path e new -> read_fails e new.
Proof.
  intros Hg Hf Hp. destruct (Hf Hp) as [Hu Ha]. change (rq_Method (request_of c ctx w)) with (w_method w) in Hu. rewrite Hg in Hu. split.
  - destruct (undispatched e); [|done]. by destruct (Hu eq_refl).
  - destruct (AsAPI e) as [a|] eqn:E; [|by rewrite not_absent]. destruct (Ha a eq_refl) as (resp & _ & _ & _ & _ & Hx & _). by rewrite (not_exact _ _ E Hx).
Qed.
Lemma reads_one {A} (C : codec A) `{!Quiet C} w : routed_wire w -> w_method w = MethodGet ->
  reads (fun v new => trusted C (request_of c ctx w) (url_path (w_path w)) v new) (doBody c C ctx (w_method w) (url_path (w_path w)) (w_query w) (w_body w) (w_type w)).
Proof.
  intros Hw Hg own h. eapply wp_mono; [by apply reads_do|]. intros r h' (new & -> & Hm & Hr). exists new. split_and!; [done..|].
  destruct r; [done|]. by eapply failed_read.
Qed.

(** ** Exact reads *)

(** An error bound to a request is an absence only as an answer to exactly that request. *)
Lemma bound_read w f e new :
  w_method w = MethodGet -> failed_exchange (request_of c ctx w) (url_path (w_path w)) e new ->
  (forall a, Path a = url_path (w_path w) -> RequestedAddress a = "" -> Path (f a) = Path a /\ StatusCode (f a) = StatusCode a
    /\ ResponseBodyIncomplete (f a) = ResponseBodyIncomplete a /\ ResponseBodyMalformed (f a) = ResponseBodyMalformed a
    /\ (IsNotFoundAPI (f a) = true -> exact_request (f a) = request_of c ctx w)) ->
  read_fails (bindAPI f e) new.
Proof.
  intros Hg Hf Hb Hp. destruct (failed_read w _ _ _ Hg Hf Hp) as [Hu _]. split; [by apply bindAPI_undispatched|].
  unfold IsNotFound, errAsAPI. rewrite bindAPI_AsAPI. destruct (AsAPI e) as [a|] eqn:E; [|done]. cbn [option_map]. intros Hn.
  destruct (Hf Hp) as [_ Ha]. destruct (Ha a E) as (resp & Hin & Hst & Hm & Hpa & Hx & Had & Hco). destruct (Hb a Hpa Had) as (H1 & H2 & H3 & H4 & H5).
  pose proof (IsNotFoundAPI_ok _ Hn) as Hok. exists (f a), resp. rewrite H5 by done. split_and!; try done.
  - by rewrite bindAPI_AsAPI, E.
  - by rewrite H2.
  - destruct Hok as (Hi & Hma & _ & _ & _ & Hs). rewrite H2 in Hs. apply Hco; [congruence|congruence|]. naive_solver.
Qed.

Definition exact_uuid (uuid : string) (a : APIError) : APIError :=
  Build_APIError (StatusCode a) (Method a) (Path a) (Message a) (Retryable a) (CorrelationID a) (ResponseBodyIncomplete a) (ResponseBodyMalformed a) true uuid (RequestedAddress a).
Definition exact_address (address : string) (a : APIError) : APIError :=
  Build_APIError (StatusCode a) (Method a) (Path a) (Message a) (Retryable a) (CorrelationID a) (ResponseBodyIncomplete a) (ResponseBodyMalformed a) true (RequestedUUID a) address.

(** The request of an exact read: the UUID in the query of the VM detail path, or in the path. *)
Definition exact_wire (uuid : string) (w : wire) : Prop :=
  w_method w = MethodGet /\ w_body w = None /\ w_type w = ""
  /\ w_query w = (if isExactVMDetailPath (url_path (w_path w)) then [("uuid", uuid)] else []).
Lemma reads_exact {A} (C : codec A) `{!Quiet C} w uuid (uuid_of : A -> string) : routed_wire w -> exact_wire uuid w ->
  reads (fun v new => contractual w new /\ EqualFold (uuid_of v) uuid = true)
    (let! r := doBody c C ctx (w_method w) (url_path (w_path w)) (w_query w) (w_body w) (w_type w) in Ret (exact_read r uuid_of uuid)).
Proof.
  intros Hw (Hg & Hb & Ht & Hq) own h. apply wp_bind. eapply wp_mono; [by apply reads_do|]. intros r h' (new & -> & Hm & Hr). apply wp_ret. exists new. split_and!; [done..|].
  destruct r as [v|e]; cbn [exact_read].
  - destruct (EqualFold (uuid_of v) uuid) eqn:E; [|by apply read_fails_foreign]. split; [by eapply trusted_contractual|done].
  - apply (bound_read w (exact_uuid uuid)); [done..|]. intros a Hp Ha. split_and!; try done. intros _. unfold exact_request, request_of.
    cbn [Path RequestedUUID exact_uuid]. by rewrite Hp, Hg, Hb, Ht, Hq.
Qed.
End Safety.

(** ** The calls on VMs, disks, networks, firewalls and load balancers *)

(** The segments of a route, from the checks in the context. *)
Ltac segments :=
  repeat (apply Forall_cons_2; [cbn [seg_ok]; first [assumption | done | split_and!; [vm_compute; reflexivity|done..]]|]); apply Forall_nil_2.
Ltac route := apply has_route_contract; [vm_compute; reflexivity|segments].
Ltac path_checked :=
  match goal with
  | |- context [match locationPath ?l ?r with _ => _ end] =>
      pose proof (locationPath_spec l r); destruct (locationPath l r); [match goal with H : _ /\ _ = _ |- _ => destruct H as [? ->] end|]
  end.
Ltac refused := solve [by apply keeps_refused|by apply done_refused|by apply keeps_undispatched|by apply done_undispatched].
(** The local checks of a call: each refuses without a request. *)
Ltac local_checks :=
  repeat match goal with
  | |- context [match validateUUID ?v with _ => _ end] => pose proof (validateUUID_spec v); destruct (validateUUID v); [refused|]
  | |- context [match validatePublicIPv4 ?v with _ => _ end] => pose proof (validatePublicIPv4_spec v); destruct (validatePublicIPv4 v); [refused|]
  | |- _ => path_checked; [|refused]
  end.

Section Calls.
Context `{JD : JSONDecoder} `{FT : FmtText} (c : Client) (ctx : option context).

(** What the value of a successful call satisfies. *)
Definition promised (x : sdk_call) : sdk_result x -> Prop :=
  match x with
  | Do_ListLocations => fun l => distinct Location_Slug l /\ Forall (fun y => locationPattern (Location_Slug y) = true) l
  | Do_ListHostPools _ => by_uuid HostPool_UUID
  | Do_ListVMs _ => by_uuid VM_UUID
  | Do_GetVM _ u => fun v => EqualFold (VM_UUID v) u = true
  | Do_CreateVM _ _ => has_uuid VM_UUID
  | Do_UpdateVMCompute _ u cpu ram => fun v => EqualFold (VM_UUID v) u = true /\ VM_VCPU v = cpu /\ VM_MemoryMiB v = ram
  | Do_ListDisks _ => by_uuid Disk_UUID
  | Do_GetDisk _ d => fun v => EqualFold (Disk_UUID v) d = true
  | Do_CreateDisk _ _ => has_uuid Disk_UUID
  | Do_AttachDisk _ _ d => fun row => EqualFold (VMStorage_UUID row) d = true
  | Do_ResizeAttachedDisk _ _ d n => fun row => EqualFold (VMStorage_UUID row) d = true /\ n <= VMStorage_SizeGiB row
  | Do_GetNetwork _ n => fun v => EqualFold (Network_UUID v) n = true
  | Do_ListNetworks _ => by_uuid Network_UUID
  | Do_ListVMImages => distinct (fun image => ToLower (VMImage_OSName image))
  | Do_ListFirewalls _ => by_uuid fw_UUID
  | Do_GetFirewall _ f | Do_UpdateFirewall _ f _ => fun v => EqualFold (fw_UUID v) f = true
  | Do_CreateFirewall _ _ => has_uuid fw_UUID
  | Do_ListLoadBalancers _ => by_uuid LB_UUID
  | Do_GetLoadBalancer _ b => fun v => EqualFold (LB_UUID v) b = true
  | Do_CreateLoadBalancer _ _ => has_uuid LB_UUID
  | Do_AddLoadBalancerTarget _ _ v => fun t => EqualFold (Target_UUID t) v = true /\ Target_Type t = "vm"
  | Do_AddLoadBalancerRule _ _ r => fun g => Rule_SourcePort g = Rule_SourcePort r /\ Rule_TargetPort g = Rule_TargetPort r
  | Do_ListFloatingIPs _ _ => fun l => distinct fip_Address l /\ Forall (fun ip => identified ip "") l
  | Do_GetFloatingIP _ a | Do_UpdateFloatingIP _ a _ => fun ip => identified ip a
  | Do_CreateFloatingIP _ i => fun ip => identified ip "" /\ fip_BillingAccountID ip = CreateFIP_BillingAccountID i /\ fip_Name ip = CreateFIP_Name i
  | Do_AssignFloatingIP _ a r t => fun ip => identified ip a /\ EqualFold (fip_AssignedTo ip) r = true /\ fip_AssignedToResourceType ip = t
  | Do_UnassignFloatingIP _ a => fun ip => identified ip a /\ unassigned ip = true
  | _ => fun _ => True
  end.
Definition call_keeps (x : sdk_call) : Prop := keeps c ctx (wire_of x) (promised x) (sdk_run c ctx x).

(** The lists. *)
Lemma keeps_list {A} (C : codec A) `{!Quiet C} w (identity : A -> result string) key ok :
  routed_wire w -> (forall x, match identity x with Ok k => k = key x /\ ok x | Err e => foreign e end) ->
  keeps c ctx w (fun l => distinct key l /\ Forall ok l)
    (let! r := doBody c (slice_codec C) ctx (w_method w) (url_path (w_path w)) (w_query w) (w_body w) (w_type w) in Ret (validatedListResponse r identity)).
Proof. intros Hw Hi. apply (keeps_do c ctx (slice_codec C) w); [done..|]. intros v. by apply validatedListResponse_spec. Qed.

Lemma keeps_by_uuid {A} (C : codec A) `{!Quiet C} w (uuid : A -> string) (identity : A -> result string) :
  routed_wire w -> (forall x, match identity x with Ok k => k = ToLower (uuid x) /\ uuidPattern (uuid x) = true | Err e => foreign e end) ->
  keeps c ctx w (by_uuid uuid)
    (let! r := doBody c (slice_codec C) ctx (w_method w) (url_path (w_path w)) (w_query w) (w_body w) (w_type w) in Ret (validatedListResponse r identity)).
Proof. intros Hw Hi. by apply keeps_list. Qed.

Lemma ListLocations_keeps : call_keeps Do_ListLocations.
Proof. apply (keeps_list location_codec (wire_of Do_ListLocations)); [route|]. intros x. by case_test; bool_hyps. Qed.
Lemma ListHostPools_keeps l : call_keeps (Do_ListHostPools l).
Proof. unfold call_keeps, sdk_run, ListHostPools. local_checks. refine (keeps_by_uuid hostPool_codec (wire_of (Do_ListHostPools l)) HostPool_UUID _ _ _); [route|]. intros x. apply uuid_identity_spec. Qed.
Lemma ListVMs_keeps l : call_keeps (Do_ListVMs l).
Proof. unfold call_keeps, sdk_run, ListVMs. local_checks. refine (keeps_by_uuid vm_codec (wire_of (Do_ListVMs l)) VM_UUID _ _ _); [route|]. apply vm_identity_spec. Qed.
Lemma ListDisks_keeps l : call_keeps (Do_ListDisks l).
Proof. unfold call_keeps, sdk_run, ListDisks. local_checks. refine (keeps_by_uuid disk_codec (wire_of (Do_ListDisks l)) Disk_UUID _ _ _); [route|]. intros x. apply uuid_identity_spec. Qed.
Lemma ListNetworks_keeps l : call_keeps (Do_ListNetworks l).
Proof. unfold call_keeps, sdk_run, ListNetworks. local_checks. refine (keeps_by_uuid network_codec (wire_of (Do_ListNetworks l)) Network_UUID _ _ _); [route|]. intros x. apply uuid_identity_spec. Qed.
Lemma ListFirewalls_keeps l : call_keeps (Do_ListFirewalls l).
Proof. unfold call_keeps, sdk_run, ListFirewalls. local_checks. refine (keeps_by_uuid firewall_codec (wire_of (Do_ListFirewalls l)) fw_UUID _ _ _); [route|]. apply firewall_identity_spec. Qed.
Lemma ListLoadBalancers_keeps l : call_keeps (Do_ListLoadBalancers l).
Proof. unfold call_keeps, sdk_run, ListLoadBalancers. local_checks. refine (keeps_by_uuid loadBalancer_codec (wire_of (Do_ListLoadBalancers l)) LB_UUID _ _ _); [route|]. apply loadBalancer_identity_spec. Qed.
Lemma ListVMImages_keeps : call_keeps Do_ListVMImages.
Proof.
  eapply wp_mono; [apply (keeps_list vmImage_codec (wire_of Do_ListVMImages) _ (fun image => ToLower (VMImage_OSName image)) (fun image => VMImage_OSName image <> "")); [route|]; intros x; apply required_identity_spec|].
  intros [v|e] h; [|done]. intros [Hc [Hd _]]. by split.
Qed.

(** The exact reads. *)
Lemma vm_detail l : locationPattern l = true -> isExactVMDetailPath (url_path (vm_path l [])) = true.
Proof. intros Hl. unfold isExactVMDetailPath. rewrite split_url_path; [|done|segments]. simpl. by rewrite Hl. Qed.
Lemma not_vm_detail segments : Forall seg_ok segments -> List.length segments = 6%nat -> isExactVMDetailPath (url_path segments) = false.
Proof.
  intros Hs Hl. unfold isExactVMDetailPath. rewrite split_url_path; [|by destruct segments|done].
  by destruct segments as [|? [|? [|? [|? [|? [|? [|]]]]]]].
Qed.
Lemma keeps_exact {A} (C : codec A) `{!Quiet C} w uuid (uuid_of : A -> string) : routed_wire w -> exact_wire uuid w ->
  keeps c ctx w (fun v => EqualFold (uuid_of v) uuid = true)
    (let! r := doBody c C ctx (w_method w) (url_path (w_path w)) (w_query w) (w_body w) (w_type w) in Ret (exact_read r uuid_of uuid)).
Proof. intros Hw He. by apply reads_keeps, reads_exact. Qed.

Lemma GetVM_keeps l u : call_keeps (Do_GetVM l u).
Proof.
  unfold call_keeps, sdk_run, GetVM. local_checks. refine (keeps_exact vm_codec (wire_of (Do_GetVM l u)) u VM_UUID _ _); [route|].
  split_and!; [done..|]. change (w_path (wire_of (Do_GetVM l u))) with (vm_path l []). by rewrite vm_detail.
Qed.
Lemma GetDisk_keeps l d : call_keeps (Do_GetDisk l d).
Proof.
  unfold call_keeps, sdk_run, GetDisk. local_checks. refine (keeps_exact disk_codec (wire_of (Do_GetDisk l d)) d Disk_UUID _ _); [route|].
  split_and!; [done..|]. by rewrite not_vm_detail; [|segments|].
Qed.
Lemma GetNetwork_keeps l n : call_keeps (Do_GetNetwork l n).
Proof.
  unfold call_keeps, sdk_run, GetNetwork. local_checks. refine (keeps_exact network_codec (wire_of (Do_GetNetwork l n)) n Network_UUID _ _); [route|].
  split_and!; [done..|]. by rewrite not_vm_detail; [|segments|].
Qed.
Lemma GetLoadBalancer_keeps l b : call_keeps (Do_GetLoadBalancer l b).
Proof.
  unfold call_keeps, sdk_run, GetLoadBalancer. local_checks. refine (keeps_exact loadBalancer_codec (wire_of (Do_GetLoadBalancer l b)) b LB_UUID _ _); [route|].
  split_and!; [done..|]. by rewrite not_vm_detail; [|segments|].
Qed.
(** A firewall that the list lacks is not absent. *)
Lemma GetFirewall_keeps l f : call_keeps (Do_GetFirewall l f).
Proof.
  unfold call_keeps, sdk_run, GetFirewall. local_checks. apply wp_bind. eapply wp_mono; [apply (ListFirewalls_keeps l)|].
  intros [items|e] h; [|done]. intros [Hc _]. apply wp_ret. destruct (List.find _ items) as [x|] eqn:E.
  - split; [exact Hc|]. by apply find_some in E as [_ E].
  - intros _. by split.
Qed.

(** The mutations. *)
Lemma keeps_checked {A} (C : codec A) `{!Quiet C} w (test : A -> goerr) (good : A -> Prop) :
  routed_wire w -> (forall v, match test v with None => good v | Some e => foreign e end) ->
  keeps c ctx w good (let! r := doBody c C ctx (w_method w) (url_path (w_path w)) (w_query w) (w_body w) (w_type w) in Ret (checked r test)).
Proof. intros Hw Ht. apply (keeps_do c ctx C w); [done..|]. intros v. specialize (Ht v). unfold checked. by destruct (test v). Qed.

Lemma createVM_form_foreign i e : createVM_form i = Err e -> foreign e.
Proof.
  unfold createVM_form. set (form := setOptional _ "network_uuid" _). destruct (if CreateVM_CloudInit i == "" then _ else _) as [|ch text]; simpl; [done|].
  destruct (parse_json _) as [[]|]; intros [= <-]; done.
Qed.
Lemma CreateVM_keeps l i : call_keeps (Do_CreateVM l i).
Proof.
  unfold call_keeps, sdk_run, CreateVM. destruct (createVM_check i) as [e|] eqn:Ec; [apply keeps_refused; unfold createVM_check in Ec; repeat (case_test_in Ec; [by injection Ec as <-|]); done|].
  local_checks. destruct (createVM_form i) as [form|e] eqn:E; [|by apply keeps_refused, (createVM_form_foreign i)].
  assert (wire_of (Do_CreateVM l i) = send_form MethodPost (vm_path l []) form) as -> by (simpl; by rewrite E).
  refine (keeps_checked vm_codec (send_form MethodPost (vm_path l []) form) _ (has_uuid VM_UUID) _ _); [route|]. intros v. apply validateResponseUUID_spec.
Qed.
Lemma DeleteVM_keeps l u : call_keeps (Do_DeleteVM l u).
Proof. unfold call_keeps, sdk_run, DeleteVM. local_checks. refine (keeps_nil c ctx (wire_of (Do_DeleteVM l u)) _). route. Qed.
Lemma StopVM_keeps l u : call_keeps (Do_StopVM l u).
Proof. unfold call_keeps, sdk_run, StopVM, vmPower. local_checks. refine (keeps_nil c ctx (wire_of (Do_StopVM l u)) _). route. Qed.
Lemma StartVM_keeps l u : call_keeps (Do_StartVM l u).
Proof. unfold call_keeps, sdk_run, StartVM, vmPower. local_checks. refine (keeps_nil c ctx (wire_of (Do_StartVM l u)) _). route. Qed.
Lemma UpdateVMCompute_keeps l u cpu ram : call_keeps (Do_UpdateVMCompute l u cpu ram).
Proof.
  unfold call_keeps, sdk_run, UpdateVMCompute. case_test; [by apply keeps_refused|]. local_checks.
  refine (keeps_checked vm_codec (wire_of (Do_UpdateVMCompute l u cpu ram)) _ _ _ _); [route|]. intros v.
  pose proof (validateExpectedResponseUUID_spec (VM_UUID v) u) as He. destruct (validateExpectedResponseUUID _ _); [done|]. case_test; [done|]. bool_hyps. naive_solver.
Qed.

Lemma createDisk_check_foreign i e : createDisk_check i = Err e -> foreign e.
Proof. unfold createDisk_check. intros H. repeat (case_test_in H; try (by injection H as <-)); done. Qed.
Lemma CreateDisk_keeps l i : call_keeps (Do_CreateDisk l i).
Proof.
  unfold call_keeps, sdk_run, CreateDisk. destruct (createDisk_check i) as [t|e] eqn:E; [|by apply keeps_refused, (createDisk_check_foreign i)]. local_checks.
  assert (wire_of (Do_CreateDisk l i) = send_form MethodPost (disks_path l []) (createDisk_form i t)) as -> by (simpl; by rewrite E).
  refine (keeps_checked disk_codec (send_form MethodPost (disks_path l []) (createDisk_form i t)) _ (has_uuid Disk_UUID) _ _); [route|].
  intros v. apply validateResponseUUID_spec.
Qed.
Lemma DeleteDisk_keeps l d : call_keeps (Do_DeleteDisk l d).
Proof. unfold call_keeps, sdk_run, DeleteDisk. local_checks. refine (keeps_nil c ctx (wire_of (Do_DeleteDisk l d)) _). route. Qed.
Lemma vm_disk_path_spec l v d r :
  match vm_disk_path l v d r with
  | Ok p => locationPattern l = true /\ uuidPattern v = true /\ uuidPattern d = true /\ p = "/v1/" +:+ l +:+ "/" +:+ TrimLeft_slash r
  | Err e => foreign e
  end.
Proof.
  unfold vm_disk_path. pose proof (validateUUID_spec v). destruct (validateUUID v); [done|]. pose proof (validateUUID_spec d). destruct (validateUUID d); [done|].
  pose proof (locationPath_spec l r). destruct (locationPath l r); naive_solver.
Qed.
Ltac disk_path v d r := match goal with |- context [vm_disk_path ?l v d r] =>
  pose proof (vm_disk_path_spec l v d r) as Hp; destruct (vm_disk_path l v d r); [destruct Hp as (? & ? & ? & ->)|refused] end.
Lemma AttachDisk_keeps l v d : call_keeps (Do_AttachDisk l v d).
Proof.
  unfold call_keeps, sdk_run, AttachDisk. disk_path v d "user-resource/vm/storage/attach".
  refine (keeps_checked vmStorage_codec (wire_of (Do_AttachDisk l v d)) _ _ _ _); [route|]. intros row.
  pose proof (validateExpectedResponseUUID_spec (VMStorage_UUID row) d). destruct (validateExpectedResponseUUID _ _); naive_solver.
Qed.
Lemma ResizeAttachedDisk_keeps l v d n : call_keeps (Do_ResizeAttachedDisk l v d n).
Proof.
  unfold call_keeps, sdk_run, ResizeAttachedDisk. case_test; [by apply keeps_refused|]. disk_path v d "user-resource/vm/storage".
  refine (keeps_checked vmStorage_codec (wire_of (Do_ResizeAttachedDisk l v d n)) _ _ _ _); [route|]. intros row.
  pose proof (validateExpectedResponseUUID_spec (VMStorage_UUID row) d). destruct (validateExpectedResponseUUID _ _); [done|]. case_test; [done|]. bool_hyps. naive_solver.
Qed.
(** A call that decodes an answer and reports only whether it was done. *)
Lemma keeps_done {A} (C : codec A) `{!Quiet C} w (f : result A -> goerr) :
  routed_wire w -> (forall e, f (Err e) = Some e) -> (forall v, foreign_opt (f (Ok v))) ->
  keeps c ctx w (fun _ => True) (done_or (let! r := doBody c C ctx (w_method w) (url_path (w_path w)) (w_query w) (w_body w) (w_type w) in Ret (f r))).
Proof.
  intros Hw He Hf. apply wp_bind, wp_bind. apply wp_bind_inv with (f := fun r => Ret (match f r with None => Ok tt | Some e => Err e end)).
  apply (keeps_do c ctx C w _ (fun r => match f r with None => Ok tt | Some e => Err e end)); [done|intros e; by rewrite He|].
  intros v. specialize (Hf v). by destruct (f (Ok v)).
Qed.
Lemma DetachDisk_keeps l v d : call_keeps (Do_DetachDisk l v d).
Proof.
  unfold call_keeps, sdk_run, DetachDisk. disk_path v d "user-resource/vm/storage/detach".
  refine (keeps_done detachResult_codec (wire_of (Do_DetachDisk l v d)) _ _ _ _); [route|done|]. intros r. simpl. by case_test.
Qed.

(** Firewalls. *)
Lemma first_error_foreign {A} (test : A -> goerr) l : (forall x, foreign_opt (test x)) -> foreign_opt (first_error test l).
Proof. intros Ht. induction l as [|x l IH]; simpl; [done|]. specialize (Ht x). by destruct (test x). Qed.
Lemma validateFirewallRule_foreign rule : foreign_opt (validateFirewallRule rule).
Proof.
  unfold validateFirewallRule. repeat (match goal with |- context [if ?b then _ else _] => destruct b; [done|] end).
  destruct (fr_PortStart rule), (fr_PortEnd rule); try done. by case_test.
Qed.
Lemma createFirewallPath_spec l i :
  match createFirewallPath l i with Ok p => locationPattern l = true /\ p = "/v1/" +:+ l +:+ "/network/firewalls" | Err e => foreign e end.
Proof.
  unfold createFirewallPath. case_test; [done|]. destruct (CreateFW_Rules i) as [|r rs]; [done|].
  pose proof (first_error_foreign validateFirewallRule (r :: rs) validateFirewallRule_foreign) as Hf. destruct (first_error _ _); [done|].
  apply (locationPath_spec l "network/firewalls").
Qed.
Lemma updateFirewallPath_spec l f i :
  match updateFirewallPath l f i with
  | Ok p => locationPattern l = true /\ uuidPattern f = true /\ p = "/v1/" +:+ l +:+ "/network/firewalls/" +:+ f
  | Err e => foreign e
  end.
Proof.
  unfold updateFirewallPath. pose proof (validateUUID_spec f). destruct (validateUUID f); [done|]. case_test; [done|]. case_test; [done|].
  match goal with |- context [first_error ?t ?l] => assert (foreign_opt (first_error t l)) as Hf; [apply first_error_foreign|destruct (first_error t l); [done|]] end.
  - intros rule. pose proof (validateUUID_foreign (fr_UUID rule)) as Hu. destruct (fr_UUID rule != ""); [destruct (validateUUID (fr_UUID rule)); [done|]|]; apply validateFirewallRule_foreign.
  - pose proof (locationPath_spec l ("network/firewalls/" +:+ f)) as Hl. destruct (locationPath l _); naive_solver.
Qed.
Lemma firewallVMPath_spec l f v :
  match firewallVMPath l f v with
  | Ok p => locationPattern l = true /\ uuidPattern f = true /\ uuidPattern v = true /\ p = "/v1/" +:+ l +:+ "/network/firewalls/" +:+ f +:+ "/vms"
  | Err e => foreign e
  end.
Proof.
  unfold firewallVMPath. pose proof (validateUUID_spec f). destruct (validateUUID f); [done|]. pose proof (validateUUID_spec v). destruct (validateUUID v); [done|].
  pose proof (locationPath_spec l ("network/firewalls/" +:+ f +:+ "/vms")) as Hl. destruct (locationPath l _); naive_solver.
Qed.
Lemma CreateFirewall_keeps l i : call_keeps (Do_CreateFirewall l i).
Proof.
  unfold call_keeps, sdk_run, CreateFirewall. pose proof (createFirewallPath_spec l i) as Hp. destruct (createFirewallPath l i); [destruct Hp as [? ->]|refused].
  refine (keeps_checked firewall_codec (wire_of (Do_CreateFirewall l i)) _ (has_uuid fw_UUID) _ _); [route|]. intros v. apply validateResponseUUID_spec.
Qed.
Lemma UpdateFirewall_keeps l f i : call_keeps (Do_UpdateFirewall l f i).
Proof.
  unfold call_keeps, sdk_run, UpdateFirewall. pose proof (updateFirewallPath_spec l f i) as Hp. destruct (updateFirewallPath l f i); [destruct Hp as (? & ? & ->)|refused].
  refine (keeps_checked firewall_codec (wire_of (Do_UpdateFirewall l f i)) _ _ _ _); [route|]. intros v.
  pose proof (validateExpectedResponseUUID_spec (fw_UUID v) f). destruct (validateExpectedResponseUUID _ _); naive_solver.
Qed.
Lemma DeleteFirewall_keeps l f : call_keeps (Do_DeleteFirewall l f).
Proof. unfold call_keeps, sdk_run, DeleteFirewall. local_checks. refine (keeps_nil c ctx (wire_of (Do_DeleteFirewall l f)) _). route. Qed.
Lemma assignment_rows_foreign v seen n rows : foreign_opt (assignment_rows v seen n rows).
Proof.
  revert seen n. induction rows as [|row rows IH]; intros seen n; simpl; [by case_test|]. case_test; [done|]. pose proof (validateResponseUUID_spec (fx_ResourceUUID row)).
  destruct (validateResponseUUID _); [simpl; eauto with inspace|]. case_test; [done|]. apply IH.
Qed.
Lemma AssignFirewallToVM_keeps l f v : call_keeps (Do_AssignFirewallToVM l f v).
Proof.
  unfold call_keeps, sdk_run, AssignFirewallToVM. pose proof (firewallVMPath_spec l f v) as Hp. destruct (firewallVMPath l f v); [destruct Hp as (? & ? & ? & ->)|refused].
  refine (keeps_done (slice_codec firewallResource_codec) (wire_of (Do_AssignFirewallToVM l f v)) _ _ _ _); [route|done|]. intros rows. apply assignment_rows_foreign.
Qed.
Lemma UnassignFirewallFromVM_keeps l f v : call_keeps (Do_UnassignFirewallFromVM l f v).
Proof.
  unfold call_keeps, sdk_run, UnassignFirewallFromVM. pose proof (firewallVMPath_spec l f v) as Hp. destruct (firewallVMPath l f v); [destruct Hp as (? & ? & ? & ->)|refused].
  refine (keeps_nil c ctx (wire_of (Do_UnassignFirewallFromVM l f v)) _). route.
Qed.

(** Load balancers. *)
Lemma validate_rules_foreign seen rules : foreign_opt (validate_rules seen rules).
Proof. revert seen. induction rules as [|r rules IH]; intros seen; simpl; [done|]. case_test; [done|]. case_test; [done|]. case_test; [done|apply IH]. Qed.
Lemma createLoadBalancerPath_spec l i :
  match createLoadBalancerPath l i with Ok p => locationPattern l = true /\ p = "/v1/" +:+ l +:+ "/network/load_balancers" | Err e => foreign e end.
Proof.
  unfold createLoadBalancerPath. case_test; [done|]. pose proof (validateUUID_spec (CreateLB_NetworkUUID i)). destruct (validateUUID _); [done|].
  pose proof (validate_rules_foreign ∅ (CreateLB_Rules i)) as Hr. unfold validateRules. destruct (validate_rules ∅ (CreateLB_Rules i)); [done|].
  match goal with |- context [first_error ?t ?l] => assert (foreign_opt (first_error t l)) as Hf; [apply first_error_foreign|destruct (first_error t l); [done|]] end.
  - intros t. case_test; [done|]. apply validateUUID_foreign.
  - apply (locationPath_spec l "network/load_balancers").
Qed.
Lemma child_path_spec l b u r :
  match child_path l b u r with
  | Ok p => locationPattern l = true /\ uuidPattern b = true /\ uuidPattern u = true /\ p = "/v1/" +:+ l +:+ "/network/load_balancers/" +:+ b +:+ r
  | Err e => foreign e
  end.
Proof.
  unfold child_path. pose proof (validateUUID_spec b). destruct (validateUUID b); [done|]. pose proof (validateUUID_spec u). destruct (validateUUID u); [done|].
  pose proof (locationPath_spec l ("network/load_balancers/" +:+ b +:+ r)) as Hl. destruct (locationPath l _); naive_solver.
Qed.
Lemma addRulePath_spec l b rule :
  match addRulePath l b rule with
  | Ok p => locationPattern l = true /\ uuidPattern b = true /\ p = "/v1/" +:+ l +:+ "/network/load_balancers/" +:+ b +:+ "/forwarding_rules"
  | Err e => foreign e
  end.
Proof.
  unfold addRulePath. pose proof (validateUUID_spec b). destruct (validateUUID b); [done|]. pose proof (validate_rules_foreign ∅ [rule]). unfold validateRules.
  destruct (validate_rules ∅ [rule]); [done|]. pose proof (locationPath_spec l ("network/load_balancers/" +:+ b +:+ "/forwarding_rules")) as Hl. destruct (locationPath l _); naive_solver.
Qed.
Lemma CreateLoadBalancer_keeps l i : call_keeps (Do_CreateLoadBalancer l i).
Proof.
  unfold call_keeps, sdk_run, CreateLoadBalancer. pose proof (createLoadBalancerPath_spec l i) as Hp. destruct (createLoadBalancerPath l i); [destruct Hp as [? ->]|refused].
  refine (keeps_checked loadBalancer_codec (wire_of (Do_CreateLoadBalancer l i)) _ (has_uuid LB_UUID) _ _); [route|]. intros v. apply validateResponseUUID_spec.
Qed.
Lemma DeleteLoadBalancer_keeps l b : call_keeps (Do_DeleteLoadBalancer l b).
Proof. unfold call_keeps, sdk_run, DeleteLoadBalancer. local_checks. refine (keeps_nil c ctx (wire_of (Do_DeleteLoadBalancer l b)) _). route. Qed.
Lemma AddLoadBalancerTarget_keeps l b v : call_keeps (Do_AddLoadBalancerTarget l b v).
Proof.
  unfold call_keeps, sdk_run, AddLoadBalancerTarget. pose proof (child_path_spec l b v "/targets") as Hp. destruct (child_path l b v _); [destruct Hp as (? & ? & ? & ->)|refused].
  refine (keeps_checked loadBalancerTarget_codec (wire_of (Do_AddLoadBalancerTarget l b v)) _ _ _ _); [route|]. intros t.
  pose proof (validateExpectedResponseUUID_spec (Target_UUID t) v). destruct (validateExpectedResponseUUID _ _); [done|]. case_test; [done|]. bool_hyps. naive_solver.
Qed.
Lemma RemoveLoadBalancerTarget_keeps l b v : call_keeps (Do_RemoveLoadBalancerTarget l b v).
Proof.
  unfold call_keeps, sdk_run, RemoveLoadBalancerTarget. pose proof (child_path_spec l b v ("/targets/" +:+ v)) as Hp. destruct (child_path l b v _); [destruct Hp as (? & ? & ? & ->)|refused].
  refine (keeps_nil c ctx (wire_of (Do_RemoveLoadBalancerTarget l b v)) _). route.
Qed.
Lemma AddLoadBalancerRule_keeps l b r : call_keeps (Do_AddLoadBalancerRule l b r).
Proof.
  unfold call_keeps, sdk_run, AddLoadBalancerRule. pose proof (addRulePath_spec l b r) as Hp. destruct (addRulePath l b r); [destruct Hp as (? & ? & ->)|refused].
  refine (keeps_checked loadBalancerRule_codec (wire_of (Do_AddLoadBalancerRule l b r)) _ _ _ _); [route|]. intros g.
  assert (foreign_opt (if Rule_UUID g != "" then validateResponseUUID (Rule_UUID g) else None)) as Hu.
  { case_test; [|done]. pose proof (validateResponseUUID_spec (Rule_UUID g)). by destruct (validateResponseUUID _). }
  destruct (if Rule_UUID g != "" then _ else _); [done|]. match goal with |- context [if ?b || _ || _ then _ else _] => destruct b; [done|] end.
  match goal with |- context [if ?b then _ else _] => destruct b eqn:Eb; [done|] end. by bool_hyps.
Qed.
Lemma RemoveLoadBalancerRule_keeps l b r : call_keeps (Do_RemoveLoadBalancerRule l b r).
Proof.
  unfold call_keeps, sdk_run, RemoveLoadBalancerRule. pose proof (child_path_spec l b r ("/forwarding_rules/" +:+ r)) as Hp. destruct (child_path l b r _); [destruct Hp as (? & ? & ? & ->)|refused].
  refine (keeps_nil c ctx (wire_of (Do_RemoveLoadBalancerRule l b r)) _). route.
Qed.
End Calls.
