(* ===== verification/ClientFloatingSafety.v ===== *)
(** * Floating IPs: what an unassigned address rests on

    The reads and mutations of floating IPs keep the promises of every call. Beyond that, an address
    whose answer leaves out the assignment is reported as unassigned only when a second read through the
    other endpoint agrees with it on the whole stable identity, and no answer can claim that by itself. *)

From S2P Require Import Prelude GoErrors ClientTypes ClientErrors CSIFence GoNet GoURL Prog GoJSON GoHTTP ClientJSON ClientResources ClientTransport ClientEndpoints ClientFloatingIP ClientWire ClientRoutes ClientCalls ClientPromises ClientSafety.
Import Client.

(** ** Decoding never claims corroboration *)

Lemma struct_keeps {A B} (zero : A) fields (view : A -> B) old j v :
  Forall (fun f => forall x j y, jf_dec f x j = Ok y -> view y = view x) fields -> c_dec (struct_codec zero fields) old j = Ok v -> view v = view old.
Proof.
  intros Hf. rewrite Forall_forall in Hf. destruct j; simpl; try done; [by intros [= ->]|]. revert old.
  induction fields0 as [|[key x] r IH]; intros old; simpl; [by intros [= ->]|].
  destruct (struct_setter fields old key x) as [[y|e]|] eqn:E; [|done|by apply IH]. intros H. rewrite (IH _ H).
  unfold struct_setter in E. destruct (List.find _ fields) as [f|] eqn:Ef.
  - injection E as E. apply find_some in Ef as [Hin _]. apply list_elem_of_In in Hin. by eapply Hf.
  - destruct (List.find (fun f => EqualFold _ _) fields) as [f|] eqn:Ef'; [|done]. injection E as E.
    apply find_some in Ef' as [Hin _]. apply list_elem_of_In in Hin. by eapply Hf.
Qed.
Lemma field_keeps {A B V} name omit (C : codec B) (get : A -> B) `{!Put get} (view : A -> V) x j y :
  (forall b x, view (put get b x) = view x) -> jf_dec (jfield_of name omit C get) x j = Ok y -> view y = view x.
Proof. intros Hv. simpl. destruct (c_dec C _ _); [|done]. intros [= <-]. apply Hv. Qed.
Lemma UnmarshalJSON_plain j ip : UnmarshalJSON j = Ok ip -> assignmentCorroborated ip = false.
Proof.
  unfold UnmarshalJSON. destruct (c_dec floatingIPWithoutMethods zero_FloatingIP j) as [d|e] eqn:E; [|done].
  assert (assignmentCorroborated d = false) as Hd.
  { change false with (assignmentCorroborated zero_FloatingIP). eapply (struct_keeps _ _ assignmentCorroborated); [|exact E].
    repeat (apply Forall_cons_2; [intros ???; by apply field_keeps|]). apply Forall_nil_2. }
  case_test; [done|]. by intros [= <-].
Qed.
Lemma dec_list_plain l ips : dec_list floatingIP_codec l = Ok ips -> Forall (fun ip => assignmentCorroborated ip = false) ips.
Proof.
  revert ips. induction l as [|j l IH]; intros ips; simpl; [intros [= <-]; constructor|]. destruct (UnmarshalJSON j) eqn:E; [|done].
  destruct (dec_list floatingIP_codec l) as [r|]; [|done]. intros [= <-]. constructor; [by apply (UnmarshalJSON_plain j)|by apply IH].
Qed.
Lemma slice_plain j old ips : c_dec (slice_codec floatingIP_codec) old j = Ok (Some ips) -> Forall (fun ip => assignmentCorroborated ip = false) ips.
Proof.
  destruct j; simpl; try done. destruct (dec_list floatingIP_codec l) eqn:E; [|done]. intros [= <-]. by apply (dec_list_plain l).
Qed.

Section Floating.
Context `{JD : JSONDecoder} `{FT : FmtText} (c : Client) (ctx : option context).

(** The value is one that the API answered to this request. *)
Definition said {A} (C : codec A) (w : wire) (v : A) (h : list (event hres)) : Prop :=
  exists resp j, Ev (RoundTrip (request_of c ctx w)) (Ok resp) ∈ h /\ complete_body resp /\ parse_json (TrimSpace (rs_Body resp)) = Some j
    /\ unique_keys j = true /\ c_dec C (c_zero C) j = Ok v.
Lemma said_more {A} (C : codec A) w v new h : said C w v h -> said C w v (new ++ h).
Proof. intros (resp & j & Hin & H). exists resp, j. split; [apply elem_of_app; by right|done]. Qed.
Lemma said_later {A} (C : codec A) w v new h : said C w v new -> said C w v (new ++ h).
Proof. intros (resp & j & Hin & H). exists resp, j. split; [apply elem_of_app; by left|done]. Qed.
Lemma trusted_said {A} (C : codec A) w v new : trusted C (request_of c ctx w) (url_path (w_path w)) v new -> said C w v new /\ contractual c ctx w new.
Proof.
  intros H. split; [|by apply trusted_contractual in H]. destruct H as (resp & new0 & k & j & -> & _ & _ & Hc & _ & _ & _ & Hj & Hu & Hd).
  exists resp, j. split_and!; try done. apply list_elem_of_here.
Qed.
Lemma contractual_later w new h : contractual c ctx w new -> contractual c ctx w (new ++ h).
Proof. intros (resp & k & Hin & H). exists resp, k. split; [apply elem_of_app; by left|done]. Qed.
Lemma contractual_more w new h : contractual c ctx w h -> contractual c ctx w (new ++ h).
Proof. intros (resp & k & Hin & H). exists resp, k. split; [apply elem_of_app; by right|done]. Qed.

(** Both endpoints answered, both answers leave out the assignment, and they agree. *)
Definition corroborated (l : string) (ip : FloatingIP) (h : list (event hres)) : Prop :=
  exists exact filters rows row,
    said floatingIP_codec (wire_of (Do_GetFloatingIP l (fip_Address ip))) exact h
    /\ said (slice_codec floatingIP_codec) (wire_of (Do_ListFloatingIPs l filters)) (Some rows) h /\ row ∈ rows
    /\ wholly_sparse exact = true /\ wholly_sparse row = true
    /\ (agree exact row /\ ip = row <| assignmentCorroborated := true |> \/ agree row exact /\ ip = exact <| assignmentCorroborated := true |>).
Definition backed (l : string) (ip : FloatingIP) (h : list (event hres)) : Prop := assignmentCorroborated ip = true -> corroborated l ip h.
Lemma backed_more l ip new h : backed l ip h -> backed l ip (new ++ h).
Proof.
  intros Hb Ha. destruct (Hb Ha) as (e & f & rows & row & H1 & H2 & H). exists e, f, rows, row. split_and!; try apply said_more; naive_solver.
Qed.
Lemma backed_later l ip new h : backed l ip new -> backed l ip (new ++ h).
Proof.
  intros Hb Ha. destruct (Hb Ha) as (e & f & rows & row & H1 & H2 & H). exists e, f, rows, row. split_and!; try apply said_later; naive_solver.
Qed.

(** ** Raw reads *)

Lemma getFloatingIPRaw_reads l a :
  reads c ctx (fun ip new => said floatingIP_codec (wire_of (Do_GetFloatingIP l a)) ip new /\ contractual c ctx (wire_of (Do_GetFloatingIP l a)) new /\ a <> "")
    (getFloatingIPRaw c ctx l a).
Proof.
  unfold getFloatingIPRaw. pose proof (validatePublicIPv4_spec a) as Ha. destruct (validatePublicIPv4 a); [by apply reads_ret|]. path_checked; [|by apply reads_ret].
  set (w := wire_of (Do_GetFloatingIP l a)). assert (Forall seg_ok (w_path w)) as Hs by segments.
  assert (routed_wire w) as Hw by route. intros own h. apply wp_bind.
  eapply wp_mono; [exact (reads_do c ctx floatingIP_codec w Hw eq_refl own h)|]. intros r h' (new & -> & Hm & Hr). apply wp_ret. exists new. split_and!; [done..|].
  destruct r as [ip|e]; [apply trusted_said in Hr as [? ?]; split_and!; [done..|]; intros ->; by destruct Ha|]. apply (bound_read c ctx w (exact_address a)); [done|exact Hr|]. intros b Hp _. split_and!; try done. intros _.
  unfold exact_request, request_of. cbn [Path RequestedUUID exact_address]. rewrite Hp. by rewrite not_vm_detail.
Qed.
Lemma list_query_foreign f e : list_query f = Err e -> foreign e.
Proof.
  unfold list_query. destruct f as [f|]; [|done]. case_test; [|done]. pose proof (validateUUID_spec (Filter_VMUUID f)). destruct (validateUUID _); [by intros [= <-]|done].
Qed.
Lemma listFloatingIPsRaw_reads l f :
  reads c ctx (fun rows new => said (slice_codec floatingIP_codec) (wire_of (Do_ListFloatingIPs l f)) rows new /\ contractual c ctx (wire_of (Do_ListFloatingIPs l f)) new)
    (listFloatingIPsRaw c ctx l f).
Proof.
  unfold listFloatingIPsRaw. path_checked; [|by apply reads_ret]. destruct (list_query f) as [q|e] eqn:E; [|apply reads_ret; by apply (list_query_foreign f)].
  assert (wire_of (Do_ListFloatingIPs l f) = get (network_path l "ip_addresses" []) q) as -> by (simpl; by rewrite E).
  set (w := get (network_path l "ip_addresses" []) q). assert (routed_wire w) as Hw by route.
  eapply answers_mono; [exact (reads_one c ctx (slice_codec floatingIP_codec) w Hw eq_refl)|]. intros v new. apply trusted_said.
Qed.
Lemma collection_spec rows :
  match validateFloatingIPCollectionShape (Ok rows) with
  | Ok l => rows = Some l /\ distinct fip_Address l /\ Forall (fun ip => exists a, public_IPv4 (fip_Address ip) = Some a) l
  | Err e => foreign e
  end.
Proof.
  pose proof (validatedListResponse_spec floatingIP_identity fip_Address _ rows floatingIP_identity_spec) as H.
  unfold validateFloatingIPCollectionShape in *. destruct (validatedListResponse (Ok rows) floatingIP_identity) as [l|] eqn:E; [|done].
  split; [|done]. unfold validatedListResponse in E. destruct rows; [|done]. destruct (check_identities _ _ _); [done|]. by injection E as ->.
Qed.

(** ** Corroborated reads *)

(** The value is the second representation, or that marked as corroborated when it is sparse too. *)
Definition resolved (primary other ip : FloatingIP) : Prop :=
  agree primary other /\ identified ip (fip_Address primary)
  /\ (ip = other \/ wholly_sparse other = true /\ ip = other <| assignmentCorroborated := true |>).

Lemma resolveWithList_reads l exact :
  reads c ctx (fun ip new => exists f rows row, said (slice_codec floatingIP_codec) (wire_of (Do_ListFloatingIPs l f)) (Some rows) new /\ row ∈ rows /\ resolved exact row ip)
    (resolveSparseFloatingIPWithListRead c ctx l exact).
Proof.
  unfold resolveSparseFloatingIPWithListRead. pose proof (sparse_authority_foreign exact false) as Hs. destruct (validateSparseFloatingIPAuthority exact false); [by apply reads_ret|].
  set (f := Some (Build_FloatingIPFilters (fip_BillingAccountID exact) "")). eapply reads_map; [apply (listFloatingIPsRaw_reads l f)| |].
  - intros rows new [Hd _]. cbn beta. pose proof (collection_spec rows) as Hc. destruct (validateFloatingIPCollectionShape (Ok rows)) as [listed|e]; [|eauto with inspace].
    destruct Hc as (-> & _ & _). destruct (List.filter _ listed) as [|row [|]] eqn:Ef; [done| |done].
    assert (In row (List.filter (fun ip => fip_Address ip == fip_Address exact) listed)) as Hin by (rewrite Ef; by left). apply filter_In in Hin as [Hin _].
    pose proof (corroborate_spec exact row) as Hr. destruct (corroborateSparseFloatingIP exact row) as [ip|e]; [|done]. exists f, listed, row.
    split_and!; [done|by apply list_elem_of_In|done].
  - intros e new He. cbn. by apply read_fails_wrap.
Qed.
Lemma resolveWithExact_reads l listed :
  reads c ctx (fun ip new => exists exact, said floatingIP_codec (wire_of (Do_GetFloatingIP l (fip_Address listed))) exact new /\ resolved listed exact ip)
    (resolveSparseFloatingIPWithExactRead c ctx l listed).
Proof.
  unfold resolveSparseFloatingIPWithExactRead. pose proof (sparse_authority_foreign listed false) as Hs. destruct (validateSparseFloatingIPAuthority listed false); [by apply reads_ret|].
  eapply reads_map; [apply (getFloatingIPRaw_reads l (fip_Address listed))| |].
  - intros exact new [Hd _]. cbn beta. pose proof (corroborate_spec listed exact) as Hr. destruct (corroborateSparseFloatingIP listed exact) as [ip|e]; [|done]. by exists exact.
  - intros e new He. by apply read_fails_wrap.
Qed.

Lemma said_plain w ip h : said floatingIP_codec w ip h -> assignmentCorroborated ip = false.
Proof. intros (resp & j & _ & _ & _ & _ & Hd). by apply (UnmarshalJSON_plain j). Qed.
Lemma said_rows_plain w rows h : said (slice_codec floatingIP_codec) w (Some rows) h -> Forall (fun ip => assignmentCorroborated ip = false) rows.
Proof. intros (resp & j & _ & _ & _ & _ & Hd). by apply (slice_plain j (c_zero (slice_codec floatingIP_codec))). Qed.

Lemma GetFloatingIP_reads l a :
  reads c ctx (fun ip new => contractual c ctx (wire_of (Do_GetFloatingIP l a)) new /\ identified ip a /\ backed l ip new) (GetFloatingIP c ctx l a).
Proof.
  unfold GetFloatingIP. eapply answers_bind; [apply getFloatingIPRaw_reads| |].
  - intros exact new (Hd & Hc & Hne). pose proof (said_plain _ _ _ Hd) as Hp. pose proof (response_identity_spec exact a true) as Hr.
    destruct (validateFloatingIPResponseIdentity exact a true) as [e|] eqn:E.
    2: { apply reads_ret. split_and!; [by apply contractual_more|by apply Hr|]. intros H. congruence. }
    destruct (Is e ErrSparseFloatingIPAssignment) eqn:Ei; cbn [negb]; [|by apply reads_ret].
    destruct (open_assignment _ _ _ _ E Ei) as [Hw Hb]. pose proof (base_identity_spec exact a) as Hs. rewrite Hb in Hs. destruct Hs as [Ha Hea].
    eapply reads_map; [apply (resolveWithList_reads l exact)| |].
    + intros ip new' (f & rows & row & Hl & Hin & Hag & Hid & Hip). cbn beta iota. rewrite (Hea Hne) in Hid. split_and!; [by apply contractual_more|done|].
      pose proof (said_rows_plain _ _ _ Hl) as Hpl. rewrite Forall_forall in Hpl. pose proof (Hpl row Hin) as Hrow.
      destruct Hip as [-> | [Hws ->]]; [intros H; congruence|]. intros _. exists exact, f, rows, row. split_and!; [|by apply said_later|done..|by left].
      apply said_more. cbn [fip_Address put]. change (fip_Address (row <| assignmentCorroborated := true |>)) with (fip_Address row). by rewrite (agree_address _ _ Hag), (Hea Hne).
    + intros e' new' He. by apply read_fails_wrap.
  - intros e new He. right. by eexists.
Qed.

(** A row of the list and what it became. *)
Definition row_resolved (l : string) (new : list (event hres)) (row ip : FloatingIP) : Prop :=
  fip_Address ip = fip_Address row /\ identified ip ""
  /\ (ip = row \/ wholly_sparse row = true /\ exists exact, said floatingIP_codec (wire_of (Do_GetFloatingIP l (fip_Address row))) exact new /\ resolved row exact ip).
Lemma row_resolved_later l new h row ip : row_resolved l new row ip -> row_resolved l (new ++ h) row ip.
Proof. intros (Ha & Hi & [->|(Hw & exact & Hs & Hr)]); (split_and!; [done..|]); [by left|]. right. split; [done|]. exists exact. split; [by apply said_later|done]. Qed.
Lemma row_resolved_more l new h row ip : row_resolved l h row ip -> row_resolved l (new ++ h) row ip.
Proof. intros (Ha & Hi & [->|(Hw & exact & Hs & Hr)]); (split_and!; [done..|]); [by left|]. right. split; [done|]. exists exact. split; [by apply said_more|done]. Qed.

Definition resolve_row (l : string) (row : FloatingIP) : prog hres (result FloatingIP) :=
  match validateFloatingIPResponseIdentity row "" true with
  | None => Ret (Ok row)
  | Some identityErr =>
      if negb (Is identityErr ErrSparseFloatingIPAssignment) then Ret (Err (Wrap "inspace: decode response: invalid list element identity" [identityErr]))
      else
        let! resolved := resolveSparseFloatingIPWithExactRead c ctx l row in
        Ret (match resolved with Err e => Err (Wrap "inspace: decode response: sparse list element could not be authoritatively resolved" [e]) | ok => ok end)
  end.
Lemma resolve_row_reads l row : reads c ctx (fun ip new => row_resolved l new row ip) (resolve_row l row).
Proof.
  unfold resolve_row. pose proof (response_identity_spec row "" true) as Hr. destruct (validateFloatingIPResponseIdentity row "" true) as [e|] eqn:E.
  2: { apply reads_ret. split_and!; [done|apply Hr|by left]. }
  destruct (Is e ErrSparseFloatingIPAssignment) eqn:Ei; cbn [negb]; [|apply reads_ret; eauto with inspace]. destruct (open_assignment _ _ _ _ E Ei) as [Hw Hb].
  eapply reads_map; [apply (resolveWithExact_reads l row)| |].
  - intros ip new (exact & Hs & Hre). cbn beta iota. pose proof Hre as (Hag & (H1 & H2 & H3) & Hip). split_and!; [|by split_and!|right; split; [done|by exists exact]].
    pose proof (agree_address _ _ Hag) as Had. by destruct Hip as [-> | [_ ->]].
  - intros e' new He. by apply read_fails_wrap.
Qed.
Lemma resolve_rows_reads l rows : reads c ctx (fun out new => Forall2 (row_resolved l new) rows out) (resolve_rows c ctx l rows).
Proof.
  induction rows as [|row rows IH]; [apply reads_ret; constructor|]. cbn [resolve_rows]. fold (resolve_row l row).
  eapply answers_bind; [apply (resolve_row_reads l row)| |].
  - intros ip new Hip. cbn beta iota. eapply reads_map; [apply IH| |].
    + intros out new' Hout. cbn [result_map]. constructor; [by apply row_resolved_more|]. eapply Forall2_impl; [exact Hout|]. intros x y. apply row_resolved_later.
    + by intros e new' He.
  - intros e new He. right. by eexists.
Qed.
Lemma resolved_addresses l new rows out : Forall2 (row_resolved l new) rows out -> map fip_Address out = map fip_Address rows.
Proof. induction 1 as [|row ip rows out (H & _) _ IH]; simpl; [done|]. by rewrite H, IH. Qed.
Lemma row_backed l f rows row ip new :
  said (slice_codec floatingIP_codec) (wire_of (Do_ListFloatingIPs l f)) (Some rows) new -> row ∈ rows -> row_resolved l new row ip -> backed l ip new.
Proof.
  intros Hl Hin (Ha & _ & Hip) Hc. pose proof (said_rows_plain _ _ _ Hl) as Hp. rewrite Forall_forall in Hp. specialize (Hp row Hin).
  destruct Hip as [->|(Hw & exact & Hs & Hag & _ & Hip)]; [congruence|]. pose proof (said_plain _ _ _ Hs) as He.
  destruct Hip as [-> | [Hws ->]]; [congruence|]. exists exact, f, rows, row. split_and!; try done; [by rewrite Ha|by right].
Qed.
Lemma filter_check_foreign f ip : foreign_opt (filter_check f ip).
Proof. unfold filter_check. by repeat (match goal with |- context [if ?b then _ else _] => destruct b end). Qed.

Lemma ListFloatingIPs_reads l f :
  reads c ctx (fun out new => contractual c ctx (wire_of (Do_ListFloatingIPs l f)) new /\ (distinct fip_Address out /\ Forall (fun ip => identified ip "") out)
    /\ Forall (fun ip => backed l ip new) out) (ListFloatingIPs c ctx l f).
Proof.
  unfold ListFloatingIPs. eapply answers_bind; [apply (listFloatingIPsRaw_reads l f)| |]; [|intros e new He; right; by eexists].
  intros answered new [Hs Hc]. pose proof (collection_spec answered) as Hcol. destruct (validateFloatingIPCollectionShape (Ok answered)) as [rows|e]; [|by apply reads_ret].
  destruct Hcol as (-> & Hd & _). eapply reads_map; [apply (resolve_rows_reads l rows)| |by intros e new' He].
  intros out new' Hout. cbn beta iota.
  assert (contractual c ctx (wire_of (Do_ListFloatingIPs l f)) (new' ++ new) /\ (distinct fip_Address out /\ Forall (fun ip => identified ip "") out)
    /\ Forall (fun ip => backed l ip (new' ++ new)) out) as Hall.
  { split_and!; [by apply contractual_more|by unfold distinct; rewrite (resolved_addresses _ _ _ _ Hout)| |].
    - clear -Hout. induction Hout as [|row ip rows out (_ & H & _) _ IH]; by constructor.
    - apply Forall_forall. intros ip Hip. apply list_elem_of_lookup in Hip as [i Hi]. destruct (Forall2_lookup_r _ _ _ _ _ Hout Hi) as (row & Hrow & Hr).
      eapply row_backed; [by apply said_more|by eapply list_elem_of_lookup_2|by apply row_resolved_later]. }
  destruct f as [f|]; [|done]. pose proof (first_error_foreign (filter_check f) out (filter_check_foreign f)) as Hf. by destruct (first_error _ _).
Qed.

(** ** The calls *)

Lemma ListFloatingIPs_keeps l f : call_keeps c ctx (Do_ListFloatingIPs l f).
Proof. apply reads_keeps. eapply answers_mono; [apply ListFloatingIPs_reads|]. naive_solver. Qed.
Lemma GetFloatingIP_keeps l a : call_keeps c ctx (Do_GetFloatingIP l a).
Proof. apply reads_keeps. eapply answers_mono; [apply GetFloatingIP_reads|]. naive_solver. Qed.

(** A mutation whose receipt is followed by reads. *)
Lemma keeps_then {A B} (C : codec A) `{!Quiet C} w (good : B -> Prop) (k : A -> prog hres (result B)) :
  routed_wire w -> (forall v, reads c ctx (fun b _ => good b) (k v)) ->
  keeps c ctx w good (let! r := doBody c C ctx (w_method w) (url_path (w_path w)) (w_query w) (w_body w) (w_type w) in match r with Err e => Ret (Err e) | Ok v => k v end).
Proof.
  intros Hw Hk. apply wp_bind. eapply wp_mono; [apply doBody_wp; [done|intros; by apply guard_silent|intros; by apply guard_own]|].
  intros r h' (new & -> & Hq & Hn). rewrite app_nil_r. destruct r as [v|e]; [|apply wp_ret; by eapply failed_outcome].
  eapply wp_mono; [apply Hk|]. intros r h' (new' & -> & Hm & Hr). destruct r as [b|e].
  - split; [|done]. apply contractual_more. by eapply trusted_contractual.
  - intros [Hp _]%plain_app. destruct (Hr Hp) as [Hu Ha]. split; [by rewrite Hu|]. intros Hx. by apply absent_later, Ha.
Qed.

Lemma corroborate_receipt_reads l a receipt :
  reads c ctx (fun ip _ => agree receipt ip /\ identified ip (fip_Address receipt)) (corroborate_receipt c ctx l a receipt).
Proof.
  unfold corroborate_receipt. eapply reads_map; [apply GetFloatingIP_reads| |].
  - intros readback new (_ & Hid & _). cbn beta iota. pose proof (corroborate_spec receipt readback) as Hr.
    destruct (corroborateSparseFloatingIP receipt readback) as [ip|e]; [|eauto with inspace]. destruct Hr as (Hag & Hi & Hip). split; [|done].
    by destruct Hip as [-> | [_ ->]].
  - intros e new He. by apply read_fails_wrap.
Qed.
Lemma CreateFloatingIP_keeps l i : call_keeps c ctx (Do_CreateFloatingIP l i).
Proof.
  unfold call_keeps, sdk_run, CreateFloatingIP. case_test; [by apply keeps_refused|]. local_checks.
  refine (keeps_then floatingIP_codec (wire_of (Do_CreateFloatingIP l i)) _ _ _ _); [route|]. intros ip.
  pose proof (response_identity_spec ip "" false) as Hr. set (identityErr := validateFloatingIPResponseIdentity ip "" false) in *.
  destruct (match identityErr with Some e => negb (Is e ErrSparseFloatingIPAssignment) | None => false end) eqn:Eo; [apply reads_ret; by destruct identityErr|].
  pose proof (stable_authority_foreign ip false) as Ha. destruct (validateFloatingIPStableAuthority ip false); [apply reads_ret; eauto with inspace|]. case_test; [by apply reads_ret|]. bool_hyps.
  destruct identityErr as [e|] eqn:Ei.
  - eapply answers_mono; [apply corroborate_receipt_reads|]. intros v _ [Hag (Hi1 & Hi2 & Hi3)]. destruct (agree_metadata _ _ Hag) as [Hb Hn]. split_and!; [by split_and!|congruence..].
  - apply reads_ret. case_test; [done|]. destruct Hr as [Hr _]. by split_and!.
Qed.
Lemma UpdateFloatingIP_keeps l a i : call_keeps c ctx (Do_UpdateFloatingIP l a i).
Proof.
  unfold call_keeps, sdk_run, UpdateFloatingIP, update_path. pose proof (validatePublicIPv4_spec a). destruct (validatePublicIPv4 a); [refused|].
  case_test; [refused|]. case_test; [refused|]. local_checks.
  refine (keeps_checked c ctx floatingIP_codec (wire_of (Do_UpdateFloatingIP l a i)) _ _ _ _); [route|]. intros ip.
  pose proof (response_identity_spec ip a false). destruct (validateFloatingIPResponseIdentity ip a false); naive_solver.
Qed.
Lemma AssignFloatingIP_keeps l a r t : call_keeps c ctx (Do_AssignFloatingIP l a r t).
Proof.
  unfold call_keeps, sdk_run, AssignFloatingIP, assign_path. pose proof (validatePublicIPv4_spec a). destruct (validatePublicIPv4 a); [refused|].
  pose proof (validateUUID_spec r). destruct (validateUUID r); [refused|]. case_test; [refused|]. local_checks.
  refine (keeps_checked c ctx floatingIP_codec (wire_of (Do_AssignFloatingIP l a r t)) _ _ _ _); [route|]. intros ip.
  pose proof (response_identity_spec ip a false). destruct (validateFloatingIPResponseIdentity ip a false); [done|]. case_test; [done|]. bool_hyps. naive_solver.
Qed.
Lemma UnassignFloatingIP_keeps l a : call_keeps c ctx (Do_UnassignFloatingIP l a).
Proof.
  unfold call_keeps, sdk_run, UnassignFloatingIP. local_checks.
  refine (keeps_then floatingIP_codec (wire_of (Do_UnassignFloatingIP l a)) _ _ _ _); [route|]. intros receipt.
  eapply (reads_map c ctx (fun ip _ => identified ip a)); [| |by intros e new He].
  - pose proof (response_identity_spec receipt a false) as Hr. destruct (validateFloatingIPResponseIdentity receipt a false) as [e|] eqn:E; [|apply reads_ret; apply Hr].
    destruct (Is e ErrSparseFloatingIPAssignment) eqn:Ei; cbn [negb]; [|by apply reads_ret]. destruct (open_assignment _ _ _ _ E Ei) as [_ Hb].
    pose proof (base_identity_spec receipt a) as Hs. rewrite Hb in Hs. destruct Hs as [_ Hea].
    pose proof (sparse_authority_foreign receipt false) as Ha. destruct (validateSparseFloatingIPAuthority receipt false); [apply reads_ret; eauto with inspace|].
    eapply answers_mono; [apply corroborate_receipt_reads|]. intros ip _ [Hag (Hi1 & Hi2 & Hi3)]. split_and!; [|done..]. intros Hn. rewrite <-(Hea Hn). by apply (agree_address receipt).
  - intros ip new Hid. cbn [checked]. unfold checked. by destruct (unassigned ip) eqn:Eu.
Qed.
Lemma DeleteFloatingIP_keeps l a : call_keeps c ctx (Do_DeleteFloatingIP l a).
Proof. unfold call_keeps, sdk_run, DeleteFloatingIP. local_checks. refine (keeps_nil c ctx (wire_of (Do_DeleteFloatingIP l a)) _). route. Qed.

(** ** All calls *)

Lemma every_call_keeps x : call_keeps c ctx x.
Proof.
  destruct x; [apply ListLocations_keeps|apply ListHostPools_keeps|apply ListVMs_keeps|apply GetVM_keeps|apply CreateVM_keeps|apply DeleteVM_keeps|apply StopVM_keeps
    |apply StartVM_keeps|apply UpdateVMCompute_keeps|apply ListDisks_keeps|apply GetDisk_keeps|apply CreateDisk_keeps|apply DeleteDisk_keeps|apply AttachDisk_keeps
    |apply ResizeAttachedDisk_keeps|apply DetachDisk_keeps|apply GetNetwork_keeps|apply ListNetworks_keeps|apply ListVMImages_keeps|apply ListFirewalls_keeps
    |apply GetFirewall_keeps|apply CreateFirewall_keeps|apply UpdateFirewall_keeps|apply DeleteFirewall_keeps|apply AssignFirewallToVM_keeps|apply UnassignFirewallFromVM_keeps
    |apply ListLoadBalancers_keeps|apply GetLoadBalancer_keeps|apply CreateLoadBalancer_keeps|apply DeleteLoadBalancer_keeps|apply AddLoadBalancerTarget_keeps
    |apply RemoveLoadBalancerTarget_keeps|apply AddLoadBalancerRule_keeps|apply RemoveLoadBalancerRule_keeps|apply ListFloatingIPs_keeps|apply GetFloatingIP_keeps
    |apply CreateFloatingIP_keeps|apply UpdateFloatingIP_keeps|apply AssignFloatingIP_keeps|apply UnassignFloatingIP_keeps|apply DeleteFloatingIP_keeps].
Qed.
End Floating.
