(* ===== verification/ClientTheorems.v ===== *)
(** * The client's contract with its callers

    The theorems on modules/client, over every call and every behaviour of the network, with concrete
    exchanges that meet their hypotheses. *)

From S2P Require Import Prelude GoErrors ClientTypes ClientErrors GoNet GoURL CSIFence Prog CSIWorld GoJSON GoHTTP ClientJSON ClientResources ClientTransport ClientEndpoints ClientFloatingIP ClientWire ClientRoutes ClientCalls ClientPromises ClientSafety ClientFloatingSafety.
Import Client.

(** ** A reference decoder *)

(** The reference text of JSON values, with short names for some of them. *)
Definition named_value (names : list (string * json)) (s : string) : option json := option_map snd (List.find (fun kv => kv.1 == s) names).
#[refine] Definition named_json (names : list (string * json)) : JSONText := {|
  print_json := @print_json reference_json;
  parse_json s := match s with String "$" name => named_value names name | _ => @parse_json reference_json s end
|}.
Proof. exact (@parse_print_json reference_json). exact (@print_json_nonempty reference_json). Defined.
#[refine] Definition value_decoder (JT : JSONText) : JSONDecoder := {|
  NewDecoder s := match parse_json s with Some j => Build_decoder (tokens_of j) AtEOF | None => Build_decoder [] AtEOF end
|}.
Proof. by intros s j ->. Defined.
#[refine] Instance reference_fmt : FmtText := {
  Sprint j := match j with JStr s => s | _ => "" end;
  range_order l := l
}.
Proof. all: done. Defined.

(** ** Requests *)

Section Requests.
Context `{JD : JSONDecoder} `{FT : FmtText} (c : Client) (ctx : option context).

Lemma guarded_mutations own h :
  (forall newer x r older, h = newer ++ Ev x r :: older -> call_guard c own x older) -> mutations h = [] \/ mutations h = [own].
Proof.
  induction h as [|[x r] h IH]; intros Hg; [by left|].
  assert (mutations h = [] \/ mutations h = [own]) as Hh by (apply IH; intros newer y s older ->; by apply (Hg (Ev x r :: newer) y s older)).
  specialize (Hg [] x r h eq_refl). change (Ev x r :: h) with ([Ev x r] ++ h). rewrite mutations_app. destruct x as [| |rq]; [done..|].
  unfold mutations at 1 3. cbn [requests flat_map ev_act List.app List.filter]. destruct (isMutation (rq_Method rq)) eqn:Em; [|done].
  destruct Hg as (_ & _ & [[-> Hh0]|Hget]); [right; unfold mutations; by rewrite Hh0|]. rewrite Hget in Em. done.
Qed.

Lemma call_mutations x o h : exec (sdk_run c ctx x) [] o h -> mutations h = [] \/ mutations h = [call_request c ctx x].
Proof. intros He. apply guarded_mutations. intros newer y r older ->. by eapply (wp_dispatches _ _ _ (every_call_keeps c ctx x)). Qed.
Lemma call_unsent x e h : exec (sdk_run c ctx x) [] (Some (Err e)) h -> plain h -> undispatched e = true -> mutations h = [].
Proof. intros He Hp Hu. by apply (wp_exec _ _ _ _ _ _ (every_call_keeps c ctx x) He). Qed.

(** C15: whatever the network answers, and wherever the process stops: a call puts at most one mutation on
    the wire, the one its table entry says, byte for byte; every request goes to a path and method with
    a registered contract; and a mutation is sent only to a loopback host or by a client that allows it,
    directly after its context was found live. *)
Theorem calls_send_one_mutation x o h : exec (sdk_run c ctx x) [] o h ->
  (mutations h = [] \/ mutations h = [call_request c ctx x])
  /\ forall newer rq r older, h = newer ++ Ev (RoundTrip rq) r :: older -> registered c rq /\ sendable c rq older.
Proof.
  intros He. pose proof (wp_dispatches _ _ _ (every_call_keeps c ctx x)) as Hd. split.
  - by eapply call_mutations.
  - intros newer rq r older ->. destruct (Hd _ _ _ _ _ _ He eq_refl) as (Hr & Hs & _). by split.
Qed.

(** C18: a call that succeeds was answered: its own request got a whole response, not a redirect, with a
    status that its contract allows, and the value keeps the call's promise (the requested identity,
    distinct identities in a list, the requested size, assignment or release). *)
Theorem successful_calls_were_answered x v h : exec (sdk_run c ctx x) [] (Some (Ok v)) h -> contractual c ctx (wire_of x) h /\ promised x v.
Proof. intros He. apply (wp_exec _ _ _ _ _ _ (every_call_keeps c ctx x) He). Qed.

(** C17: an error that says the mutation was blocked or not dispatched is true: nothing that could change the
    cloud was sent. *)
Theorem undispatched_means_unsent x e h :
  exec (sdk_run c ctx x) [] (Some (Err e)) h -> plain h -> undispatched e = true -> mutations h = [].
Proof. apply call_unsent. Qed.

(** C16: an error that means absence comes from a whole answer to the exact read of that resource. *)
Theorem absence_was_answered x e h :
  exec (sdk_run c ctx x) [] (Some (Err e)) h -> plain h -> IsNotFound (Some e) = true -> absent c ctx e h.
Proof. intros He Hp Hn. by apply (wp_exec _ _ _ _ _ _ (every_call_keeps c ctx x) He). Qed.

(** ** Floating IPs *)

Lemma reads_exec {A} (Q : A -> list (event hres) -> Prop) p v h : reads c ctx Q p -> exec p [] (Some (Ok v)) h -> Q v h.
Proof.
  intros Hp He. destruct (wp_exec _ _ _ _ _ _ (Hp (the_request c ctx "" "" [] None "") []) He) as (new & -> & _ & Hq). by rewrite app_nil_r.
Qed.
(** What an address without an assignment rests on: the answer says so explicitly or says when it was
    released, it is a complete tombstone, or both endpoints agree on it. *)
Definition unassignment_evidence (l : string) (ip : FloatingIP) (h : list (event hres)) : Prop :=
  assignedToPresent ip = true \/ fip_UnassignedAt ip <> "" \/ (fip_IsDeleted ip = true /\ validateSparseFloatingIPAuthority ip true = None)
  \/ corroborated c ctx l ip h.
Lemma identified_evidence l ip a h : identified ip a -> backed c ctx l ip h -> fip_AssignedTo ip = "" -> unassignment_evidence l ip h.
Proof. intros (_ & _ & Hs) Hb Ha. destruct (Hs Ha) as [H|[H|[H|H]]]; unfold unassignment_evidence; auto. Qed.

(** C30: an address that [GetFloatingIP] or [ListFloatingIPs] returns without an assignment is backed by
    evidence of it; an answer that merely leaves the assignment out is never enough, and an answer
    cannot mark itself as corroborated. *)
Theorem unassigned_needs_evidence l x (ip : FloatingIP) h :
  (exists a, x = Do_GetFloatingIP l a /\ exec (GetFloatingIP c ctx l a) [] (Some (Ok ip)) h)
  \/ (exists f out, x = Do_ListFloatingIPs l f /\ exec (ListFloatingIPs c ctx l f) [] (Some (Ok out)) h /\ ip ∈ out) ->
  fip_AssignedTo ip = "" -> unassignment_evidence l ip h.
Proof.
  intros [(a & -> & He)|(f & out & -> & He & Hin)] Ha.
  - destruct (reads_exec _ _ _ _ (GetFloatingIP_reads c ctx l a) He) as (_ & Hi & Hb). by eapply identified_evidence.
  - destruct (reads_exec _ _ _ _ (ListFloatingIPs_reads c ctx l f) He) as (_ & [_ Hi] & Hb). rewrite Forall_forall in Hi, Hb.
    eapply identified_evidence; [by apply Hi|by apply Hb|done].
Qed.

(** ** Termination *)

Lemma exchange_returns method path query body ct expects : returns (exchange c ctx method path query body ct expects).
Proof.
  unfold exchange, newRequest. case_test; [done|]. destruct (rq_Sending _); [|done]. simpl. intros [e|]; [done|].
  assert (forall rq, returns (let! sent := http_Do (checkRedirect (baseURL c)) rq in settle method path expects sent)) as Hs.
  { intros rq. simpl. intros [resp|e]; [|done]. destruct (redirect_location resp); [|done]. by destruct (resolve_location rq _). }
  destruct (isMutation method); simpl; [|apply Hs]. intros [e|]; [done|apply Hs].
Qed.
Lemma doBody_returns {A} (C : codec A) method path query body ct : returns (doBody c C ctx method path query body ct).
Proof. apply returns_bind; [apply exchange_returns|done]. Qed.
Lemma doBodyNil_returns method path query body ct : returns (doBodyNil c ctx method path query body ct).
Proof. apply returns_bind; [apply exchange_returns|done]. Qed.
Ltac returning_step :=
  first [apply doBody_returns|apply doBodyNil_returns|exact I|apply returns_bind|progress intros
    |match goal with |- returns (if ?b then _ else _) => destruct b | |- returns (match ?r with _ => _ end) => destruct r end].
Ltac returning := repeat returning_step.
Lemma getFloatingIPRaw_returns l a : returns (getFloatingIPRaw c ctx l a).
Proof. unfold getFloatingIPRaw. returning. Qed.
Lemma listFloatingIPsRaw_returns l f : returns (listFloatingIPsRaw c ctx l f).
Proof. unfold listFloatingIPsRaw. returning. Qed.
Lemma GetFloatingIP_returns l a : returns (GetFloatingIP c ctx l a).
Proof. unfold GetFloatingIP, resolveSparseFloatingIPWithListRead. apply returns_bind; [apply getFloatingIPRaw_returns|]. returning. apply listFloatingIPsRaw_returns. Qed.
Lemma resolve_rows_returns l rows : returns (resolve_rows c ctx l rows).
Proof.
  induction rows as [|row rows IH]; [done|]. cbn [resolve_rows]. unfold resolveSparseFloatingIPWithExactRead. apply returns_bind; [|intros [ip|e]; [apply returns_bind; [done|]|]; done].
  returning. apply getFloatingIPRaw_returns.
Qed.
Lemma corroborate_receipt_returns l a ip : returns (corroborate_receipt c ctx l a ip).
Proof. apply returns_bind; [apply GetFloatingIP_returns|done]. Qed.

(** Every call returns, whatever the network answers: no loop and no panic. *)
Theorem every_call_returns x : returns (sdk_run c ctx x).
Proof.
  destruct x; cbn [sdk_run];
    unfold done_or, ListLocations, ListHostPools, ListVMs, GetVM, CreateVM, DeleteVM, StopVM, StartVM, vmPower, UpdateVMCompute, ListDisks, GetDisk, CreateDisk, DeleteDisk,
      AttachDisk, ResizeAttachedDisk, DetachDisk, GetNetwork, ListNetworks, ListVMImages, GetFirewall, ListFirewalls, CreateFirewall, UpdateFirewall, DeleteFirewall,
      AssignFirewallToVM, UnassignFirewallFromVM, ListLoadBalancers, GetLoadBalancer, CreateLoadBalancer, DeleteLoadBalancer, AddLoadBalancerTarget,
      RemoveLoadBalancerTarget, AddLoadBalancerRule, RemoveLoadBalancerRule, ListFloatingIPs, CreateFloatingIP, UpdateFloatingIP, AssignFloatingIP, UnassignFloatingIP, DeleteFloatingIP;
    repeat first [apply listFloatingIPsRaw_returns|apply resolve_rows_returns|apply GetFloatingIP_returns|apply corroborate_receipt_returns|returning_step].
Qed.
End Requests.

(** ** Sample exchanges *)

(** An address whose representation leaves the assignment out. *)
Definition sample_uuid : string := "0f0e0d0c-1111-4222-8333-444455556666".
Definition sparse_row : json := JObj [("uuid", JStr sample_uuid); ("id", JInt 7); ("address", JStr "203.0.114.9"); ("user_id", JInt 3);
  ("billing_account_id", JInt 11); ("type", JStr "public"); ("name", JStr "ip"); ("enabled", JBool true); ("is_deleted", JBool false);
  ("is_ipv6", JBool false); ("is_virtual", JBool false); ("created_at", JStr "a"); ("updated_at", JStr "b")].
#[local] Instance sample_json : JSONText := named_json [("row", sparse_row); ("rows", JArr [sparse_row])].
#[local] Instance sample_decoder : JSONDecoder := value_decoder sample_json.

Definition sample_client (allow : bool) : Client :=
  Build_Client (Build_URL "https" "" None "api.example.test" "" "" "" "") "key" defaultUserAgent allow.
Definition sample_ctx : option context := Some (Build_context None false).
Definition sample_location : string := "bkk".
Definition plain_response (status : Z) (body : string) : response := Build_response status [] (Z.of_nat (String.length body)) body None.

(** A network that answers every request in the same way. *)
Definition answers (r : result response) (x : hact) (s : unit) : hres x * unit :=
  (match x return hres x with BuildRequest _ => None | ContextErr _ => None | RoundTrip _ => r end, s).
Definition sample_run (allow : bool) (r : result response) (x : sdk_call) : option (result (sdk_result x)) * unit * list (event hres) :=
  run_hist (answers r) (sdk_run (sample_client allow) sample_ctx x) tt [].
Lemma sample_exec allow r x : exec (sdk_run (sample_client allow) sample_ctx x) [] (sample_run allow r x).1.1 (sample_run allow r x).2.
Proof. apply run_hist_exec. Qed.

Definition delete_call : sdk_call := Do_DeleteDisk sample_location sample_uuid.
Definition get_call : sdk_call := Do_GetDisk sample_location sample_uuid.

Lemma calls_send_one_mutation_witness :
  let h := (sample_run true (Ok (plain_response 204 "")) delete_call).2 in
  List.length (mutations h) = 1%nat /\ (mutations h = [] \/ mutations h = [call_request (sample_client true) sample_ctx delete_call]).
Proof.
  split; [vm_compute; reflexivity|]. exact (proj1 (calls_send_one_mutation _ _ _ _ _ (sample_exec true (Ok (plain_response 204 "")) delete_call))).
Defined.
Lemma successful_calls_were_answered_witness :
  let run := sample_run true (Ok (plain_response 204 "")) delete_call in
  run.1.1 = Some (Ok tt) /\ contractual (sample_client true) sample_ctx (wire_of delete_call) run.2.
Proof.
  assert ((sample_run true (Ok (plain_response 204 "")) delete_call).1.1 = Some (Ok tt)) as E by (vm_compute; reflexivity).
  split; [exact E|]. pose proof (sample_exec true (Ok (plain_response 204 "")) delete_call) as He. rewrite E in He.
  exact (proj1 (successful_calls_were_answered _ _ _ _ _ He)).
Defined.
Lemma undispatched_means_unsent_witness :
  let run := sample_run false (Ok (plain_response 204 "")) delete_call in
  run.1.1 = Some (Err (wrapS ErrMutationBlocked "")) /\ mutations run.2 = [].
Proof.
  assert ((sample_run false (Ok (plain_response 204 "")) delete_call).1.1 = Some (Err (wrapS ErrMutationBlocked ""))) as E by (vm_compute; reflexivity).
  split; [exact E|]. pose proof (sample_exec false (Ok (plain_response 204 "")) delete_call) as He. rewrite E in He.
  refine (undispatched_means_unsent _ _ _ _ _ He _ _); [|vm_compute; reflexivity]. vm_compute. constructor.
Defined.
Definition not_found_answer : result response := Ok (plain_response 404 "no such disk").
Definition not_found_error : error :=
  match (sample_run true not_found_answer get_call).1.1 with Some (Err e) => e | _ => Msg "" end.
Lemma absence_was_answered_witness :
  let h := (sample_run true not_found_answer get_call).2 in
  IsNotFound (Some not_found_error) = true /\ absent (sample_client true) sample_ctx not_found_error h.
Proof.
  assert (IsNotFound (Some not_found_error) = true) as Hn by (vm_compute; reflexivity). split; [exact Hn|].
  assert ((sample_run true not_found_answer get_call).1.1 = Some (Err not_found_error)) as E by (vm_compute; reflexivity).
  pose proof (sample_exec true not_found_answer get_call) as He. rewrite E in He.
  refine (absence_was_answered _ _ _ _ _ He _ Hn). vm_compute. repeat constructor.
Defined.

Definition sparse_network (x : hact) (s : unit) : hres x * unit :=
  (match x return hres x with
   | BuildRequest _ => None
   | ContextErr _ => None
   | RoundTrip rq => Ok (plain_response 200 (if rq_RawQuery rq == "" then "$row" else "$rows"))
   end, s).
Definition sparse_run : option (result FloatingIP) * unit * list (event hres) :=
  run_hist sparse_network (GetFloatingIP (sample_client true) sample_ctx sample_location "203.0.114.9") tt [].
Definition sparse_ip : FloatingIP := match sparse_run.1.1 with Some (Ok ip) => ip | _ => zero_FloatingIP end.
Lemma unassigned_needs_evidence_witness :
  assignmentCorroborated sparse_ip = true /\ assignedToPresent sparse_ip = false /\ unassignment_evidence (sample_client true) sample_ctx sample_location sparse_ip sparse_run.2.
Proof.
  assert (sparse_run.1.1 = Some (Ok sparse_ip)) as E by (vm_compute; reflexivity). split; [vm_compute; reflexivity|]. split; [vm_compute; reflexivity|].
  refine (unassigned_needs_evidence (sample_client true) sample_ctx sample_location (Do_GetFloatingIP sample_location "203.0.114.9") sparse_ip sparse_run.2 _ _); [|vm_compute; reflexivity].
  left. exists "203.0.114.9". split; [reflexivity|]. rewrite <-E. apply run_hist_exec.
Defined.
