(* ===== verification/NodeFirewallSpec.v ===== *)
(** * Canonical policies and owned names

    The text behind a policy hash depends on the set of rules alone, and determines it: two rule lists
    have the same text exactly when they agree on protocol, port and set of prefixes, in any order. The
    names that the cloud controller gives its firewalls are exactly the ones the validators accept. *)

From stdpp Require Import sorting.
From S2P Require Import Prelude GoErrors ClientErrors GoNet GoURL GoHTTP ClientResources NodeFirewall ClientRoutes.

(** ** Sorting *)

Lemma compare_lt_trans a b c : String.compare a b = Lt -> String.compare b c = Lt -> String.compare a c = Lt.
Proof.
  revert b c. induction a as [|x a IH]; intros [|y b] [|z c]; simpl; try done.
  unfold Ascii.compare. destruct (N.compare_spec (N_of_ascii x) (N_of_ascii y)) as [E1|E1|E1], (N.compare_spec (N_of_ascii y) (N_of_ascii z)) as [E2|E2|E2]; try done; intros H1 H2;
    destruct (N.compare_spec (N_of_ascii x) (N_of_ascii z)) as [E3|E3|E3]; try done; try lia. by apply (IH b).
Qed.
#[export] Instance leb_trans : Transitive (fun a b => String.leb a b = true).
Proof.
  intros a b c. unfold String.leb. destruct (String.compare a b) eqn:E1; [apply String.compare_eq_iff in E1 as ->; done| |done].
  intros _. destruct (String.compare b c) eqn:E2; [apply String.compare_eq_iff in E2 as ->; by rewrite E1| |done]. by rewrite (compare_lt_trans a b c).
Qed.
#[export] Instance leb_antisymm : AntiSymm eq (fun a b => String.leb a b = true).
Proof. intros a b. apply String.leb_antisym. Qed.
Lemma insert_string_sorted x l : StronglySorted (fun a b => String.leb a b = true) l -> StronglySorted (fun a b => String.leb a b = true) (insert_string x l).
Proof.
  assert (forall x l, insert_string x l ≡ₚ x :: l) as Hi.
  { intros y l'. induction l' as [|z l' IH]; simpl; [done|]. case_test; [done|]. rewrite IH. constructor. }
  induction 1 as [|y l Hl IH Hy]; simpl; [repeat constructor|]. destruct (String.leb x y) eqn:E.
  - constructor; [by constructor|]. constructor; [done|]. eapply Forall_impl; [exact Hy|]. intros z Hz. exact (leb_trans x y z E Hz).
  - constructor; [done|]. rewrite Hi. constructor; [|done]. destruct (String.leb_total x y) as [H|H]; [congruence|done].
Qed.
Lemma sort_strings_sorted l : StronglySorted (fun a b => String.leb a b = true) (sort_strings l).
Proof. induction l; simpl; [constructor|by apply insert_string_sorted]. Qed.
Lemma sort_strings_eq l l' : l ≡ₚ l' <-> sort_strings l = sort_strings l'.
Proof.
  split; intros H.
  - apply (StronglySorted_unique (fun a b => String.leb a b = true)); [apply sort_strings_sorted..|]. by rewrite !sort_strings_perm.
  - by rewrite <-(sort_strings_perm l), H, sort_strings_perm.
Qed.

(** ** Joining *)

Lemma join_with_char sep l : join_with (String sep "") l = join_char sep l.
Proof. induction l as [|s l IH]; [done|]. destruct l; [done|]. cbn [join_with join_char] in *. rewrite IH. done. Qed.
Lemma join_char_inj sep l l' :
  l <> [] -> l' <> [] -> Forall (fun s => ContainsChar sep s = false) l -> Forall (fun s => ContainsChar sep s = false) l' ->
  join_char sep l = join_char sep l' -> l = l'.
Proof. intros H1 H2 H3 H4 E. rewrite <-(split_join sep l), <-(split_join sep l') by done. by rewrite E. Qed.
Lemma join_char_free sep ch l : ch <> sep -> Forall (fun s => ContainsChar ch s = false) l -> ContainsChar ch (join_char sep l) = false.
Proof.
  intros Hc. induction 1 as [|s l Hs Hl IH]; [done|]. destruct l as [|s' l]; [done|].
  change (join_char sep (s :: s' :: l)) with (s +:+ String sep (join_char sep (s' :: l))). rewrite ContainsChar_app, Hs. simpl. by rewrite bool_decide_eq_false_2.
Qed.

(** ** Appending *)

Lemma length_append s t : String.length (s +:+ t) = (String.length s + String.length t)%nat.
Proof. induction s as [|ch s IH]; [done|]. rewrite append_cons. simpl. by rewrite IH. Qed.
Lemma all_chars_append p s t : all_chars p (s +:+ t) = all_chars p s && all_chars p t.
Proof. induction s as [|ch s IH]; [done|]. rewrite append_cons. simpl. by rewrite IH, andb_assoc. Qed.

(** ** Decimal numbers *)

Fixpoint dec_value (acc : Z) (s : string) : Z := match s with EmptyString => acc | String ch r => dec_value (10 * acc + (Z.of_nat (code ch) - 48)) r end.
Lemma digit_code n : 0 <= n < 10 -> code (ascii_of_nat (48 + Z.to_nat n)) = (48 + Z.to_nat n)%nat.
Proof. intros Hn. unfold code. apply nat_ascii_embedding. lia. Qed.
Lemma decimal_digits_spec fuel n acc : 0 <= n < 10 ^ Z.of_nat fuel -> (0 < fuel)%nat ->
  exists digits, decimal_digits fuel n acc = digits +:+ acc /\ all_chars is_digit digits = true /\ forall v, dec_value v digits = v * 10 ^ Z.of_nat (String.length digits) + n.
Proof.
  revert n acc. induction fuel as [|fuel IH]; intros n acc Hn Hf; [lia|]. cbn [decimal_digits].
  assert (0 <= n `mod` 10 < 10) as Hm by (apply Z.mod_pos_bound; lia). set (ch := ascii_of_nat (48 + Z.to_nat (n `mod` 10))).
  assert (code ch = (48 + Z.to_nat (n `mod` 10))%nat) as Hc by by apply digit_code.
  assert (is_digit ch = true) as Hd by (unfold is_digit, in_range; rewrite Hc; apply andb_true_iff; split; apply Nat.leb_le; lia).
  clearbody ch. destruct (n <? 10) eqn:E; bool_hyps.
  - exists (String ch ""). split; [done|]. split; [simpl; by rewrite Hd|]. intros v. simpl. rewrite Hc, Z.mod_small by lia. lia.
  - destruct fuel as [|fuel]; [simpl in Hn; lia|]. destruct (IH (n `div` 10) (String ch acc)) as (digits & Hg & Ha & Hv); [|lia|].
    { rewrite Nat2Z.inj_succ, Z.pow_succ_r in Hn by lia. split; [apply Z.div_pos; lia|apply Z.div_lt_upper_bound; lia]. }
    exists (digits +:+ String ch ""). rewrite Hg, append_assoc. split; [done|].
    assert (forall v s t, dec_value v (s +:+ t) = dec_value (dec_value v s) t) as Happ by (intros v s; revert v; induction s as [|x s IHs]; intros v t; [done|apply IHs]).
    rewrite all_chars_append, Ha. simpl. rewrite Hd. split; [done|]. intros v. rewrite Happ, Hv, length_append. simpl. rewrite Hc.
    rewrite Nat.add_1_r, Nat2Z.inj_succ, Z.pow_succ_r by lia. pose proof (Z.div_mod n 10). lia.
Qed.
Lemma FormatInt_spec n : 0 <= n <= 65535 -> all_chars is_digit (FormatInt n) = true /\ dec_value 0 (FormatInt n) = n.
Proof.
  intros Hn. unfold FormatInt. destruct (n <? 0) eqn:E; bool_hyps; [lia|].
  destruct (decimal_digits_spec 20 n "") as (digits & -> & Ha & Hv); [split; [lia|]; change (10 ^ Z.of_nat 20) with 100000000000000000000; lia|lia|].
  rewrite append_empty. split; [done|]. rewrite Hv. lia.
Qed.

(** ** Prefixes *)

Definition cidr_char (ch : ascii) : bool := is_digit ch || one_of "./" ch.
Lemma digits_cidr s : all_chars is_digit s = true -> all_chars cidr_char s = true.
Proof. induction s as [|ch s IH]; simpl; [done|]. unfold cidr_char at 1. intros H. bool_hyps. by rewrite H, IH. Qed.
Lemma octet_text n : (n < 256)%nat -> all_chars is_digit (print_octet n) = true.
Proof.
  intros Hn. assert (forallb (fun n => all_chars is_digit (print_octet n)) (seq 0 256) = true) as H by by vm_compute.
  rewrite forallb_forall in H. apply H, in_seq. lia.
Qed.
Lemma byte_small v k : (Z.to_nat (Z.land (Z.shiftr v k) 255) < 256)%nat.
Proof. change 255 with (Z.ones 8). rewrite Z.land_ones by lia. pose proof (Z.mod_pos_bound (Z.shiftr v k) (2 ^ 8)). lia. Qed.
Lemma masked_text a bits : 0 <= bits <= 32 -> all_chars cidr_char (masked_String a bits) = true.
Proof.
  intros Hb. unfold masked_String, IPv4_String, IPv4_of_value. cbn [o1 o2 o3 o4]. destruct (FormatInt_spec bits) as [Hf _]; [lia|].
  assert (forall v k, all_chars cidr_char (print_octet (Z.to_nat (Z.land (Z.shiftr v k) 255))) = true) as Ho by (intros; apply digits_cidr, octet_text, byte_small).
  rewrite !all_chars_append, !Ho, (digits_cidr _ Hf). reflexivity.
Qed.
Lemma decimal_value_pos s acc : 0 <= acc -> all_chars is_digit s = true -> 0 <= fold_left (fun acc c => 10 * acc + (Z.of_nat (code c) - 48)) (list_ascii_of_string s) acc.
Proof.
  revert acc. induction s as [|ch s IH]; intros acc Ha; cbn [list_ascii_of_string fold_left all_chars]; [done|]. intros H. bool_hyps. apply IH; [|done].
  unfold is_digit, in_range in *. apply andb_true_iff in H as [H _]. apply Nat.leb_le in H. lia.
Qed.
Lemma ParsePrefix_bits v a bits : ParsePrefix v = Some (Build_Prefix (Addr4 a) bits) -> 0 <= bits <= 32.
Proof.
  unfold ParsePrefix. destruct (CutLast "/" v) as [[addr text]|]; [|done]. destruct (ParseAddr addr) as [[b|z x]|]; [|by case_test; [destruct (prefix_bits text 128)|]|done].
  destruct (prefix_bits text 32) as [n|] eqn:E; [|done]. intros [= _ <-]. unfold prefix_bits in E. destruct text as [|ch r]; [done|].
  destruct (_ || _) eqn:Ed; [done|]. bool_hyps. destruct (decimal_value (String ch r) <=? 32) eqn:El; [|done]. bool_hyps. injection E as <-. split; [|done]. by apply decimal_value_pos.
Qed.
Lemma canonical_prefixes_spec seen l out :
  canonical_prefixes seen l = Ok out -> out = l /\ NoDup l /\ Forall (fun v => all_chars cidr_char v = true) l /\ Forall (fun v => v ∉ seen) l.
Proof.
  revert seen out. induction l as [|v l IH]; intros seen out; cbn [canonical_prefixes]; [intros [= <-]; split_and!; constructor|].
  destruct (ParsePrefix v) as [[[a|z x] bits]|] eqn:Ep; [|done..]. case_test; [done|]. case_test; [done|]. bool_hyps. destruct (canonical_prefixes _ l) as [r|] eqn:E; [|done]. cbn [result_map].
  intros [= <-]. apply IH in E as (-> & Hn & Hc & Hs). rewrite Forall_forall in Hs. split_and!; [done|constructor; [|done]|constructor; [|done]|constructor; [done|]].
  - intros Hin. apply Hs in Hin. set_solver.
  - rewrite <-Heqb. apply masked_text. by eapply ParsePrefix_bits.
  - apply Forall_forall. intros y Hy. apply Hs in Hy. set_solver.
Qed.

(** ** Rules *)

(** What a rule says: protocol, port, and whom it admits. *)
Definition policy_row (rule : FirewallRule) : string * Z * string * gset string :=
  (fr_Protocol rule, default 0 (rule_port rule), fr_EndpointSpecType rule, list_to_set (fr_EndpointSpec rule)).
Definition row_key (row : string * Z * string * gset string) : string :=
  let '(protocol, port, kind, endpoints) := row in join_char "|" [protocol; FormatInt port; kind; join_char "," (sort_strings (elements endpoints))].
(** A rule that the canonical text admits. *)
Record admitted (rule : FirewallRule) : Prop := {
  ad_protocol : fr_Protocol rule = "tcp" \/ fr_Protocol rule = "udp";
  ad_port : exists p, rule_port rule = Some p /\ 1 <= p <= 65535;
  ad_kind : (fr_EndpointSpecType rule = "any" /\ fr_EndpointSpec rule = []) \/ (fr_EndpointSpecType rule = "ip_prefixes" /\ fr_EndpointSpec rule <> []);
  ad_nodup : NoDup (fr_EndpointSpec rule);
  ad_text : Forall (fun v => all_chars cidr_char v = true) (fr_EndpointSpec rule)
}.

Lemma endpoints_spec rule out :
  canonicalNodeLoadBalancerFirewallEndpoints rule = Ok out ->
  out = sort_strings (fr_EndpointSpec rule) /\ NoDup (fr_EndpointSpec rule) /\ Forall (fun v => all_chars cidr_char v = true) (fr_EndpointSpec rule)
  /\ ((fr_EndpointSpecType rule = "any" /\ fr_EndpointSpec rule = []) \/ (fr_EndpointSpecType rule = "ip_prefixes" /\ fr_EndpointSpec rule <> [])).
Proof.
  unfold canonicalNodeLoadBalancerFirewallEndpoints. destruct (fr_EndpointSpec rule) as [|v l] eqn:El.
  - case_test; bool_hyps; [intros [= <-]; split_and!; auto; constructor|]. by case_test.
  - case_test; [done|]. case_test; [|done]. bool_hyps. destruct (canonical_prefixes ∅ (v :: l)) as [r|] eqn:E; [|done]. cbn [result_map]. intros [= <-].
    apply canonical_prefixes_spec in E as (-> & Hn & Hc & _). split_and!; auto.
Qed.
Lemma key_of_row rule p : rule_port rule = Some p -> NoDup (fr_EndpointSpec rule) ->
  rule_key rule (FormatInt p) (sort_strings (fr_EndpointSpec rule)) = row_key (policy_row rule).
Proof.
  intros Hp Hn. unfold rule_key, row_key, policy_row. rewrite Hp. rewrite !(join_with_char "|"), (join_with_char ","). cbn [default]. do 3 f_equal.
  assert (sort_strings (fr_EndpointSpec rule) = sort_strings (elements (list_to_set (C := gset string) (fr_EndpointSpec rule)))) as ->; [|done].
  apply sort_strings_eq. symmetry. by apply elements_list_to_set.
Qed.
Lemma canonical_keys_spec seenRules seenPorts rules keys :
  canonical_keys seenRules seenPorts rules = Ok keys -> keys = map (fun r => row_key (policy_row r)) rules /\ Forall admitted rules.
Proof.
  revert seenRules seenPorts keys. induction rules as [|rule rules IH]; intros sr sp keys; cbn [canonical_keys]; [intros [= <-]; split; [done|constructor]|].
  case_test; [done|]. case_test; [done|]. destruct (rule_port rule) as [p|] eqn:Ep; [|done]. case_test; [done|].
  destruct (canonicalNodeLoadBalancerFirewallEndpoints rule) as [out|] eqn:Ee; [|done]. apply endpoints_spec in Ee as (-> & Hn & Hc & Hk).
  case_test; [done|]. destruct (canonical_keys _ _ rules) as [r|] eqn:E; [|done]. intros [= <-]. apply IH in E as [-> Ha]. cbn [map]. rewrite <-(key_of_row rule p) by done.
  split; [done|]. constructor; [|done]. split; try done.
  - apply andb_false_iff in Heqb0 as [H|H]; bool_hyps; auto.
  - exists p. split; [done|]. unfold rule_port in Ep. destruct (fr_PortStart rule) as [x|], (fr_PortEnd rule) as [y|]; try done. case_test_in Ep; [done|]. bool_hyps. simplify_eq. lia.
Qed.

Lemma cidr_free s ch : all_chars cidr_char s = true -> cidr_char ch = false -> ContainsChar ch s = false.
Proof. apply all_chars_ContainsChar. Qed.
Definition row_endpoints (rule : FirewallRule) : list string := sort_strings (elements (list_to_set (C := gset string) (fr_EndpointSpec rule))).
Lemma row_endpoints_text rule : admitted rule -> Forall (fun v => all_chars cidr_char v = true) (row_endpoints rule).
Proof.
  intros H. pose proof (ad_text _ H) as Ht. rewrite Forall_forall in *. intros v. unfold row_endpoints. rewrite sort_strings_perm, elem_of_elements, elem_of_list_to_set. apply Ht.
Qed.
Lemma row_endpoints_free rule ch : admitted rule -> cidr_char ch = false -> Forall (fun v => ContainsChar ch v = false) (row_endpoints rule).
Proof. intros H Hc. eapply Forall_impl; [by apply row_endpoints_text|]. intros v Hv. by apply cidr_free. Qed.
Lemma row_endpoints_set rule : list_to_set (row_endpoints rule) = (list_to_set (fr_EndpointSpec rule) : gset string).
Proof. unfold row_endpoints. apply leibniz_equiv. intros v. by rewrite elem_of_list_to_set, sort_strings_perm, elem_of_elements. Qed.

(** The fields of a key, free of the separators. *)
Definition key_fields (rule : FirewallRule) : list string :=
  [fr_Protocol rule; FormatInt (default 0 (rule_port rule)); fr_EndpointSpecType rule; join_char "," (row_endpoints rule)].
Lemma key_fields_free rule ch : admitted rule -> ch = "|"%char \/ ch = ascii_of_nat 10 -> Forall (fun s => ContainsChar ch s = false) (key_fields rule).
Proof.
  intros H Hc. destruct (ad_port _ H) as (p & Hp & Hr). destruct (FormatInt_spec p) as [Hd _]; [lia|]. unfold key_fields. rewrite Hp. cbn [from_option id].
  assert (is_digit ch = false /\ cidr_char ch = false /\ ch <> ","%char) as (H1 & H2 & H3) by (by destruct Hc as [-> | ->]).
  repeat apply Forall_cons_2; [| | | |apply Forall_nil_2].
  - destruct (ad_protocol _ H) as [-> | ->]; by destruct Hc as [-> | ->].
  - by eapply all_chars_ContainsChar.
  - destruct (ad_kind _ H) as [[-> _]|[-> _]]; by destruct Hc as [-> | ->].
  - apply join_char_free; [done|]. by apply row_endpoints_free.
Qed.
Lemma row_key_fields rule : row_key (policy_row rule) = join_char "|" (key_fields rule).
Proof. reflexivity. Qed.
Lemma row_key_line rule : admitted rule -> ContainsChar (ascii_of_nat 10) (row_key (policy_row rule)) = false.
Proof. intros H. rewrite row_key_fields. apply join_char_free; [done|]. apply key_fields_free; auto. Qed.

Lemma row_key_inj r r' : admitted r -> admitted r' -> row_key (policy_row r) = row_key (policy_row r') -> policy_row r = policy_row r'.
Proof.
  intros H H' E. rewrite !row_key_fields in E. apply join_char_inj in E; [|done|done|by apply key_fields_free; auto|by apply key_fields_free; auto]. unfold key_fields in E.
  injection E as E1 E2 E3 E4. destruct (ad_port _ H) as (p & Hp & Hr), (ad_port _ H') as (p' & Hp' & Hr'). rewrite Hp, Hp' in E2. cbn [from_option id] in E2.
  assert (p = p') as ->.
  { destruct (FormatInt_spec p) as [_ <-]; [lia|]. destruct (FormatInt_spec p') as [_ <-]; [lia|]. by rewrite E2. }
  unfold policy_row. rewrite E1, E3, Hp, Hp'. assert (list_to_set (fr_EndpointSpec r) = (list_to_set (fr_EndpointSpec r') : gset string)) as Es; [|by rewrite Es].
  rewrite <-(row_endpoints_set r), <-(row_endpoints_set r'). f_equal.
  destruct (ad_kind _ H) as [[K L]|[K L]], (ad_kind _ H') as [[K' L']|[K' L']]; try congruence; [unfold row_endpoints; by rewrite L, L'|].
  assert (forall x, fr_EndpointSpec x <> [] -> row_endpoints x <> []) as Hne.
  { intros x Hx Hz. apply Hx. destruct (fr_EndpointSpec x) as [|v l] eqn:El; [done|]. exfalso.
    assert (v ∈ row_endpoints x) as Hin by (unfold row_endpoints; rewrite sort_strings_perm, elem_of_elements, elem_of_list_to_set, El; left). by rewrite Hz in Hin; apply elem_of_nil in Hin. }
  apply (join_char_inj ","); [by apply Hne..|by apply row_endpoints_free|by apply row_endpoints_free|done].
Qed.

(** Lists that are equal up to order through one view are so through a view it determines. *)
Lemma perm_transfer {A B C} (f : A -> B) (g : A -> C) l l' :
  (forall x y, x ∈ l -> y ∈ l' -> f x = f y -> g x = g y) -> map f l ≡ₚ map f l' -> map g l ≡ₚ map g l'.
Proof.
  revert l'. induction l as [|x l IH]; intros l' Hfg Hp; [apply Permutation_nil_l in Hp; destruct l'; done|].
  assert (f x ∈ map f l') as Hin by (rewrite <-Hp; left). apply list_elem_of_fmap in Hin as (y & Hy & Hin). apply list_elem_of_split in Hin as (l1 & l2 & ->).
  rewrite map_app in *. cbn [map] in *. rewrite <-Permutation_middle in *. rewrite Hy in Hp. apply Permutation_cons_inv in Hp.
  rewrite (Hfg x y); [|left|apply elem_of_app; right; left|done]. constructor. rewrite <-map_app. apply IH; [|by rewrite map_app].
  intros u v Hu Hv. apply Hfg; [by right|]. apply elem_of_app in Hv as [Hv|Hv]; apply elem_of_app; [by left|right; by right].
Qed.

Lemma policy_text rules t : canonicalNodeLoadBalancerPortFirewallPolicy rules = Ok t ->
  rules <> [] /\ Forall admitted rules /\ t = join_char (ascii_of_nat 10) (sort_strings (map (fun r => row_key (policy_row r)) rules)).
Proof.
  unfold canonicalNodeLoadBalancerPortFirewallPolicy. destruct rules as [|rule rules]; [done|]. destruct (canonical_keys ∅ ∅ (rule :: rules)) as [keys|] eqn:E; [|done].
  intros [= <-]. apply canonical_keys_spec in E as [-> Ha]. split_and!; [done|done|]. unfold newline. by rewrite join_with_char.
Qed.

(** C36: the canonical text of a policy identifies it: two rule lists that have one get the same text exactly
    when they hold the same rules, as protocol, port and set of admitted prefixes, in any order. So the
    hashes that the cloud controller records change with the policy and only with it, up to SHA-256. *)
Theorem policy_text_identifies rules rules' t t' :
  canonicalNodeLoadBalancerPortFirewallPolicy rules = Ok t -> canonicalNodeLoadBalancerPortFirewallPolicy rules' = Ok t' ->
  t = t' <-> map policy_row rules ≡ₚ map policy_row rules'.
Proof.
  intros (Hn & Ha & ->)%policy_text (Hn' & Ha' & ->)%policy_text. rewrite Forall_forall in Ha, Ha'.
  assert (forall l, l <> [] -> (forall r, r ∈ l -> admitted r) -> sort_strings (map (fun r => row_key (policy_row r)) l) <> []
    /\ Forall (fun s => ContainsChar (ascii_of_nat 10) s = false) (sort_strings (map (fun r => row_key (policy_row r)) l))) as Hl.
  { intros l Hnl Hal. split.
    - intros Hz. destruct l as [|r l]; [done|]. pose proof (sort_strings_perm (map (fun r => row_key (policy_row r)) (r :: l))) as Hp. rewrite Hz in Hp. by apply Permutation_nil_l in Hp.
    - rewrite sort_strings_perm. apply Forall_forall. intros s (r & -> & Hr)%list_elem_of_fmap. by apply row_key_line, Hal. }
  destruct (Hl rules Hn Ha) as [H1 H2], (Hl rules' Hn' Ha') as [H1' H2']. split; intros H.
  - apply join_char_inj in H; [|done..]. apply sort_strings_eq in H. eapply perm_transfer; [|exact H]. intros x y Hx Hy. apply row_key_inj; auto.
  - do 1 f_equal. apply sort_strings_eq. apply (perm_transfer policy_row); [|done]. by intros x y _ _ ->.
Qed.

(** ** Names *)

Lemma take_append a b : take_string (String.length a) (a +:+ b) = a.
Proof. induction a as [|ch a IH]; [by destruct b|]. rewrite append_cons. cbn [String.length take_string]. by rewrite IH. Qed.
Lemma drop_append a b : drop_string (String.length a) (a +:+ b) = b.
Proof. induction a as [|ch a IH]; [by destruct b|]. rewrite append_cons. cbn [String.length drop_string]. exact IH. Qed.
Lemma take_drop_string n s : take_string n s +:+ drop_string n s = s.
Proof. revert s. induction n as [|n IH]; intros [|ch s]; [done..|]. cbn [take_string drop_string]. by rewrite append_cons, IH. Qed.
Lemma HasPrefix_append a b : HasPrefix (a +:+ b) a = true.
Proof. induction a as [|ch a IH]; [by destruct b|]. rewrite append_cons. cbn [HasPrefix]. by rewrite bool_decide_eq_true_2, IH. Qed.
Lemma HasPrefix_split s p : HasPrefix s p = true -> s = p +:+ drop_string (String.length p) s.
Proof.
  revert s. induction p as [|ch p IH]; intros [|x s]; try done. cbn [HasPrefix]. intros H. bool_hyps. subst. rewrite append_cons. cbn [String.length drop_string]. by rewrite <-IH.
Qed.
Lemma after_prefix_spec p s r : after_prefix p s = Some r <-> s = p +:+ r.
Proof.
  unfold after_prefix. split.
  - case_test; [|done]. intros [= <-]. by apply HasPrefix_split.
  - intros ->. by rewrite HasPrefix_append, drop_append.
Qed.
Lemma hex_length n s : hex_pattern n s = true -> String.length s = n.
Proof. intros H. apply match_seq_length in H. by rewrite length_replicate in H. Qed.
Lemma hex_take n m s : (n <= m)%nat -> hex_pattern m s = true -> hex_pattern n (take_string n s) = true.
Proof.
  unfold hex_pattern. revert m s. induction n as [|n IH]; intros [|m] [|ch s] Hn; cbn [replicate match_seq take_string]; try done; try lia. intros H. bool_hyps.
  rewrite H. simpl. apply (IH m); [lia|done].
Qed.
Lemma two_groups_spec n middle pattern name h tail :
  two_groups n middle pattern name = Some (h, tail) <-> name = "inlb-" +:+ h +:+ middle +:+ tail /\ hex_pattern n h = true /\ pattern tail = true.
Proof.
  unfold two_groups. split.
  - destruct (after_prefix "inlb-" name) as [rest|] eqn:E1; [|done]. destruct (after_prefix middle (drop_string n rest)) as [t|] eqn:E2; [|done]. case_test; [|done].
    intros [= <- <-]. bool_hyps. apply after_prefix_spec in E1, E2. split_and!; [|done..]. by rewrite <-E2, take_drop_string.
  - intros (-> & Hh & Hp). assert (after_prefix "inlb-" ("inlb-" +:+ h +:+ middle +:+ tail) = Some (h +:+ middle +:+ tail)) as -> by by apply after_prefix_spec.
    rewrite <-(hex_length n h Hh), take_append, drop_append. assert (after_prefix middle (middle +:+ tail) = Some tail) as -> by by apply after_prefix_spec.
    by rewrite (hex_length n h Hh), Hh, Hp.
Qed.

Section Names.
Context (sha256_hex : string -> string) (sha256_hex_text : forall s, hex_pattern 64 (sha256_hex s) = true).

Lemma short_hash_hex v : hex_pattern 8 (nodeLoadBalancerShortHash sha256_hex v) = true.
Proof. apply (hex_take 8 64); [lia|apply sha256_hex_text]. Qed.

(** The name of a VM's firewall parses back to the VM, and only such names parse. *)
Theorem vm_firewall_name_roundtrip cluster name vm :
  ParseNodeLoadBalancerVMFirewallName sha256_hex cluster name = Some vm <-> NodeLoadBalancerVMFirewallName sha256_hex cluster vm = Ok name.
Proof.
  unfold ParseNodeLoadBalancerVMFirewallName, NodeLoadBalancerVMFirewallName, nodeLoadBalancerVMUUIDPattern. destruct (cluster == ""); [done|].
  split.
  - destruct (nodeLoadBalancerVMFirewallPattern name) as [[h v]|] eqn:E; [|done]. apply two_groups_spec in E as (-> & _ & Hv). case_test; [done|]. intros [= ->]. bool_hyps. subst. by rewrite Hv.
  - case_test; [done|]. bool_hyps. intros [= <-].
    assert (nodeLoadBalancerVMFirewallPattern ("inlb-" +:+ nodeLoadBalancerShortHash sha256_hex cluster +:+ "-vm-" +:+ vm) = Some (nodeLoadBalancerShortHash sha256_hex cluster, vm)) as ->.
    { apply two_groups_spec. split_and!; [done|apply short_hash_hex|done]. }
    by rewrite bool_decide_eq_true_2.
Qed.

(** A name of the Service form splits at its last nine characters only. *)
Lemma service_pattern_spec name owner uid h :
  nodeLoadBalancerServiceFirewallPattern name = Some (owner, uid, h)
  <-> name = "inlb-" +:+ owner +:+ "-" +:+ uid +:+ "-" +:+ h /\ hex_pattern 8 owner = true /\ nodeLoadBalancerServiceUIDPattern uid = true /\ hex_pattern 8 h = true.
Proof.
  unfold nodeLoadBalancerServiceFirewallPattern. match goal with |- context [two_groups 8 "-" ?p name] => set (pattern := p) end. split.
  - destruct (two_groups 8 "-" pattern name) as [[cl tail]|] eqn:E; [|done]. apply two_groups_spec in E as (-> & Hc & Hp). unfold pattern in Hp. bool_hyps.
    destruct (after_prefix "-" (drop_string (String.length tail - 9) tail)) as [t|] eqn:Et; [|done]. apply after_prefix_spec in Et. cbv zeta. intros Hsome.
    assert (cl = owner /\ take_string (String.length tail - 9) tail = uid /\ drop_string (S (String.length tail - 9)) tail = h) as (<- & <- & <-) by (split_and!; congruence). clear Hsome.
    pose proof (take_drop_string (String.length tail - 9) tail) as Hs. rewrite Et in Hs.
    assert (drop_string (S (String.length tail - 9)) tail = t) as ->.
    { clear -Et. revert Et. generalize (String.length tail - 9)%nat as n. intros n. revert tail. induction n as [|n IH]; intros [|ch r]; cbn [drop_string]; try done; [by intros [= -> ->]|apply IH]. }
    split_and!; try done. by rewrite Hs.
  - intros (-> & Ho & Hu & Hh). assert (String.length h = 8%nat) as Hl by by apply hex_length.
    assert (String.length (uid +:+ "-" +:+ h) - 9 = String.length uid)%nat as Hn by (rewrite !length_append, Hl; simpl; lia).
    assert (two_groups 8 "-" pattern ("inlb-" +:+ owner +:+ "-" +:+ uid +:+ "-" +:+ h) = Some (owner, uid +:+ "-" +:+ h)) as ->.
    { apply two_groups_spec. split_and!; [done..|]. unfold pattern. rewrite Hn, take_append, drop_append, Hu.
      assert (after_prefix "-" ("-" +:+ h) = Some h) as -> by by apply after_prefix_spec. rewrite Hh.
      assert (1 <= String.length uid)%nat as Hpos by (destruct uid; [done|simpl; lia]).
      rewrite (proj2 (Nat.leb_le 10 _)); [done|]. rewrite !length_append, Hl. simpl. lia. }
    cbv beta iota zeta. rewrite Hn, take_append. do 2 f_equal. change (uid +:+ "-" +:+ h) with (uid +:+ ("-" +:+ h)). rewrite <-append_assoc.
    assert (S (String.length uid) = String.length (uid +:+ "-")) as -> by (rewrite length_append; simpl; lia). apply drop_append.
Qed.

(** The validator of Service firewalls accepts exactly the firewalls of the account whose name is the one
    the cloud controller would give them for their present rules and some Service. *)
Theorem service_firewall_ownership firewall cluster account :
  ValidateNodeLoadBalancerServiceFirewall sha256_hex firewall cluster account = None
  <-> cluster <> "" /\ 1 <= account /\ fw_BillingAccountID firewall = account
    /\ exists uid hash, NodeLoadBalancerServiceFirewallName sha256_hex cluster uid (fw_Rules firewall) = Ok (EffectiveName firewall, hash).
Proof.
  unfold ValidateNodeLoadBalancerServiceFirewall, NodeLoadBalancerServiceFirewallName, billing_mismatch.
  destruct ((cluster == "") || _ || _) eqn:Eb.
  { split; [done|]. intros (H1 & H2 & H3 & _). exfalso. rewrite bool_decide_eq_false_2 in Eb by done. destruct (account <? 1) eqn:Ea; bool_hyps; [lia|].
    rewrite H3, Z.eqb_refl in Eb. done. }
  bool_hyps. assert (bool_decide (cluster = "") = false) as Hcl by by apply bool_decide_eq_false_2. rewrite Hcl. simpl. split.
  - destruct (nodeLoadBalancerServiceFirewallPattern (EffectiveName firewall)) as [[[owner uid] named]|] eqn:E; [|done]. apply service_pattern_spec in E as (En & Ho & Hu & Hh).
    case_test; [done|]. bool_hyps. destruct (NodeLoadBalancerServiceFirewallSpecHash sha256_hex (fw_Rules firewall)) as [hash|] eqn:Es; [|done]. case_test; [done|]. bool_hyps. intros _.
    split_and!; [done|lia|done|]. exists uid, hash. match goal with H : validNodeLoadBalancerServiceUID uid = true |- _ => rewrite H end. simpl. rewrite En. by subst.
  - intros (_ & _ & _ & uid & hash & Hn). case_test_in Hn; [done|]. bool_hyps.
    destruct (NodeLoadBalancerServiceFirewallSpecHash sha256_hex (fw_Rules firewall)) as [hash'|] eqn:Es; [|done]. injection Hn as Hn <-.
    assert (nodeLoadBalancerServiceFirewallPattern (EffectiveName firewall) = Some (nodeLoadBalancerShortHash sha256_hex cluster, uid, hash')) as ->.
    { apply service_pattern_spec. split_and!; [by rewrite <-Hn|apply short_hash_hex| |].
      - unfold validNodeLoadBalancerServiceUID in *. by bool_hyps.
      - unfold NodeLoadBalancerServiceFirewallSpecHash in Es. destruct (canonicalNodeLoadBalancerPortFirewallPolicy (fw_Rules firewall)); [|done]. injection Es as <-. apply short_hash_hex. }
    rewrite bool_decide_eq_true_2 by done. simpl. match goal with H : validNodeLoadBalancerServiceUID uid = true |- _ => rewrite H end. simpl. by rewrite bool_decide_eq_true_2.
Qed.
End Names.

(** ** Samples *)

Definition sample_rules : list FirewallRule :=
  [Build_FirewallRule "" "tcp" "inbound" (Some 443) (Some 443) "any" [];
   Build_FirewallRule "" "udp" "inbound" (Some 53) (Some 53) "ip_prefixes" ["10.0.0.0/8"; "192.168.4.0/24"]].
Definition reordered_rules : list FirewallRule :=
  [Build_FirewallRule "" "udp" "inbound" (Some 53) (Some 53) "ip_prefixes" ["192.168.4.0/24"; "10.0.0.0/8"];
   Build_FirewallRule "" "tcp" "inbound" (Some 443) (Some 443) "any" []].
Definition sample_text : string := "tcp|443|any|" +:+ newline +:+ "udp|53|ip_prefixes|10.0.0.0/8,192.168.4.0/24".
Lemma policy_text_identifies_witness :
  canonicalNodeLoadBalancerPortFirewallPolicy sample_rules = Ok sample_text /\ map policy_row sample_rules ≡ₚ map policy_row reordered_rules.
Proof.
  split; [vm_compute; reflexivity|].
  refine (proj1 (policy_text_identifies sample_rules reordered_rules sample_text sample_text _ _) eq_refl); vm_compute; reflexivity.
Defined.

(** A stand-in for SHA-256 in hexadecimal. *)
Definition sample_sha256 (s : string) : string := "00112233445566778899aabbccddeeff00112233445566778899aabbccddeeff".
Definition sample_vm : string := "aaaaaaaa-aaaa-4aaa-8aaa-aaaaaaaaaaaa".
Lemma vm_firewall_name_roundtrip_witness :
  ParseNodeLoadBalancerVMFirewallName sample_sha256 "prod" ("inlb-00112233-vm-" +:+ sample_vm) = Some sample_vm.
Proof. refine (proj2 (vm_firewall_name_roundtrip sample_sha256 _ "prod" ("inlb-00112233-vm-" +:+ sample_vm) sample_vm) _); [intros s|]; vm_compute; reflexivity. Defined.
Lemma service_firewall_ownership_witness :
  let firewall := Build_Firewall "" "" "inlb-00112233-svc-1-00112233" "" 7 sample_rules None "" in
  ValidateNodeLoadBalancerServiceFirewall sample_sha256 firewall "prod" 7 = None.
Proof.
  refine (proj2 (service_firewall_ownership sample_sha256 _ (Build_Firewall "" "" "inlb-00112233-svc-1-00112233" "" 7 sample_rules None "") "prod" 7) _); [intros s; vm_compute; reflexivity|].
  split; [discriminate|]. split; [lia|]. split; [reflexivity|]. exists "svc-1", "00112233". vm_compute. reflexivity.
Defined.
