(* ===== verification/CSIWire.v ===== *)
(** * The CSI controller on the wire

    The controller linked with the client (modules/csi-driver/cmd/inspace-csi-driver/main.go gives the
    adapter a [sdk.Client]): every call of the adapter's [API] interface is replaced by the client's
    method, so an RPC becomes one program over HTTP requests, the fence store, Kubernetes and the clock.
    The client returns a partly filled result beside some errors; [leftovers] stands for it and may be
    anything. *)

From S2P Require Import Prelude GoErrors GoURL ClientTypes ClientErrors CSIFence CSIDetachAuthority Prog CSIAdapter CSIVolumes CSISpecs CSISafety CSIRetention CSICorrectness CSIDriver CSIWorld CSIResults CSILink.
From S2P Require GoNet GoHTTP ClientJSON ClientTransport ClientEndpoints ClientRoutes ClientCalls ClientWire ClientPromises ClientSafety ClientFloatingSafety ClientTheorems.
Import Client GoHTTP ClientJSON ClientTransport ClientCalls.

Record leftovers := {
  lo_Disk : error -> option Disk; lo_Disks : error -> list Disk; lo_VM : error -> option VM; lo_VMs : error -> list VM;
  lo_Network : error -> option Network; lo_Storage : error -> option VMStorage
}.

(** The client's call behind an action, and how its result answers the action. *)
Inductive served (x : act) := Served (ctx : context) (call : sdk_call) (reply : result (sdk_result call) -> res x).
Arguments Served {x} ctx call reply.

Definition pair_of {A} (left : error -> option A) (r : result A) : option A * goerr := match r with Ok v => (Some v, None) | Err e => (left e, Some e) end.
Definition list_of {A} (left : error -> list A) (r : result (list A)) : list A * goerr := match r with Ok v => (v, None) | Err e => (left e, Some e) end.
Definition error_of {A} (r : result A) : goerr := match r with Ok _ => None | Err e => Some e end.

Section Wire.
Context `{JD : JSONDecoder} `{FT : FmtText} (c : ClientTransport.Client) (lo : leftovers).

Definition served_by (x : act) : option (served x) :=
  match x as x return option (served x) with
  | ListDisks ctx l => Some (Served (x := ListDisks ctx l) ctx (Do_ListDisks l) (list_of (lo_Disks lo)))
  | GetDisk ctx l d => Some (Served (x := GetDisk ctx l d) ctx (Do_GetDisk l d) (pair_of (lo_Disk lo)))
  | CreateDisk ctx l i => Some (Served (x := CreateDisk ctx l i) ctx (Do_CreateDisk l i) (pair_of (lo_Disk lo)))
  | DeleteDisk ctx l d => Some (Served (x := DeleteDisk ctx l d) ctx (Do_DeleteDisk l d) error_of)
  | ListVMs ctx l => Some (Served (x := ListVMs ctx l) ctx (Do_ListVMs l) (list_of (lo_VMs lo)))
  | GetVM ctx l u => Some (Served (x := GetVM ctx l u) ctx (Do_GetVM l u) (pair_of (lo_VM lo)))
  | GetNetwork ctx l n => Some (Served (x := GetNetwork ctx l n) ctx (Do_GetNetwork l n) (pair_of (lo_Network lo)))
  | AttachDisk ctx l v d => Some (Served (x := AttachDisk ctx l v d) ctx (Do_AttachDisk l v d) (pair_of (lo_Storage lo)))
  | DetachDisk ctx l v d => Some (Served (x := DetachDisk ctx l v d) ctx (Do_DetachDisk l v d) error_of)
  | ResizeAttachedDisk ctx l v d n => Some (Served (x := ResizeAttachedDisk ctx l v d n) ctx (Do_ResizeAttachedDisk l v d n) (pair_of (lo_Storage lo)))
  | _ => None
  end.

(** ** The linked program *)

Inductive sact := Http (x : hact) | Local (x : act).
Definition sres (x : sact) : Type := match x with Http x => hres x | Local x => res x end.

Fixpoint over_http {A} (p : prog hres A) : prog sres A :=
  match p with
  | Ret a => Ret a
  | Act x k => Act (res := sres) (Http x) (fun r => over_http (k r))
  | Panic => Panic
  | OutOfFuel => OutOfFuel
  end.
Definition on_wire (x : act) : prog sres (res x) :=
  match served_by x with
  | Some (Served ctx call reply) => let! r := over_http (sdk_run c (Some ctx) call) in Ret (reply r)
  | None => Act (res := sres) (Local x) Ret
  end.
Fixpoint wire_link {A} (p : program A) : prog sres A :=
  match p with
  | Ret a => Ret a
  | Act x k => bind (on_wire x) (fun r => wire_link (k r))
  | Panic => Panic
  | OutOfFuel => OutOfFuel
  end.

(** ** Executions *)

Definition lift (e : event hres) : event sres := Ev (res := sres) (Http (ev_act e)) (ev_res e).

(** Every answer type has a value; it stands for the answer of a call during which the process stopped, which nothing
    after it has seen. *)
Definition some_answer (x : act) : res x :=
  match x as x return res x with
  | ListDisks _ _ => ([], None) | GetDisk _ _ _ => (None, None) | CreateDisk _ _ _ => (None, None) | DeleteDisk _ _ _ => None
  | ListVMs _ _ => ([], None) | GetVM _ _ _ => (None, None) | GetNetwork _ _ _ => (None, None) | AttachDisk _ _ _ _ => (None, None)
  | DetachDisk _ _ _ _ => None | ResizeAttachedDisk _ _ _ _ _ => (None, None) | FenceGet _ _ => (None, None) | FenceList _ _ => ([], None)
  | FenceCreate _ _ => (None, false, None) | FenceSetReceipt _ _ _ => (None, None) | FenceSetObservation _ _ _ => (None, None)
  | FenceDelete _ _ => None | ProviderIDForNode _ _ => ("", None) | AuthorizeMissingNodeDetach _ _ => None | Now => 0
  | Rand => Err (Msg "") | CtxErr _ => None | Wait _ _ => None | Lock _ _ => None | Unlock _ => tt
  end.

(** The history on the wire [w] unfolds the adapter's history [h]: each call of the client contributes the events of
    one whole execution of it, whose result is the recorded answer. *)
Inductive unfolds : list (event sres) -> history -> Prop :=
  | unfolds_nil : unfolds [] []
  | unfolds_local w h x r : served_by x = None -> unfolds w h -> unfolds (Ev (res := sres) (Local x) r :: w) (Ev x r :: h)
  | unfolds_call w h x ctx call reply v new :
      served_by x = Some (Served ctx call reply) -> exec (sdk_run c (Some ctx) call) [] (Some v) new ->
      unfolds w h -> unfolds (map lift new ++ w) (Ev x (reply v) :: h).
(** The process may stop during the newest call, and only there. *)
Inductive unfolds_to : list (event sres) -> history -> Prop :=
  | unfolds_whole w h : unfolds w h -> unfolds_to w h
  | unfolds_cut w h x ctx call reply new :
      served_by x = Some (Served ctx call reply) -> exec (sdk_run c (Some ctx) call) [] None new ->
      unfolds w h -> unfolds_to (map lift new ++ w) (Ev x (some_answer x) :: h).

Lemma over_http_exec {A} (p : prog hres A) h w o w' :
  exec (over_http p) (map lift h ++ w) o w' -> exists h', w' = map lift h' ++ w /\ exec p h o h'.
Proof.
  revert h. induction p as [a|x k IH| |]; intros h; simpl.
  - intros [-> Ho]. by exists h.
  - intros [[-> ->]|[r Hr]]; [exists h; auto|]. apply (IH r (Ev x r :: h)) in Hr as (h' & -> & He). exists h'. eauto.
  - intros [-> ->]. by exists h.
  - intros [-> ->]. by exists h.
Qed.
Lemma exec_bind {act' : Type} {res' : act' -> Type} {A B} (p : prog res' A) (f : A -> prog res' B) h o h' :
  exec (bind p f) h o h' -> (exists a h1, exec p h (Some a) h1 /\ exec (f a) h1 o h') \/ (o = None /\ exec p h None h').
Proof.
  revert h. induction p as [a|x k IH| |]; intros h; simpl; [intros H; left; exists a, h; auto| |intros [-> ->]; by right..].
  intros [[-> ->]|[r Hr]]; [right; auto|]. apply IH in Hr as [(a & h1 & H1 & H2)|[-> H]]; [left; exists a, h1; eauto|right; eauto].
Qed.
Lemma exec_crash {act' : Type} {res' : act' -> Type} {A} (p : prog res' A) h : exec p h None h.
Proof. destruct p; simpl; auto. Qed.
Lemma exec_cut {act' : Type} {res' : act' -> Type} {A} (p : prog res' A) h o h' : exec p h o h' -> exec p h None h'.
Proof.
  revert h. induction p as [a|x k IH| |]; intros h; simpl; [intros [-> _]; auto| |by intros [_ ->]..]. intros [[_ ->]|[r Hr]]; [by left|right; eauto].
Qed.

(** An execution of the linked program is an execution of the adapter's, unfolded. *)
Lemma wire_exec {A} (p : program A) h w o w' :
  unfolds w h -> exec (wire_link p) w o w' -> exists o' h', exec p h o' h' /\ unfolds_to w' h'.
Proof.
  revert h w. induction p as [a|x k IH| |]; intros h w Hu; simpl;
    [intros [-> Ho]; exists (Some a), h; split; [auto|by apply unfolds_whole]| |intros [_ ->]; exists None, h; split; [done|by apply unfolds_whole]..].
  unfold on_wire. destruct (served_by x) as [[ctx call reply]|] eqn:E.
  - intros He. apply exec_bind in He as [(r & w1 & He & Hk)|[_ He]].
    + apply exec_bind in He as [(v & w2 & He & [-> [[= ->]|]])|[? _]]; [|done..]. apply (over_http_exec _ [] w) in He as (new & -> & He).
      destruct (IH (reply v) (Ev x (reply v) :: h) _ (unfolds_call _ _ _ _ _ _ _ _ E He Hu) Hk) as (o' & h' & Hx & Hu'). exists o', h'. split; [right; by exists (reply v)|done].
    + exists None, (Ev x (some_answer x) :: h). split; [right; exists (some_answer x); apply exec_crash|].
      apply exec_bind in He as [(v & w2 & He & [-> _])|[_ He]]; apply (over_http_exec _ [] w) in He as (new & -> & He).
      * by apply (unfolds_cut w h x ctx call reply new E); [eapply exec_cut|].
      * by apply (unfolds_cut w h x ctx call reply new E).
  - simpl. intros [[-> ->]|[r Hr]]; [exists None, h; split; [by left|by apply unfolds_whole]|].
    destruct (IH r (Ev x r :: h) _ (unfolds_local _ _ _ _ E Hu) Hr) as (o' & h' & Hx & Hu'). exists o', h'. split; [right; by exists r|done].
Qed.

(** ** Mutations on the wire *)

Definition wire_requests (w : list (event sres)) : list request :=
  flat_map (fun e => match ev_act e with Http (RoundTrip rq) => [rq] | _ => [] end) w.
Definition wire_mutations (w : list (event sres)) : list request := List.filter (fun rq => isMutation (rq_Method rq)) (wire_requests w).
Definition wire_plain_event (e : event sres) : Prop :=
  match ev_act e as x return sres x -> Prop with Http x => fun r => ClientWire.plain_event (Ev x r) | Local _ => fun _ => True end (ev_res e).
Definition wire_plain (w : list (event sres)) : Prop := Forall wire_plain_event w.

Lemma wire_mutations_lift new w : wire_mutations (map lift new ++ w) = ClientWire.mutations new ++ wire_mutations w.
Proof.
  unfold wire_mutations, wire_requests, ClientWire.mutations, ClientWire.requests. rewrite flat_map_app, List.filter_app. do 2 f_equal.
  induction new as [|[x r] new IH]; simpl; [done|]. by rewrite IH.
Qed.
Lemma wire_plain_lift new w : wire_plain (map lift new ++ w) -> ClientWire.plain new /\ wire_plain w.
Proof.
  intros [H1 H2]%Forall_app. split; [|done]. clear H2. induction new as [|[x r] new IH]; [constructor|]. apply Forall_cons in H1 as [Hx H1]. constructor; [exact Hx|by apply IH].
Qed.

(** The client's mutations are the adapter's. *)
Lemma served_mutation x :
  match served_by x with Some (Served _ call _) => isMutation (w_method (wire_of call)) = is_mutation x | None => is_mutation x = false end.
Proof. by destruct x. Qed.
(** A refusal that the adapter sees is one that the client reported. *)
Lemma served_blocked x :
  match served_by x with
  | Some (Served _ call reply) => (forall v, blocked_reply (Ev x (reply v)) = true -> exists e, v = Err e /\ ClientWire.undispatched e = true)
      /\ blocked_reply (Ev x (some_answer x)) = false
  | None => True
  end.
Proof.
  assert (forall e, Is e ErrMutationBlocked = true -> ClientWire.undispatched e = true) as Hi by (intros e H; unfold ClientWire.undispatched; by rewrite H).
  destruct x; simpl; try done; (split; [|done]); intros [v|e]; simpl; intros H; try done; exists e; auto.
Qed.

(** The request that each mutation of the adapter stands for. *)
Definition mutation_wire (x : act) : option (context * wire) :=
  match x with
  | CreateDisk ctx l i => Some (ctx, send_form MethodPost (disks_path l []) (match ClientEndpoints.createDisk_check i with Ok t => ClientEndpoints.createDisk_form i t | Err _ => [] end))
  | DeleteDisk ctx l d => Some (ctx, Build_wire MethodDelete (disks_path l [ClientRoutes.Uid d]) [] None "")
  | AttachDisk ctx l v d => Some (ctx, send_form MethodPost (vm_path l [ClientRoutes.Lit "storage"; ClientRoutes.Lit "attach"]) [("uuid", v); ("storage_uuid", d)])
  | DetachDisk ctx l v d => Some (ctx, send_form MethodPost (vm_path l [ClientRoutes.Lit "storage"; ClientRoutes.Lit "detach"]) [("uuid", v); ("storage_uuid", d)])
  | ResizeAttachedDisk ctx l v d n =>
      Some (ctx, send_form MethodPatch (vm_path l [ClientRoutes.Lit "storage"]) [("uuid", v); ("disk_uuid", d); ("size_gb", GoNet.FormatInt n)])
  | _ => None
  end.
Lemma served_wire x : is_mutation x = true ->
  match served_by x with Some (Served ctx call _) => mutation_wire x = Some (ctx, wire_of call) | None => True end.
Proof. by destruct x. Qed.

(** The wire [wo] at a request of the adapter's mutation [x]: before it lie the beginning of the call of [x], without a
    mutation, and the wire of the adapter's history [older] up to [x]. *)
Definition sends (rq : request) (wo : list (event sres)) (x : act) (older : history) : Prop :=
  exists ctx v begun before, mutation_wire x = Some (ctx, v) /\ rq = request_of c (Some ctx) v
    /\ wo = map lift begun ++ before /\ wire_mutations (map lift begun) = [] /\ unfolds before older.

Lemma lift_split new wn e l : map lift new = wn ++ e :: l -> exists n1 y begun, new = n1 ++ y :: begun /\ e = lift y /\ l = map lift begun.
Proof.
  intros H. apply map_eq_app in H as (n1 & n2 & -> & _ & H2). destruct n2 as [|y begun]; [done|]. injection H2 as <- <-. by exists n1, y, begun.
Qed.
(** A mutation among the events of a call. *)
Lemma call_sends w h x ctx call reply o new n1 rq r begun :
  served_by x = Some (Served ctx call reply) -> exec (sdk_run c (Some ctx) call) [] o new -> unfolds w h ->
  new = n1 ++ Ev (res := hres) (RoundTrip rq) r :: begun -> isMutation (rq_Method rq) = true ->
  is_mutation x = true /\ sends rq (map lift begun ++ w) x h.
Proof.
  intros Hx He Hu -> Hrq. pose proof (served_mutation x) as Hm. pose proof (served_wire x) as Hw. rewrite Hx in Hm, Hw.
  pose proof (ClientTheorems.call_mutations c (Some ctx) call o _ He) as Hc.
  assert (ClientWire.mutations (n1 ++ Ev (res := hres) (RoundTrip rq) r :: begun) = ClientWire.mutations n1 ++ rq :: ClientWire.mutations begun) as E.
  { unfold ClientWire.mutations, ClientWire.requests. rewrite flat_map_app, List.filter_app. simpl. by rewrite Hrq. }
  rewrite E in Hc. destruct Hc as [Hc|Hc]; [by apply app_eq_nil in Hc as [_ ?]|].
  destruct (ClientWire.mutations n1) as [|q n]; simpl in Hc; [|injection Hc as _ Hc; by apply app_eq_nil in Hc as [_ ?]].
  injection Hc as -> Hb. assert (is_mutation x = true) as Hmx by (by rewrite <-Hm). split; [done|].
  exists ctx, (wire_of call), begun, w. split_and!; [by apply Hw|done|done| |done].
  pose proof (wire_mutations_lift begun []) as Hl. rewrite app_nil_r, Hb in Hl. exact Hl.
Qed.
(** Every mutation on the wire is the request of an adapter's mutation. *)
Lemma call_split w h x ctx call reply o new wn rq r wo (Q : Prop) :
  served_by x = Some (Served ctx call reply) -> exec (sdk_run c (Some ctx) call) [] o new -> unfolds w h -> isMutation (rq_Method rq) = true ->
  map lift new ++ w = wn ++ Ev (res := sres) (Http (RoundTrip rq)) r :: wo ->
  (is_mutation x = true -> sends rq wo x h -> Q) -> (forall wn', w = wn' ++ Ev (res := sres) (Http (RoundTrip rq)) r :: wo -> Q) -> Q.
Proof.
  intros Hx He Hu Hrq E Hcall Hold. apply app_eq_app in E as (l & [[E1 E2]|[E1 E2]]); [|by apply (Hold l)].
  destruct l as [|e l]; [by apply (Hold [])|]. injection E2 as <- ->. apply lift_split in E1 as (n1 & [y s] & begun & -> & Ey & ->).
  unfold lift in Ey. simpl in Ey. destruct y as [q|q|q]; try discriminate Ey. injection Ey as ->.
  destruct (call_sends w h x ctx call reply o _ n1 q s begun Hx He Hu eq_refl Hrq) as [H1 H2]. by apply Hcall.
Qed.
Lemma unfolds_mutation w h wn rq r wo : unfolds w h -> w = wn ++ Ev (res := sres) (Http (RoundTrip rq)) r :: wo -> isMutation (rq_Method rq) = true ->
  exists newer x r' older, h = newer ++ Ev x r' :: older /\ is_mutation x = true /\ sends rq wo x older.
Proof.
  intros Hu Ew Hrq. revert wn Ew. induction Hu as [|w h x r0 Hx Hu IH|w h x ctx call reply v new Hx He Hu IH]; intros wn Ew.
  - by destruct wn.
  - destruct wn as [|e wn]; [done|]. injection Ew as _ Ew. destruct (IH wn Ew) as (newer & y & s & older & -> & H). by exists (Ev x r0 :: newer), y, s, older.
  - eapply call_split; [exact Hx|exact He|exact Hu|exact Hrq|exact Ew| |].
    + intros Hm Hs. by exists [], x, (reply v), h.
    + intros wn' Ew'. destruct (IH wn' Ew') as (newer & y & s & older & -> & H). by exists (Ev x (reply v) :: newer), y, s, older.
Qed.
Lemma unfolds_to_mutation w h wn rq r wo : unfolds_to w h -> w = wn ++ Ev (res := sres) (Http (RoundTrip rq)) r :: wo -> isMutation (rq_Method rq) = true ->
  exists newer x r' older, h = newer ++ Ev x r' :: older /\ is_mutation x = true /\ sends rq wo x older.
Proof.
  intros [w' h' Hu|w' h' x ctx call reply new Hx He Hu] Ew Hrq; [by eapply unfolds_mutation|].
  eapply call_split; [exact Hx|exact He|exact Hu|exact Hrq|exact Ew| |].
  - intros Hm Hs. by exists [], x, (some_answer x), h'.
  - intros wn' Ew'. destruct (unfolds_mutation _ _ _ _ _ _ Hu Ew' Hrq) as (newer & y & s & older & -> & H). by exists (Ev x (some_answer x) :: newer), y, s, older.
Qed.

(** The adapter's mutations that were not refused. *)
Definition unrefused (h : history) : list (event res) := List.filter (fun e => is_mutation (ev_act e) && negb (blocked_reply e)) h.
(** One call adds to the wire no more mutations than to the adapter's unrefused ones. *)
Lemma call_count w h x ctx call reply o new r :
  served_by x = Some (Served ctx call reply) -> exec (sdk_run c (Some ctx) call) [] o new -> r = match o with Some v => reply v | None => some_answer x end ->
  ClientWire.plain new -> (List.length (wire_mutations w) <= List.length (unrefused h))%nat ->
  (List.length (wire_mutations (map lift new ++ w)) <= List.length (unrefused (Ev x r :: h)))%nat.
Proof.
  intros Hx He Hr Hn IH. rewrite wire_mutations_lift, length_app. pose proof (served_mutation x) as Hm. pose proof (served_blocked x) as Hb. rewrite Hx in Hm, Hb.
  destruct (ClientTheorems.call_mutations c (Some ctx) call o new He) as [E|E]; rewrite E; unfold unrefused in *; cbn [List.filter List.length ev_act]; [destruct (_ && _); cbn [List.length]; lia|].
  assert (is_mutation x = true) as Hmx.
  { rewrite <-Hm. assert (In (call_request c (Some ctx) call) (ClientWire.mutations new)) as Hf by (rewrite E; by left). by apply filter_In in Hf as [_ Hf]. }
  rewrite Hmx. cbn [andb]. destruct (blocked_reply (Ev x r)) eqn:Er; cbn [negb List.length]; [exfalso|lia]. destruct Hb as [Hb1 Hb2]. subst r. destruct o as [v|]; [|congruence].
  destruct (Hb1 v Er) as (e & -> & Hue). by rewrite (ClientTheorems.call_unsent c (Some ctx) call e new He Hn Hue) in E.
Qed.
Lemma unfolds_count w h : unfolds w h -> wire_plain w -> (List.length (wire_mutations w) <= List.length (unrefused h))%nat.
Proof.
  induction 1 as [|w h x r Hx Hu IH|w h x ctx call reply v new Hx He Hu IH]; intros Hp.
  - simpl. lia.
  - apply Forall_cons in Hp as [_ Hp]. pose proof (served_mutation x) as Hm. rewrite Hx in Hm. unfold unrefused. simpl. rewrite Hm. simpl. by apply IH.
  - apply wire_plain_lift in Hp as [Hn Hp]. by eapply call_count; eauto.
Qed.
Lemma unfolds_to_count w h : unfolds_to w h -> wire_plain w -> (List.length (wire_mutations w) <= List.length (unrefused h))%nat.
Proof.
  intros [w' h' Hu|w' h' x ctx call reply new Hx He Hu] Hp; [by apply unfolds_count|].
  apply wire_plain_lift in Hp as [Hn Hp]. by eapply call_count; eauto using unfolds_count.
Qed.
Lemma unrefused_mutations h : (List.length (unrefused h) <= List.length (mutations h))%nat.
Proof.
  unfold unrefused, mutations. induction h as [|[x r] h IH]; simpl; [lia|]. destruct (is_mutation x); simpl; [destruct (negb _); simpl; lia|done].
Qed.

(** What a controller that may mutate under [G] does on the wire: an execution of the linked program unfolds one
    execution of the adapter's, and at each request that can change the cloud, the exchanges of the adapter that the
    wire before the request unfolds satisfy [G]. *)
Definition wire_guarded {A} (G : act -> history -> Prop) (p : program A) : Prop :=
  forall o w, exec (wire_link p) [] o w -> exists o' h, exec p [] o' h /\ unfolds_to w h
    /\ (forall wn rq r wo, w = wn ++ Ev (res := sres) (Http (RoundTrip rq)) r :: wo -> isMutation (rq_Method rq) = true ->
          exists newer x r' older, h = newer ++ Ev x r' :: older /\ sends rq wo x older /\ G x older)
    /\ (wire_plain w -> (List.length (wire_mutations w) <= List.length (unrefused h) <= 1)%nat).
Lemma guarded_on_wire {A} G (p : program A) : dispatches p (on_mutation G) -> (forall x h, G x h -> performed unmutating h) -> wire_guarded G p.
Proof.
  intros Hd HG o w He. destruct (wire_exec p [] [] o w unfolds_nil He) as (o' & h & Hx & Hu). exists o', h. split_and!; [done|done| |].
  - intros wn rq r wo Ew Hrq. destruct (unfolds_to_mutation w h wn rq r wo Hu Ew Hrq) as (newer & x & r' & older & Hh & Hm & Hs).
    exists newer, x, r', older. split_and!; [done|done|]. by apply (Hd o' h newer x r' older Hx Hh).
  - intros Hp. split; [by apply unfolds_to_count|]. etrans; [apply unrefused_mutations|]. by eapply dispatches_one.
Qed.
End Wire.

Section Controller.
Context `{TT : TimeText} `{JD : JSONDecoder} `{FT : FmtText} (c : ClientTransport.Client) (lo : leftovers).
Context (sha256_hex : string -> string) (fuel : nat) (a : Adapter) (ctx : context) (d : Driver).

Lemma publish_guard_unmutated handle node x h : publish_rpc_guard a ctx d handle node x h -> performed unmutating h.
Proof.
  intros (v & newer & older & _ & -> & Ho & Hg). apply Forall_app. split; [by eapply attach_guard_unmutated|].
  eapply Forall_impl; [exact Ho|]. intros e He. by apply quiet_unmutating, reading_quiet.
Qed.

(** C14: the whole controller on the wire, from the RPC to the HTTP request. Whatever the network, Kubernetes and the
    clock answer, and wherever the process stops: the exchanges on the wire unfold one execution of the adapter, in
    which each call of the client is one whole execution of the client's method with its own result (only the newest
    call may be cut off); a request that can change the cloud is the request of one of its mutations, and the
    exchanges on the wire before that request unfold a history that gives the mutation its authority (the fence, the
    reads and the scan). One RPC sends at most one such request, and none for a mutation that the client reported as
    blocked. *)
Theorem controller_wire_authorized create handle publish node expand :
  wire_guarded c lo (create_rpc_guard sha256_hex a ctx d create) (link sha256_hex fuel a ctx (CreateVolume d (Some create)))
  /\ wire_guarded c lo (delete_rpc_guard a ctx d handle) (link sha256_hex fuel a ctx (DeleteVolume_rpc d (Some handle)))
  /\ wire_guarded c lo (publish_rpc_guard a ctx d (PR_VolumeId publish) (PR_NodeId publish)) (link sha256_hex fuel a ctx (ControllerPublishVolume d (Some publish)))
  /\ wire_guarded c lo (unpublish_rpc_guard a ctx d handle node) (link sha256_hex fuel a ctx (ControllerUnpublishVolume d (Some (handle, node))))
  /\ wire_guarded c lo (expand_rpc_guard a ctx d expand) (link sha256_hex fuel a ctx (ControllerExpandVolume d (Some expand))).
Proof.
  split_and!; (apply guarded_on_wire; [eapply wp_dispatches|]).
  - apply create_rpc_guarded.
  - intros x h (cap & r & l & _ & H). by eapply create_guard_unmutated.
  - apply delete_rpc_guarded.
  - intros x h (v & _ & H). by eapply delete_guard_unmutated.
  - apply publish_rpc_guarded.
  - apply publish_guard_unmutated.
  - apply unpublish_rpc_guarded.
  - intros x h (v & _ & H). by eapply detach_guard_unmutated.
  - apply expand_rpc_guarded.
  - intros x h (v & r & l & _ & _ & H). by eapply resize_guard_unmutated.
Qed.
End Controller.

(** ** A CreateVolume RPC over HTTP *)

Definition disk_json : json := JObj [("uuid", JStr disk1); ("display_name", JStr "pvc-1"); ("status", JStr "Active"); ("size_gb", JInt 10);
  ("billing_account_id", JInt 7); ("source_image_type", JStr "EMPTY"); ("snapshots", JArr [])].
#[local] Instance wire_json : JSONText := ClientTheorems.named_json [("none", JArr []); ("disk", disk_json); ("disks", JArr [disk_json])].
#[local] Instance wire_decoder : JSONDecoder := ClientTheorems.value_decoder wire_json.
#[local] Existing Instance ClientTheorems.reference_fmt.
Definition no_leftovers : leftovers := Build_leftovers (fun _ => None) (fun _ => []) (fun _ => None) (fun _ => []) (fun _ => None) (fun _ => None).

(** The reference cluster, whose disks are served over HTTP: the collection, one disk, a new disk. *)
Definition serve (rq : request) (w : world) : result response * world :=
  let created := match w_disks w with [] => false | _ => true end in
  if rq_Method rq == MethodPost then (Ok (ClientTheorems.plain_response 201 "$disk"), set_disks w [make_disk disk1 "pvc-1" 10 7])
  else if HasPrefix (rq_Path rq) "/v1/bkk/storage/disks/" then (Ok (ClientTheorems.plain_response 200 "$disk"), w)
  else (Ok (ClientTheorems.plain_response 200 (if created then "$disks" else "$none")), w).
Definition http_step (x : sact) : world -> sres x * world :=
  match x as x return world -> sres x * world with
  | Http (BuildRequest _) => fun w => (None, w)
  | Http (ContextErr _) => fun w => (None, w)
  | Http (RoundTrip rq) => fun w => serve rq w
  | Local x => world_step x
  end.
Definition create_request : CreateVolumeRequest := 
  Build_CreateVolumeRequest "pvc-1" false ∅ ∅ [Some (Build_VolumeCapability (Some SINGLE_NODE_WRITER) (AccessMount (Some (Build_MountVolume "ext4" []))))] None (Some (10 * gib, 0)).
Definition wire_run :=
  run_hist http_step (wire_link (ClientTheorems.sample_client true) no_leftovers (link no_hash enough_fuel adapter CSIWorld.request (CreateVolume controller (Some create_request)))) (cluster [] []) [].

Lemma mutation_split (w : list (event sres)) rq : wire_mutations w = [rq] ->
  isMutation (rq_Method rq) = true /\ exists wn r wo, w = wn ++ Ev (res := sres) (Http (RoundTrip rq)) r :: wo.
Proof.
  intros H. assert (In rq (wire_mutations w)) as Hin by (rewrite H; by left). apply filter_In in Hin as [Hin Hm]. split; [exact Hm|]. clear H Hm.
  induction w as [|[x r] w IH]; [done|]. unfold wire_requests in Hin. simpl in Hin. apply in_app_iff in Hin as [Hin|Hin].
  - destruct x as [[q|q|q]|x]; try done. destruct Hin as [->|[]]. by exists [], r, w.
  - destruct (IH Hin) as (wn & r' & wo & ->). by exists (Ev x r :: wn), r', wo.
Qed.

(** The RPC succeeds over HTTP, with one POST, which is the request of the adapter's authorised CreateDisk: the wire
    before it unfolds the fence and the reads of its guard. *)
Lemma controller_wire_authorized_witness :
  (exists resp, wire_run.1.1 = Some (Reply resp) /\ CVR_CapacityBytes resp = 10 * gib)
  /\ List.length (wire_mutations wire_run.2) = 1%nat
  /\ exists wn rq r wo x older, wire_run.2 = wn ++ Ev (res := sres) (Http (RoundTrip rq)) r :: wo /\ rq_Method rq = MethodPost
    /\ sends (ClientTheorems.sample_client true) no_leftovers rq wo x older
    /\ create_rpc_guard no_hash adapter CSIWorld.request controller create_request x older.
Proof.
  split; [eexists; split; [vm_compute; reflexivity|vm_compute; reflexivity]|]. split; [vm_compute; reflexivity|].
  destruct (proj1 (controller_wire_authorized (ClientTheorems.sample_client true) no_leftovers no_hash enough_fuel adapter CSIWorld.request controller
    create_request "" (Build_PublishRequest "" "" None) "" (Build_ExpandRequest "" None None "" "")) _ _ (run_hist_exec http_step _ (cluster [] []) [])) as (o' & h & _ & _ & Hg & _).
  change (run_hist http_step _ (cluster [] []) []) with wire_run in Hg.
  destruct (wire_mutations wire_run.2) as [|rq [|]] eqn:E; [vm_compute in E; discriminate E| |vm_compute in E; discriminate E].
  destruct (mutation_split wire_run.2 rq E) as [Hm (wn & r & wo & Hw)].
  destruct (Hg wn rq r wo Hw Hm) as (newer & x & r' & older & _ & Hs & HG).
  exists wn, rq, r, wo, x, older. split; [exact Hw|]. split; [|split; [exact Hs|exact HG]].
  assert (option_map rq_Method (head (wire_mutations wire_run.2)) = Some MethodPost) as Hp by (vm_compute; reflexivity).
  rewrite E in Hp. simpl in Hp. by injection Hp.
Defined.
