(* ===== verification/KubernetesTransport.v ===== *)
(** * The Kubernetes API over HTTPS

    Models modules/csi-driver/pkg/cloud/inspace/kubernetes.go (the resolver and its construction, the
    exact read of a Node) and [kubernetesAPIRequestWithLimit] of kubernetes_fence.go, through which the
    Lease store and the missing-node authority send their requests. Files, the process environment and
    the wire are the environment's. *)

From S2P Require Import Prelude GoErrors GoURL CSIFence CSIDetachAuthority Prog GoJSON GoHTTP CSIAdapter KubernetesFence.

Inductive ract :=
  | Getenv (key : string)          (* os.Getenv *)
  | ReadFile (path : string)       (* os.ReadFile *)
  | Wire (x : hact).
Definition rres (x : ract) : Type :=
  match x with Getenv _ => string | ReadFile _ => result string | Wire x => hres x end.
Abbreviation rprogram := (prog rres).
Abbreviation rhistory := (list (event rres)).

(** A program over HTTP as a program over all of these. *)
Fixpoint on_network {A} (p : prog hres A) : rprogram A :=
  match p with
  | Ret a => Ret a
  | Act x k => Act (res := rres) (Wire x) (fun r => on_network (k r))
  | Panic => Panic
  | OutOfFuel => OutOfFuel
  end.

(** ** The resolver *)

Record KubernetesNodeResolver := { kr_baseURL : URL; kr_timeout : Z; kr_tokenPath : string; kr_namespace : string }.
Record KubernetesResolverConfig := {
  kc_BaseURL : string; kc_CAFile : string; kc_TokenFile : string; kc_Namespace : string; kc_NamespaceFile : string; kc_Timeout : Z
}.
Definition serviceAccountPath : string := "/var/run/secrets/kubernetes.io/serviceaccount".

(** [net.JoinHostPort]. *)
Definition JoinHostPort (host port : string) : string :=
  if ContainsChar ":" host then "[" +:+ host +:+ "]:" +:+ port else host +:+ ":" +:+ port.
(** [strings.Trim(s, "[]")]. *)
Definition trim_brackets (s : string) : string :=
  let fix go l := match l with c :: r => if (c == "["%char) || (c == "]"%char) then go r else l | [] => [] end in
  string_of_list_ascii (rev (go (rev (go (list_ascii_of_string s))))).

Section Construction.
(** [CertPool.AppendCertsFromPEM] of crypto/x509: whether the text holds a certificate. *)
Context (AppendCertsFromPEM : string -> bool).

Definition resolverNamespace (cfg : KubernetesResolverConfig) : rprogram (result string) :=
  let namespace := TrimSpace (kc_Namespace cfg) in
  if (namespace == "") && (kc_NamespaceFile cfg != "") then
    let! value := call (ReadFile (kc_NamespaceFile cfg)) in
    match value with
    | Err e => Ret (Err (Wrap "read Kubernetes ServiceAccount namespace" [e]))
    | Ok v => Ret (Ok (TrimSpace v))
    end
  else Ret (Ok namespace).

Definition NewKubernetesNodeResolver (cfg : KubernetesResolverConfig) : rprogram (result KubernetesNodeResolver) :=
  let invalid := Err (Msg "Kubernetes API base URL must be an absolute HTTPS URL") in
  match url_Parse (kc_BaseURL cfg) with
  | None => Ret invalid
  | Some u =>
    if (URL_Scheme u != "https") || (URL_Host u == "") || (URL_User u != None) || (URL_RawQuery u != "") || (URL_Fragment u != "") then Ret invalid
    else if (kc_CAFile cfg == "") || (kc_TokenFile cfg == "") then Ret (Err (Msg "Kubernetes CA and ServiceAccount token files are required"))
    else
    try_let! namespace := resolverNamespace cfg in
    let namespace := if namespace == "" then "default" else namespace in
    if negb (nodeNamePattern namespace) then Ret (Err (Msg "invalid Kubernetes namespace"))
    else
    let! caPEM := call (ReadFile (kc_CAFile cfg)) in
    match caPEM with
    | Err e => Ret (Err (Wrap "read Kubernetes CA" [e]))
    | Ok pem =>
      if negb (AppendCertsFromPEM pem) then Ret (Err (Msg "Kubernetes CA file contains no certificates"))
      else
        let timeout := if kc_Timeout cfg <=? 0 then 15 * second else kc_Timeout cfg in
        let base := Build_URL (URL_Scheme u) (URL_Opaque u) (URL_User u) (URL_Host u) (TrimRight_slash (URL_Path u)) (URL_RawPath u) (URL_RawQuery u) (URL_Fragment u) in
        Ret (Ok (Build_KubernetesNodeResolver base timeout (kc_TokenFile cfg) namespace))
    end
  end.

Definition NewInClusterNodeResolver : rprogram (result KubernetesNodeResolver) :=
  let! host := call (Getenv "KUBERNETES_SERVICE_HOST") in
  let host := trim_brackets (TrimSpace host) in
  let! port := call (Getenv "KUBERNETES_SERVICE_PORT_HTTPS") in
  let port := TrimSpace port in
  let! port := (if port == "" then let! p := call (Getenv "KUBERNETES_SERVICE_PORT") in Ret (TrimSpace p) else Ret port) in
  if (host == "") || (port == "") then Ret (Err (Msg "Kubernetes service environment is not configured"))
  else NewKubernetesNodeResolver (Build_KubernetesResolverConfig ("https://" +:+ JoinHostPort host port)
    (serviceAccountPath +:+ "/ca.crt") (serviceAccountPath +:+ "/token") "" (serviceAccountPath +:+ "/namespace") (15 * second)).
End Construction.

(** ** Requests *)

(** [url.ParseRequestURI] of a rooted path, which is what every caller passes: the unescaped path and
    the query. *)
Definition ParseRequestURI (s : string) : option (string * string) :=
  if contains_ctl s || negb (HasPrefix s "/") then None
  else let '(path, query) := CutChar "?" s in option_map (fun p => (p, query)) (unescape_path path).

Definition cancellation (e : error) : bool := Is e Canceled || Is e DeadlineExceeded.
(** No redirect is followed. *)
Definition noRedirects (target : URL) (via : list request) : error := Msg "Kubernetes API redirects are disabled".

Section Requests.
Context `{JT : JSONText} (r : KubernetesNodeResolver).

Definition kubernetes_request (ctx : context) (method path query token : string) (body : option json) : request :=
  Build_request method (URL_Scheme (kr_baseURL r)) (URL_Host (kr_baseURL r)) (TrimRight_slash (URL_Path (kr_baseURL r)) +:+ path) query
    ([("Authorization", "Bearer " +:+ TrimSpace token); ("Accept", "application/json")]
     ++ match body with Some _ => [("Content-Type", "application/json")] | None => [] end)
    (option_map print_json body) (Some (Build_sending ctx (Some (kr_timeout r)))).

(** The status, the body and the error. *)
Definition readKubernetesResponse (maxResponseBytes : Z) (resp : response) : Z * string * goerr :=
  let untrusted text := (rs_Status resp, "", Some (wrapS ErrUnavailable text)) in
  if maxResponseBytes <? rs_ContentLength resp then untrusted "Kubernetes API response exceeds the limit"
  else match read_limited resp (maxResponseBytes + 1) with
  | (_, Some err) => if cancellation err then (rs_Status resp, "", Some err) else untrusted "read Kubernetes API response"
  | (data, None) =>
      if maxResponseBytes <? Z.of_nat (String.length data) then untrusted "Kubernetes API response exceeds the limit"
      else if (0 <=? rs_ContentLength resp) && negb (Z.of_nat (String.length data) =? rs_ContentLength resp)
      then untrusted "Kubernetes API response body length does not match declared Content-Length"
      else (rs_Status resp, data, None)
  end.

Definition kubernetesAPIRequestWithLimit (ctx : context) (method path : string) (body : option json) (maxResponseBytes : Z) : rprogram (Z * string * goerr) :=
  if maxResponseBytes <=? 0 then Ret (0, "", Some (Msg "Kubernetes API response limit must be positive"))
  else
  let! token := call (ReadFile (kr_tokenPath r)) in
  match token with
  | Err _ => Ret (0, "", Some (wrapS ErrUnavailable "read Kubernetes ServiceAccount token"))
  | Ok token =>
    match ParseRequestURI path with
    | None => Ret (0, "", Some (Msg "build Kubernetes API URL"))
    | Some (path, query) =>
      let rq := kubernetes_request ctx method path query token body in
      let! buildErr := call (Wire (BuildRequest rq)) in
      match buildErr with
      | Some e => Ret (0, "", Some e)
      | None =>
        let! '(resp, err) := on_network (http_Do noRedirects rq) in
        match err, resp with
        | Some e, _ => Ret (0, "", Some (if cancellation e then e else wrapS ErrUnavailable "Kubernetes API request"))
        | None, Some resp => Ret (readKubernetesResponse maxResponseBytes resp)
        | None, None => Panic
        end
      end
    end
  end.

Definition maxKubernetesAPIResponseBytes : Z := 1048576.
Definition kubernetesAPIRequest (ctx : context) (method path : string) (body : option json) : rprogram (Z * string * goerr) :=
  kubernetesAPIRequestWithLimit ctx method path body maxKubernetesAPIResponseBytes.

(** ** The exact read of a Node *)

(** The anonymous structs that the answer is decoded into: [spec.providerID]. *)
Record nodeSpec := { ns_ProviderID : string }.
#[export] Instance eta_nodeSpec : Eta nodeSpec := fun x => Build_nodeSpec (ns_ProviderID x).
Definition nodeSpec_codec : codec nodeSpec := struct_codec (Build_nodeSpec "") ["providerID" :=: string_codec # ns_ProviderID].
Record nodeAnswer := { na_Spec : nodeSpec }.
#[export] Instance eta_nodeAnswer : Eta nodeAnswer := fun x => Build_nodeAnswer (na_Spec x).
Definition nodeAnswer_codec : codec nodeAnswer := struct_codec (Build_nodeAnswer (c_zero nodeSpec_codec)) ["spec" :=: nodeSpec_codec # na_Spec].

Definition nodeStatus (resp : response) (data : string) : result string :=
  let status := rs_Status resp in
  if status =? 404 then Err (wrapS ErrKubernetesNodeNotFound "")
  else if negb (success status) then
    if (status =? 429) || (500 <=? status) then Err (wrapS ErrUnavailable "Kubernetes API returned HTTP status")
    else Err (Msg "Kubernetes API returned HTTP status")
  else match parse_json data with
  | None => Err (wrapS ErrUnavailable "decode Kubernetes node")
  | Some j =>
    match c_dec nodeAnswer_codec (c_zero nodeAnswer_codec) j with
    | Err _ => Err (wrapS ErrUnavailable "decode Kubernetes node")
    | Ok node =>
        let providerID := ns_ProviderID (na_Spec node) in
        if TrimSpace providerID == "" then Err (Msg "Kubernetes node has no spec.providerID") else Ok providerID
    end
  end.

Definition ProviderIDForNode (ctx : context) (nodeName : string) : rprogram (result string) :=
  if negb (nodeNamePattern nodeName) then Ret (Err (Msg "invalid Kubernetes node name"))
  else
  let! token := call (ReadFile (kr_tokenPath r)) in
  match token with
  | Err _ => Ret (Err (wrapS ErrUnavailable "read Kubernetes ServiceAccount token"))
  | Ok token =>
    let rq := kubernetes_request ctx "GET" ("/api/v1/nodes/" +:+ PathEscape nodeName) "" token None in
    let! buildErr := call (Wire (BuildRequest rq)) in
    match buildErr with
    | Some e => Ret (Err e)
    | None =>
      let! '(resp, err) := on_network (http_Do noRedirects rq) in
      match err, resp with
      | Some e, _ => Ret (Err (if cancellation e then e else wrapS ErrUnavailable "query Kubernetes node"))
      | None, None => Panic
      | None, Some resp =>
        match read_limited resp 1048576 with
        | (_, Some e) => Ret (Err (if cancellation e then e else wrapS ErrUnavailable "read Kubernetes node"))
        | (data, None) => Ret (nodeStatus resp data)
        end
      end
    end
  end.
End Requests.
