(* ===== verification/CSIMissingNode.v ===== *)
(** * Detach authority for a Node that is gone

    Models the reads and checks of modules/csi-driver/pkg/cloud/inspace/kubernetes_detach_authority.go
    on top of CSIDetachAuthority: the NodeClaim and Node objects, the paged inventories, the checks that
    bind one deleting NodeClaim and its create fence to the VM, and [AuthorizeMissingNodeDetach]. *)

From S2P Require Import Prelude GoErrors GoURL CSIFence CSIDetachAuthority Prog GoJSON GoHTTP CSIAdapter KubernetesFence KubernetesTransport.

Definition maxMissingNodeAuthorityItems : nat := 4096.
Definition missingNodeClaimAuthorityPageSize : string := "4".
Definition missingNodeAuthorityNodePageSize : string := "32".
Definition maxMissingNodeClaimAuthorityPages : nat := 1025.
Definition maxMissingNodeAuthorityNodePages : nat := 129.
Definition maxMissingNodeAuthorityResponseBytes : Z := 8388608.
Definition maxMissingNodeContinueTokenBytes : Z := 16384.
Definition maxMissingNodeCreateFenceBytes : Z := 262144.
Definition karpenterNodeClaimAPIVersion : string := "karpenter.sh/v1".
Definition karpenterNodeClaimKind : string := "NodeClaim".
Definition karpenterNodeClaimListKind : string := "NodeClaimList".
Definition karpenterTerminationFinalizer : string := "karpenter.sh/termination".
Definition inspaceCreateProtectionFinalizer : string := "karpenter.inspace.cloud/create-protection".
Definition inspaceNodeNameAnnotation : string := "karpenter.inspace.cloud/node-name".
Definition inspaceCreateFenceAnnotation : string := "karpenter.inspace.cloud/create-fence".
Definition inspaceCreateFenceV3 : string := "karpenter.inspace.cloud/create-fence-v3".
Definition inspaceCreateFenceMaterialized : string := "materialized".
Definition inspaceFirewallAssignmentObserved : string := "observed".
Definition karpenterRegisteredCondition : string := "Registered".
Definition karpenterTerminatingCondition : string := "InstanceTerminating".

Definition missingNodeHex64Pattern (s : string) : bool := match_seq (replicate 64 is_hex_lower) s.

(** ** Objects *)

Record missingNodeObjectMeta := {
  mm_Name : string; mm_UID : string; mm_ResourceVersion : string; mm_DeletionTimestamp : string;
  mm_Finalizers : list string; mm_Annotations : option (gmap string string)
}.
#[export] Instance eta_missingNodeObjectMeta : Eta missingNodeObjectMeta := fun x =>
  Build_missingNodeObjectMeta (mm_Name x) (mm_UID x) (mm_ResourceVersion x) (mm_DeletionTimestamp x) (mm_Finalizers x) (mm_Annotations x).
Definition missingNodeObjectMeta_codec : codec missingNodeObjectMeta :=
  struct_codec (Build_missingNodeObjectMeta "" "" "" "" [] None)
    ["name" :=: string_codec # mm_Name; "uid" :=: string_codec # mm_UID; "resourceVersion" :=: string_codec # mm_ResourceVersion;
     "deletionTimestamp" :=? string_codec # mm_DeletionTimestamp; "finalizers" :=? list_codec string_codec # mm_Finalizers;
     "annotations" :=? map_codec string_codec # mm_Annotations].

Record missingNodeCondition := { mc_Type : string; mc_Status : string }.
#[export] Instance eta_missingNodeCondition : Eta missingNodeCondition := fun x => Build_missingNodeCondition (mc_Type x) (mc_Status x).
Definition missingNodeCondition_codec : codec missingNodeCondition :=
  struct_codec (Build_missingNodeCondition "" "") ["type" :=: string_codec # mc_Type; "status" :=: string_codec # mc_Status].

Record missingNodeClaimStatus := { mcs_NodeName : string; mcs_ProviderID : string; mcs_Conditions : list missingNodeCondition }.
#[export] Instance eta_missingNodeClaimStatus : Eta missingNodeClaimStatus := fun x =>
  Build_missingNodeClaimStatus (mcs_NodeName x) (mcs_ProviderID x) (mcs_Conditions x).
Definition missingNodeClaimStatus_codec : codec missingNodeClaimStatus :=
  struct_codec (Build_missingNodeClaimStatus "" "" [])
    ["nodeName" :=: string_codec # mcs_NodeName; "providerID" :=: string_codec # mcs_ProviderID;
     "conditions" :=: list_codec missingNodeCondition_codec # mcs_Conditions].

Record missingNodeClaim := { nc_APIVersion : string; nc_Kind : string; nc_Metadata : missingNodeObjectMeta; nc_Status : missingNodeClaimStatus }.
#[export] Instance eta_missingNodeClaim : Eta missingNodeClaim := fun x =>
  Build_missingNodeClaim (nc_APIVersion x) (nc_Kind x) (nc_Metadata x) (nc_Status x).
Definition missingNodeClaim_codec : codec missingNodeClaim :=
  struct_codec (Build_missingNodeClaim "" "" (c_zero missingNodeObjectMeta_codec) (c_zero missingNodeClaimStatus_codec))
    ["apiVersion" :=: string_codec # nc_APIVersion; "kind" :=: string_codec # nc_Kind;
     "metadata" :=: missingNodeObjectMeta_codec # nc_Metadata; "status" :=: missingNodeClaimStatus_codec # nc_Status].

Definition nc_Name (c : missingNodeClaim) : string := mm_Name (nc_Metadata c).
Definition nc_UID (c : missingNodeClaim) : string := mm_UID (nc_Metadata c).
Definition nc_NodeName (c : missingNodeClaim) : string := mcs_NodeName (nc_Status c).
Definition nc_ProviderID (c : missingNodeClaim) : string := mcs_ProviderID (nc_Status c).
Definition nc_Annotation (c : missingNodeClaim) (key : string) : string := annotation (default ∅ (mm_Annotations (nc_Metadata c))) key.

(** [missingNodeKubernetesNode]: the name and UID of its metadata, the provider ID of its spec. *)
Record nodeMetadata := { nm_Name : string; nm_UID : string }.
#[export] Instance eta_nodeMetadata : Eta nodeMetadata := fun x => Build_nodeMetadata (nm_Name x) (nm_UID x).
Definition nodeMetadata_codec : codec nodeMetadata :=
  struct_codec (Build_nodeMetadata "" "") ["name" :=: string_codec # nm_Name; "uid" :=: string_codec # nm_UID].
Record missingNodeKubernetesNode := { kn_Metadata : nodeMetadata; kn_Spec : nodeSpec }.
#[export] Instance eta_missingNodeKubernetesNode : Eta missingNodeKubernetesNode := fun x => Build_missingNodeKubernetesNode (kn_Metadata x) (kn_Spec x).
Definition missingNodeKubernetesNode_codec : codec missingNodeKubernetesNode :=
  struct_codec (Build_missingNodeKubernetesNode (c_zero nodeMetadata_codec) (c_zero nodeSpec_codec))
    ["metadata" :=: nodeMetadata_codec # kn_Metadata; "spec" :=: nodeSpec_codec # kn_Spec].
Definition kn_Name (n : missingNodeKubernetesNode) : string := nm_Name (kn_Metadata n).
Definition kn_UID (n : missingNodeKubernetesNode) : string := nm_UID (kn_Metadata n).
Definition kn_ProviderID (n : missingNodeKubernetesNode) : string := ns_ProviderID (kn_Spec n).

(** [missingNodeListMeta] and the two list types, which differ in their items. *)
Record missingNodeListMeta := { lm_ResourceVersion : string; lm_Continue : string }.
#[export] Instance eta_missingNodeListMeta : Eta missingNodeListMeta := fun x => Build_missingNodeListMeta (lm_ResourceVersion x) (lm_Continue x).
Definition missingNodeListMeta_codec : codec missingNodeListMeta :=
  struct_codec (Build_missingNodeListMeta "" "") ["resourceVersion" :=: string_codec # lm_ResourceVersion; "continue" :=? string_codec # lm_Continue].

Record missingNodeList (A : Type) := { pl_APIVersion : string; pl_Kind : string; pl_Metadata : missingNodeListMeta; pl_Items : list A }.
Arguments Build_missingNodeList {A}. Arguments pl_APIVersion {A}. Arguments pl_Kind {A}. Arguments pl_Metadata {A}. Arguments pl_Items {A}.
#[export] Instance eta_missingNodeList A : Eta (missingNodeList A) := fun x =>
  Build_missingNodeList (pl_APIVersion x) (pl_Kind x) (pl_Metadata x) (pl_Items x).
Definition missingNodeList_codec {A} (C : codec A) : codec (missingNodeList A) :=
  struct_codec (Build_missingNodeList "" "" (c_zero missingNodeListMeta_codec) [])
    ["apiVersion" :=: string_codec # pl_APIVersion; "kind" :=: string_codec # pl_Kind;
     "metadata" :=: missingNodeListMeta_codec # pl_Metadata; "items" :=: list_codec C # pl_Items].

(** ** The create fence, as far as the authority reads it *)

Record missingNodeCreateFenceBinding := {
  fb_NodeClaimUID : string; fb_IdempotencyKeyHash : string; fb_RequestHash : string; fb_SpecHash : string; fb_BootstrapHash : string
}.
#[export] Instance eta_missingNodeCreateFenceBinding : Eta missingNodeCreateFenceBinding := fun x =>
  Build_missingNodeCreateFenceBinding (fb_NodeClaimUID x) (fb_IdempotencyKeyHash x) (fb_RequestHash x) (fb_SpecHash x) (fb_BootstrapHash x).
Definition missingNodeCreateFenceBinding_codec : codec missingNodeCreateFenceBinding :=
  struct_codec (Build_missingNodeCreateFenceBinding "" "" "" "" "")
    ["nodeClaimUID" :=: string_codec # fb_NodeClaimUID; "idempotencyKeyHash" :=: string_codec # fb_IdempotencyKeyHash;
     "requestHash" :=: string_codec # fb_RequestHash; "specHash" :=: string_codec # fb_SpecHash; "bootstrapHash" :=: string_codec # fb_BootstrapHash].

Record missingNodeCleanupIdentity := {
  ci_ClusterName : string; ci_Location : string; ci_NetworkUUID : string; ci_NodePoolName : string; ci_ControlPlaneVIP : string;
  ci_PrivateLoadBalancerPoolStart : string; ci_PrivateLoadBalancerPoolStop : string; ci_FirewallUUID : string; ci_FirewallProfile : string;
  ci_NodeClaimName : string; ci_VMName : string; ci_BillingAccountID : Z; ci_OwnershipKeyHash : string
}.
#[export] Instance eta_missingNodeCleanupIdentity : Eta missingNodeCleanupIdentity := fun x =>
  Build_missingNodeCleanupIdentity (ci_ClusterName x) (ci_Location x) (ci_NetworkUUID x) (ci_NodePoolName x) (ci_ControlPlaneVIP x)
    (ci_PrivateLoadBalancerPoolStart x) (ci_PrivateLoadBalancerPoolStop x) (ci_FirewallUUID x) (ci_FirewallProfile x)
    (ci_NodeClaimName x) (ci_VMName x) (ci_BillingAccountID x) (ci_OwnershipKeyHash x).
Definition missingNodeCleanupIdentity_codec : codec missingNodeCleanupIdentity :=
  struct_codec (Build_missingNodeCleanupIdentity "" "" "" "" "" "" "" "" "" "" "" 0 "")
    ["clusterName" :=: string_codec # ci_ClusterName; "location" :=: string_codec # ci_Location; "networkUUID" :=: string_codec # ci_NetworkUUID;
     "nodePoolName" :=: string_codec # ci_NodePoolName; "controlPlaneVIP" :=: string_codec # ci_ControlPlaneVIP;
     "privateLoadBalancerPoolStart" :=: string_codec # ci_PrivateLoadBalancerPoolStart;
     "privateLoadBalancerPoolStop" :=: string_codec # ci_PrivateLoadBalancerPoolStop; "firewallUUID" :=: string_codec # ci_FirewallUUID;
     "firewallProfile" :=: string_codec # ci_FirewallProfile; "nodeClaimName" :=: string_codec # ci_NodeClaimName;
     "vmName" :=: string_codec # ci_VMName; "billingAccountID" :=: int64_codec # ci_BillingAccountID; "ownershipKeyHash" :=: string_codec # ci_OwnershipKeyHash].

Record missingNodeFirewallAssignment := {
  fa_VMUUID : string; fa_FirewallUUID : string; fa_Phase : string; fa_IssueID : string; fa_IntentAt : string;
  fa_IssuedAt : option string; fa_RejectedAt : option string; fa_ObservedAt : option string
}.
#[export] Instance eta_missingNodeFirewallAssignment : Eta missingNodeFirewallAssignment := fun x =>
  Build_missingNodeFirewallAssignment (fa_VMUUID x) (fa_FirewallUUID x) (fa_Phase x) (fa_IssueID x) (fa_IntentAt x) (fa_IssuedAt x) (fa_RejectedAt x) (fa_ObservedAt x).
Definition missingNodeFirewallAssignment_codec : codec missingNodeFirewallAssignment :=
  struct_codec (Build_missingNodeFirewallAssignment "" "" "" "" "" None None None)
    ["vmUUID" :=: string_codec # fa_VMUUID; "firewallUUID" :=: string_codec # fa_FirewallUUID; "phase" :=: string_codec # fa_Phase;
     "issueID" :=: string_codec # fa_IssueID; "intentAt" :=: string_codec # fa_IntentAt; "issuedAt" :=? ptr_codec string_codec # fa_IssuedAt;
     "rejectedAt" :=? ptr_codec string_codec # fa_RejectedAt; "observedAt" :=? ptr_codec string_codec # fa_ObservedAt].

Record missingNodeCreateFence := {
  cf_Schema : string; cf_Binding : missingNodeCreateFenceBinding; cf_Cleanup : missingNodeCleanupIdentity; cf_Token : string;
  cf_Phase : string; cf_Intent : string; cf_IssueID : string; cf_StartedAt : string; cf_IssuedAt : option string;
  cf_LaunchObservedAt : option string; cf_CreatedVMUUID : string; cf_ProtectionFailureAt : option string; cf_RollbackAt : option string;
  cf_ObservedAt : option string; cf_ObservedVMUUID : string; cf_FloatingIPName : string; cf_PublicIPv4 : string;
  cf_BaseFirewallAssignment : option missingNodeFirewallAssignment
}.
#[export] Instance eta_missingNodeCreateFence : Eta missingNodeCreateFence := fun x =>
  Build_missingNodeCreateFence (cf_Schema x) (cf_Binding x) (cf_Cleanup x) (cf_Token x) (cf_Phase x) (cf_Intent x) (cf_IssueID x) (cf_StartedAt x)
    (cf_IssuedAt x) (cf_LaunchObservedAt x) (cf_CreatedVMUUID x) (cf_ProtectionFailureAt x) (cf_RollbackAt x) (cf_ObservedAt x)
    (cf_ObservedVMUUID x) (cf_FloatingIPName x) (cf_PublicIPv4 x) (cf_BaseFirewallAssignment x).
Definition missingNodeCreateFence_codec : codec missingNodeCreateFence :=
  struct_codec (Build_missingNodeCreateFence "" (c_zero missingNodeCreateFenceBinding_codec) (c_zero missingNodeCleanupIdentity_codec)
      "" "" "" "" "" None None "" None None None "" "" "" None)
    ["schema" :=: string_codec # cf_Schema; "binding" :=: missingNodeCreateFenceBinding_codec # cf_Binding;
     "cleanup" :=: missingNodeCleanupIdentity_codec # cf_Cleanup; "token" :=: string_codec # cf_Token; "phase" :=: string_codec # cf_Phase;
     "intent" :=: string_codec # cf_Intent; "issueID" :=: string_codec # cf_IssueID; "startedAt" :=: string_codec # cf_StartedAt;
     "issuedAt" :=? ptr_codec string_codec # cf_IssuedAt; "launchObservedAt" :=? ptr_codec string_codec # cf_LaunchObservedAt;
     "createdVMUUID" :=: string_codec # cf_CreatedVMUUID; "protectionFailureAt" :=? ptr_codec string_codec # cf_ProtectionFailureAt;
     "rollbackAt" :=? ptr_codec string_codec # cf_RollbackAt; "observedAt" :=? ptr_codec string_codec # cf_ObservedAt;
     "observedVMUUID" :=: string_codec # cf_ObservedVMUUID; "floatingIPName" :=: string_codec # cf_FloatingIPName;
     "publicIPv4" :=: string_codec # cf_PublicIPv4; "baseFirewallAssignment" :=: ptr_codec missingNodeFirewallAssignment_codec # cf_BaseFirewallAssignment].

(** ** The types, as their keys are collected *)

(** Fields whose types hold no further keys: text, numbers, maps, slices and pointers of these. *)
Definition flat (tags : list string) : list (string * go_type) := map (fun tag => (tag, TOther)) tags.
Definition missingNodeClaim_type : go_type :=
  TStruct "missingNodeClaim" [("apiVersion", TOther); ("kind", TOther);
    ("metadata", TStruct "missingNodeObjectMeta" (flat ["name"; "uid"; "resourceVersion"; "deletionTimestamp"; "finalizers"; "annotations"]));
    ("status", TStruct "missingNodeClaimStatus" [("nodeName", TOther); ("providerID", TOther);
      ("conditions", TElem (TStruct "missingNodeCondition" (flat ["type"; "status"])))])].
Definition missingNodeKubernetesNode_type : go_type :=
  TStruct "missingNodeKubernetesNode" [("metadata", TStruct "missingNodeKubernetesNode.Metadata" (flat ["name"; "uid"]));
    ("spec", TStruct "missingNodeKubernetesNode.Spec" (flat ["providerID"]))].
Definition missingNodeList_type (name : string) (item : go_type) : go_type :=
  TStruct name [("apiVersion", TOther); ("kind", TOther); ("metadata", TStruct "missingNodeListMeta" (flat ["resourceVersion"; "continue"])); ("items", TElem item)].
Definition missingNodeCreateFence_type : go_type :=
  TStruct "missingNodeCreateFence"
    ([("schema", TOther);
      ("binding", TStruct "missingNodeCreateFenceBinding" (flat ["nodeClaimUID"; "idempotencyKeyHash"; "requestHash"; "specHash"; "bootstrapHash"]));
      ("cleanup", TStruct "missingNodeCleanupIdentity" (flat ["clusterName"; "location"; "networkUUID"; "nodePoolName"; "controlPlaneVIP";
         "privateLoadBalancerPoolStart"; "privateLoadBalancerPoolStop"; "firewallUUID"; "firewallProfile"; "nodeClaimName"; "vmName";
         "billingAccountID"; "ownershipKeyHash"]))]
     ++ flat ["token"; "phase"; "intent"; "issueID"; "startedAt"; "issuedAt"; "launchObservedAt"; "createdVMUUID"; "protectionFailureAt";
              "rollbackAt"; "observedAt"; "observedVMUUID"; "floatingIPName"; "publicIPv4"]
     ++ [("baseFirewallAssignment", TElem (TStruct "missingNodeFirewallAssignment"
            (flat ["vmUUID"; "firewallUUID"; "phase"; "issueID"; "intentAt"; "issuedAt"; "rejectedAt"; "observedAt"])))]).

(** ** Paged inventories

    [listMissingNodeClaims] and [listKubernetesNodesForMissingNodeAuthority] are the same loop over two
    resources; [listing] is what differs. *)
Record listing (A : Type) := {
  ls_path : string; ls_limit : string; ls_pages : nat; ls_decode : string -> result (missingNodeList A);
  ls_APIVersion : string; ls_Kind : string; ls_name : A -> string; ls_uid : A -> string
}.
Arguments ls_path {A}. Arguments ls_limit {A}. Arguments ls_pages {A}. Arguments ls_decode {A}. Arguments ls_APIVersion {A}.
Arguments ls_Kind {A}. Arguments ls_name {A}. Arguments ls_uid {A}.

(** The variables of the loop. *)
Record listState (A : Type) := {
  st_result : list A; st_names : gset string; st_uids : gset string; st_version : string; st_continue : string; st_tokens : gset string
}.
Arguments Build_listState {A}. Arguments st_result {A}. Arguments st_names {A}. Arguments st_uids {A}. Arguments st_version {A}.
Arguments st_continue {A}. Arguments st_tokens {A}.
Definition listStart {A} : listState A := Build_listState [] ∅ ∅ "" "" ∅.

(** ** Reads *)

Section Authority.
Context `{JT : JSONText} `{TT : TimeText} (r : KubernetesNodeResolver).
(** [hex.EncodeToString] of the SHA-256 sum. *)
Context (sha256_hex : string -> string).

Definition decode_as {A} (t : go_type) (C : codec A) (data : string) : result A :=
  decodeMissingNodeAuthorityJSON t (c_dec C (c_zero C)) data.

Definition requireMissingKubernetesNode (ctx : context) (nodeName : string) : rprogram goerr :=
  let! answer := ProviderIDForNode r ctx nodeName in
  match answer with
  | Err e => if Is e ErrKubernetesNodeNotFound then Ret None else Ret (Some (Wrap "cannot prove Kubernetes Node is absent" [e]))
  | Ok _ => Ret (Some (Msg "Kubernetes Node reappeared during detach authorization"))
  end.

Definition nodeClaimsPath : string := "/apis/karpenter.sh/v1/nodeclaims".
Definition nodesPath : string := "/api/v1/nodes".

Definition getMissingNodeClaim (ctx : context) (name : string) : rprogram (result missingNodeClaim) :=
  let! '(status, data, err) := kubernetesAPIRequestWithLimit r ctx "GET" (nodeClaimsPath +:+ "/" +:+ PathEscape name) None maxMissingNodeAuthorityResponseBytes in
  match err with
  | Some e => Ret (Err e)
  | None =>
    if negb (status =? 200) then Ret (Err (Msg "exact NodeClaim GET returned HTTP status"))
    else match decode_as missingNodeClaim_type missingNodeClaim_codec data with
    | Err e => Ret (Err (Wrap "decode exact NodeClaim" [e]))
    | Ok claim =>
        if (nc_APIVersion claim != karpenterNodeClaimAPIVersion) || (nc_Kind claim != karpenterNodeClaimKind) || (nc_Name claim != name)
        then Ret (Err (Msg "exact NodeClaim returned mismatched type or name"))
        else Ret (Ok claim)
    end
  end.

Definition page_query {A} (L : listing A) (continueToken : string) : Values :=
  let query := [("limit", ls_limit L)] in
  if continueToken != "" then Values_Set query "continue" continueToken else query.
Definition page_path {A} (L : listing A) (continueToken : string) : string := ls_path L +:+ "?" +:+ Encode (page_query L continueToken).

(** The loop over the items of one page. *)
Fixpoint takeItems {A} (L : listing A) (items : list A) (seenNames seenUIDs : gset string) (result_ : list A)
    : result (gset string * gset string * list A) :=
  match items with
  | [] => Ok (seenNames, seenUIDs, result_)
  | item :: rest =>
      if (ls_name L item == "") || (ls_uid L item == "") then Err (Msg "LIST contains an object without name or UID")
      else if bool_decide (ls_name L item ∈ seenNames) then Err (Msg "LIST repeats name")
      else if bool_decide (ls_uid L item ∈ seenUIDs) then Err (Msg "LIST repeats UID")
      else
        let result_ := result_ ++ [item] in
        if Nat.ltb maxMissingNodeAuthorityItems (List.length result_) then Err (Msg "LIST exceeds bounded maximum of items")
        else takeItems L rest ({[ls_name L item]} ∪ seenNames) ({[ls_uid L item]} ∪ seenUIDs) result_
  end.

(** One page: the whole result, or the state for the next page. *)
Definition takePage {A} (L : listing A) (s : listState A) (page : missingNodeList A) : result (list A + listState A) :=
  let version := lm_ResourceVersion (pl_Metadata page) in
  let token := lm_Continue (pl_Metadata page) in
  if (pl_APIVersion page != ls_APIVersion L) || (pl_Kind page != ls_Kind L) || (version == "") then Err (Msg "LIST returned incomplete type or resourceVersion")
  else if (st_version s != "") && (version != st_version s) then Err (Msg "LIST resourceVersion changed across pagination")
  else
  try! '(names, uids, items) := takeItems L (pl_Items page) (st_names s) (st_uids s) (st_result s) in
  if token == "" then Ok (inl items)
  else if maxMissingNodeContinueTokenBytes <? Z.of_nat (String.length token) then Err (Msg "LIST returned an oversized continuation token")
  else if bool_decide (token ∈ st_tokens s) then Err (Msg "LIST repeated a continuation token")
  else Ok (inr (Build_listState items names uids version token ({[token]} ∪ st_tokens s))).

Fixpoint listPages {A} (L : listing A) (pages : nat) (ctx : context) (s : listState A) : rprogram (result (list A)) :=
  match pages with
  | O => Ret (Err (Msg "LIST exceeds bounded maximum of pages"))
  | S pages =>
      let! '(status, data, err) := kubernetesAPIRequestWithLimit r ctx "GET" (page_path L (st_continue s)) None maxMissingNodeAuthorityResponseBytes in
      match err with
      | Some e => Ret (Err e)
      | None =>
        if negb (status =? 200) then Ret (Err (Msg "LIST returned HTTP status"))
        else match ls_decode L data with
        | Err e => Ret (Err (Wrap "decode LIST" [e]))
        | Ok page =>
          match takePage L s page with
          | Err e => Ret (Err e)
          | Ok (inl items) => Ret (Ok items)
          | Ok (inr s) => listPages L pages ctx s
          end
        end
      end
  end.

Definition claims : listing missingNodeClaim := {|
  ls_path := nodeClaimsPath; ls_limit := missingNodeClaimAuthorityPageSize; ls_pages := maxMissingNodeClaimAuthorityPages;
  ls_decode := decode_as (missingNodeList_type "missingNodeClaimList" missingNodeClaim_type) (missingNodeList_codec missingNodeClaim_codec);
  ls_APIVersion := karpenterNodeClaimAPIVersion; ls_Kind := karpenterNodeClaimListKind; ls_name := nc_Name; ls_uid := nc_UID
|}.
Definition listMissingNodeClaims (ctx : context) : rprogram (result (list missingNodeClaim)) :=
  listPages claims (ls_pages claims) ctx listStart.

Definition nodes : listing missingNodeKubernetesNode := {|
  ls_path := nodesPath; ls_limit := missingNodeAuthorityNodePageSize; ls_pages := maxMissingNodeAuthorityNodePages;
  ls_decode := decode_as (missingNodeList_type "missingNodeKubernetesNodeList" missingNodeKubernetesNode_type) (missingNodeList_codec missingNodeKubernetesNode_codec);
  ls_APIVersion := "v1"; ls_Kind := "NodeList"; ls_name := kn_Name; ls_uid := kn_UID
|}.
Definition listKubernetesNodesForMissingNodeAuthority (ctx : context) : rprogram (result (list missingNodeKubernetesNode)) :=
  listPages nodes (ls_pages nodes) ctx listStart.

(** ** Checks *)

Definition validMissingNodeTimestamp (value : string) : bool :=
  match parse_time value with Some t => negb (t =? 0) | None => false end.
(** [validMissingNodeTimestamp] of a pointer that is not nil. *)
Definition valid_stamp (value : option string) : bool := match value with Some v => validMissingNodeTimestamp v | None => false end.
Definition is_nil {A} (x : option A) : bool := match x with None => true | Some _ => false end.

Definition observedAssignment (fence : missingNodeCreateFence) (request : missingNodeDetachRequest) : bool :=
  match cf_BaseFirewallAssignment fence with
  | None => false
  | Some a =>
      (fa_Phase a == inspaceFirewallAssignmentObserved) && (fa_VMUUID a == req_VMUUID request)
      && (fa_FirewallUUID a == ci_FirewallUUID (cf_Cleanup fence)) && missingNodeHex32Pattern (fa_IssueID a)
      && validMissingNodeTimestamp (fa_IntentAt a) && valid_stamp (fa_IssuedAt a) && valid_stamp (fa_ObservedAt a) && is_nil (fa_RejectedAt a)
  end.

Definition sameCleanupIdentity (c : missingNodeCleanupIdentity) (claim : missingNodeClaim) (request : missingNodeDetachRequest)
    (o : missingNodeOwnershipRecord) (fullUIDHash : string) : bool :=
  (ci_ClusterName c == own_Cluster o) && (ci_Location c == req_Location request) && (ci_NetworkUUID c == req_NetworkUUID request)
  && (ci_NodePoolName c == own_NodePool o) && (ci_ControlPlaneVIP c == own_ControlPlaneVIP o)
  && (ci_PrivateLoadBalancerPoolStart c == own_PrivateLoadBalancerPoolStart o) && (ci_PrivateLoadBalancerPoolStop c == own_PrivateLoadBalancerPoolStop o)
  && (ci_FirewallUUID c == own_FirewallUUID o) && (ci_FirewallProfile c == own_FirewallProfile o) && (ci_NodeClaimName c == nc_Name claim)
  && (ci_VMName c == req_NodeName request) && (ci_BillingAccountID c =? req_BillingAccountID request)
  && (ci_OwnershipKeyHash c == own_KeyHash o) && (ci_OwnershipKeyHash c == take_string 32 fullUIDHash).

(** The loop over three timestamps runs in Go's map order, which decides only the field that the
    message names. *)
Definition validateMissingNodeCreateFence (fence : missingNodeCreateFence) (claim : missingNodeClaim) (request : missingNodeDetachRequest)
    (ownership : missingNodeOwnershipRecord) : goerr :=
  if (cf_Schema fence != inspaceCreateFenceV3) || (cf_Phase fence != inspaceCreateFenceMaterialized)
  then Some (Msg "NodeClaim create fence is not strict materialized v3")
  else if (cf_Intent fence != "post") && (cf_Intent fence != "adoption")
  then Some (Msg "NodeClaim create fence has an invalid materialization intent")
  else if negb (missingNodeHex32Pattern (cf_Token fence)) || negb (missingNodeHex32Pattern (cf_IssueID fence))
          || negb (missingNodeHex64Pattern (fb_IdempotencyKeyHash (cf_Binding fence))) || negb (missingNodeHex64Pattern (fb_RequestHash (cf_Binding fence)))
  then Some (Msg "NodeClaim create fence hashes or issue identity are malformed")
  else
  let fullUIDHash := sha256_hex (nc_UID claim) in
  if (fb_NodeClaimUID (cf_Binding fence) != nc_UID claim) || (fb_IdempotencyKeyHash (cf_Binding fence) != fullUIDHash)
     || (fb_SpecHash (cf_Binding fence) != own_SpecHash ownership) || (fb_BootstrapHash (cf_Binding fence) != own_BootstrapHash ownership)
  then Some (Msg "NodeClaim create-fence binding does not match UID or VM ownership")
  else if negb (sameCleanupIdentity (cf_Cleanup fence) claim request ownership fullUIDHash)
  then Some (Msg "NodeClaim create-fence cleanup identity does not match the VM, account, or VPC")
  else if (cf_CreatedVMUUID fence != req_VMUUID request) || (cf_ObservedVMUUID fence != req_VMUUID request)
          || (cf_CreatedVMUUID fence != ToLower (cf_CreatedVMUUID fence)) || negb (is_nil (cf_RollbackAt fence)) || negb (is_nil (cf_ProtectionFailureAt fence))
  then Some (Msg "NodeClaim create fence lacks one unrolled-back materialized VM identity")
  else if (cf_FloatingIPName fence == "") || (cf_FloatingIPName fence != own_FloatingIPName ownership) || (cf_PublicIPv4 fence == "")
  then Some (Msg "NodeClaim create fence lacks its materialized Floating IP identity")
  else if negb (forallb valid_stamp [cf_IssuedAt fence; cf_LaunchObservedAt fence; cf_ObservedAt fence])
  then Some (Msg "NodeClaim create fence has an invalid timestamp")
  else if negb (validMissingNodeTimestamp (cf_StartedAt fence)) then Some (Msg "NodeClaim create fence has invalid startedAt")
  else if negb (observedAssignment fence request) then Some (Msg "NodeClaim create fence lacks an observed base-firewall assignment")
  else None.

(** The set of finalizers, without an empty or repeated one. *)
Fixpoint collectFinalizers (l : list string) (seen : gset string) : result (gset string) :=
  match l with
  | [] => Ok seen
  | f :: rest =>
      if f == "" then Err (Msg "NodeClaim has an empty finalizer")
      else if bool_decide (f ∈ seen) then Err (Msg "NodeClaim repeats finalizer")
      else collectFinalizers rest ({[f]} ∪ seen)
  end.
(** Condition statuses by type. *)
Fixpoint collectConditions (l : list missingNodeCondition) (seen : gmap string string) : result (gmap string string) :=
  match l with
  | [] => Ok seen
  | c :: rest =>
      if (mc_Type c == "") || (mc_Status c == "") then Err (Msg "NodeClaim contains an incomplete condition")
      else if bool_decide (mc_Type c ∈ dom seen) then Err (Msg "NodeClaim repeats condition type")
      else collectConditions rest (<[mc_Type c := mc_Status c]> seen)
  end.

Definition expectedProviderID (request : missingNodeDetachRequest) : string := "inspace://" +:+ req_Location request +:+ "/" +:+ req_VMUUID request.

Definition bindsVM (providerID : string) (request : missingNodeDetachRequest) : bool :=
  match parseProviderID providerID with
  | Err _ => false
  | Ok (location, vmUUID) => (providerID == expectedProviderID request) && (location == req_Location request) && (vmUUID == req_VMUUID request)
  end.

Definition validateMissingNodeClaim (claim : missingNodeClaim) (request : missingNodeDetachRequest) (ownership : missingNodeOwnershipRecord) : goerr :=
  if (nc_APIVersion claim != karpenterNodeClaimAPIVersion) || (nc_Kind claim != karpenterNodeClaimKind) || (nc_Name claim != own_NodeClaim ownership)
     || (nc_UID claim == "") || (mm_ResourceVersion (nc_Metadata claim) == "")
  then Some (Msg "NodeClaim exact identity is incomplete")
  else if negb (validMissingNodeTimestamp (mm_DeletionTimestamp (nc_Metadata claim))) then Some (Msg "NodeClaim is not durably deleting")
  else match collectFinalizers (mm_Finalizers (nc_Metadata claim)) ∅ with
  | Err e => Some e
  | Ok finalizers =>
    if negb (forallb (fun required => bool_decide (required ∈ finalizers)) [karpenterTerminationFinalizer; inspaceCreateProtectionFinalizer])
    then Some (Msg "NodeClaim lacks required finalizer")
    else if nc_Annotation claim inspaceNodeNameAnnotation != req_NodeName request
    then Some (Msg "NodeClaim node-name annotation does not match the missing Node")
    else if nc_NodeName claim != req_NodeName request then Some (Msg "NodeClaim status.nodeName does not match the missing Node")
    else if negb (bindsVM (nc_ProviderID claim) request)
    then Some (Msg "NodeClaim status.providerID does not canonically bind the attached VM")
    else match collectConditions (mcs_Conditions (nc_Status claim)) ∅ with
    | Err e => Some e
    | Ok conditions =>
      if annotation conditions karpenterRegisteredCondition != "True" then Some (Msg "NodeClaim Registered condition is not True")
      else if bool_decide (karpenterTerminatingCondition ∈ dom conditions) then Some (Msg "NodeClaim already has an InstanceTerminating condition")
      else
      let encodedFence := nc_Annotation claim inspaceCreateFenceAnnotation in
      if (encodedFence == "") || (maxMissingNodeCreateFenceBytes <? Z.of_nat (String.length encodedFence))
      then Some (Msg "NodeClaim create fence is empty or oversized")
      else match decode_as missingNodeCreateFence_type missingNodeCreateFence_codec encodedFence with
      | Err e => Some (Wrap "decode NodeClaim create fence" [e])
      | Ok fence => validateMissingNodeCreateFence fence claim request ownership
      end
    end
  end.

(** The provider ID of a listed object: not one of InSpace, malformed or not canonical, or canonical. *)
Definition canonicalInSpaceID (raw : string) : result (option string) :=
  let trimmed := TrimSpace raw in
  if trimmed == "" then Ok None
  else if negb (HasPrefix (ToLower trimmed) "inspace:") then Ok None
  else match parseProviderID raw with
  | Err _ => Err (Msg "malformed InSpace provider ID")
  | Ok (location, vmUUID) =>
      let canonical := "inspace://" +:+ location +:+ "/" +:+ vmUUID in
      if raw != canonical then Err (Msg "non-canonical InSpace provider ID") else Ok (Some canonical)
  end.

(** The loop of [validateMissingNodeClaimInventory], with its two counters. *)
Fixpoint countClaims (l : list missingNodeClaim) (exact : missingNodeClaim) (request : missingNodeDetachRequest) (ownership : missingNodeOwnershipRecord)
    (exactMatches providerMatches : nat) : result (nat * nat) :=
  match l with
  | [] => Ok (exactMatches, providerMatches)
  | claim :: rest =>
      let named := nc_Name claim == own_NodeClaim ownership in
      check! (if named then
                if nc_UID claim != nc_UID exact then Some (Msg "NodeClaim LIST and exact GET disagree on UID")
                else match validateMissingNodeClaim claim request ownership with
                     | Some e => Some (Wrap "listed exact NodeClaim is not authoritative" [e])
                     | None => None
                     end
              else None) in
      let exactMatches := if named then S exactMatches else exactMatches in
      try! id := canonicalInSpaceID (nc_ProviderID claim) in
      if id == Some (expectedProviderID request) then
        if (nc_Name claim != own_NodeClaim ownership) || (nc_UID claim != nc_UID exact)
        then Err (Msg "another NodeClaim advertises the attached VM provider ID")
        else countClaims rest exact request ownership exactMatches (S providerMatches)
      else countClaims rest exact request ownership exactMatches providerMatches
  end.
Definition validateMissingNodeClaimInventory (l : list missingNodeClaim) (exact : missingNodeClaim) (request : missingNodeDetachRequest)
    (ownership : missingNodeOwnershipRecord) : goerr :=
  match countClaims l exact request ownership 0 0 with
  | Err e => Some e
  | Ok (exactMatches, providerMatches) =>
      if negb (Nat.eqb exactMatches 1) || negb (Nat.eqb providerMatches 1)
      then Some (Msg "NodeClaim inventory does not contain one exact-name and one exact-provider match") else None
  end.

Fixpoint validateMissingNodeInventory (l : list missingNodeKubernetesNode) (request : missingNodeDetachRequest) : goerr :=
  match l with
  | [] => None
  | node :: rest =>
      if kn_Name node == req_NodeName request then Some (Msg "Kubernetes Node appeared in the bounded inventory")
      else match canonicalInSpaceID (kn_ProviderID node) with
      | Err e => Some e
      | Ok id =>
          if id == Some (expectedProviderID request) then Some (Msg "Node still advertises the attached VM provider ID")
          else validateMissingNodeInventory rest request
      end
  end.

(** ** The authority *)

Definition missingNodeAuthorityError (err : error) : error :=
  if cancellation err then err else wrapS ErrUnavailable "missing-node detach authorization".
(** [if err != nil { return missingNodeAuthorityError(err) }]. *)
Definition refused (err : error) : rprogram goerr := Ret (Some (missingNodeAuthorityError err)).

Definition sameClaimIdentity (claim readback : missingNodeClaim) : bool :=
  (nc_UID claim == nc_UID readback) && (mm_DeletionTimestamp (nc_Metadata claim) == mm_DeletionTimestamp (nc_Metadata readback))
  && (nc_ProviderID claim == nc_ProviderID readback) && (nc_NodeName claim == nc_NodeName readback)
  && (nc_Annotation claim inspaceCreateFenceAnnotation == nc_Annotation readback inspaceCreateFenceAnnotation).

Definition AuthorizeMissingNodeDetach (ctx : context) (request : missingNodeDetachRequest) : rprogram goerr :=
  match validateMissingNodeDetachRequest request with Err err => refused err | Ok ownership =>
  let! absent := requireMissingKubernetesNode ctx (req_NodeName request) in
  match absent with Some err => refused err | None =>
  let! claim := getMissingNodeClaim ctx (own_NodeClaim ownership) in
  match claim with Err err => refused err | Ok claim =>
  match validateMissingNodeClaim claim request ownership with Some err => refused err | None =>
  let! listed := listMissingNodeClaims ctx in
  match listed with Err err => refused err | Ok listed =>
  match validateMissingNodeClaimInventory listed claim request ownership with Some err => refused err | None =>
  let! nodes := listKubernetesNodesForMissingNodeAuthority ctx in
  match nodes with Err err => refused err | Ok nodes =>
  match validateMissingNodeInventory nodes request with Some err => refused err | None =>
  let! readback := getMissingNodeClaim ctx (own_NodeClaim ownership) in
  match readback with Err err => refused err | Ok readback =>
  match validateMissingNodeClaim readback request ownership with Some err => refused err | None =>
  if negb (sameClaimIdentity claim readback) then refused (Msg "deleting NodeClaim identity changed during detach authorization")
  else
  let! absent := requireMissingKubernetesNode ctx (req_NodeName request) in
  match absent with Some err => refused err | None => Ret None end
  end end end end end end end end end end.
End Authority.
