(* ===== verification/CSIMissingNodeSpec.v ===== *)
(** * What grants the authority to detach from a Node that is gone

    Specifications of CSIMissingNode on the wire: which exchanges with the API server, in which order,
    stand behind an authority that was granted. *)

From S2P Require Import Prelude GoErrors ClientErrors GoURL CSIFence CSIDetachAuthority Prog CSIAdapter CSISpecs CSIWorld CSIDriverSpec KubernetesFence GoJSON GoHTTP KubernetesTransport CSIMissingNode.
From S2P Require ClientTheorems.


(** ** Paths *)

Lemma PathEscape_char c : (is_alnum_lower c || is_upper c || ContainsChar c "-_.~$&+=:@") = true -> (c == "%"%char) = false /\ ("?"%char == c) = false.
Proof. ascii_cases c. Qed.
Lemma hex_escape c : let hex n := ascii_of_nat (if Nat.ltb n 10 then 48 + n else 55 + n) in
  let a := hex (Nat.div (code c) 16) in let b := hex (Nat.modulo (code c) 16) in
  is_hex a && is_hex b = true /\ ascii_of_nat (16 * hex_value a + hex_value b) = c /\ ("?"%char == a) || ("?"%char == b) = false.
Proof. destruct c as [[] [] [] [] [] [] [] []]; vm_compute; repeat split. Qed.

Lemma unescape_char c s : (c == "%"%char) = false -> unescape_path (String c s) = option_map (String c) (unescape_path s).
Proof. intros H. destruct c as [[] [] [] [] [] [] [] []]; try discriminate H; simpl; by destruct (unescape_path s). Qed.
(** Escaping a segment and parsing the path gives the segment back. *)
Lemma unescape_PathEscape s : unescape_path (PathEscape s) = Some s.
Proof.
  induction s as [|c s IH]; [done|]. cbn [PathEscape]. case_test.
  - rewrite unescape_char by by apply PathEscape_char. by rewrite IH.
  - destruct (hex_escape c) as (H1 & H2 & _). cbv zeta in *. cbn [unescape_path]. by rewrite H1, IH, H2.
Qed.
Lemma PathEscape_no_query s : ContainsChar "?" (PathEscape s) = false.
Proof.
  induction s as [|c s IH]; [done|]. cbn [PathEscape]. case_test.
  - apply PathEscape_char in Heqb as [_ H]. cbn [ContainsChar]. by rewrite H, IH.
  - destruct (hex_escape c) as (_ & _ & H). cbv zeta in *. cbn [ContainsChar]. rewrite IH. apply orb_false_iff in H as [-> ->]. done.
Qed.
(** Names that need no escaping. *)
Lemma PathEscape_name s : all_chars (fun c => is_alnum_lower c || is_dash c || (c == "."%char)) s = true -> PathEscape s = s.
Proof.
  induction s as [|c s IH]; [done|]. cbn [all_chars PathEscape]. intros H. apply andb_true_iff in H as [Hc Hs].
  replace (is_alnum_lower c || is_upper c || ContainsChar c "-_.~$&+=:@") with true; [by rewrite IH|]. symmetry. clear -Hc. revert Hc. ascii_cases c.
Qed.

Lemma unescape_app a b : ContainsChar "%" a = false -> unescape_path (a +:+ b) = option_map (fun t => a +:+ t) (unescape_path b).
Proof.
  induction a as [|c a IH]; cbn [ContainsChar]; [change ("" +:+ b) with b; by destruct (unescape_path b)|]. intros H. apply orb_false_iff in H as [Hc Ha].
  change (String c a +:+ b) with (String c (a +:+ b)). rewrite unescape_char; [rewrite IH by done; by destruct (unescape_path b)|].
  apply bool_decide_eq_false_2. apply bool_decide_eq_false_1 in Hc. congruence.
Qed.
(** What a request under a plain prefix asks for. *)
Lemma exact_uri prefix name p q : ContainsChar "%" prefix = false -> ContainsChar "?" prefix = false ->
  ParseRequestURI (prefix +:+ PathEscape name) = Some (p, q) -> p = prefix +:+ name /\ q = "".
Proof.
  intros Hp Hq. unfold ParseRequestURI. case_test; [done|]. rewrite CutChar_absent by by rewrite ContainsChar_app, Hq, PathEscape_no_query.
  rewrite unescape_app, unescape_PathEscape by done. by intros [= <- <-].
Qed.
Lemma page_uri prefix query p q : ContainsChar "%" prefix = false -> ContainsChar "?" prefix = false ->
  ParseRequestURI (prefix +:+ "?" +:+ query) = Some (p, q) -> p = prefix /\ q = query.
Proof.
  intros Hp Hq. unfold ParseRequestURI. case_test; [done|]. change ("?" +:+ query) with (String "?" query). rewrite CutChar_app by done.
  rewrite unescape_path_plain by done. by intros [= <- <-].
Qed.

#[local] Opaque decode_as missingNodeClaim_codec missingNodeCreateFence_codec missingNodeCreateFence_type missingNodeClaim_type missingNodeList_codec.
#[local] Opaque maxMissingNodeAuthorityResponseBytes maxMissingNodeCreateFenceBytes maxMissingNodeClaimAuthorityPages maxMissingNodeAuthorityNodePages.

(** ** Exchanges *)

(** The sentinel of a missing Node is private to the driver: net/http and its transports do not return it. *)
Definition foreign_event (e : event rres) : Prop :=
  match e with
  | Ev (Wire (RoundTrip _)) (Err e) => Is e ErrKubernetesNodeNotFound = false
  | Ev (Wire (RoundTrip _)) (Ok resp) => errIs (rs_BodyErr resp) ErrKubernetesNodeNotFound = false
  | Ev (Wire (BuildRequest _)) err => errIs err ErrKubernetesNodeNotFound = false
  | _ => True
  end.
Definition foreign (h : rhistory) : Prop := Forall foreign_event h.

Section Exchanges.
Context `{JT : JSONText} `{TT : TimeText} (r : KubernetesNodeResolver) (sha256_hex : string -> string) (ctx : context).

(** The token was read, a GET of this path and query was sent with it, and this response came back, not
    a redirect. Newest first. *)
Definition got (path query : string) (resp : response) (h : rhistory) : Prop :=
  exists token, let rq := kubernetes_request r ctx "GET" path query token None in
    h = [Ev (res := rres) (Wire (RoundTrip rq)) (Ok resp); Ev (res := rres) (Wire (BuildRequest rq)) None;
         Ev (res := rres) (ReadFile (kr_tokenPath r)) (Ok token)]
    /\ redirect_location resp = None.

(** A complete 200 response within the size limit, with this body. *)
Definition saw (path query data : string) (h : rhistory) : Prop :=
  exists resp, got path query resp h /\ readKubernetesResponse maxMissingNodeAuthorityResponseBytes resp = (200, data, None).

(** The API server answered 404 for the Node. *)
Definition saw_no_node (name : string) (h : rhistory) : Prop :=
  exists resp, got ("/api/v1/nodes/" +:+ name) "" resp h /\ rs_Status resp = 404.

Definition saw_claim (name : string) (claim : missingNodeClaim) (h : rhistory) : Prop :=
  exists data, saw (nodeClaimsPath +:+ "/" +:+ name) "" data h
    /\ decode_as missingNodeClaim_type missingNodeClaim_codec data = Ok claim /\ nc_Name claim = name.

Definition saw_page {A} (L : listing A) (token : string) (page : missingNodeList A) (h : rhistory) : Prop :=
  exists data, saw (ls_path L) (Encode (page_query L token)) data h
    /\ ls_decode L data = Ok page /\ pl_APIVersion page = ls_APIVersion L /\ pl_Kind page = ls_Kind L.

(** A chain of pages of one resource version, each asked for with the continuation token of the page
    before, from the first page to one without a token. *)
Inductive inventory {A} (L : listing A) (version : string) : string -> list A -> rhistory -> Prop :=
  | last_page token page h :
      saw_page L token page h -> lm_ResourceVersion (pl_Metadata page) = version -> lm_Continue (pl_Metadata page) = "" ->
      inventory L version token (pl_Items page) h
  | next_page token page rest h h' :
      saw_page L token page h -> lm_ResourceVersion (pl_Metadata page) = version -> lm_Continue (pl_Metadata page) <> "" ->
      inventory L version (lm_Continue (pl_Metadata page)) rest h' ->
      inventory L version token (pl_Items page ++ rest) (h' ++ h).
Definition saw_inventory {A} (L : listing A) (items : list A) (h : rhistory) : Prop :=
  exists version, version <> "" /\ inventory L version "" items h
    /\ NoDup (map (ls_name L) items) /\ NoDup (map (ls_uid L) items).

#[local] Ltac walk := repeat (wp_step; try done).

Lemma http_Do_spec rq : ensures (on_network (http_Do noRedirects rq)) (fun out h => forall resp, out = (Some resp, None) ->
  h = [Ev (res := rres) (Wire (RoundTrip rq)) (Ok resp)] /\ redirect_location resp = None).
Proof.
  unfold http_Do, ensures. cbn [on_network call bind]. split; [done|]. intros [resp|e]; simpl; [|done].
  destruct (redirect_location resp) eqn:E; simpl; [by destruct (resolve_location rq s)|]. by intros resp' [= <-].
Qed.

Lemma request_spec path limit : ensures (kubernetesAPIRequestWithLimit r ctx "GET" path None limit) (fun out h => forall status data, out = (status, data, None) ->
  exists p q resp, ParseRequestURI path = Some (p, q) /\ got p q resp h /\ readKubernetesResponse limit resp = (status, data, None)).
Proof.
  unfold kubernetesAPIRequestWithLimit, ensures. wp_step; [done|]. wp_step. wp_step. destruct r0 as [token|e]; [|done].
  destruct (ParseRequestURI path) as [[p q]|] eqn:Ep; [|done]. wp_step. wp_step. destruct r0 as [e|]; [done|]. wp_step.
  eapply ensures_use; [apply http_Do_spec|]. intros [resp err] new Hd. destruct err as [e|]; [done|]. destruct resp as [resp|]; [|done].
  destruct (Hd resp eq_refl) as [-> Hr]. intros status data E. exists p, q, resp. split_and!; [done| |done]. by exists token.
Qed.

Lemma url_error_Is e t : Is (url_error e) t = Is e t.
Proof. unfold url_error. by destruct (Client.net_error e) as [[]|]. Qed.
Lemma http_Do_error rq : ensures (on_network (http_Do noRedirects rq)) (fun out h => foreign h -> errIs (out.2) ErrKubernetesNodeNotFound = false).
Proof.
  unfold http_Do, ensures. cbn [on_network call bind]. split; [done|]. intros [resp|e]; cbn [on_network wp].
  - destruct (redirect_location resp) as [l|]; [|done]. destruct (resolve_location rq l); cbn [on_network wp snd errIs]; by rewrite url_error_Is.
  - intros H. inversion H; subst. cbn [snd errIs]. by rewrite url_error_Is.
Qed.
Lemma ensures_and {act} {res : act -> Type} {A} (p : prog res A) Q R : ensures p Q -> ensures p R -> ensures p (fun a h => Q a h /\ R a h).
Proof.
  unfold ensures. generalize (@nil (event res)). induction p as [a|x k IH| |]; intros h; simpl; [done| |done|done].
  intros [_ HQ] [_ HR]. split; [done|]. intros o. by apply IH.
Qed.
Lemma read_limited_err resp n data e : read_limited resp n = (data, Some e) -> rs_BodyErr resp = Some e.
Proof. unfold read_limited. case_test; by intros [= _ ?]. Qed.
Lemma foreign_app h h' : foreign (h ++ h') <-> foreign h /\ foreign h'.
Proof. apply Forall_app. Qed.

(** The one way to learn that a Node is missing: a 404 for it. *)
Lemma ProviderIDForNode_missing name : ensures (ProviderIDForNode r ctx name) (fun out h => foreign h -> forall e, out = Err e ->
  Is e ErrKubernetesNodeNotFound = true -> saw_no_node name h).
Proof.
  unfold ProviderIDForNode, ensures. case_test; [by intros _ e [= <-]|]. apply negb_false_iff in Heqb. wp_step. wp_step.
  destruct r0 as [token|e]; [|by intros _ e' [= <-]]. wp_step. wp_step. destruct r0 as [e|].
  { intros H e' [= <-] Hi. inversion H as [|? ? Hh]; subst. simpl in Hh. by rewrite Hi in Hh. }
  wp_step. eapply ensures_use; [apply ensures_and; [apply http_Do_spec|apply http_Do_error]|]. intros [resp err] new [Hd He].
  destruct err as [e|].
  { intros [H _]%foreign_app e' [= <-]. specialize (He H). simpl in He. case_test; [by rewrite He|done]. }
  destruct resp as [resp|]; [|done]. destruct (Hd resp eq_refl) as [-> Hr]. destruct (read_limited resp 1048576) as [data [e|]] eqn:El.
  { intros H e' [= <-]. inversion H as [|? ? Hh]; subst. simpl in Hh. apply read_limited_err in El. rewrite El in Hh. simpl in Hh. case_test; [by rewrite Hh|done]. }
  intros _ e Hn Hi. exists resp. revert Hn. unfold nodeStatus. case_test.
  - intros _. split; [|lia]. exists token. split; [|done]. rewrite PathEscape_name; [done|]. eapply bounded_label_chars; [| |exact Heqb]; [|done].
    intros c Hc. by rewrite Hc.
  - intros Hn. exfalso. revert Hn. repeat case_match; intros [= <-]; done.
Qed.
Lemma requireMissing_spec name : ensures (requireMissingKubernetesNode r ctx name) (fun out h => foreign h -> out = None -> saw_no_node name h).
Proof.
  unfold requireMissingKubernetesNode, ensures. wp_step. eapply ensures_use; [apply ProviderIDForNode_missing|].
  intros [id|e] new H; [done|]. case_test; [|done]. wp_step. rewrite app_nil_r. intros Hf _. by eapply H.
Qed.

Lemma getMissingNodeClaim_spec name : ensures (getMissingNodeClaim r ctx name) (fun out h => forall claim, out = Ok claim -> saw_claim name claim h).
Proof.
  unfold getMissingNodeClaim, ensures. wp_step. eapply ensures_use; [apply request_spec|]. intros [[status data] err] new H.
  destruct err as [e|]; [done|]. destruct (H _ _ eq_refl) as (p & q & resp & Hu & Hg & Hr). rewrite app_nil_r.
  case_test; [done|]. destruct (decode_as _ _ data) as [claim|e] eqn:Ed; [|done]. case_test; [done|]. intros claim' [= <-].
  apply negb_false_iff, Z.eqb_eq in Heqb. subst status. change (nodeClaimsPath +:+ "/" +:+ PathEscape name) with ((nodeClaimsPath +:+ "/") +:+ PathEscape name) in Hu.
  apply exact_uri in Hu as [-> ->]; [|done..]. exists data. bool_hyps. split_and!; [|done|done]. by exists resp.
Qed.

(** ** Inventories *)

(** What the two sets of a listing remember of the items taken so far. *)
Definition remembered {A} (L : listing A) (names uids : gset string) (items : list A) : Prop :=
  (forall x, In x items -> ls_name L x ∈ names /\ ls_uid L x ∈ uids) /\ NoDup (map (ls_name L) items) /\ NoDup (map (ls_uid L) items).

Lemma NoDup_snoc {A B} (f : A -> B) (l : list A) x (seen : A -> Prop) :
  (forall y, In y l -> seen y) -> (forall y, seen y -> f y <> f x) -> NoDup (map f l) -> NoDup (map f (l ++ [x])).
Proof.
  intros Hs Hx Hn. rewrite map_app. apply NoDup_app. split_and!; [done| |repeat constructor; set_solver].
  intros z Hz Hz'. apply list_elem_of_In in Hz. apply in_map_iff in Hz as (y & <- & Hy). apply list_elem_of_singleton in Hz'. by eapply Hx; [apply Hs|].
Qed.
Lemma takeItems_spec {A} (L : listing A) items : forall names uids taken names' uids' taken',
  remembered L names uids taken -> takeItems L items names uids taken = Ok (names', uids', taken') ->
  taken' = taken ++ items /\ remembered L names' uids' taken'.
Proof.
  induction items as [|x items IH]; intros names uids taken names' uids' taken' Hr; cbn [takeItems].
  { intros [= <- <- <-]. by rewrite app_nil_r. }
  case_test; [done|]. case_test; [done|]. case_test; [done|]. case_test; [done|]. intros H. apply IH in H as [-> H].
  - split; [by rewrite <-app_assoc|done].
  - destruct Hr as (Hs & Hn & Hu). bool_hyps. split_and!.
    + intros y [Hy|[<-|[]]]%in_app_iff; [|set_solver]. destruct (Hs y Hy). set_solver.
    + apply (NoDup_snoc _ _ _ (fun y => ls_name L y ∈ names)); [by intros y Hy; apply Hs| |done]. intros y Hy E. congruence.
    + apply (NoDup_snoc _ _ _ (fun y => ls_uid L y ∈ uids)); [by intros y Hy; apply Hs| |done]. intros y Hy E. congruence.
Qed.

(** One page that was accepted. *)
Lemma takePage_spec {A} (L : listing A) s page out : remembered L (st_names s) (st_uids s) (st_result s) -> takePage L s page = Ok out ->
  let version := lm_ResourceVersion (pl_Metadata page) in let token := lm_Continue (pl_Metadata page) in let taken := st_result s ++ pl_Items page in
  pl_APIVersion page = ls_APIVersion L /\ pl_Kind page = ls_Kind L /\ version <> "" /\ (st_version s = "" \/ version = st_version s)
  /\ exists names uids, remembered L names uids taken
  /\ match out with
     | inl items => token = "" /\ items = taken
     | inr s' => token <> "" /\ st_result s' = taken /\ st_names s' = names /\ st_uids s' = uids /\ st_version s' = version /\ st_continue s' = token
     end.
Proof.
  intros Hs. unfold takePage. case_test; [done|]. destruct ((st_version s != "") && _) eqn:Ev; [done|].
  destruct (takeItems _ _ _ _ _) as [[[names uids] taken]|e] eqn:Ei; [|done]. apply takeItems_spec in Ei as [-> Hr]; [|done].
  assert (st_version s = "" \/ lm_ResourceVersion (pl_Metadata page) = st_version s) as Hv.
  { apply andb_false_iff in Ev as [Ev|Ev]; bool_hyps; auto. }
  intros H. bool_hyps. split_and!; [done..|]. exists names, uids. split; [done|]. revert H. case_test; [intros [= <-]; by bool_hyps|].
  case_test; [done|]. case_test; [done|]. intros [= <-]. by bool_hyps.
Qed.
Lemma listPages_spec {A} (L : listing A) pages : ContainsChar "%" (ls_path L) = false -> ContainsChar "?" (ls_path L) = false ->
  forall s, remembered L (st_names s) (st_uids s) (st_result s) ->
  ensures (listPages r L pages ctx s) (fun out h => forall items, out = Ok items ->
    exists version rest, version <> "" /\ (st_version s = "" \/ version = st_version s) /\ items = st_result s ++ rest
      /\ inventory L version (st_continue s) rest h /\ NoDup (map (ls_name L) items) /\ NoDup (map (ls_uid L) items)).
Proof.
  intros Hp Hq. induction pages as [|pages IH]; intros s Hs; [done|]. cbn [listPages]. unfold ensures. wp_step.
  eapply ensures_use; [apply request_spec|]. intros [[status data] err] new H. rewrite app_nil_r.
  destruct err as [e|]; [done|]. destruct (H _ _ eq_refl) as (p & q & resp & Hu & Hg & Hread). apply page_uri in Hu as [-> ->]; [|done..].
  case_test; [done|]. apply negb_false_iff, Z.eqb_eq in Heqb. subst status. destruct (ls_decode L data) as [page|e] eqn:Ed; [|done].
  destruct (takePage L s page) as [out|e] eqn:Et; [|done]. apply takePage_spec in Et as (Hav & Hk & Hv & Hver & names & uids & Hr & Ho); [|done].
  assert (saw_page L (st_continue s) page new) as Hpage by (exists data; split_and!; [by exists resp|done..]). destruct out as [items|s'].
  - destruct Ho as [Ht ->]. intros items [= <-]. destruct Hr as (_ & Hn1 & Hn2).
    exists (lm_ResourceVersion (pl_Metadata page)), (pl_Items page). split_and!; try done. by apply last_page.
  - destruct Ho as (Ht & Ha & Hb & Hc & Hd & He). eapply ensures_use; [apply IH; by rewrite Ha, Hb, Hc|].
    intros o h' Ho items ->. destruct (Ho items eq_refl) as (version & rest & Hv' & Hver' & -> & Hin & Hn1 & Hn2).
    rewrite Ha, Hd, He in *. destruct Hver' as [?| ->]; [done|]. eexists _, (pl_Items page ++ rest).
    split_and!; try done; [by rewrite app_assoc|]. by apply next_page.
Qed.

Lemma saw_inventory_of {A} (L : listing A) pages : ContainsChar "%" (ls_path L) = false -> ContainsChar "?" (ls_path L) = false ->
  ensures (listPages r L pages ctx listStart) (fun out h => forall items, out = Ok items -> saw_inventory L items h).
Proof.
  intros Hp Hq. eapply wp_mono; [apply (listPages_spec L pages Hp Hq listStart); repeat constructor; by intros|].
  intros out h H items Ho. destruct (H items Ho) as (v & rest & Hv & _ & -> & Hi & Hn). by exists v.
Qed.
End Exchanges.

(** ** Provider IDs *)

Lemma get_scheme_split s : forall first a b, get_scheme first s = Some (Some (a, b)) -> s = a +:+ String ":" b.
Proof.
  induction s as [|c s IH]; intros first a b; cbn [get_scheme]; [done|].
  pose proof (IH false) as Hs. destruct (get_scheme false s) as [[[x y]|]|]; case_test; try done.
  1: by intros [= <- <-]; rewrite (Hs x y eq_refl).
  all: case_test; [destruct first; [done|]; try done; by intros [= <- <-]; rewrite (Hs x y eq_refl)|].
  all: case_test; [|done]; destruct first; [done|]; intros [= <- <-].
  all: match goal with H : (_ == ":"%char) = true |- _ => apply bool_decide_eq_true_1 in H; by rewrite H end.
Qed.
Lemma CutChar_fst sep s : exists t, s = fst (CutChar sep s) +:+ t.
Proof.
  induction s as [|c s [t IH]]; [by exists ""|]. cbn [CutChar]. case_test; [by exists (String c s)|]. destruct (CutChar sep s) as [x y]. exists t. simpl in *. by rewrite IH at 1.
Qed.
(** Lower-case text that parses with a scheme starts with it. *)
Lemma url_scheme_text v u : url_Parse v = Some u -> URL_Scheme u <> "" -> ToLower v = v -> exists rest, v = URL_Scheme u +:+ String ":" rest.
Proof.
  intros H Hs Hl. destruct (CutChar_fst "#" v) as [t Ht]. revert H. unfold url_Parse. destruct (CutChar "#" v) as [x frag]. simpl in Ht.
  case_test; [done|]. case_test; [by intros [= <-]|]. destruct (get_scheme true x) as [[[a b]|]|] eqn:E; [| |done].
  - apply get_scheme_split in E. subst x. rewrite Ht, !ToLower_app in Hl. intros Hu.
    assert (URL_Scheme u = ToLower a) as -> by (repeat case_match; simplify_eq; done).
    exists (b +:+ t). rewrite Ht at 1.
    assert (ToLower a = a) as ->; [|by rewrite append_assoc].
    clear -Hl. revert Hl. generalize (String ":" b) as w. intros w. induction a as [|c a IH]; [done|]. simpl. intros [= Hc Ha]. by rewrite Hc, IH.
  - intros Hu. exfalso. apply Hs. repeat case_match; simplify_eq; done.
Qed.

Lemma ToLower_canonical raw : ToLower (canonicalUUID raw) = canonicalUUID raw.
Proof. apply ToLower_idem. Qed.
(** A listed object whose ID passed the check and resolves to a VM carries the canonical text of it. *)
Lemma canonicalInSpaceID_spec raw id l u : canonicalInSpaceID raw = Ok id -> parseProviderID raw = Ok (l, u) -> id = Some ("inspace://" +:+ l +:+ "/" +:+ u).
Proof.
  unfold canonicalInSpaceID. intros Hc Hp. rewrite Hp in Hc.
  assert (HasPrefix (ToLower (TrimSpace raw)) "inspace:" = true) as Hx.
  { revert Hp. unfold parseProviderID. destruct (url_Parse (canonicalUUID raw)) as [url|] eqn:E; [|done]. case_test; [done|]. intros _. bool_hyps.
    apply url_scheme_text in E as [rest E]; [|congruence|apply ToLower_canonical]. unfold canonicalUUID in E. by rewrite E, H. }
  revert Hc. destruct (TrimSpace raw == "") eqn:Et; [apply bool_decide_eq_true_1 in Et; by rewrite Et in Hx|]. rewrite Hx. simpl. case_test; [done|]. by intros [= <-].
Qed.

(** ** What the checks establish *)

Section Checks.
Context `{JT : JSONText} `{TT : TimeText} (sha256_hex : string -> string) (request : missingNodeDetachRequest) (o : missingNodeOwnershipRecord).

Definition resolves (providerID : string) : Prop := parseProviderID providerID = Ok (req_Location request, req_VMUUID request).

Definition stamped (s : string) : Prop := exists t, parse_time s = Some t /\ t <> 0.

(** A strict-v3 create fence of this claim, materialized as this VM and not rolled back. *)
Definition materialized_as (claim : missingNodeClaim) (f : missingNodeCreateFence) : Prop :=
  cf_Schema f = inspaceCreateFenceV3 /\ cf_Phase f = inspaceCreateFenceMaterialized
  /\ fb_NodeClaimUID (cf_Binding f) = nc_UID claim /\ fb_IdempotencyKeyHash (cf_Binding f) = sha256_hex (nc_UID claim)
  /\ cf_CreatedVMUUID f = req_VMUUID request /\ cf_ObservedVMUUID f = req_VMUUID request /\ cf_RollbackAt f = None /\ cf_ProtectionFailureAt f = None
  /\ ci_Location (cf_Cleanup f) = req_Location request /\ ci_NetworkUUID (cf_Cleanup f) = req_NetworkUUID request
  /\ ci_BillingAccountID (cf_Cleanup f) = req_BillingAccountID request /\ ci_NodeClaimName (cf_Cleanup f) = nc_Name claim
  /\ ci_VMName (cf_Cleanup f) = req_NodeName request /\ own_KeyHash o = take_string 32 (sha256_hex (nc_UID claim))
  /\ exists a, cf_BaseFirewallAssignment f = Some a /\ fa_Phase a = inspaceFirewallAssignmentObserved /\ fa_VMUUID a = req_VMUUID request
       /\ fa_FirewallUUID a = own_FirewallUUID o /\ fa_RejectedAt a = None.

(** The claim of the VM's worker: it is being deleted, both finalizers still hold it, it registered, its
    instance is not yet terminating, and its status and fence name the VM. *)
Definition deleting_claim (claim : missingNodeClaim) : Prop :=
  nc_Name claim = own_NodeClaim o /\ nc_UID claim <> "" /\ stamped (mm_DeletionTimestamp (nc_Metadata claim))
  /\ In karpenterTerminationFinalizer (mm_Finalizers (nc_Metadata claim)) /\ In inspaceCreateProtectionFinalizer (mm_Finalizers (nc_Metadata claim))
  /\ nc_NodeName claim = req_NodeName request /\ nc_ProviderID claim = expectedProviderID request /\ resolves (nc_ProviderID claim)
  /\ In (Build_missingNodeCondition karpenterRegisteredCondition "True") (mcs_Conditions (nc_Status claim))
  /\ (forall c, In c (mcs_Conditions (nc_Status claim)) -> mc_Type c <> karpenterTerminatingCondition)
  /\ exists f, decode_as missingNodeCreateFence_type missingNodeCreateFence_codec (nc_Annotation claim inspaceCreateFenceAnnotation) = Ok f
       /\ materialized_as claim f.

Lemma stamped_of s : validMissingNodeTimestamp s = true -> stamped s.
Proof. unfold validMissingNodeTimestamp, stamped. destruct (parse_time s) as [t|]; [|done]. intros H. exists t. split; [done|]. bool_hyps. lia. Qed.
Lemma is_nil_None {A} (x : option A) : is_nil x = true -> x = None.
Proof. by destruct x. Qed.

Lemma collectFinalizers_spec l : forall seen out f, collectFinalizers l seen = Ok out -> f ∈ out -> f ∈ seen \/ In f l.
Proof.
  induction l as [|x l IH]; intros seen out f; cbn [collectFinalizers]; [intros [= <-]; auto|]. case_test; [done|]. case_test; [done|].
  intros H Hf. destruct (IH _ _ _ H Hf) as [Hs|Hl]; [|by right; right]. apply elem_of_union in Hs as [->%elem_of_singleton|Hs]; [right; by left|by left].
Qed.
Lemma collectConditions_spec l : forall seen out, collectConditions l seen = Ok out ->
  (forall t s, out !! t = Some s -> seen !! t = Some s \/ In (Build_missingNodeCondition t s) l) /\ (forall c, In c l -> mc_Type c ∈ dom out)
  /\ dom seen ⊆ dom out.
Proof.
  induction l as [|c l IH]; intros seen out; cbn [collectConditions]; [intros [= <-]; split_and!; [auto|done|done]|]. case_test; [done|]. case_test; [done|].
  intros H. destruct (IH _ _ H) as (H1 & H2 & H3). rewrite dom_insert in H3. split_and!; [|by intros d [<-|Hd]; [set_solver|apply H2]|set_solver].
  intros t s Ho. destruct (H1 t s Ho) as [Hs|Hl]; [|by right; right]. apply lookup_insert_Some in Hs as [[<- <-]|[_ Hs]]; [|by left]. right. left. by destruct c.
Qed.

Lemma validateFence_spec f claim : validateMissingNodeCreateFence sha256_hex f claim request o = None -> materialized_as claim f.
Proof.
  unfold validateMissingNodeCreateFence, sameCleanupIdentity, observedAssignment. destruct (cf_BaseFirewallAssignment f) as [a|] eqn:Ea.
  2: { repeat case_test; done. }
  do 10 (case_test; [done|]). intros _. bool_hyps. unfold materialized_as. rewrite Ea.
  split_and!; try (done || congruence || (by apply is_nil_None)). exists a. split_and!; try (done || congruence). by apply is_nil_None.
Qed.

Lemma validateClaim_spec claim : validateMissingNodeClaim sha256_hex claim request o = None -> deleting_claim claim.
Proof.
  unfold validateMissingNodeClaim. case_test; [done|]. case_test; [done|]. destruct (collectFinalizers _ _) as [fin|e] eqn:Ef; [|done].
  do 4 (case_test; [done|]). destruct (collectConditions _ _) as [conds|e] eqn:Ec; [|done]. do 3 (case_test; [done|]).
  destruct (decode_as _ _ _) as [f|e] eqn:Ed; [|done]. intros Hf%validateFence_spec. cbn [forallb] in *. bool_hyps.
  assert (forall x, x ∈ fin -> In x (mm_Finalizers (nc_Metadata claim))) as Hfin.
  { intros x Hx. destruct (collectFinalizers_spec _ _ _ _ Ef Hx) as [?|?]; [set_solver|done]. }
  destruct (collectConditions_spec _ _ _ Ec) as (C1 & C2 & _).
  assert (forall c, In c (mcs_Conditions (nc_Status claim)) -> mc_Type c <> karpenterTerminatingCondition) as Hterm.
  { intros c Hc E. apply C2 in Hc. rewrite E in Hc. contradiction. }
  repeat match goal with H : _ ∈ fin |- _ => apply Hfin in H end. match goal with H : _ ∉ _ |- _ => clear H end. clear Hfin C2.
  repeat match goal with H : nc_Annotation _ _ <> _ |- _ => clear H | H : nc_Annotation _ _ = _ |- _ => clear H end.
  unfold bindsVM in *. destruct (parseProviderID (nc_ProviderID claim)) as [[l u]|e] eqn:Ep; [|discriminate]. bool_hyps. subst.
  assert (In (Build_missingNodeCondition karpenterRegisteredCondition "True") (mcs_Conditions (nc_Status claim))) as Hreg.
  { unfold annotation in *. destruct (conds !! karpenterRegisteredCondition) as [s|] eqn:El; [|discriminate]. simpl in *. subst s.
    destruct (C1 _ _ El); [discriminate|assumption]. }
  split_and!; try (assumption || congruence); [by apply stamped_of|]. exists f. split; assumption.
Qed.

(** ** Inventories *)

Lemma validateInventory_spec l : validateMissingNodeInventory l request = None ->
  Forall (fun n => kn_Name n <> req_NodeName request /\ ~ resolves (kn_ProviderID n)) l.
Proof.
  induction l as [|n l IH]; cbn [validateMissingNodeInventory]; [constructor|]. case_test; [done|].
  destruct (canonicalInSpaceID _) as [id|e] eqn:Ei; [|done]. case_test; [done|]. intros H. bool_hyps. constructor; [|by apply IH].
  split; [done|]. intros Hr. by rewrite (canonicalInSpaceID_spec _ _ _ _ Ei Hr) in *.
Qed.

Definition named (c : missingNodeClaim) : bool := nc_Name c == own_NodeClaim o.
Lemma countClaims_spec exact l : forall e p e' p', countClaims sha256_hex l exact request o e p = Ok (e', p') ->
  e' = (e + List.length (List.filter named l))%nat
  /\ Forall (fun c => (named c = true -> nc_UID c = nc_UID exact /\ deleting_claim c) /\ (resolves (nc_ProviderID c) -> named c = true)) l.
Proof.
  induction l as [|c l IH]; intros e p e' p'; cbn [countClaims]; [intros [= <- <-]; split; [simpl; lia|constructor]|].
  cbn [List.filter]. fold (named c). destruct (if named c then _ else None) as [err|] eqn:Ec; [done|].
  destruct (canonicalInSpaceID _) as [id|err] eqn:Ei; [|done].
  assert (named c = true -> nc_UID c = nc_UID exact /\ deleting_claim c) as Hn.
  { intros En. rewrite En in Ec. revert Ec. case_test; [done|]. destruct (validateMissingNodeClaim _ _ _ _) eqn:Ev; [done|]. intros _.
    bool_hyps. split; [done|]. by apply validateClaim_spec. }
  assert (forall p0, countClaims sha256_hex l exact request o (if named c then S e else e) p0 = Ok (e', p') -> (resolves (nc_ProviderID c) -> named c = true) ->
    e' = (e + List.length (if named c then c :: List.filter named l else List.filter named l))%nat
    /\ Forall (fun c => (named c = true -> nc_UID c = nc_UID exact /\ deleting_claim c) /\ (resolves (nc_ProviderID c) -> named c = true)) (c :: l)) as Hrest.
  { intros p0 H Hres. apply IH in H as [-> Hall]. split; [destruct (named c); simpl; lia|]. by constructor. }
  case_test.
  - case_test; [done|]. intros H. apply (Hrest _ H). intros _. by bool_hyps.
  - intros H. apply (Hrest _ H). intros Hr. rewrite (canonicalInSpaceID_spec _ _ _ _ Ei Hr) in *. bool_hyps. done.
Qed.

(** Exactly one listed claim is the worker's, and no other one names its claim or resolves to its VM. *)
Definition one_claim (uid : string) (l : list missingNodeClaim) : Prop :=
  exists pre c post, l = pre ++ c :: post /\ deleting_claim c /\ nc_UID c = uid
    /\ Forall (fun d => nc_Name d <> own_NodeClaim o /\ ~ resolves (nc_ProviderID d)) (pre ++ post).

Lemma filter_one {A} (f : A -> bool) l : List.length (List.filter f l) = 1%nat -> exists pre x post, l = pre ++ x :: post /\ f x = true /\ Forall (fun y => f y = false) (pre ++ post).
Proof.
  induction l as [|x l IH]; simpl; [done|]. destruct (f x) eqn:E; simpl.
  - intros [= H]. exists [], x, l. split_and!; [done|done|]. apply Forall_forall. intros y Hy. destruct (f y) eqn:Ey; [|done]. exfalso.
    apply length_zero_iff_nil in H. assert (In y (List.filter f l)) as Hin by (apply filter_In; split; [by apply list_elem_of_In|done]). by rewrite H in Hin.
  - intros H. destruct (IH H) as (pre & y & post & -> & Hy & Hf). exists (x :: pre), y, post. split_and!; [done|done|]. by constructor.
Qed.
Lemma validateClaimInventory_spec exact l : validateMissingNodeClaimInventory sha256_hex l exact request o = None -> one_claim (nc_UID exact) l.
Proof.
  unfold validateMissingNodeClaimInventory. destruct (countClaims _ _ _ _ _ _ _) as [[e p]|err] eqn:E; [|done]. case_test; [done|]. intros _.
  apply countClaims_spec in E as [-> Hall]. bool_hyps. apply Nat.eqb_eq, filter_one in H as (pre & c & post & -> & Hc & Hf). exists pre, c, post.
  apply Forall_app in Hall as [Hpre Hall]. apply Forall_cons in Hall as [[Hn _] Hpost]. destruct (Hn Hc) as [Hu Hd]. split_and!; [done..|].
  assert (Forall (fun c => resolves (nc_ProviderID c) -> named c = true) (pre ++ post)) as Hres.
  { apply Forall_app. split; eapply Forall_impl; [exact Hpre|by intros d []|exact Hpost|by intros d []]. }
  eapply Forall_impl; [apply Forall_and; split; [exact Hres|exact Hf]|]. intros d [Hr Hd']. split.
  - intros En. unfold named in Hd'. by rewrite En, bool_decide_eq_true_2 in Hd'.
  - intros Hr'. apply Hr in Hr'. congruence.
Qed.
End Checks.

(** ** The authority *)

(** What stands behind a granted authority, in the order of the exchanges: the Node is missing, its
    claim is being deleted, one claim and no Node of complete inventories belong to the VM, the claim is
    still the same, and the Node is still missing. *)
Definition detach_evidence `{JT : JSONText} `{TT : TimeText} (r : KubernetesNodeResolver) (sha256_hex : string -> string) (ctx : context)
    (request : missingNodeDetachRequest) (h : rhistory) : Prop :=
  exists o claim listed listed_nodes readback h1 h2 h3 h4 h5 h6,
    h = h6 ++ h5 ++ h4 ++ h3 ++ h2 ++ h1
    /\ validateMissingNodeDetachRequest request = Ok o
    /\ saw_no_node r ctx (req_NodeName request) h1
    /\ saw_claim r ctx (own_NodeClaim o) claim h2 /\ deleting_claim sha256_hex request o claim
    /\ saw_inventory r ctx claims listed h3 /\ one_claim sha256_hex request o (nc_UID claim) listed
    /\ saw_inventory r ctx nodes listed_nodes h4
    /\ Forall (fun n => kn_Name n <> req_NodeName request /\ ~ resolves request (kn_ProviderID n)) listed_nodes
    /\ saw_claim r ctx (own_NodeClaim o) readback h5 /\ deleting_claim sha256_hex request o readback /\ sameClaimIdentity claim readback = true
    /\ saw_no_node r ctx (req_NodeName request) h6.

(** C9: when the missing-node authority is granted, the API server answered 404 for the Node before and
    after everything else; in between it returned the deleting NodeClaim of the VM twice with the same
    identity, a complete NodeClaim inventory of one resource version in which no other claim names it or
    resolves to its VM, and a complete Node inventory without the Node and without a Node that resolves to
    the VM. *)
Theorem missing_node_authority `{JT : JSONText} `{TT : TimeText} r sha256_hex ctx request h :
  exec (AuthorizeMissingNodeDetach r sha256_hex ctx request) [] (Some None) h -> foreign h -> detach_evidence r sha256_hex ctx request h.
Proof.
  intros He. revert h He. enough (ensures (AuthorizeMissingNodeDetach r sha256_hex ctx request) (fun out h => foreign h -> out = None -> detach_evidence r sha256_hex ctx request h)) as H.
  { intros h He Hf. by apply (exec_ensures _ _ _ _ H He). }
  unfold AuthorizeMissingNodeDetach, refused, ensures. destruct (validateMissingNodeDetachRequest request) as [o|e] eqn:Eo; [|done].
  wp_step. eapply ensures_use; [apply requireMissing_spec|]. intros [e|] h1 H1; [done|]. rewrite app_nil_r.
  wp_step. eapply ensures_use; [apply getMissingNodeClaim_spec|]. intros [claim|e] h2 H2; [|done].
  destruct (validateMissingNodeClaim _ claim _ _) as [e|] eqn:Ec; [done|]. apply validateClaim_spec in Ec.
  wp_step. eapply ensures_use; [by apply saw_inventory_of|]. intros [listed|e] h3 H3; [|done].
  destruct (validateMissingNodeClaimInventory _ _ _ _ _) as [e|] eqn:Ei; [done|]. apply validateClaimInventory_spec in Ei.
  wp_step. eapply ensures_use; [by apply saw_inventory_of|]. intros [found|e] h4 H4; [|done].
  destruct (validateMissingNodeInventory _ _) as [e|] eqn:En; [done|]. apply validateInventory_spec in En.
  wp_step. eapply ensures_use; [apply getMissingNodeClaim_spec|]. intros [readback|e] h5 H5; [|done].
  destruct (validateMissingNodeClaim _ readback _ _) as [e|] eqn:Er; [done|]. apply validateClaim_spec in Er.
  destruct (sameClaimIdentity claim readback) eqn:Es; [|done]. simpl negb. cbv iota.
  wp_step. eapply ensures_use; [apply requireMissing_spec|]. intros [e|] h6 H6; [done|]. wp_step. intros Hf _.
  rewrite !foreign_app in Hf. destruct Hf as (F6 & F5 & F4 & F3 & F2 & F1).
  exists o, claim, listed, found, readback, h1, h2, h3, h4, h5, h6. split_and!; auto.
Qed.

(** Every path returns after a bounded number of actions, three for each request. *)
Section Bound.
Context `{JT : JSONText} `{TT : TimeText} (r : KubernetesNodeResolver) (sha256_hex : string -> string) (ctx : context).
#[local] Ltac ends := repeat (first [ progress intros | exact I | progress cbn [bind call within on_network http_Do] | case_match ]).
Lemma request_ends method path body limit : within 3 (kubernetesAPIRequestWithLimit r ctx method path body limit).
Proof. unfold kubernetesAPIRequestWithLimit, http_Do. ends; simplify_eq. Qed.
Lemma node_ends name : within 3 (ProviderIDForNode r ctx name).
Proof. unfold ProviderIDForNode, http_Do. ends; simplify_eq. Qed.
Lemma missing_ends name : within 3 (requireMissingKubernetesNode r ctx name).
Proof. unfold requireMissingKubernetesNode. eapply within_then; [apply node_ends|done|]. ends. Qed.
Lemma claim_read_ends name : within 3 (getMissingNodeClaim r ctx name).
Proof. unfold getMissingNodeClaim. eapply within_then; [apply request_ends|done|]. ends. Qed.
Lemma pages_end {A} (L : listing A) pages : forall s, within (3 * pages) (listPages r L pages ctx s).
Proof.
  induction pages as [|pages IH]; intros s; [done|]. cbn [listPages]. eapply within_then; [apply request_ends|lia|].
  replace (3 * S pages - 3)%nat with (3 * pages)%nat by lia. ends. apply IH.
Qed.

(** Only GETs without a body are built or sent. *)
Definition read_request (x : ract) : Prop :=
  match x with Wire (RoundTrip rq) | Wire (BuildRequest rq) => rq_Method rq = "GET" /\ rq_Body rq = None | _ => True end.
Lemma on_network_only {A} (p : prog hres A) (P : ract -> Prop) : only (fun x => P (Wire x)) p -> only P (on_network p).
Proof. induction p; simpl; naive_solver. Qed.
#[local] Ltac reading := repeat (first [ progress intros | exact I | done | apply only_bind | progress cbn [only call] | case_match ]).
Lemma do_reads rq : rq_Method rq = "GET" /\ rq_Body rq = None -> only read_request (on_network (http_Do noRedirects rq)).
Proof. intros H. apply on_network_only. unfold http_Do. cbn [bind call only]. split; [done|]. reading. Qed.
Lemma request_reads path limit : only read_request (kubernetesAPIRequestWithLimit r ctx "GET" path None limit).
Proof. unfold kubernetesAPIRequestWithLimit. reading; try (by apply do_reads); by split. Qed.
Lemma missing_reads name : only read_request (requireMissingKubernetesNode r ctx name).
Proof. unfold requireMissingKubernetesNode, ProviderIDForNode, nodeStatus. apply only_bind; [|reading]. case_match; [done|]. reading; try (by apply do_reads); by split. Qed.
Lemma claim_reads name : only read_request (getMissingNodeClaim r ctx name).
Proof. unfold getMissingNodeClaim. apply only_bind; [apply request_reads|]. reading. Qed.
Lemma pages_read {A} (L : listing A) pages : forall s, only read_request (listPages r L pages ctx s).
Proof. induction pages as [|pages IH]; intros s; [done|]. cbn [listPages]. apply only_bind; [apply request_reads|]. reading. Qed.

(** The missing-node authority only reads: every request is a GET without a body; and it returns
    whatever the API server answers, after at most 1158 requests (four exact reads and the page limits of
    the two inventories), each with a read of the token and the construction of the request. *)
Theorem missing_node_authority_ends request :
  only read_request (AuthorizeMissingNodeDetach r sha256_hex ctx request)
  /\ within (3 * (4 + maxMissingNodeClaimAuthorityPages + maxMissingNodeAuthorityNodePages)) (AuthorizeMissingNodeDetach r sha256_hex ctx request).
Proof.
  unfold AuthorizeMissingNodeDetach, refused, listMissingNodeClaims, listKubernetesNodesForMissingNodeAuthority.
  change (ls_pages claims) with maxMissingNodeClaimAuthorityPages. change (ls_pages nodes) with maxMissingNodeAuthorityNodePages.
  generalize maxMissingNodeClaimAuthorityPages as m, maxMissingNodeAuthorityNodePages as n. intros m n. case_match; [|by split]. split.
  - apply only_bind; [apply missing_reads|]. intros [e|]; [done|]. apply only_bind; [apply claim_reads|]. intros [claim|e]; [|done]. case_match; [done|].
    apply only_bind; [apply pages_read|]. intros [listed|e]; [|done]. case_match; [done|].
    apply only_bind; [apply pages_read|]. intros [found|e]; [|done]. case_match; [done|].
    apply only_bind; [apply claim_reads|]. intros [readback|e]; [|done]. case_match; [done|]. case_match; [done|].
    apply only_bind; [apply missing_reads|]. by intros [e|].
  - eapply within_then; [apply missing_ends|lia|]. intros [e|]; [done|].
    eapply within_then; [apply claim_read_ends|lia|]. intros [claim|e]; [|done]. case_match; [done|].
    eapply within_then; [apply pages_end|lia|]. intros [listed|e]; [|done]. case_match; [done|].
    eapply within_then; [apply pages_end|lia|]. intros [found|e]; [|done]. case_match; [done|].
    eapply within_then; [apply claim_read_ends|lia|]. intros [readback|e]; [|done]. case_match; [done|]. case_match; [done|].
    eapply within_then; [apply missing_ends|lia|]. by intros [e|].
Qed.
End Bound.

(** ** A missing Node, an API server that shows it, and the authority that follows

    One execution of [AuthorizeMissingNodeDetach] against an API server that answers from a table: the
    Node is gone, its NodeClaim is being deleted, and the inventories span two pages and one. *)

Definition vm_id : string := "0f0e0d0c-1111-4222-8333-444455556666".
Definition disk_id : string := "aaaaaaaa-1111-4222-8333-444455556666".
Definition network_id : string := "bbbbbbbb-1111-4222-8333-444455556666".
Definition pool_id : string := "cccccccc-1111-4222-8333-444455556666".
Definition firewall_id : string := "dddddddd-1111-4222-8333-444455556666".
Definition hex32 : string := "0123456789abcdef0123456789abcdef".
Definition hex64 : string := hex32 +:+ hex32.
(** A hash function of the documented shape. *)
Definition sample_sha (s : string) : string := hex64.
Definition stamp : string := "t1".

Definition strs (l : list (string * string)) : list (string * json) := map (fun kv => (kv.1, JStr kv.2)) l.
Definition ownership_json : json :=
  JObj (strs [("schema", inspaceOwnershipV3); ("cluster", "c"); ("nodeClaim", "w1"); ("vmName", "c-karp-w1"); ("keyHash", hex32); ("hostClass", "h");
    ("instanceType", "i"); ("hostPoolUUID", pool_id); ("specHash", hex32); ("bootstrapHash", hex32); ("firewallUUID", firewall_id);
    ("firewallProfile", "private-worker"); ("networkUUID", network_id); ("controlPlaneVIP", "10.0.0.2"); ("privateLoadBalancerPoolStart", "10.0.0.9");
    ("privateLoadBalancerPoolStop", "10.0.0.19"); ("osName", "ubuntu"); ("osVersion", "24.04"); ("floatingIPName", "fip")]
    ++ [("vCPU", JInt 2); ("memoryGiB", JInt 4); ("rootDiskGiB", JInt 40); ("billingAccountID", JInt 7)]).
Definition fence_json : json :=
  JObj ([("schema", JStr inspaceCreateFenceV3);
    ("binding", JObj (strs [("nodeClaimUID", "uid-1"); ("idempotencyKeyHash", hex64); ("requestHash", hex64); ("specHash", hex32); ("bootstrapHash", hex32)]));
    ("cleanup", JObj (strs [("clusterName", "c"); ("location", "bkk"); ("networkUUID", network_id); ("controlPlaneVIP", "10.0.0.2");
       ("privateLoadBalancerPoolStart", "10.0.0.9"); ("privateLoadBalancerPoolStop", "10.0.0.19"); ("firewallUUID", firewall_id);
       ("firewallProfile", "private-worker"); ("nodeClaimName", "w1"); ("vmName", "c-karp-w1"); ("ownershipKeyHash", hex32)] ++ [("billingAccountID", JInt 7)]))]
   ++ strs [("token", hex32); ("phase", "materialized"); ("intent", "post"); ("issueID", hex32); ("startedAt", stamp); ("issuedAt", stamp);
       ("launchObservedAt", stamp); ("createdVMUUID", vm_id); ("observedAt", stamp); ("observedVMUUID", vm_id); ("floatingIPName", "fip"); ("publicIPv4", "203.0.114.9")]
   ++ [("baseFirewallAssignment", JObj (strs [("vmUUID", vm_id); ("firewallUUID", firewall_id); ("phase", "observed"); ("issueID", hex32);
       ("intentAt", stamp); ("issuedAt", stamp); ("observedAt", stamp)]))]).
Definition claim_json (name uid node id : string) : json :=
  JObj [("apiVersion", JStr karpenterNodeClaimAPIVersion); ("kind", JStr karpenterNodeClaimKind);
    ("metadata", JObj [("name", JStr name); ("uid", JStr uid); ("resourceVersion", JStr "5"); ("deletionTimestamp", JStr stamp);
       ("finalizers", JArr [JStr karpenterTerminationFinalizer; JStr inspaceCreateProtectionFinalizer]);
       ("annotations", JObj (strs [(inspaceNodeNameAnnotation, node); (inspaceCreateFenceAnnotation, "$fence")]))]);
    ("status", JObj [("nodeName", JStr node); ("providerID", JStr id);
       ("conditions", JArr [JObj (strs [("type", karpenterRegisteredCondition); ("status", "True")])])])].
Definition worker_json : json := claim_json "w1" "uid-1" "c-karp-w1" ("inspace://bkk/" +:+ vm_id).
Definition list_json (version kind continue : string) (items : list json) : json :=
  JObj [("apiVersion", JStr version); ("kind", JStr kind); ("metadata", JObj (strs [("resourceVersion", "9"); ("continue", continue)])); ("items", JArr items)].
Definition node_json : json :=
  JObj [("metadata", JObj (strs [("name", "c-karp-w2"); ("uid", "n-2")])); ("spec", JObj (strs [("providerID", "inspace://bkk/" +:+ pool_id)]))].

Definition answers : list (string * json) :=
  [("ownership", ownership_json); ("fence", fence_json); ("worker", worker_json);
   ("first", list_json karpenterNodeClaimAPIVersion karpenterNodeClaimListKind "more" [claim_json "w2" "uid-2" "c-karp-w2" ("inspace://bkk/" +:+ pool_id)]);
   ("second", list_json karpenterNodeClaimAPIVersion karpenterNodeClaimListKind "" [worker_json]);
   ("nodes", list_json "v1" "NodeList" "" [node_json])].
#[local] Instance sample_json : JSONText := ClientTheorems.named_json answers.

Definition sample_request : missingNodeDetachRequest :=
  Build_missingNodeDetachRequest "c-karp-w1" "bkk" vm_id "c-karp-w1" "c-karp-w1" "$ownership" disk_id network_id 7.
Definition sample_resolver : KubernetesNodeResolver :=
  Build_KubernetesNodeResolver (Build_URL "https" "" None "10.0.0.1" "" "" "" "") (15 * second) "/token" "default".
Definition any_ctx : context := Build_context None false.

Definition answer_for (rq : GoHTTP.request) : response :=
  let ok body := ClientTheorems.plain_response 200 body in
  if rq_Path rq == "/api/v1/nodes/c-karp-w1" then ClientTheorems.plain_response 404 ""
  else if rq_Path rq == nodeClaimsPath +:+ "/w1" then ok "$worker"
  else if rq_Path rq == nodesPath then ok "$nodes"
  else if rq_RawQuery rq == "limit=4" then ok "$first"
  else if rq_RawQuery rq == "continue=more&limit=4" then ok "$second"
  else ClientTheorems.plain_response 500 "".
Definition sample_step (x : ract) (u : unit) : rres x * unit :=
  match x as x return rres x * unit with
  | Getenv _ => ("", u)
  | ReadFile _ => (Ok "token", u)
  | Wire (BuildRequest _) => (None, u)
  | Wire (ContextErr _) => (None, u)
  | Wire (RoundTrip rq) => (Ok (answer_for rq), u)
  end.
Definition sample_run := run_hist sample_step (AuthorizeMissingNodeDetach sample_resolver sample_sha any_ctx sample_request) tt [].

Lemma missing_node_authority_witness : sample_run.1.1 = Some None /\ detach_evidence sample_resolver sample_sha any_ctx sample_request sample_run.2.
Proof.
  assert (sample_run.1.1 = Some None) as E by (vm_compute; reflexivity).
  split; [exact E|]. apply missing_node_authority.
  - pose proof (run_hist_exec sample_step (AuthorizeMissingNodeDetach sample_resolver sample_sha any_ctx sample_request) tt []) as He.
    fold sample_run in He. rewrite E in He. exact He.
  - vm_compute. repeat constructor.
Defined.
