(* ===== verification/KubeService.v ===== *)
(** * Services of the node load balancer (modules/cloud-provider/pkg/cloudprovider)

    The part of a Kubernetes Service that the controller reads, the user-facing contract
    ([parseNodeLoadBalancerService] with its port, shape and reservation rules, of
    node_loadbalancer_controller.go). Slices are lists: a nil slice is the empty one, as in every object
    that the API server returns. *)

From S2P Require Import Prelude GoErrors KubernetesFence GoNet ClientResources GoHTTP.


(** ** Objects *)

Record ServicePort := {
  sp_Name : string; sp_Protocol : string; sp_AppProtocol : option string; sp_Port : Z; sp_TargetPort : string + Z; sp_NodePort : Z
}.
#[export] Instance ServicePort_eq_dec : EqDecision ServicePort.
Proof. solve_decision. Defined.

(** [corev1.ServiceSpec]; the session affinity configuration is the client IP timeout. *)
Record ServiceSpec := {
  ss_Ports : list ServicePort; ss_Selector : gmap string string; ss_ClusterIP : string; ss_ClusterIPs : list string; ss_Type : string;
  ss_ExternalIPs : list string; ss_SessionAffinity : string; ss_LoadBalancerIP : string; ss_LoadBalancerSourceRanges : list string;
  ss_ExternalName : string; ss_ExternalTrafficPolicy : string; ss_HealthCheckNodePort : Z; ss_PublishNotReadyAddresses : bool;
  ss_SessionAffinityConfig : option (option (option Z)); ss_IPFamilies : list string; ss_IPFamilyPolicy : option string;
  ss_AllocateLoadBalancerNodePorts : option bool; ss_LoadBalancerClass : option string; ss_InternalTrafficPolicy : option string;
  ss_TrafficDistribution : option string
}.
#[export] Instance ServiceSpec_eq_dec : EqDecision ServiceSpec.
Proof. solve_decision. Defined.

Record OwnerReference := {
  or_APIVersion : string; or_Kind : string; or_Name : string; or_UID : string; or_Controller : option bool; or_BlockOwnerDeletion : option bool
}.
#[export] Instance OwnerReference_eq_dec : EqDecision OwnerReference.
Proof. solve_decision. Defined.

Record Service := {
  sv_Namespace : string; sv_Name : string; sv_UID : string; sv_ResourceVersion : string; sv_DeletionTimestamp : option string;
  sv_Finalizers : list string; sv_Labels : gmap string string; sv_Annotations : gmap string string; sv_OwnerReferences : list OwnerReference;
  sv_Spec : ServiceSpec; sv_Ingress : list string  (* status.loadBalancer.ingress *)
}.
Definition sv_annotation (s : Service) (key : string) : string := annotation (sv_Annotations s) key.

(** ** Numbers and lists *)

Fixpoint digits_value (acc : Z) (s : string) : option Z :=
  match s with
  | EmptyString => Some acc
  | String c r => if is_digit c then digits_value (10 * acc + Z.of_nat (code c - 48)) r else None
  end.
(** [strconv.ParseInt(s, 10, 32)]; [strconv.Atoi] with the bounds of 64 bits. *)
Definition parse_int (lo hi : Z) (s : string) : option Z :=
  let '(sign, digits) := match s with String "-" r => (-1, r) | String "+" r => (1, r) | _ => (1, s) end in
  if digits == "" then None
  else match digits_value 0 digits with
  | Some n => if (lo <=? sign * n) && (sign * n <=? hi) then Some (sign * n) else None
  | None => None
  end.
Definition ParseInt32 (s : string) : option Z := parse_int MinInt32 MaxInt32 s.
Definition Atoi (s : string) : option Z := parse_int MinInt64 MaxInt64 s.

Definition containsString (values : list string) (target : string) : bool := existsb (fun value => value == target) values.

(** [sort.Slice] with a strict order on distinct keys. *)
Fixpoint insert_by {A} (le : A -> A -> bool) (x : A) (l : list A) : list A :=
  match l with [] => [x] | y :: r => if le x y then x :: l else y :: insert_by le x r end.
Definition sort_by {A} (le : A -> A -> bool) (l : list A) : list A := foldr (insert_by le) [] l.

(** ** The contract of a Service *)

Definition nodeLoadBalancerClass : string := "inspace.cloud/node".
Definition annotationNodeLoadBalancerMode : string := "service.inspace.cloud/node-lb-mode".
Definition annotationNodeLoadBalancerPool : string := "service.inspace.cloud/node-lb-pool".
Definition annotationNodeLoadBalancerNodesPerShard : string := "service.inspace.cloud/node-lb-nodes-per-shard".
Definition annotationNodeLoadBalancerCPU : string := "service.inspace.cloud/node-lb-cpu".
Definition annotationNodeLoadBalancerMemory : string := "service.inspace.cloud/node-lb-memory".
Definition annotationNodeLoadBalancerShard : string := "service.inspace.cloud/node-lb-shard".
Definition nodeLoadBalancerModeShared : string := "public-node-shared".
Definition nodeLoadBalancerModeDedicated : string := "public-node-dedicated".
Definition nodeLoadBalancerModeLocal : string := "public-node-local".
Definition nodeLoadBalancerDefaultPool : string := "default".

Record nodeLoadBalancerPortClaim := { pc_IPFamily : string; pc_Protocol : string; pc_Port : Z }.
#[export] Instance portClaim_eq_dec : EqDecision nodeLoadBalancerPortClaim.
Proof. solve_decision. Defined.
#[export] Instance portClaim_countable : Countable nodeLoadBalancerPortClaim.
Proof. refine (inj_countable' (fun c => (pc_IPFamily c, pc_Protocol c, pc_Port c)) (fun '(f, p, n) => Build_nodeLoadBalancerPortClaim f p n) _). by intros []. Defined.

Record nodeLoadBalancerIntent := {
  in_ServiceID : string; in_Namespace : string; in_Name : string; in_Mode : string; in_Pool : string; in_NodesPerShard : Z;
  in_CPU : Z; in_MemoryMiB : Z; in_Ports : list nodeLoadBalancerPortClaim; in_ExistingShard : string
}.

(** [isLowerHex]: a range over a Go string; a byte above 127 starts a rune that is no digit. *)
Definition isLowerHex (value : string) : bool := all_chars is_hex_lower value && (value != "").
Definition isManagedNodeLoadBalancerShardName (name : string) : bool :=
  if HasPrefix name "inlb-" then
    let suffix := TrimPrefix name "inlb-" in Nat.eqb (String.length suffix) 8 && isLowerHex suffix
  else false.

Definition canonicalNodeLoadBalancerMode (value : string) : result string :=
  if (value == "") || (value == "shared") || (value == nodeLoadBalancerModeShared) then Ok nodeLoadBalancerModeShared
  else if (value == "dedicated") || (value == nodeLoadBalancerModeDedicated) then Ok nodeLoadBalancerModeDedicated
  else if value == nodeLoadBalancerModeLocal then Ok nodeLoadBalancerModeLocal
  else Err (Msg "node load balancer: unsupported mode annotation").

Definition validateNodeLoadBalancerShape (cpu memoryMiB : Z) : goerr :=
  if (cpu <? 1) || (memoryMiB <? 2048) then Some (Msg "node load balancer: requires at least 1 CPU and 2048Mi memory")
  else
    let memoryGiB := Z.quot memoryMiB 1024 in
    let isEvenCatalogCPU := (2 <=? cpu) && (cpu <=? 16) && (Z.rem cpu 2 =? 0) in
    let valid := (Z.rem memoryMiB 1024 =? 0) &&
      (isEvenCatalogCPU && (memoryGiB =? cpu)
       || ((cpu =? 1) || isEvenCatalogCPU) && (memoryGiB =? cpu * 2)
       || ((cpu =? 1) || isEvenCatalogCPU) && (memoryGiB =? cpu * 4)
       || ((cpu =? 1) || (cpu =? 2) || (cpu =? 4) || (cpu =? 6) || (cpu =? 8)) && (memoryGiB =? cpu * 8)) in
    if valid then None else Some (Msg "node load balancer: not an InSpace catalog shape").

Definition port_le (a b : nodeLoadBalancerPortClaim) : bool :=
  if pc_IPFamily a != pc_IPFamily b then String.leb (pc_IPFamily a) (pc_IPFamily b)
  else if pc_Protocol a != pc_Protocol b then String.leb (pc_Protocol a) (pc_Protocol b)
  else pc_Port a <=? pc_Port b.
Definition sortNodeLoadBalancerPorts : list nodeLoadBalancerPortClaim -> list nodeLoadBalancerPortClaim := sort_by port_le.

(** The loop over the ports. *)
Fixpoint collectPorts (ports : list ServicePort) (seen : gset nodeLoadBalancerPortClaim) : result (list nodeLoadBalancerPortClaim) :=
  match ports with
  | [] => Ok []
  | p :: rest =>
      if negb (sp_NodePort p =? 0) then Err (Msg "node load balancer: nodePort must be zero when allocateLoadBalancerNodePorts is false")
      else
      let protocol := if sp_Protocol p == "" then "TCP" else sp_Protocol p in
      if (protocol != "TCP") && (protocol != "UDP") then Err (Msg "node load balancer: protocol is unsupported; use TCP or UDP")
      else if (sp_Port p <? 1) || (65535 <? sp_Port p) then Err (Msg "node load balancer: port must be between 1 and 65535")
      else
      let claim := Build_nodeLoadBalancerPortClaim "IPv4" protocol (sp_Port p) in
      if bool_decide (claim ∈ seen) then Err (Msg "node load balancer: duplicate port claim")
      else result_map (cons claim) (collectPorts rest ({[claim]} ∪ seen))
  end.
Definition nodeLoadBalancerPortClaims (service : Service) : result (list nodeLoadBalancerPortClaim) :=
  let spec := sv_Spec service in
  match ss_Ports spec with
  | [] => Err (Msg "node load balancer: Service must expose at least one port")
  | ports =>
      if (match ss_IPFamilies spec with [] => false | [f] => f != "IPv4" | _ => true end)
      then Err (Msg "node load balancer: only single-stack IPv4 Services are supported")
      else if (match ss_IPFamilyPolicy spec with Some p => p != "SingleStack" | None => false end)
      then Err (Msg "node load balancer: ipFamilyPolicy must be SingleStack")
      else result_map sortNodeLoadBalancerPorts (collectPorts ports ∅)
  end.

(** Protocol, first and last port. *)
Definition nodeLoadBalancerReservedPorts : list (string * Z * Z) :=
  [("TCP", 22, 22); ("TCP", 2379, 2381); ("TCP", 4240, 4240); ("TCP", 4244, 4245); ("TCP", 6443, 6444); ("UDP", 8472, 8472); ("TCP", 9345, 9345);
   ("TCP", 9962, 9964); ("TCP", 10010, 10010); ("TCP", 10248, 10259); ("TCP", 30000, 32767); ("UDP", 30000, 32767); ("UDP", 51871, 51871)].
Definition reserved_claim (claim : nodeLoadBalancerPortClaim) : bool :=
  existsb (fun '(protocol, first, last) => (pc_Protocol claim == protocol) && (first <=? pc_Port claim) && (pc_Port claim <=? last)) nodeLoadBalancerReservedPorts.
Definition validateNodeLoadBalancerPortsNotReserved (claims : list nodeLoadBalancerPortClaim) : goerr :=
  if existsb reserved_claim claims then Some (Msg "node load balancer: reserved port") else None.

(** Source ranges, masked, without repetitions and sorted. *)
Fixpoint collectSources (values : list string) (seen : gset string) : result (list string) :=
  match values with
  | [] => Ok []
  | value :: rest =>
      match ParsePrefix (TrimSpace value) with
      | Some (Build_Prefix (Addr4 a) bits) =>
          let canonical := masked_String a bits in
          if bool_decide (canonical ∈ seen) then collectSources rest seen
          else result_map (cons canonical) (collectSources rest ({[canonical]} ∪ seen))
      | _ => Err (Msg "node load balancer: loadBalancerSourceRange must be an IPv4 CIDR")
      end
  end.
Definition canonicalNodeLoadBalancerSourceRanges (values : list string) : result (list string) := result_map sort_strings (collectSources values ∅).

Section Parse.
(** k8s.io/apimachinery: [validation.IsDNS1123Label], and the sign and value of [resource.ParseQuantity]. *)
Context (IsDNS1123Label : string -> bool) (ParseQuantity : string -> option (Z * Z)).

Definition parseNodeLoadBalancerMemory (value : string) : result Z :=
  match ParseQuantity (TrimSpace value) with
  | None => Err (Msg "node load balancer: memory annotation must be a positive Kubernetes memory quantity")
  | Some (sign, bytes) =>
      if sign <=? 0 then Err (Msg "node load balancer: memory annotation must be a positive Kubernetes memory quantity")
      else if negb (Z.rem bytes 1048576 =? 0) then Err (Msg "node load balancer: memory annotation must resolve to a whole number of MiB")
      else Ok (Z.quot bytes 1048576)
  end.

Definition isNodeLoadBalancerService (service : Service) : bool :=
  (ss_Type (sv_Spec service) == "LoadBalancer") && (ss_LoadBalancerClass (sv_Spec service) == Some nodeLoadBalancerClass).

Definition validateNodeLoadBalancerServiceUID (serviceUID : string) : goerr :=
  if (serviceUID == "") || (serviceUID != ToLower serviceUID) || Nat.ltb 36 (String.length serviceUID)
  then Some (Msg "node load balancer: Service UID must be a lowercase DNS label of at most 36 characters")
  else if negb (IsDNS1123Label serviceUID) then Some (Msg "node load balancer: Service UID is unsafe for firewall ownership")
  else None.

(** [externalTrafficPolicy] and [publishNotReadyAddresses] by mode. *)
Definition traffic_error (spec : ServiceSpec) (mode : string) : goerr :=
  if mode == nodeLoadBalancerModeLocal then
    if ss_ExternalTrafficPolicy spec != "Local" then Some (Msg "node load balancer: externalTrafficPolicy must be Local in public-node-local mode")
    else if ss_PublishNotReadyAddresses spec then Some (Msg "node load balancer: publishNotReadyAddresses must be false in public-node-local mode")
    else None
  else if (ss_ExternalTrafficPolicy spec != "") && (ss_ExternalTrafficPolicy spec != "Cluster") then Some (Msg "node load balancer: externalTrafficPolicy must be Cluster")
  else None.
Definition service_pool (annotations : gmap string string) (mode : string) : result string :=
  let pool := TrimSpace (annotation annotations annotationNodeLoadBalancerPool) in
  if (pool == "") && (mode == nodeLoadBalancerModeLocal) then Err (Msg "node load balancer: pool annotation is required in public-node-local mode")
  else
    let pool := if pool == "" then nodeLoadBalancerDefaultPool else pool in
    if negb (IsDNS1123Label pool) then Err (Msg "node load balancer: pool must be a DNS-1123 label") else Ok pool.
Definition service_nodes (annotations : gmap string string) (mode : string) (nodesPerShard : Z) : result Z :=
  if (mode == nodeLoadBalancerModeLocal)
     && existsb (fun key => bool_decide (key ∈ dom annotations)) [annotationNodeLoadBalancerNodesPerShard; annotationNodeLoadBalancerCPU; annotationNodeLoadBalancerMemory]
  then Err (Msg "node load balancer: annotation is unsupported in public-node-local mode")
  else match annotations !! annotationNodeLoadBalancerNodesPerShard with
  | None => Ok nodesPerShard
  | Some value =>
      match ParseInt32 (TrimSpace value) with
      | Some n => if (n <? 1) || (10 <? n) then Err (Msg "node load balancer: nodes per shard must be an integer between 1 and 10") else Ok n
      | None => Err (Msg "node load balancer: nodes per shard must be an integer between 1 and 10")
      end
  end.
(** CPU and memory in MiB. *)
Definition service_shape (annotations : gmap string string) (mode : string) : result (Z * Z) :=
  let cpu := annotations !! annotationNodeLoadBalancerCPU in
  let memory := annotations !! annotationNodeLoadBalancerMemory in
  if (mode == nodeLoadBalancerModeShared) && negb (bool_decide (cpu = None /\ memory = None))
  then Err (Msg "node load balancer: CPU and memory annotations are supported only in dedicated mode")
  else
  try! shape := (if mode == nodeLoadBalancerModeDedicated then
      try! c := match cpu with
                | None => Ok 1
                | Some value => match ParseInt32 (TrimSpace value) with
                                | Some n => if n <? 1 then Err (Msg "node load balancer: CPU annotation must be a positive integer") else Ok n
                                | None => Err (Msg "node load balancer: CPU annotation must be a positive integer")
                                end
                end in
      try! m := match memory with None => Ok 2048 | Some value => parseNodeLoadBalancerMemory value end in
      Ok (c, m)
    else Ok (1, 2048)) in
  if mode == nodeLoadBalancerModeLocal then Ok shape
  else match validateNodeLoadBalancerShape shape.1 shape.2 with Some e => Err e | None => Ok shape end.
Definition service_existing_shard (annotations : gmap string string) (mode : string) : result string :=
  let existing := TrimSpace (annotation annotations annotationNodeLoadBalancerShard) in
  if existing == "" then Ok ""
  else if mode == nodeLoadBalancerModeLocal then Err (Msg "node load balancer: public-node-local mode cannot retain a managed shard assignment")
  else if negb (IsDNS1123Label existing) then Err (Msg "node load balancer: persisted shard is invalid")
  else if negb (isManagedNodeLoadBalancerShardName existing) then Err (Msg "node load balancer: persisted shard is not a CCM-managed shard name")
  else Ok existing.

Definition parseNodeLoadBalancerService (service : Service) (defaultNodesPerShard : Z) : result nodeLoadBalancerIntent :=
  let spec := sv_Spec service in
  let annotations := sv_Annotations service in
  if ss_Type spec != "LoadBalancer" then Err (Msg "node load balancer: Service type must be LoadBalancer")
  else if ss_LoadBalancerClass spec != Some nodeLoadBalancerClass then Err (Msg "node load balancer: loadBalancerClass is not the node class")
  else if ss_AllocateLoadBalancerNodePorts spec != Some false then Err (Msg "node load balancer: allocateLoadBalancerNodePorts must be explicitly false")
  else if bool_decide (ss_Selector spec = ∅) then Err (Msg "node load balancer: Service selector is required")
  else if negb (bool_decide (ss_ExternalIPs spec = [])) || (ss_LoadBalancerIP spec != "") then Err (Msg "node load balancer: externalIPs and loadBalancerIP are unsupported")
  else
  try! sources := canonicalNodeLoadBalancerSourceRanges (ss_LoadBalancerSourceRanges spec) in
  let nodesPerShard := if defaultNodesPerShard =? 0 then 1 else defaultNodesPerShard in
  if nodesPerShard <? 1 then Err (Msg "node load balancer: default nodes per shard must be positive")
  else
  try! mode := canonicalNodeLoadBalancerMode (TrimSpace (annotation annotations annotationNodeLoadBalancerMode)) in
  check! traffic_error spec mode in
  try! pool := service_pool annotations mode in
  try! nodesPerShard := service_nodes annotations mode nodesPerShard in
  try! shape := service_shape annotations mode in
  try! ports := nodeLoadBalancerPortClaims service in
  check! validateNodeLoadBalancerPortsNotReserved ports in
  try! existing := service_existing_shard annotations mode in
  let serviceID := if sv_UID service == "" then sv_Namespace service +:+ "/" +:+ sv_Name service else sv_UID service in
  Ok (Build_nodeLoadBalancerIntent serviceID (sv_Namespace service) (sv_Name service) mode pool nodesPerShard shape.1 shape.2 ports existing).
End Parse.

(** ** The generated datapath Service (node_loadbalancer_reconciler.go of modules/cloud-provider)

    The private child Service that carries the traffic of a public Service on its shard: its name and owner,
    the desired object, and when a live object is the desired one. *)

Definition nodeLoadBalancerFinalizer : string := "service.inspace.cloud/node-lb".
Definition nodeLoadBalancerDatapathLabel : string := "inspace.cloud/node-lb-datapath".
Definition nodeLoadBalancerServiceIdentityLabel : string := "inspace.cloud/node-lb-service-id".
Definition nodeLoadBalancerDatapathClass : string := "inspace.cloud/node-datapath".
Definition annotationNodeLoadBalancerDatapathShard : string := "service.inspace.cloud/node-lb-datapath-shard".
Definition annotationNodeLoadBalancerDatapathActive : string := "service.inspace.cloud/node-lb-datapath-active-shard".

#[export] Instance Service_eq_dec : EqDecision Service.
Proof. solve_decision. Defined.

Definition nodeLoadBalancerDatapathTrafficDistribution (service : Service) : option string :=
  match ss_TrafficDistribution (sv_Spec service) with
  | Some value => if value != "" then Some value else Some "PreferSameNode"
  | None => Some "PreferSameNode"
  end.

Section Datapath.
Context (sha256_hex : string -> string).

Definition nodeLoadBalancerServiceIdentity (service : Service) : string :=
  let zero := String "000"%char "" in
  take_string 52 (sha256_hex (sv_Namespace service +:+ zero +:+ sv_Name service +:+ zero +:+ sv_UID service)).
Definition nodeLoadBalancerDatapathName (service : Service) : string := "inlb-dp-" +:+ nodeLoadBalancerServiceIdentity service.

Definition nodeLoadBalancerGeneratedServiceOwnedByService (generated service : Service) (ownershipLabel : string) : bool :=
  if (sv_UID service == "") || (sv_Namespace generated != sv_Namespace service) || (annotation (sv_Labels generated) ownershipLabel != "true") then false
  else match sv_OwnerReferences generated with
  | [reference] =>
      (or_APIVersion reference == "v1") && (or_Kind reference == "Service") && (or_UID reference == sv_UID service) && (or_Name reference == sv_Name service)
      && (or_Controller reference == Some true) && (or_BlockOwnerDeletion reference == Some true)
  | _ => false
  end.
Definition nodeLoadBalancerDatapathOwnedByService (datapath service : Service) : bool :=
  nodeLoadBalancerGeneratedServiceOwnedByService datapath service nodeLoadBalancerDatapathLabel
  && (annotation (sv_Labels datapath) nodeLoadBalancerServiceIdentityLabel == nodeLoadBalancerServiceIdentity service).

Definition without_node_port (p : ServicePort) : ServicePort := Build_ServicePort (sp_Name p) (sp_Protocol p) (sp_AppProtocol p) (sp_Port p) (sp_TargetPort p) 0.
Definition desiredNodeLoadBalancerDatapath (service : Service) (name shard : string) : Service :=
  let spec := sv_Spec service in
  Build_Service (sv_Namespace service) name "" "" None []
    {[nodeLoadBalancerDatapathLabel := "true"; nodeLoadBalancerServiceIdentityLabel := nodeLoadBalancerServiceIdentity service]}
    {[annotationNodeLoadBalancerDatapathShard := shard]}
    [Build_OwnerReference "v1" "Service" (sv_Name service) (sv_UID service) (Some true) (Some true)]
    (Build_ServiceSpec (map without_node_port (ss_Ports spec)) (ss_Selector spec) "" [] "LoadBalancer" [] (ss_SessionAffinity spec) ""
       (ss_LoadBalancerSourceRanges spec) "" "Cluster" 0 (ss_PublishNotReadyAddresses spec) (ss_SessionAffinityConfig spec) (ss_IPFamilies spec)
       (ss_IPFamilyPolicy spec) (Some false) (Some nodeLoadBalancerDatapathClass) (ss_InternalTrafficPolicy spec) (nodeLoadBalancerDatapathTrafficDistribution service))
    [].
(** The fields that the API server allocates are taken from the live object. *)
Definition normalizedDesiredNodeLoadBalancerDatapath (desired existing : Service) : Service :=
  let d := sv_Spec desired in
  let e := sv_Spec existing in
  Build_Service (sv_Namespace desired) (sv_Name desired) (sv_UID desired) (sv_ResourceVersion existing) (sv_DeletionTimestamp desired) (sv_Finalizers desired)
    (sv_Labels desired) (sv_Annotations desired) (sv_OwnerReferences desired)
    (Build_ServiceSpec (ss_Ports d) (ss_Selector d) (ss_ClusterIP e) (ss_ClusterIPs e) (ss_Type d) (ss_ExternalIPs d) (ss_SessionAffinity d) (ss_LoadBalancerIP d)
       (ss_LoadBalancerSourceRanges d) (ss_ExternalName d) (ss_ExternalTrafficPolicy d) (ss_HealthCheckNodePort d) (ss_PublishNotReadyAddresses d)
       (ss_SessionAffinityConfig d) (ss_IPFamilies e) (ss_IPFamilyPolicy e) (ss_AllocateLoadBalancerNodePorts d) (ss_LoadBalancerClass d)
       (ss_InternalTrafficPolicy d) (ss_TrafficDistribution d))
    (sv_Ingress desired).
Definition same_datapath (existing desired : Service) : bool :=
  bool_decide (sv_Labels existing = sv_Labels desired) && bool_decide (sv_Annotations existing = sv_Annotations desired)
  && bool_decide (sv_OwnerReferences existing = sv_OwnerReferences desired) && bool_decide (sv_Spec existing = sv_Spec desired).
Definition nodeLoadBalancerDatapathMatchesDesired (datapath service : Service) (shard : string) : bool :=
  bool_decide (sv_DeletionTimestamp datapath = None) && (sv_Namespace datapath == sv_Namespace service) && (sv_Name datapath == nodeLoadBalancerDatapathName service)
  && nodeLoadBalancerDatapathOwnedByService datapath service
  && same_datapath datapath (normalizedDesiredNodeLoadBalancerDatapath (desiredNodeLoadBalancerDatapath service (sv_Name datapath) shard) datapath).
End Datapath.
