(* ===== verification/ShardPlanner.v ===== *)
(** * The shard planner (node_loadbalancer_controller.go of modules/cloud-provider)

    [planNodeLoadBalancerShardsWithReservations] places every Service on a load balancer shard: persisted
    assignments first, then the fullest compatible shared shard, then a fresh name. The planner's maps are
    [gmap]s, and the pointers of its shard map are entries of that map, since every write goes through a
    pointer that the map holds. The search for a free name has no bound in the source; here it makes at
    most [attempts] tries, and [None] is a search that is still running. *)

From S2P Require Import Prelude GoErrors GoNet GoHTTP ClientResources KubernetesFence KubeService.

(** ** Plans *)

Record nodeLoadBalancerShardPlan := {
  sh_Name : string; sh_Mode : string; sh_Pool : string; sh_NodesPerShard : Z; sh_CPU : Z; sh_MemoryMiB : Z;
  sh_Claims : list string; sh_Ports : list nodeLoadBalancerPortClaim
}.
#[export] Instance shardPlan_eq_dec : EqDecision nodeLoadBalancerShardPlan.
Proof. solve_decision. Defined.
Record nodeLoadBalancerPlan := { np_Assignments : gmap string string; np_Shards : list nodeLoadBalancerShardPlan }.
Notation nodeLoadBalancerPortReservations := (gmap string (gmap nodeLoadBalancerPortClaim string)).

Record mutableNodeLoadBalancerShard := { ms_plan : nodeLoadBalancerShardPlan; ms_ports : gmap nodeLoadBalancerPortClaim string }.
Notation shard_map := (gmap string mutableNodeLoadBalancerShard).

Definition nodeLoadBalancerShardProfileMatches (shard : nodeLoadBalancerShardPlan) (intent : nodeLoadBalancerIntent) : bool :=
  (sh_Mode shard == in_Mode intent) && (sh_Pool shard == in_Pool intent) && (sh_NodesPerShard shard =? in_NodesPerShard intent)
  && (sh_CPU shard =? in_CPU intent) && (sh_MemoryMiB shard =? in_MemoryMiB intent).

(** ** Assigning one Service *)

Definition empty_shard (name : string) (intent : nodeLoadBalancerIntent) : mutableNodeLoadBalancerShard :=
  Build_mutableNodeLoadBalancerShard
    (Build_nodeLoadBalancerShardPlan name (in_Mode intent) (in_Pool intent) (in_NodesPerShard intent) (in_CPU intent) (in_MemoryMiB intent) [] []) ∅.

Definition reserved_elsewhere (reservations : nodeLoadBalancerPortReservations) (name id : string) (port : nodeLoadBalancerPortClaim) : bool :=
  match reservations !! name ≫= lookup port with Some owner => owner != id | None => false end.
Definition owned_elsewhere (ports : gmap nodeLoadBalancerPortClaim string) (id : string) (port : nodeLoadBalancerPortClaim) : bool :=
  match ports !! port with Some owner => owner != id | None => false end.

Definition claim_ports (ports : gmap nodeLoadBalancerPortClaim string) (intent : nodeLoadBalancerIntent) : gmap nodeLoadBalancerPortClaim string :=
  foldl (fun held port => <[port := in_ServiceID intent]> held) ports (in_Ports intent).
Definition join_shard (shard : mutableNodeLoadBalancerShard) (intent : nodeLoadBalancerIntent) : mutableNodeLoadBalancerShard :=
  let plan := ms_plan shard in
  Build_mutableNodeLoadBalancerShard
    (Build_nodeLoadBalancerShardPlan (sh_Name plan) (sh_Mode plan) (sh_Pool plan) (sh_NodesPerShard plan) (sh_CPU plan) (sh_MemoryMiB plan)
       (sh_Claims plan ++ [in_ServiceID intent]) (sh_Ports plan))
    (claim_ports (ms_ports shard) intent).

Definition tryAssignNodeLoadBalancerShard (shards : shard_map) (reservations : nodeLoadBalancerPortReservations) (name : string)
    (intent : nodeLoadBalancerIntent) : shard_map * bool :=
  let found := shards !! name in
  let shard := default (empty_shard name intent) found in
  let shards := match found with Some _ => shards | None => <[name := shard]> shards end in
  if negb (nodeLoadBalancerShardProfileMatches (ms_plan shard) intent)
  then (match found with Some _ => shards | None => delete name shards end, false)
  else if (in_Mode intent == nodeLoadBalancerModeDedicated) && (sh_Claims (ms_plan shard) != []) then (shards, false)
  else if existsb (fun port => reserved_elsewhere reservations name (in_ServiceID intent) port || owned_elsewhere (ms_ports shard) (in_ServiceID intent) port)
                  (in_Ports intent)
  then (shards, false)
  else (<[name := join_shard shard intent]> shards, true).

(** ** Candidates and names *)

(** The order of the candidates: more ports first, then the name. *)
Definition fuller (a b : mutableNodeLoadBalancerShard) : bool :=
  if negb (Nat.eqb (size (ms_ports a)) (size (ms_ports b))) then Nat.ltb (size (ms_ports b)) (size (ms_ports a))
  else String.leb (sh_Name (ms_plan a)) (sh_Name (ms_plan b)).
Definition compatible (reservations : nodeLoadBalancerPortReservations) (intent : nodeLoadBalancerIntent) (shard : mutableNodeLoadBalancerShard) : bool :=
  (sh_Mode (ms_plan shard) == nodeLoadBalancerModeShared) && nodeLoadBalancerShardProfileMatches (ms_plan shard) intent
  && forallb (fun port => negb (reserved_elsewhere reservations (sh_Name (ms_plan shard)) (in_ServiceID intent) port)
                          && bool_decide (ms_ports shard !! port = None)) (in_Ports intent).
Definition compatibleNodeLoadBalancerShards (shards : shard_map) (reservations : nodeLoadBalancerPortReservations)
    (intent : nodeLoadBalancerIntent) : list mutableNodeLoadBalancerShard :=
  sort_by fuller (filter (fun shard => compatible reservations intent shard = true) (map snd (map_to_list shards))).

Section Planner.
(** [nodeLoadBalancerHash]: the lower-case hexadecimal SHA-256 of a string. *)
Context (nodeLoadBalancerHash : string -> string).

Definition nodeLoadBalancerProfileHash (mode pool : string) (nodesPerShard cpu memoryMiB : Z) : string :=
  let zero := String "000"%char "" in
  take_string 8 (nodeLoadBalancerHash (mode +:+ zero +:+ pool +:+ zero +:+ FormatInt nodesPerShard +:+ zero +:+ FormatInt cpu +:+ zero +:+ FormatInt memoryMiB)).
Definition nodeLoadBalancerIntentProfileHash (intent : nodeLoadBalancerIntent) : string :=
  nodeLoadBalancerProfileHash (in_Mode intent) (in_Pool intent) (in_NodesPerShard intent) (in_CPU intent) (in_MemoryMiB intent).
Definition nodeLoadBalancerShardProfileHash (shard : nodeLoadBalancerShardPlan) : string :=
  nodeLoadBalancerProfileHash (sh_Mode shard) (sh_Pool shard) (sh_NodesPerShard shard) (sh_CPU shard) (sh_MemoryMiB shard).

Definition candidate_name (prefix seed : string) (attempt : nat) : string :=
  prefix +:+ take_string 8 (nodeLoadBalancerHash (match attempt with O => seed | _ => seed +:+ "#" +:+ FormatInt (Z.of_nat attempt) end)).
Fixpoint searchShardName (shards : shard_map) (reservations : nodeLoadBalancerPortReservations) (prefix seed : string) (attempts attempt : nat) : option string :=
  match attempts with
  | O => None
  | S rest =>
      let name := candidate_name prefix seed attempt in
      if bool_decide (shards !! name = None) && bool_decide (reservations !! name = None) then Some name
      else searchShardName shards reservations prefix seed rest (S attempt)
  end.
Definition uniqueNodeLoadBalancerShardName (attempts : nat) (shards : shard_map) (reservations : nodeLoadBalancerPortReservations) (prefix seed : string) : option string :=
  searchShardName shards reservations prefix seed attempts 0.

(** ** The planner *)

Fixpoint validateIntents (intents : list nodeLoadBalancerIntent) (seen : gset string) : goerr :=
  match intents with
  | [] => None
  | intent :: rest =>
      if in_ServiceID intent == "" then Some (Msg "node load balancer: Service identity is required")
      else if bool_decide (in_ServiceID intent ∈ seen) then Some (Msg "node load balancer: duplicate Service identity")
      else if in_NodesPerShard intent <? 1 then Some (Msg "node load balancer: non-positive nodes per shard")
      else match validateNodeLoadBalancerShape (in_CPU intent) (in_MemoryMiB intent) with
      | Some e => Some (Wrap "Service" [e])
      | None =>
          if (in_Mode intent != nodeLoadBalancerModeShared) && (in_Mode intent != nodeLoadBalancerModeDedicated)
          then Some (Msg "node load balancer: invalid mode")
          else validateIntents rest ({[in_ServiceID intent]} ∪ seen)
      end
  end.

(** The first loop: assignments, shards and the Services left for the second one. *)
Fixpoint keepPersisted (intents : list nodeLoadBalancerIntent) (reservations : nodeLoadBalancerPortReservations) (assignments : gmap string string) (shards : shard_map)
    : gmap string string * shard_map * list nodeLoadBalancerIntent :=
  match intents with
  | [] => (assignments, shards, [])
  | intent :: rest =>
      let '(shards, kept) := if in_ExistingShard intent == "" then (shards, false)
                             else tryAssignNodeLoadBalancerShard shards reservations (in_ExistingShard intent) intent in
      if kept then keepPersisted rest reservations (<[in_ServiceID intent := in_ExistingShard intent]> assignments) shards
      else let '(a, s, pending) := keepPersisted rest reservations assignments shards in (a, s, intent :: pending)
  end.

(** The shard chosen for a Service that has none. *)
Definition chooseShard (attempts : nat) (shards : shard_map) (reservations : nodeLoadBalancerPortReservations) (intent : nodeLoadBalancerIntent) : option string :=
  if in_Mode intent == nodeLoadBalancerModeDedicated
  then uniqueNodeLoadBalancerShardName attempts shards reservations "inlb-" ("dedicated/" +:+ in_ServiceID intent)
  else match compatibleNodeLoadBalancerShards shards reservations intent with
  | candidate :: _ => Some (sh_Name (ms_plan candidate))
  | [] => uniqueNodeLoadBalancerShardName attempts shards reservations "inlb-" ("shared/" +:+ in_Pool intent +:+ "/" +:+ in_ServiceID intent)
  end.
Fixpoint placePending (attempts : nat) (pending : list nodeLoadBalancerIntent) (reservations : nodeLoadBalancerPortReservations) (assignments : gmap string string)
    (shards : shard_map) : option (result (gmap string string * shard_map)) :=
  match pending with
  | [] => Some (Ok (assignments, shards))
  | intent :: rest =>
      name ← chooseShard attempts shards reservations intent;
      match tryAssignNodeLoadBalancerShard shards reservations name intent with
      | (shards, true) => placePending attempts rest reservations (<[in_ServiceID intent := name]> assignments) shards
      | (_, false) => Some (Err (Msg "node load balancer: failed to allocate a shard"))
      end
  end.

Definition finish_shard (shard : mutableNodeLoadBalancerShard) : nodeLoadBalancerShardPlan :=
  let plan := ms_plan shard in
  Build_nodeLoadBalancerShardPlan (sh_Name plan) (sh_Mode plan) (sh_Pool plan) (sh_NodesPerShard plan) (sh_CPU plan) (sh_MemoryMiB plan)
    (sort_strings (sh_Claims plan)) (sortNodeLoadBalancerPorts (map fst (map_to_list (ms_ports shard)))).

Definition planNodeLoadBalancerShardsWithReservations (attempts : nat) (intents : list nodeLoadBalancerIntent) (reservations : nodeLoadBalancerPortReservations)
    : option (result nodeLoadBalancerPlan) :=
  let ordered := sort_by (fun a b => String.leb (in_ServiceID a) (in_ServiceID b)) intents in
  match validateIntents ordered ∅ with
  | Some e => Some (Err e)
  | None =>
      let '(assignments, shards, pending) := keepPersisted ordered reservations ∅ ∅ in
      placed ← placePending attempts pending reservations assignments shards;
      Some (match placed with
      | Err e => Err e
      | Ok (assignments, shards) =>
          Ok (Build_nodeLoadBalancerPlan assignments
                (sort_by (fun a b => String.leb (sh_Name a) (sh_Name b)) (map finish_shard (map snd (map_to_list shards)))))
      end)
  end.
Definition planNodeLoadBalancerShards (attempts : nat) (intents : list nodeLoadBalancerIntent) : option (result nodeLoadBalancerPlan) :=
  planNodeLoadBalancerShardsWithReservations attempts intents ∅.
End Planner.
