(* ===== verification/ShardPlannerSpec.v ===== *)
(** * What a shard plan promises

    The abstract contract of the planner is a log of placements: [fits] says that a Service may join a shard
    beside the Services already placed there. Every state of the planner's loops is described by a
    conflict-free log, and the finished plan is read off it. *)

From S2P Require Import Prelude GoErrors GoNet GoHTTP ClientResources KubernetesFence NodeFirewall NodeFirewallSpec KubeService ShardPlanner.

(** ** The contract *)

Definition dedicated (i : nodeLoadBalancerIntent) : Prop := in_Mode i = nodeLoadBalancerModeDedicated.
Definition same_profile (i j : nodeLoadBalancerIntent) : Prop :=
  in_Mode i = in_Mode j /\ in_Pool i = in_Pool j /\ in_NodesPerShard i = in_NodesPerShard j /\ in_CPU i = in_CPU j /\ in_MemoryMiB i = in_MemoryMiB j.
Definition share_shard (i j : nodeLoadBalancerIntent) : Prop :=
  same_profile i j /\ ~ dedicated i /\ forall p, p ∈ in_Ports i -> p ∉ in_Ports j.
Definition unreserved (reservations : nodeLoadBalancerPortReservations) (name : string) (i : nodeLoadBalancerIntent) : Prop :=
  forall p owner, p ∈ in_Ports i -> reservations !! name ≫= lookup p = Some owner -> owner = in_ServiceID i.

(** A partial assignment of Services to shards without a conflict. *)
Definition conflict_free (reservations : nodeLoadBalancerPortReservations) (intents : list nodeLoadBalancerIntent) (f : gmap string string) : Prop :=
  (forall i name, i ∈ intents -> f !! in_ServiceID i = Some name -> unreserved reservations name i)
  /\ (forall i j name, i ∈ intents -> j ∈ intents -> in_ServiceID i <> in_ServiceID j ->
        f !! in_ServiceID i = Some name -> f !! in_ServiceID j = Some name -> share_shard i j).

(** ** Logs of placements *)

Definition placement : Type := nodeLoadBalancerIntent * string.
Definition members (name : string) (log : list placement) : list nodeLoadBalancerIntent :=
  map fst (filter (fun e => e.2 = name) log).
Definition fits (reservations : nodeLoadBalancerPortReservations) (log : list placement) (name : string) (i : nodeLoadBalancerIntent) : Prop :=
  unreserved reservations name i /\ forall j, j ∈ members name log -> share_shard j i.
Definition assigned (log : list placement) : gmap string string := list_to_map (map (fun e => (in_ServiceID e.1, e.2)) log).
Definition ids (log : list placement) : list string := map (fun e => in_ServiceID e.1) log.

(** A shard of the planner's map, described by its members. *)
Definition describes (name : string) (s : mutableNodeLoadBalancerShard) (l : list nodeLoadBalancerIntent) : Prop :=
  sh_Name (ms_plan s) = name /\ sh_Claims (ms_plan s) = map in_ServiceID l
  /\ (forall p o, ms_ports s !! p = Some o <-> exists i, i ∈ l /\ in_ServiceID i = o /\ p ∈ in_Ports i)
  /\ (forall i, i ∈ l -> nodeLoadBalancerShardProfileMatches (ms_plan s) i = true).
Definition tracks (log : list placement) (shards : shard_map) : Prop :=
  forall name, match shards !! name with Some s => describes name s (members name log) | None => members name log = [] end.

Inductive legal (reservations : nodeLoadBalancerPortReservations) : list placement -> Prop :=
| legal_nil : legal reservations []
| legal_snoc log name i : legal reservations log -> in_ServiceID i ∉ ids log -> fits reservations log name i -> legal reservations (log ++ [(i, name)]).

Lemma profile_same s i : nodeLoadBalancerShardProfileMatches s i = true <->
  sh_Mode s = in_Mode i /\ sh_Pool s = in_Pool i /\ sh_NodesPerShard s = in_NodesPerShard i /\ sh_CPU s = in_CPU i /\ sh_MemoryMiB s = in_MemoryMiB i.
Proof. unfold nodeLoadBalancerShardProfileMatches. rewrite !andb_true_iff, !bool_decide_eq_true, !Z.eqb_eq. tauto. Qed.

Lemma profile_shared s i j : nodeLoadBalancerShardProfileMatches s i = true -> nodeLoadBalancerShardProfileMatches s j = true -> same_profile i j.
Proof. rewrite !profile_same. intros (? & ? & ? & ? & ?) (? & ? & ? & ? & ?). split_and!; congruence. Qed.
Lemma profile_carries s i j : same_profile i j -> nodeLoadBalancerShardProfileMatches s i = true -> nodeLoadBalancerShardProfileMatches s j = true.
Proof. rewrite !profile_same. intros (? & ? & ? & ? & ?) (? & ? & ? & ? & ?). split_and!; congruence. Qed.

Lemma members_snoc name log i n : members name (log ++ [(i, n)]) = members name log ++ (if decide (n = name) then [i] else []).
Proof. unfold members. rewrite filter_app, map_app. f_equal. rewrite filter_cons, filter_nil. cbn [snd]. repeat case_decide; done. Qed.
Lemma members_in name log i : i ∈ members name log <-> (i, name) ∈ log.
Proof.
  unfold members. rewrite list_elem_of_fmap. split.
  - intros ([j n] & -> & H). by apply list_elem_of_filter in H as [<- H].
  - intros H. exists (i, name). by rewrite list_elem_of_filter.
Qed.
Lemma members_ids name log : NoDup (ids log) -> NoDup (map in_ServiceID (members name log)).
Proof.
  induction log as [|[i n] log IH]; [done|]. cbn [ids map fst]. intros [Hi Hd]%NoDup_cons. unfold members. rewrite filter_cons. cbn [snd].
  case_decide; [|by apply IH]. apply NoDup_cons. split; [|by apply IH]. fold (members name log). intros (j & E & Hj%members_in)%list_elem_of_fmap.
  apply Hi. cbn [fst] in E. rewrite E. apply (list_elem_of_fmap_2 (fun e : placement => in_ServiceID e.1) log (j, name) Hj).
Qed.
Lemma ids_in log i n : (i, n) ∈ log -> in_ServiceID i ∈ ids log.
Proof. intros H. apply list_elem_of_fmap. by exists (i, n). Qed.

(** ** Assigning one Service *)

Lemma claim_ports_lookup m i p o : claim_ports m i !! p = Some o <-> (p ∈ in_Ports i /\ o = in_ServiceID i) \/ (p ∉ in_Ports i /\ m !! p = Some o).
Proof.
  unfold claim_ports. revert m. induction (in_Ports i) as [|q l IH]; intros m; cbn [foldl].
  - rewrite elem_of_nil. tauto.
  - rewrite IH, lookup_insert_Some, elem_of_cons. destruct (decide (q = p)) as [->|]; [destruct (decide (p ∈ l))|]; naive_solver.
Qed.

Lemma describes_join name s l i : describes name s l -> nodeLoadBalancerShardProfileMatches (ms_plan s) i = true ->
  (forall p o, p ∈ in_Ports i -> ms_ports s !! p = Some o -> o = in_ServiceID i) ->
  describes name (join_shard s i) (l ++ [i]).
Proof.
  intros (Hn & Hc & Hp & Hm) Hi Hfree. unfold describes, join_shard; cbn. split_and!; [done|by rewrite map_app, Hc| |].
  - intros p o. rewrite claim_ports_lookup, Hp. split.
    + intros [[? ->]|[_ (j & ? & ? & ?)]]; [exists i|exists j]; set_solver.
    + intros (j & [Hj| ->%list_elem_of_singleton]%elem_of_app & <- & Hpj); [|by left].
      destruct (decide (p ∈ in_Ports i)) as [Hpi|]; [|eauto 8].
      left. split; [done|]. apply (Hfree p); [done|]. rewrite Hp. eauto.
  - intros j [Hj| ->%list_elem_of_singleton]%elem_of_app; [by apply Hm|done].
Qed.

Lemma describes_empty name i : describes name (empty_shard name i) [].
Proof. split_and!; [done|done| |by intros ? ?%elem_of_nil]. intros p o. cbn. rewrite lookup_empty. split; [done|]. by intros (? & ?%elem_of_nil & _). Qed.

Lemma reserved_elsewhere_false R name i p : reserved_elsewhere R name (in_ServiceID i) p = false <->
  forall owner, R !! name ≫= lookup p = Some owner -> owner = in_ServiceID i.
Proof. unfold reserved_elsewhere. destruct (R !! name ≫= lookup p) as [o|]; [|naive_solver]. rewrite negb_false_iff, bool_decide_eq_true. naive_solver. Qed.
Lemma owned_elsewhere_false m i p : owned_elsewhere m (in_ServiceID i) p = false <-> forall owner, m !! p = Some owner -> owner = in_ServiceID i.
Proof. unfold owned_elsewhere. destruct (m !! p) as [o|]; [|naive_solver]. rewrite negb_false_iff, bool_decide_eq_true. naive_solver. Qed.
Lemma blocked_false R name s i :
  existsb (fun port => reserved_elsewhere R name (in_ServiceID i) port || owned_elsewhere (ms_ports s) (in_ServiceID i) port) (in_Ports i) = false
  <-> unreserved R name i /\ (forall p o, p ∈ in_Ports i -> ms_ports s !! p = Some o -> o = in_ServiceID i).
Proof.
  rewrite <-not_true_iff_false, existsb_exists. unfold unreserved. split.
  - intros H. assert (Hp : forall p, p ∈ in_Ports i -> reserved_elsewhere R name (in_ServiceID i) p = false /\ owned_elsewhere (ms_ports s) (in_ServiceID i) p = false).
    { intros p Hp%list_elem_of_In. rewrite <-orb_false_iff. apply not_true_iff_false. intros ?. apply H. eauto. }
    split; intros p o Hin; [apply reserved_elsewhere_false|apply owned_elsewhere_false]; by apply Hp.
  - intros [Hr Ho] (p & Hp%list_elem_of_In & [H|H]%orb_true_iff); apply not_false_iff_true in H; apply H;
      [apply reserved_elsewhere_false|apply owned_elsewhere_false]; eauto.
Qed.

(** The shard that [tryAssign] looks at. *)
Definition looked_at (shards : shard_map) (name : string) (i : nodeLoadBalancerIntent) : mutableNodeLoadBalancerShard := default (empty_shard name i) (shards !! name).

Lemma looked_at_describes log shards name i : tracks log shards -> describes name (looked_at shards name i) (members name log).
Proof. intros H. specialize (H name). unfold looked_at. destruct (shards !! name) as [s|]; [done|]. rewrite H. apply describes_empty. Qed.

Lemma tracks_visit log shards name i : tracks log shards -> tracks log (<[name := looked_at shards name i]> shards).
Proof.
  intros H n. destruct (decide (n = name)) as [->|].
  - rewrite lookup_insert_eq. by apply looked_at_describes.
  - rewrite lookup_insert_ne by done. apply H.
Qed.

(** [tryAssign] either joins the Service to the shard, which it fits, or changes nothing that a log sees. *)
Lemma tryAssign_spec R log shards name i shards' ok : tracks log shards -> in_ServiceID i ∉ ids log ->
  tryAssignNodeLoadBalancerShard shards R name i = (shards', ok) ->
  if ok then fits R log name i /\ tracks (log ++ [(i, name)]) shards' else tracks log shards'.
Proof.
  intros Ht Hid. pose proof (looked_at_describes log shards name i Ht) as Hd. pose proof (tracks_visit log shards name i Ht) as Hv.
  assert (Hs : tracks log (match shards !! name with Some _ => shards | None => <[name:=looked_at shards name i]> shards end)) by (destruct (shards !! name); done).
  unfold tryAssignNodeLoadBalancerShard. fold (looked_at shards name i). destruct (nodeLoadBalancerShardProfileMatches (ms_plan (looked_at shards name i)) i) eqn:Hpr; cbn [negb].
  2: { intros [= <- <-]. destruct (shards !! name) eqn:Hn; [done|]. by rewrite delete_insert_id. }
  destruct (_ && _) eqn:Hded; [by intros [= <- <-]|]. destruct (existsb _ _) eqn:Hb; [by intros [= <- <-]|]. intros [= <- <-].
  apply blocked_false in Hb as [Hr Ho]. pose proof Hd as (_ & Hc & Hp & Hm). split.
  - split; [done|]. intros j Hj. assert (Hji : in_ServiceID j <> in_ServiceID i) by (intros E; apply Hid; rewrite <-E; by apply (ids_in _ _ name), members_in).
    specialize (Hm j Hj). pose proof (profile_shared _ _ _ Hm Hpr) as Hsame. split_and!; [done| |].
    + intros Hdj. apply andb_false_iff in Hded. rewrite bool_decide_eq_false, negb_false_iff, bool_decide_eq_true, Hc in Hded.
      destruct Hded as [Hne|Hnil]; [apply Hne; destruct Hsame as [<- _]; apply Hdj|]. apply map_eq_nil in Hnil. rewrite Hnil in Hj. set_solver.
    + intros p Hpj Hpi. apply Hji, (Ho p); [done|]. apply Hp. eauto.
  - intros n. rewrite members_snoc. destruct (decide (name = n)) as [<-|Hne].
    + rewrite lookup_insert_eq. by apply describes_join.
    + rewrite lookup_insert_ne, app_nil_r by done. apply Hs.
Qed.

Lemma dedicated_members R log name i : legal R log -> (i, name) ∈ log -> dedicated i -> members name log = [i].
Proof.
  induction 1 as [|log n j Hl IH Hid [_ Hf]]; [by intros ?%elem_of_nil|]. rewrite members_snoc.
  intros [Hi|[= <- <-]%list_elem_of_singleton]%elem_of_app Hd.
  - rewrite IH by done. case_decide as E; [|by rewrite app_nil_r]. subst n. destruct (Hf i) as (_ & Hnd & _); [by apply members_in|by destruct Hnd].
  - rewrite decide_True by done. destruct (members name log) as [|k l] eqn:E; [done|]. destruct (Hf k) as ((Hm & _) & Hnd & _); [apply elem_of_cons; by left|].
    exfalso. apply Hnd. unfold dedicated in *. congruence.
Qed.

(** ** When a Service is placed *)

Lemma tryAssign_size R shards name i : (size (tryAssignNodeLoadBalancerShard shards R name i).1 <= S (size shards))%nat.
Proof.
  assert (Hi : forall (m : shard_map) s, (size (<[name := s]> m) <= S (size m))%nat) by (intros m s; rewrite map_size_insert; destruct (m !! name); cbn; lia).
  assert (Hd : forall (m : shard_map), (size (delete name m) <= size m)%nat) by (intros m; rewrite map_size_delete; destruct (m !! name); cbn; lia).
  assert (Hj : forall s s', (size (<[name := s']> (<[name := s]> shards)) <= S (size shards))%nat) by (intros s s'; rewrite insert_insert_eq; apply Hi).
  unfold tryAssignNodeLoadBalancerShard. destruct (shards !! name) eqn:E; repeat case_match; cbn [fst]; auto; etrans; [apply Hd|apply Hi].
Qed.
Lemma tryAssign_other R shards name i n : n <> name -> (tryAssignNodeLoadBalancerShard shards R name i).1 !! n = shards !! n.
Proof.
  intros Hne. unfold tryAssignNodeLoadBalancerShard. destruct (shards !! name) eqn:E; repeat case_match; cbn [fst];
    rewrite ?lookup_delete_ne, ?lookup_insert_ne by done; done.
Qed.

Lemma tryAssign_succeeds R shards name i :
  nodeLoadBalancerShardProfileMatches (ms_plan (looked_at shards name i)) i = true ->
  (dedicated i -> sh_Claims (ms_plan (looked_at shards name i)) = []) -> unreserved R name i ->
  (forall p o, p ∈ in_Ports i -> ms_ports (looked_at shards name i) !! p = Some o -> o = in_ServiceID i) ->
  exists visited, tryAssignNodeLoadBalancerShard shards R name i = (<[name := join_shard (looked_at shards name i) i]> visited, true)
    /\ forall n, n <> name -> visited !! n = shards !! n.
Proof.
  intros Hpr Hded Hr Ho. unfold tryAssignNodeLoadBalancerShard. fold (looked_at shards name i). rewrite Hpr. cbn [negb].
  rewrite (proj2 (blocked_false R name (looked_at shards name i) i)) by done.
  replace (_ && _) with false; [eexists; split; [done|]|].
  - intros n Hne. destruct (shards !! name); [done|]. by rewrite lookup_insert_ne.
  - symmetry. apply andb_false_iff. rewrite bool_decide_eq_false, negb_false_iff, bool_decide_eq_true.
    destruct (decide (in_Mode i = nodeLoadBalancerModeDedicated)); [right; by apply Hded|by left].
Qed.

(** A Service that fits its shard is placed, unless an abandoned shard holds the name. *)
Definition settled (shards : shard_map) : Prop := forall name s, shards !! name = Some s -> sh_Claims (ms_plan s) <> [].
Lemma tryAssign_fits R log shards name i : tracks log shards -> settled shards -> fits R log name i ->
  exists shards', tryAssignNodeLoadBalancerShard shards R name i = (shards', true) /\ settled shards'.
Proof.
  intros Ht Hs [Hr Hf]. pose proof (looked_at_describes log shards name i Ht) as (Hn & Hc & Hp & Hm).
  assert (Hmem : dedicated i -> members name log = []).
  { intros Hd. destruct (members name log) as [|j l] eqn:El; [done|]. destruct (Hf j) as ((Hmode & _) & Hnd & _); [apply elem_of_cons; by left|].
    exfalso. apply Hnd. unfold dedicated in *. congruence. }
  destruct (tryAssign_succeeds R shards name i) as (visited & Hok & Hv); [| |done| |].
  - unfold looked_at in *. destruct (shards !! name) as [s|] eqn:E; cbn [default id] in *; [|by apply profile_same].
    destruct (members name log) as [|j l] eqn:El; [by destruct (Hs name s)|]. apply (profile_carries _ j); [apply Hf|apply Hm]; apply elem_of_cons; by left.
  - intros Hd. by rewrite Hc, Hmem.
  - intros p o Hpi (j & Hj & _ & Hpj)%Hp. destruct (Hf j Hj) as (_ & _ & Hdis). by destruct (Hdis p).
  - rewrite Hok. eexists. split; [done|]. intros n s. rewrite lookup_insert_Some. intros [[<- <-]|[Hne Hl]]; [cbn; by destruct (sh_Claims _)|].
    rewrite Hv in Hl by done. by apply (Hs n).
Qed.

(** ** The loops *)

Section Loops.
Context (hash : string -> string) (attempts : nat) (R : nodeLoadBalancerPortReservations).

Record ok_state (log : list placement) (f : gmap string string) (shards : shard_map) : Prop := {
  ok_tracks : tracks log shards; ok_legal : legal R log; ok_assigned : f = assigned log; ok_named : shards !! "" = None; ok_names : Forall (fun e => e.2 <> "") log
}.

Lemma assigned_snoc log i name : in_ServiceID i ∉ ids log -> assigned (log ++ [(i, name)]) = <[in_ServiceID i := name]> (assigned log).
Proof. intros H. unfold assigned. rewrite map_app. apply list_to_map_snoc. by rewrite <-list_fmap_compose. Qed.

Lemma ok_step log f shards name i shards' ok : ok_state log f shards -> in_ServiceID i ∉ ids log -> name <> "" ->
  tryAssignNodeLoadBalancerShard shards R name i = (shards', ok) ->
  if ok then ok_state (log ++ [(i, name)]) (<[in_ServiceID i := name]> f) shards' else ok_state log f shards'.
Proof.
  intros [Ht Hl -> Hn Hns] Hid Hne H. pose proof (tryAssign_spec R log shards name i shards' ok Ht Hid H) as Hs.
  pose proof (tryAssign_other R shards name i "" (not_eq_sym Hne)) as Ho. rewrite H, Hn in Ho. cbn in Ho.
  destruct ok; [destruct Hs as [Hf Hs]|]; split; try done; [by constructor|by rewrite assigned_snoc|]. apply Forall_app. by repeat constructor.
Qed.

(** The Services of a log followed by those still to be placed. *)
Definition fresh (log : list placement) (rest : list nodeLoadBalancerIntent) : Prop := NoDup (ids log ++ map in_ServiceID rest).
Lemma fresh_here log i rest : fresh log (i :: rest) -> in_ServiceID i ∉ ids log.
Proof. unfold fresh. rewrite NoDup_app. cbn [map]. intros (_ & H & _) Hi. apply (H _ Hi). apply elem_of_cons. by left. Qed.
Lemma fresh_skip log i rest : fresh log (i :: rest) -> fresh log rest.
Proof. unfold fresh. cbn [map]. rewrite (Permutation_cons_append (map _ _)), app_assoc, NoDup_app. tauto. Qed.
Lemma fresh_place log i name rest : fresh log (i :: rest) -> fresh (log ++ [(i, name)]) rest.
Proof. unfold fresh, ids. rewrite map_app, <-app_assoc. done. Qed.

Lemma keepPersisted_spec intents : forall log f shards f' shards' pending, ok_state log f shards -> fresh log intents ->
  keepPersisted intents R f shards = (f', shards', pending) ->
  exists kept, ok_state (log ++ kept) f' shards' /\ map fst kept ++ pending ≡ₚ intents
    /\ Forall (fun e => e.2 = in_ExistingShard e.1) kept /\ (size shards' <= size shards + List.length intents)%nat.
Proof.
  induction intents as [|i rest IH]; intros log f shards f' shards' pending Hok Hfr; cbn [keepPersisted].
  { intros [= <- <- <-]. exists []. rewrite app_nil_r. split_and!; [done|done|constructor|cbn; lia]. }
  destruct (if in_ExistingShard i == "" then (shards, false) else tryAssignNodeLoadBalancerShard shards R (in_ExistingShard i) i) as [shards1 kept1] eqn:Hif. pose proof (fresh_here _ _ _ Hfr) as Hid.
  assert (Hstep : (kept1 = true -> in_ExistingShard i <> "" /\ ok_state (log ++ [(i, in_ExistingShard i)]) (<[in_ServiceID i := in_ExistingShard i]> f) shards1)
                  /\ (kept1 = false -> ok_state log f shards1) /\ (size shards1 <= S (size shards))%nat).
  { destruct (bool_decide (in_ExistingShard i = "")) eqn:He; [injection Hif as <- <-; split_and!; [done|done|lia]|]. apply bool_decide_eq_false in He.
    pose proof (ok_step _ _ _ _ _ _ _ Hok Hid He Hif) as Hs. pose proof (tryAssign_size R shards (in_ExistingShard i) i) as Hz. rewrite Hif in Hz. by destruct kept1. }
  clear Hif. destruct Hstep as (Hyes & Hno & Hz), kept1.
  - intros H. destruct Hyes as [_ Hs]; [done|]. destruct (IH _ _ _ _ _ _ Hs (fresh_place _ _ _ _ Hfr) H) as (kept & Hk & Hp & He & Hl).
    exists ((i, in_ExistingShard i) :: kept). rewrite <-app_assoc in Hk. split_and!; [done|cbn; by rewrite Hp|by constructor|cbn; lia].
  - destruct (keepPersisted rest R f shards1) as [[f2 s2] p2] eqn:E. intros [= <- <- <-].
    destruct (IH _ _ _ _ _ _ (Hno eq_refl) (fresh_skip _ _ _ Hfr) E) as (kept & Hk & Hp & He & Hl).
    exists kept. split_and!; [done|by rewrite <-Permutation_middle, Hp|done|cbn; lia].
Qed.

(** ** Names and candidates *)

Lemma search_free shards prefix seed n : forall k name, searchShardName hash shards R prefix seed n k = Some name ->
  shards !! name = None /\ R !! name = None /\ HasPrefix name prefix = true.
Proof.
  induction n as [|n IH]; intros k name; cbn [searchShardName]; [done|]. destruct (_ && _) eqn:E; [|apply IH].
  apply andb_true_iff in E as [?%bool_decide_eq_true ?%bool_decide_eq_true]. intros [= <-]. split_and!; [done|done|]. apply HasPrefix_append.
Qed.
Lemma search_taken shards prefix seed n : forall k, searchShardName hash shards R prefix seed n k = None ->
  Forall (fun name => name ∈ dom shards ∪ dom R) (map (candidate_name hash prefix seed) (seq k n)).
Proof.
  induction n as [|n IH]; intros k; cbn [searchShardName seq map]; [constructor|]. destruct (_ && _) eqn:E; [done|]. intros H. constructor; [|by apply IH].
  rewrite elem_of_union, !elem_of_dom. apply andb_false_iff in E. rewrite !bool_decide_eq_false, !eq_None_not_Some in E.
  destruct E as [E|E]; apply dec_stable in E; auto.
Qed.
Lemma search_succeeds shards prefix seed n k : (size shards + size R < n)%nat -> NoDup (map (candidate_name hash prefix seed) (seq k n)) ->
  exists name, searchShardName hash shards R prefix seed n k = Some name.
Proof.
  intros Hn Hd. destruct (searchShardName _ _ _ _ _ _ _) eqn:E; [eauto|]. apply search_taken in E. exfalso.
  apply (size_list_to_set (C := gset string)) in Hd. rewrite length_map, length_seq in Hd.
  assert (Hsub : list_to_set (C := gset string) (map (candidate_name hash prefix seed) (seq k n)) ⊆ dom shards ∪ dom R).
  { intros x Hx%elem_of_list_to_set. by apply (proj1 (Forall_forall _ _) E). }
  apply subseteq_size in Hsub. rewrite Hd, size_union_alt in Hsub. pose proof (subseteq_size (dom R ∖ dom shards) (dom R)) as Hr.
  rewrite !size_dom in *. assert (dom R ∖ dom shards ⊆ dom R) by set_solver. specialize (Hr H). lia.
Qed.

Lemma sort_by_perm {A} (le : A -> A -> bool) l : sort_by le l ≡ₚ l.
Proof.
  assert (Hi : forall x r, insert_by le x r ≡ₚ x :: r). { intros x r. induction r as [|y r IH]; [done|]. cbn [insert_by]. destruct (le x y); [done|]. rewrite IH. apply perm_swap. }
  induction l as [|x l IH]; [done|]. cbn. by rewrite Hi, IH.
Qed.
Lemma in_shards (shards : shard_map) s : s ∈ map snd (map_to_list shards) <-> exists name, shards !! name = Some s.
Proof.
  rewrite list_elem_of_fmap. split; [intros ([n t] & -> & H%elem_of_map_to_list); eauto|]. intros [n H%elem_of_map_to_list]. by exists (n, s).
Qed.
Lemma compatible_listed shards i s : s ∈ compatibleNodeLoadBalancerShards shards R i -> (exists name, shards !! name = Some s) /\ compatible R i s = true.
Proof. unfold compatibleNodeLoadBalancerShards. rewrite sort_by_perm, list_elem_of_filter, in_shards. tauto. Qed.

(** The chosen shard accepts the Service. *)
Lemma choose_accepts log shards i name : tracks log shards -> shards !! "" = None -> chooseShard hash attempts shards R i = Some name ->
  name <> "" /\ exists shards', tryAssignNodeLoadBalancerShard shards R name i = (shards', true).
Proof.
  intros Ht Hnm H.
  assert (Hfresh : forall seed, uniqueNodeLoadBalancerShardName hash attempts shards R "inlb-" seed = Some name ->
            name <> "" /\ exists shards', tryAssignNodeLoadBalancerShard shards R name i = (shards', true)).
  { intros seed (Hs & Hr & Hp)%search_free. split; [by intros ->|]. destruct (tryAssign_succeeds R shards name i) as (v & Hv & _); [| | | |by eauto];
      unfold looked_at; rewrite ?Hs; cbn [default]; [by apply profile_same|done| |].
    - intros p o _. by rewrite Hr.
    - intros p o _. cbn. by rewrite lookup_empty. }
  unfold chooseShard in H. destruct (in_Mode i == nodeLoadBalancerModeDedicated) eqn:Hm; [by apply Hfresh in H|].
  destruct (compatibleNodeLoadBalancerShards shards R i) as [|s l] eqn:Hc; [by apply Hfresh in H|]. injection H as Hn.
  destruct (compatible_listed shards i s) as [[n Hs] Hcomp]; [rewrite Hc; apply elem_of_cons; by left|]. pose proof (Ht n) as Hd. rewrite Hs in Hd.
  destruct Hd as (Hnn & _). rewrite Hnn in Hn. subst n. split; [congruence|]. unfold compatible in Hcomp. rewrite !andb_true_iff, forallb_forall in Hcomp.
  destruct Hcomp as [[_ Hpr] Hports]. apply bool_decide_eq_false in Hm.
  destruct (tryAssign_succeeds R shards name i) as (v & Hv & _); [| | | |by eauto]; unfold looked_at; rewrite ?Hs; cbn [default id]; [done|done| |].
  - intros p o Hp%list_elem_of_In. specialize (Hports p Hp). apply andb_true_iff in Hports as [Hres _]. rewrite Hnn in Hres. apply negb_true_iff in Hres.
    by apply reserved_elsewhere_false.
  - intros p o Hp%list_elem_of_In. specialize (Hports p Hp). apply andb_true_iff in Hports as [_ Hfree%bool_decide_eq_true]. congruence.
Qed.

Lemma placePending_spec pending : forall log f shards r, ok_state log f shards -> fresh log pending ->
  placePending hash attempts pending R f shards = Some r ->
  exists placed f' shards', r = Ok (f', shards') /\ map fst placed = pending /\ ok_state (log ++ placed) f' shards'.
Proof.
  induction pending as [|i rest IH]; intros log f shards r Hok Hfr; cbn [placePending].
  { intros [= <-]. exists [], f, shards. by rewrite app_nil_r. }
  destruct (chooseShard hash attempts shards R i) as [name|] eqn:Hc; cbn [mbind option_bind]; [|done].
  destruct (choose_accepts log shards i name) as [Hne [s' Hs]]; [apply Hok|apply Hok|done|]. rewrite Hs. intros H.
  pose proof (ok_step _ _ _ _ _ _ _ Hok (fresh_here _ _ _ Hfr) Hne Hs) as Hok'.
  destruct (IH _ _ _ _ Hok' (fresh_place _ _ _ _ Hfr) H) as (placed & f' & t & -> & <- & Hfin).
  exists ((i, name) :: placed), f', t. by rewrite <-app_assoc in Hfin.
Qed.

(** Names differ on the seeds of a Service. *)
Definition distinct_names (i : nodeLoadBalancerIntent) : Prop :=
  forall seed, seed ∈ ["dedicated/" +:+ in_ServiceID i; "shared/" +:+ in_Pool i +:+ "/" +:+ in_ServiceID i] ->
  NoDup (map (candidate_name hash "inlb-" seed) (seq 0 attempts)).
Lemma placePending_returns pending : forall log f shards, ok_state log f shards -> fresh log pending ->
  (size shards + List.length pending + size R < attempts)%nat -> Forall distinct_names pending ->
  exists r, placePending hash attempts pending R f shards = Some r.
Proof.
  induction pending as [|i rest IH]; intros log f shards Hok Hfr Hn Hd; cbn [placePending]; [eauto|]. apply Forall_cons in Hd as [Hi Hd]. cbn [List.length] in Hn.
  assert (Hname : exists name, chooseShard hash attempts shards R i = Some name).
  { unfold chooseShard. destruct (in_Mode i == _); [|destruct (compatibleNodeLoadBalancerShards _ _ _) as [|s l]; [|eauto]];
      apply search_succeeds; try lia; apply Hi; set_solver. }
  destruct Hname as [name Hc]. rewrite Hc. cbn [mbind option_bind].
  destruct (choose_accepts log shards i name) as [Hne [s' Hs]]; [apply Hok|apply Hok|done|]. rewrite Hs.
  pose proof (ok_step _ _ _ _ _ _ _ Hok (fresh_here _ _ _ Hfr) Hne Hs) as Hok'. pose proof (tryAssign_size R shards name i) as Hz. rewrite Hs in Hz. cbn [fst] in Hz.
  apply (IH _ _ _ Hok' (fresh_place _ _ _ _ Hfr)); [lia|done].
Qed.
End Loops.

(** ** From the log to the contract *)

Lemma share_shard_sym i j : share_shard i j -> share_shard j i.
Proof.
  intros ((H1 & H2 & H3 & H4 & H5) & Hd & Hp). split_and!; [split_and!; congruence|unfold dedicated in *; congruence|].
  intros p Hj Hi. by apply (Hp p).
Qed.
Lemma legal_ids R log : legal R log -> NoDup (ids log).
Proof. induction 1; [constructor|]. unfold ids. rewrite map_app, NoDup_app. split_and!; [done| |apply NoDup_singleton]. intros x Hx ->%list_elem_of_singleton. done. Qed.
Lemma legal_placed R log : legal R log ->
  (forall i n, (i, n) ∈ log -> unreserved R n i)
  /\ (forall i j n, (i, n) ∈ log -> (j, n) ∈ log -> in_ServiceID i <> in_ServiceID j -> share_shard i j).
Proof.
  induction 1 as [|log n i Hl [IHr IHs] Hid [Hr Hf]]; [by split; [intros ? ? ?%elem_of_nil|intros ? ? ? ?%elem_of_nil]|].
  split.
  - intros j m [?|[= -> ->]%list_elem_of_singleton]%elem_of_app; auto.
  - intros j k m [Hj|[= -> ->]%list_elem_of_singleton]%elem_of_app [Hk|Hk%list_elem_of_singleton]%elem_of_app Hne; [by eapply IHs| | |by simplify_eq].
    + injection Hk as -> ->. apply Hf. by apply members_in.
    + apply share_shard_sym, Hf. by apply members_in.
Qed.

Lemma assigned_lookup R log id name : legal R log -> assigned log !! id = Some name <-> exists i, (i, name) ∈ log /\ in_ServiceID i = id.
Proof.
  intros Hl%legal_ids. unfold assigned. rewrite <-elem_of_list_to_map by (by rewrite <-list_fmap_compose). rewrite list_elem_of_fmap. split.
  - intros ([i n] & [= -> ->] & H). eauto.
  - intros (i & H & <-). by exists (i, name).
Qed.

(** Two Services of one list with the same identity are the same. *)
Lemma ids_inj (l : list nodeLoadBalancerIntent) i j : NoDup (map in_ServiceID l) -> i ∈ l -> j ∈ l -> in_ServiceID i = in_ServiceID j -> i = j.
Proof.
  intros Hd [a Ha]%list_elem_of_lookup [b Hb]%list_elem_of_lookup E.
  assert (a = b) as <-; [|congruence]. eapply NoDup_lookup; [exact Hd|by rewrite list_lookup_fmap, Ha|by rewrite list_lookup_fmap, Hb, E].
Qed.

Lemma log_intent R log i name : legal R log -> i ∈ map fst log -> assigned log !! in_ServiceID i = Some name <-> (i, name) ∈ log.
Proof.
  intros Hl Hi. rewrite (assigned_lookup R) by done. split; [|eauto]. intros (j & Hj & E). cut (j = i); [by intros <-|].
  apply (ids_inj (map fst log)); [rewrite map_map; by apply (legal_ids R)| |exact Hi|done]. apply (list_elem_of_fmap_2 fst log (j, name) Hj).
Qed.

Lemma ok_conflict_free R log f shards intents : ok_state R log f shards -> map fst log ≡ₚ intents -> conflict_free R intents f.
Proof.
  intros [_ Hl -> _ _] Hp. destruct (legal_placed _ _ Hl) as [Hr Hs]. split.
  - intros i name Hi H. apply (Hr i name). rewrite <-Hp in Hi. by apply (log_intent R).
  - intros i j name Hi Hj Hne H1 H2. rewrite <-Hp in Hi, Hj. apply (Hs i j name); [by apply (log_intent R)..|done].
Qed.

(** ** The whole run *)

Definition valid_intent (i : nodeLoadBalancerIntent) : Prop :=
  in_ServiceID i <> "" /\ 1 <= in_NodesPerShard i /\ validateNodeLoadBalancerShape (in_CPU i) (in_MemoryMiB i) = None
  /\ (in_Mode i = nodeLoadBalancerModeShared \/ in_Mode i = nodeLoadBalancerModeDedicated).
Lemma validateIntents_spec l : forall seen, validateIntents l seen = None <->
  Forall valid_intent l /\ NoDup (map in_ServiceID l) /\ forall id, id ∈ map in_ServiceID l -> id ∉ seen.
Proof.
  induction l as [|i l IH]; intros seen; cbn [validateIntents map].
  { split; [|done]. intros _. split_and!; [constructor|constructor|by intros ? ?%elem_of_nil]. }
  rewrite Forall_cons, NoDup_cons. unfold valid_intent at 1.
  destruct (bool_decide_reflect (in_ServiceID i = "")) as [E1|E1]; [split; [done|naive_solver]|].
  destruct (bool_decide_reflect (in_ServiceID i ∈ seen)) as [E2|E2]; [split; [done|]; intros (_ & _ & H); by destruct (H (in_ServiceID i)); [apply elem_of_cons; left|]|].
  destruct (Z.ltb_spec (in_NodesPerShard i) 1); [split; [done|]; intros ([(_ & ? & _) _] & _); lia|].
  destruct (validateNodeLoadBalancerShape (in_CPU i) (in_MemoryMiB i)); [split; [done|naive_solver]|].
  destruct (_ && _) eqn:E3.
  { split; [done|]. rewrite andb_true_iff, !negb_true_iff, !bool_decide_eq_false in E3. naive_solver. }
  rewrite IH. rewrite andb_false_iff, !negb_false_iff, !bool_decide_eq_true in E3. setoid_rewrite elem_of_cons. split.
  - intros (Hv & Hd & Hs). split_and!; try done.
    + intros Hi. by apply (Hs _ Hi), elem_of_union_l, elem_of_singleton.
    + intros id [->|Hid]; [done|]. intros ?. by apply (Hs _ Hid), elem_of_union_r.
  - intros ([_ Hv] & [Hn Hd] & Hs). split_and!; [done|done|]. intros id Hid [->%elem_of_singleton|?]%elem_of_union; [done|]. by apply (Hs id); [right|].
Qed.

Section Run.
Context (hash : string -> string) (attempts : nat) (R : nodeLoadBalancerPortReservations).

Lemma ok_start : ok_state R [] ∅ ∅.
Proof. split; [by intros n; rewrite lookup_empty|constructor|done|by rewrite lookup_empty|constructor]. Qed.

Definition by_id (intents : list nodeLoadBalancerIntent) : list nodeLoadBalancerIntent := sort_by (fun a b => String.leb (in_ServiceID a) (in_ServiceID b)) intents.
Definition shard_list (shards : shard_map) : list nodeLoadBalancerShardPlan :=
  sort_by (fun a b => String.leb (sh_Name a) (sh_Name b)) (map finish_shard (map snd (map_to_list shards))).

(** A plan is read off a legal log of all the Services. *)
Lemma plan_log intents plan : planNodeLoadBalancerShardsWithReservations hash attempts intents R = Some (Ok plan) ->
  exists kept placed shards pending, ok_state R (kept ++ placed) (np_Assignments plan) shards /\ np_Shards plan = shard_list shards
    /\ map fst kept ++ pending ≡ₚ intents /\ map fst placed = pending /\ Forall (fun e => e.2 = in_ExistingShard e.1) kept
    /\ (exists f s, keepPersisted (by_id intents) R ∅ ∅ = (f, s, pending)) /\ Forall valid_intent intents /\ NoDup (map in_ServiceID intents).
Proof.
  unfold planNodeLoadBalancerShardsWithReservations. fold (by_id intents). destruct (validateIntents (by_id intents) ∅) eqn:Hv; [done|].
  apply validateIntents_spec in Hv as (Hv & Hnd & _). destruct (keepPersisted (by_id intents) R ∅ ∅) as [[f s] pending] eqn:Hk.
  assert (Hfr : fresh [] (by_id intents)) by exact Hnd.
  pose proof (keepPersisted_spec R (by_id intents) [] ∅ ∅ f s pending ok_start Hfr Hk) as (kept & Hok & Hp & He & _). cbn [app] in Hok.
  assert (Hfp : fresh kept pending) by (unfold fresh, ids; rewrite <-(map_map fst in_ServiceID), <-map_app, Hp; exact Hnd).
  destruct (placePending hash attempts pending R f s) as [r|] eqn:Hpp; cbn [mbind option_bind]; [|done].
  destruct (placePending_spec hash attempts R pending kept f s r Hok Hfp Hpp) as (placed & f' & s' & -> & Hm & Hfin). intros [= <-]. cbn.
  assert (Hperm : by_id intents ≡ₚ intents) by apply sort_by_perm. rewrite Hperm in Hp, Hv, Hnd.
  exists kept, placed, s', pending. split_and!; eauto.
Qed.
End Run.

(** ** Shards of the plan *)

Lemma shard_list_names log shards : tracks log shards -> NoDup (map sh_Name (shard_list shards)).
Proof.
  intros Ht. unfold shard_list. rewrite sort_by_perm, !map_map. rewrite (list_fmap_ext _ fst); [apply NoDup_fst_map_to_list|].
  intros k [n s] H%list_elem_of_lookup_2%elem_of_map_to_list. specialize (Ht n). rewrite H in Ht. by destruct Ht.
Qed.
Lemma in_shard_list shards shard : shard ∈ shard_list shards <-> exists name s, shards !! name = Some s /\ shard = finish_shard s.
Proof.
  unfold shard_list. rewrite sort_by_perm, list_elem_of_fmap. setoid_rewrite in_shards. naive_solver.
Qed.

(** What the entry of a shard says about its members. *)
Definition shard_entry (intents : list nodeLoadBalancerIntent) (f : gmap string string) (shard : nodeLoadBalancerShardPlan) : Prop :=
  NoDup (sh_Claims shard) /\ (forall id, id ∈ sh_Claims shard <-> f !! id = Some (sh_Name shard))
  /\ NoDup (sh_Ports shard) /\ (forall p, p ∈ sh_Ports shard <-> exists i, i ∈ intents /\ f !! in_ServiceID i = Some (sh_Name shard) /\ p ∈ in_Ports i)
  /\ (forall i, i ∈ intents -> f !! in_ServiceID i = Some (sh_Name shard) -> nodeLoadBalancerShardProfileMatches shard i = true).

Lemma ok_entries R log f shards intents : ok_state R log f shards -> map fst log ≡ₚ intents -> Forall (shard_entry intents f) (shard_list shards).
Proof.
  intros [Ht Hl -> _ _] Hp. apply Forall_forall. intros shard (name & s & Hs & ->)%in_shard_list. pose proof (Ht name) as Hd. rewrite Hs in Hd.
  destruct Hd as (Hn & Hc & Hports & Hm). unfold shard_entry, finish_shard; cbn. rewrite Hn, Hc.
  assert (Hin : forall i, i ∈ intents -> assigned log !! in_ServiceID i = Some name <-> i ∈ members name log).
  { intros i Hi. rewrite <-Hp in Hi. rewrite members_in. by apply (log_intent R). }
  assert (Hmem : forall i, i ∈ members name log -> i ∈ intents) by (intros i Hi%members_in; rewrite <-Hp; apply (list_elem_of_fmap_2 fst _ (i, name) Hi)).
  split_and!.
  - rewrite sort_strings_perm. by apply members_ids, (legal_ids R).
  - intros id. rewrite sort_strings_perm, (assigned_lookup R), list_elem_of_fmap by done. setoid_rewrite members_in. naive_solver.
  - unfold sortNodeLoadBalancerPorts. rewrite sort_by_perm. apply NoDup_fst_map_to_list.
  - intros p. unfold sortNodeLoadBalancerPorts. rewrite sort_by_perm, list_elem_of_fmap. split.
    + intros ([q o] & -> & (i & Hi & _ & Hq)%elem_of_map_to_list%Hports). exists i. rewrite Hin by auto. auto.
    + intros (i & Hi & Ha%Hin & Hq); [|done]. exists (p, in_ServiceID i). split; [done|]. apply elem_of_map_to_list, Hports. eauto.
  - intros i Hi Ha%Hin; [|done]. by apply Hm.
Qed.

(** ** Theorems *)

(** C25: a plan places every Service, and only those, on one listed shard of its own profile. Two Services on one
    shard have the same profile, neither is dedicated and they share no port; no Service gets a port that is
    reserved on its shard for another. The entries of the plan list distinct shards, each with exactly its members
    and exactly their ports. *)
Theorem shard_plan_sound hash attempts R intents plan :
  planNodeLoadBalancerShardsWithReservations hash attempts intents R = Some (Ok plan) ->
  dom (np_Assignments plan) = list_to_set (map in_ServiceID intents)
  /\ conflict_free R intents (np_Assignments plan)
  /\ NoDup (map sh_Name (np_Shards plan)) /\ Forall (shard_entry intents (np_Assignments plan)) (np_Shards plan)
  /\ (forall i name, i ∈ intents -> np_Assignments plan !! in_ServiceID i = Some name -> name ∈ map sh_Name (np_Shards plan)).
Proof.
  intros (kept & placed & shards & pending & Hok & Hsh & Hp & Hpl & _ & _ & _ & _)%plan_log.
  assert (Hall : map fst (kept ++ placed) ≡ₚ intents) by (subst pending; by rewrite map_app). rewrite Hsh. split_and!.
  - pose proof Hok as [_ _ -> _ _]. unfold assigned. rewrite dom_list_to_map_L, map_map. rewrite <-Hall, map_map. done.
  - by apply (ok_conflict_free R (kept ++ placed) _ shards).
  - apply (shard_list_names (kept ++ placed)). apply Hok.
  - by apply (ok_entries R (kept ++ placed)).
  - intros i name Hi. destruct Hok as [Ht Hl -> _ _]. rewrite <-Hall in Hi. intros H%(log_intent R); [|done|done].
    apply members_in in H. specialize (Ht name). destruct (shards !! name) as [s|] eqn:Hs; [|rewrite Ht in H; by apply elem_of_nil in H].
    apply list_elem_of_fmap. exists (finish_shard s). split; [by destruct Ht as [<- _]|]. apply in_shard_list. eauto.
Qed.

(** C35: the planner returns a plan for every list of valid Services with distinct identities, when the
    candidate names of each Service differ from one another over the given number of attempts, which has to
    exceed the number of reserved names plus twice (and one) the number of Services. *)
Theorem shard_plan_returns hash attempts R intents : Forall valid_intent intents -> NoDup (map in_ServiceID intents) ->
  (2 * List.length intents + size R < attempts)%nat -> Forall (distinct_names hash attempts) intents ->
  exists plan, planNodeLoadBalancerShardsWithReservations hash attempts intents R = Some (Ok plan).
Proof.
  intros Hv Hnd Hn Hdn. unfold planNodeLoadBalancerShardsWithReservations. fold (by_id intents).
  assert (Hperm : by_id intents ≡ₚ intents) by apply sort_by_perm.
  assert (Hvi : validateIntents (by_id intents) ∅ = None) by (apply validateIntents_spec; rewrite Hperm; split_and!; [done|done|set_solver]).
  rewrite Hvi. destruct (keepPersisted (by_id intents) R ∅ ∅) as [[f s] pending] eqn:Hk.
  assert (Hfr : fresh [] (by_id intents)) by (unfold fresh; cbn; by rewrite Hperm).
  pose proof (keepPersisted_spec R (by_id intents) [] ∅ ∅ f s pending (ok_start R) Hfr Hk) as (kept & Hok & Hp & _ & Hz). cbn [app] in Hok. rewrite Hperm in Hp, Hz.
  assert (Hfp : fresh kept pending) by (unfold fresh, ids; rewrite <-(map_map fst in_ServiceID), <-map_app, Hp; exact Hnd).
  destruct (placePending_returns hash attempts R pending kept f s Hok Hfp) as [r Hr].
  - apply Permutation_length in Hp. rewrite length_app, length_map in Hp. rewrite map_size_empty in Hz. lia.
  - rewrite <-Hp, Forall_app in Hdn. apply Hdn.
  - rewrite Hr. destruct (placePending_spec hash attempts R pending kept f s r Hok Hfp Hr) as (? & f' & s' & -> & _). cbn. eauto.
Qed.

(** ** Stability *)

Definition agree (R : nodeLoadBalancerPortReservations) (l : list nodeLoadBalancerIntent) : Prop :=
  (forall i, i ∈ l -> in_ExistingShard i <> "" -> unreserved R (in_ExistingShard i) i)
  /\ (forall i j, i ∈ l -> j ∈ l -> in_ServiceID i <> in_ServiceID j -> in_ExistingShard i = in_ExistingShard j -> in_ExistingShard i <> "" -> share_shard i j).

Lemma agree_perm R l l' : l ≡ₚ l' -> agree R l -> agree R l'.
Proof. intros Hp [H1 H2]. split; [intros i; rewrite <-Hp; apply H1|intros i j; rewrite <-Hp; apply H2]. Qed.

Lemma keepPersisted_all R intents : forall log f shards f' shards' pending, ok_state R log f shards -> fresh log intents -> settled shards ->
  Forall (fun e => e.2 = in_ExistingShard e.1) log -> agree R (map fst log ++ intents) ->
  keepPersisted intents R f shards = (f', shards', pending) -> Forall (fun i => in_ExistingShard i = "") pending.
Proof.
  induction intents as [|i rest IH]; intros log f shards f' shards' pending Hok Hfr Hset Hlog Hag; cbn [keepPersisted]; [intros [= <- <- <-]; constructor|].
  pose proof (fresh_here _ _ _ Hfr) as Hid. destruct (bool_decide_reflect (in_ExistingShard i = "")) as [He|He].
  - destruct (keepPersisted rest R f shards) as [[f2 s2] p2] eqn:E. intros [= <- <- <-]. constructor; [done|].
    eapply IH; [exact Hok|by eapply fresh_skip|done|done| |exact E]. destruct Hag as [H1 H2]. split; [intros j Hj; apply H1|intros j k Hj Hk; apply H2]; set_solver.
  - destruct (tryAssign_fits R log shards (in_ExistingShard i) i) as (s1 & Hs & Hset1); [apply Hok|done| |].
    { destruct Hag as [H1 H2]. split; [apply H1; [set_solver|done]|]. intros j Hj%members_in.
      pose proof (proj1 (Forall_forall _ _) Hlog _ Hj) as Ej. cbn in Ej. apply H2; [apply elem_of_app; left; apply (list_elem_of_fmap_2 fst _ _ Hj)|set_solver| |done|congruence].
      intros E. apply Hid. rewrite <-E. by eapply ids_in. }
    rewrite Hs. pose proof (ok_step R _ _ _ _ _ _ _ Hok Hid He Hs) as Hok1. eapply IH; [exact Hok1|by apply fresh_place|done| |].
    + apply Forall_app. by repeat constructor.
    + by rewrite map_app, <-app_assoc.
Qed.

(** The assignments that the Services carry. *)
Definition persisted (intents : list nodeLoadBalancerIntent) : gmap string string :=
  list_to_map (map (fun i => (in_ServiceID i, in_ExistingShard i)) (filter (fun i => in_ExistingShard i <> "") intents)).
Lemma persisted_lookup intents id name : NoDup (map in_ServiceID intents) ->
  persisted intents !! id = Some name <-> exists i, i ∈ intents /\ in_ServiceID i = id /\ in_ExistingShard i = name /\ name <> "".
Proof.
  intros Hd. unfold persisted. rewrite <-elem_of_list_to_map.
  - rewrite list_elem_of_fmap. setoid_rewrite list_elem_of_filter. split; [intros (i & [= -> ->] & ? & ?); eauto|intros (i & ? & <- & <- & ?); eauto].
  - rewrite <-list_fmap_compose. rewrite (list_fmap_ext _ in_ServiceID) by done. clear id name. induction intents as [|i l IH]; [constructor|].
    cbn [map] in Hd. apply NoDup_cons in Hd as [Hi Hd]. rewrite filter_cons. case_decide; [|by apply IH]. apply NoDup_cons. split; [|by apply IH].
    intros (j & E & [_ Hj]%list_elem_of_filter)%list_elem_of_fmap. apply Hi, list_elem_of_fmap. eauto.
Qed.
Lemma persisted_agree R intents : NoDup (map in_ServiceID intents) -> conflict_free R intents (persisted intents) -> agree R intents.
Proof.
  intros Hd [Hr Hs]. assert (Hp : forall i, i ∈ intents -> in_ExistingShard i <> "" -> persisted intents !! in_ServiceID i = Some (in_ExistingShard i)).
  { intros i Hi Hne. apply persisted_lookup; eauto. }
  split; [eauto|]. intros i j Hi Hj Hne He Hn. apply (Hs i j (in_ExistingShard i)); auto. rewrite He in *. auto.
Qed.

(** With agreeing persisted assignments only Services without one are left for the second loop. *)
Lemma settled_start : settled ∅.
Proof. intros n s. by rewrite lookup_empty. Qed.
Lemma persisted_kept R intents f s pending : agree R intents -> NoDup (map in_ServiceID intents) ->
  keepPersisted (by_id intents) R ∅ ∅ = (f, s, pending) -> Forall (fun i => in_ExistingShard i = "") pending.
Proof.
  intros Ha Hnd Hk. assert (Hperm : by_id intents ≡ₚ intents) by apply sort_by_perm.
  apply (keepPersisted_all R (by_id intents) [] ∅ ∅ f s); [apply ok_start|unfold fresh; cbn; by rewrite Hperm|apply settled_start|constructor| |done].
  cbn. by apply (agree_perm R intents).
Qed.

Definition set_existing (i : nodeLoadBalancerIntent) (shard : string) : nodeLoadBalancerIntent :=
  Build_nodeLoadBalancerIntent (in_ServiceID i) (in_Namespace i) (in_Name i) (in_Mode i) (in_Pool i) (in_NodesPerShard i) (in_CPU i) (in_MemoryMiB i) (in_Ports i) shard.
(** The Service after its assignment was written to it. *)
Definition remember (f : gmap string string) (i : nodeLoadBalancerIntent) : nodeLoadBalancerIntent := set_existing i (default "" (f !! in_ServiceID i)).

Lemma remember_ids f intents : map in_ServiceID (map (remember f) intents) = map in_ServiceID intents.
Proof. by rewrite map_map. Qed.
Lemma remember_valid f intents : Forall valid_intent intents -> Forall valid_intent (map (remember f) intents).
Proof. intros H. apply Forall_fmap. by eapply Forall_impl; [exact H|]. Qed.
Lemma remember_agree R f intents : conflict_free R intents f -> agree R (map (remember f) intents).
Proof.
  intros [Hr Hs]. assert (Hl : forall i, in_ExistingShard (remember f i) <> "" -> f !! in_ServiceID i = Some (in_ExistingShard (remember f i))).
  { intros i. cbn. by destruct (f !! in_ServiceID i). }
  split.
  - intros ? (i & -> & Hi)%list_elem_of_fmap Hne. apply (Hr i); [done|by apply Hl].
  - intros ? ? (i & -> & Hi)%list_elem_of_fmap (j & -> & Hj)%list_elem_of_fmap Hne He Hn. apply (Hs i j (in_ExistingShard (remember f i))); [done..| |].
    + by apply Hl.
    + rewrite He in *. by apply Hl.
Qed.

Lemma replan R hash attempts hash' attempts' intents plan : planNodeLoadBalancerShardsWithReservations hash attempts intents R = Some (Ok plan) ->
  exists plan', planNodeLoadBalancerShardsWithReservations hash' attempts' (map (remember (np_Assignments plan)) intents) R = Some (Ok plan')
    /\ np_Assignments plan' = np_Assignments plan.
Proof.
  intros (kept & placed & shards & pending & Hok & _ & Hp & Hpl & _ & _ & Hv & Hnd)%plan_log.
  assert (Hall : map fst (kept ++ placed) ≡ₚ intents) by (subst pending; by rewrite map_app). set (f := np_Assignments plan) in *. set (l := map (remember f) intents).
  assert (Hag : agree R l) by (apply remember_agree; by apply (ok_conflict_free R (kept ++ placed) _ shards)).
  assert (Hndl : NoDup (map in_ServiceID l)) by (unfold l; by rewrite remember_ids). assert (Hvl : Forall valid_intent l) by by apply remember_valid.
  assert (Hne : forall i, i ∈ intents -> exists name, f !! in_ServiceID i = Some name /\ name <> "").
  { intros i Hi. rewrite <-Hall in Hi. pose proof Hi as ([j name] & -> & Hj)%list_elem_of_fmap. exists name. destruct Hok as [_ Hl -> _ Hns].
    split; [by apply (log_intent R)|apply (proj1 (Forall_forall _ _) Hns _ Hj)]. }
  unfold planNodeLoadBalancerShardsWithReservations. fold (by_id l). assert (Hperm : by_id l ≡ₚ l) by apply sort_by_perm.
  assert (Hvi : validateIntents (by_id l) ∅ = None) by (apply validateIntents_spec; rewrite Hperm; split_and!; [done|done|set_solver]). rewrite Hvi.
  destruct (keepPersisted (by_id l) R ∅ ∅) as [[f1 s1] p1] eqn:Hk. pose proof (persisted_kept R l f1 s1 p1 Hag Hndl Hk) as Hnone.
  assert (Hfr : fresh [] (by_id l)) by (unfold fresh; cbn; by rewrite Hperm).
  pose proof (keepPersisted_spec R (by_id l) [] ∅ ∅ f1 s1 p1 (ok_start R) Hfr Hk) as (kept1 & Hok1 & Hp1 & He1 & _). cbn [app] in Hok1. rewrite Hperm in Hp1.
  assert (p1 = []) as ->.
  { destruct p1 as [|i p1]; [done|]. apply Forall_cons in Hnone as [Hi _]. assert (i ∈ l) as (j & -> & Hj)%list_elem_of_fmap by (rewrite <-Hp1; set_solver).
    destruct (Hne j Hj) as (name & Hn & Hnn). cbn in Hi. by rewrite Hn in Hi. }
  cbn. eexists. split; [done|]. cbn. rewrite app_nil_r in Hp1. apply map_eq. intros id. apply option_eq. intros name. destruct Hok1 as [_ Hl1 -> _ _].
  rewrite (assigned_lookup R) by done. split.
  - intros (i & Hi & <-). pose proof (proj1 (Forall_forall _ _) He1 _ Hi) as E. cbn in E. subst name.
    assert (i ∈ l) as (j & -> & Hj)%list_elem_of_fmap by (rewrite <-Hp1; apply (list_elem_of_fmap_2 fst _ _ Hi)). cbn. destruct (Hne j Hj) as (name & -> & _). done.
  - intros Hid. pose proof Hok as [_ Hl Ef _ _]. rewrite Ef in Hid. apply (assigned_lookup R) in Hid as (i & Hi & <-); [|done].
    assert (Hil : remember f i ∈ l) by (apply list_elem_of_fmap_2; rewrite <-Hall; apply (list_elem_of_fmap_2 fst _ _ Hi)).
    rewrite <-Hp1 in Hil. apply list_elem_of_fmap in Hil as ([j n] & E & Hj). cbn in E. subst j. exists (remember f i).
    pose proof (proj1 (Forall_forall _ _) He1 _ Hj) as En. cbn in En. split; [|done].
    assert (f !! in_ServiceID i = Some name) as Hfi. { rewrite Ef. apply (log_intent R); [done|apply (list_elem_of_fmap_2 fst _ _ Hi)|done]. }
    rewrite Hfi in En. cbn in En. by subst n.
Qed.

(** C26: when the assignments that the Services carry are free of conflicts, the plan keeps all of them, whatever
    Services are new beside them; and planning again after the assignments were written to the Services returns, at
    once, the same assignments. *)
Theorem shard_plan_stable hash attempts R intents plan :
  planNodeLoadBalancerShardsWithReservations hash attempts intents R = Some (Ok plan) ->
  (conflict_free R intents (persisted intents) -> persisted intents ⊆ np_Assignments plan)
  /\ (forall hash' attempts', exists plan',
        planNodeLoadBalancerShardsWithReservations hash' attempts' (map (remember (np_Assignments plan)) intents) R = Some (Ok plan')
        /\ np_Assignments plan' = np_Assignments plan).
Proof.
  intros H. split; [|intros; by apply (replan R hash attempts)].
  destruct (plan_log _ _ _ _ _ H) as (kept & placed & shards & pending & [_ Hl Hf _ _] & _ & Hp & Hpl & He & (f & s & Hk) & _ & Hnd). intros Hc.
  pose proof (persisted_kept R intents f s pending (persisted_agree R intents Hnd Hc) Hnd Hk) as Hnone.
  apply map_subseteq_spec. intros id name (i & Hi & <- & <- & Hne)%persisted_lookup; [|done]. rewrite Hf. apply (assigned_lookup R); [done|].
  rewrite <-Hp in Hi. apply elem_of_app in Hi as [([j n] & -> & Hj)%list_elem_of_fmap|Hi].
  - exists j. split; [|done]. pose proof (proj1 (Forall_forall _ _) He _ Hj) as E. cbn in E. subst n. apply elem_of_app. by left.
  - by destruct (Hne (proj1 (Forall_forall _ _) Hnone _ Hi)).
Qed.

(** ** A small cluster *)

Module PlannerSample.
Definition port (n : Z) : nodeLoadBalancerPortClaim := Build_nodeLoadBalancerPortClaim "IPv4" "TCP" n.
Definition service (id mode : string) (ports : list Z) (shard : string) : nodeLoadBalancerIntent :=
  Build_nodeLoadBalancerIntent id "default" id mode "default" 1 1 2048 (map port ports) shard.
(** A stand-in for the hash: the text backwards. *)
Fixpoint backwards (acc s : string) : string := match s with EmptyString => acc | String c r => backwards (String c acc) r end.
Definition hash : string -> string := backwards "".

Definition web : nodeLoadBalancerIntent := service "web" nodeLoadBalancerModeShared [80; 443] "inlb-00000001".
Definition dns : nodeLoadBalancerIntent := service "dns" nodeLoadBalancerModeShared [53] "".
Definition api : nodeLoadBalancerIntent := service "api" nodeLoadBalancerModeShared [443] "".
Definition mail : nodeLoadBalancerIntent := service "mail" nodeLoadBalancerModeDedicated [25] "".
Definition cluster : list nodeLoadBalancerIntent := [web; dns; api; mail].
Definition occupied : nodeLoadBalancerPortReservations := {["inlb-00000001" := {[port 80 := "web"; port 443 := "web"]}]}.
Definition cluster_plan : nodeLoadBalancerPlan :=
  match planNodeLoadBalancerShardsWithReservations hash 10 cluster occupied with Some (Ok plan) => plan | _ => Build_nodeLoadBalancerPlan ∅ [] end.

Lemma cluster_planned : planNodeLoadBalancerShardsWithReservations hash 10 cluster occupied = Some (Ok cluster_plan).
Proof. vm_compute. reflexivity. Qed.
Lemma cluster_persisted : conflict_free occupied cluster (persisted cluster).
Proof.
  assert (Hdec : forall i name, i ∈ cluster -> persisted cluster !! in_ServiceID i = Some name -> i = web /\ name = "inlb-00000001").
  { intros i name Hi. repeat (apply elem_of_cons in Hi as [->|Hi]); [| | | |by apply elem_of_nil in Hi]; vm_compute; intros [= <-]; done. }
  split.
  - intros i name Hi H. destruct (Hdec i name Hi H) as [-> ->]. intros p owner Hp. repeat (apply elem_of_cons in Hp as [->|Hp]); [| |by apply elem_of_nil in Hp];
      vm_compute; by intros [= <-].
  - intros i j name Hi Hj Hne H1 H2. destruct (Hdec i name Hi H1) as [-> _], (Hdec j name Hj H2) as [-> _]. done.
Qed.

(** A persisted assignment that a reservation refuses leaves a shard without members in the plan: the entry
    created for it is not removed on that path. *)
Example refused_assignment_abandons_shard :
  let other := service "other" nodeLoadBalancerModeShared [80] "inlb-00000001" in
  option_map (result_map (fun plan => map (fun s => (sh_Name s, sh_Claims s)) (np_Shards plan))) (planNodeLoadBalancerShardsWithReservations hash 10 [other] occupied)
  = Some (Ok [("inlb-00000001", []); ("inlb-rehto/tl", ["other"])]).
Proof. vm_compute. reflexivity. Qed.
End PlannerSample.

Lemma shard_plan_sound_witness :
  dom (np_Assignments PlannerSample.cluster_plan) = list_to_set (map in_ServiceID PlannerSample.cluster)
  /\ np_Assignments PlannerSample.cluster_plan = {["web" := "inlb-00000001"; "dns" := "inlb-00000001"; "api" := "inlb-ipa/tlua"; "mail" := "inlb-liam/det"]}.
Proof.
  split; [|vm_compute; reflexivity].
  apply (shard_plan_sound PlannerSample.hash 10 PlannerSample.occupied PlannerSample.cluster). exact PlannerSample.cluster_planned.
Defined.

Lemma shard_plan_returns_witness : exists plan,
  planNodeLoadBalancerShardsWithReservations PlannerSample.hash 10 PlannerSample.cluster PlannerSample.occupied = Some (Ok plan).
Proof.
  apply shard_plan_returns.
  - do 4 (apply Forall_cons_2; [split_and!; [done|done|reflexivity|(by left) || (by right)]|]). constructor.
  - apply (bool_decide_eq_true_1 _). vm_compute. reflexivity.
  - apply Nat.ltb_lt. vm_compute. reflexivity.
  - do 4 (apply Forall_cons_2;
      [intros seed Hs; repeat (apply elem_of_cons in Hs as [->|Hs]; [apply (bool_decide_eq_true_1 _); vm_compute; reflexivity|]); by apply elem_of_nil in Hs|]).
    constructor.
Defined.

Lemma shard_plan_stable_witness : persisted PlannerSample.cluster ⊆ np_Assignments PlannerSample.cluster_plan
  /\ persisted PlannerSample.cluster = {["web" := "inlb-00000001"]}.
Proof.
  split; [|vm_compute; reflexivity].
  apply (shard_plan_stable PlannerSample.hash 10 PlannerSample.occupied PlannerSample.cluster PlannerSample.cluster_plan PlannerSample.cluster_planned).
  exact PlannerSample.cluster_persisted.
Defined.
