(* ===== verification/ShardFirewall.v ===== *)
(** * The firewall of a load balancer shard (node_loadbalancer_shard_firewall.go of modules/cloud-provider)

    The public policy of a shard, built from the Services that its plan claims, the full replacement request
    that keeps the provider's rule identities, and the ledger that records which policy of which Service was
    applied (written by the same file, read by node_loadbalancer_shard_state.go). *)

From S2P Require Import Prelude GoErrors GoNet GoHTTP ClientErrors ClientResources KubernetesFence NodeFirewall KubeService ShardPlanner.

Definition nodeLoadBalancerShardFirewallDescription : string := "Managed InSpace node load balancer shard firewall".
Definition nodeLoadBalancerFirewallUUIDPattern (s : string) : bool := uuid_any_pattern s.
Definition validNodeLoadBalancerShardFirewallPolicyHash (value : string) : bool := Nat.eqb (String.length value) 64 && isLowerHex value.

Record nodeLoadBalancerShardFirewallMember := { fm_ServiceUID : string; fm_PolicyHash : string }.
Record nodeLoadBalancerShardFirewallPolicy := {
  fp_ClusterID : string; fp_Shard : string; fp_Members : list nodeLoadBalancerShardFirewallMember; fp_Request : CreateFirewallRequest; fp_Hash : string
}.

(** ** Keys and rules *)

Definition nodeLoadBalancerShardFirewallLogicalPortKey (protocol : string) (port : Z) : string := protocol +:+ "/" +:+ FormatInt port.
Definition nodeLoadBalancerShardFirewallRuleLogicalKey (rule : FirewallRule) : string :=
  nodeLoadBalancerShardFirewallLogicalPortKey (fr_Protocol rule) (default 0 (fr_PortStart rule)).

(** The rule that opens one port of a Service to its source ranges. *)
Definition service_rule (sources : list string) (claim : nodeLoadBalancerPortClaim) : FirewallRule :=
  match sources with
  | [] => Build_FirewallRule "" (ToLower (pc_Protocol claim)) "inbound" (Some (pc_Port claim)) (Some (pc_Port claim)) "any" []
  | _ => Build_FirewallRule "" (ToLower (pc_Protocol claim)) "inbound" (Some (pc_Port claim)) (Some (pc_Port claim)) "ip_prefixes" sources
  end.

Record ownedRule := { ow_ServiceUID : string; ow_Rule : FirewallRule }.
Definition owned_le (a b : ownedRule) : bool :=
  if fr_Protocol (ow_Rule a) != fr_Protocol (ow_Rule b) then String.leb (fr_Protocol (ow_Rule a)) (fr_Protocol (ow_Rule b))
  else if negb (default 0 (fr_PortStart (ow_Rule a)) =? default 0 (fr_PortStart (ow_Rule b))) then default 0 (fr_PortStart (ow_Rule a)) <=? default 0 (fr_PortStart (ow_Rule b))
  else String.leb (ow_ServiceUID a) (ow_ServiceUID b).

Section Firewall.
Context (sha256_hex : string -> string) (IsDNS1123Label : string -> bool).

(** ** The checks of a policy *)

Definition retainFirewallRuleUUIDs (current desired : list FirewallRule) : list FirewallRule :=
  let currentRuleUUIDs := foldl (fun m rule => <[nodeLoadBalancerShardFirewallRuleLogicalKey rule := fr_UUID rule]> m) (∅ : gmap string string) current in
  map (fun rule => Build_FirewallRule (default "" (currentRuleUUIDs !! nodeLoadBalancerShardFirewallRuleLogicalKey rule))
                     (fr_Protocol rule) (fr_Direction rule) (fr_PortStart rule) (fr_PortEnd rule) (fr_EndpointSpecType rule) (fr_EndpointSpec rule)) desired.

Fixpoint validateMembers (previous : option string) (members : list nodeLoadBalancerShardFirewallMember) : goerr :=
  match members with
  | [] => None
  | member :: rest =>
      guard! validateNodeLoadBalancerServiceUID IsDNS1123Label (fm_ServiceUID member) in
      if negb (validNodeLoadBalancerShardFirewallPolicyHash (fm_PolicyHash member)) then Some (Msg "node load balancer: shard firewall member policy hash is invalid")
      else if (match previous with Some p => String.leb (fm_ServiceUID member) p | None => false end)
      then Some (Msg "node load balancer: shard firewall policy Service UIDs must be unique and sorted")
      else validateMembers (Some (fm_ServiceUID member)) rest
  end.
Fixpoint strictly_ascending (values : list string) : bool :=
  match values with a :: ((b :: _) as rest) => String.ltb a b && strictly_ascending rest | _ => true end.
Fixpoint validateRules (previous : option FirewallRule) (rules : list FirewallRule) : goerr :=
  match rules with
  | [] => None
  | rule :: rest =>
      if fr_UUID rule != "" then Some (Msg "node load balancer: create shard firewall rules must not contain provider UUIDs")
      else if (match previous with
               | Some p => String.ltb (fr_Protocol rule) (fr_Protocol p)
                           || (fr_Protocol p == fr_Protocol rule) && (default 0 (fr_PortStart rule) <=? default 0 (fr_PortStart p))
               | None => false
               end)
      then Some (Msg "node load balancer: shard firewall policy rules must be unique and sorted by protocol and port")
      else if negb (strictly_ascending (fr_EndpointSpec rule)) then Some (Msg "node load balancer: shard firewall policy source ranges must be unique and sorted")
      else validateRules (Some rule) rest
  end.
Definition validateNodeLoadBalancerShardFirewallPolicy (policy : nodeLoadBalancerShardFirewallPolicy) : goerr :=
  let request := fp_Request policy in
  if (fp_ClusterID policy == "") || (fp_Shard policy == "") || (CreateFW_BillingAccountID request <? 1) || (match fp_Members policy with [] => true | _ => false end)
  then Some (Msg "node load balancer: shard firewall policy identity, billing account, and membership are required")
  else match NodeLoadBalancerShardFirewallName sha256_hex (fp_ClusterID policy) (fp_Shard policy) with
  | Err e => Some (Wrap "node load balancer: shard firewall policy name" [e])
  | Ok name =>
      if (CreateFW_DisplayName request != name) || (CreateFW_Description request != nodeLoadBalancerShardFirewallDescription)
      then Some (Msg "node load balancer: shard firewall policy request identity is not canonical")
      else
      guard! validateMembers None (fp_Members policy) in
      match NodeLoadBalancerShardFirewallSpecHash sha256_hex (CreateFW_Rules request) with
      | Err e => Some (Wrap "node load balancer: shard firewall policy rules" [e])
      | Ok hash =>
          guard! validateRules None (CreateFW_Rules request) in
          if fp_Hash policy != hash then Some (Msg "node load balancer: shard firewall policy hash does not match canonical hash") else None
      end
  end.

(** ** The desired policy *)

Fixpoint collectClaims (shardClaims : list string) (claims : gset string) : result (gset string) :=
  match shardClaims with
  | [] => Ok claims
  | uid :: rest =>
      check! validateNodeLoadBalancerServiceUID IsDNS1123Label uid in
      if bool_decide (uid ∈ claims) then Err (Msg "node load balancer: shard claims Service UID more than once") else collectClaims rest ({[uid]} ∪ claims)
  end.
Fixpoint collectServices (services : list (option Service)) (claims : gset string) (byUID : gmap string Service) : result (gmap string Service) :=
  match services with
  | [] => Ok byUID
  | None :: _ => Err (Msg "node load balancer: shard Service is nil")
  | Some service :: rest =>
      check! validateNodeLoadBalancerServiceUID IsDNS1123Label (sv_UID service) in
      if negb (bool_decide (sv_UID service ∈ claims)) then Err (Msg "node load balancer: shard received unclaimed Service UID")
      else if bool_decide (byUID !! sv_UID service <> None) then Err (Msg "node load balancer: shard received Service UID more than once")
      else collectServices rest claims (<[sv_UID service := service]> byUID)
  end.
Fixpoint collectPlannedPorts (ports : list nodeLoadBalancerPortClaim) (planned : gset nodeLoadBalancerPortClaim) : result (gset nodeLoadBalancerPortClaim) :=
  match ports with
  | [] => Ok planned
  | claim :: rest =>
      if (pc_IPFamily claim != "IPv4") || ((pc_Protocol claim != "TCP") && (pc_Protocol claim != "UDP")) || (pc_Port claim <? 1) || (65535 <? pc_Port claim)
      then Err (Msg "node load balancer: shard has invalid planned port")
      else if bool_decide (claim ∈ planned) then Err (Msg "node load balancer: shard contains duplicate planned port")
      else collectPlannedPorts rest ({[claim]} ∪ planned)
  end.

(** The inner loop over the ports of one Service: owners by logical key. *)
Fixpoint ownPorts (uid : string) (ports : list nodeLoadBalancerPortClaim) (owners : gmap string string) : result (gmap string string) :=
  match ports with
  | [] => Ok owners
  | claim :: rest =>
      let key := nodeLoadBalancerShardFirewallLogicalPortKey (ToLower (pc_Protocol claim)) (pc_Port claim) in
      if (match owners !! key with Some owner => owner != uid | None => false end) then Err (Msg "node load balancer: shard public port is owned by two Service UIDs")
      else ownPorts uid rest (<[key := uid]> owners)
  end.
Definition service_policy (service : Service) : result (list string * list nodeLoadBalancerPortClaim) :=
  try! sources := canonicalNodeLoadBalancerSourceRanges (ss_LoadBalancerSourceRanges (sv_Spec service)) in
  try! ports := nodeLoadBalancerPortClaims service in
  Ok (sources, ports).
Definition desiredNodeLoadBalancerServicePolicyHash (service : Service) : result string :=
  try! policy := service_policy service in
  NodeLoadBalancerShardFirewallSpecHash sha256_hex (map (service_rule policy.1) policy.2).

Record collected := { co_Rules : list ownedRule; co_Owners : gmap string string; co_Observed : gset nodeLoadBalancerPortClaim; co_Members : list nodeLoadBalancerShardFirewallMember }.
Fixpoint collectRules (serviceUIDs : list string) (byUID : gmap string Service) (c : collected) : result collected :=
  match serviceUIDs with
  | [] => Ok c
  | uid :: rest =>
      match byUID !! uid with
      | None => Err (Msg "nil pointer dereference")  (* every claimed UID has its Service here *)
      | Some service =>
          try! policy := service_policy service in
          try! owners := ownPorts uid policy.2 (co_Owners c) in
          let rules := map (service_rule policy.1) policy.2 in
          try! hash := NodeLoadBalancerShardFirewallSpecHash sha256_hex rules in
          collectRules rest byUID
            (Build_collected (co_Rules c ++ map (Build_ownedRule uid) rules) owners (co_Observed c ∪ list_to_set policy.2)
               (co_Members c ++ [Build_nodeLoadBalancerShardFirewallMember uid hash]))
      end
  end.

Definition desiredNodeLoadBalancerShardFirewall (clusterID : string) (billingAccountID : Z) (shard : nodeLoadBalancerShardPlan) (services : list (option Service))
    : result nodeLoadBalancerShardFirewallPolicy :=
  if (clusterID == "") || (billingAccountID <? 1) then Err (Msg "node load balancer: cluster identity and billing account are required for the shard firewall")
  else
  try! name := NodeLoadBalancerShardFirewallName sha256_hex clusterID (sh_Name shard) in
  try! claims := collectClaims (sh_Claims shard) ∅ in
  if Nat.eqb (size claims) 0 then Err (Msg "node load balancer: shard has no Service claims")
  else
  let serviceUIDs := sort_strings (sh_Claims shard) in
  try! byUID := collectServices services claims ∅ in
  if negb (Nat.eqb (size byUID) (size claims)) then Err (Msg "node load balancer: shard is missing claimed Service UIDs")
  else
  try! planned := collectPlannedPorts (sh_Ports shard) ∅ in
  try! c := collectRules serviceUIDs byUID (Build_collected [] ∅ ∅ []) in
  if negb (Nat.eqb (size (co_Observed c)) (size planned)) then Err (Msg "node load balancer: shard observed another number of Service ports than its plan contains")
  else if negb (bool_decide (planned ⊆ co_Observed c)) then Err (Msg "node load balancer: shard planned port has no exact Service owner")
  else if negb (bool_decide (co_Observed c ⊆ planned)) then Err (Msg "node load balancer: shard Service-owned port is absent from the plan")
  else
  let rules := map ow_Rule (sort_by owned_le (co_Rules c)) in
  try! hash := NodeLoadBalancerShardFirewallSpecHash sha256_hex rules in
  let policy := Build_nodeLoadBalancerShardFirewallPolicy clusterID (sh_Name shard) (co_Members c)
                  (Build_CreateFirewallRequest name nodeLoadBalancerShardFirewallDescription billingAccountID rules) hash in
  check! validateNodeLoadBalancerShardFirewallPolicy policy in
  Ok policy.

(** ** Replacing the rules of a firewall *)

Fixpoint validateRuleUUIDs (rules : list FirewallRule) (seen : gset string) : goerr :=
  match rules with
  | [] => None
  | rule :: rest =>
      if negb (nodeLoadBalancerFirewallUUIDPattern (fr_UUID rule)) then Some (Msg "node load balancer: current shard firewall rule UUID is invalid")
      else if bool_decide (ToLower (fr_UUID rule) ∈ seen) then Some (Msg "node load balancer: current shard firewall reuses rule UUID")
      else validateRuleUUIDs rest ({[ToLower (fr_UUID rule)]} ∪ seen)
  end.
Definition nodeLoadBalancerShardFirewallUpdateRequest (current : Firewall) (desired : nodeLoadBalancerShardFirewallPolicy) : result UpdateFirewallRequest :=
  check! validateNodeLoadBalancerShardFirewallPolicy desired in
  if negb (nodeLoadBalancerFirewallUUIDPattern (fw_UUID current)) then Err (Msg "node load balancer: current shard firewall UUID is invalid")
  else if (fw_Name current != "") && (fw_DisplayName current != "") && (fw_Name current != fw_DisplayName current)
  then Err (Msg "node load balancer: current shard firewall has conflicting name fields")
  else if (fw_Description current != "") && (fw_Description current != CreateFW_Description (fp_Request desired))
  then Err (Msg "node load balancer: current shard firewall description does not match the managed description")
  else
  try! currentHash := NodeLoadBalancerShardFirewallSpecHash sha256_hex (fw_Rules current) in
  check! ValidateNodeLoadBalancerShardFirewall sha256_hex current (fp_ClusterID desired) (fp_Shard desired) (CreateFW_BillingAccountID (fp_Request desired)) currentHash in
  check! validateRuleUUIDs (fw_Rules current) ∅ in
  Ok (Build_UpdateFirewallRequest (CreateFW_DisplayName (fp_Request desired)) (CreateFW_Description (fp_Request desired))
        (retainFirewallRuleUUIDs (fw_Rules current) (CreateFW_Rules (fp_Request desired)))).

(** ** The ledger *)

Definition ledger_entry (member : nodeLoadBalancerShardFirewallMember) : string := fm_ServiceUID member +:+ "=" +:+ fm_PolicyHash member.
Definition nodeLoadBalancerShardFirewallPolicyLedger (policy : nodeLoadBalancerShardFirewallPolicy) : result string :=
  check! validateNodeLoadBalancerShardFirewallPolicy policy in Ok (join_with "," (map ledger_entry (fp_Members policy))).

Fixpoint parseEntries (entries : list string) (previous : string) (members : gmap string string) : result (gmap string string) :=
  match entries with
  | [] => Ok members
  | entry :: rest =>
      match SplitChar "=" entry with
      | [uid; hash] =>
          if (match validateNodeLoadBalancerServiceUID IsDNS1123Label uid with Some _ => true | None => false end)
             || negb (validNodeLoadBalancerShardFirewallPolicyHash hash)
          then Err (Msg "node load balancer: invalid shard firewall ledger")
          else if (previous != "") && String.leb entry previous then Err (Msg "node load balancer: shard firewall ledger is not strictly sorted")
          else parseEntries rest entry (<[uid := hash]> members)
      | _ => Err (Msg "node load balancer: invalid shard firewall ledger")
      end
  end.
Definition parseNodeLoadBalancerShardFirewallLedger (encoded : string) : result (gmap string string) :=
  if encoded == "" then Err (Msg "node load balancer: shard firewall ledger is empty") else parseEntries (SplitChar "," encoded) "" ∅.

(** [covers] of the firewall state: the applied ledger records the Service's present policy. *)
Definition covers (appliedLedger : string) (service : Service) : bool :=
  if appliedLedger == "" then false
  else match desiredNodeLoadBalancerServicePolicyHash service, parseNodeLoadBalancerShardFirewallLedger appliedLedger with
  | Ok desired, Ok members => default "" (members !! sv_UID service) == desired
  | _, _ => false
  end.
End Firewall.
