(* ===== verification/ShardFirewallSpec.v ===== *)
(** * What the shard firewall promises

    The desired policy opens exactly the ports of the claimed Services, each to the sources of its own Service;
    a replacement keeps the provider's identity of every surviving port; the ledger reads back as the members. *)

From stdpp Require Import sorting.
From S2P Require Import Prelude GoErrors GoNet GoURL GoHTTP ClientErrors ClientRoutes ClientResources KubernetesFence NodeFirewall NodeFirewallSpec KubeService ShardPlanner ShardPlannerSpec ShardFirewall.

(** ** Owners of ports *)

Definition port_key (claim : nodeLoadBalancerPortClaim) : string := nodeLoadBalancerShardFirewallLogicalPortKey (ToLower (pc_Protocol claim)) (pc_Port claim).

Lemma ownPorts_spec uid ports : forall owners owners', ownPorts uid ports owners = Ok owners' ->
  (forall p o, p ∈ ports -> owners !! port_key p = Some o -> o = uid)
  /\ (forall p, p ∈ ports -> owners' !! port_key p = Some uid)
  /\ (forall k, k ∉ map port_key ports -> owners' !! k = owners !! k).
Proof.
  induction ports as [|claim rest IH]; intros owners owners'; cbn [ownPorts].
  { intros [= <-]. split_and!; [by intros ? ? ?%elem_of_nil|by intros ? ?%elem_of_nil|done]. }
  fold (port_key claim). destruct (match owners !! port_key claim with Some _ => _ | None => _ end) eqn:E; [done|]. intros H.
  destruct (IH _ _ H) as (H1 & H2 & H3). cbn [map]. split_and!.
  - intros p o [->|Hp]%elem_of_cons Ho; [rewrite Ho in E; by apply negb_false_iff, bool_decide_eq_true in E|].
    destruct (decide (port_key claim = port_key p)) as [Ek|Ek]; [rewrite <-Ek in Ho; rewrite Ho in E; by apply negb_false_iff, bool_decide_eq_true in E|].
    apply (H1 p); [done|]. by rewrite lookup_insert_ne.
  - intros p [->|Hp]%elem_of_cons; [|by apply H2]. destruct (decide (port_key claim ∈ map port_key rest)) as [(q & -> & Hq)%list_elem_of_fmap|Hn]; [by apply H2|].
    by rewrite H3, lookup_insert_eq.
  - intros k Hk. apply not_elem_of_cons in Hk as [Hne Hk]. by rewrite H3, lookup_insert_ne.
Qed.

(** ** Services *)

Lemma collectClaims_spec IsDNS l : forall seen out, collectClaims IsDNS l seen = Ok out -> out = list_to_set l ∪ seen /\ NoDup l /\ forall x, x ∈ l -> x ∉ seen.
Proof.
  induction l as [|uid l IH]; intros seen out; cbn [collectClaims]; [intros [= <-]; split_and!; [set_solver|constructor|by intros ? ?%elem_of_nil]|].
  destruct (validateNodeLoadBalancerServiceUID _ _); [done|]. destruct (bool_decide_reflect (uid ∈ seen)); [done|]. intros (-> & Hd & Hs)%IH.
  split_and!; [set_solver|constructor; [intros Hin; by apply (Hs _ Hin), elem_of_union_l, elem_of_singleton|done]|].
  intros x [->|Hx]%elem_of_cons; [done|]. specialize (Hs x Hx). set_solver.
Qed.

(** The Services by identity: the map is a faithful index of the slice. *)
Lemma collectServices_spec IsDNS claims services : forall byUID out, collectServices IsDNS services claims byUID = Ok out ->
  exists l, services = map Some l /\ NoDup (map sv_UID l) /\ (forall s, s ∈ l -> byUID !! sv_UID s = None /\ sv_UID s ∈ claims)
    /\ (size out = size byUID + List.length l)%nat /\ (forall uid s, out !! uid = Some s <-> byUID !! uid = Some s \/ (s ∈ l /\ sv_UID s = uid)).
Proof.
  induction services as [|[service|] rest IH]; intros byUID out; cbn [collectServices]; [|..|done].
  { intros [= <-]. exists []. split_and!; [done|constructor|by intros ? ?%elem_of_nil|cbn; lia|]. intros uid s. rewrite elem_of_nil. tauto. }
  destruct (validateNodeLoadBalancerServiceUID _ _); [done|]. destruct (bool_decide_reflect (sv_UID service ∈ claims)) as [Hc|]; [|done]. cbn [negb].
  destruct (bool_decide_reflect (byUID !! sv_UID service <> None)) as [|Hn]; [done|]. apply dec_stable in Hn. intros H.
  destruct (IH _ _ H) as (l & -> & Hd & Hl & Hz & Ho). exists (service :: l).
  assert (Hnew : forall s, s ∈ l -> sv_UID s <> sv_UID service) by (intros s Hs E; apply Hl in Hs as [Hs _]; rewrite E, lookup_insert_eq in Hs; done).
  split_and!.
  - done.
  - cbn [map]. constructor; [|done]. intros (s & E & Hs)%list_elem_of_fmap. by apply (Hnew s).
  - intros s [->|Hs]%elem_of_cons; [done|]. destruct (Hl s Hs) as [Hi ?]. rewrite lookup_insert_ne in Hi by (by apply not_eq_sym, Hnew). done.
  - rewrite Hz, map_size_insert_None by done. cbn [List.length]. lia.
  - intros uid s. rewrite Ho, lookup_insert_Some, elem_of_cons. split.
    + intros [[[<- <-]|[_ ?]]|[? <-]]; auto.
    + intros [Hb|[[->|Hs] <-]]; [left; right; split; [|done]; intros <-; congruence|left; by left|by right].
Qed.

(** ** The rules of the policy *)

Definition rules_of (service : Service) : list FirewallRule := match service_policy service with Ok p => map (service_rule p.1) p.2 | Err _ => [] end.
Definition ports_of (service : Service) : list nodeLoadBalancerPortClaim := match service_policy service with Ok p => p.2 | Err _ => [] end.

Section Policy.
Context (sha256_hex : string -> string) (IsDNS1123Label : string -> bool).

Definition member_of (service : Service) (m : nodeLoadBalancerShardFirewallMember) : Prop :=
  fm_ServiceUID m = sv_UID service /\ desiredNodeLoadBalancerServicePolicyHash sha256_hex service = Ok (fm_PolicyHash m).

(** The state of the loop after the Services [l]. *)
Record gathered (l : list Service) (c : collected) : Prop := {
  ga_rules : map ow_Rule (co_Rules c) = List.concat (map rules_of l);
  ga_owner : forall s p, s ∈ l -> p ∈ ports_of s -> co_Owners c !! port_key p = Some (sv_UID s);
  ga_observed : forall p, p ∈ co_Observed c <-> exists s, s ∈ l /\ p ∈ ports_of s;
  ga_members : Forall2 member_of l (co_Members c);
  ga_disjoint : forall s t p, s ∈ l -> t ∈ l -> p ∈ ports_of s -> p ∈ ports_of t -> sv_UID s = sv_UID t
}.

Lemma gathered_step l c s pol owners hash : gathered l c -> (forall t, t ∈ l -> sv_UID t <> sv_UID s) -> service_policy s = Ok pol ->
  ownPorts (sv_UID s) pol.2 (co_Owners c) = Ok owners -> NodeLoadBalancerShardFirewallSpecHash sha256_hex (map (service_rule pol.1) pol.2) = Ok hash ->
  gathered (l ++ [s]) (Build_collected (co_Rules c ++ map (Build_ownedRule (sv_UID s)) (map (service_rule pol.1) pol.2)) owners (co_Observed c ∪ list_to_set pol.2)
               (co_Members c ++ [Build_nodeLoadBalancerShardFirewallMember (sv_UID s) hash])).
Proof.
  intros [Hr Ho Hob Hm Hd] Hnew Hp Hown Hh. destruct (ownPorts_spec _ _ _ _ Hown) as (H1 & H2 & H3).
  assert (Eports : ports_of s = pol.2) by (unfold ports_of; by rewrite Hp). assert (Erules : rules_of s = map (service_rule pol.1) pol.2) by (unfold rules_of; by rewrite Hp).
  assert (Hcross : forall t p, t ∈ l -> p ∈ ports_of t -> p ∈ ports_of s -> False).
  { intros t p Ht Hpt Hps. rewrite Eports in Hps. by apply (Hnew t Ht), (H1 p), Ho. }
  split; cbn.
  - rewrite !map_app, Hr, concat_app. cbn. rewrite app_nil_r, Erules. f_equal. rewrite !map_map. by apply map_ext.
  - intros t p [Ht| ->%list_elem_of_singleton]%elem_of_app Hpt; [|rewrite Eports in Hpt; by apply H2].
    destruct (decide (port_key p ∈ map port_key pol.2)) as [(q & Ek & Hq)%list_elem_of_fmap|Hn]; [|by rewrite H3, (Ho t)].
    exfalso. apply (Hnew t Ht), (H1 q); [done|]. rewrite <-Ek. by apply Ho.
  - intros p. rewrite elem_of_union, elem_of_list_to_set, Hob. setoid_rewrite elem_of_app. setoid_rewrite list_elem_of_singleton. rewrite <-Eports. naive_solver.
  - apply Forall2_app; [done|]. constructor; [|done]. split; [done|]. unfold desiredNodeLoadBalancerServicePolicyHash. by rewrite Hp.
  - intros t u p [Ht| ->%list_elem_of_singleton]%elem_of_app [Hu| ->%list_elem_of_singleton]%elem_of_app Hpt Hpu; [by apply (Hd t u p)|..|done]; exfalso; by eapply Hcross.
Qed.

Lemma collectRules_spec byUID uids : forall l c out, gathered l c -> NoDup (map sv_UID l ++ uids) -> (forall uid s, byUID !! uid = Some s -> sv_UID s = uid) ->
  collectRules sha256_hex uids byUID c = Ok out ->
  exists l', map sv_UID l' = uids /\ (forall s, s ∈ l' -> byUID !! sv_UID s = Some s) /\ gathered (l ++ l') out.
Proof.
  induction uids as [|uid rest IH]; intros l c out Hg Hnd Hby; cbn [collectRules].
  { intros [= <-]. exists []. split_and!; [done|by intros ? ?%elem_of_nil|by rewrite app_nil_r]. }
  destruct (byUID !! uid) as [s|] eqn:Hs; [|done]. pose proof (Hby _ _ Hs) as <-. destruct (service_policy s) as [pol|] eqn:Hp; [|done].
  destruct (ownPorts _ _ _) as [owners|] eqn:Hown; [|done]. destruct (NodeLoadBalancerShardFirewallSpecHash _ _) as [hash|] eqn:Hh; [|done]. intros H.
  assert (Hnew : forall t, t ∈ l -> sv_UID t <> sv_UID s).
  { intros t Ht E. apply NoDup_app in Hnd as (_ & Hx & _). apply (Hx (sv_UID t)); [by apply (list_elem_of_fmap_2 sv_UID)|rewrite E; apply elem_of_cons; by left]. }
  destruct (IH (l ++ [s]) _ out (gathered_step _ _ _ _ _ _ Hg Hnew Hp Hown Hh)) as (l' & <- & Hl' & Hg'); [|done|exact H|].
  - rewrite map_app, <-app_assoc. done.
  - exists (s :: l'). rewrite <-app_assoc in Hg'. split_and!; [done| |done]. intros t [->|Ht]%elem_of_cons; auto.
Qed.

Lemma gathered_start : gathered [] (Build_collected [] ∅ ∅ []).
Proof. split; cbn; [done|by intros ? ? ?%elem_of_nil| |constructor|by intros ? ? ? ?%elem_of_nil]. intros p. split; [by intros ?%elem_of_empty|by intros (? & ?%elem_of_nil & _)]. Qed.

Lemma collectPlannedPorts_spec l : forall seen out, collectPlannedPorts l seen = Ok out -> forall p, p ∈ out <-> p ∈ l \/ p ∈ seen.
Proof.
  induction l as [|c l IH]; intros seen out; cbn [collectPlannedPorts]; [intros [= <-] p; rewrite elem_of_nil; tauto|].
  destruct (_ || _); [done|]. destruct (bool_decide _); [done|]. intros H p. rewrite (IH _ _ H), elem_of_cons, elem_of_union, elem_of_singleton. tauto.
Qed.

(** The policy of a shard, in terms of its Services. *)
Record policy_of (shard : nodeLoadBalancerShardPlan) (l : list Service) (policy : nodeLoadBalancerShardFirewallPolicy) : Prop := {
  po_uids : map sv_UID l = sort_strings (sh_Claims shard);
  po_rules : CreateFW_Rules (fp_Request policy) ≡ₚ List.concat (map rules_of l);
  po_members : Forall2 member_of l (fp_Members policy);
  po_ports : forall p, p ∈ sh_Ports shard <-> exists s, s ∈ l /\ p ∈ ports_of s;
  po_disjoint : forall s t p, s ∈ l -> t ∈ l -> p ∈ ports_of s -> p ∈ ports_of t -> s = t;
  po_valid : validateNodeLoadBalancerShardFirewallPolicy sha256_hex IsDNS1123Label policy = None
}.

Lemma indexed_perm (byUID : gmap string Service) (l l' : list Service) (claims : list string) : NoDup (map sv_UID l) -> (forall uid s, byUID !! uid = Some s <-> s ∈ l /\ sv_UID s = uid) ->
  size byUID = List.length l -> map sv_UID l' ≡ₚ claims -> NoDup claims -> (forall s, s ∈ l' -> byUID !! sv_UID s = Some s) -> size byUID = List.length claims -> l' ≡ₚ l.
Proof.
  intros Hd Hby Hz Hu Hnd Hin Hc. assert (Hd' : NoDup l') by (apply (NoDup_fmap_1 sv_UID); by rewrite Hu).
  apply submseteq_length_Permutation.
  - apply NoDup_submseteq; [done|]. intros s Hs%Hin. apply Hby in Hs. apply Hs.
  - apply Permutation_length in Hu. rewrite length_map in Hu. lia.
Qed.

Lemma desired_policy clusterID account shard services policy :
  desiredNodeLoadBalancerShardFirewall sha256_hex IsDNS1123Label clusterID account shard services = Ok policy ->
  exists l, services ≡ₚ map Some l /\ policy_of shard l policy.
Proof.
  unfold desiredNodeLoadBalancerShardFirewall. destruct (_ || _); [done|]. destruct (NodeLoadBalancerShardFirewallName _ _ _) as [name|]; [|done].
  destruct (collectClaims _ _ _) as [claims|] eqn:Hc; [|done]. destruct (Nat.eqb _ 0); [done|]. destruct (collectServices _ _ _ _) as [byUID|] eqn:Hs; [|done].
  destruct (Nat.eqb_spec (size byUID) (size claims)) as [Hz|]; [|done]. cbn [negb]. destruct (collectPlannedPorts _ _) as [planned|] eqn:Hpl; [|done].
  destruct (collectRules _ _ _ _) as [c|] eqn:Hr; [|done]. destruct (negb (Nat.eqb _ _)); [done|].
  destruct (bool_decide_reflect (planned ⊆ co_Observed c)) as [H1|]; [|done]. destruct (bool_decide_reflect (co_Observed c ⊆ planned)) as [H2|]; [|done]. cbn [negb].
  destruct (NodeLoadBalancerShardFirewallSpecHash _ _) as [hash|]; [|done]. destruct (validateNodeLoadBalancerShardFirewallPolicy _ _ _) eqn:Hv; [done|]. intros [= <-].
  apply collectClaims_spec in Hc as (-> & Hnd & _). destruct (collectServices_spec _ _ _ _ _ Hs) as (l & -> & Hd & _ & Hsz & Hby).
  assert (Hby' : forall uid s, byUID !! uid = Some s <-> s ∈ l /\ sv_UID s = uid) by (intros uid s; rewrite Hby, lookup_empty; naive_solver).
  destruct (collectRules_spec byUID (sort_strings (sh_Claims shard)) [] _ c gathered_start) as (l' & Hu & Hin & Hg); [cbn; by rewrite sort_strings_perm|naive_solver|exact Hr|].
  cbn [app] in Hg. rewrite map_size_empty in Hsz. rewrite right_id_L in Hz by apply _. rewrite size_list_to_set in Hz by done.
  assert (Hperm : l' ≡ₚ l) by (apply (indexed_perm byUID l l' (sh_Claims shard)); [done|done|done|by rewrite Hu, sort_strings_perm|done|done|done]).
  exists l'. split; [by rewrite Hperm|]. destruct Hg as [Gr Go Gob Gm Gd]. split; [done|..]; cbn.
  - by rewrite <-Gr, sort_by_perm.
  - done.
  - intros p. rewrite <-Gob. pose proof (collectPlannedPorts_spec _ _ _ Hpl p) as Hp.
    split; [intros ?; apply H1, Hp; by left|]. by intros [?|?%elem_of_empty]%H2%Hp.
  - intros s t p Hs' Ht Hps Hpt. pose proof (Hin s Hs') as E1. rewrite (Gd s t p), (Hin t Ht) in E1 by done. by injection E1.
  - done.
Qed.
End Policy.

(** ** The ledger *)

Lemma compare_append a : forall b x y, String.length a = String.length b ->
  String.compare (a +:+ x) (b +:+ y) = match String.compare a b with Eq => String.compare x y | c => c end.
Proof.
  induction a as [|c a IH]; intros [|d b] x y; try done. rewrite !append_cons. cbn [String.length String.compare]. intros [= Hl].
  destruct (Ascii.compare c d); [by apply IH|done|done].
Qed.
Lemma leb_ltb a b : String.leb a b = false <-> String.compare b a = Lt.
Proof. unfold String.leb. rewrite (String.compare_antisym a b). destruct (String.compare b a); cbn; done. Qed.

Section Ledger.
Context (sha256_hex : string -> string) (IsDNS1123Label : string -> bool).
Hypothesis dns_label : forall s, IsDNS1123Label s = true -> all_chars (fun c => is_alnum_lower c || is_dash c) s = true.

Definition good_member (m : nodeLoadBalancerShardFirewallMember) : Prop :=
  validateNodeLoadBalancerServiceUID IsDNS1123Label (fm_ServiceUID m) = None /\ validNodeLoadBalancerShardFirewallPolicyHash (fm_PolicyHash m) = true.
Lemma good_member_text m ch : good_member m -> (ch = "=" \/ ch = ",")%char -> ContainsChar ch (fm_ServiceUID m) = false /\ ContainsChar ch (fm_PolicyHash m) = false.
Proof.
  intros [Hu Hh] Hc. unfold validateNodeLoadBalancerServiceUID in Hu. destruct (_ || _); [done|]. destruct (IsDNS1123Label _) eqn:Hd; [|done].
  unfold validNodeLoadBalancerShardFirewallPolicyHash, isLowerHex in Hh. rewrite !andb_true_iff in Hh. destruct Hh as (_ & Hh & _).
  split; [apply (all_chars_ContainsChar (fun c => is_alnum_lower c || is_dash c)); [by apply dns_label|]|apply (all_chars_ContainsChar is_hex_lower); [done|]]; by destruct Hc as [-> | ->].
Qed.
Lemma good_entry m : good_member m -> SplitChar "=" (ledger_entry m) = [fm_ServiceUID m; fm_PolicyHash m].
Proof.
  intros Hg. destruct (good_member_text m "=" Hg) as [Hu Hh]; [by left|]. unfold ledger_entry. change ("=" +:+ fm_PolicyHash m) with (String "=" (fm_PolicyHash m)).
  by rewrite SplitChar_app, SplitChar_one.
Qed.

(** Members in the order of the policy. *)
Definition member_below (p m : nodeLoadBalancerShardFirewallMember) : Prop := String.compare (fm_ServiceUID p) (fm_ServiceUID m) = Lt.
Lemma validateMembers_spec l : forall previous, validateMembers IsDNS1123Label previous l = None ->
  Forall good_member l /\ Sorted member_below l /\ (forall p m, previous = Some p -> head l = Some m -> String.compare p (fm_ServiceUID m) = Lt).
Proof.
  induction l as [|m l IH]; intros previous; cbn [validateMembers]; [done|]. destruct (validateNodeLoadBalancerServiceUID _ _) eqn:Hu; [done|].
  destruct (validNodeLoadBalancerShardFirewallPolicyHash _) eqn:Hh; [|done]. cbn [negb]. destruct (match previous with Some _ => _ | None => _ end) eqn:Hp; [done|].
  intros (Hg & Hs & Hhd)%IH. split_and!.
  - by constructor.
  - constructor; [done|]. destruct l as [|n l]; constructor. by apply (Hhd (fm_ServiceUID m)).
  - intros p m' -> [= <-]. by apply leb_ltb.
Qed.

Definition same_length (l : list nodeLoadBalancerShardFirewallMember) : Prop := forall m n, m ∈ l -> n ∈ l -> String.length (fm_ServiceUID m) = String.length (fm_ServiceUID n).
Lemma parse_entries l : Forall good_member l -> Sorted member_below l -> same_length l -> forall previous acc,
  (forall m, head l = Some m -> previous = "" \/ String.compare previous (ledger_entry m) = Lt) ->
  parseEntries IsDNS1123Label (map ledger_entry l) previous acc = Ok (foldl (fun acc m => <[fm_ServiceUID m := fm_PolicyHash m]> acc) acc l).
Proof.
  induction 1 as [|m l Hg Hl IH]; intros Hs Hlen previous acc Hp; cbn [map parseEntries foldl]; [done|]. rewrite (good_entry m Hg). destruct Hg as [Hu Hh]. rewrite Hu, Hh. cbn [negb orb].
  destruct ((previous != "") && String.leb (ledger_entry m) previous) eqn:E.
  { apply andb_true_iff in E as [E1 E2]. destruct (Hp m eq_refl) as [-> |Hlt]; [done|]. by apply leb_ltb in Hlt; rewrite Hlt in E2. }
  apply Sorted_inv in Hs as [Hs Hhd]. apply IH; [done|intros a b Ha Hb; apply Hlen; apply elem_of_cons; by right|].
  intros n Hn. right. destruct l as [|n' l]; [done|]. injection Hn as ->. apply HdRel_inv in Hhd. unfold ledger_entry.
  rewrite compare_append by (apply Hlen; rewrite !elem_of_cons; auto). by rewrite Hhd.
Qed.
Lemma below_nodup l : Sorted member_below l -> NoDup (map fm_ServiceUID l).
Proof.
  intros Hs. apply Sorted_StronglySorted in Hs; [|intros a b c; apply compare_lt_trans]. induction Hs as [|m l Hl IH Hm]; [constructor|]. cbn [map]. constructor; [|done].
  intros (n & E & Hn)%list_elem_of_fmap. rewrite Forall_forall in Hm. specialize (Hm n Hn). unfold member_below in Hm. rewrite <-E in Hm.
  apply leb_ltb in Hm. destruct (String.leb_total (fm_ServiceUID m) (fm_ServiceUID m)); congruence.
Qed.
Lemma fold_members l : forall acc uid h, NoDup (map fm_ServiceUID l) ->
  foldl (fun acc m => <[fm_ServiceUID m := fm_PolicyHash m]> acc) acc l !! uid = Some h <->
  (exists m, m ∈ l /\ fm_ServiceUID m = uid /\ fm_PolicyHash m = h) \/ (uid ∉ map fm_ServiceUID l /\ (acc : gmap string string) !! uid = Some h).
Proof.
  induction l as [|m l IH]; intros acc uid h; cbn [foldl map]; [intros _; split; [right; by split; [intros ?%elem_of_nil|]|by intros [(? & ?%elem_of_nil & _)|[_ ?]]]|].
  intros [Hm Hd]%NoDup_cons. rewrite IH, lookup_insert_Some, not_elem_of_cons by done. setoid_rewrite elem_of_cons. split.
  - intros [(n & ? & ? & ?)|[Hn [[<- <-]|[? ?]]]]; [left; eauto|left; eauto|by right].
  - intros [(n & [->|Hn] & <- & <-)|[[? ?] ?]]; [right; split; [done|by left]|left; eauto|right; auto].
Qed.

(** The members that a ledger records. *)
Definition records (members : gmap string string) (l : list nodeLoadBalancerShardFirewallMember) : Prop :=
  forall uid h, members !! uid = Some h <-> exists m, m ∈ l /\ fm_ServiceUID m = uid /\ fm_PolicyHash m = h.

Lemma valid_policy_members policy : validateNodeLoadBalancerShardFirewallPolicy sha256_hex IsDNS1123Label policy = None ->
  fp_Members policy <> [] /\ validateMembers IsDNS1123Label None (fp_Members policy) = None.
Proof.
  unfold validateNodeLoadBalancerShardFirewallPolicy. destruct (fp_Members policy) as [|m l]; [by rewrite orb_true_r|]. rewrite orb_false_r.
  repeat (destruct (_ || _); [done|]). destruct (NodeLoadBalancerShardFirewallName _ _ _); [|done]. repeat (destruct (_ || _); [done|]).
  by destruct (validateMembers _ _ _).
Qed.

Lemma ledger_parses policy ledger : nodeLoadBalancerShardFirewallPolicyLedger sha256_hex IsDNS1123Label policy = Ok ledger -> same_length (fp_Members policy) ->
  exists members, parseNodeLoadBalancerShardFirewallLedger IsDNS1123Label ledger = Ok members /\ records members (fp_Members policy).
Proof.
  unfold nodeLoadBalancerShardFirewallPolicyLedger. destruct (validateNodeLoadBalancerShardFirewallPolicy _ _ _) eqn:Hv; [done|]. intros [= <-] Hlen.
  apply valid_policy_members in Hv as (Hne & Hm). apply validateMembers_spec in Hm as (Hg & Hs & _).
  assert (Hfree : Forall (fun s => ContainsChar "," s = false) (map ledger_entry (fp_Members policy))).
  { apply Forall_fmap. eapply Forall_impl; [exact Hg|]. intros m Hgm. destruct (good_member_text m "," Hgm) as [Hu Hh]; [by right|].
    unfold compose, ledger_entry. by rewrite !ContainsChar_app, Hu, Hh. }
  assert (Hmne : map ledger_entry (fp_Members policy) <> []) by (intros E; apply map_eq_nil in E; done).
  unfold parseNodeLoadBalancerShardFirewallLedger. rewrite (join_with_char ","). destruct (bool_decide_reflect (join_char "," (map ledger_entry (fp_Members policy)) = "")) as [E|_].
  { exfalso. apply Hmne. apply (f_equal (SplitChar ",")) in E. rewrite split_join in E by done. destruct (fp_Members policy) as [|m l]; [done|]. cbn [map] in E.
    apply Forall_cons in Hg as [Hgm _]. injection E as Em _. pose proof (good_entry m Hgm) as Hsp. by rewrite Em in Hsp. }
  rewrite split_join by done. rewrite parse_entries by (try done; intros; by left). eexists. split; [done|].
  intros uid h. rewrite fold_members by (by apply below_nodup). rewrite lookup_empty. split; [by intros [?|[_ ?]]|by left].
Qed.
End Ledger.

(** ** Replacing rules *)

Definition same_port (r d : FirewallRule) : Prop := fr_Protocol r = fr_Protocol d /\ fr_PortStart r = fr_PortStart d.
Lemma admitted_start r : admitted r -> exists p, fr_PortStart r = Some p /\ rule_port r = Some p /\ 1 <= p <= 65535.
Proof.
  intros [_ (p & Hp & Hr) _ _ _]. exists p. split_and!; try done; try lia. unfold rule_port in Hp.
  destruct (fr_PortStart r) as [a|], (fr_PortEnd r) as [b|]; try done. destruct (_ || _); by simplify_eq.
Qed.
Lemma append_inj a x y : a +:+ x = a +:+ y -> x = y.
Proof. induction a as [|c a IH]; [done|]. rewrite !append_cons. intros [= H]. by apply IH. Qed.
Lemma logical_key_inj r d : admitted r -> admitted d -> nodeLoadBalancerShardFirewallRuleLogicalKey r = nodeLoadBalancerShardFirewallRuleLogicalKey d <-> same_port r d.
Proof.
  intros Hr Hd. destruct (admitted_start r Hr) as (p & Ep & _ & Bp), (admitted_start d Hd) as (q & Eq' & _ & Bq).
  unfold nodeLoadBalancerShardFirewallRuleLogicalKey, nodeLoadBalancerShardFirewallLogicalPortKey, same_port. rewrite Ep, Eq'. cbn [default id]. split; [|by intros [-> [= ->]]].
  intros H. assert (fr_Protocol r = fr_Protocol d /\ FormatInt p = FormatInt q) as [-> Ef].
  { destruct (ad_protocol _ Hr) as [E1|E1], (ad_protocol _ Hd) as [E2|E2]; rewrite E1, E2 in *; [|done|done|]; split; try done;
      [apply (append_inj "tcp/")|apply (append_inj "udp/")]; exact H. }
  split; [done|]. f_equal. destruct (FormatInt_spec p) as [_ Hp]; [lia|]. destruct (FormatInt_spec q) as [_ Hq]; [lia|]. congruence.
Qed.

Definition row_port (r : FirewallRule) : string := fr_Protocol r +:+ "|" +:+ FormatInt (default 0 (rule_port r)).
Lemma canonical_ports rules : forall sr sp keys, canonical_keys sr sp rules = Ok keys -> NoDup (map row_port rules) /\ forall r, r ∈ rules -> row_port r ∉ sp.
Proof.
  induction rules as [|rule rules IH]; intros sr sp keys; cbn [canonical_keys]; [intros _; split; [constructor|by intros ? ?%elem_of_nil]|].
  destruct (_ != _); [done|]. destruct (_ && _); [done|]. destruct (rule_port rule) as [p|] eqn:Ep; [|done].
  assert (Erow : fr_Protocol rule +:+ "|" +:+ FormatInt p = row_port rule) by (unfold row_port; by rewrite Ep). rewrite Erow.
  destruct (bool_decide_reflect (row_port rule ∈ sp)) as [|Hsp]; [done|]. destruct (canonicalNodeLoadBalancerFirewallEndpoints rule) as [out|]; [|done].
  destruct (bool_decide _); [done|]. destruct (canonical_keys _ _ rules) as [r|] eqn:E; [|done]. intros _. apply IH in E as [Hd Hn]. split.
  - cbn [map]. constructor; [|done]. intros (r' & E' & Hr')%list_elem_of_fmap. apply (Hn r' Hr'). rewrite <-E'. apply elem_of_union_l, elem_of_singleton. done.
  - intros r' [->|Hr']%elem_of_cons; [done|]. specialize (Hn r' Hr'). set_solver.
Qed.

(** A list of rules with a policy text has one rule per port. *)
Lemma policy_ports rules t : canonicalNodeLoadBalancerPortFirewallPolicy rules = Ok t ->
  Forall admitted rules /\ NoDup (map nodeLoadBalancerShardFirewallRuleLogicalKey rules).
Proof.
  intros H. pose proof (policy_text _ _ H) as (_ & Ha & _). split; [done|]. unfold canonicalNodeLoadBalancerPortFirewallPolicy in H. destruct rules as [|r0 rules0]; [done|].
  destruct (canonical_keys ∅ ∅ _) as [keys|] eqn:E; [|done]. apply canonical_ports in E as [Hd _]. revert Ha Hd. clear H. induction (r0 :: rules0) as [|r l IH]; [constructor|].
  cbn [map]. intros [Hr Hl]%Forall_cons [Hn Hd]%NoDup_cons. constructor; [|by apply IH]. intros (d & E & Hd')%list_elem_of_fmap.
  assert (Had : admitted d) by (rewrite Forall_forall in Hl; by apply Hl). apply logical_key_inj in E as [Ep Es]; [|done|done]. apply Hn, list_elem_of_fmap. exists d. split; [|done].
  destruct (admitted_start r Hr) as (p & E1 & E2 & _), (admitted_start d Had) as (q & E3 & E4 & _). unfold row_port. rewrite Ep, E2, E4. congruence.
Qed.

Lemma fold_uuids rules : NoDup (map nodeLoadBalancerShardFirewallRuleLogicalKey rules) -> forall acc k u,
  foldl (fun m rule => <[nodeLoadBalancerShardFirewallRuleLogicalKey rule := fr_UUID rule]> m) (acc : gmap string string) rules !! k = Some u <->
  (exists c, c ∈ rules /\ nodeLoadBalancerShardFirewallRuleLogicalKey c = k /\ fr_UUID c = u)
  \/ (k ∉ map nodeLoadBalancerShardFirewallRuleLogicalKey rules /\ acc !! k = Some u).
Proof.
  induction rules as [|r l IH]; intros Hd acc k u; cbn [foldl map] in *; [split; [right; by split; [intros ?%elem_of_nil|]|by intros [(? & ?%elem_of_nil & _)|[_ ?]]]|].
  apply NoDup_cons in Hd as [Hm Hd]. rewrite (IH Hd), lookup_insert_Some, not_elem_of_cons. setoid_rewrite elem_of_cons. split.
  - intros [(n & ? & ? & ?)|[Hn [[<- <-]|[? ?]]]]; [left; eauto|left; eauto|by right].
  - intros [(n & [->|Hn] & <- & <-)|[[? ?] ?]]; [right; split; [done|by left]|left; eauto|right; auto].
Qed.

Definition with_UUID (u : string) (d : FirewallRule) : FirewallRule :=
  Build_FirewallRule u (fr_Protocol d) (fr_Direction d) (fr_PortStart d) (fr_PortEnd d) (fr_EndpointSpecType d) (fr_EndpointSpec d).
(** [r] is the desired rule [d] with the identity that the present rules give its port. *)
Definition keeps_identity (current : list FirewallRule) (d r : FirewallRule) : Prop :=
  r = with_UUID (fr_UUID r) d /\ (forall c, c ∈ current -> same_port c d -> fr_UUID r = fr_UUID c)
  /\ (fr_UUID r = "" \/ exists c, c ∈ current /\ same_port c d /\ fr_UUID r = fr_UUID c).

Lemma retain_spec current desired t t' : canonicalNodeLoadBalancerPortFirewallPolicy current = Ok t -> canonicalNodeLoadBalancerPortFirewallPolicy desired = Ok t' ->
  Forall2 (keeps_identity current) desired (retainFirewallRuleUUIDs current desired).
Proof.
  intros [Ha Hd]%policy_ports [Hb _]%policy_ports. unfold retainFirewallRuleUUIDs. apply Forall2_fmap_r, Forall_Forall2_diag. eapply Forall_impl; [exact Hb|].
  intros d Had. rewrite Forall_forall in Ha. unfold keeps_identity; cbn. set (m := foldl _ _ _).
  assert (Hm : forall u, m !! nodeLoadBalancerShardFirewallRuleLogicalKey d = Some u <-> exists c, c ∈ current /\ same_port c d /\ fr_UUID c = u).
  { intros u. unfold m. rewrite fold_uuids, lookup_empty by done. split.
    - intros [(c & Hc & Hk & Hu)|[_ ?]]; [|done]. exists c. split_and!; [done| |done]. apply logical_key_inj; auto.
    - intros (c & Hc & Hp & Hu). left. exists c. split_and!; [done| |done]. apply logical_key_inj; auto. }
  split_and!; [done| |].
  - intros c Hc Hp. rewrite (proj2 (Hm (fr_UUID c))) by eauto. done.
  - destruct (m !! _) as [u|]; [|by left]. right. destruct (proj1 (Hm u) eq_refl) as (c & Hc & Hp & Hu). exists c. cbn. auto.
Qed.

(** ** Theorems *)

Lemma spec_hash_text sha rules hash : NodeLoadBalancerShardFirewallSpecHash sha rules = Ok hash -> exists t, canonicalNodeLoadBalancerPortFirewallPolicy rules = Ok t.
Proof. unfold NodeLoadBalancerShardFirewallSpecHash. destruct (canonicalNodeLoadBalancerPortFirewallPolicy rules); [eauto|done]. Qed.
Lemma valid_policy_text sha IsDNS policy : validateNodeLoadBalancerShardFirewallPolicy sha IsDNS policy = None ->
  exists t, canonicalNodeLoadBalancerPortFirewallPolicy (CreateFW_Rules (fp_Request policy)) = Ok t.
Proof.
  unfold validateNodeLoadBalancerShardFirewallPolicy. repeat (destruct (_ || _); [done|]). destruct (NodeLoadBalancerShardFirewallName _ _ _); [|done].
  repeat (destruct (_ || _); [done|]). destruct (validateMembers _ _ _); [done|]. destruct (NodeLoadBalancerShardFirewallSpecHash _ _) eqn:E; [|done]. intros _. by eapply spec_hash_text.
Qed.

Section Theorems.
Context (sha256_hex : string -> string) (IsDNS1123Label : string -> bool).

(** C27: the desired firewall of a shard is made of exactly the Services that the plan claims: its rules are the
    rules of those Services, each port to the sources of its own Service; no two Services open the same port; the
    ports are the ones of the plan; each member carries the hash of its Service's own policy. When the UIDs of the
    member Services all have one length, as Kubernetes UIDs do ([same_length]), the ledger of the policy reads back,
    and it covers a Service with a policy hash exactly when a member records its UID with that hash. Without one
    length it need not: [ShardSample.ledger_of_prefixes_unreadable]. *)
Theorem shard_policy_exact clusterID account shard services policy :
  (forall s, IsDNS1123Label s = true -> all_chars (fun c => is_alnum_lower c || is_dash c) s = true) ->
  desiredNodeLoadBalancerShardFirewall sha256_hex IsDNS1123Label clusterID account shard services = Ok policy ->
  exists l, services ≡ₚ map Some l /\ policy_of sha256_hex IsDNS1123Label shard l policy
    /\ (same_length (fp_Members policy) -> exists ledger,
          nodeLoadBalancerShardFirewallPolicyLedger sha256_hex IsDNS1123Label policy = Ok ledger
          /\ forall t hash, desiredNodeLoadBalancerServicePolicyHash sha256_hex t = Ok hash -> hash <> "" ->
               covers sha256_hex IsDNS1123Label ledger t = true <-> Build_nodeLoadBalancerShardFirewallMember (sv_UID t) hash ∈ fp_Members policy).
Proof.
  intros Hlab (l & Hp & Hpol)%desired_policy. exists l. split_and!; [done|done|]. intros Hlen.
  assert (Hled : exists ledger, nodeLoadBalancerShardFirewallPolicyLedger sha256_hex IsDNS1123Label policy = Ok ledger)
    by (unfold nodeLoadBalancerShardFirewallPolicyLedger; rewrite (po_valid _ _ _ _ _ Hpol); eauto).
  destruct Hled as [ledger Hledger]. exists ledger. split; [done|]. intros t hash Ht Hne.
  destruct (ledger_parses sha256_hex IsDNS1123Label Hlab policy ledger Hledger Hlen) as (members & Hparse & Hrec).
  unfold covers. rewrite Ht, Hparse. destruct (bool_decide_reflect (ledger = "")) as [->|_]; [by cbn in Hparse|]. rewrite bool_decide_eq_true. split.
  - intros Hd. destruct (members !! sv_UID t) as [h|] eqn:E; cbn in Hd; [|by subst hash]. subst h. apply Hrec in E as ([u h] & Hm & Eu & Eh). cbn in Eu, Eh. by subst.
  - intros Hm. rewrite (proj2 (Hrec (sv_UID t) hash)); [done|]. eauto.
Qed.

Lemma update_request_keeps current desired request :
  nodeLoadBalancerShardFirewallUpdateRequest sha256_hex IsDNS1123Label current desired = Ok request ->
  UpdateFW_Name request = CreateFW_DisplayName (fp_Request desired) /\ UpdateFW_Description request = nodeLoadBalancerShardFirewallDescription
  /\ Forall2 (keeps_identity (fw_Rules current)) (CreateFW_Rules (fp_Request desired)) (UpdateFW_Rules request).
Proof.
  unfold nodeLoadBalancerShardFirewallUpdateRequest. destruct (validateNodeLoadBalancerShardFirewallPolicy _ _ _) eqn:Hv; [done|]. destruct (negb _); [done|].
  repeat (destruct (_ && _); [done|]). destruct (NodeLoadBalancerShardFirewallSpecHash _ _) as [h|] eqn:Hc; [|done].
  destruct (ValidateNodeLoadBalancerShardFirewall _ _ _ _ _ _); [done|]. destruct (validateRuleUUIDs _ _); [done|]. intros [= <-]. cbn.
  pose proof (valid_policy_text _ _ _ Hv) as [t Ht]. apply spec_hash_text in Hc as [t' Ht']. split_and!; [done| |by eapply retain_spec].
  unfold validateNodeLoadBalancerShardFirewallPolicy in Hv. destruct (bool_decide_reflect (CreateFW_Description (fp_Request desired) = nodeLoadBalancerShardFirewallDescription)); [done|].
  cbn [negb] in Hv. repeat (destruct (_ || _) in Hv; [done|]). destruct (NodeLoadBalancerShardFirewallName _ _ _); [|done]. by rewrite orb_true_r in Hv.
Qed.

(** A replacement of a shard firewall's rules keeps the managed name and description, sends exactly the desired
    rules, and gives a rule the provider identity of the present rule for its protocol and port when there is one,
    and none otherwise. *)
Theorem shard_update_keeps_identities current desired request :
  nodeLoadBalancerShardFirewallUpdateRequest sha256_hex IsDNS1123Label current desired = Ok request ->
  UpdateFW_Name request = CreateFW_DisplayName (fp_Request desired) /\ UpdateFW_Description request = nodeLoadBalancerShardFirewallDescription
  /\ Forall2 (keeps_identity (fw_Rules current)) (CreateFW_Rules (fp_Request desired)) (UpdateFW_Rules request).
Proof. apply update_request_keeps. Qed.
End Theorems.

(** ** A small shard *)

Module ShardSample.
Definition sha (_ : string) : string := "0123456789abcdef0123456789abcdef0123456789abcdef0123456789abcdef".
Definition label (s : string) : bool := all_chars (fun c => is_alnum_lower c || is_dash c) s.
Definition tcp (n : Z) : ServicePort := Build_ServicePort "" "TCP" None n (inr n) 0.
Definition service (uid : string) (ports : list Z) (sources : list string) : Service :=
  Build_Service "default" uid uid "1" None [] ∅ ∅ []
    (Build_ServiceSpec (map tcp ports) {["app" := uid]} "" [] "LoadBalancer" [] "" "" sources "" "Cluster" 0 false None [] None (Some false) (Some nodeLoadBalancerClass) None None) [].
Definition claim (n : Z) : nodeLoadBalancerPortClaim := Build_nodeLoadBalancerPortClaim "IPv4" "TCP" n.
Definition plan (uids : list string) (ports : list Z) : nodeLoadBalancerShardPlan :=
  Build_nodeLoadBalancerShardPlan "inlb-00000001" nodeLoadBalancerModeShared "default" 1 1 2048 uids (map claim ports).

Definition services : list (option Service) := [Some (service "web" [80; 443] ["10.0.0.1/8"]); Some (service "dns" [53] [])].
Definition desired (uids : list string) (ports : list Z) (l : list (option Service)) : nodeLoadBalancerShardFirewallPolicy :=
  match desiredNodeLoadBalancerShardFirewall sha label "cluster" 7 (plan uids ports) l with
  | Ok policy => policy
  | Err _ => Build_nodeLoadBalancerShardFirewallPolicy "" "" [] (Build_CreateFirewallRequest "" "" 0 []) ""
  end.
Definition policy : nodeLoadBalancerShardFirewallPolicy := desired ["web"; "dns"] [53; 80; 443] services.
Lemma policy_built : desiredNodeLoadBalancerShardFirewall sha label "cluster" 7 (plan ["web"; "dns"] [53; 80; 443]) services = Ok policy.
Proof. vm_compute. reflexivity. Qed.

Definition rule (uuid : string) (port : Z) : FirewallRule := Build_FirewallRule uuid "tcp" "inbound" (Some port) (Some port) "any" [].
(** The firewall of the shard while it served DNS and SMTP. *)
Definition current : Firewall :=
  Build_Firewall "00000000-0000-4000-8000-000000000001" "" (CreateFW_DisplayName (fp_Request policy)) "" 7
    [rule "00000000-0000-4000-8000-000000000002" 25; rule "00000000-0000-4000-8000-000000000003" 53] None "".
Definition replacement : UpdateFirewallRequest :=
  match nodeLoadBalancerShardFirewallUpdateRequest sha label current policy with Ok r => r | Err _ => Build_UpdateFirewallRequest "" "" [] end.
Lemma replacement_built : nodeLoadBalancerShardFirewallUpdateRequest sha label current policy = Ok replacement.
Proof. vm_compute. reflexivity. Qed.

(** The identities of two Services where one is a prefix of the other, as the identity check admits: the ledger of
    their policy is written, and the reader then refuses it, since it compares whole entries and the sign that
    separates identity and hash sorts after a dash. *)
Definition prefixed : nodeLoadBalancerShardFirewallPolicy := desired ["web"; "web-2"] [53; 80] [Some (service "web" [80] []); Some (service "web-2" [53] [])].
Example ledger_of_prefixes_unreadable :
  (try! ledger := nodeLoadBalancerShardFirewallPolicyLedger sha label prefixed in parseNodeLoadBalancerShardFirewallLedger label ledger)
  = Err (Msg "node load balancer: shard firewall ledger is not strictly sorted").
Proof. vm_compute. reflexivity. Qed.
End ShardSample.

(** The ledger of the small shard covers the Services it was made for, and no other. *)
Lemma shard_policy_exact_witness :
  (exists l ledger, ShardSample.services ≡ₚ map Some l /\ policy_of ShardSample.sha ShardSample.label (ShardSample.plan ["web"; "dns"] [53; 80; 443]) l ShardSample.policy
     /\ nodeLoadBalancerShardFirewallPolicyLedger ShardSample.sha ShardSample.label ShardSample.policy = Ok ledger
     /\ covers ShardSample.sha ShardSample.label ledger (ShardSample.service "web" [80; 443] ["10.0.0.1/8"]) = true
     /\ covers ShardSample.sha ShardSample.label ledger (ShardSample.service "ftp" [21] []) = false)
  /\ map (fun r => (fr_PortStart r, fr_EndpointSpec r)) (CreateFW_Rules (fp_Request ShardSample.policy)) = [(Some 53, []); (Some 80, ["10.0.0.0/8"]); (Some 443, ["10.0.0.0/8"])].
Proof.
  split; [|vm_compute; reflexivity].
  destruct (shard_policy_exact ShardSample.sha ShardSample.label "cluster" 7 _ _ _ (fun s H => H) ShardSample.policy_built) as (l & H1 & H2 & Hledger).
  assert (Hm : fp_Members ShardSample.policy = map (fun uid => Build_nodeLoadBalancerShardFirewallMember uid (ShardSample.sha "")) ["dns"; "web"]) by (vm_compute; reflexivity).
  destruct Hledger as (ledger & Hl & Hc).
  { intros m n Hin Hin'. rewrite Hm in Hin, Hin'. apply list_elem_of_fmap in Hin as (u & -> & Hu). apply list_elem_of_fmap in Hin' as (v & -> & Hv).
    rewrite !elem_of_cons, elem_of_nil in Hu, Hv. cbn [fm_ServiceUID]. destruct Hu as [->|[->|[]]], Hv as [->|[->|[]]]; reflexivity. }
  exists l, ledger. split; [exact H1|]. split; [exact H2|]. split; [exact Hl|]. split.
  - apply (Hc _ (ShardSample.sha "")); [vm_compute; reflexivity|discriminate|]. rewrite Hm. apply elem_of_cons. right. apply elem_of_cons. by left.
  - apply not_true_iff_false. intros Ht. apply (Hc _ (ShardSample.sha "")) in Ht; [|vm_compute; reflexivity|discriminate]. rewrite Hm in Ht.
    apply list_elem_of_fmap in Ht as (u & E & Hu). rewrite !elem_of_cons, elem_of_nil in Hu. destruct Hu as [->|[->|[]]]; discriminate E.
Defined.

Lemma shard_update_keeps_identities_witness :
  Forall2 (keeps_identity (fw_Rules ShardSample.current)) (CreateFW_Rules (fp_Request ShardSample.policy)) (UpdateFW_Rules ShardSample.replacement)
  /\ map (fun r => (fr_PortStart r, fr_UUID r)) (UpdateFW_Rules ShardSample.replacement) = [(Some 53, "00000000-0000-4000-8000-000000000003"); (Some 80, ""); (Some 443, "")].
Proof.
  split; [|vm_compute; reflexivity].
  apply (shard_update_keeps_identities ShardSample.sha ShardSample.label ShardSample.current ShardSample.policy ShardSample.replacement ShardSample.replacement_built).
Defined.
