(* ===== verification/ShardState.v ===== *)
(** * The receipt of a shard firewall (node_loadbalancer_shard_state.go of modules/cloud-provider)

    The NodePool of a shard carries the state of its firewall in annotations: what is applied, what is pending,
    and whether a cloud mutation of it was issued. [reconcileShardFirewallPolicy] derives the policy from the live
    Services, stages it, issues it, and sends at most one create or replacement. Every call to Kubernetes, to the
    cloud and to the clock is an action. Of a NodePool only its metadata is kept; an update carries the rest of
    the object along unchanged. *)

From S2P Require Import Prelude GoErrors CSIFence Prog GoNet GoHTTP ClientErrors ClientResources KubernetesFence NodeFirewall KubeService ShardPlanner ShardFirewall.

Definition nodeLoadBalancerNodePoolFinalizer : string := "inspace.cloud/node-lb-state".
Definition nodeLoadBalancerManagedLabel : string := "inspace.cloud/node-lb-managed".
Definition nodeLoadBalancerClusterLabel : string := "inspace.cloud/node-lb-cluster".
Definition nodeLoadBalancerShardLabel : string := "inspace.cloud/node-lb-shard".
Definition annotationNodeLoadBalancerDatapathStaged : string := "service.inspace.cloud/node-lb-datapath-staged-shard".
Definition annotationNodeLoadBalancerDatapathStagedPolicy : string := "service.inspace.cloud/node-lb-datapath-staged-policy".
Definition annotationNodeLoadBalancerDatapathRestage : string := "service.inspace.cloud/node-lb-datapath-restage-shard".
Definition annotationNodeLoadBalancerDatapathRestagePolicy : string := "service.inspace.cloud/node-lb-datapath-restage-policy".

(** The annotations of the receipt, without their common prefix in the source's names. *)
Definition FirewallUUID : string := "service.inspace.cloud/node-lb-shard-firewall-uuid".
Definition FirewallHash : string := "service.inspace.cloud/node-lb-shard-firewall-hash".
Definition FirewallLedger : string := "service.inspace.cloud/node-lb-shard-firewall-ledger".
Definition PendingHash : string := "service.inspace.cloud/node-lb-shard-firewall-pending-hash".
Definition PendingLedger : string := "service.inspace.cloud/node-lb-shard-firewall-pending-ledger".
Definition PendingAt : string := "service.inspace.cloud/node-lb-shard-firewall-pending-at".
Definition FWIssuedAt : string := "service.inspace.cloud/node-lb-shard-firewall-issued-at".
Definition PendingUUID : string := "service.inspace.cloud/node-lb-shard-firewall-pending-uuid".
Definition FWAbsent : string := "service.inspace.cloud/node-lb-shard-firewall-absence-count".
Definition FWAbsentChecked : string := "service.inspace.cloud/node-lb-shard-firewall-absence-checked-at".
Definition FWCreateAbsent : string := "service.inspace.cloud/node-lb-shard-firewall-create-absence-count".
Definition FWCreateChecked : string := "service.inspace.cloud/node-lb-shard-firewall-create-absence-checked-at".
Definition FWCreateRejected : string := "service.inspace.cloud/node-lb-shard-firewall-create-rejected".
Definition FWCleanupAbsent : string := "service.inspace.cloud/node-lb-shard-firewall-cleanup-absence-count".
Definition FWCleanupCheck : string := "service.inspace.cloud/node-lb-shard-firewall-cleanup-absence-checked-at".
Definition FWCleanupSeen : string := "service.inspace.cloud/node-lb-shard-firewall-cleanup-observed-uuid".
Definition FWDeleteTarget : string := "service.inspace.cloud/node-lb-shard-firewall-delete-target-uuid".
Definition FWDeleteIssued : string := "service.inspace.cloud/node-lb-shard-firewall-delete-issued-at".
Definition nodeLoadBalancerShardFirewallMutationReceiptKeys : list string :=
  [FirewallUUID; FirewallHash; FirewallLedger; PendingHash; PendingLedger; PendingAt; FWIssuedAt; PendingUUID].

(** Five minutes, one minute and thirty seconds, in nanoseconds. *)
Definition nodeLoadBalancerShardFirewallMutationTimeout : Z := 300000000000.
Definition nodeLoadBalancerShardFirewallFutureSkew : Z := 60000000000.
Definition nodeLoadBalancerAbsenceConfirmationDelay : Z := 30000000000.
Definition nodeLoadBalancerAbsenceConfirmations : Z := 3.

Record NodePool := {
  pl_Name : string; pl_UID : string; pl_ResourceVersion : string; pl_DeletionTimestamp : option string; pl_Finalizers : list string;
  pl_Labels : gmap string string; pl_Annotations : gmap string string
}.
Record CloudConfig := { cc_ClusterID : string; cc_BillingAccountID : Z; cc_Location : string; cc_NodesPerShard : Z }.

(** ** Actions *)

Inductive sact :=
  | ListServices
  | GetService (namespace name : string)
  | GetPool (detached : bool) (name : string)
  | UpdatePool (detached : bool) (pool : NodePool)
  | CloudListFirewalls (location : string)
  | CloudCreateFirewall (location : string) (request : CreateFirewallRequest)
  | CloudUpdateFirewall (location uuid : string) (request : UpdateFirewallRequest)
  | Clock.
Definition sres (x : sact) : Type :=
  match x with
  | ListServices => result (list Service)
  | GetService _ _ => result Service
  | GetPool _ _ | UpdatePool _ _ => result NodePool
  | CloudListFirewalls _ => result (list Firewall)
  | CloudCreateFirewall _ _ | CloudUpdateFirewall _ _ _ => result (option Firewall)
  | Clock => Z
  end.

Record nodeLoadBalancerShardFirewallState := {
  st_Firewall : option Firewall; st_AppliedHash : string; st_AppliedLedger : string; st_DesiredHash : string; st_DesiredLedger : string;
  st_PolicyReady : bool; st_AssignmentsReady : bool; st_MutationIssued : bool
}.
#[export] Instance eta_shardState : Eta nodeLoadBalancerShardFirewallState := fun r =>
  Build_nodeLoadBalancerShardFirewallState (st_Firewall r) (st_AppliedHash r) (st_AppliedLedger r) (st_DesiredHash r) (st_DesiredLedger r) (st_PolicyReady r)
    (st_AssignmentsReady r) (st_MutationIssued r).
Definition zero_state : nodeLoadBalancerShardFirewallState := Build_nodeLoadBalancerShardFirewallState None "" "" "" "" false false false.

(** ** Values *)

#[export] Instance FirewallRule_eq_dec : EqDecision FirewallRule.
Proof. solve_decision. Defined.
#[export] Instance FirewallResource_eq_dec : EqDecision FirewallResource.
Proof. solve_decision. Defined.

(** Five groups of 8, 4, 4, 4 and 12 hexadecimal digits. *)
Definition validNodeLoadBalancerCloudUUID (value : string) : bool :=
  match SplitChar "-" value with
  | [a; b; c; d; e] =>
      forallb (fun p => Nat.eqb (String.length p.1) p.2 && all_chars is_hex p.1) [(a, 8); (b, 4); (c, 4); (d, 4); (e, 12)]%nat
  | _ => false
  end.
Definition mapsEqualStringString (left right : gmap string string) : bool :=
  Nat.eqb (size left) (size right) && forallb (fun kv => annotation right kv.1 == kv.2) (map_to_list left).
Definition delete_keys (keys : list string) (values : gmap string string) : gmap string string := foldl (fun m key => delete key m) values keys.
Definition matches_receipt (values expected : gmap string string) : bool :=
  forallb (fun key => annotation values key == annotation expected key) nodeLoadBalancerShardFirewallMutationReceiptKeys.
Definition nodeLoadBalancerShardFirewallMutationExpected (annotations : gmap string string) (issuedAt : string) : gmap string string :=
  <[FWIssuedAt := issuedAt]> (list_to_map (map (fun key => (key, annotation annotations key)) nodeLoadBalancerShardFirewallMutationReceiptKeys)).

Definition nodeLoadBalancerFirewallVMAssignments (firewall : Firewall) : result (gset string) :=
  if negb (validNodeLoadBalancerCloudUUID (fw_UUID firewall)) then Err (Msg "node load balancer: firewall has invalid UUID")
  else match fw_ResourcesAssigned firewall with
  | None => Err (Msg "node load balancer: firewall omitted resources_assigned")
  | Some rows =>
      if forallb (fun row => EqualFold (fx_ResourceType row) "vm" && validNodeLoadBalancerCloudUUID (fx_ResourceUUID row)) rows
      then Ok (list_to_set (map (fun row => ToLower (fx_ResourceUUID row)) rows))
      else Err (Msg "node load balancer: firewall has unexpected assigned resource")
  end.
(** The last of the rows that a loop keeps, and the number of rows that match up to case. *)
Definition last_of {A} (p : A -> bool) (l : list A) : option A := last (List.filter p l).
Definition exactNodeLoadBalancerFirewallFromItems (items : list Firewall) (uuid : string) : result Firewall :=
  if negb (validNodeLoadBalancerCloudUUID uuid) then Err (Msg "node load balancer: invalid firewall UUID")
  else
    let matches := List.length (List.filter (fun item => EqualFold (fw_UUID item) uuid) items) in
    match last_of (fun item => EqualFold (fw_UUID item) uuid && (fw_UUID item == uuid)) items with
    | Some exact =>
        if negb (Nat.eqb matches 1) then Err (Msg "node load balancer: firewall UUID has no unique exact authority")
        else try! assignments := nodeLoadBalancerFirewallVMAssignments exact in Ok exact
    | None => Err (Msg "node load balancer: firewall UUID has no unique exact authority")
    end.
Definition nodeLoadBalancerFirewallAuthorityUnchanged (before after : Firewall) : bool :=
  (fw_UUID before == fw_UUID after) && (EffectiveName before == EffectiveName after) && (fw_Description before == fw_Description after)
  && (fw_BillingAccountID before =? fw_BillingAccountID after) && bool_decide (fw_Rules before = fw_Rules after)
  && bool_decide (fw_ResourcesAssigned before = fw_ResourcesAssigned after).

Definition nodeLoadBalancerMutationKnownPreDispatch (e : error) : bool := Is e ErrMutationBlocked || Is e ErrMutationNotDispatched.
Definition nodeLoadBalancerCreateDefinitivelyRejected (e : error) : bool :=
  match AsAPI e with
  | None => false
  | Some api =>
      if ResponseBodyIncomplete api || ResponseBodyMalformed api then false
      else if existsb (Z.eqb (StatusCode api)) [408; 409; 425; 429; 499] then false
      else (400 <=? StatusCode api) && (StatusCode api <? 500)
  end.
Definition validateCreatedNodeLoadBalancerFirewall (firewall : option Firewall) (request : CreateFirewallRequest) : goerr :=
  match firewall with
  | None => Some (Msg "response has no valid firewall UUID")
  | Some firewall =>
      if negb (validNodeLoadBalancerCloudUUID (fw_UUID firewall)) then Some (Msg "response has no valid firewall UUID")
      else if (EffectiveName firewall != "") && (EffectiveName firewall != CreateFW_DisplayName request) then Some (Msg "name does not match")
      else if negb (fw_BillingAccountID firewall =? 0) && negb (fw_BillingAccountID firewall =? CreateFW_BillingAccountID request) then Some (Msg "billing account does not match")
      else if (fw_Description firewall != "") && (fw_Description firewall != CreateFW_Description request) then Some (Msg "description does not match")
      else None
  end.

Section State.
Context `{TT : TimeText} (sha256_hex : string -> string) (IsDNS1123Label : string -> bool) (ParseQuantity : string -> option (Z * Z)) (cfg : CloudConfig).

Definition validateUpdatedNodeLoadBalancerShardFirewallResponse (response : option Firewall) (uuid : string) (desired : nodeLoadBalancerShardFirewallPolicy) : goerr :=
  match response with
  | None => Some (Msg "response has no firewall UUID")
  | Some response =>
      let request := fp_Request desired in
      if fw_UUID response == "" then Some (Msg "response has no firewall UUID")
      else if fw_UUID response != uuid then Some (Msg "response UUID does not match updated firewall")
      else if (EffectiveName response != "") && (EffectiveName response != CreateFW_DisplayName request) then Some (Msg "response name does not match")
      else if negb (fw_BillingAccountID response =? 0) && negb (fw_BillingAccountID response =? CreateFW_BillingAccountID request) then Some (Msg "response billing account does not match")
      else if (fw_Description response != "") && (fw_Description response != CreateFW_Description request) then Some (Msg "response description does not match")
      else match fw_Rules response with
      | [] => None
      | rules =>
          match NodeLoadBalancerShardFirewallSpecHash sha256_hex rules with
          | Err e => Some (Wrap "response policy" [e])
          | Ok hash => if hash != fp_Hash desired then Some (Msg "response policy hash does not match") else None
          end
      end
  end.

(** ** Reading the receipt *)

Definition nodeLoadBalancerFirewallDeleteReceipt (annotations : gmap string string) (targetKey issuedKey absentKey checkedKey : string) : goerr :=
  let target := annotation annotations targetKey in
  let issuedAt := annotation annotations issuedKey in
  let absent := annotation annotations absentKey in
  let checked := annotation annotations checkedKey in
  if target == "" then (if issuedAt != "" then Some (Msg "firewall delete-issued timestamp lacks an exact target UUID") else None)
  else if negb (validNodeLoadBalancerCloudUUID target) then Some (Msg "invalid firewall delete target UUID")
  else if (issuedAt != "") && bool_decide (parse_time issuedAt = None) then Some (Msg "invalid firewall delete-issued timestamp")
  else if negb (Bool.eqb (absent == "") (checked == "")) then Some (Msg "incomplete firewall delete absence evidence")
  else if absent == "" then None
  else if (match Atoi absent with Some count => (count <? 1) || (nodeLoadBalancerAbsenceConfirmations <? count) | None => true end)
  then Some (Msg "invalid firewall delete absence count")
  else if bool_decide (parse_time checked = None) then Some (Msg "invalid firewall delete absence timestamp")
  else None.

(** A timestamp of the receipt, against the clock. *)
Definition validateStamp (stamp : string) : prog sres goerr :=
  match parse_time stamp with
  | None => Ret (Some (Msg "node load balancer: invalid shard firewall timestamp"))
  | Some parsed =>
      let! now := call Clock in
      Ret (if now + nodeLoadBalancerShardFirewallFutureSkew <? parsed then Some (Msg "node load balancer: shard firewall timestamp is unreasonably in the future") else None)
  end.
Definition appliedError (annotations : gmap string string) : goerr :=
  let currentUUID := annotation annotations FirewallUUID in
  let currentHash := annotation annotations FirewallHash in
  let currentLedger := annotation annotations FirewallLedger in
  if negb (Bool.eqb (currentUUID == "") (currentHash == "")) || negb (Bool.eqb (currentUUID == "") (currentLedger == ""))
  then Some (Msg "node load balancer: shard firewall UUID, hash, and ledger must be persisted together")
  else if currentUUID == "" then None
  else if negb (validNodeLoadBalancerCloudUUID currentUUID) then Some (Msg "node load balancer: invalid persisted shard firewall UUID")
  else if negb (validNodeLoadBalancerShardFirewallPolicyHash currentHash) then Some (Msg "node load balancer: invalid persisted shard firewall hash")
  else match parseNodeLoadBalancerShardFirewallLedger IsDNS1123Label currentLedger with Err e => Some e | Ok _ => None end.
Definition pendingError (annotations : gmap string string) : prog sres goerr :=
  let pendingHash := annotation annotations PendingHash in
  let pendingLedger := annotation annotations PendingLedger in
  let pendingAt := annotation annotations PendingAt in
  if negb (Bool.eqb (pendingHash == "") (pendingLedger == "")) || negb (Bool.eqb (pendingHash == "") (pendingAt == ""))
  then Ret (Some (Msg "node load balancer: incomplete pending shard firewall policy fence"))
  else if pendingHash == "" then Ret None
  else if negb (validNodeLoadBalancerShardFirewallPolicyHash pendingHash) then Ret (Some (Msg "node load balancer: invalid pending shard firewall hash"))
  else match parseNodeLoadBalancerShardFirewallLedger IsDNS1123Label pendingLedger with
  | Err e => Ret (Some e)
  | Ok _ => validateStamp pendingAt
  end.
Definition issuedError (annotations : gmap string string) : prog sres goerr :=
  let issued := annotation annotations FWIssuedAt in
  if issued == "" then Ret None
  else if annotation annotations PendingHash == "" then Ret (Some (Msg "node load balancer: shard firewall mutation is issued without a pending policy"))
  else validateStamp issued.
Definition receiptTailError (annotations : gmap string string) : goerr :=
  let pendingUUID := annotation annotations PendingUUID in
  if (pendingUUID != "") && negb (validNodeLoadBalancerCloudUUID pendingUUID) then Some (Msg "node load balancer: invalid pending shard firewall UUID")
  else if (pendingUUID != "") && ((annotation annotations PendingHash == "") || (annotation annotations FWIssuedAt == ""))
  then Some (Msg "node load balancer: pending shard firewall UUID lacks a complete issued transaction")
  else if (annotation annotations FWCleanupSeen != "") && negb (validNodeLoadBalancerCloudUUID (annotation annotations FWCleanupSeen))
  then Some (Msg "node load balancer: invalid cleanup-observed shard firewall UUID")
  else match nodeLoadBalancerFirewallDeleteReceipt annotations FWDeleteTarget FWDeleteIssued FWCleanupAbsent FWCleanupCheck with
  | Some e => Some (Wrap "node load balancer: invalid shard firewall delete receipt" [e])
  | None => None
  end.
Definition nodeLoadBalancerShardFirewallAnnotations (pool : NodePool) : prog sres (result (gmap string string)) :=
  let annotations := pl_Annotations pool in
  match appliedError annotations with
  | Some e => Ret (Err e)
  | None =>
    let! pending := pendingError annotations in
    match pending with
    | Some e => Ret (Err e)
    | None =>
      let! issued := issuedError annotations in
      match issued with
      | Some e => Ret (Err e)
      | None => Ret (match receiptTailError annotations with Some e => Err e | None => Ok annotations end)
      end
    end
  end.

(** ** Writing the receipt *)

Definition managedPool (pool : NodePool) (shard : string) : bool :=
  (annotation (pl_Labels pool) nodeLoadBalancerManagedLabel == "true") && (annotation (pl_Labels pool) nodeLoadBalancerClusterLabel == cc_ClusterID cfg)
  && (annotation (pl_Labels pool) nodeLoadBalancerShardLabel == shard).
Definition validateManagedNodePoolAnnotationWrite (pool : NodePool) (shard uid : string) (expected : gmap string string) : goerr :=
  if pl_Name pool != shard then Some (Msg "node load balancer: shard firewall state update returned the wrong NodePool identity")
  else if (uid != "") && (pl_UID pool != uid) then Some (Msg "node load balancer: NodePool UID changed while persisting shard firewall state")
  else if negb (managedPool pool shard) || negb (containsString (pl_Finalizers pool) nodeLoadBalancerNodePoolFinalizer)
  then Some (Msg "node load balancer: failed exact state-anchor readback")
  else if negb (mapsEqualStringString (pl_Annotations pool) expected) then Some (Msg "node load balancer: NodePool did not retain the exact shard firewall receipt")
  else None.

(** [mutate] gives the changed annotations, whether they changed, and what its closure captures; it may read
    the clock. *)
Definition updateManagedNodePoolAnnotationsForUID {X} (detached : bool) (shard expectedUID : string) (mutate : gmap string string -> prog sres (result (gmap string string * bool * X)))
    : prog sres (result (NodePool * bool * X)) :=
  let! got := call (GetPool detached shard) in
  match got with
  | Err e => Ret (Err (Wrap "node load balancer: get NodePool for shard firewall state" [e]))
  | Ok pool =>
      if (expectedUID != "") && (pl_UID pool != expectedUID) then Ret (Err (Msg "node load balancer: NodePool identity changed before exact receipt transition"))
      else if negb (managedPool pool shard) then Ret (Err (Msg "node load balancer: NodePool lacks exact shard ownership"))
      else
      let! mutated := mutate (pl_Annotations pool) in
      match mutated with
      | Err e => Ret (Err e)
      | Ok (annotations, changed, x) =>
          let anchorMissing := negb (containsString (pl_Finalizers pool) nodeLoadBalancerNodePoolFinalizer) in
          if negb changed && negb anchorMissing then Ret (Ok (pool, false, x))
          else if anchorMissing && negb (bool_decide (pl_DeletionTimestamp pool = None)) then Ret (Err (Msg "node load balancer: deleting NodePool is missing its state finalizer"))
          else
            let updated := Build_NodePool (pl_Name pool) (pl_UID pool) (pl_ResourceVersion pool) (pl_DeletionTimestamp pool)
              (if anchorMissing then pl_Finalizers pool ++ [nodeLoadBalancerNodePoolFinalizer] else pl_Finalizers pool) (pl_Labels pool) annotations in
            let! written := call (UpdatePool detached updated) in
            match written with
            | Err e => Ret (Err (Wrap "node load balancer: persist shard firewall state on NodePool" [e]))
            | Ok answered =>
                match validateManagedNodePoolAnnotationWrite answered shard (pl_UID pool) annotations with
                | Some e => Ret (Err e)
                | None =>
                    let! read := call (GetPool detached shard) in
                    match read with
                    | Err e => Ret (Err (Wrap "node load balancer: read back shard firewall state on NodePool" [e]))
                    | Ok verified =>
                        Ret (match validateManagedNodePoolAnnotationWrite verified shard (pl_UID pool) annotations with
                             | Some e => Err e
                             | None => Ok (verified, true, x)
                             end)
                    end
                end
            end
      end
  end.
Definition updateAnnotations (shard ownerUID : string) (mutate : gmap string string -> result (gmap string string)) : prog sres (result (NodePool * bool)) :=
  let! r := updateManagedNodePoolAnnotationsForUID false shard ownerUID (fun values => Ret (result_map (fun m => (m, true, tt)) (mutate values))) in
  Ret (result_map fst r).

(** A timestamp before which nothing is recorded; the zero time is [None]. *)
Definition recordManagedNodePoolFirewallAbsenceForUID (shard ownerUID countAnnotation checkedAnnotation : string) (now : Z) (notBefore : option Z) : prog sres (result bool) :=
  if (match notBefore with Some t => now <? t | None => false end) then Ret (Ok false)
  else
  let! r := updateManagedNodePoolAnnotationsForUID false shard ownerUID (fun values => Ret (
    let raw := annotation values countAnnotation in
    try! count := (if raw == "" then Ok 0 else
                   match Atoi raw with
                   | Some n => if (n <? 0) || (nodeLoadBalancerAbsenceConfirmations <? n) then Err (Msg "node load balancer: invalid shard firewall absence count") else Ok n
                   | None => Err (Msg "node load balancer: invalid shard firewall absence count")
                   end) in
    if nodeLoadBalancerAbsenceConfirmations <=? count then Ok (values, false, true)
    else
    let checked := annotation values checkedAnnotation in
    try! early := (if checked == "" then Ok false else
                   match parse_time checked with
                   | Some checkedAt => Ok (now <? checkedAt + nodeLoadBalancerAbsenceConfirmationDelay)
                   | None => Err (Msg "node load balancer: invalid shard firewall absence timestamp")
                   end) in
    if early then Ok (values, false, false)
    else Ok (<[checkedAnnotation := format_time now]> (<[countAnnotation := FormatInt (count + 1)]> values), true, nodeLoadBalancerAbsenceConfirmations <=? count + 1))) in
  Ret (result_map snd r).
Definition clearManagedNodePoolFirewallAbsenceForUID (shard ownerUID : string) (keys : list string) : prog sres goerr :=
  let! r := updateManagedNodePoolAnnotationsForUID false shard ownerUID (fun values => Ret (
    let present := List.filter (fun key => annotation values key != "") keys in
    Ok (delete_keys present values, negb (bool_decide (present = [])), tt))) in
  Ret (match r with Ok _ => None | Err e => Some e end).

Definition issueShardFirewallMutation (shard ownerUID : string) (expectedStaged : gmap string string) (issuedAt : string) (clearCreateAbsence : bool)
    : prog sres (result (gmap string string)) :=
  if (ownerUID == "") || (annotation expectedStaged PendingHash == "") || (annotation expectedStaged PendingLedger == "") || (annotation expectedStaged PendingAt == "")
     || (annotation expectedStaged FWIssuedAt != "") || (annotation expectedStaged PendingUUID != "")
  then Ret (Err (Msg "node load balancer: incomplete staged shard firewall mutation identity"))
  else if bool_decide (parse_time issuedAt = None) then Ret (Err (Msg "node load balancer: invalid shard firewall issue timestamp"))
  else
  try_let! issued := updateAnnotations shard ownerUID (fun values =>
    if negb (matches_receipt values expectedStaged) then Err (Msg "node load balancer: shard firewall staged mutation changed before authority issuance")
    else Ok (delete_keys (if clearCreateAbsence then [FWCreateAbsent; FWCreateChecked] else []) (<[FWIssuedAt := issuedAt]> values))) in
  if negb issued.2 then Ret (Err (Msg "node load balancer: shard firewall mutation authority was not durably issued"))
  else
  try_let! verified := nodeLoadBalancerShardFirewallAnnotations issued.1 in
  let expectedMutation := nodeLoadBalancerShardFirewallMutationExpected expectedStaged issuedAt in
  Ret (if matches_receipt verified expectedMutation then Ok expectedMutation
       else Err (Msg "node load balancer: shard firewall issue readback changed the exact mutation receipt")).

(** ** The policy of the live Services *)

Definition staged_for (shard policyHash : string) (service : Service) : bool :=
  (sv_annotation service annotationNodeLoadBalancerDatapathActive == shard) && (sv_annotation service annotationNodeLoadBalancerDatapathStaged == shard)
  && (sv_annotation service annotationNodeLoadBalancerDatapathStagedPolicy == policyHash).
Definition restaging_for (shard policyHash : string) (service : Service) : bool :=
  (sv_annotation service annotationNodeLoadBalancerDatapathRestage == shard) && (sv_annotation service annotationNodeLoadBalancerDatapathRestagePolicy == policyHash).
(** Whether a Service belongs to the public policy of the shard. *)
Definition stagedMember (shard : string) (service : Service) : prog sres bool :=
  if negb (bool_decide (sv_DeletionTimestamp service = None)) || negb (isNodeLoadBalancerService service) || negb (containsString (sv_Finalizers service) nodeLoadBalancerFinalizer)
  then Ret false
  else match parseNodeLoadBalancerService IsDNS1123Label ParseQuantity service (cc_NodesPerShard cfg), desiredNodeLoadBalancerServicePolicyHash sha256_hex service with
  | Ok _, Ok policyHash =>
      let restaging := restaging_for shard policyHash service in
      if negb (staged_for shard policyHash service) && negb restaging then Ret false
      else if restaging then
        if negb (bool_decide (sv_Ingress service = [])) then Ret false
        else
          let! child := call (GetService (sv_Namespace service) (nodeLoadBalancerDatapathName sha256_hex service)) in
          Ret (match child with
               | Err _ => false
               | Ok child => nodeLoadBalancerDatapathMatchesDesired sha256_hex child service shard && bool_decide (sv_Ingress child = [])
               end)
      else Ret true
  | _, _ => Ret false
  end.
Fixpoint stageServices (shard : string) (items : list Service) (acc : list (Service * list nodeLoadBalancerPortClaim)) : prog sres (result (list (Service * list nodeLoadBalancerPortClaim))) :=
  match items with
  | [] => Ret (Ok acc)
  | service :: rest =>
      let! member := stagedMember shard service in
      if member then
        match nodeLoadBalancerPortClaims service with
        | Err e => Ret (Err e)
        | Ok ports => stageServices shard rest (acc ++ [(service, ports)])
        end
      else stageServices shard rest acc
  end.
Definition staged_plan (shard : string) (staged : list (Service * list nodeLoadBalancerPortClaim)) : nodeLoadBalancerShardPlan :=
  Build_nodeLoadBalancerShardPlan shard "" "" 0 0 0 (sort_strings (map (fun e => sv_UID e.1) staged)) (sortNodeLoadBalancerPorts (List.concat (map snd staged))).
(** The policy and its ledger; [None] when no Service is staged. *)
Definition desiredStagedShardFirewallPolicy (shard : string) : prog sres (result (option (nodeLoadBalancerShardFirewallPolicy * string))) :=
  if negb (isManagedNodeLoadBalancerShardName shard) then Ret (Err (Msg "node load balancer: invalid shard"))
  else
  let! listed := call ListServices in
  match listed with
  | Err e => Ret (Err (Wrap "node load balancer: list Services for shard policy" [e]))
  | Ok items =>
      try_let! staged := stageServices shard items [] in
      match staged with
      | [] => Ret (Ok None)
      | _ =>
          Ret (try! policy := desiredNodeLoadBalancerShardFirewall sha256_hex IsDNS1123Label (cc_ClusterID cfg) (cc_BillingAccountID cfg) (staged_plan shard staged) (map (fun e => Some e.1) staged) in
               try! ledger := nodeLoadBalancerShardFirewallPolicyLedger sha256_hex IsDNS1123Label policy in
               Ok (Some (policy, ledger)))
      end
  end.

(** ** Authority *)

Definition liveAnchor (pool : NodePool) (shard : string) : bool :=
  managedPool pool shard && containsString (pl_Finalizers pool) nodeLoadBalancerNodePoolFinalizer && bool_decide (pl_DeletionTimestamp pool = None).
Definition authorizeShardFirewallPolicyMutationPreDispatch (shard ownerUID : string) (expected : gmap string string) (desired : nodeLoadBalancerShardFirewallPolicy) (desiredLedger : string)
    : prog sres goerr :=
  let! got := call (GetPool false shard) in
  match got with
  | Err e => Ret (Some (Wrap "node load balancer: re-read shard owner before firewall mutation" [e]))
  | Ok owner =>
      if (pl_Name owner != shard) || ((ownerUID != "") && (pl_UID owner != ownerUID)) || negb (liveAnchor owner shard)
      then Ret (Some (Msg "node load balancer: shard firewall mutation owner is no longer an authoritative live NodePool"))
      else
      let! read := nodeLoadBalancerShardFirewallAnnotations owner in
      match read with
      | Err e => Ret (Some e)
      | Ok annotations =>
          if negb (matches_receipt annotations expected) then Ret (Some (Msg "node load balancer: shard firewall mutation receipt changed after issue"))
          else
          let! derived := desiredStagedShardFirewallPolicy shard in
          match derived with
          | Err e => Ret (Some (Wrap "node load balancer: re-derive live shard firewall policy before mutation" [e]))
          | Ok None => Ret (Some (Msg "node load balancer: live staged Service policy changed after shard firewall mutation issue"))
          | Ok (Some (fresh, freshLedger)) =>
              Ret (if (fp_Hash fresh != fp_Hash desired) || (freshLedger != desiredLedger) || (fp_ClusterID fresh != fp_ClusterID desired) || (fp_Shard fresh != fp_Shard desired)
                      || (CreateFW_DisplayName (fp_Request fresh) != CreateFW_DisplayName (fp_Request desired))
                      || (CreateFW_Description (fp_Request fresh) != CreateFW_Description (fp_Request desired))
                      || negb (CreateFW_BillingAccountID (fp_Request fresh) =? CreateFW_BillingAccountID (fp_Request desired))
                      || (annotation expected PendingHash != fp_Hash fresh) || (annotation expected PendingLedger != freshLedger)
                   then Some (Msg "node load balancer: live staged Service policy changed after shard firewall mutation issue")
                   else None)
          end
      end
  end.

Definition exactNodeLoadBalancerFirewallFresh (uuid : string) : prog sres (result Firewall) :=
  if negb (validNodeLoadBalancerCloudUUID uuid) then Ret (Err (Msg "node load balancer: invalid firewall UUID"))
  else
  let! listed := call (CloudListFirewalls (cc_Location cfg)) in
  Ret (match listed with
       | Err e => Err (Wrap "node load balancer: fresh firewall authority read" [e])
       | Ok items => exactNodeLoadBalancerFirewallFromItems items uuid
       end).
(** The one row with the name, or [None] when no row has it up to case. *)
Definition exact_name_row (items : list Firewall) (name : string) : result (option Firewall) :=
  let matches := List.length (List.filter (fun item => EqualFold (EffectiveName item) name) items) in
  if Nat.eqb matches 0 then Ok None
  else match last_of (fun item => EqualFold (EffectiveName item) name && (EffectiveName item == name)) items with
  | Some exact => if Nat.eqb matches 1 then Ok (Some exact) else Err (Msg "node load balancer: deterministic firewall name has no unique exact authority")
  | None => Err (Msg "node load balancer: deterministic firewall name has no unique exact authority")
  end.
Definition exactNodeLoadBalancerFirewallNameFresh (name : string) : prog sres (result (option Firewall)) :=
  if name == "" then Ret (Err (Msg "node load balancer: exact firewall name authority requires a non-empty name"))
  else
  let! listed := call (CloudListFirewalls (cc_Location cfg)) in
  Ret (match listed with
       | Err e => Err (Wrap "node load balancer: fresh deterministic firewall-name read" [e])
       | Ok items => exact_name_row items name
       end).

(** ** Settling a receipt *)

Definition pendingKeys : list string := [PendingHash; PendingLedger; PendingAt; FWIssuedAt; PendingUUID].
Definition createKeys : list string := [FWCreateAbsent; FWCreateChecked; FWCreateRejected].
Definition incompleteReceipt (expected : gmap string string) : bool :=
  (annotation expected FWIssuedAt == "") || (annotation expected PendingHash == "") || (annotation expected PendingLedger == "") || (annotation expected PendingAt == "").

Definition commitApplied (uuid hash ledger : string) (values : gmap string string) : gmap string string :=
  <[FirewallLedger := ledger]> (<[FirewallHash := hash]> (<[FirewallUUID := uuid]> values)).
Definition transitionShardFirewallMutation (shard ownerUID : string) (expected : gmap string string) (committed : option Firewall) : prog sres goerr :=
  if ownerUID == "" then Ret (Some (Msg "node load balancer: shard firewall mutation transition lacks its exact NodePool UID"))
  else
  let! r := updateAnnotations shard ownerUID (fun values =>
    if negb (matches_receipt values expected) then Err (Msg "node load balancer: shard firewall mutation receipt changed before exact transition")
    else if incompleteReceipt expected then Err (Msg "node load balancer: incomplete shard firewall mutation receipt")
    else match committed with
    | Some firewall =>
        if negb (validNodeLoadBalancerCloudUUID (fw_UUID firewall)) then Err (Msg "node load balancer: invalid observed shard firewall UUID")
        else Ok (delete_keys (pendingKeys ++ createKeys) (commitApplied (fw_UUID firewall) (annotation expected PendingHash) (annotation expected PendingLedger) values))
    | None => Ok (delete_keys (pendingKeys ++ createKeys) values)
    end) in
  Ret (match r with
       | Err e => Some e
       | Ok (updated, changed) =>
           if negb changed then Some (Msg "node load balancer: shard firewall mutation receipt transition was not persisted")
           else if existsb (fun key => annotation (pl_Annotations updated) key != "") pendingKeys then Some (Msg "node load balancer: shard firewall mutation receipt update returned uncleared pending state")
           else match committed with
           | Some firewall =>
               if (annotation (pl_Annotations updated) FirewallUUID != fw_UUID firewall) || (annotation (pl_Annotations updated) FirewallHash != annotation expected PendingHash)
                  || (annotation (pl_Annotations updated) FirewallLedger != annotation expected PendingLedger)
               then Some (Msg "node load balancer: shard firewall mutation receipt update returned unexpected committed state") else None
           | None => None
           end
       end).

Definition resetShardFirewallMutationAfterProvenNonDispatch (shard ownerUID : string) (expected : gmap string string) : prog sres goerr :=
  if (ownerUID == "") || incompleteReceipt expected then Ret (Some (Msg "node load balancer: incomplete shard firewall mutation receipt for pre-dispatch reset"))
  else
  let! r := updateManagedNodePoolAnnotationsForUID true shard ownerUID (fun values => Ret (
    if negb (matches_receipt values expected) then Err (Msg "node load balancer: shard firewall mutation receipt changed before pre-dispatch reset")
    else Ok (delete FWIssuedAt values, true, tt))) in
  Ret (match r with
       | Err e => Some (Wrap "node load balancer: reset proven non-dispatched shard firewall mutation receipt" [e])
       | Ok (updated, changed, _) =>
           if negb changed then Some (Msg "node load balancer: proven non-dispatched shard firewall mutation receipt was not reset")
           else if annotation (pl_Annotations updated) FWIssuedAt != "" then Some (Msg "node load balancer: shard firewall mutation reset retained issued authority")
           else if existsb (fun key => (key != FWIssuedAt) && (annotation (pl_Annotations updated) key != annotation expected key)) nodeLoadBalancerShardFirewallMutationReceiptKeys
           then Some (Msg "node load balancer: shard firewall mutation reset changed its staged identity")
           else None
       end).

(** The rows of a list that satisfy a test: none, one, or an error. *)
Definition unique_row (p : Firewall -> bool) (items : list Firewall) : result (option Firewall) :=
  match List.filter p items with [] => Ok None | [item] => Ok (Some item) | _ => Err (Msg "node load balancer: multiple firewalls share an identity") end.
Definition ownedAs (desired : nodeLoadBalancerShardFirewallPolicy) (firewall : Firewall) (hash : string) : goerr :=
  ValidateNodeLoadBalancerShardFirewall sha256_hex firewall (fp_ClusterID desired) (fp_Shard desired) (CreateFW_BillingAccountID (fp_Request desired)) hash.
(** The firewall is the one the create would make. *)
Definition createdAs (desired : nodeLoadBalancerShardFirewallPolicy) (firewall : Firewall) : bool :=
  validNodeLoadBalancerCloudUUID (fw_UUID firewall)
  && ((fw_Description firewall == "") || (fw_Description firewall == CreateFW_Description (fp_Request desired)))
  && bool_decide (ownedAs desired firewall (fp_Hash desired) = None).

Definition resolveShardFirewallCreateReadback (shard ownerUID : string) (expected : gmap string string) (desired : nodeLoadBalancerShardFirewallPolicy) : prog sres (result Firewall) :=
  let! listed := call (CloudListFirewalls (cc_Location cfg)) in
  match listed with
  | Err e => Ret (Err (Wrap "node load balancer: read back shard firewall after create response" [e]))
  | Ok items =>
      match unique_row (fun item => EffectiveName item == CreateFW_DisplayName (fp_Request desired)) items with
      | Err e => Ret (Err e)
      | Ok None => Ret (Err (Wrap "node load balancer: shard firewall create outcome remains ambiguous" [Sentinel ErrCreateAbsentAfterResponse]))
      | Ok (Some observed) =>
          if negb (createdAs desired observed) then Ret (Err (Msg "node load balancer: stable shard firewall name resolved to a foreign or third-state resource after create response"))
          else
          let! settled := transitionShardFirewallMutation shard ownerUID expected (Some observed) in
          Ret (match settled with Some e => Err e | None => Ok observed end)
      end
  end.

Definition resolveShardFirewallUpdateReadback (shard ownerUID : string) (expected : gmap string string) (desired : nodeLoadBalancerShardFirewallPolicy) : prog sres (result Firewall) :=
  let! listed := call (CloudListFirewalls (cc_Location cfg)) in
  match listed with
  | Err e => Ret (Err (Wrap "node load balancer: read back shard firewall after update response" [e]))
  | Ok items =>
      let name := CreateFW_DisplayName (fp_Request desired) in
      match unique_row (fun item => EffectiveName item == name) items, unique_row (fun item => fw_UUID item == annotation expected FirewallUUID) items with
      | Ok byName, Ok byUUID =>
          if (match byName with Some n => match byUUID with Some u => fw_UUID n != fw_UUID u | None => true end | None => false end)
          then Ret (Err (Msg "node load balancer: stable shard name and applied UUID resolve to different resources after update response"))
          else match byUUID with
          | None => Ret (Err (Msg "node load balancer: shard firewall update outcome remains ambiguous after exact UUID and name absence readback"))
          | Some firewall =>
              if EffectiveName firewall != name then Ret (Err (Msg "node load balancer: applied shard firewall UUID lost its stable name after update response"))
              else if (fw_Description firewall != "") && (fw_Description firewall != CreateFW_Description (fp_Request desired))
              then Ret (Err (Msg "node load balancer: shard firewall has foreign description after update response"))
              else match NodeLoadBalancerShardFirewallSpecHash sha256_hex (fw_Rules firewall) with
              | Err e => Ret (Err (Wrap "node load balancer: shard firewall policy after update response" [e]))
              | Ok actualHash =>
                  if actualHash == annotation expected PendingHash then
                    match ownedAs desired firewall actualHash with
                    | Some e => Ret (Err (Wrap "node load balancer: pending shard firewall readback lost exact ownership" [e]))
                    | None =>
                        let! settled := transitionShardFirewallMutation shard ownerUID expected (Some firewall) in
                        Ret (match settled with Some e => Err e | None => Ok firewall end)
                    end
                  else if actualHash == annotation expected FirewallHash then
                    match ownedAs desired firewall actualHash with
                    | Some e => Ret (Err (Wrap "node load balancer: unchanged shard firewall readback lost exact ownership" [e]))
                    | None => Ret (Err (Msg "node load balancer: shard firewall update outcome remains ambiguous after unchanged readback"))
                    end
                  else Ret (Err (Msg "node load balancer: shard firewall is in a third policy state after update response"))
              end
          end
      | _, _ => Ret (Err (Msg "node load balancer: multiple firewalls share an identity after update response"))
      end
  end.

(** ** Rejected creates *)

Definition nodeLoadBalancerCreateRejectionProvable (createErr readbackErr : error) : bool :=
  nodeLoadBalancerCreateDefinitivelyRejected createErr && Is readbackErr ErrCreateAbsentAfterResponse.
Definition markShardFirewallCreateRejected (shard ownerUID : string) (expected : gmap string string) : prog sres goerr :=
  let issuedAt := annotation expected FWIssuedAt in
  if (ownerUID == "") || (issuedAt == "") then Ret (Some (Msg "node load balancer: incomplete shard firewall create receipt for rejection"))
  else
  let! r := updateAnnotations shard ownerUID (fun values =>
    if negb (matches_receipt values expected) then Err (Msg "node load balancer: shard firewall create receipt changed before rejection was recorded")
    else Ok (delete_keys [FWCreateAbsent; FWCreateChecked] (<[FWCreateRejected := issuedAt]> values))) in
  Ret (match r with Ok _ => None | Err e => Some (Wrap "node load balancer: record definitive shard firewall create rejection" [e]) end).
Definition nodeLoadBalancerRejectedCreateAbsenceNotBefore (issuedAt : string) : result Z :=
  match parse_time issuedAt with
  | Some issued => Ok (issued + nodeLoadBalancerShardFirewallMutationTimeout)
  | None => Err (Msg "node load balancer: invalid rejected firewall create timestamp")
  end.
Definition retireRejectedShardFirewallCreate (shard ownerUID : string) (annotations : gmap string string) : prog sres goerr :=
  let issuedAt := annotation annotations FWIssuedAt in
  match nodeLoadBalancerRejectedCreateAbsenceNotBefore issuedAt with
  | Err e => Ret (Some e)
  | Ok notBefore =>
      let! now := call Clock in
      let! recorded := recordManagedNodePoolFirewallAbsenceForUID shard ownerUID FWCreateAbsent FWCreateChecked now (Some notBefore) in
      match recorded with
      | Err e => Ret (Some e)
      | Ok false => Ret (Some (Msg "node load balancer: shard firewall create was definitively rejected but remains ambiguous until spaced exact-name absence is proven"))
      | Ok true =>
          let expected := nodeLoadBalancerShardFirewallMutationExpected annotations issuedAt in
          let! r := updateAnnotations shard ownerUID (fun values =>
            if negb (matches_receipt values expected) then Err (Msg "node load balancer: shard firewall create receipt changed during rejection absence proof")
            else if annotation values FWCreateRejected != issuedAt then Err (Msg "node load balancer: shard firewall create rejection changed during absence proof")
            else if (match Atoi (annotation values FWCreateAbsent) with Some count => count <? nodeLoadBalancerAbsenceConfirmations | None => true end)
            then Err (Msg "node load balancer: shard firewall create absence is no longer confirmed")
            else Ok (delete_keys [FWIssuedAt; FWCreateRejected; FWCreateAbsent; FWCreateChecked] values)) in
          Ret (match r with Ok _ => None | Err e => Some (Wrap "node load balancer: retire definitively rejected shard firewall create" [e]) end)
      end
  end.

(** ** Reconciliation *)

Notation outcome := (nodeLoadBalancerShardFirewallState * goerr)%type.
Definition err_only {A} (r : result A) : goerr := match r with Ok _ => None | Err e => Some e end.

(** The rows of the shard: by name, by applied and by pending identity. *)
Definition locateShardFirewall (annotations : gmap string string) (stableName : string) (firewalls : list Firewall)
    : result (option Firewall * option Firewall * option Firewall) :=
  let appliedUUID := annotation annotations FirewallUUID in
  let pendingUUID := annotation annotations PendingUUID in
  try! byName := unique_row (fun item => EffectiveName item == stableName) firewalls in
  let byUUID := last_of (fun item => (appliedUUID != "") && (fw_UUID item == appliedUUID)) firewalls in
  let byPending := last_of (fun item => (pendingUUID != "") && (fw_UUID item == pendingUUID)) firewalls in
  let renamed := fun row => match row with Some item => EffectiveName item != stableName | None => false end in
  let differ := fun a b => match a, b with Some x, Some y => fw_UUID x != fw_UUID y | _, _ => false end in
  if renamed byUUID then Err (Msg "node load balancer: persisted shard firewall lost stable name")
  else if differ byName byUUID then Err (Msg "node load balancer: stable shard firewall name and persisted UUID resolve to different resources")
  else if renamed byPending then Err (Msg "node load balancer: pending shard firewall lost stable name")
  else if differ byName byPending then Err (Msg "node load balancer: stable shard firewall name conflicts with pending UUID")
  else if (pendingUUID != "") && (match byName with Some item => fw_UUID item != pendingUUID | None => false end)
  then Err (Msg "node load balancer: stable shard firewall UUID does not match pending UUID")
  else if (pendingUUID != "") && (appliedUUID != "") && (pendingUUID != appliedUUID) then Err (Msg "node load balancer: pending and applied shard firewall UUIDs conflict")
  else Ok (byName, byUUID, byPending).

(** The applied firewall is not listed. *)
Definition retireAbsentFirewall (st : nodeLoadBalancerShardFirewallState) (shard ownerUID appliedUUID : string) (byName : option Firewall) : prog sres outcome :=
  match byName with
  | Some _ => Ret (st, Some (Msg "node load balancer: persisted shard firewall is absent but stable name resolves to different UUID"))
  | None =>
      let! now := call Clock in
      let! recorded := recordManagedNodePoolFirewallAbsenceForUID shard ownerUID FWAbsent FWAbsentChecked now None in
      match recorded with
      | Err e => Ret (st, Some e)
      | Ok false => Ret (st, None)
      | Ok true =>
          let! r := updateAnnotations shard ownerUID (fun values =>
            if annotation values FirewallUUID != appliedUUID then Err (Msg "node load balancer: applied shard firewall identity changed during absence proof")
            else Ok (delete_keys ([FirewallUUID; FirewallHash; FirewallLedger; FWAbsent; FWAbsentChecked] ++ pendingKeys ++ createKeys) values)) in
          Ret (st, err_only r)
      end
  end.

(** The policy of the present firewall becomes the applied one. *)
Definition adopt (shard ownerUID : string) (current : Firewall) (hash ledger : string) : prog sres (result (NodePool * bool)) :=
  updateAnnotations shard ownerUID (fun values => Ok (delete_keys (pendingKeys ++ createKeys ++ [FWAbsent; FWAbsentChecked]) (commitApplied (fw_UUID current) hash ledger values))).
(** A policy is staged, at the time of the write. *)
Definition stagePolicy (shard ownerUID hash ledger : string) (clearCreateAbsence : bool) : prog sres goerr :=
  let! r := updateManagedNodePoolAnnotationsForUID false shard ownerUID (fun values =>
    let! now := call Clock in
    Ret (Ok (delete_keys (if clearCreateAbsence then [FWCreateAbsent; FWCreateChecked] else [])
               (<[PendingAt := format_time now]> (<[PendingLedger := ledger]> (<[PendingHash := hash]> values))), true, tt))) in
  Ret (err_only r).

Definition committedState (st : nodeLoadBalancerShardFirewallState) (firewall : Firewall) (hash ledger : string) : nodeLoadBalancerShardFirewallState :=
  st <| st_Firewall := Some firewall |> <| st_AppliedHash := hash |> <| st_AppliedLedger := ledger |> <| st_PolicyReady := true |>.
Definition rejectUndispatched (st : nodeLoadBalancerShardFirewallState) (shard ownerUID : string) (expected : gmap string string) (rejection : error) : prog sres outcome :=
  let! reset := resetShardFirewallMutationAfterProvenNonDispatch shard ownerUID expected in
  Ret (st <| st_MutationIssued := match reset with Some _ => true | None => false end |>, Join [Some rejection; reset]).

(** The create, from its issue on. *)
Definition createShardFirewall (st : nodeLoadBalancerShardFirewallState) (shard ownerUID : string) (annotations : gmap string string)
    (desired : nodeLoadBalancerShardFirewallPolicy) (ledger : string) : prog sres outcome :=
  let! now := call Clock in
  let! issued := issueShardFirewallMutation shard ownerUID (nodeLoadBalancerShardFirewallMutationExpected annotations "") (format_time now) true in
  match issued with
  | Err e => Ret (st, Some e)
  | Ok expected =>
      let reject := rejectUndispatched st shard ownerUID expected in
      let committed := fun firewall => committedState st firewall (fp_Hash desired) ledger in
      let! fresh := exactNodeLoadBalancerFirewallNameFresh (CreateFW_DisplayName (fp_Request desired)) in
      match fresh with
      | Err e => reject (Wrap "node load balancer: authorize shard firewall create after issue" [e])
      | Ok (Some observed) =>
          if negb (createdAs desired observed) then reject (Msg "node load balancer: stable shard firewall name became foreign after create issue")
          else
          let! recovered := resolveShardFirewallCreateReadback shard ownerUID expected desired in
          match recovered with
          | Err e => reject e
          | Ok firewall => Ret (committed firewall, None)
          end
      | Ok None =>
          let! authority := authorizeShardFirewallPolicyMutationPreDispatch shard ownerUID expected desired ledger in
          match authority with
          | Some e => reject (Wrap "node load balancer: reject shard firewall create at final authority" [e])
          | None =>
              let! created := call (CloudCreateFirewall (cc_Location cfg) (fp_Request desired)) in
              match created with
              | Err createErr =>
                  let wrapped := Wrap "node load balancer: create shard firewall" [createErr] in
                  if nodeLoadBalancerMutationKnownPreDispatch createErr then reject wrapped
                  else
                  let! recovered := resolveShardFirewallCreateReadback shard ownerUID expected desired in
                  match recovered with
                  | Ok firewall => Ret (committed firewall, None)
                  | Err recoveryErr =>
                      if nodeLoadBalancerCreateRejectionProvable createErr recoveryErr then
                        let! marked := markShardFirewallCreateRejected shard ownerUID expected in
                        Ret (st, Join [Some wrapped; Some recoveryErr; marked])
                      else Ret (st, Join [Some wrapped; Some recoveryErr])
                  end
              | Ok response =>
                  let invalid := validateCreatedNodeLoadBalancerFirewall response (fp_Request desired) in
                  let! recovered := resolveShardFirewallCreateReadback shard ownerUID expected desired in
                  match recovered, invalid with
                  | Ok firewall, _ => Ret (committed firewall, None)
                  | Err recoveryErr, Some e => Ret (st, Join [Some (Wrap "node load balancer: created shard firewall response" [e]); Some recoveryErr])
                  | Err recoveryErr, None => Ret (st <| st_MutationIssued := true |>, Some recoveryErr)
                  end
              end
          end
      end
  end.

(** The replacement of the rules, from its issue on. *)
Definition replaceShardFirewall (st : nodeLoadBalancerShardFirewallState) (shard ownerUID : string) (annotations : gmap string string) (current : Firewall)
    (desired : nodeLoadBalancerShardFirewallPolicy) (ledger : string) (request : UpdateFirewallRequest) : prog sres outcome :=
  let! now := call Clock in
  let! issued := issueShardFirewallMutation shard ownerUID (nodeLoadBalancerShardFirewallMutationExpected annotations "") (format_time now) false in
  match issued with
  | Err e => Ret (st, Some e)
  | Ok expected =>
      let reject := rejectUndispatched st shard ownerUID expected in
      let authorize := authorizeShardFirewallPolicyMutationPreDispatch shard ownerUID expected desired ledger in
      let! authority := authorize in
      match authority with
      | Some e => reject (Wrap "node load balancer: reject shard firewall update at final authority" [e])
      | None =>
        let! fresh := exactNodeLoadBalancerFirewallFresh (fw_UUID current) in
        match fresh with
        | Err e => reject (Wrap "node load balancer: authorize shard firewall update after issue" [e])
        | Ok fresh =>
          if negb (nodeLoadBalancerFirewallAuthorityUnchanged current fresh) then reject (Msg "node load balancer: shard firewall changed after update issue")
          else match ownedAs desired fresh (annotation expected FirewallHash) with
          | Some e => reject (Wrap "node load balancer: shard firewall lost exact applied-policy authority after update issue" [e])
          | None =>
            let! authority := authorize in
            match authority with
            | Some e => reject (Wrap "node load balancer: reject shard firewall update at final authority" [e])
            | None =>
              let readback := fun wrapped =>
                let! recovered := resolveShardFirewallUpdateReadback shard ownerUID expected desired in
                Ret (match recovered with
                     | Ok firewall => (committedState st firewall (fp_Hash desired) ledger, None)
                     | Err recoveryErr => (st <| st_MutationIssued := true |>, Join [Some wrapped; Some recoveryErr])
                     end) in
              let! updated := call (CloudUpdateFirewall (cc_Location cfg) (fw_UUID current) request) in
              match updated with
              | Err updateErr =>
                  let wrapped := Wrap "node load balancer: update shard firewall" [updateErr] in
                  if nodeLoadBalancerMutationKnownPreDispatch updateErr then reject wrapped else readback wrapped
              | Ok response =>
                  match validateUpdatedNodeLoadBalancerShardFirewallResponse response (fw_UUID current) desired with
                  | Some e => readback (Wrap "node load balancer: updated shard firewall response" [e])
                  | None => Ret (st <| st_MutationIssued := true |>, None)
                  end
              end
            end
          end
        end
      end
  end.

(** No firewall of the shard is listed. *)
Definition reconcileAbsent (st : nodeLoadBalancerShardFirewallState) (shard ownerUID : string) (annotations : gmap string string)
    (desired : nodeLoadBalancerShardFirewallPolicy) (ledger : string) : prog sres outcome :=
  let issued := annotation annotations FWIssuedAt in
  let stage := let! e := stagePolicy shard ownerUID (fp_Hash desired) ledger true in Ret (st, e) in
  if annotation annotations FirewallUUID != "" then Ret (st, Some (Msg "node load balancer: persisted shard firewall is absent from authoritative readback"))
  else if annotation annotations PendingHash == "" then stage
  else if (issued != "") && (annotation annotations FWCreateRejected == issued) then
    let! e := retireRejectedShardFirewallCreate shard ownerUID annotations in Ret (st, e)
  else if (annotation annotations PendingHash != fp_Hash desired) || (annotation annotations PendingLedger != ledger) then
    if issued != "" then Ret (st, Some (Msg "node load balancer: waiting for an issued shard firewall create before changing desired policy"))
    else stage
  else if issued != "" then Ret (st, Some (Msg "node load balancer: shard firewall create remains ambiguous; refusing a second paid create"))
  else createShardFirewall st shard ownerUID annotations desired ledger.

(** The applied firewall is listed with its applied policy. *)
Definition reconcilePresent (st : nodeLoadBalancerShardFirewallState) (shard ownerUID : string) (annotations : gmap string string) (current : Firewall)
    (desired : nodeLoadBalancerShardFirewallPolicy) (ledger : string) : prog sres outcome :=
  let issued := annotation annotations FWIssuedAt in
  let pendingHash := annotation annotations PendingHash in
  let issuedPendingHash := if issued != "" then pendingHash else "" in
  let stage := let! e := stagePolicy shard ownerUID (fp_Hash desired) ledger false in Ret (st, e) in
  let applied := (st_AppliedHash st == fp_Hash desired) && (st_AppliedLedger st == ledger) in
  if applied && ((issuedPendingHash == "") || (issuedPendingHash == fp_Hash desired)) then Ret (st <| st_PolicyReady := true |>, None)
  else if applied then Ret (st, Some (Msg "node load balancer: shard firewall update issued for a different policy remains unresolved; policy is not ready"))
  else if (st_AppliedHash st == fp_Hash desired) && (pendingHash == "") then
    let! r := updateAnnotations shard ownerUID (fun values => Ok (<[FirewallLedger := ledger]> values)) in Ret (st, err_only r)
  else if pendingHash == "" then stage
  else if (pendingHash != fp_Hash desired) || (annotation annotations PendingLedger != ledger) then
    if issued != "" then Ret (st, Some (Msg "node load balancer: waiting for issued shard firewall update to resolve")) else stage
  else if issued != "" then Ret (st, Some (Msg "node load balancer: shard firewall update remains ambiguous; refusing another mutation"))
  else match nodeLoadBalancerShardFirewallUpdateRequest sha256_hex IsDNS1123Label current desired with
  | Err e => Ret (st, Some e)
  | Ok request => replaceShardFirewall st shard ownerUID annotations current desired ledger request
  end.

(** A firewall of the shard is listed: promote, adopt, or compare it with the applied policy. *)
Definition reconcileCurrent (st : nodeLoadBalancerShardFirewallState) (shard ownerUID : string) (annotations : gmap string string) (current : Firewall)
    (desired : nodeLoadBalancerShardFirewallPolicy) (ledger : string) : prog sres outcome :=
  match NodeLoadBalancerShardFirewallSpecHash sha256_hex (fw_Rules current) with
  | Err e => Ret (st, Some (Wrap "node load balancer: shard firewall policy" [e]))
  | Ok actualHash =>
    match ValidateNodeLoadBalancerShardFirewall sha256_hex current (cc_ClusterID cfg) shard (cc_BillingAccountID cfg) actualHash with
    | Some e => Ret (st, Some (Wrap "node load balancer: shard firewall lost exact ownership" [e]))
    | None =>
      let appliedHash := annotation annotations FirewallHash in
      let pendingHash := annotation annotations PendingHash in
      let pendingLedger := annotation annotations PendingLedger in
      if (fw_Description current != "") && (fw_Description current != nodeLoadBalancerShardFirewallDescription)
      then Ret (st, Some (Msg "node load balancer: shard firewall has foreign description"))
      else if (pendingHash != "") && (actualHash == pendingHash) then
        let! r := adopt shard ownerUID current pendingHash pendingLedger in
        Ret (match r with
             | Err e => (st, Some e)
             | Ok _ => ((committedState st current pendingHash pendingLedger) <| st_PolicyReady := (pendingHash == fp_Hash desired) && (pendingLedger == ledger) |>, None)
             end)
      else if (appliedHash == "") && (actualHash == fp_Hash desired) then
        let! r := adopt shard ownerUID current (fp_Hash desired) ledger in
        Ret (match r with Err e => (st, Some e) | Ok _ => (committedState st current (fp_Hash desired) ledger, None) end)
      else if (appliedHash == "") || (actualHash != appliedHash)
      then Ret (st, Some (Msg "node load balancer: shard firewall policy hash matches neither applied nor pending state"))
      else reconcilePresent (st <| st_Firewall := Some current |> <| st_AppliedHash := appliedHash |> <| st_AppliedLedger := annotation annotations FirewallLedger |>)
             shard ownerUID annotations current desired ledger
    end
  end.

(** The rows are known. *)
Definition reconcileLocated (st : nodeLoadBalancerShardFirewallState) (shard ownerUID : string) (annotations : gmap string string)
    (desired : nodeLoadBalancerShardFirewallPolicy) (ledger : string) (rows : option Firewall * option Firewall * option Firewall) : prog sres outcome :=
  let '(byName, byUUID, byPending) := rows in
  let appliedUUID := annotation annotations FirewallUUID in
  if (appliedUUID != "") && bool_decide (byUUID = None) then retireAbsentFirewall st shard ownerUID appliedUUID byName
  else
  let! cleared := (if appliedUUID != "" then clearManagedNodePoolFirewallAbsenceForUID shard ownerUID [FWAbsent; FWAbsentChecked] else Ret None) in
  match cleared with
  | Some e => Ret (st, Some e)
  | None =>
      let current := if appliedUUID != "" then byUUID
                     else if annotation annotations PendingUUID != "" then match byPending with Some row => Some row | None => byName end
                     else byName in
      match current with
      | None => reconcileAbsent st shard ownerUID annotations desired ledger
      | Some current =>
          let! cleared := clearManagedNodePoolFirewallAbsenceForUID shard ownerUID [FWCreateAbsent; FWCreateChecked] in
          match cleared with
          | Some e => Ret (st, Some e)
          | None => reconcileCurrent st shard ownerUID annotations current desired ledger
          end
      end
  end.

Definition reconcileShardFirewallPolicy (shard : string) : prog sres outcome :=
  let! derived := desiredStagedShardFirewallPolicy shard in
  match derived with
  | Err e => Ret (zero_state, Some e)
  | Ok None => Ret (zero_state, None)
  | Ok (Some (desired, ledger)) =>
      let st := zero_state <| st_DesiredHash := fp_Hash desired |> <| st_DesiredLedger := ledger |> in
      let! got := call (GetPool false shard) in
      match got with
      | Err e => Ret (st, Some (Wrap "node load balancer: get NodePool for shard firewall" [e]))
      | Ok pool =>
          if negb (liveAnchor pool shard) then Ret (st, Some (Msg "node load balancer: NodePool is not an authoritative live shard-state anchor"))
          else if pl_UID pool == "" then Ret (st, Some (Msg "node load balancer: NodePool has an empty UID"))
          else
          let! read := nodeLoadBalancerShardFirewallAnnotations pool in
          match read with
          | Err e => Ret (st, Some e)
          | Ok annotations =>
              let! listed := call (CloudListFirewalls (cc_Location cfg)) in
              match listed with
              | Err e => Ret (st, Some (Wrap "node load balancer: list shard firewalls" [e]))
              | Ok firewalls =>
                  match locateShardFirewall annotations (CreateFW_DisplayName (fp_Request desired)) firewalls with
                  | Err e => Ret (st, Some e)
                  | Ok rows => reconcileLocated st shard (pl_UID pool) annotations desired ledger rows
                  end
              end
          end
      end
  end.
End State.
