(* ===== verification/ShardSafety.v ===== *)
(** * When a shard firewall may be created or replaced

    Every create and every replacement that [reconcileShardFirewallPolicy] sends follows an issue of exactly that
    mutation, read back from the NodePool of the shard, and a policy derived once more from the live Services
    directly before it. A run writes over an issued receipt, of its own or of an earlier run, only for a reason that
    its answers and lists show. *)

From S2P Require Import Prelude GoErrors ClientErrors CSIFence Prog KubernetesFence GoNet ClientResources GoHTTP NodeFirewall NodeFirewallSpec KubeService ShardPlanner ShardPlannerSpec ShardFirewall ShardFirewallSpec ShardState.


(** ** Actions that leave the cloud alone *)

Definition cloud_mutation (x : sact) : Prop := match x with CloudCreateFirewall _ _ | CloudUpdateFirewall _ _ _ => True | _ => False end.
Definition quiet (x : sact) : Prop := ~ cloud_mutation x.
Definition reads_clock (x : sact) : Prop := x = Clock.

Create HintDb shard_quiet.
Ltac only_step :=
  match goal with
  | |- only _ (Ret _) => exact I
  | |- only _ (call _) => split; [try (intros []); try reflexivity; exact I|intros; exact I]
  | |- only _ (bind _ _) => apply only_bind; [|intros ?]
  | |- only _ (match ?x with _ => _ end) => destruct x
  | |- only _ (let _ := _ in _) => cbv zeta
  end.
Ltac only_tac := repeat first [solve [auto with shard_quiet nocore] | only_step].

(** The test of the program at hand. *)
Ltac test H :=
  match goal with
  | |- wp _ (if ?b then _ else _) _ _ => destruct b eqn:H
  | |- wp _ (Ret (if ?b then _ else _)) _ _ => destruct b eqn:H
  end.

Section Safety.
Context `{TT : TimeText} (sha256_hex : string -> string) (IsDNS1123Label : string -> bool) (ParseQuantity : string -> option (Z * Z)) (cfg : CloudConfig).
Notation reconcile := (reconcileShardFirewallPolicy sha256_hex IsDNS1123Label ParseQuantity cfg).
Notation derive := (desiredStagedShardFirewallPolicy sha256_hex IsDNS1123Label ParseQuantity cfg).
Notation authorize := (authorizeShardFirewallPolicyMutationPreDispatch sha256_hex IsDNS1123Label ParseQuantity cfg).
Notation issue := (issueShardFirewallMutation IsDNS1123Label cfg).
Notation read_receipt := (nodeLoadBalancerShardFirewallAnnotations IsDNS1123Label).

Lemma clock_stamp stamp : only reads_clock (validateStamp stamp).
Proof. unfold validateStamp. only_tac. Qed.
#[local] Hint Resolve clock_stamp : shard_quiet.
Lemma clock_receipt pool : only reads_clock (read_receipt pool).
Proof. unfold nodeLoadBalancerShardFirewallAnnotations, pendingError, issuedError. only_tac. Qed.
Lemma quiet_receipt pool : only quiet (read_receipt pool).
Proof. eapply only_mono; [|apply clock_receipt]. intros x -> []. Qed.
Lemma quiet_update {X} detached shard uid (mutate : gmap string string -> prog sres (result (gmap string string * bool * X))) :
  (forall values, only quiet (mutate values)) -> only quiet (updateManagedNodePoolAnnotationsForUID cfg detached shard uid mutate).
Proof. intros Hm. unfold updateManagedNodePoolAnnotationsForUID. only_tac. Qed.
#[local] Hint Resolve quiet_receipt quiet_update : shard_quiet.
Lemma quiet_annotations shard uid mutate : only quiet (updateAnnotations cfg shard uid mutate).
Proof. unfold updateAnnotations. apply only_bind; [by apply quiet_update|done]. Qed.
#[local] Hint Resolve quiet_annotations : shard_quiet.
Lemma quiet_record shard uid a b now t : only quiet (recordManagedNodePoolFirewallAbsenceForUID cfg shard uid a b now t).
Proof. unfold recordManagedNodePoolFirewallAbsenceForUID. destruct (match t with Some _ => _ | None => _ end); [exact I|]. apply only_bind; [by apply quiet_update|done]. Qed.
Lemma quiet_clear shard uid keys : only quiet (clearManagedNodePoolFirewallAbsenceForUID cfg shard uid keys).
Proof. unfold clearManagedNodePoolFirewallAbsenceForUID. apply only_bind; [by apply quiet_update|done]. Qed.
Lemma quiet_stage shard uid hash ledger b : only quiet (stagePolicy cfg shard uid hash ledger b).
Proof. unfold stagePolicy. apply only_bind; [|done]. apply quiet_update. intros values. only_tac. Qed.
Lemma quiet_issue shard uid staged at_ b : only quiet (issue shard uid staged at_ b).
Proof. unfold issueShardFirewallMutation. only_tac. Qed.
Lemma quiet_member shard s : only quiet (stagedMember sha256_hex IsDNS1123Label ParseQuantity cfg shard s).
Proof. unfold stagedMember. only_tac. Qed.
#[local] Hint Resolve quiet_record quiet_clear quiet_stage quiet_issue quiet_member : shard_quiet.
Lemma quiet_services shard items : forall acc, only quiet (stageServices sha256_hex IsDNS1123Label ParseQuantity cfg shard items acc).
Proof. induction items as [|s items IH]; intros acc; cbn [stageServices]; only_tac. Qed.
#[local] Hint Resolve quiet_services : shard_quiet.
Lemma quiet_derive shard : only quiet (derive shard).
Proof. unfold desiredStagedShardFirewallPolicy. only_tac. Qed.
#[local] Hint Resolve quiet_derive : shard_quiet.
Lemma quiet_authorize shard uid expected desired ledger : only quiet (authorize shard uid expected desired ledger).
Proof. unfold authorizeShardFirewallPolicyMutationPreDispatch. only_tac. Qed.
Lemma quiet_fresh uuid : only quiet (exactNodeLoadBalancerFirewallFresh cfg uuid).
Proof. unfold exactNodeLoadBalancerFirewallFresh. only_tac. Qed.
Lemma quiet_name name : only quiet (exactNodeLoadBalancerFirewallNameFresh cfg name).
Proof. unfold exactNodeLoadBalancerFirewallNameFresh. only_tac. Qed.
Lemma quiet_transition shard uid expected committed : only quiet (transitionShardFirewallMutation cfg shard uid expected committed).
Proof. unfold transitionShardFirewallMutation. only_tac. Qed.
Lemma quiet_reset shard uid expected : only quiet (resetShardFirewallMutationAfterProvenNonDispatch cfg shard uid expected).
Proof. unfold resetShardFirewallMutationAfterProvenNonDispatch. destruct (_ || _); [exact I|]. apply only_bind; [by apply quiet_update|done]. Qed.
#[local] Hint Resolve quiet_authorize quiet_fresh quiet_name quiet_transition quiet_reset : shard_quiet.
Lemma quiet_reject st shard uid expected e : only quiet (rejectUndispatched cfg st shard uid expected e).
Proof. unfold rejectUndispatched. only_tac. Qed.
Lemma quiet_create_readback shard uid expected desired : only quiet (resolveShardFirewallCreateReadback sha256_hex cfg shard uid expected desired).
Proof. unfold resolveShardFirewallCreateReadback. only_tac. Qed.
Lemma quiet_update_readback shard uid expected desired : only quiet (resolveShardFirewallUpdateReadback sha256_hex cfg shard uid expected desired).
Proof. unfold resolveShardFirewallUpdateReadback. only_tac. Qed.
Lemma quiet_mark shard uid expected : only quiet (markShardFirewallCreateRejected cfg shard uid expected).
Proof. unfold markShardFirewallCreateRejected. only_tac. Qed.
Lemma quiet_retire shard uid annotations : only quiet (retireRejectedShardFirewallCreate cfg shard uid annotations).
Proof. unfold retireRejectedShardFirewallCreate. only_tac. Qed.
Lemma quiet_absent st shard uid uuid byName : only quiet (retireAbsentFirewall cfg st shard uid uuid byName).
Proof. unfold retireAbsentFirewall. only_tac. Qed.
Lemma quiet_adopt shard uid current hash ledger : only quiet (adopt cfg shard uid current hash ledger).
Proof. apply quiet_annotations. Qed.
#[local] Hint Resolve quiet_reject quiet_create_readback quiet_update_readback quiet_mark quiet_retire quiet_absent quiet_adopt : shard_quiet.

(** ** Receipts *)

Lemma matches_receipt_spec values expected : matches_receipt values expected = true <->
  forall key, key ∈ nodeLoadBalancerShardFirewallMutationReceiptKeys -> annotation values key = annotation expected key.
Proof.
  unfold matches_receipt. rewrite forallb_forall. split; intros H key Hk.
  - apply (bool_decide_eq_true_1 _), H. by apply list_elem_of_In.
  - apply bool_decide_eq_true_2, H. by apply list_elem_of_In.
Qed.
Lemma receipt_insert m k v : annotation (<[k := v]> m) k = v.
Proof. unfold annotation. by rewrite lookup_insert_eq. Qed.
Lemma receipt_insert_ne m k v k' : k <> k' -> annotation (<[k := v]> m) k' = annotation m k'.
Proof. intros. unfold annotation. by rewrite lookup_insert_ne. Qed.
Lemma annotation_delete_ne m k k' : k <> k' -> annotation (delete k m) k' = annotation m k'.
Proof. intros. unfold annotation. by rewrite lookup_delete_ne. Qed.
Lemma annotation_delete_keys keys : forall m k, k ∉ keys -> annotation (delete_keys keys m) k = annotation m k.
Proof.
  induction keys as [|d keys IH]; intros m k Hk; [done|]. apply not_elem_of_cons in Hk as [Hd Hk]. unfold delete_keys in *. cbn [foldl]. rewrite IH by done. by apply annotation_delete_ne.
Qed.
Lemma expected_issued m at_ : annotation (nodeLoadBalancerShardFirewallMutationExpected m at_) FWIssuedAt = at_.
Proof. apply receipt_insert. Qed.
Lemma expected_kept m at_ key : key ∈ nodeLoadBalancerShardFirewallMutationReceiptKeys -> key <> FWIssuedAt ->
  annotation (nodeLoadBalancerShardFirewallMutationExpected m at_) key = annotation m key.
Proof.
  intros Hk Hne. unfold nodeLoadBalancerShardFirewallMutationExpected. rewrite receipt_insert_ne by done. unfold annotation at 1.
  assert (Hd : NoDup nodeLoadBalancerShardFirewallMutationReceiptKeys) by (apply (bool_decide_eq_true_1 _); vm_compute; reflexivity).
  assert (E : (list_to_map (map (fun key => (key, annotation m key)) nodeLoadBalancerShardFirewallMutationReceiptKeys) : gmap string string) !! key = Some (annotation m key)).
  { apply elem_of_list_to_map; [by rewrite <-list_fmap_compose; cbn -[FirewallUUID] in *|]. by apply (list_elem_of_fmap_2 (fun key => (key, annotation m key))). }
  by rewrite E.
Qed.

(** A write of annotations that was read back. *)
Definition written_and_read (shard uid : string) (mutate : gmap string string -> result (gmap string string)) (pool : NodePool) (h : list (event sres)) : Prop :=
  exists before written answered after,
    h = [Ev (GetPool false shard) (Ok pool : sres (GetPool false shard)); Ev (UpdatePool false written) (Ok answered : sres (UpdatePool false written));
         Ev (GetPool false shard) (Ok before : sres (GetPool false shard))]
    /\ pl_UID before = uid /\ pl_UID written = uid /\ pl_ResourceVersion written = pl_ResourceVersion before /\ managedPool cfg before shard = true
    /\ mutate (pl_Annotations before) = Ok after /\ pl_Annotations written = after.

Lemma annotations_spec shard uid mutate : uid <> "" ->
  ensures (updateAnnotations cfg shard uid mutate) (fun r h => forall pool changed, r = Ok (pool, changed) -> changed = true /\ written_and_read shard uid mutate pool h).
Proof.
  intros Hu. unfold ensures, updateAnnotations, updateManagedNodePoolAnnotationsForUID. cbn [bind call wp]. split; [exact I|]. intros [before|e]; [|done]. cbn [bind].
  rewrite (bool_decide_eq_false_2 (uid = "") Hu). cbn [negb andb]. destruct (bool_decide_reflect (pl_UID before = uid)) as [Huid|]; [|done]. cbn [negb].
  destruct (managedPool cfg before shard) eqn:Hm; [|done]. cbn [negb]. destruct (mutate (pl_Annotations before)) as [after|e] eqn:Hmut; [|done]. cbn [result_map bind negb andb].
  destruct (negb (containsString _ _) && _); [done|]. cbn [bind wp]. split; [exact I|]. intros [answered|e]; [|done]. cbn [bind].
  destruct (validateManagedNodePoolAnnotationWrite _ _ _ _ _); [done|]. cbn [bind wp]. split; [exact I|]. intros [verified|e]; [|done]. cbn [bind wp].
  destruct (validateManagedNodePoolAnnotationWrite _ _ _ _ _); [done|]. cbn. intros pool changed [= <- <-]. split; [done|]. eexists before, _, answered, after. split_and!; done.
Qed.

(** ** The issue *)

(** The newest events are the issue of [expected], on a NodePool whose receipt was staged and not issued. *)
Definition issue_segment (shard uid : string) (expected : gmap string string) (h : list (event sres)) : Prop :=
  exists clocks verified written answered before,
    h = clocks ++ [Ev (GetPool false shard) (Ok verified : sres (GetPool false shard)); Ev (UpdatePool false written) (Ok answered : sres (UpdatePool false written));
                   Ev (GetPool false shard) (Ok before : sres (GetPool false shard))]
    /\ performed reads_clock clocks /\ pl_UID before = uid /\ pl_UID written = uid /\ pl_ResourceVersion written = pl_ResourceVersion before
    /\ managedPool cfg before shard = true /\ annotation (pl_Annotations before) FWIssuedAt = "" /\ annotation expected FWIssuedAt <> ""
    /\ matches_receipt (pl_Annotations written) expected = true /\ matches_receipt (pl_Annotations verified) expected = true.

(** The reader of a receipt gives back the annotations it read. *)
Lemma receipt_returns pool : ensures (read_receipt pool) (fun r _ => forall m, r = Ok m -> m = pl_Annotations pool).
Proof.
  unfold ensures, nodeLoadBalancerShardFirewallAnnotations. destruct (appliedError _ _); [done|]. apply wp_bind, wp_skip. intros [e|] h1; [done|]. apply wp_bind, wp_skip. intros [e|] h2; [done|].
  cbn [wp]. intros m. destruct (receiptTailError _); [done|]. by intros [= <-].
Qed.

Lemma issue_spec shard uid m at_ clear : at_ <> "" ->
  ensures (issue shard uid (nodeLoadBalancerShardFirewallMutationExpected m "") at_ clear) (fun r h => forall expected, r = Ok expected ->
    uid <> "" /\ issue_segment shard uid expected h /\ annotation m PendingUUID = ""
    /\ forall key, key ∈ nodeLoadBalancerShardFirewallMutationReceiptKeys -> key <> FWIssuedAt -> annotation expected key = annotation m key).
Proof.
  intros Hat. unfold ensures, issueShardFirewallMutation. test Hg; [done|]. destruct (bool_decide (parse_time at_ = None)); [done|].
  rewrite !orb_false_iff, !negb_false_iff, !bool_decide_eq_false, !bool_decide_eq_true in Hg. destruct Hg as (((((Hu & _) & _) & _) & _) & Hpu).
  apply wp_bind. eapply wp_mono; [apply (annotations_spec shard uid); exact Hu|]. intros [[pool changed]|e] h1 Hw; [|done]. destruct (Hw pool changed eq_refl) as [-> Hwr]. cbn [negb].
  apply wp_bind. apply (wp_use any_action reads_clock _ _ (fun r _ => forall m, r = Ok m -> m = pl_Annotations pool)); [apply clock_receipt|done|apply receipt_returns|].
  intros [verified|e] clocks Hc Hv; [|done]. rewrite (Hv verified eq_refl). clear Hv verified. cbn [wp]. destruct (matches_receipt (pl_Annotations pool) _) eqn:Hmat; [|done].
  intros expected [= <-]. set (staged := nodeLoadBalancerShardFirewallMutationExpected m "") in *.
  destruct Hwr as (before & written & answered & after & -> & Hub & Huw & Hrv & Hman & Hmut & Haft). destruct (matches_receipt (pl_Annotations before) staged) eqn:Hst; [|done]. cbn [negb] in Hmut.
  injection Hmut as <-. rewrite matches_receipt_spec in Hst.
  assert (Hiss : annotation (pl_Annotations before) FWIssuedAt = "") by (rewrite Hst by (apply (bool_decide_eq_true_1 _); reflexivity); apply expected_issued).
  assert (Hkeep : forall key, key ∈ nodeLoadBalancerShardFirewallMutationReceiptKeys -> key <> FWIssuedAt -> annotation (nodeLoadBalancerShardFirewallMutationExpected staged at_) key = annotation m key).
  { intros key Hk Hne. rewrite expected_kept by done. by apply expected_kept. }
  split_and!; [done| | |done].
  - exists clocks, pool, written, answered, before. split_and!; try done. apply matches_receipt_spec. intros key Hk. rewrite Haft.
    assert (Hnc : key ∉ [FWCreateAbsent; FWCreateChecked]) by (intros Hin; revert Hk; repeat (apply elem_of_cons in Hin as [->|Hin]); [| |by apply elem_of_nil in Hin]; apply (bool_decide_eq_false_1 _); reflexivity).
    rewrite annotation_delete_keys by (destruct clear; [done|apply not_elem_of_nil]).
    destruct (decide (key = FWIssuedAt)) as [->|Hne]; [by rewrite receipt_insert, expected_issued|]. rewrite receipt_insert_ne by done. rewrite expected_kept by done. by apply Hst.
  - rewrite <-Hpu. unfold staged. rewrite expected_kept; [done|apply (bool_decide_eq_true_1 _); reflexivity|done].
Qed.

(** ** The live policy *)

Lemma ensures_self {A} (p : prog sres A) : ensures p (fun a h => exec p [] (Some a) h).
Proof.
  unfold ensures. generalize (@nil (event sres)). induction p as [a|x k IH| |]; intros h; cbn [wp exec]; [auto| |done|done].
  split; [exact I|]. intros r. eapply wp_mono; [apply IH|]. intros a h' H. right. by exists r.
Qed.

(** A Service whose datapath on the shard and whose present policy were staged, or are being staged again. *)
Definition is_staged (shard : string) (s : Service) : Prop :=
  sv_DeletionTimestamp s = None /\ isNodeLoadBalancerService s = true /\ nodeLoadBalancerFinalizer ∈ sv_Finalizers s
  /\ exists hash, desiredNodeLoadBalancerServicePolicyHash sha256_hex s = Ok hash /\ (staged_for shard hash s = true \/ restaging_for shard hash s = true).
Lemma member_spec shard s : ensures (stagedMember sha256_hex IsDNS1123Label ParseQuantity cfg shard s) (fun b _ => b = true -> is_staged shard s).
Proof.
  unfold ensures, stagedMember. test Hg; [done|]. rewrite !orb_false_iff, !negb_false_iff, bool_decide_eq_true in Hg. destruct Hg as [[Hd Hi] Hf].
  destruct (parseNodeLoadBalancerService _ _ _ _); [|done]. destruct (desiredNodeLoadBalancerServicePolicyHash _ s) as [hash|] eqn:Hh; [|done].
  assert (Hfin : nodeLoadBalancerFinalizer ∈ sv_Finalizers s).
  { unfold containsString in Hf. apply existsb_exists in Hf as (x & Hx & ->%(bool_decide_eq_true_1 _)). by apply list_elem_of_In. }
  test Hm; [done|]. apply andb_false_iff in Hm. rewrite !negb_false_iff in Hm. assert (Hs : is_staged shard s) by (unfold is_staged; eauto 8).
  apply wp_skip. done.
Qed.
Lemma services_spec shard items : forall acc, ensures (stageServices sha256_hex IsDNS1123Label ParseQuantity cfg shard items acc) (fun r _ =>
  forall out e, r = Ok out -> e ∈ out -> e ∈ acc \/ (e.1 ∈ items /\ is_staged shard e.1)).
Proof.
  induction items as [|s items IH]; intros acc; cbn [stageServices]; [intros out e [= <-]; by left|].
  assert (Hrest : forall acc', (forall e, e ∈ acc' -> e ∈ acc \/ (e.1 ∈ s :: items /\ is_staged shard e.1)) -> forall h,
    wp any_action (stageServices sha256_hex IsDNS1123Label ParseQuantity cfg shard items acc') h (fun r _ => forall out e, r = Ok out -> e ∈ out -> e ∈ acc \/ (e.1 ∈ s :: items /\ is_staged shard e.1))).
  { intros acc' Ha h. eapply ensures_use; [apply IH|]. intros r new Hr out e Er He. destruct (Hr out e Er He) as [H|[H1 H2]]; [by apply Ha|]. right. split; [|done]. apply elem_of_cons. by right. }
  apply wp_bind. eapply wp_mono; [apply member_spec|]. intros b h Hb. destruct b; [|apply Hrest; by left]. destruct (nodeLoadBalancerPortClaims s) as [ports|]; [|done].
  apply Hrest. intros e [He| ->%list_elem_of_singleton]%elem_of_app; [by left|]. right. split; [apply elem_of_cons; by left|by apply Hb].
Qed.

(** The policy is the one of listed Services that are staged for the shard. *)
Definition live_policy (shard : string) (policy : nodeLoadBalancerShardFirewallPolicy) (ledger : string) (h : list (event sres)) : Prop :=
  exists items l plan newer,
    h = newer ++ [Ev ListServices (Ok items : sres ListServices)] /\ sh_Name plan = shard /\ (forall s, s ∈ l -> s ∈ items /\ is_staged shard s)
    /\ policy_of sha256_hex IsDNS1123Label plan l policy /\ nodeLoadBalancerShardFirewallPolicyLedger sha256_hex IsDNS1123Label policy = Ok ledger.
Lemma derive_spec shard : ensures (derive shard) (fun r h => forall policy ledger, r = Ok (Some (policy, ledger)) -> live_policy shard policy ledger h).
Proof.
  unfold ensures, desiredStagedShardFirewallPolicy. test Hn; [done|]. apply wp_bind, wp_call; [exact I|]. intros [items|e]; [|done].
  apply wp_bind. eapply ensures_use; [apply services_spec|]. intros [staged|e] newer Hs; [|done]. destruct staged as [|e0 staged0] eqn:Es; [done|]. rewrite <-Es in *. clear Es. cbn [wp].
  destruct (desiredNodeLoadBalancerShardFirewall _ _ _ _ _ _) as [policy|] eqn:Hd; [|done]. destruct (nodeLoadBalancerShardFirewallPolicyLedger _ _ _) as [ledger|] eqn:Hl; [|done].
  intros p0 l0 [= <- <-]. apply desired_policy in Hd as (l & Hperm & Hpol). exists items, l, (staged_plan shard staged), newer. split_and!; [done|done| |done|done].
  intros s Hin. assert (Hin' : Some s ∈ map (fun e => Some e.1) staged) by (rewrite Hperm; by apply list_elem_of_fmap_2).
  apply list_elem_of_fmap in Hin' as (e & [= ->] & He). destruct (Hs staged e eq_refl He) as [?%elem_of_nil|]; done.
Qed.

(** The newest events derived [fresh] from the live Services, after the NodePool was read live with the receipt. *)
Definition authority_segment (shard uid : string) (expected : gmap string string) (fresh : nodeLoadBalancerShardFirewallPolicy) (ledger : string) (h : list (event sres)) : Prop :=
  exists live clocks owner,
    h = live ++ clocks ++ [Ev (GetPool false shard) (Ok owner : sres (GetPool false shard))]
    /\ performed reads_clock clocks /\ exec (derive shard) [] (Some (Ok (Some (fresh, ledger)))) live /\ live_policy shard fresh ledger live
    /\ pl_Name owner = shard /\ pl_UID owner = uid /\ liveAnchor cfg owner shard = true /\ matches_receipt (pl_Annotations owner) expected = true
    /\ annotation expected PendingHash = fp_Hash fresh /\ annotation expected PendingLedger = ledger.
(** The policy that is sent is the fresh one. *)
Definition same_policy (desired fresh : nodeLoadBalancerShardFirewallPolicy) : Prop :=
  fp_Hash desired = fp_Hash fresh /\ fp_ClusterID desired = fp_ClusterID fresh /\ fp_Shard desired = fp_Shard fresh
  /\ CreateFW_DisplayName (fp_Request desired) = CreateFW_DisplayName (fp_Request fresh)
  /\ CreateFW_Description (fp_Request desired) = CreateFW_Description (fp_Request fresh)
  /\ CreateFW_BillingAccountID (fp_Request desired) = CreateFW_BillingAccountID (fp_Request fresh).

Lemma authorize_spec shard uid expected desired ledger : uid <> "" ->
  ensures (authorize shard uid expected desired ledger) (fun r h => r = None -> exists fresh, authority_segment shard uid expected fresh ledger h /\ same_policy desired fresh).
Proof.
  intros Hu. unfold ensures, authorizeShardFirewallPolicyMutationPreDispatch. apply wp_bind, wp_call; [exact I|]. intros [owner|e]; [|done].
  rewrite (bool_decide_eq_false_2 (uid = "") Hu). cbn [negb andb]. test Hg; [done|].
  rewrite !orb_false_iff, !negb_false_iff, !bool_decide_eq_true in Hg. destruct Hg as [[Hn Huid] Hlive].
  apply wp_bind. apply (wp_use any_action reads_clock _ _ (fun r _ => forall m, r = Ok m -> m = pl_Annotations owner)); [apply clock_receipt|done|apply receipt_returns|].
  intros [annotations|e] clocks Hc Hv; [|done]. rewrite (Hv annotations eq_refl). clear Hv annotations. destruct (matches_receipt (pl_Annotations owner) expected) eqn:Hm; [|done]. cbn [negb].
  apply wp_bind. eapply ensures_use; [exact (wp_both _ _ _ _ _ (ensures_self _) (derive_spec shard))|].
  intros [[[fresh freshLedger]|]|e] live [Hlv (new & Hnew & Hpol)]; [|done|done]. rewrite app_nil_r in Hnew. subst new. specialize (Hpol fresh freshLedger eq_refl). test Hg; [done|]. cbn [wp]. intros _.
  rewrite !orb_false_iff, !negb_false_iff, !bool_decide_eq_true, Z.eqb_eq in Hg. destruct Hg as ((((((((Hh & Hl) & Hc1) & Hc2) & Hd1) & Hd2) & Hd3) & Hp1) & Hp2).
  exists fresh. subst freshLedger. split; [|unfold same_policy; split_and!; congruence].
  exists live, clocks, owner. by split_and!.
Qed.

(** ** The reconciliation, up to its mutation

    For a guard that admits every quiet action while nothing was sent, the reconciliation is safe when the create and
    the replacement are. *)

Lemma valid_hash policy : validateNodeLoadBalancerShardFirewallPolicy sha256_hex IsDNS1123Label policy = None ->
  NodeLoadBalancerShardFirewallSpecHash sha256_hex (CreateFW_Rules (fp_Request policy)) = Ok (fp_Hash policy).
Proof.
  unfold validateNodeLoadBalancerShardFirewallPolicy. repeat (destruct (_ || _); [done|]). destruct (NodeLoadBalancerShardFirewallName _ _ _); [|done]. repeat (destruct (_ || _); [done|]).
  destruct (validateMembers _ _ _); [done|]. destruct (NodeLoadBalancerShardFirewallSpecHash _ _) as [hash|]; [|done]. destruct (validateRules _ _); [done|].
  destruct (bool_decide_reflect (fp_Hash policy = hash)) as [->|]; done.
Qed.
Lemma located_uuid annotations name firewalls byName byUUID byPending firewall :
  locateShardFirewall annotations name firewalls = Ok (byName, byUUID, byPending) -> byUUID = Some firewall -> fw_UUID firewall = annotation annotations FirewallUUID.
Proof.
  unfold locateShardFirewall. destruct (unique_row _ _) as [row|]; [|done]. repeat (match goal with |- context [if ?b then Err _ else _] => destruct b; [done|] end).
  intros [= <- <- <-] Hl. unfold last_of in Hl. apply last_Some_elem_of, list_elem_of_In, filter_In in Hl as [_ Hl]. by apply andb_true_iff in Hl as [_ Hl%(bool_decide_eq_true_1 _)].
Qed.
(** The applied identity and hash of a readable receipt come together. *)
Lemma receipt_applied pool : ensures (read_receipt pool) (fun r _ => forall m, r = Ok m -> (annotation m FirewallUUID = "" <-> annotation m FirewallHash = "")).
Proof.
  unfold ensures, nodeLoadBalancerShardFirewallAnnotations. destruct (appliedError _ _) eqn:Ha; [done|]. apply wp_bind, wp_skip. intros [e|] h1; [done|]. apply wp_bind, wp_skip. intros [e|] h2; [done|].
  cbn [wp]. intros m. destruct (receiptTailError _); [done|]. intros [= <-]. unfold appliedError in Ha.
  destruct (bool_decide_reflect (annotation (pl_Annotations pool) FirewallUUID = "")), (bool_decide_reflect (annotation (pl_Annotations pool) FirewallHash = "")); done.
Qed.
Lemma shard_performed_app P (h h' : list (event sres)) : performed P h -> performed P h' -> performed P (h ++ h').
Proof. apply Forall_app_2. Qed.

Section Walk.
Context (G : sact -> list (event sres) -> Prop) (G_quiet : forall x h, quiet x -> performed quiet h -> G x h).

(** A program that leaves the cloud alone, on a history that did. *)
Lemma walk {A} (p : prog sres A) (Q : A -> list (event sres) -> Prop) : only quiet p -> ensures p Q -> forall h, performed quiet h ->
  wp G p h (fun a h' => exists new, h' = new ++ h /\ performed quiet new /\ Q a new).
Proof.
  intros Hq HQ h Hh. unfold ensures in HQ. assert (H0 : performed quiet (@nil (event sres))) by constructor. revert HQ H0. change h with ([] ++ h) at 1. generalize (@nil (event sres)).
  induction p as [a|x k IH| |]; intros h0 HQ H0; cbn [wp only] in *; [by exists h0| |done|done]. destruct Hq as [Hx Hk], HQ as [_ HQ]. split; [apply G_quiet; [done|by apply shard_performed_app]|].
  intros r. apply (IH r (Hk r) (Ev x r :: h0)); [apply HQ|by constructor].
Qed.
Lemma walk_then {A B} (p : prog sres A) (f : A -> prog sres B) h (Q : A -> list (event sres) -> Prop) R : only quiet p -> ensures p Q -> performed quiet h ->
  (forall a new, performed quiet new -> performed quiet (new ++ h) -> Q a new -> wp G (f a) (new ++ h) R) -> wp G (bind p f) h R.
Proof.
  intros Hq HQ Hh Hf. apply wp_bind. eapply wp_mono; [by apply (walk p Q)|]. intros a h' (new & -> & Hnew & Ha). apply Hf; [done|by apply shard_performed_app|done].
Qed.
Lemma walk_rest {A} (p : prog sres A) h : only quiet p -> performed quiet h -> wp G p h (fun _ _ => True).
Proof. intros Hq Hh. eapply wp_mono; [apply (walk p (fun _ _ => True)); [done|by apply wp_skip|done]|done]. Qed.

Context (shard : string).
Hypothesis G_create : forall st uid annotations desired ledger h, performed quiet h -> annotation annotations FirewallUUID = "" ->
  NodeLoadBalancerShardFirewallSpecHash sha256_hex (CreateFW_Rules (fp_Request desired)) = Ok (fp_Hash desired) ->
  wp G (createShardFirewall sha256_hex IsDNS1123Label ParseQuantity cfg st shard uid annotations desired ledger) h (fun _ _ => True).
Hypothesis G_replace : forall st uid annotations current desired ledger request h, performed quiet h -> fw_UUID current = annotation annotations FirewallUUID ->
  NodeLoadBalancerShardFirewallSpecHash sha256_hex (CreateFW_Rules (fp_Request desired)) = Ok (fp_Hash desired) ->
  nodeLoadBalancerShardFirewallUpdateRequest sha256_hex IsDNS1123Label current desired = Ok request ->
  wp G (replaceShardFirewall sha256_hex IsDNS1123Label ParseQuantity cfg st shard uid annotations current desired ledger request) h (fun _ _ => True).

Section Located.
Context (uid : string) (annotations : gmap string string) (desired : nodeLoadBalancerShardFirewallPolicy) (ledger : string).
Hypothesis desired_hash : NodeLoadBalancerShardFirewallSpecHash sha256_hex (CreateFW_Rules (fp_Request desired)) = Ok (fp_Hash desired).

Lemma present_walk st current h : performed quiet h -> fw_UUID current = annotation annotations FirewallUUID ->
  wp G (reconcilePresent sha256_hex IsDNS1123Label ParseQuantity cfg st shard uid annotations current desired ledger) h (fun _ _ => True).
Proof.
  intros Hh Hcur. unfold reconcilePresent. cbv zeta. repeat (match goal with |- wp _ (if ?b then _ else _) _ _ => destruct b end; try solve [apply walk_rest; [only_tac|done]]).
  destruct (nodeLoadBalancerShardFirewallUpdateRequest _ _ _ _) as [request|] eqn:Hr; [by apply G_replace|done].
Qed.
Lemma current_walk st current h : performed quiet h -> (annotation annotations FirewallHash <> "" -> fw_UUID current = annotation annotations FirewallUUID) ->
  wp G (reconcileCurrent sha256_hex IsDNS1123Label ParseQuantity cfg st shard uid annotations current desired ledger) h (fun _ _ => True).
Proof.
  intros Hh Hcur. unfold reconcileCurrent. destruct (NodeLoadBalancerShardFirewallSpecHash _ (fw_Rules current)) as [actual|]; [|done].
  destruct (ValidateNodeLoadBalancerShardFirewall _ _ _ _ _ _); [done|]. cbv zeta. test H1; [done|]. test H2; [apply walk_rest; [only_tac|done]|]. test H3; [apply walk_rest; [only_tac|done]|]. test H4; [done|].
  apply present_walk; [done|]. apply Hcur. apply orb_false_iff in H4 as [H4%(bool_decide_eq_false_1 _) _]. done.
Qed.
Lemma absent_walk st h : performed quiet h -> wp G (reconcileAbsent sha256_hex IsDNS1123Label ParseQuantity cfg st shard uid annotations desired ledger) h (fun _ _ => True).
Proof.
  intros Hh. unfold reconcileAbsent. cbv zeta. test H1; [done|]. apply negb_false_iff, (bool_decide_eq_true_1 _) in H1.
  repeat (match goal with |- wp _ (if ?b then _ else _) _ _ => destruct b end; try solve [apply walk_rest; [only_tac|done]]). by apply G_create.
Qed.
Lemma located_walk st name firewalls rows h : performed quiet h -> (annotation annotations FirewallUUID = "" <-> annotation annotations FirewallHash = "") ->
  locateShardFirewall annotations name firewalls = Ok rows ->
  wp G (reconcileLocated sha256_hex IsDNS1123Label ParseQuantity cfg st shard uid annotations desired ledger rows) h (fun _ _ => True).
Proof.
  destruct rows as [[byName byUUID] byPending]. intros Hh Hiff Hloc. unfold reconcileLocated. cbv zeta. test H1; [apply walk_rest; [only_tac|done]|].
  eapply (walk_then _ _ _ (fun _ _ => True)); [only_tac|by apply wp_skip|done|]. intros [e|] cleared _ Hcq _; [done|].
  destruct (bool_decide_reflect (annotation annotations FirewallUUID = "")) as [Hu|Hu]; cbn [negb] in *.
  - match goal with |- wp _ (match ?c with _ => _ end) _ _ => destruct c as [current|] end; [|by apply absent_walk].
    eapply (walk_then _ _ _ (fun _ _ => True)); [apply quiet_clear|by apply wp_skip|done|]. intros [e|] cleared' _ Hcq' _; [done|].
    apply current_walk; [done|]. intros Hne. by destruct Hne; apply Hiff.
  - destruct byUUID as [current|]; [|done].
    eapply (walk_then _ _ _ (fun _ _ => True)); [apply quiet_clear|by apply wp_skip|done|]. intros [e|] cleared' _ Hcq' _; [done|].
    apply current_walk; [done|]. intros _. by apply (located_uuid _ _ _ _ _ _ _ Hloc).
Qed.
End Located.

Lemma reconcile_walk : dispatches (reconcile shard) G.
Proof.
  apply (wp_dispatches _ _ (fun _ _ => True)). unfold reconcileShardFirewallPolicy.
  eapply walk_then; [apply quiet_derive|apply derive_spec|constructor|]. intros [[[desired ledger]|]|e] live _ Hlq Hl; [|done|done].
  destruct (Hl desired ledger eq_refl) as (_ & l & plan & _ & _ & _ & _ & Hpol & _). pose proof (valid_hash _ (po_valid _ _ _ _ _ Hpol)) as Hhash. clear Hl. cbv zeta.
  eapply (walk_then (call _) _ _ (fun _ _ => True)); [split; [intros []|done]|done|done|]. intros [pool|e] got _ Hgq _; [|done]. test H1; [done|]. test H2; [done|].
  eapply walk_then; [apply quiet_receipt|apply receipt_applied|done|]. intros [annotations|e] read _ Hrq Hr; [|done]. specialize (Hr annotations eq_refl).
  eapply (walk_then (call _) _ _ (fun _ _ => True)); [split; [intros []|done]|done|done|]. intros [firewalls|e] listed _ Hfq _; [|done].
  destruct (locateShardFirewall _ _ _) as [rows|] eqn:Hloc; [|done]. by eapply located_walk.
Qed.
End Walk.

(** ** What a mutation follows *)

Definition create_authority (shard location : string) (request : CreateFirewallRequest) (h : list (event sres)) : Prop :=
  location = cc_Location cfg /\ performed quiet h
  /\ exists uid expected fresh ledger authority items issued older,
    h = authority ++ Ev (CloudListFirewalls location) (Ok items : sres (CloudListFirewalls location)) :: issued ++ older
    /\ issue_segment shard uid expected issued /\ annotation expected FirewallUUID = ""
    /\ (forall item, item ∈ items -> EqualFold (EffectiveName item) (CreateFW_DisplayName request) = false)
    /\ authority_segment shard uid expected fresh ledger authority
    /\ CreateFW_DisplayName request = CreateFW_DisplayName (fp_Request fresh) /\ CreateFW_Description request = CreateFW_Description (fp_Request fresh)
    /\ CreateFW_BillingAccountID request = CreateFW_BillingAccountID (fp_Request fresh)
    /\ NodeLoadBalancerShardFirewallSpecHash sha256_hex (CreateFW_Rules request) = Ok (fp_Hash fresh).

Definition update_authority (shard location uuid : string) (request : UpdateFirewallRequest) (h : list (event sres)) : Prop :=
  location = cc_Location cfg /\ performed quiet h
  /\ exists uid expected fresh ledger authority items current rules earlier issued older,
    h = authority ++ Ev (CloudListFirewalls location) (Ok items : sres (CloudListFirewalls location)) :: earlier ++ issued ++ older
    /\ issue_segment shard uid expected issued /\ annotation expected FirewallUUID = uuid
    /\ exactNodeLoadBalancerFirewallFromItems items uuid = Ok current /\ ownedAs sha256_hex fresh current (annotation expected FirewallHash) = None
    /\ authority_segment shard uid expected fresh ledger authority
    /\ UpdateFW_Name request = CreateFW_DisplayName (fp_Request fresh) /\ UpdateFW_Description request = nodeLoadBalancerShardFirewallDescription
    /\ NodeLoadBalancerShardFirewallSpecHash sha256_hex rules = Ok (fp_Hash fresh) /\ Forall2 (keeps_identity (fw_Rules current)) rules (UpdateFW_Rules request).

Definition mutation_authority (shard : string) (x : sact) (h : list (event sres)) : Prop :=
  match x with
  | CloudCreateFirewall location request => create_authority shard location request h
  | CloudUpdateFirewall location uuid request => update_authority shard location uuid request h
  | _ => True
  end.
Lemma quiet_authorized shard x h : quiet x -> mutation_authority shard x h.
Proof. intros Hq. destruct x; cbn; try done; by destruct Hq. Qed.

(** The rest of a program that leaves the cloud alone. *)
Lemma quiet_rest {A} shard (p : prog sres A) h : only quiet p -> wp (mutation_authority shard) p h (fun _ _ => True).
Proof. intros Hq. apply (wp_only _ quiet); [done|intros; by apply quiet_authorized|done]. Qed.
Lemma quiet_then {A B} shard (p : prog sres A) (f : A -> prog sres B) h (Q : A -> list (event sres) -> Prop) R :
  only quiet p -> ensures p Q -> (forall a new, performed quiet new -> Q a new -> wp (mutation_authority shard) (f a) (new ++ h) R) -> wp (mutation_authority shard) (bind p f) h R.
Proof. intros Hq HQ Hf. apply wp_bind, (wp_use _ quiet _ _ Q); [done|intros; by apply quiet_authorized|done|done]. Qed.

Lemma name_spec name : ensures (exactNodeLoadBalancerFirewallNameFresh cfg name) (fun r h => r = Ok None -> exists items,
  h = [Ev (CloudListFirewalls (cc_Location cfg)) (Ok items : sres (CloudListFirewalls (cc_Location cfg)))]
  /\ forall item, item ∈ items -> EqualFold (EffectiveName item) name = false).
Proof.
  unfold ensures, exactNodeLoadBalancerFirewallNameFresh. test Hn; [done|]. apply wp_bind, wp_call; [exact I|]. intros [items|e]; [|done]. cbn [wp].
  unfold exact_name_row. destruct (Nat.eqb_spec (List.length (List.filter (fun item => EqualFold (EffectiveName item) name) items)) 0) as [Hz|].
  - intros _. exists items. split; [done|]. intros item Hi%list_elem_of_In. apply not_true_iff_false. intros Ht.
    assert (Hin : In item (List.filter (fun item => EqualFold (EffectiveName item) name) items)) by (by apply filter_In). by destruct (List.filter _ _).
  - destruct (last_of _ _); [|done]. by destruct (Nat.eqb _ _).
Qed.
Lemma fresh_spec uuid : ensures (exactNodeLoadBalancerFirewallFresh cfg uuid) (fun r h => forall firewall, r = Ok firewall -> exists items,
  h = [Ev (CloudListFirewalls (cc_Location cfg)) (Ok items : sres (CloudListFirewalls (cc_Location cfg)))] /\ exactNodeLoadBalancerFirewallFromItems items uuid = Ok firewall).
Proof.
  unfold ensures, exactNodeLoadBalancerFirewallFresh. test Hn; [done|]. apply wp_bind, wp_call; [exact I|]. intros [items|e]; [|done]. cbn [wp]. intros firewall H. by exists items.
Qed.

Lemma create_safe st shard uid annotations desired ledger h : performed quiet h -> annotation annotations FirewallUUID = "" ->
  NodeLoadBalancerShardFirewallSpecHash sha256_hex (CreateFW_Rules (fp_Request desired)) = Ok (fp_Hash desired) ->
  wp (mutation_authority shard) (createShardFirewall sha256_hex IsDNS1123Label ParseQuantity cfg st shard uid annotations desired ledger) h (fun _ _ => True).
Proof.
  intros Hh Hnone Hhash. unfold createShardFirewall. apply wp_bind, wp_call; [exact I|]. intros now.
  eapply quiet_then; [apply quiet_issue|apply issue_spec, format_time_nonempty|]. intros [expected|e] issued Hiq Hi; [|done]. destruct (Hi expected eq_refl) as (Hu & Hseg & _ & Hkeep). clear Hi. cbv zeta.
  eapply quiet_then; [apply quiet_name|apply name_spec|]. intros [[observed|]|e] named Hnq Hn; [apply quiet_rest; only_tac| |apply quiet_rest; only_tac].
  destruct (Hn eq_refl) as (items & -> & Hitems). clear Hn.
  eapply quiet_then; [apply quiet_authorize|by apply authorize_spec|]. intros [e|] authority Haq Ha; [apply quiet_rest; only_tac|]. destruct (Ha eq_refl) as (fresh & Haut & Hsame). clear Ha.
  apply wp_bind, wp_call; [|intros created; apply quiet_rest; destruct created; only_tac].
  destruct Hsame as (Hsh & _ & _ & Hs1 & Hs2 & Hs3). split; [done|]. split.
  { apply shard_performed_app; [done|]. apply shard_performed_app; [done|]. apply shard_performed_app; [done|]. constructor; [|done]. intros []. }
  exists uid, expected, fresh, ledger, authority, items, issued, (Ev Clock now :: h). split_and!; try done; [|by rewrite Hhash, Hsh].
  rewrite Hkeep; [done|apply (bool_decide_eq_true_1 _); reflexivity|done].
Qed.

Lemma replace_safe st shard uid annotations current desired ledger request h : performed quiet h -> fw_UUID current = annotation annotations FirewallUUID ->
  NodeLoadBalancerShardFirewallSpecHash sha256_hex (CreateFW_Rules (fp_Request desired)) = Ok (fp_Hash desired) ->
  nodeLoadBalancerShardFirewallUpdateRequest sha256_hex IsDNS1123Label current desired = Ok request ->
  wp (mutation_authority shard) (replaceShardFirewall sha256_hex IsDNS1123Label ParseQuantity cfg st shard uid annotations current desired ledger request) h (fun _ _ => True).
Proof.
  intros Hh Hcur Hhash Hreq. unfold replaceShardFirewall. apply wp_bind, wp_call; [exact I|]. intros now.
  eapply quiet_then; [apply quiet_issue|apply issue_spec, format_time_nonempty|]. intros [expected|e] issued Hiq Hi; [|done]. destruct (Hi expected eq_refl) as (Hu & Hseg & _ & Hkeep). clear Hi. cbv zeta.
  eapply quiet_then; [apply quiet_authorize|by apply authorize_spec|]. intros [e|] earlier Heq _; [apply quiet_rest; only_tac|].
  eapply quiet_then; [apply quiet_fresh|apply fresh_spec|]. intros [now_|e] listed Hlq Hf; [|apply quiet_rest; only_tac]. destruct (Hf now_ eq_refl) as (items & -> & Hexact). clear Hf.
  test Hun; [apply quiet_rest; only_tac|]. destruct (ownedAs _ _ _ _) eqn:Hown; [apply quiet_rest; only_tac|].
  eapply quiet_then; [apply quiet_authorize|by apply authorize_spec|]. intros [e|] authority Haq Ha; [apply quiet_rest; only_tac|]. destruct (Ha eq_refl) as (fresh & Haut & Hsame). clear Ha.
  apply wp_bind, wp_call; [|intros updated; apply quiet_rest; destruct updated; only_tac].
  apply negb_false_iff in Hun. unfold nodeLoadBalancerFirewallAuthorityUnchanged in Hun. rewrite !andb_true_iff, !bool_decide_eq_true in Hun. destruct Hun as (((((Huuid & _) & _) & _) & Hrules) & _).
  destruct Hsame as (Hsh & Hs1 & Hs2 & Hs3 & Hs4 & Hs5). apply update_request_keeps in Hreq as (Hr1 & Hr2 & Hr3). split; [done|]. split.
  { repeat (apply shard_performed_app; [done|]). constructor; [|done]. intros []. }
  exists uid, expected, fresh, ledger, authority, items, now_, (CreateFW_Rules (fp_Request desired)), earlier, issued, (Ev Clock now :: h).
  unfold ownedAs in *. rewrite Hs1, Hs2, Hs5 in Hown. rewrite <-Hsh, <-Hs3, <-Hrules. split_and!; try done.
  rewrite Hkeep; [done|apply (bool_decide_eq_true_1 _); reflexivity|done].
Qed.

(** C10: a create or replacement of a shard firewall is sent at most once per reconciliation, and only when: the
    NodePool of the shard, read unissued, was written with exactly this mutation's issued receipt and read back with
    it; after that the cloud listed no firewall with the name (for a create), or exactly the applied one, unchanged and
    still with its applied policy (for a replacement); and directly before it the NodePool was read live, with the same
    identity and receipt, and the policy was derived once more from the live Services, giving the hash, ledger, name
    and account of the mutation. The derived policy is the one of listed Services that are staged for the shard, and a
    replacement keeps the rule identities of the firewall just read. *)
Theorem shard_mutation_authorized shard : dispatches (reconcile shard) (mutation_authority shard).
Proof. apply reconcile_walk; [intros; by apply quiet_authorized|intros; by apply create_safe|intros; by apply replace_safe]. Qed.
End Safety.

(** ** What happens to the receipt of a mutation that was sent

    Once a create or replacement of a shard firewall may have left the process, the NodePool keeps its issued
    receipt, until the answer proves that nothing was sent or a later list shows the firewall with the policy of
    the mutation. *)

(** Rule identities do not enter the policy text. *)
Lemma canonical_keys_uuid (f : FirewallRule -> string) rules : forall sr sp, canonical_keys sr sp (map (fun d => with_UUID (f d) d) rules) = canonical_keys sr sp rules.
Proof.
  induction rules as [|d rules IH]; intros sr sp; [done|]. cbn [map canonical_keys]. change (rule_port (with_UUID (f d) d)) with (rule_port d).
  change (canonicalNodeLoadBalancerFirewallEndpoints (with_UUID (f d) d)) with (canonicalNodeLoadBalancerFirewallEndpoints d).
  change (fr_Direction (with_UUID (f d) d)) with (fr_Direction d). change (fr_Protocol (with_UUID (f d) d)) with (fr_Protocol d).
  destruct (_ != _); [done|]. destruct (_ && _); [done|]. destruct (rule_port d) as [p|]; [|done]. cbv zeta. destruct (bool_decide _); [done|].
  destruct (canonicalNodeLoadBalancerFirewallEndpoints d) as [out|]; [|done]. change (rule_key (with_UUID (f d) d)) with (rule_key d). destruct (bool_decide _); [done|]. by rewrite IH.
Qed.
Lemma hash_uuid sha (f : FirewallRule -> string) rules : NodeLoadBalancerShardFirewallSpecHash sha (map (fun d => with_UUID (f d) d) rules) = NodeLoadBalancerShardFirewallSpecHash sha rules.
Proof. unfold NodeLoadBalancerShardFirewallSpecHash, canonicalNodeLoadBalancerPortFirewallPolicy. destruct rules as [|d rules]; [done|]. pose proof (canonical_keys_uuid f (d :: rules) ∅ ∅) as E. cbn [map] in *. by rewrite E. Qed.

Section Receipts.
Context `{TT : TimeText} (sha256_hex : string -> string) (IsDNS1123Label : string -> bool) (ParseQuantity : string -> option (Z * Z)) (cfg : CloudConfig).
Notation hash_of := (NodeLoadBalancerShardFirewallSpecHash sha256_hex).

(** The answer says that the mutation was not sent. *)
Definition disproved (h : list (event sres)) : Prop :=
  (exists location request e, Ev (CloudCreateFirewall location request) (Err e : sres (CloudCreateFirewall location request)) ∈ h /\ nodeLoadBalancerMutationKnownPreDispatch e = true)
  \/ (exists location uuid request e, Ev (CloudUpdateFirewall location uuid request) (Err e : sres (CloudUpdateFirewall location uuid request)) ∈ h
      /\ nodeLoadBalancerMutationKnownPreDispatch e = true).
(** A list after the mutation showed the firewall as the mutation makes it. *)
Definition observed (h : list (event sres)) : Prop :=
  exists newer location items firewall older, h = newer ++ Ev (CloudListFirewalls location) (Ok items : sres (CloudListFirewalls location)) :: older /\ firewall ∈ items
  /\ ((exists location request r, Ev (CloudCreateFirewall location request) r ∈ older /\ EffectiveName firewall = CreateFW_DisplayName request
        /\ hash_of (fw_Rules firewall) = hash_of (CreateFW_Rules request))
      \/ (exists location uuid request r, Ev (CloudUpdateFirewall location uuid request) r ∈ older /\ fw_UUID firewall = uuid
        /\ hash_of (fw_Rules firewall) = hash_of (UpdateFW_Rules request))).
(** The write leaves the receipt that was just read as it is. *)
Definition retained (pool : NodePool) (h : list (event sres)) : Prop :=
  exists detached name before older, h = Ev (GetPool detached name) (Ok before : sres (GetPool detached name)) :: older /\ matches_receipt (pl_Annotations pool) (pl_Annotations before) = true.

Definition receipt_kept (x : sact) (h : list (event sres)) : Prop :=
  match x with UpdatePool _ pool => ~ performed quiet h -> retained pool h \/ disproved h \/ observed h | _ => True end.

Lemma disproved_more e h : disproved h -> disproved (e :: h).
Proof. intros [(l & r & err & H & Hp)|(l & u & r & err & H & Hp)]; [left; exists l, r, err|right; exists l, u, r, err]; split; try done; apply elem_of_cons; by right. Qed.
Lemma observed_more e h : observed h -> observed (e :: h).
Proof. intros (newer & location & items & firewall & older & -> & H). by exists (e :: newer), location, items, firewall, older. Qed.

Lemma before_kept x h : quiet x -> performed quiet h -> receipt_kept x h.
Proof. intros _ Hh. destruct x; try done. by intros []. Qed.
(** After its answer disproved the mutation, or a list showed it, every write is allowed. *)
Lemma settled_kept {A} (p : prog sres A) : forall h, disproved h \/ observed h -> wp receipt_kept p h (fun _ _ => True).
Proof.
  induction p as [a|x k IH| |]; intros h Hh; cbn [wp]; [done| |done|done]. split; [destruct x; try done; by right|]. intros r. apply IH.
  destruct Hh as [Hh|Hh]; [left; by apply disproved_more|right; by apply observed_more].
Qed.
#[local] Hint Resolve before_kept : core.

Lemma unique_row_in p items row : unique_row p items = Ok (Some row) -> row ∈ items /\ p row = true.
Proof.
  unfold unique_row. destruct (List.filter p items) as [|item [|]] eqn:E; try done. intros [= <-]. assert (Hin : In item (List.filter p items)) by (rewrite E; by left).
  apply filter_In in Hin as [Hin Hp]. by rewrite list_elem_of_In.
Qed.
Lemma owned_hash desired firewall hash : ownedAs sha256_hex desired firewall hash = None -> hash_of (fw_Rules firewall) = Ok hash.
Proof.
  unfold ownedAs, ValidateNodeLoadBalancerShardFirewall. destruct (billing_mismatch _ _ _); [done|]. destruct (NodeLoadBalancerShardFirewallName _ _ _); [|done]. destruct (_ || _); [done|].
  destruct (negb _); [done|]. destruct (hash_of (fw_Rules firewall)) as [actual|]; [|done]. destruct (bool_decide_reflect (actual = hash)) as [->|]; done.
Qed.
Lemma created_hash desired firewall : createdAs sha256_hex desired firewall = true -> hash_of (fw_Rules firewall) = Ok (fp_Hash desired).
Proof. unfold createdAs. rewrite !andb_true_iff, bool_decide_eq_true. intros [_ H]. by eapply owned_hash. Qed.

Lemma create_readback_kept shard uid expected desired location r h : hash_of (CreateFW_Rules (fp_Request desired)) = Ok (fp_Hash desired) ->
  Ev (CloudCreateFirewall location (fp_Request desired)) r ∈ h -> wp receipt_kept (resolveShardFirewallCreateReadback sha256_hex cfg shard uid expected desired) h (fun _ _ => True).
Proof.
  intros Hhash Hin. unfold resolveShardFirewallCreateReadback. apply wp_bind, wp_call; [exact I|]. intros [items|e]; [|done].
  destruct (unique_row _ items) as [[row|]|] eqn:Hrow; [|done|done]. test Hc; [done|]. apply negb_false_iff, created_hash in Hc. apply unique_row_in in Hrow as [Hin' Hname].
  apply settled_kept. right. exists [], (cc_Location cfg), items, row, h. split_and!; [done|done|]. left. exists location, (fp_Request desired), r. split_and!; [done| |congruence].
  by apply (bool_decide_eq_true_1 _) in Hname.
Qed.
Lemma update_readback_kept shard uid expected desired location request r h : hash_of (UpdateFW_Rules request) = Ok (annotation expected PendingHash) ->
  Ev (CloudUpdateFirewall location (annotation expected FirewallUUID) request) r ∈ h -> wp receipt_kept (resolveShardFirewallUpdateReadback sha256_hex cfg shard uid expected desired) h (fun _ _ => True).
Proof.
  intros Hhash Hin. unfold resolveShardFirewallUpdateReadback. apply wp_bind, wp_call; [exact I|]. intros [items|e]; [|done]. cbv zeta.
  destruct (unique_row _ items) as [byName|]; [|done]. destruct (unique_row (fun item => fw_UUID item == annotation expected FirewallUUID) items) as [byUUID|] eqn:Hrow; [|done].
  test H1; [done|]. destruct byUUID as [row|]; [|done]. apply unique_row_in in Hrow as [Hin' Huuid]. apply (bool_decide_eq_true_1 _) in Huuid. test H2; [done|]. test H3; [done|].
  destruct (hash_of (fw_Rules row)) as [actual|] eqn:Hact; [|done]. destruct (bool_decide_reflect (actual = annotation expected PendingHash)) as [->|]; [|test H4; [by destruct (ownedAs _ _ _ _)|done]].
  destruct (ownedAs _ _ _ _); [done|]. apply settled_kept. right. exists [], (cc_Location cfg), items, row, h. split_and!; [done|done|]. right.
  exists location, (annotation expected FirewallUUID), request, r. split_and!; [done|done|congruence].
Qed.

(** The rejection mark leaves the receipt alone. *)
Lemma mark_kept shard uid expected h : wp receipt_kept (markShardFirewallCreateRejected cfg shard uid expected) h (fun _ _ => True).
Proof.
  unfold markShardFirewallCreateRejected. cbv zeta. test H1; [done|]. unfold updateAnnotations, updateManagedNodePoolAnnotationsForUID. cbn [bind call wp]. split; [exact I|]. intros [before|e]; [|done].
  cbn [bind]. destruct (_ && _); [done|]. destruct (managedPool _ _ _); [|done]. cbn [negb]. destruct (matches_receipt (pl_Annotations before) expected) eqn:Hm; [|done]. cbn [negb result_map bind andb].
  destruct (_ && _); [done|]. cbn [bind wp]. split.
  - intros _. left. exists false, shard, before, h. split; [done|]. cbn [pl_Annotations]. apply matches_receipt_spec. intros key Hk.
    assert (Hne : key ∉ [FWCreateRejected; FWCreateAbsent; FWCreateChecked]).
    { intros Hin; revert Hk; repeat (apply elem_of_cons in Hin as [->|Hin]); [| | |by apply elem_of_nil in Hin]; apply (bool_decide_eq_false_1 _); reflexivity. }
    apply not_elem_of_cons in Hne as [Hne Hn2]. rewrite annotation_delete_keys by done. rewrite receipt_insert_ne by congruence. done.
  - intros [answered|e]; [|done]. cbn [bind]. destruct (validateManagedNodePoolAnnotationWrite _ _ _ _ _); [done|]. cbn [bind wp]. split; [exact I|]. by intros [verified|e].
Qed.

(** ** The reconciliation *)

Lemma update_request_hash current desired request : nodeLoadBalancerShardFirewallUpdateRequest sha256_hex IsDNS1123Label current desired = Ok request ->
  hash_of (UpdateFW_Rules request) = hash_of (CreateFW_Rules (fp_Request desired)).
Proof.
  unfold nodeLoadBalancerShardFirewallUpdateRequest. destruct (validateNodeLoadBalancerShardFirewallPolicy _ _ _); [done|]. destruct (negb _); [done|]. repeat (destruct (_ && _); [done|]).
  destruct (NodeLoadBalancerShardFirewallSpecHash _ (fw_Rules current)); [|done]. destruct (ValidateNodeLoadBalancerShardFirewall _ _ _ _ _ _); [done|]. destruct (validateRuleUUIDs _ _); [done|].
  intros [= <-]. cbn [UpdateFW_Rules]. unfold retainFirewallRuleUUIDs. cbv zeta. apply (hash_uuid sha256_hex (fun rule => default "" (_ !! nodeLoadBalancerShardFirewallRuleLogicalKey rule))).
Qed.

Lemma create_kept st shard uid annotations desired ledger h : performed quiet h -> hash_of (CreateFW_Rules (fp_Request desired)) = Ok (fp_Hash desired) ->
  wp receipt_kept (createShardFirewall sha256_hex IsDNS1123Label ParseQuantity cfg st shard uid annotations desired ledger) h (fun _ _ => True).
Proof.
  intros Hh Hhash. unfold createShardFirewall. eapply (walk_then _ before_kept (call _) _ _ (fun _ _ => True)); [split; [intros []|done]|done|done|]. intros now n1 _ Hh1 _.
  eapply (walk_then _ before_kept); [apply quiet_issue|apply ensures_self|done|]. intros [expected|e] n2 _ Hh2 _; [|done]. cbv zeta.
  eapply (walk_then _ before_kept); [apply quiet_name|apply ensures_self|done|].
  intros [[seen|]|e] n3 _ Hh3 _; [|..|apply (walk_rest _ before_kept); [apply quiet_reject|done]].
  { test Hc; [apply (walk_rest _ before_kept); [apply quiet_reject|done]|]. apply (walk_rest _ before_kept); [|done]. apply only_bind; [apply quiet_create_readback|]. intros [?|?]; [exact I|apply quiet_reject]. }
  eapply (walk_then _ before_kept); [apply quiet_authorize|apply ensures_self|done|]. intros [e|] n4 _ Hh4 _; [apply (walk_rest _ before_kept); [apply quiet_reject|done]|].
  apply wp_bind, wp_call; [exact I|]. intros [response|createErr].
  - cbv zeta. apply wp_bind. eapply wp_mono; [eapply create_readback_kept; [done|apply elem_of_cons; by left]|]. intros [firewall|re] h5 _; [done|]. by destruct (validateCreatedNodeLoadBalancerFirewall _ _).
  - cbv zeta. test Hk.
    + apply settled_kept. left. left. exists (cc_Location cfg), (fp_Request desired), createErr. split; [apply elem_of_cons; by left|done].
    + apply wp_bind. eapply wp_mono; [eapply create_readback_kept; [done|apply elem_of_cons; by left]|]. intros [firewall|re] h5 _; [done|]. test Hp; [|done].
      apply wp_bind. eapply wp_mono; [apply mark_kept|done].
Qed.

Lemma replace_kept st shard uid annotations current desired ledger request h : performed quiet h -> fw_UUID current = annotation annotations FirewallUUID ->
  hash_of (CreateFW_Rules (fp_Request desired)) = Ok (fp_Hash desired) -> nodeLoadBalancerShardFirewallUpdateRequest sha256_hex IsDNS1123Label current desired = Ok request ->
  wp receipt_kept (replaceShardFirewall sha256_hex IsDNS1123Label ParseQuantity cfg st shard uid annotations current desired ledger request) h (fun _ _ => True).
Proof.
  intros Hh Hcur Hhash Hreq. pose proof (update_request_hash _ _ _ Hreq) as Hrh. unfold replaceShardFirewall. eapply (walk_then _ before_kept (call _) _ _ (fun _ _ => True)); [split; [intros []|done]|done|done|]. intros now n1 _ Hh1 _.
  eapply (walk_then _ before_kept); [apply quiet_issue|apply issue_spec, format_time_nonempty|done|]. intros [expected|e] n2 _ Hh2 Hi; [|done]. destruct (Hi expected eq_refl) as (Hu & _ & _ & Hkeep). cbv zeta.
  eapply (walk_then _ before_kept); [apply quiet_authorize|apply ensures_self|done|]. intros [e|] n3 _ Hh3 _; [apply (walk_rest _ before_kept); [apply quiet_reject|done]|].
  eapply (walk_then _ before_kept); [apply quiet_fresh|apply ensures_self|done|]. intros [now_|e] n4 _ Hh4 _; [|apply (walk_rest _ before_kept); [apply quiet_reject|done]].
  test Hun; [apply (walk_rest _ before_kept); [apply quiet_reject|done]|]. destruct (ownedAs _ _ _ _); [apply (walk_rest _ before_kept); [apply quiet_reject|done]|].
  eapply (walk_then _ before_kept); [apply quiet_authorize|by apply authorize_spec|done|]. intros [e|] n5 _ Hh5 Ha; [apply (walk_rest _ before_kept); [apply quiet_reject|done]|]. destruct (Ha eq_refl) as (fresh & Haut & Hsame).
  assert (Hpend : hash_of (UpdateFW_Rules request) = Ok (annotation expected PendingHash)).
  { destruct Haut as (live & clocks & owner & _ & _ & _ & _ & _ & _ & _ & _ & -> & _). destruct Hsame as [Hsh _]. congruence. }
  assert (Huuid : fw_UUID current = annotation expected FirewallUUID) by (rewrite Hkeep; [done|apply (bool_decide_eq_true_1 _); reflexivity|done]).
  apply wp_bind, wp_call; [exact I|]. rewrite Huuid. intros [response|updateErr].
  - destruct (validateUpdatedNodeLoadBalancerShardFirewallResponse _ _ _ _); [|done]. apply wp_bind. eapply wp_mono; [eapply update_readback_kept; [done|apply elem_of_cons; by left]|done].
  - test Hk.
    + apply settled_kept. left. right. eexists _, _, request, updateErr. split; [apply elem_of_cons; by left|done].
    + apply wp_bind. eapply wp_mono; [eapply update_readback_kept; [done|apply elem_of_cons; by left]|done].
Qed.

(** ** Receipts of earlier reconciliations

    Before it calls anything, a reconciliation may find the issued receipt of an earlier one. *)

Lemma dispatches_both {A} (p : prog sres A) G1 G2 : dispatches p G1 -> dispatches p G2 -> dispatches p (fun x h => G1 x h /\ G2 x h).
Proof. intros H1 H2 o h newer x r older He Hh. split; [by eapply H1|by eapply H2]. Qed.

Section Earlier.
Context (shard : string).
Notation derive := (desiredStagedShardFirewallPolicy sha256_hex IsDNS1123Label ParseQuantity cfg).
Notation list_act := (CloudListFirewalls (cc_Location cfg)).

(** The reconciliation derived the policy [desired], read the receipt [p0] and listed [items]; [newer] followed. *)
Definition started (newer : list (event sres)) (p0 : gmap string string) (items : list Firewall) (desired : nodeLoadBalancerShardFirewallPolicy) (h : list (event sres)) : Prop :=
  exists clocks pool derived ledger,
    h = newer ++ Ev list_act (Ok items : sres list_act) :: clocks ++ Ev (GetPool false shard) (Ok pool : sres (GetPool false shard)) :: derived
    /\ performed reads_clock clocks /\ pl_Annotations pool = p0 /\ exec (derive shard) [] (Some (Ok (Some (desired, ledger)))) derived.

(** Three spaced absences are recorded. *)
Definition absences (values : gmap string string) (key : string) : Prop :=
  exists n, Atoi (annotation values key) = Some n /\ nodeLoadBalancerAbsenceConfirmations <= n.

(** A read showed them, or a write recorded the last of them. *)
Definition counted (key : string) (h : list (event sres)) : Prop :=
  exists pool, absences (pl_Annotations pool) key
    /\ (Ev (GetPool false shard) (Ok pool : sres (GetPool false shard)) ∈ h
        \/ exists answered, Ev (UpdatePool false pool) (Ok answered : sres (UpdatePool false pool)) ∈ h).

(** Why the receipt [before], just read, may be written as [after], when the exchanges before that read are [h]. *)
Inductive released (before after : gmap string string) (h : list (event sres)) : Prop :=
  (* the receipt stays as it is *)
  | released_same : matches_receipt after before = true -> released before after h
  (* nothing is issued, now or in the receipt that the reconciliation started from *)
  | released_unissued : annotation before FWIssuedAt = "" -> released before after h
  | released_start newer p0 items desired :
      started newer p0 items desired h -> annotation p0 FWIssuedAt = "" -> released before after h
  (* this reconciliation issued it, and called nothing *)
  | released_own newer issued older uid expected :
      h = newer ++ issued ++ older -> issue_segment cfg shard uid expected issued -> matches_receipt before expected = true -> released before after h
  (* the list shows a firewall of the shard with the pending policy, or, where none was applied, with the desired one *)
  | released_shown newer p0 items desired firewall hash :
      started newer p0 items desired h -> firewall ∈ items ->
      ValidateNodeLoadBalancerShardFirewall sha256_hex firewall (cc_ClusterID cfg) shard (cc_BillingAccountID cfg) hash = None ->
      (annotation p0 PendingHash <> "" /\ hash = annotation p0 PendingHash \/ annotation p0 FirewallHash = "" /\ hash = fp_Hash desired) ->
      released before after h
  (* the applied firewall is not listed, and its absence was recorded three times *)
  | released_absent newer p0 items desired :
      started newer p0 items desired h -> annotation p0 FirewallUUID <> "" -> (forall item, item ∈ items -> fw_UUID item <> annotation p0 FirewallUUID) ->
      annotation before FirewallUUID = annotation p0 FirewallUUID ->
      counted FWAbsent newer -> released before after h
  (* the API rejected the create, nothing of its name is listed, and that was recorded three times from five minutes after the issue on *)
  | released_rejected newer p0 items desired (now : sres Clock) issued :
      started newer p0 items desired h -> annotation p0 FWIssuedAt <> "" -> (forall item, item ∈ items -> EffectiveName item <> CreateFW_DisplayName (fp_Request desired)) ->
      matches_receipt before p0 = true -> annotation before FWCreateRejected = annotation p0 FWIssuedAt -> absences before FWCreateAbsent ->
      Ev (res := sres) Clock now ∈ newer -> parse_time (annotation p0 FWIssuedAt) = Some issued -> issued + nodeLoadBalancerShardFirewallMutationTimeout <= now ->
      released before after h.

Definition earlier_kept (x : sact) (h : list (event sres)) : Prop :=
  match x with
  | UpdatePool detached pool => performed quiet h -> exists clocks before older,
      h = clocks ++ Ev (GetPool detached shard) (Ok before : sres (GetPool detached shard)) :: older /\ performed reads_clock clocks
      /\ released (pl_Annotations before) (pl_Annotations pool) older
  | _ => True
  end.

(** *** Walking *)

Definition calm (x : sact) : Prop := match x with UpdatePool _ _ | CloudCreateFirewall _ _ | CloudUpdateFirewall _ _ _ => False | _ => True end.
Lemma calm_kept x h : calm x -> earlier_kept x h.
Proof. by destruct x. Qed.
Lemma calm_quiet (h : list (event sres)) : performed calm h -> performed quiet h.
Proof. intros H. eapply Forall_impl; [exact H|]. intros [x r]. cbn. destruct x; try done; by intros _ []. Qed.
Lemma called_kept {A} (p : prog sres A) : forall h, ~ performed quiet h -> wp earlier_kept p h (fun _ _ => True).
Proof.
  induction p as [a|x k IH| |]; intros h Hh; cbn [wp]; [done| |done|done]. split; [destruct x; try exact I; by intros Hq%Hh|]. intros r. apply IH. intros H%Forall_cons. tauto.
Qed.
Lemma call_kept {A} x (k : sres x -> prog sres A) h : cloud_mutation x -> wp earlier_kept (bind (call x) k) h (fun _ _ => True).
Proof. intros Hx. apply wp_bind, wp_call; [destruct x; try exact I; by destruct Hx|]. intros r. apply called_kept. intros [Hq _]%Forall_cons. by apply Hq. Qed.

Lemma kept_then {A B} (p : prog sres A) (f : A -> prog sres B) h (Q : A -> list (event sres) -> Prop) R :
  wp earlier_kept p h (fun _ _ => True) -> only quiet p -> ensures p Q ->
  (forall a new, performed quiet new -> Q a new -> wp earlier_kept (f a) (new ++ h) R) -> wp earlier_kept (bind p f) h R.
Proof.
  intros Hk Hq HQ Hf. apply wp_bind.
  assert (ensures p (fun a new => performed quiet new /\ Q a new)) as HQ'.
  { apply (wp_use any_action quiet p [] Q); [done|done|done|]. intros a new Hn Ha. rewrite app_nil_r. done. }
  eapply wp_mono; [exact (wp_both _ _ _ _ _ Hk HQ')|]. intros a h' (_ & new & -> & Hn & Ha). by apply Hf.
Qed.
Lemma calm_then {A B} (p : prog sres A) (f : A -> prog sres B) h (Q : A -> list (event sres) -> Prop) R : only calm p -> ensures p Q ->
  (forall a new, performed calm new -> Q a new -> wp earlier_kept (f a) (new ++ h) R) -> wp earlier_kept (bind p f) h R.
Proof. intros Hc HQ Hf. apply wp_bind, (wp_use _ calm _ _ Q); [done|intros; by apply calm_kept|done|done]. Qed.
Lemma calm_rest {A} (p : prog sres A) h : only calm p -> wp earlier_kept p h (fun _ _ => True).
Proof. intros Hc. apply (wp_only _ calm); [done|intros; by apply calm_kept|done]. Qed.

Lemma calm_clock {A} (p : prog sres A) : only reads_clock p -> only calm p.
Proof. apply only_mono. by intros x ->. Qed.
Lemma calm_receipt pool : only calm (nodeLoadBalancerShardFirewallAnnotations IsDNS1123Label pool).
Proof. apply calm_clock, clock_receipt. Qed.
Lemma calm_services items : forall acc, only calm (stageServices sha256_hex IsDNS1123Label ParseQuantity cfg shard items acc).
Proof. induction items as [|s0 items IH]; intros acc; cbn [stageServices]; unfold stagedMember; only_tac. Qed.
#[local] Hint Resolve calm_receipt calm_services : shard_quiet.
Lemma calm_derive : only calm (derive shard).
Proof. unfold desiredStagedShardFirewallPolicy. only_tac. Qed.
#[local] Hint Resolve calm_derive : shard_quiet.
Lemma calm_authorize uid expected desired ledger : only calm (authorizeShardFirewallPolicyMutationPreDispatch sha256_hex IsDNS1123Label ParseQuantity cfg shard uid expected desired ledger).
Proof. unfold authorizeShardFirewallPolicyMutationPreDispatch. only_tac. Qed.
Lemma calm_fresh uuid : only calm (exactNodeLoadBalancerFirewallFresh cfg uuid).
Proof. unfold exactNodeLoadBalancerFirewallFresh. only_tac. Qed.
Lemma calm_name name : only calm (exactNodeLoadBalancerFirewallNameFresh cfg name).
Proof. unfold exactNodeLoadBalancerFirewallNameFresh. only_tac. Qed.

(** *** Writes *)

Lemma update_earlier {X} detached uid (mutate : gmap string string -> prog sres (result (gmap string string * bool * X))) h :
  (forall values, only reads_clock (mutate values)) ->
  (forall values, ensures (mutate values) (fun r _ => forall m changed x, r = Ok (m, changed, x) -> released values m h)) ->
  wp earlier_kept (updateManagedNodePoolAnnotationsForUID cfg detached shard uid mutate) h (fun _ _ => True).
Proof.
  intros Hc Hr. unfold updateManagedNodePoolAnnotationsForUID. apply wp_bind, wp_call; [exact I|]. intros [before|e]; [|done].
  test H1; [done|]. test H2; [done|]. apply wp_bind. eapply (wp_use _ reads_clock); [apply Hc|by intros x h0 ->|apply Hr|].
  intros [[[m changed] x]|e] clocks Hcl Hm; [|done]. cbv zeta. test H3; [done|]. test H4; [done|]. apply wp_bind, wp_call.
  - intros _. exists clocks, before, h. split_and!; [done|done|]. by eapply Hm.
  - intros [answered|e]; [|done]. destruct (validateManagedNodePoolAnnotationWrite _ _ _ _ _); [done|]. apply wp_bind, wp_call; [exact I|]. by intros [verified|e].
Qed.
Lemma annotations_earlier uid mutate h : (forall values m, mutate values = Ok m -> released values m h) ->
  wp earlier_kept (updateAnnotations cfg shard uid mutate) h (fun _ _ => True).
Proof.
  intros Hr. unfold updateAnnotations. apply wp_bind. eapply wp_mono; [apply update_earlier|done]; [done|].
  intros values m changed x. destruct (mutate values) as [m'|] eqn:E; [|done]. cbn. intros [= <- _ _]. by apply Hr.
Qed.

Lemma kept_deleted keys values : (forall key, key ∈ keys -> key ∉ nodeLoadBalancerShardFirewallMutationReceiptKeys) -> matches_receipt (delete_keys keys values) values = true.
Proof. intros Hd. apply matches_receipt_spec. intros key Hk. apply annotation_delete_keys. intros Hin. by apply (Hd key). Qed.
Lemma clear_earlier uid keys h : (forall key, key ∈ keys -> key ∉ nodeLoadBalancerShardFirewallMutationReceiptKeys) ->
  wp earlier_kept (clearManagedNodePoolFirewallAbsenceForUID cfg shard uid keys) h (fun _ _ => True).
Proof.
  intros Hd. unfold clearManagedNodePoolFirewallAbsenceForUID. apply wp_bind. eapply wp_mono; [apply update_earlier|done]; [done|].
  intros values m changed x [= <- _ _]. apply released_same, kept_deleted. intros key Hin. apply Hd. apply list_elem_of_In in Hin. apply filter_In in Hin as [Hin _]. by apply list_elem_of_In.
Qed.
Lemma record_earlier uid ck chk now t h : ck ∉ nodeLoadBalancerShardFirewallMutationReceiptKeys -> chk ∉ nodeLoadBalancerShardFirewallMutationReceiptKeys ->
  wp earlier_kept (recordManagedNodePoolFirewallAbsenceForUID cfg shard uid ck chk now t) h (fun _ _ => True).
Proof.
  intros H1 H2. unfold recordManagedNodePoolFirewallAbsenceForUID. destruct (match t with Some _ => _ | None => _ end); [done|].
  apply wp_bind. eapply wp_mono; [apply update_earlier|done]; [done|]. intros values m changed x H. apply released_same, matches_receipt_spec. intros key Hk.
  destruct (if annotation values ck == "" then Ok 0 else _) as [count|]; [|done]. destruct (_ <=? count); [by injection H as <- _ _|].
  destruct (if annotation values chk == "" then Ok false else _) as [early|]; [|done]. destruct early; [by injection H as <- _ _|].
  injection H as <- _ _. rewrite !receipt_insert_ne; [done|by intros ->|by intros ->].
Qed.

(** What a completed write exchanged. *)
Lemma update_spec {X} detached uid (f : gmap string string -> result (gmap string string * bool * X)) :
  ensures (updateManagedNodePoolAnnotationsForUID cfg detached shard uid (fun values => Ret (f values))) (fun r h => forall pool changed x, r = Ok (pool, changed, x) ->
    exists before m ch, Ev (GetPool detached shard) (Ok before : sres (GetPool detached shard)) ∈ h /\ f (pl_Annotations before) = Ok (m, ch, x)
    /\ (ch = true -> exists written answered, Ev (UpdatePool detached written) (Ok answered : sres (UpdatePool detached written)) ∈ h /\ pl_Annotations written = m)).
Proof.
  unfold ensures, updateManagedNodePoolAnnotationsForUID. apply wp_bind, wp_call; [exact I|]. intros [before|e]; [|done].
  test Ha; [done|]. test Hb; [done|]. apply wp_bind. cbn [wp]. destruct (f (pl_Annotations before)) as [[[m ch] x]|e] eqn:Hf; [|done]. cbv zeta.
  test Hu; [cbn; intros pool changed x0 [= <- <- <-]; exists before, m, ch; split_and!; [apply elem_of_cons; by left|done|]; intros ->; by apply andb_true_iff in Hu as [? _]|].
  test Hd; [done|]. apply wp_bind, wp_call; [exact I|]. intros [answered|e]; [|done].
  destruct (validateManagedNodePoolAnnotationWrite _ _ _ _ _); [done|]. apply wp_bind, wp_call; [exact I|]. intros [verified|e]; [|done]. cbn [wp].
  destruct (validateManagedNodePoolAnnotationWrite _ _ _ _ _); [done|]. intros pool changed x0 [= <- <- <-]. exists before, m, ch. split_and!; [set_solver|done|]. intros _.
  eexists _, answered. split; [apply elem_of_cons; right; apply elem_of_cons; left; reflexivity|done].
Qed.
Lemma record_spec uid ck chk now t : ck <> chk ->
  ensures (recordManagedNodePoolFirewallAbsenceForUID cfg shard uid ck chk now t) (fun r h => r = Ok true -> (forall t', t = Some t' -> t' <= now) /\ counted ck h).
Proof.
  intros Hne. unfold ensures, recordManagedNodePoolFirewallAbsenceForUID. destruct (match t with Some _ => _ | None => _ end) eqn:Ht; [done|]. apply wp_bind.
  eapply wp_mono; [apply update_spec|]. intros [[[pool changed] x]|e] h Hr; [|done]. cbn [result_map snd]. intros [= ->]. destruct (Hr pool changed true eq_refl) as (before & m & ch & Hin & Hf & Hw). clear Hr.
  split; [intros t' ->; by apply Z.ltb_ge in Ht|]. cbv zeta in Hf.
  destruct (bool_decide_reflect (annotation (pl_Annotations before) ck = "")) as [Hc|Hc].
  - cbn in Hf. destruct (if annotation (pl_Annotations before) chk == "" then Ok false else _) as [[]|]; done.
  - destruct (Atoi (annotation (pl_Annotations before) ck)) as [n|] eqn:Hn; [|done]. destruct (_ || _); [done|]. destruct (Z.leb_spec nodeLoadBalancerAbsenceConfirmations n) as [Hl|Hl].
    + exists before. split; [by exists n|by left].
    + destruct (if annotation (pl_Annotations before) chk == "" then Ok false else _) as [[]|]; [done| |done]. injection Hf as <- <- Hl'%Z.leb_le. destruct (Hw eq_refl) as (written & answered & Hwr & Ha).
      exists written. split; [|by right; exists answered]. exists (n + 1). split; [|done]. rewrite Ha, receipt_insert_ne, receipt_insert by congruence.
      unfold nodeLoadBalancerAbsenceConfirmations in *. replace n with 2 by lia. by vm_compute.
Qed.

(** *** This reconciliation's own receipt *)

Lemma issue_earlier uid m at_ clear h : wp earlier_kept (issueShardFirewallMutation IsDNS1123Label cfg shard uid (nodeLoadBalancerShardFirewallMutationExpected m "") at_ clear) h (fun _ _ => True).
Proof.
  unfold issueShardFirewallMutation. test H1; [done|]. test H2; [done|]. apply wp_bind. eapply wp_mono; [apply annotations_earlier|].
  - intros values v. destruct (matches_receipt values _) eqn:Hm; [|done]. cbn [negb]. intros _. apply released_unissued. rewrite matches_receipt_spec in Hm.
    rewrite Hm by (apply (bool_decide_eq_true_1 _); reflexivity). apply expected_issued.
  - intros [[pool changed]|e] h' _; [|done]. test H3; [done|]. apply calm_rest. apply only_bind; [apply calm_receipt|]. by intros [v|e].
Qed.

Section Own.
Context (newer issued older : list (event sres)) (uid : string) (expected : gmap string string) (own : issue_segment cfg shard uid expected issued).

Lemma reset_earlier : wp earlier_kept (resetShardFirewallMutationAfterProvenNonDispatch cfg shard uid expected) (newer ++ issued ++ older) (fun _ _ => True).
Proof.
  unfold resetShardFirewallMutationAfterProvenNonDispatch. test H1; [done|]. apply wp_bind. eapply wp_mono; [apply update_earlier|done]; [done|].
  intros values m changed x. destruct (matches_receipt values expected) eqn:Hm; [|done]. intros _. by eapply released_own.
Qed.
Lemma transition_earlier committed : wp earlier_kept (transitionShardFirewallMutation cfg shard uid expected committed) (newer ++ issued ++ older) (fun _ _ => True).
Proof.
  unfold transitionShardFirewallMutation. test H1; [done|]. apply wp_bind. eapply wp_mono; [apply annotations_earlier|done].
  intros values m. destruct (matches_receipt values expected) eqn:Hm; [|done]. intros _. by eapply released_own.
Qed.
Lemma reject_earlier st e : wp earlier_kept (rejectUndispatched cfg st shard uid expected e) (newer ++ issued ++ older) (fun _ _ => True).
Proof. unfold rejectUndispatched. apply wp_bind. eapply wp_mono; [apply reset_earlier|done]. Qed.
End Own.
Lemma create_readback_earlier newer issued older uid expected desired : issue_segment cfg shard uid expected issued ->
  wp earlier_kept (resolveShardFirewallCreateReadback sha256_hex cfg shard uid expected desired) (newer ++ issued ++ older) (fun _ _ => True).
Proof.
  intros own. unfold resolveShardFirewallCreateReadback. apply wp_bind, wp_call; [exact I|]. intros [items|e]; [|done]. destruct (unique_row _ _) as [[row|]|]; [|done|done].
  test H1; [done|]. apply wp_bind. eapply wp_mono; [apply (transition_earlier (_ :: newer)); exact own|done].
Qed.

Lemma create_earlier st uid annotations desired ledger h :
  wp earlier_kept (createShardFirewall sha256_hex IsDNS1123Label ParseQuantity cfg st shard uid annotations desired ledger) h (fun _ _ => True).
Proof.
  unfold createShardFirewall. apply wp_bind, wp_call; [exact I|]. intros now.
  eapply kept_then; [apply issue_earlier|apply quiet_issue|apply issue_spec, format_time_nonempty|]. intros [expected|e] issued _ Hi; [|done]. destruct (Hi expected eq_refl) as (_ & own & _). cbv zeta.
  eapply (calm_then _ _ _ (fun _ _ => True)); [apply calm_name|by apply wp_skip|]. intros [[seen|]|e] named _ _; [| |by apply reject_earlier].
  { test Hc; [by apply reject_earlier|]. eapply (kept_then _ _ _ (fun _ _ => True)); [by apply create_readback_earlier|apply quiet_create_readback|by apply wp_skip|].
    intros [firewall|e] read _ _; [done|]. rewrite app_assoc. by apply reject_earlier. }
  eapply (calm_then _ _ _ (fun _ _ => True)); [apply calm_authorize|by apply wp_skip|]. intros [e|] authority _ _; [rewrite app_assoc; by apply reject_earlier|]. by apply call_kept.
Qed.
Lemma replace_earlier st uid annotations current desired ledger request h :
  wp earlier_kept (replaceShardFirewall sha256_hex IsDNS1123Label ParseQuantity cfg st shard uid annotations current desired ledger request) h (fun _ _ => True).
Proof.
  unfold replaceShardFirewall. apply wp_bind, wp_call; [exact I|]. intros now.
  eapply kept_then; [apply issue_earlier|apply quiet_issue|apply issue_spec, format_time_nonempty|]. intros [expected|e] issued _ Hi; [|done]. destruct (Hi expected eq_refl) as (_ & own & _). cbv zeta.
  eapply (calm_then _ _ _ (fun _ _ => True)); [apply calm_authorize|by apply wp_skip|]. intros [e|] a1 _ _; [by apply reject_earlier|].
  eapply (calm_then _ _ _ (fun _ _ => True)); [apply calm_fresh|by apply wp_skip|]. intros [fresh|e] a2 _ _; rewrite (app_assoc a2); [|by apply reject_earlier].
  test Hun; [by apply reject_earlier|]. destruct (ownedAs _ _ _ _); [by apply reject_earlier|].
  eapply (calm_then _ _ _ (fun _ _ => True)); [apply calm_authorize|by apply wp_skip|]. intros [e|] a3 _ _; [rewrite (app_assoc a3); by apply reject_earlier|]. by apply call_kept.
Qed.

(** *** The reconciliation, up to its call *)

(** A readable receipt without a pending policy is not issued. *)
Lemma receipt_pending pool : ensures (nodeLoadBalancerShardFirewallAnnotations IsDNS1123Label pool) (fun r _ => forall m, r = Ok m ->
  m = pl_Annotations pool /\ (annotation m PendingHash = "" -> annotation m FWIssuedAt = "")).
Proof.
  unfold ensures, nodeLoadBalancerShardFirewallAnnotations. destruct (appliedError _ _); [done|]. apply wp_bind, wp_skip. intros [e|] h1; [done|]. apply wp_bind.
  apply (wp_mono _ _ _ (fun r _ => r = None -> annotation (pl_Annotations pool) PendingHash = "" -> annotation (pl_Annotations pool) FWIssuedAt = "")).
  - unfold issuedError. cbv zeta. test Hi; [apply (bool_decide_eq_true_1 _) in Hi; by intros _ _|]. test Hp; [done|]. apply (bool_decide_eq_false_1 _) in Hp. by apply wp_skip.
  - intros [e|] h2 Hi; [done|]. cbn [wp]. intros m. destruct (receiptTailError _); [done|]. intros [= <-]. auto.
Qed.
(** The rows of the shard are rows of the list, and a row that is missing is not listed. *)
Lemma located_rows annotations name items byName byUUID byPending : locateShardFirewall annotations name items = Ok (byName, byUUID, byPending) ->
  (byName = None -> forall item, item ∈ items -> EffectiveName item <> name)
  /\ (byUUID = None -> annotation annotations FirewallUUID <> "" -> forall item, item ∈ items -> fw_UUID item <> annotation annotations FirewallUUID)
  /\ (forall item, byName = Some item \/ byUUID = Some item \/ byPending = Some item -> item ∈ items).
Proof.
  unfold locateShardFirewall. destruct (unique_row _ _) as [row|] eqn:Hrow; [|done]. repeat (match goal with |- context [if ?b then Err _ else _] => destruct b; [done|] end).
  assert (Hin : forall p item, last_of p items = Some item -> item ∈ items).
  { intros p item Hl. unfold last_of in Hl. by apply last_Some_elem_of, list_elem_of_In, filter_In in Hl as [Hl%list_elem_of_In _]. }
  intros [= <- <- <-]. split_and!.
  - intros -> item Hitem Hname. unfold unique_row in Hrow. destruct (List.filter _ items) as [|r0 [|]] eqn:Hf; [|done|done].
    assert (H : In item []) by (rewrite <-Hf; apply filter_In; split; [by apply list_elem_of_In|by apply bool_decide_eq_true_2]). done.
  - intros Hl Hne item Hitem Huuid. unfold last_of in Hl. apply last_None in Hl.
    assert (H : In item []) by (rewrite <-Hl; apply filter_In; split; [by apply list_elem_of_In|]; rewrite (bool_decide_eq_true_2 _ Huuid), (bool_decide_eq_false_2 _ Hne); done). done.
  - intros item [->|[H|H]]; [|by eapply Hin|by eapply Hin]. by apply unique_row_in in Hrow as [? _].
Qed.

Section Begun.
Context (p0 : gmap string string) (items : list Firewall) (desired : nodeLoadBalancerShardFirewallPolicy) (ledger : string) (base : list (event sres)).
Hypothesis begun : started [] p0 items desired base.
Hypothesis issued_pending : annotation p0 PendingHash = "" -> annotation p0 FWIssuedAt = "".

Lemma started_more newer : started newer p0 items desired (newer ++ base).
Proof. destruct begun as (clocks & pool & derived & l & -> & H). by exists clocks, pool, derived, l. Qed.

Lemma stage_earlier uid hash l b newer : annotation p0 FWIssuedAt = "" -> wp earlier_kept (stagePolicy cfg shard uid hash l b) (newer ++ base) (fun _ _ => True).
Proof.
  intros Hi. unfold stagePolicy. apply wp_bind. eapply wp_mono; [apply update_earlier|done]; [intros; only_tac|].
  intros values. apply wp_skip. intros r new m changed x _. eapply released_start; [apply started_more|done].
Qed.
Lemma adopt_earlier uid current hash l newer : current ∈ items -> ValidateNodeLoadBalancerShardFirewall sha256_hex current (cc_ClusterID cfg) shard (cc_BillingAccountID cfg) hash = None ->
  (annotation p0 PendingHash <> "" /\ hash = annotation p0 PendingHash \/ annotation p0 FirewallHash = "" /\ hash = fp_Hash desired) ->
  wp earlier_kept (adopt cfg shard uid current hash l) (newer ++ base) (fun _ _ => True).
Proof. intros Hin Hv Hh. apply annotations_earlier. intros values m _. eapply released_shown; [apply started_more|done|done|done]. Qed.

Lemma absent_earlier uid st byName newer : annotation p0 FirewallUUID <> "" -> (forall item, item ∈ items -> fw_UUID item <> annotation p0 FirewallUUID) ->
  wp earlier_kept (retireAbsentFirewall cfg st shard uid (annotation p0 FirewallUUID) byName) (newer ++ base) (fun _ _ => True).
Proof.
  intros Hne Hno. unfold retireAbsentFirewall. destruct byName; [done|]. apply wp_bind, wp_call; [exact I|]. intros now.
  eapply kept_then; [apply record_earlier; apply (bool_decide_eq_true_1 _); reflexivity|apply quiet_record|by apply record_spec|]. intros [[]|e] new _ Hr; [|done|done].
  destruct (Hr eq_refl) as [_ Hc]. apply wp_bind. eapply wp_mono; [apply annotations_earlier|done]. intros values m. destruct (bool_decide_reflect (annotation values FirewallUUID = annotation p0 FirewallUUID)) as [Hu|]; [|done].
  intros _. rewrite app_comm_cons, app_assoc. eapply released_absent; [apply started_more|done|done|done|]. destruct Hc as (pool & Ha & Hp). exists pool. split; [done|].
  destruct Hp as [Hp|(answered & Hp)]; [left|right; exists answered]; apply elem_of_app; by left.
Qed.
Lemma retire_earlier uid newer : annotation p0 FWIssuedAt <> "" -> (forall item, item ∈ items -> EffectiveName item <> CreateFW_DisplayName (fp_Request desired)) ->
  wp earlier_kept (retireRejectedShardFirewallCreate cfg shard uid p0) (newer ++ base) (fun _ _ => True).
Proof.
  intros Hne Hno. unfold retireRejectedShardFirewallCreate, nodeLoadBalancerRejectedCreateAbsenceNotBefore. destruct (parse_time (annotation p0 FWIssuedAt)) as [issued|] eqn:Ht; [|done].
  apply wp_bind, wp_call; [exact I|]. intros now.
  eapply kept_then; [apply record_earlier; apply (bool_decide_eq_true_1 _); reflexivity|apply quiet_record|by apply record_spec|]. intros [[]|e] new _ Hr; [|done|done].
  destruct (Hr eq_refl) as [Hnow _]. specialize (Hnow _ eq_refl). apply wp_bind. eapply wp_mono; [apply annotations_earlier|done]. intros values m.
  destruct (matches_receipt values _) eqn:Hm; [|done]. cbn [negb]. destruct (bool_decide_reflect (annotation values FWCreateRejected = annotation p0 FWIssuedAt)) as [Hrej|]; [|done]. cbn [negb].
  destruct (Atoi (annotation values FWCreateAbsent)) as [n|] eqn:Hn; [|done]. destruct (Z.ltb_spec n nodeLoadBalancerAbsenceConfirmations) as [|Hl]; [done|]. intros _.
  rewrite app_comm_cons, app_assoc. eapply (released_rejected _ _ _ _ p0 items desired now issued); [apply started_more|done|done| |done|by exists n| |done|done].
  - rewrite matches_receipt_spec in *. intros key Hk. rewrite (Hm key Hk). destruct (decide (key = FWIssuedAt)) as [->|Hd]; [apply expected_issued|by apply expected_kept].
  - apply elem_of_app. right. apply elem_of_cons. by left.
Qed.

Lemma present_earlier st uid current newer :
  wp earlier_kept (reconcilePresent sha256_hex IsDNS1123Label ParseQuantity cfg st shard uid p0 current desired ledger) (newer ++ base) (fun _ _ => True).
Proof.
  unfold reconcilePresent. cbv zeta. test H1; [done|]. test H2; [done|]. test H3.
  { apply andb_true_iff in H3 as [_ H3%(bool_decide_eq_true_1 _)]. apply wp_bind. eapply wp_mono; [apply annotations_earlier|done]. intros values m _. eapply released_start; [apply started_more|auto]. }
  test H4; [apply (bool_decide_eq_true_1 _) in H4; apply wp_bind; eapply wp_mono; [apply stage_earlier; auto|done]|].
  destruct (bool_decide_reflect (annotation p0 FWIssuedAt = "")) as [Hi|Hi]; cbn [negb]; [|test H5; exact I].
  test H5; [apply wp_bind; eapply wp_mono; [by apply stage_earlier|done]|]. destruct (nodeLoadBalancerShardFirewallUpdateRequest _ _ _ _); [apply replace_earlier|done].
Qed.
Lemma current_earlier st uid current newer : current ∈ items ->
  wp earlier_kept (reconcileCurrent sha256_hex IsDNS1123Label ParseQuantity cfg st shard uid p0 current desired ledger) (newer ++ base) (fun _ _ => True).
Proof.
  intros Hin. unfold reconcileCurrent. destruct (NodeLoadBalancerShardFirewallSpecHash _ (fw_Rules current)) as [actual|]; [|done].
  destruct (ValidateNodeLoadBalancerShardFirewall _ _ _ _ _ _) eqn:Hv; [done|]. cbv zeta. test H1; [done|].
  test H2; [apply andb_true_iff in H2 as [H2%negb_true_iff%(bool_decide_eq_false_1 _) ->%(bool_decide_eq_true_1 _)]; apply wp_bind; eapply wp_mono; [apply adopt_earlier; auto|done]|].
  test H3; [apply andb_true_iff in H3 as [H3%(bool_decide_eq_true_1 _) ->%(bool_decide_eq_true_1 _)]; apply wp_bind; eapply wp_mono; [apply adopt_earlier; auto|done]|].
  test H4; [done|]. apply present_earlier.
Qed.
Lemma missing_earlier st uid newer : (forall item, item ∈ items -> EffectiveName item <> CreateFW_DisplayName (fp_Request desired)) ->
  wp earlier_kept (reconcileAbsent sha256_hex IsDNS1123Label ParseQuantity cfg st shard uid p0 desired ledger) (newer ++ base) (fun _ _ => True).
Proof.
  intros Hno. unfold reconcileAbsent. cbv zeta. test H1; [done|]. test H2; [apply (bool_decide_eq_true_1 _) in H2; apply wp_bind; eapply wp_mono; [apply stage_earlier; auto|done]|].
  destruct (bool_decide_reflect (annotation p0 FWIssuedAt = "")) as [Hi|Hi]; cbn [negb andb].
  - test H3; [apply wp_bind; eapply wp_mono; [by apply stage_earlier|done]|]. apply create_earlier.
  - test H3; [apply wp_bind; eapply wp_mono; [by apply retire_earlier|done]|]. test H4; exact I.
Qed.
Lemma located_earlier st uid rows newer : locateShardFirewall p0 (CreateFW_DisplayName (fp_Request desired)) items = Ok rows ->
  wp earlier_kept (reconcileLocated sha256_hex IsDNS1123Label ParseQuantity cfg st shard uid p0 desired ledger rows) (newer ++ base) (fun _ _ => True).
Proof.
  destruct rows as [[byName byUUID] byPending]. intros (Hn & Hu & Hin)%located_rows. unfold reconcileLocated. cbv zeta. test H1.
  { apply andb_true_iff in H1 as [H1%negb_true_iff%(bool_decide_eq_false_1 _) H2%(bool_decide_eq_true_1 _)]. by apply absent_earlier; auto. }
  assert (Hkeys : forall key, key ∈ [FWAbsent; FWAbsentChecked; FWCreateAbsent; FWCreateChecked] -> key ∉ nodeLoadBalancerShardFirewallMutationReceiptKeys).
  { intros key Hk. repeat (apply elem_of_cons in Hk as [->|Hk]); [..|by apply elem_of_nil in Hk]; apply (bool_decide_eq_true_1 _); reflexivity. }
  assert (Hclear : forall keys, keys ⊆ [FWAbsent; FWAbsentChecked; FWCreateAbsent; FWCreateChecked] -> forall h, wp earlier_kept (clearManagedNodePoolFirewallAbsenceForUID cfg shard uid keys) h (fun _ _ => True)).
  { intros keys Hs h. apply clear_earlier. intros key Hk. by apply Hkeys, Hs. }
  eapply (kept_then _ _ _ (fun _ _ => True)); [destruct (negb _); [apply Hclear; set_solver|done]|destruct (negb _); [apply quiet_clear|exact I]|by apply wp_skip|]. intros [e|] cleared _ _; [done|]. rewrite app_assoc.
  match goal with |- wp _ (match ?c with _ => _ end) _ _ => destruct c as [current|] eqn:Hc end.
  - eapply (kept_then _ _ _ (fun _ _ => True)); [apply Hclear; set_solver|apply quiet_clear|by apply wp_skip|]. intros [e|] cleared' _ _; [done|]. rewrite app_assoc.
    apply current_earlier, Hin. destruct (negb _); [auto|]. destruct (negb _); [|auto]. destruct byPending; [|auto]. injection Hc as ->. auto.
  - apply missing_earlier, Hn. destruct (bool_decide_reflect (annotation p0 FirewallUUID = "")); cbn [negb andb] in *.
    + destruct (negb _); [by destruct byPending|done].
    + subst byUUID. by rewrite bool_decide_eq_true_2 in H1.
Qed.
End Begun.

Lemma reconcile_earlier : wp earlier_kept (reconcileShardFirewallPolicy sha256_hex IsDNS1123Label ParseQuantity cfg shard) [] (fun _ _ => True).
Proof.
  unfold reconcileShardFirewallPolicy. eapply calm_then; [apply calm_derive|apply ensures_self|]. intros [[[desired ledger]|]|e] live _ Hl; [|done|done]. cbv zeta.
  apply wp_bind, wp_call; [exact I|]. intros [pool|e]; [|done]. test H1; [done|]. test H2; [done|].
  apply wp_bind. eapply (wp_use _ reads_clock); [apply clock_receipt|by intros x h ->|apply receipt_pending|]. intros [p0|e] clocks Hc Hr; [|done]. destruct (Hr p0 eq_refl) as [-> Hp].
  apply wp_bind, wp_call; [exact I|]. intros [items|e]; [|done]. destruct (locateShardFirewall _ _ _) as [rows|] eqn:Hloc; [|done].
  apply (located_earlier _ items _ _ (_ :: _)) with (newer := []); [|done|done]. exists clocks, pool, live, ledger. rewrite app_nil_r in *. by split_and!.
Qed.
End Earlier.

(** C11: a run of [reconcileShardFirewallPolicy] writes the NodePool of the shard over an issued receipt only for one of
    these reasons. After the run called a create or replacement: the write leaves the receipt it just read as it is, the
    call's answer proved that nothing was sent, or a list after the call showed the firewall (by name, or by identity)
    with the policy of the mutation. Before it called anything, when the receipt is that of an earlier run: the write
    leaves it as it is; or nothing is issued in the receipt just read, or was in the one the run started from; or the
    receipt is one this run issued itself; or the list of this run shows a firewall of the shard with the pending policy
    (or with the desired one, where no policy was applied); or the applied firewall is not listed and its absence count
    has reached three; or the receipt carries the mark of a rejected create, nothing of its name is listed, the count of
    its absences has reached three, and five minutes have passed since the issue. A sent mutation of unknown outcome so
    keeps its receipt until reads show its outcome. *)
Theorem shard_receipt_retained shard : dispatches (reconcileShardFirewallPolicy sha256_hex IsDNS1123Label ParseQuantity cfg shard) (fun x h => receipt_kept x h /\ earlier_kept shard x h).
Proof.
  apply dispatches_both; [apply reconcile_walk; [apply before_kept|intros; by apply create_kept|intros; by apply replace_kept]|]. eapply wp_dispatches, reconcile_earlier.
Qed.
End Receipts.
