(* ===== verification/ShardWorld.v ===== *)
(** * A cluster in which the shard firewall converges

    A deterministic Kubernetes API and cloud, the first that answer every call. Repeated reconciliations stage,
    create and commit the firewall of a shard, and later replace its rules when a Service changes. *)

From S2P Require Import Prelude GoErrors CSIFence Prog GoNet GoHTTP ClientErrors ClientResources KubernetesFence NodeFirewall KubeService ShardPlanner ShardFirewall ShardFirewallSpec ShardState CSIWorld.

Module ShardWorld.
Record world := { wo_Pool : NodePool; wo_Firewalls : list Firewall; wo_Services : list Service; wo_Clock : Z; wo_Creates : nat; wo_Updates : nat }.
Definition shard : string := "inlb-00000001".
Definition cfg : CloudConfig := Build_CloudConfig "cluster" 7 "bkk01" 1.
Definition new_uuid : string := "00000000-0000-4000-8000-00000000000a".

Definition apply_update (uuid : string) (request : UpdateFirewallRequest) (f : Firewall) : Firewall :=
  if fw_UUID f == uuid then
    Build_Firewall uuid (fw_Name f) (UpdateFW_Name request) (UpdateFW_Description request) (fw_BillingAccountID f) (UpdateFW_Rules request) (fw_ResourcesAssigned f) (fw_CreatedAt f)
  else f.
(** The provider names each rule after its port. *)
Definition name_rule (r : FirewallRule) : FirewallRule :=
  with_UUID (if fr_UUID r == "" then "00000000-0000-4000-8000-0000000" +:+ FormatInt (10000 + default 0 (fr_PortStart r)) else fr_UUID r) r.

Definition step (x : sact) (w : world) : sres x * world :=
  match x return sres x * world with
  | ListServices => (Ok (wo_Services w), w)
  | GetService _ _ => (Err (Sentinel StatusNotFound), w)
  | GetPool _ _ => (Ok (wo_Pool w), w)
  | UpdatePool _ pool => (Ok pool, Build_world pool (wo_Firewalls w) (wo_Services w) (wo_Clock w) (wo_Creates w) (wo_Updates w))
  | CloudListFirewalls _ => (Ok (wo_Firewalls w), w)
  | CloudCreateFirewall _ request =>
      let made := Build_Firewall new_uuid "" (CreateFW_DisplayName request) (CreateFW_Description request) (CreateFW_BillingAccountID request)
                    (map name_rule (CreateFW_Rules request)) (Some []) "" in
      (Ok (Some made), Build_world (wo_Pool w) (wo_Firewalls w ++ [made]) (wo_Services w) (wo_Clock w) (S (wo_Creates w)) (wo_Updates w))
  | CloudUpdateFirewall _ uuid request =>
      let request := Build_UpdateFirewallRequest (UpdateFW_Name request) (UpdateFW_Description request) (map name_rule (UpdateFW_Rules request)) in
      let firewalls := map (apply_update uuid request) (wo_Firewalls w) in
      (Ok (last_of (fun f => fw_UUID f == uuid) firewalls), Build_world (wo_Pool w) firewalls (wo_Services w) (wo_Clock w) (wo_Creates w) (S (wo_Updates w)))
  | Clock => (wo_Clock w, Build_world (wo_Pool w) (wo_Firewalls w) (wo_Services w) (wo_Clock w + 1000000000) (wo_Creates w) (wo_Updates w))
  end.

(** A digest of 64 characters that depends on the text, in place of the hash of the program. *)
Fixpoint fold_text (acc : Z) (s : string) : Z :=
  match s with EmptyString => acc | String c r => fold_text ((257 * acc + Z.of_nat (code c)) mod 2305843009213693951) r end.
Fixpoint pad (n : nat) (s : string) : string := match n with O => s | S n => pad n ("0" +:+ s) end.
Definition digest (text : string) : string :=
  let s := FormatInt (fold_text 7 text) in pad (64 - String.length s) s.

(** A Service that is staged for the shard with its present policy. *)
Definition staged (s : Service) : Service :=
  Build_Service (sv_Namespace s) (sv_Name s) (sv_UID s) (sv_ResourceVersion s) None [nodeLoadBalancerFinalizer] (sv_Labels s)
    (list_to_map [(annotationNodeLoadBalancerDatapathActive, shard); (annotationNodeLoadBalancerDatapathStaged, shard);
      (annotationNodeLoadBalancerDatapathStagedPolicy, match desiredNodeLoadBalancerServicePolicyHash digest s with Ok hash => hash | Err _ => "" end)])
    (sv_OwnerReferences s) (sv_Spec s) (sv_Ingress s).
Definition pool : NodePool :=
  Build_NodePool shard "pool-uid" "1" None [nodeLoadBalancerNodePoolFinalizer]
    (list_to_map [(nodeLoadBalancerManagedLabel, "true"); (nodeLoadBalancerClusterLabel, "cluster"); (nodeLoadBalancerShardLabel, shard)]) ∅.
Definition start : world :=
  Build_world pool [] [staged (ShardSample.service "web" [80; 443] ["10.0.0.0/8"]); staged (ShardSample.service "dns" [53] [])] 1900000000000000000 0 0.
Definition reconcile (w : world) : option (nodeLoadBalancerShardFirewallState * goerr) * world :=
  run step (reconcileShardFirewallPolicy (TT := reference_time) digest ShardSample.label (fun _ => None) cfg shard) w.
Definition after (n : nat) (w : world) : world := Nat.iter n (fun w => (reconcile w).2) w.

(** What an observer of the shard sees: the error and the readiness of the last reconciliation, the receipt keys that
    remain, the mutations the cloud received and the ports of its firewalls. *)
Definition seen (w : world) : option (goerr * bool) * nat * (nat * nat) * list (list (option Z)) :=
  let r := reconcile w in
  (option_map (fun o => (o.2, st_PolicyReady o.1)) r.1,
   size (pl_Annotations (wo_Pool r.2)), (wo_Creates r.2, wo_Updates r.2), map (fun f => map fr_PortStart (fw_Rules f)) (wo_Firewalls r.2)).

(** Staging writes the pending receipt and calls no mutation; the next reconciliation creates the firewall and leaves
    the committed receipt; further ones change nothing. *)
Example shard_firewall_converges :
  seen start = (Some (None, false), 3%nat, (0%nat, 0%nat), [])
  /\ seen (after 1 start) = (Some (None, true), 3%nat, (1%nat, 0%nat), [[Some 53; Some 80; Some 443]])
  /\ seen (after 5 start) = seen (after 1 start).
Proof. vm_compute. auto. Qed.

(** A Service stops serving a port: the replacement is staged, then issued and dispatched once; the
    issued receipt stays until the next reconciliation reads the replaced rules back, and is then committed. *)
Definition shrunk : world :=
  let w := after 2 start in
  Build_world (wo_Pool w) (wo_Firewalls w) [staged (ShardSample.service "web" [443] ["10.0.0.0/8"]); staged (ShardSample.service "dns" [53] [])] (wo_Clock w) (wo_Creates w) (wo_Updates w).
Example shard_firewall_follows :
  seen shrunk = (Some (None, false), 6%nat, (1%nat, 0%nat), [[Some 53; Some 80; Some 443]])
  /\ seen (after 1 shrunk) = (Some (None, false), 7%nat, (1%nat, 1%nat), [[Some 53; Some 443]])
  /\ seen (after 2 shrunk) = (Some (None, true), 3%nat, (1%nat, 1%nat), [[Some 53; Some 443]])
  /\ seen (after 5 shrunk) = seen (after 2 shrunk).
Proof. vm_compute. auto. Qed.
End ShardWorld.
