(* ===== verification/RelationFence.v ===== *)
(** * Fenced relations between firewalls and VMs (node_loadbalancer_firewall_relation_fence.go)

    A firewall is attached to a VM, or detached from it, under a receipt that the owner of the firewall (a Service,
    the NodePool of a shard, the NodeClass of the cluster) carries in its annotations. The receipt is written before
    the call and cleared only by what the cloud shows afterwards: an attachment that is listed, a detachment that is
    absent twice with a delay between, or a receipt so old that its request cannot be under way any more. The limit
    of firewalls per VM (node_loadbalancer_firewall_limit.go), the provider IDs (pkg/providerid) and the membership
    of the VPC (vpc_membership.go) are here too. *)

From S2P Require Import Prelude GoErrors ClientTypes CSIFence Prog GoJSON GoNet GoHTTP ClientErrors ClientResources KubernetesFence NodeFirewall KubeService ShardPlanner ShardFirewall ShardState.

(** ** Provider IDs *)

Module ProviderID.
Record ID := { Location : string; UUID : string }.
Definition Validate (id : ID) : goerr :=
  if negb (location_pattern (Location id)) then Some (Msg "providerid: invalid location")
  else if negb (uuid_any_pattern (UUID id)) then Some (Msg "providerid: invalid UUID") else None.
Definition String_ (id : ID) : string := "inspace://" +:+ Location id +:+ "/" +:+ ToLower (UUID id).
Definition New (location uuid : string) : result string :=
  let id := Build_ID location (ToLower uuid) in
  match Validate id with Some e => Err e | None => Ok (String_ id) end.
Definition Parse (value : string) : result ID :=
  if negb (HasPrefix value "inspace://") then Err (Msg "providerid: expected scheme")
  else match SplitChar "/" (TrimPrefix value "inspace://") with
  | [location; uuid] =>
      let id := Build_ID location (ToLower uuid) in
      match Validate id with Some e => Err e | None => Ok id end
  | _ => Err (Msg "providerid: expected inspace://<location>/<uuid>")
  end.
End ProviderID.

Fixpoint collectMembers (location : string) (members : gmap string string) (l : list string) : result (gmap string string) :=
  match l with
  | [] => Ok members
  | member :: rest =>
      match ProviderID.New location member with
      | Err e => Err (Wrap "configured VPC member has invalid VM UUID" [e])
      | Ok _ =>
          let canonical := ToLower member in
          if bool_decide (is_Some (members !! canonical)) then Err (Msg "configured VPC contains duplicate VM UUID")
          else collectMembers location (<[canonical := member]> members) rest
      end
  end.
Definition canonicalConfiguredVPCVMUUIDs (location : string) (network : option Network) : result (gmap string string) :=
  match network with
  | None => Err (Msg "configured VPC response is empty")
  | Some network =>
      match Network_VMUUIDs network with
      | None => Err (Msg "configured VPC omitted VM membership")
      | Some uuids => collectMembers location ∅ uuids
      end
  end.

(** ** The receipt *)

(** Whether a timestamp is written in UTC, as [time.Time.Format] writes a time of that zone, and what such a text is
    made of. *)
Class UTCText `{TT : TimeText} := {
  is_utc : string -> bool;
  format_utc : forall t, is_utc (format_time t) = true;
  format_clean : forall t, all_chars (fun c => negb (is_space c) && negb (c == "|"%char)) (format_time t) = true
}.

Definition RelationIssued : string := "service.inspace.cloud/node-lb-firewall-relation-issued".
Definition RelationOwnerUID : string := "service.inspace.cloud/node-lb-firewall-relation-owner-uid".
Definition RelationVMAbsent : string := "service.inspace.cloud/node-lb-firewall-relation-vm-absence".
Definition RelationRetired : string := "service.inspace.cloud/node-lb-firewall-relation-retired".
Definition nodeLoadBalancerFirewallRelationAssign : string := "assign".
Definition nodeLoadBalancerFirewallRelationUnassign : string := "unassign".
(** Ten seconds, half an hour, and the delay before a receipt may be retired: five minutes and thirty seconds. *)
Definition nodeLoadBalancerRetry : Z := 10000000000.
Definition nodeLoadBalancerFirewallRelationParkDuration : Z := 1800000000000.
Definition nodeLoadBalancerFirewallRelationRetireDelay : Z := nodeLoadBalancerShardFirewallMutationTimeout + nodeLoadBalancerAbsenceConfirmationDelay.
Definition nodeLoadBalancerFirewallRelationParkRetirements : Z := 3.
Definition nodeLoadBalancerFirewallRelationRetirementRecords : nat := 16.

Record nodeLoadBalancerFirewallRelationFence := {
  rf_operation : string; rf_firewallUUID : string; rf_vmUUID : string; rf_issueID : string; rf_issuedAt : string;
  rf_targetAbsentAt : string; rf_absenceObservedAt : string
}.
#[export] Instance eta_relationFence : Eta nodeLoadBalancerFirewallRelationFence := fun f =>
  Build_nodeLoadBalancerFirewallRelationFence (rf_operation f) (rf_firewallUUID f) (rf_vmUUID f) (rf_issueID f) (rf_issuedAt f) (rf_targetAbsentAt f) (rf_absenceObservedAt f).
#[export] Instance relationFence_eq_dec : EqDecision nodeLoadBalancerFirewallRelationFence.
Proof. solve_decision. Defined.

Definition logicalString (f : nodeLoadBalancerFirewallRelationFence) : string :=
  rf_operation f +:+ ":" +:+ rf_firewallUUID f +:+ "/" +:+ rf_vmUUID f.
Definition fence_String (f : nodeLoadBalancerFirewallRelationFence) : string :=
  let body := [rf_operation f; rf_firewallUUID f; rf_vmUUID f; rf_issueID f; rf_issuedAt f] in
  if (rf_issueID f == "") && (rf_issuedAt f == "") then logicalString f
  else if rf_targetAbsentAt f != "" then join_char "|" (["v3"] ++ body ++ [rf_targetAbsentAt f; rf_absenceObservedAt f])
  else if rf_absenceObservedAt f != "" then join_char "|" (["v2"] ++ body ++ [rf_absenceObservedAt f])
  else join_char "|" (["v1"] ++ body).

(** [sameNodeLoadBalancerFirewallRelationIssue]: the same attempt, whatever was observed of it since. *)
Definition sameNodeLoadBalancerFirewallRelationIssue (left right : nodeLoadBalancerFirewallRelationFence) : bool :=
  (rf_operation left == rf_operation right) && EqualFold (rf_firewallUUID left) (rf_firewallUUID right) && EqualFold (rf_vmUUID left) (rf_vmUUID right)
  && (rf_issueID left == rf_issueID right) && (rf_issuedAt left == rf_issuedAt right) && (rf_targetAbsentAt left == rf_targetAbsentAt right).
Definition nodeLoadBalancerFirewallRelationKey (fence : nodeLoadBalancerFirewallRelationFence) : string :=
  rf_operation fence +:+ "/" +:+ ToLower (rf_firewallUUID fence) +:+ "/" +:+ ToLower (rf_vmUUID fence).

Definition nodeLoadBalancerFirewallRelationConverged (fence : nodeLoadBalancerFirewallRelationFence) (items : list Firewall) : result bool :=
  match List.filter (fun item => EqualFold (fw_UUID item) (rf_firewallUUID fence)) items with
  | [] => Ok (rf_operation fence == nodeLoadBalancerFirewallRelationUnassign)
  | [current] =>
      try! assignments := nodeLoadBalancerFirewallVMAssignments current in
      let assigned := bool_decide (rf_vmUUID fence ∈ assignments) in
      Ok (if rf_operation fence == nodeLoadBalancerFirewallRelationAssign then assigned else negb assigned)
  | _ => Err (Msg "node load balancer: firewall UUID appears multiple times during relation readback")
  end.

Section Receipt.
Context `{TT : TimeText} {UT : UTCText} `{JT : JSONText}.

(** [time.Parse] with the test that the location is UTC. *)
Definition parse_utc (s : string) : option Z := match parse_time s with Some t => if is_utc s then Some t else None | None => None end.

(** [hex.DecodeString] of sixteen bytes, and a timestamp. *)
Definition validateNodeLoadBalancerFirewallCreateIssued (token issuedAt : string) : goerr :=
  if negb (Nat.eqb (String.length token) 32 && all_chars is_hex token) then Some (Msg "node load balancer: invalid firewall create-issued token")
  else match parse_time issuedAt with None => Some (Msg "node load balancer: invalid firewall create-issued timestamp") | Some _ => None end.

(** The identity of the attempt, which all three versions begin with. *)
Definition parseIssue (operation firewallUUID vmUUID issueID issuedAt : string) : result nodeLoadBalancerFirewallRelationFence :=
  if ((operation != nodeLoadBalancerFirewallRelationAssign) && (operation != nodeLoadBalancerFirewallRelationUnassign))
     || negb (validNodeLoadBalancerCloudUUID firewallUUID) || negb (validNodeLoadBalancerCloudUUID vmUUID)
  then Err (Msg "node load balancer: malformed firewall relation fence")
  else match validateNodeLoadBalancerFirewallCreateIssued issueID issuedAt with
  | Some e => Err (Wrap "node load balancer: invalid firewall relation issue identity" [e])
  | None => Ok (Build_nodeLoadBalancerFirewallRelationFence operation (ToLower firewallUUID) (ToLower vmUUID) issueID issuedAt "" "")
  end.
Definition parseNodeLoadBalancerFirewallRelationFence (value : string) : result nodeLoadBalancerFirewallRelationFence :=
  match SplitChar "|" (TrimSpace value) with
  | [v; operation; firewallUUID; vmUUID; issueID; issuedAt] =>
      if v != "v1" then Err (Msg "node load balancer: malformed firewall relation fence")
      else parseIssue operation firewallUUID vmUUID issueID issuedAt
  | [v; operation; firewallUUID; vmUUID; issueID; issuedAt; observedAt] =>
      if v != "v2" then Err (Msg "node load balancer: malformed firewall relation fence")
      else
      try! fence := parseIssue operation firewallUUID vmUUID issueID issuedAt in
      if operation != nodeLoadBalancerFirewallRelationUnassign then Err (Msg "node load balancer: only an unassign fence may contain absence evidence")
      else match parse_utc observedAt with
      | None => Err (Msg "node load balancer: invalid firewall relation absence observation")
      | Some _ => Ok (fence <| rf_absenceObservedAt := observedAt |>)
      end
  | [v; operation; firewallUUID; vmUUID; issueID; issuedAt; targetAt; observedAt] =>
      if v != "v3" then Err (Msg "node load balancer: malformed firewall relation fence")
      else
      try! fence := parseIssue operation firewallUUID vmUUID issueID issuedAt in
      if (operation != nodeLoadBalancerFirewallRelationUnassign) || (targetAt == "") then Err (Msg "node load balancer: only an unassign fence may contain target-absence evidence")
      else match parse_utc targetAt, parse_time issuedAt with
      | Some target, Some issued =>
          if issued <? target then Err (Msg "node load balancer: invalid firewall relation target-absence observation")
          else
            let fence := fence <| rf_targetAbsentAt := targetAt |> in
            if observedAt == "" then Ok fence
            else match parse_utc observedAt with
            | None => Err (Msg "node load balancer: invalid firewall relation absence observation")
            | Some _ => Ok (fence <| rf_absenceObservedAt := observedAt |>)
            end
      | _, _ => Err (Msg "node load balancer: invalid firewall relation target-absence observation")
      end
  | _ => Err (Msg "node load balancer: malformed firewall relation fence")
  end.

(** What one observation does to the owner's annotations: the new ones, whether the receipt is cleared, whether
    anything changed. *)
Definition clear_receipt (values : gmap string string) : gmap string string := delete RelationOwnerUID (delete RelationIssued values).
Definition advanceNodeLoadBalancerFirewallRelationObservation (values : gmap string string) (fence : nodeLoadBalancerFirewallRelationFence) (converged : bool) (now absenceDelay : Z)
    : result (gmap string string * bool * bool) :=
  if rf_operation fence == nodeLoadBalancerFirewallRelationAssign then
    if rf_absenceObservedAt fence != "" then Err (Msg "node load balancer: assignment relation fence contains removal absence evidence")
    else if negb converged then Ok (values, false, false)
    else Ok (clear_receipt values, true, true)
  else if rf_operation fence != nodeLoadBalancerFirewallRelationUnassign then Err (Msg "node load balancer: unsupported firewall relation operation")
  else if negb converged then
    if rf_absenceObservedAt fence == "" then Ok (values, false, false)
    else Ok (<[RelationIssued := fence_String (fence <| rf_absenceObservedAt := "" |>)]> values, false, true)
  else if rf_absenceObservedAt fence == "" then
    Ok (<[RelationIssued := fence_String (fence <| rf_absenceObservedAt := format_time now |>)]> values, false, true)
  else match parse_utc (rf_absenceObservedAt fence) with
  | None => Err (Msg "node load balancer: invalid persisted firewall relation absence observation")
  | Some observedAt => if now <? observedAt + absenceDelay then Ok (values, false, false) else Ok (clear_receipt values, true, true)
  end.
Definition nodeLoadBalancerFirewallRelationRetireDue (fence : nodeLoadBalancerFirewallRelationFence) (now : Z) : result bool :=
  match parse_time (rf_issuedAt fence) with
  | None => Err (Msg "node load balancer: invalid firewall relation issue timestamp")
  | Some issuedAt => Ok (issuedAt + nodeLoadBalancerFirewallRelationRetireDelay <=? now)
  end.
Definition nodeLoadBalancerFirewallRelationPendingRetry (existing : nodeLoadBalancerFirewallRelationFence) (converged : bool) (now absenceDelay : Z) : Z :=
  let wait := match parse_time (rf_issuedAt existing) with
              | Some issuedAt => Z.min nodeLoadBalancerRetry (issuedAt + nodeLoadBalancerFirewallRelationRetireDelay - now)
              | None => nodeLoadBalancerRetry
              end in
  let wait := if (rf_operation existing == nodeLoadBalancerFirewallRelationUnassign) && converged
              then default now (parse_time (rf_absenceObservedAt existing)) + absenceDelay - now
              else wait in
  if wait <=? 0 then 1000000000 else wait.

Definition encodeNodeLoadBalancerFirewallRelationVMAbsence (firewallUUID vmUUID : string) (observedAt : Z) : string :=
  join_char "|" [firewallUUID; vmUUID; format_time observedAt].
Definition parseNodeLoadBalancerFirewallRelationVMAbsence (value firewallUUID vmUUID : string) : result (option Z) :=
  if value == "" then Ok None
  else match SplitChar "|" value with
  | [f; v; at_] =>
      if (f != firewallUUID) || (v != vmUUID) then Err (Msg "node load balancer: firewall relation VM-absence receipt does not match the requested relation")
      else match parse_utc at_ with
      | Some observedAt => Ok (Some observedAt)
      | None => Err (Msg "node load balancer: firewall relation VM-absence receipt has an invalid timestamp")
      end
  | _ => Err (Msg "node load balancer: firewall relation VM-absence receipt does not match the requested relation")
  end.

(** ** Retirement records *)

Record nodeLoadBalancerFirewallRelationRetirement := { rr_Count : Z; rr_At : Z }.
#[export] Instance eta_retirement : Eta nodeLoadBalancerFirewallRelationRetirement := fun r => Build_nodeLoadBalancerFirewallRelationRetirement (rr_Count r) (rr_At r).
Definition retirement_codec : codec nodeLoadBalancerFirewallRelationRetirement :=
  struct_codec (Build_nodeLoadBalancerFirewallRelationRetirement 0 0) ["n" :=: int64_codec # rr_Count; "at" :=: time_codec # rr_At].
Notation retirements := (gmap string nodeLoadBalancerFirewallRelationRetirement).

Definition parseNodeLoadBalancerFirewallRelationRetirements (value : string) : retirements :=
  if value == "" then ∅
  else match Unmarshal (map_codec retirement_codec) value with
  | Ok records => filter (fun kv => 1 <= rr_Count kv.2 /\ rr_At kv.2 <> 0) (default ∅ records)
  | Err _ => ∅
  end.

(** The record to drop: the oldest, and of equally old ones the first key. *)
Definition older (a b : string * nodeLoadBalancerFirewallRelationRetirement) : bool :=
  (rr_At a.2 <? rr_At b.2) || ((rr_At a.2 =? rr_At b.2) && String.leb a.1 b.1).
Definition live_records (records : retirements) (now : Z) : retirements :=
  filter (fun kv => now < rr_At kv.2 + nodeLoadBalancerFirewallRelationParkDuration) records.
Definition bound_records (records : retirements) : retirements :=
  let l := sort_by older (map_to_list records) in
  list_to_map (drop (List.length l - nodeLoadBalancerFirewallRelationRetirementRecords) l).
Definition storeNodeLoadBalancerFirewallRelationRetirements (values : gmap string string) (records : retirements) (now : Z) : gmap string string :=
  let kept := bound_records (live_records records now) in
  if bool_decide (kept = ∅) then delete RelationRetired values
  else <[RelationRetired := Marshal (map_codec retirement_codec) (Some kept)]> values.
Definition recordNodeLoadBalancerFirewallRelationRetirement (values : gmap string string) (retired : nodeLoadBalancerFirewallRelationFence) (now : Z) : gmap string string :=
  let key := nodeLoadBalancerFirewallRelationKey retired in
  let records := parseNodeLoadBalancerFirewallRelationRetirements (annotation values RelationRetired) in
  let count := match records !! key with Some record => rr_Count record | None => 0 end in
  storeNodeLoadBalancerFirewallRelationRetirements values (<[key := Build_nodeLoadBalancerFirewallRelationRetirement (wrap64 (count + 1)) now]> records) now.
(** The annotations and whether a record was removed. *)
Definition clearNodeLoadBalancerFirewallRelationRetirement (values : gmap string string) (key : string) (now : Z) : gmap string string * bool :=
  let records := parseNodeLoadBalancerFirewallRelationRetirements (annotation values RelationRetired) in
  if bool_decide (is_Some (records !! key)) then (storeNodeLoadBalancerFirewallRelationRetirements values (delete key records) now, true)
  else (values, false).
End Receipt.

(** ** Firewalls per VM *)

Definition DefaultMaxFirewallsPerVM : Z := 3.
Definition recentFirewallAssignTTL : Z := 120000000000.
(** What the provider remembers of attachments the API acknowledged: the firewalls of a VM and when. The map is shared
    by all goroutines under a mutex; each operation on it is one step. *)
Notation recentAssigns := (gmap string (gmap string Z)).
Definition set_vm (vm : string) (rows : gmap string Z) (recent : recentAssigns) : recentAssigns :=
  if bool_decide (rows = ∅) then delete vm recent else <[vm := rows]> recent.
Definition rememberFirewallAssign (vmUUID firewallUUID : string) (now : Z) (recent : recentAssigns) : recentAssigns :=
  let vm := ToLower vmUUID in <[vm := <[ToLower firewallUUID := now]> (default ∅ (recent !! vm))]> recent.
Definition forgetFirewallAssign (vmUUID firewallUUID : string) (recent : recentAssigns) : recentAssigns :=
  let vm := ToLower vmUUID in set_vm vm (delete (ToLower firewallUUID) (default ∅ (recent !! vm))) recent.
Definition recentFirewallAssignsFor (vmUUID : string) (now : Z) (recent : recentAssigns) : gset string * recentAssigns :=
  let vm := ToLower vmUUID in
  let rows := filter (fun kv => now - kv.2 < recentFirewallAssignTTL) (default ∅ (recent !! vm)) in
  (dom rows, set_vm vm rows recent).

(** ** Actions *)

Record Node := {
  nd_Name : string; nd_DeletionTimestamp : option string; nd_Labels : gmap string string; nd_ProviderID : string; nd_Taints : list string;
  nd_Ready : option bool  (* the first Ready condition *); nd_Addresses : list (string * string)
}.
Record RelationConfig := { rc_Cloud : CloudConfig; rc_NetworkUUID : string; rc_MaxFirewallsPerVM : Z; rc_AbsentDelay : Z }.

Inductive nact :=
  | Kube (x : sact)
  | UpdateService (service : Service)
  | CloudGetVM (location uuid : string)
  | CloudListVMs (location : string)
  | CloudGetNetwork (location uuid : string)
  | CloudAssignFirewall (location firewallUUID vmUUID : string)
  | CloudUnassignFirewall (location firewallUUID vmUUID : string)
  | NewToken
  | Remember (vmUUID firewallUUID : string) (now : Z)
  | Forget (vmUUID firewallUUID : string)
  | Recent (vmUUID : string) (now : Z)
  | AuthorizedNodes (shard : string)
  | RecordEvent (service : Service) (reason : string).
Definition nres (x : nact) : Type :=
  match x with
  | Kube x => sres x
  | UpdateService _ => result Service
  | CloudGetVM _ _ => result (option VM)
  | CloudListVMs _ => result (list VM)
  | CloudGetNetwork _ _ => result (option Network)
  | CloudAssignFirewall _ _ _ | CloudUnassignFirewall _ _ _ => goerr
  | NewToken => result string
  | Remember _ _ _ | Forget _ _ | RecordEvent _ _ => unit
  | Recent _ _ => gset string
  | AuthorizedNodes _ => result (list Node)
  end.
(** A program of the shard firewall, as part of one of this file. *)
Fixpoint lift {A} (p : prog sres A) : prog nres A :=
  match p with
  | Ret a => Ret a
  | Act x k => Act (Kube x : nact) (fun r => lift (k r))
  | Panic => Panic
  | OutOfFuel => OutOfFuel
  end.

Definition nodeLoadBalancerVMUUID (node : Node) : option string :=
  if nd_ProviderID node == "" then None
  else match ProviderID.Parse (nd_ProviderID node) with Ok id => Some (ProviderID.UUID id) | Err _ => None end.
(** The one canonical private (or public) IPv4 address of a type; an address in another form is skipped. *)
Fixpoint node_IPv4 (kind : string) (private : bool) (found : string) (l : list (string * string)) : option string :=
  match l with
  | [] => if found == "" then None else Some found
  | (k, text) :: rest =>
      match (if k == kind then ParseAddr4 text else None) with
      | Some a =>
          if IsGlobalUnicast a && Bool.eqb (IsPrivate a) private && (IPv4_String a == text)
          then if (found != "") && (found != text) then None else node_IPv4 kind private text rest
          else node_IPv4 kind private found rest
      | None => node_IPv4 kind private found rest
      end
  end.
Definition nodeLoadBalancerNodeInternalIPv4 (node : Node) : option string := node_IPv4 "InternalIP" true "" (nd_Addresses node).
Definition nodeLoadBalancerNodeExternalIPv4 (node : Node) : option string := node_IPv4 "ExternalIP" false "" (nd_Addresses node).
Definition nodeLoadBalancerNodeLabel : string := "inspace.cloud.node-restriction.kubernetes.io/node-lb".
Definition nodeLoadBalancerNodeHealthy (node : Node) : bool :=
  bool_decide (nd_DeletionTimestamp node = None) && (annotation (nd_Labels node) nodeLoadBalancerNodeLabel == "true")
  && bool_decide (nd_Labels node !! "node.kubernetes.io/exclude-from-external-load-balancers" = None)
  && forallb (fun key => (key != "karpenter.sh/disrupted") && (key != "ToBeDeletedByClusterAutoscaler")) (nd_Taints node)
  && default false (nd_Ready node)
  && bool_decide (is_Some (nodeLoadBalancerNodeInternalIPv4 node)) && bool_decide (is_Some (nodeLoadBalancerNodeExternalIPv4 node)).
Definition requireAuthorizedNodeLoadBalancerFirewallVM (nodes : list Node) (vmUUID : string) : goerr :=
  let matches := List.length (List.filter (fun node => bool_decide (nodeLoadBalancerVMUUID node = Some vmUUID) && nodeLoadBalancerNodeHealthy node) nodes) in
  if Nat.eqb matches 0 then Some (wrapS ErrFirewallVMNotHealthy "VM has 0 healthy authoritative managed Nodes, want exactly one")
  else if negb (Nat.eqb matches 1) then Some (Msg "VM has several healthy authoritative managed Nodes, want exactly one") else None.

(** ** Owners *)

(** What the owner of a relation offers: its receipt as it is now, with a conditional write of the annotations, and
    the authority for a dispatch. The boolean is whether the context is detached from the caller's. *)
Record ownerSnapshot := { sn_annotations : gmap string string; sn_uid : string; sn_commit : bool -> gmap string string -> prog nres goerr }.
Record relationOwner := {
  ow_read : bool -> prog nres (result ownerSnapshot);
  ow_authorize : option (nodeLoadBalancerFirewallRelationFence -> Firewall -> prog nres goerr);
  ow_parkRetired : bool;
  ow_service : option Service;
  ow_members : option (prog nres (list (option Service)))
}.

Section Relation.
Context `{TT : TimeText} {UT : UTCText} `{JT : JSONText} (sha256_hex : string -> string) (IsDNS1123Label : string -> bool) (ParseQuantity : string -> option (Z * Z)) (cfg : RelationConfig).
Local Notation cloud := (rc_Cloud cfg).
Local Notation location := (cc_Location (rc_Cloud cfg)).
Local Notation listFirewalls := (call (Kube (CloudListFirewalls (cc_Location (rc_Cloud cfg))))).
Local Notation clock := (call (Kube Clock)).
Definition nodeLoadBalancerFirewallRelationAbsenceDelay : Z := if rc_AbsentDelay cfg <? 0 then nodeLoadBalancerAbsenceConfirmationDelay else rc_AbsentDelay cfg.

(** ** The limit *)

Definition maxFirewallsPerVM : Z := if 1 <=? rc_MaxFirewallsPerVM cfg then rc_MaxFirewallsPerVM cfg else DefaultMaxFirewallsPerVM.
(** The firewalls that list the VM. *)
Definition attached_to (items : list Firewall) (vmUUID : string) : gset string :=
  list_to_set (map (fun item => ToLower (fw_UUID item))
    (List.filter (fun item => existsb (fun row => EqualFold (fx_ResourceType row) "vm" && EqualFold (fx_ResourceUUID row) vmUUID) (default [] (fw_ResourcesAssigned item))) items)).
Definition firewallVMCapacityFromItems (items : list Firewall) (firewallUUID vmUUID : string) : prog nres goerr :=
  let attached := attached_to items vmUUID in
  if bool_decide (ToLower firewallUUID ∈ attached) then Ret None
  else
    let! now := clock in
    let! recent := call (Recent vmUUID now) in
    let attached := attached ∪ recent in
    Ret (if bool_decide (ToLower firewallUUID ∈ attached) then None
         else if maxFirewallsPerVM <? Z.of_nat (size attached) + 1 then Some (Sentinel FirewallLimitExceeded) else None).
Definition requireFirewallVMCapacity (firewallUUID vmUUID : string) : prog nres goerr :=
  let! items := listFirewalls in
  match items with
  | Err e => Ret (Some (Wrap "node load balancer: read firewalls of VM before attaching firewall" [e]))
  | Ok items => firewallVMCapacityFromItems items firewallUUID vmUUID
  end.
Definition recordFirewallLimitExceeded (service : option Service) : prog nres unit :=
  match service with None => Ret tt | Some service => call (RecordEvent service "FirewallLimitExceeded") end.
Fixpoint recordMembers (owner : option Service) (members : list (option Service)) : prog nres unit :=
  match members with
  | [] => Ret tt
  | Some member :: rest =>
      if (match owner with Some s => sv_UID member == sv_UID s | None => false end) then recordMembers owner rest
      else let! _ := recordFirewallLimitExceeded (Some member) in recordMembers owner rest
  | None :: rest => recordMembers owner rest
  end.
Definition refuseFirewallAttach (owner : relationOwner) (cause : error) : prog nres unit :=
  if Is cause FirewallLimitExceeded then
    let! _ := recordFirewallLimitExceeded (ow_service owner) in
    match ow_members owner with
    | None => Ret tt
    | Some members => let! l := members in recordMembers (ow_service owner) l
    end
  else Ret tt.

(** ** The VM of a relation *)

Inductive vmAuthority := VMOwned | VMAbsent.
Definition foreign_vm (vm : VM) : bool :=
  negb (VM_BillingAccountID vm =? cc_BillingAccountID cloud) || ((VM_NetworkUUID vm != "") && (VM_NetworkUUID vm != rc_NetworkUUID cfg)).
(** The exact read: the VM, or that it is absent. *)
Definition exactRelationVM (vmUUID : string) : prog nres (result (option VM)) :=
  let! got := call (CloudGetVM location vmUUID) in
  Ret (match got with
       | Err e => if Client.IsNotFound (Some e) then Ok None else Err (Wrap "node load balancer: read exact relation VM" [e])
       | Ok None => Err (Msg "node load balancer: exact relation VM returned an empty response")
       | Ok (Some exact) =>
           if EqualFold (TrimSpace (VM_Status exact)) "deleted"
           then if (VM_UUID exact != vmUUID) || foreign_vm exact then Err (Msg "node load balancer: deleted relation VM has conflicting exact identity") else Ok None
           else Ok (Some exact)
       end).
Definition nodeLoadBalancerFirewallRelationVMCloudAuthority (vmUUID : string) : prog nres (result vmAuthority) :=
  if negb (validNodeLoadBalancerCloudUUID vmUUID) then Ret (Err (Msg "node load balancer: invalid relation VM UUID"))
  else
  try_let! exact := exactRelationVM vmUUID in
  let! items := call (CloudListVMs location) in
  match items with
  | Err e => Ret (Err (Wrap "node load balancer: list relation VM inventory" [e]))
  | Ok items =>
    let! network := call (CloudGetNetwork location (rc_NetworkUUID cfg)) in
    Ret (match network with
    | Err e => Err (Wrap "node load balancer: read relation VM VPC membership" [e])
    | Ok network =>
      if negb (bool_decide (option_map Network_UUID network = Some (rc_NetworkUUID cfg))) then Err (Msg "node load balancer: relation VM VPC identity changed")
      else match canonicalConfiguredVPCVMUUIDs location network with
      | Err e => Err (Wrap "node load balancer: relation VM VPC membership is invalid" [e])
      | Ok members =>
        let listMatches := List.length (List.filter (fun vm => EqualFold (VM_UUID vm) vmUUID) items) in
        let listed := last_of (fun vm => EqualFold (VM_UUID vm) vmUUID && (VM_UUID vm == vmUUID)) items in
        match exact with
        | None =>
            if Nat.eqb listMatches 0 && bool_decide (members !! vmUUID = None) then Ok VMAbsent
            else Err (Msg "node load balancer: exact relation VM is absent but inventory/VPC still report it")
        | Some exact =>
            match listed with
            | Some listed =>
                if (VM_UUID exact != vmUUID) || negb (Nat.eqb listMatches 1) || negb (bool_decide (members !! vmUUID = Some vmUUID))
                then Err (Msg "node load balancer: relation VM lacks unique exact GET/list/VPC identity")
                else if foreign_vm exact || foreign_vm listed then Err (Msg "node load balancer: relation VM has foreign billing or VPC identity")
                else Ok VMOwned
            | None => Err (Msg "node load balancer: relation VM lacks unique exact GET/list/VPC identity")
            end
        end
      end
    end)
  end.
Definition authorizeFirewallRelationUnassignVM (fence : nodeLoadBalancerFirewallRelationFence) : prog nres goerr :=
  let! authority := nodeLoadBalancerFirewallRelationVMCloudAuthority (rf_vmUUID fence) in
  match authority with
  | Err e => Ret (Some e)
  | Ok VMOwned => Ret None
  | Ok VMAbsent =>
      if rf_targetAbsentAt fence == "" then Ret (Some (Msg "node load balancer: unassign target has neither canonical owned VM authority nor durable absence proof"))
      else match parse_time (rf_targetAbsentAt fence) with
      | None => Ret (Some (Msg "node load balancer: unassign target VM absence is not durably spaced"))
      | Some observedAt =>
          let! now := clock in
          Ret (if now <? observedAt + nodeLoadBalancerFirewallRelationAbsenceDelay then Some (Msg "node load balancer: unassign target VM absence is not durably spaced") else None)
      end
  end.

(** ** The owners *)

Definition getExactParentService (service : Service) : prog nres (result Service) :=
  if sv_UID service == "" then Ret (Err (Msg "node load balancer: parent Service UID is required"))
  else
  let! got := call (Kube (GetService (sv_Namespace service) (sv_Name service))) in
  Ret (match got with
       | Err e => Err e
       | Ok current => if sv_UID current != sv_UID service then Err (Msg "node load balancer: parent Service identity changed") else Ok current
       end).
Definition with_annotations (s : Service) (values : gmap string string) : Service :=
  Build_Service (sv_Namespace s) (sv_Name s) (sv_UID s) (sv_ResourceVersion s) (sv_DeletionTimestamp s) (sv_Finalizers s) (sv_Labels s) values (sv_OwnerReferences s) (sv_Spec s) (sv_Ingress s).
Definition commitService (service current : Service) (values : gmap string string) : prog nres goerr :=
  let! written := call (UpdateService (with_annotations current values)) in
  match written with
  | Err e => Ret (Some e)
  | Ok updated =>
      if sv_UID updated != sv_UID service then Ret (Some (Msg "node load balancer: Service identity changed during firewall relation fence update"))
      else if negb (mapsEqualStringString (sv_Annotations updated) values) then Ret (Some (Msg "node load balancer: Service admission changed the firewall relation fence update"))
      else
      let! got := call (Kube (GetService (sv_Namespace current) (sv_Name current))) in
      Ret (match got with
           | Err e => Some (Wrap "read back Service firewall relation fence" [e])
           | Ok verified =>
               if (sv_UID verified != sv_UID service) || (sv_ResourceVersion verified != sv_ResourceVersion updated) || negb (mapsEqualStringString (sv_Annotations verified) values)
               then Some (Msg "node load balancer: Service firewall relation fence failed exact UID/resourceVersion readback") else None
           end)
  end.
(** The authority of a Service owner, which also decides about local endpoints, is a parameter. *)
Definition serviceFirewallRelationOwner (authorize : Service -> nodeLoadBalancerFirewallRelationFence -> Firewall -> prog nres goerr) (service : Service) : relationOwner := {|
  ow_read _ :=
    let! got := getExactParentService service in
    Ret (result_map (fun current => Build_ownerSnapshot (sv_Annotations current) (sv_UID current) (fun _ values => commitService service current values)) got);
  ow_authorize := Some (authorize service);
  ow_parkRetired := true; ow_service := Some service; ow_members := None
|}.

Definition stateAnchor (pool : NodePool) (shard : string) : bool := managedPool cloud pool shard && containsString (pl_Finalizers pool) nodeLoadBalancerNodePoolFinalizer.
Definition pool_with (pool : NodePool) (values : gmap string string) : NodePool :=
  Build_NodePool (pl_Name pool) (pl_UID pool) (pl_ResourceVersion pool) (pl_DeletionTimestamp pool) (pl_Finalizers pool) (pl_Labels pool) values.
Definition commitPool (shard : string) (pool : NodePool) (detached : bool) (values : gmap string string) : prog nres goerr :=
  let! written := call (Kube (UpdatePool detached (pool_with pool values))) in
  match written with
  | Err e => Ret (Some e)
  | Ok updated =>
      if (pl_UID updated != pl_UID pool) || negb (mapsEqualStringString (pl_Annotations updated) values)
      then Ret (Some (Msg "node load balancer: NodePool admission changed the firewall relation fence update"))
      else
      let! got := call (Kube (GetPool detached shard)) in
      Ret (match got with
           | Err e => Some (Wrap "read back NodePool firewall relation fence" [e])
           | Ok verified =>
               if (pl_UID verified != pl_UID pool) || (pl_ResourceVersion verified != pl_ResourceVersion updated) || negb (stateAnchor verified shard)
                  || negb (mapsEqualStringString (pl_Annotations verified) values)
               then Some (Msg "node load balancer: NodePool firewall relation fence failed exact UID/resourceVersion readback") else None
           end)
  end.

(** One validation of the shard's firewall: the NodePool, the firewall and, for an attachment, the live policy. *)
Definition validateShardRelation (shard : string) (fence : nodeLoadBalancerFirewallRelationFence) (before : Firewall) : prog nres goerr :=
  let assign := rf_operation fence == nodeLoadBalancerFirewallRelationAssign in
  let! got := call (Kube (GetPool false shard)) in
  match got with
  | Err e => Ret (Some (Wrap "read shard owner" [e]))
  | Ok pool =>
    if negb (stateAnchor pool shard) then Ret (Some (Msg "shard NodePool lost exact ownership"))
    else if assign && negb (bool_decide (pl_DeletionTimestamp pool = None)) then Ret (Some (Msg "shard NodePool is deleting and no longer authorizes firewall assignment"))
    else
    let! read := lift (exactNodeLoadBalancerFirewallFresh cloud (rf_firewallUUID fence)) in
    match read with
    | Err e => Ret (Some e)
    | Ok firewall =>
      if negb (nodeLoadBalancerFirewallAuthorityUnchanged before firewall) then Ret (Some (Msg "shard firewall changed after relation issue"))
      else if rf_operation fence == nodeLoadBalancerFirewallRelationUnassign then
        Ret (match NodeLoadBalancerShardFirewallName sha256_hex (cc_ClusterID cloud) shard with
             | Err e => Some e
             | Ok name => if (EffectiveName firewall != name) || negb (fw_BillingAccountID firewall =? cc_BillingAccountID cloud) then Some (Msg "shard firewall lost exact owner or billing") else None
             end)
      else
      let! read := lift (nodeLoadBalancerShardFirewallAnnotations IsDNS1123Label pool) in
      match read with
      | Err e => Ret (Some e)
      | Ok annotations =>
        let expectedHash := annotation annotations FirewallHash in
        let expectedLedger := annotation annotations FirewallLedger in
        let! policy := (if assign then
            if (annotation annotations FirewallUUID != rf_firewallUUID fence) || negb (validNodeLoadBalancerShardFirewallPolicyHash expectedHash) || (expectedLedger == "")
            then Ret (Some (Msg "shard firewall assignment lost its exact UUID, policy hash, or membership ledger"))
            else
              let! derived := lift (desiredStagedShardFirewallPolicy sha256_hex IsDNS1123Label ParseQuantity cloud shard) in
              Ret (match derived with
                   | Err e => Some e
                   | Ok (Some (fresh, freshLedger)) =>
                       if (fp_Hash fresh != expectedHash) || (freshLedger != expectedLedger) then Some (Msg "shard firewall assignment no longer matches the live staged Service policy") else None
                   | Ok None => Some (Msg "shard firewall assignment no longer matches the live staged Service policy")
                   end)
          else Ret None) in
        Ret (match policy with
             | Some e => Some e
             | None =>
                 match ValidateNodeLoadBalancerShardFirewall sha256_hex firewall (cc_ClusterID cloud) shard (cc_BillingAccountID cloud) expectedHash with
                 | Some e => Some (Wrap "shard firewall lost exact owner, billing, or policy" [e])
                 | None => None
                 end
             end)
      end
    end
  end.
Definition authorizeShardFirewallRelationPreDispatch (shard : string) (fence : nodeLoadBalancerFirewallRelationFence) (before : Firewall) : prog nres goerr :=
  let! invalid := validateShardRelation shard fence before in
  match invalid with
  | Some e => Ret (Some e)
  | None =>
    if rf_operation fence == nodeLoadBalancerFirewallRelationUnassign then authorizeFirewallRelationUnassignVM fence
    else if rf_operation fence != nodeLoadBalancerFirewallRelationAssign then Ret (Some (Msg "unsupported firewall relation operation"))
    else
    let! nodes := call (AuthorizedNodes shard) in
    match nodes with
    | Err e => Ret (Some e)
    | Ok nodes =>
      match requireAuthorizedNodeLoadBalancerFirewallVM nodes (rf_vmUUID fence) with
      | Some e => Ret (Some e)
      | None => validateShardRelation shard fence before
      end
    end
  end.
Definition shardFirewallRelationOwnerForUID (shard expectedUID : string) : relationOwner := {|
  ow_read detached :=
    let! got := call (Kube (GetPool detached shard)) in
    Ret (match got with
         | Err e => Err e
         | Ok pool =>
             if (expectedUID != "") && (pl_UID pool != expectedUID) then Err (Msg "node load balancer: NodePool identity changed before firewall relation transition")
             else if negb (stateAnchor pool shard) then Err (Msg "node load balancer: NodePool lacks exact relation-fence ownership")
             else Ok (Build_ownerSnapshot (pl_Annotations pool) (pl_UID pool) (commitPool shard pool))
         end);
  ow_authorize := Some (authorizeShardFirewallRelationPreDispatch shard);
  ow_parkRetired := false; ow_service := None; ow_members := None
|}.
Definition shardFirewallRelationOwner (shard : string) : relationOwner := shardFirewallRelationOwnerForUID shard "".

(** ** Reconciliation *)

Inductive relationOutcome :=
  | outcomeConverged
  | outcomePending (pendingRetry : Z)
  | outcomePreDispatchProof (pendingRetry : Z)
  | outcomeCleared
  | outcomeIssued (issued : nodeLoadBalancerFirewallRelationFence).
(** With a delay of zero, which only tests configure, a pass is repeated at once. *)
Inductive rerun := NoRerun | ConfirmRemoval | RetryProof.
Record decision := { de_values : gmap string string; de_changed : bool; de_result : relationOutcome; de_rerun : rerun }.

(** A receipt is outstanding: retire it, or record what the cloud shows. *)
Definition resolveExisting (owner : relationOwner) (values : gmap string string) (existing : nodeLoadBalancerFirewallRelationFence) (items : list Firewall) : prog nres (result decision) :=
  let delay := nodeLoadBalancerFirewallRelationAbsenceDelay in
  match nodeLoadBalancerFirewallRelationConverged existing items with
  | Err e => Ret (Err e)
  | Ok converged =>
    let! retire := (if converged then Ret (Ok false) else let! now := clock in Ret (nodeLoadBalancerFirewallRelationRetireDue existing now)) in
    match retire with
    | Err e => Ret (Err e)
    | Ok true =>
        let values := clear_receipt values in
        let! values := (if ow_parkRetired owner then let! now := clock in Ret (recordNodeLoadBalancerFirewallRelationRetirement values existing now) else Ret values) in
        Ret (Ok (Build_decision values true outcomeCleared NoRerun))
    | Ok false =>
        let! now := clock in
        match advanceNodeLoadBalancerFirewallRelationObservation values existing converged now delay with
        | Err e => Ret (Err e)
        | Ok (values, true, changed) =>
            let! now := clock in
            Ret (Ok (Build_decision (clearNodeLoadBalancerFirewallRelationRetirement values (nodeLoadBalancerFirewallRelationKey existing) now).1 changed outcomeCleared NoRerun))
        | Ok (values, false, changed) =>
            let! now := clock in
            let confirm := (rf_operation existing == nodeLoadBalancerFirewallRelationUnassign) && converged && (rf_absenceObservedAt existing == "") && (delay =? 0) in
            Ret (Ok (Build_decision values changed (outcomePending (nodeLoadBalancerFirewallRelationPendingRetry existing converged now delay)) (if confirm then ConfirmRemoval else NoRerun)))
        end
    end
  end.

(** The relation is as desired already. *)
Definition settleDesired (values : gmap string string) (desired : nodeLoadBalancerFirewallRelationFence) : prog nres (result decision) :=
  let absent := annotation values RelationVMAbsent != "" in
  let values := if absent then delete RelationVMAbsent values else values in
  let! now := clock in
  let cleared := clearNodeLoadBalancerFirewallRelationRetirement values (nodeLoadBalancerFirewallRelationKey desired) now in
  let changed := absent || cleared.2 in
  Ret (Ok (Build_decision cleared.1 changed (if changed then outcomeCleared else outcomeConverged) NoRerun)).
(** A relation that keeps being retired waits; the annotations, and whether they changed. *)
Definition passPark (owner : relationOwner) (values : gmap string string) (desired : nodeLoadBalancerFirewallRelationFence) : prog nres (result (gmap string string * bool)) :=
  if ow_parkRetired owner && (annotation values RelationRetired != "") then
    let key := nodeLoadBalancerFirewallRelationKey desired in
    let! now := clock in
    Ret (match parseNodeLoadBalancerFirewallRelationRetirements (annotation values RelationRetired) !! key with
         | Some record =>
             if nodeLoadBalancerFirewallRelationParkRetirements <=? rr_Count record then
               if now <? rr_At record + nodeLoadBalancerFirewallRelationParkDuration then Err (wrapS ErrFirewallRelationParked "")
               else Ok ((clearNodeLoadBalancerFirewallRelationRetirement values key now).1, true)
             else Ok (values, false)
         | None => Ok (values, false)
         end)
  else Ret (Ok (values, false)).
(** The target of a detachment: owned, or absent for the second time after the delay. *)
Inductive targetProof :=
  | TargetReady (values : gmap string string) (changed : bool) (targetAbsentAt : string)
  | TargetWaits (values : gmap string string) (changed : bool) (pendingRetry : Z) (again : rerun).
Definition drop_absence (values : gmap string string) (changed : bool) : targetProof :=
  if annotation values RelationVMAbsent != "" then TargetReady (delete RelationVMAbsent values) true "" else TargetReady values changed "".
Definition proveTarget (values : gmap string string) (changed : bool) (desired : nodeLoadBalancerFirewallRelationFence) : prog nres (result targetProof) :=
  let delay := nodeLoadBalancerFirewallRelationAbsenceDelay in
  if rf_operation desired != nodeLoadBalancerFirewallRelationUnassign then Ret (Ok (drop_absence values changed))
  else
  try_let! authority := nodeLoadBalancerFirewallRelationVMCloudAuthority (rf_vmUUID desired) in
  match authority with
  | VMOwned => Ret (Ok (drop_absence values changed))
  | VMAbsent =>
      match parseNodeLoadBalancerFirewallRelationVMAbsence (annotation values RelationVMAbsent) (rf_firewallUUID desired) (rf_vmUUID desired) with
      | Err e => Ret (Err e)
      | Ok found =>
          let! now := clock in
          Ret (Ok (match found with
            | None =>
                TargetWaits (<[RelationVMAbsent := encodeNodeLoadBalancerFirewallRelationVMAbsence (rf_firewallUUID desired) (rf_vmUUID desired) now]> values) true
                  (Z.max delay 1000000000) (if delay =? 0 then RetryProof else NoRerun)
            | Some observedAt =>
                if now <? observedAt + delay then TargetWaits values changed (Z.max (observedAt + delay - now) 1000000000) NoRerun
                else TargetReady (delete RelationVMAbsent values) true (format_time observedAt)
            end))
      end
  end.
(** No receipt is outstanding and a relation is desired. *)
Definition issueDesired (owner : relationOwner) (uid : string) (values : gmap string string) (desired : nodeLoadBalancerFirewallRelationFence) (items : list Firewall) : prog nres (result decision) :=
  match nodeLoadBalancerFirewallRelationConverged desired items with
  | Err e => Ret (Err e)
  | Ok true => settleDesired values desired
  | Ok false =>
    let! full := (if rf_operation desired == nodeLoadBalancerFirewallRelationAssign
                  then firewallVMCapacityFromItems items (rf_firewallUUID desired) (rf_vmUUID desired) else Ret None) in
    match full with
    | Some e => let! _ := refuseFirewallAttach owner e in Ret (Err e)
    | None =>
      try_let! parked := passPark owner values desired in
      try_let! target := proveTarget parked.1 parked.2 desired in
      match target with
      | TargetWaits values changed retry again => Ret (Ok (Build_decision values changed (outcomePreDispatchProof retry) again))
      | TargetReady values _ targetAbsentAt =>
          try_let! issueID := call NewToken in
          let! now := clock in
          let issued := Build_nodeLoadBalancerFirewallRelationFence (rf_operation desired) (rf_firewallUUID desired) (rf_vmUUID desired) issueID (format_time now)
                          (if targetAbsentAt == "" then rf_targetAbsentAt desired else targetAbsentAt) (rf_absenceObservedAt desired) in
          Ret (Ok (Build_decision (<[RelationOwnerUID := uid]> (<[RelationIssued := fence_String issued]> values)) true (outcomeIssued issued) NoRerun))
      end
    end
  end.

(** The receipt of this attempt, and of no other, is removed. *)
Definition clearNodeLoadBalancerFirewallRelationFence (owner : relationOwner) (expectedOwnerUID : string) (issued : nodeLoadBalancerFirewallRelationFence) : prog nres goerr :=
  let! read := ow_read owner true in
  match read with
  | Err e => Ret (Some e)
  | Ok snapshot =>
      if (expectedOwnerUID == "") || (sn_uid snapshot != expectedOwnerUID) || (annotation (sn_annotations snapshot) RelationOwnerUID != expectedOwnerUID)
      then Ret (Some (Msg "firewall relation owner UID changed before authoritative-outcome clearance"))
      else match parseNodeLoadBalancerFirewallRelationFence (annotation (sn_annotations snapshot) RelationIssued) with
      | Ok stored =>
          if sameNodeLoadBalancerFirewallRelationIssue stored issued then sn_commit snapshot true (clear_receipt (sn_annotations snapshot))
          else Ret (Some (Msg "firewall relation fence changed before authoritative-outcome clearance"))
      | Err _ => Ret (Some (Msg "firewall relation fence changed before authoritative-outcome clearance"))
      end
  end.
Definition observeNodeLoadBalancerFirewallRelationIssue (owner : relationOwner) (expectedOwnerUID : string) (expected : nodeLoadBalancerFirewallRelationFence) (items : list Firewall) (now : Z)
    : prog nres (result bool) :=
  let! read := ow_read owner false in
  match read with
  | Err e => Ret (Err (Wrap "node load balancer: read firewall relation owner after mutation" [e]))
  | Ok snapshot =>
      if (expectedOwnerUID == "") || (sn_uid snapshot != expectedOwnerUID) || (annotation (sn_annotations snapshot) RelationOwnerUID != expectedOwnerUID)
      then Ret (Err (Msg "node load balancer: firewall relation owner UID changed before authoritative-outcome observation"))
      else match parseNodeLoadBalancerFirewallRelationFence (annotation (sn_annotations snapshot) RelationIssued) with
      | Err e => Ret (Err e)
      | Ok stored =>
          if negb (sameNodeLoadBalancerFirewallRelationIssue stored expected) then Ret (Err (Msg "node load balancer: firewall relation issue changed before authoritative-outcome observation"))
          else match (try! converged := nodeLoadBalancerFirewallRelationConverged stored items in
                      advanceNodeLoadBalancerFirewallRelationObservation (sn_annotations snapshot) stored converged now nodeLoadBalancerFirewallRelationAbsenceDelay) with
          | Err e => Ret (Err e)
          | Ok (values, cleared, false) => Ret (Ok cleared)
          | Ok (values, cleared, true) =>
              let! committed := sn_commit snapshot false values in
              Ret (match committed with Some e => Err (Wrap "node load balancer: persist firewall relation observation" [e]) | None => Ok cleared end)
          end
      end
  end.

(** The receipt was proven undispatched. *)
Definition rejectRelation (owner : relationOwner) (uid : string) (issued : nodeLoadBalancerFirewallRelationFence) (authorityErr : error) : prog nres (bool * goerr) :=
  let rejection := Wrap "node load balancer: reject firewall relation mutation at final pre-dispatch authority" [authorityErr] in
  let! clearErr := clearNodeLoadBalancerFirewallRelationFence owner uid issued in
  Ret (false, match clearErr with
              | Some e => Join [Some rejection; Some (Wrap "node load balancer: clear proven-undispatched firewall relation fence" [e])]
              | None => if Is authorityErr ErrFirewallVMNotHealthy then Some (Wrap "" [Sentinel FirewallVMHealthDeferred; rejection]) else Some rejection
              end).
Definition rememberRelation (issued : nodeLoadBalancerFirewallRelationFence) : prog nres unit :=
  if rf_operation issued == nodeLoadBalancerFirewallRelationAssign
  then let! now := (clock : prog nres Z) in (call (Remember (rf_vmUUID issued) (rf_firewallUUID issued) now) : prog nres unit)
  else (call (Forget (rf_vmUUID issued) (rf_firewallUUID issued)) : prog nres unit).
(** After the call: its error, if any, and what the cloud shows. *)
Definition settleRelation (readback : prog nres (bool * goerr)) (owner : relationOwner) (uid : string) (issued : nodeLoadBalancerFirewallRelationFence) (mutationErr : goerr) : prog nres (bool * goerr) :=
  match mutationErr with
  | None =>
      let! _ := rememberRelation issued in
      let! seen := readback in
      Ret (false, seen.2)
  | Some mutationErr =>
      if nodeLoadBalancerMutationKnownPreDispatch mutationErr then
        let! clearErr := clearNodeLoadBalancerFirewallRelationFence owner uid issued in
        Ret (false, Join [Some (Wrap "node load balancer: firewall relation mutation was blocked before dispatch" [mutationErr]); clearErr])
      else
      let! items := listFirewalls in
      match items with
      | Err e => Ret (false, Join [Some (Wrap "node load balancer: firewall relation mutation returned an error" [mutationErr]); Some (Wrap "node load balancer: authoritative firewall relation readback" [e])])
      | Ok items =>
          let! now := clock in
          let! observed := observeNodeLoadBalancerFirewallRelationIssue owner uid issued items now in
          Ret (false, match observed with
                      | Err e => Join [Some mutationErr; Some e]
                      | Ok true => None
                      | Ok false => Some (Wrap "node load balancer: firewall relation mutation is ambiguous" [mutationErr])
                      end)
      end
  end.
(** The receipt is written: the authority, the receipt once more, the limit, and the one call. *)
Definition dispatchRelation (readback : prog nres (bool * goerr)) (owner : relationOwner) (uid : string) (items : list Firewall) (issued : nodeLoadBalancerFirewallRelationFence) : prog nres (bool * goerr) :=
  let reject := rejectRelation owner uid issued in
  match ow_authorize owner with
  | None => Ret (false, Some (Msg "node load balancer: firewall relation has no pre-dispatch authority"))
  | Some authorize =>
    match exactNodeLoadBalancerFirewallFromItems items (rf_firewallUUID issued) with
    | Err e => reject (Wrap "capture firewall relation issue authority" [e])
    | Ok before =>
      let! refused := authorize issued before in
      match refused with
      | Some e => reject e
      | None =>
        let! read := ow_read owner false in
        match read with
        | Err e => reject (Wrap "re-read exact issued receipt" [e])
        | Ok final =>
          if (sn_uid final != uid) || (annotation (sn_annotations final) RelationOwnerUID != uid) then reject (Msg "firewall relation owner UID changed during final authority")
          else match parseNodeLoadBalancerFirewallRelationFence (annotation (sn_annotations final) RelationIssued) with
          | Err e => reject (Wrap "" [Msg "exact issued receipt changed during final authority"; e])
          | Ok stored =>
            if negb (sameNodeLoadBalancerFirewallRelationIssue stored issued) then reject (Wrap "" [Msg "exact issued receipt changed during final authority"])
            else
            let assign := rf_operation issued == nodeLoadBalancerFirewallRelationAssign in
            let! full := (if assign then requireFirewallVMCapacity (rf_firewallUUID issued) (rf_vmUUID issued) else Ret None) in
            match full with
            | Some e => let! _ := refuseFirewallAttach owner e in reject e
            | None =>
              if assign then let! e := call (CloudAssignFirewall location (rf_firewallUUID issued) (rf_vmUUID issued)) in settleRelation readback owner uid issued e
              else let! e := call (CloudUnassignFirewall location (rf_firewallUUID issued) (rf_vmUUID issued)) in settleRelation readback owner uid issued e
            end
          end
        end
      end
    end
  end.
(** Nothing to do: the receipt is read once more. *)
Definition confirmConverged (owner : relationOwner) (snapshot : ownerSnapshot) : prog nres (bool * goerr) :=
  let! read := ow_read owner false in
  Ret (match read with
       | Err e => (false, Some (Wrap "node load balancer: re-read converged firewall relation owner" [e]))
       | Ok final =>
           if sn_uid final != sn_uid snapshot then (false, Some (Msg "node load balancer: firewall relation owner UID changed during converged readback"))
           else if forallb (fun key => annotation (sn_annotations final) key == annotation (sn_annotations snapshot) key) [RelationIssued; RelationOwnerUID; RelationVMAbsent]
           then (true, None)
           else (false, Some (Msg "node load balancer: firewall relation receipt changed during converged readback"))
       end).
(** What the snapshot and the listed firewalls call for. *)
Definition decideRelation (owner : relationOwner) (snapshot : ownerSnapshot) (desired : option nodeLoadBalancerFirewallRelationFence) (items : list Firewall) : prog nres (result decision) :=
  let values := sn_annotations snapshot in
  let existingValue := annotation values RelationIssued in
  let existingOwnerUID := annotation values RelationOwnerUID in
  if existingValue != "" then
    if existingOwnerUID != sn_uid snapshot then Ret (Err (Msg "node load balancer: firewall relation receipt owner UID does not match live UID"))
    else match parseNodeLoadBalancerFirewallRelationFence existingValue with
    | Err e => Ret (Err e)
    | Ok existing => resolveExisting owner values existing items
    end
  else if existingOwnerUID != "" then Ret (Err (Msg "node load balancer: orphan firewall relation owner UID receipt"))
  else match desired with
  | Some desired => issueDesired owner (sn_uid snapshot) values desired items
  | None => Ret (Ok (Build_decision values false outcomeConverged NoRerun))
  end.
Fixpoint reconcileNodeLoadBalancerFirewallRelation (passes : nat) (owner : relationOwner) (desired : option nodeLoadBalancerFirewallRelationFence) {struct passes} : prog nres (bool * goerr) :=
  match passes with
  | O => OutOfFuel
  | S passes =>
    let! read := ow_read owner false in
    match read with
    | Err e => Ret (false, Some (Wrap "node load balancer: read firewall relation owner" [e]))
    | Ok snapshot =>
      let legacyIssued := annotation (sn_annotations snapshot) RelationIssued in
      if sn_uid snapshot == "" then Ret (false, Some (Msg "node load balancer: firewall relation owner has an empty UID"))
      else if (legacyIssued != "") && (annotation (sn_annotations snapshot) RelationOwnerUID == "") then
        match parseNodeLoadBalancerFirewallRelationFence legacyIssued with
        | Err e => Ret (false, Some e)
        | Ok _ =>
            let! committed := sn_commit snapshot false (<[RelationOwnerUID := sn_uid snapshot]> (sn_annotations snapshot)) in
            Ret (false, option_map (fun e => Wrap "node load balancer: bind legacy firewall relation receipt to owner UID" [e]) committed)
        end
      else
      let! items := listFirewalls in
      match items with
      | Err e => Ret (false, Some (Wrap "node load balancer: list firewalls for relation fence" [e]))
      | Ok items =>
        let! decided := decideRelation owner snapshot desired items in
        match decided with
        | Err e => Ret (false, Some e)
        | Ok d =>
          let! committed := (if de_changed d then sn_commit snapshot false (de_values d) else Ret None) in
          match committed with
          | Some e => Ret (false, Some (Wrap "node load balancer: persist firewall relation fence" [e]))
          | None =>
            match de_rerun d with
            | ConfirmRemoval => reconcileNodeLoadBalancerFirewallRelation passes owner None
            | RetryProof => reconcileNodeLoadBalancerFirewallRelation passes owner desired
            | NoRerun =>
              match de_result d with
              | outcomeConverged => confirmConverged owner snapshot
              | outcomePending retry | outcomePreDispatchProof retry => Ret (false, Some (Sentinel (RelationPending retry)))
              | outcomeCleared => Ret (false, None)
              | outcomeIssued issued => dispatchRelation (reconcileNodeLoadBalancerFirewallRelation passes owner None) owner (sn_uid snapshot) items issued
              end
            end
          end
        end
      end
    end
  end.
End Relation.
