(* ===== verification/RelationFenceSpec.v ===== *)
(** * What a relation fence guarantees

    The text of a receipt reads back. A firewall is attached or detached only under a receipt of that attempt, with the
    owner's authority and within the limit; a receipt is removed only by what the cloud showed, by age, or because
    nothing was sent; and a reconciliation returns. *)

From S2P Require Import Prelude GoErrors ClientTypes GoURL CSIFence Prog GoJSON GoNet GoHTTP ClientErrors ClientResources ClientRoutes KubernetesFence NodeFirewall KubeService ShardPlanner ShardFirewall ShardState ShardSafety ShardFirewallSpec CSIWorld ShardWorld RelationFence.

(** ** Text *)

Definition plain_char (c : ascii) : bool := negb (is_space c) && negb (c == "|"%char).
Lemma trim_left_plain l : Forall (fun c => is_space c = false) l -> trim_left l = l.
Proof. intros H. destruct H as [|c l Hc H]; [done|]. cbn. by rewrite Hc. Qed.
Lemma chars_list p s : all_chars p s = true <-> Forall (fun c => p c = true) (list_ascii_of_string s).
Proof.
  induction s as [|c s IH]; cbn; [by split; [constructor|]|]. rewrite andb_true_iff, IH. split; [intros [? ?]; by constructor|]. intros H. inversion H. by split.
Qed.
Lemma trim_plain s : all_chars (fun c => negb (is_space c)) s = true -> TrimSpace s = s.
Proof.
  intros H. apply chars_list in H. unfold TrimSpace. assert (Hs : Forall (fun c => is_space c = false) (list_ascii_of_string s)).
  { eapply Forall_impl; [exact H|]. intros c. apply negb_true_iff. }
  rewrite (trim_left_plain _ Hs), trim_left_plain, rev_involutive by (by apply Forall_rev). apply string_of_list_ascii_of_string.
Qed.
Lemma join_chars p sep l : p sep = true -> Forall (fun s => all_chars p s = true) l -> all_chars p (join_char sep l) = true.
Proof. intros Hp H. induction H as [|s l Hs H IH]; [done|]. destruct l as [|t l]; [done|]. cbn [join_char]. rewrite all_chars_app, Hs. cbn [all_chars]. by rewrite Hp. Qed.
Lemma plain_text s : all_chars plain_char s = true -> ContainsChar "|" s = false /\ all_chars (fun c => negb (is_space c)) s = true.
Proof.
  intros H. split; [by apply (all_chars_ContainsChar plain_char)|]. apply (all_chars_impl plain_char); [|done]. intros c Hc. unfold plain_char in Hc. by apply andb_true_iff in Hc as [-> _].
Qed.
(** Plain parts survive being joined, trimmed and split. *)
Lemma parts_read l : l <> [] -> Forall (fun s => all_chars plain_char s = true) l -> SplitChar "|" (TrimSpace (join_char "|" l)) = l.
Proof.
  intros Hl H. rewrite trim_plain; [apply split_join; [done|]|apply join_chars; [done|]]; (eapply Forall_impl; [exact H|]); intros s Hs; by apply plain_text in Hs as [? ?].
Qed.
Lemma hex_plain s : all_chars is_hex s = true -> all_chars plain_char s = true.
Proof. apply all_chars_impl. intros c. destruct c as [[] [] [] [] [] [] [] []]; vm_compute; congruence. Qed.
Lemma uuid_plain s : validNodeLoadBalancerCloudUUID s = true -> all_chars plain_char s = true.
Proof.
  unfold validNodeLoadBalancerCloudUUID. intros H. rewrite <-(join_split "-" s). destruct (SplitChar "-" s) as [|a [|b [|c [|d [|e [|]]]]]]; try done.
  cbn [forallb fst snd] in H. apply join_chars; [done|]. repeat (apply andb_true_iff in H as [?%andb_true_iff H]). repeat (apply Forall_cons_2; [apply hex_plain; tauto|]). apply Forall_nil_2.
Qed.

Section Text.
Context `{TT : TimeText} {UT : UTCText}.

(** A receipt as the controller writes it: an attempt, when the VM was seen absent before it, and when the relation was
    seen absent after it. *)
Definition receipt (operation firewall vm token : string) (issued : Z) (target observed : option Z) : nodeLoadBalancerFirewallRelationFence :=
  Build_nodeLoadBalancerFirewallRelationFence operation firewall vm token (format_time issued) (from_option format_time "" target) (from_option format_time "" observed).
Record receipt_ok (operation firewall vm token : string) (issued : Z) (target observed : option Z) : Prop := {
  ro_operation : operation = nodeLoadBalancerFirewallRelationUnassign \/ operation = nodeLoadBalancerFirewallRelationAssign /\ target = None /\ observed = None;
  ro_firewall : validNodeLoadBalancerCloudUUID firewall = true /\ ToLower firewall = firewall;
  ro_vm : validNodeLoadBalancerCloudUUID vm = true /\ ToLower vm = vm;
  ro_token : String.length token = 32%nat /\ all_chars is_hex token = true;
  ro_issued : time_in_range issued;
  ro_target : forall t, target = Some t -> time_in_range t /\ t <= issued;
  ro_observed : forall t, observed = Some t -> time_in_range t
}.
Lemma format_plain t : all_chars plain_char (format_time t) = true.
Proof. apply format_clean. Qed.
Lemma stamp_plain (t : option Z) : all_chars plain_char (from_option format_time "" t) = true.
Proof. destruct t; [apply format_plain|done]. Qed.
Lemma format_ne t : (format_time t == "") = false.
Proof. apply bool_decide_eq_false_2, format_time_nonempty. Qed.
Lemma parse_utc_format t : time_in_range t -> parse_utc (format_time t) = Some t.
Proof. intros H. unfold parse_utc. rewrite parse_format_time by done. by rewrite format_utc. Qed.
Lemma parseIssue_ok operation firewall vm token issued target observed : receipt_ok operation firewall vm token issued target observed ->
  parseIssue operation firewall vm token (format_time issued) = Ok (receipt operation firewall vm token issued None None).
Proof.
  intros [Ho [Hf Hf'] [Hv Hv'] [Ht Ht'] Hi _ _]. unfold parseIssue. rewrite Hf, Hv. cbn [negb orb]. rewrite !orb_false_r.
  assert ((operation != nodeLoadBalancerFirewallRelationAssign) && (operation != nodeLoadBalancerFirewallRelationUnassign) = false) as ->
    by (destruct Ho as [-> | [-> _]]; reflexivity).
  unfold validateNodeLoadBalancerFirewallCreateIssued. rewrite Ht, Ht', parse_format_time by done. cbn [Nat.eqb andb negb]. unfold receipt. cbn [from_option]. by rewrite Hf', Hv'.
Qed.
Lemma receipt_reads operation firewall vm token issued target observed : receipt_ok operation firewall vm token issued target observed ->
  parseNodeLoadBalancerFirewallRelationFence (fence_String (receipt operation firewall vm token issued target observed)) = Ok (receipt operation firewall vm token issued target observed).
Proof.
  intros H. pose proof (parseIssue_ok _ _ _ _ _ _ _ H) as Hp. destruct H as [Ho [Hf _] [Hv _] [_ Ht] Hi Hta Hob].
  assert (Hop : all_chars plain_char operation = true) by (destruct Ho as [-> | [-> _]]; reflexivity).
  unfold fence_String, receipt. cbn [rf_operation rf_firewallUUID rf_vmUUID rf_issueID rf_issuedAt rf_targetAbsentAt rf_absenceObservedAt]. rewrite format_ne, andb_false_r.
  unfold parseNodeLoadBalancerFirewallRelationFence.
  assert (Hfirst : Forall (fun s => all_chars plain_char s = true) [operation; firewall; vm; token; format_time issued])
    by (repeat (apply Forall_cons_2; [auto using hex_plain, uuid_plain, format_plain|]); apply Forall_nil_2).
  destruct target as [t|]; cbn [from_option]; [rewrite format_ne; cbn [negb]|change (bool_decide (""%string = "")) with true; cbn [negb]; destruct observed as [o|]; cbn [from_option]; [rewrite format_ne|change (bool_decide (""%string = "")) with true]; cbn [negb]].
  - rewrite parts_read; [|done|cbn; apply Forall_cons_2; [done|]; repeat (apply Forall_cons in Hfirst as [? Hfirst]; apply Forall_cons_2; [done|]); apply Forall_cons_2; [apply format_plain|]; apply Forall_cons_2; [apply stamp_plain|constructor]].
    cbn [app]. destruct (Hta t eq_refl) as [Htr Hle]. rewrite bool_decide_eq_true_2 by done. cbn [negb]. rewrite Hp. destruct Ho as [-> | [_ [? _]]]; [|done].
    rewrite format_ne, parse_utc_format, parse_format_time by done. replace (issued <? t) with false by (symmetry; apply Z.ltb_ge; lia). cbn [bool_decide negb orb].
    destruct observed as [o|]; cbn [from_option]; [rewrite format_ne, parse_utc_format by auto|]; reflexivity.
  - rewrite parts_read; [|done|cbn; apply Forall_cons_2; [done|]; repeat (apply Forall_cons in Hfirst as [? Hfirst]; apply Forall_cons_2; [done|]); apply Forall_cons_2; [apply format_plain|constructor]].
    cbn [app]. rewrite bool_decide_eq_true_2 by done. cbn [negb]. rewrite Hp. destruct Ho as [-> | [_ [_ ?]]]; [|done]. rewrite parse_utc_format by auto. reflexivity.
  - rewrite parts_read; [|done|cbn; apply Forall_cons_2; [done|]; done]. cbn [app]. rewrite bool_decide_eq_true_2 by done. exact Hp.
Qed.
End Text.

(** What the reader guarantees of any receipt it accepts. *)
Record receipt_checked `{TT : TimeText} {UT : UTCText} (f : nodeLoadBalancerFirewallRelationFence) : Prop := {
  rk_operation : rf_operation f = nodeLoadBalancerFirewallRelationAssign /\ rf_targetAbsentAt f = "" /\ rf_absenceObservedAt f = ""
                 \/ rf_operation f = nodeLoadBalancerFirewallRelationUnassign;
  rk_lower : ToLower (rf_firewallUUID f) = rf_firewallUUID f /\ ToLower (rf_vmUUID f) = rf_vmUUID f;
  rk_token : String.length (rf_issueID f) = 32%nat /\ all_chars is_hex (rf_issueID f) = true;
  rk_times : exists issued, parse_time (rf_issuedAt f) = Some issued /\ (rf_targetAbsentAt f <> "" -> exists t, parse_utc (rf_targetAbsentAt f) = Some t /\ t <= issued);
  rk_observed : rf_absenceObservedAt f <> "" -> exists t, parse_utc (rf_absenceObservedAt f) = Some t
}.
Section Reader.
Context `{TT : TimeText} {UT : UTCText}.
Lemma parseIssue_checked operation firewall vm token at_ f : parseIssue operation firewall vm token at_ = Ok f ->
  f = Build_nodeLoadBalancerFirewallRelationFence operation (ToLower firewall) (ToLower vm) token at_ "" ""
  /\ (operation = nodeLoadBalancerFirewallRelationAssign \/ operation = nodeLoadBalancerFirewallRelationUnassign)
  /\ (String.length token = 32%nat /\ all_chars is_hex token = true) /\ exists issued, parse_time at_ = Some issued.
Proof.
  unfold parseIssue, validateNodeLoadBalancerFirewallCreateIssued. destruct (_ || negb (validNodeLoadBalancerCloudUUID vm)) eqn:Ho; [by intros [=]|]. destruct (negb (_ && all_chars is_hex token)) eqn:Ht; [by intros [=]|].
  destruct (parse_time at_) as [t|] eqn:Hp; [|by intros [=]]. intros [= <-]. apply negb_false_iff, andb_true_iff in Ht as [?%Nat.eqb_eq ?]. rewrite !orb_false_iff, andb_false_iff, !negb_false_iff in Ho.
  destruct Ho as [[Ho _] _]. split_and!; [done| |done|done|by eauto]. destruct Ho as [Ho|Ho]; apply (bool_decide_eq_true_1 _) in Ho; auto.
Qed.
Lemma fence_checked value f : parseNodeLoadBalancerFirewallRelationFence value = Ok f -> receipt_checked f.
Proof.
  unfold parseNodeLoadBalancerFirewallRelationFence. destruct (SplitChar _ _) as [|v [|op [|fw [|vm [|id [|at_ [|x [|y [|]]]]]]]]]; try done; (destruct (bool_decide (v = _)); cbn [negb]; [|by intros [=]]).
  - intros (-> & Ho & Ht & i & Hi)%parseIssue_checked. split; cbn; rewrite ?ToLower_idem; try done; [destruct Ho; auto|by exists i].
  - destruct (parseIssue _ _ _ _ _) as [g|] eqn:E; [|done]. apply parseIssue_checked in E as (-> & Ho & Ht & i & Hi). destruct (bool_decide_reflect (op = nodeLoadBalancerFirewallRelationUnassign)) as [->|]; [cbn [negb]|done].
    destruct (parse_utc x) as [o|] eqn:Hx; [|done]. intros [= <-]. split; cbn; rewrite ?ToLower_idem; try done; [by auto|by exists i|by exists o].
  - destruct (parseIssue _ _ _ _ _) as [g|] eqn:E; [|done]. apply parseIssue_checked in E as (-> & Ho & Ht & i & Hi).
    destruct (bool_decide_reflect (op = nodeLoadBalancerFirewallRelationUnassign)) as [->|]; [cbn [negb orb]|done]. destruct (bool_decide (x = _)); [done|].
    destruct (parse_utc x) as [t|] eqn:Hx; [|done]. rewrite Hi. destruct (i <? t) eqn:Hle; [done|]. apply Z.ltb_ge in Hle.
    destruct (bool_decide_reflect (y = "")) as [->|]; [|destruct (parse_utc y) as [o|] eqn:Hy; [|done]]; intros [= <-]; split; cbn; rewrite ?ToLower_idem; try done; try (by exists o); try (by auto); exists i; (split; [done|]); intros _; by exists t.
Qed.
Lemma absence_reads firewall vm t : validNodeLoadBalancerCloudUUID firewall = true -> validNodeLoadBalancerCloudUUID vm = true -> time_in_range t ->
  parseNodeLoadBalancerFirewallRelationVMAbsence (encodeNodeLoadBalancerFirewallRelationVMAbsence firewall vm t) firewall vm = Ok (Some t).
Proof.
  intros Hf Hv Ht. unfold parseNodeLoadBalancerFirewallRelationVMAbsence, encodeNodeLoadBalancerFirewallRelationVMAbsence.
  rewrite bool_decide_eq_false_2; [|by destruct firewall]. rewrite split_join; [|done|repeat (apply Forall_cons_2; [apply plain_text; auto using uuid_plain, format_plain|]); apply Forall_nil_2].
  rewrite !bool_decide_eq_true_2 by done. cbn [negb orb]. by rewrite parse_utc_format.
Qed.

(** The receipt of an attempt, with what was seen before and after it, is read back from its text as it was
    written, and so is the record of an absent VM; and every receipt that the reader accepts has one of the two
    operations, a token of sixteen bytes, and absence evidence only for a removal, seen before the issue where it
    concerns the VM. *)
Theorem relation_receipt_roundtrip operation firewall vm token issued target observed :
  receipt_ok operation firewall vm token issued target observed ->
  parseNodeLoadBalancerFirewallRelationFence (fence_String (receipt operation firewall vm token issued target observed)) = Ok (receipt operation firewall vm token issued target observed)
  /\ parseNodeLoadBalancerFirewallRelationVMAbsence (encodeNodeLoadBalancerFirewallRelationVMAbsence firewall vm issued) firewall vm = Ok (Some issued)
  /\ forall value f, parseNodeLoadBalancerFirewallRelationFence value = Ok f -> receipt_checked f.
Proof. intros H. split_and!; [by apply receipt_reads|destruct H as [_ [? _] [? _] _ ? _ _]; by apply absence_reads|apply fence_checked]. Qed.
End Reader.

(** ** Owners and results *)

(** A result that a program may return. *)
Fixpoint may_return {act} {res : act -> Type} {A} (p : prog res A) (a : A) : Prop :=
  match p with Ret b => a = b | Act x k => exists r, may_return (k r) a | _ => False end.
Section Returned.
Context {act : Type} {res : act -> Type}.
Implicit Types P : act -> Prop.
Lemma exec_may {A} (p : prog res A) : forall h a h', exec p h (Some a) h' -> may_return p a.
Proof. induction p as [b|x k IH| |]; intros h a h'; cbn; [by intros [_ [[= ->]|?]]| |by intros [? _]|by intros [? _]]. intros [[? _]|[r Hr]]; [done|]. eauto. Qed.
Lemma may_bind {A B} (p : prog res A) (f : A -> prog res B) b : may_return (bind p f) b -> exists a, may_return p a /\ may_return (f a) b.
Proof. induction p as [a|x k IH| |]; cbn; [by eauto| |done|done]. intros [r (a & Ha & Hb)%IH]. eauto. Qed.
Lemma only_may P {A B} (p : prog res A) (f : A -> prog res B) : only P p -> (forall a, may_return p a -> only P (f a)) -> only P (bind p f).
Proof. induction p as [a|x k IH| |]; cbn; [by auto| |done|done]. intros [? Hk] Hf. split; [done|]. intros r. apply IH; [apply Hk|]. eauto. Qed.
Lemma returns_may {A B} (p : prog res A) (f : A -> prog res B) : returns p -> (forall a, may_return p a -> returns (f a)) -> returns (bind p f).
Proof. induction p as [a|x k IH| |]; cbn; [by auto| |done|done]. intros Hk Hf r. apply IH; [apply Hk|]. eauto. Qed.
Lemma ensures_exec {A} (p : prog res A) : ensures p (fun a h => exec p [] (Some a) h).
Proof.
  unfold ensures. enough (forall h0, wp any_action p h0 (fun a h => exec p h0 (Some a) h)) as H by apply H. induction p as [a|x k IH| |]; intros h0; cbn; auto.
  split; [done|]. intros r. eapply wp_mono; [apply IH|]. cbn. eauto.
Qed.
(** A program that performs only [P] leaves a segment of its own. *)
Lemma wp_segment G P {A} (p : prog res A) h (R : A -> list (event res) -> Prop) :
  only P p -> (forall x h, P x -> G x h) -> (forall a new, performed P new -> exec p [] (Some a) new -> R a (new ++ h)) -> wp G p h R.
Proof. intros Hp HG HR. eapply (wp_use G P); [done|done|apply ensures_exec|]. auto. Qed.
Lemma may_exec {A} (p : prog res A) a : may_return p a -> forall h, exists h', exec p h (Some a) h'.
Proof. induction p as [b|x k IH| |]; cbn; [by intros ->; eauto| |done|done]. intros [r Hr] h. destruct (IH r Hr (Ev x r :: h)) as [h' H]. eauto. Qed.
Lemma ensures_may {A} (p : prog res A) (Q : A -> Prop) a : ensures p (fun a _ => Q a) -> may_return p a -> Q a.
Proof. intros HQ Hm. destruct (may_exec _ _ Hm []) as [h H]. by eapply (wp_exec _ _ _ _ _ _ HQ). Qed.
End Returned.

(** ** Actions that leave the relations of the cloud alone *)

Definition relation_mutation (x : nact) : Prop := match x with CloudAssignFirewall _ _ _ | CloudUnassignFirewall _ _ _ => True | _ => False end.
Definition steady (x : nact) : Prop := ~ relation_mutation x.
(** An owner whose receipt and authority touch no relation, and whose calls end. *)
Class QuietOwner (owner : relationOwner) := {
  quiet_read : forall detached, only steady (ow_read owner detached) /\ returns (ow_read owner detached);
  quiet_commit : forall detached snapshot detached' values, may_return (ow_read owner detached) (Ok snapshot) ->
    only steady (sn_commit snapshot detached' values) /\ returns (sn_commit snapshot detached' values);
  quiet_authority : forall authorize fence before, ow_authorize owner = Some authorize -> only steady (authorize fence before) /\ returns (authorize fence before);
  quiet_members : forall members, ow_members owner = Some members -> only steady members /\ returns members
}.
Create HintDb relation_quiet.
Ltac quiet_step :=
  match goal with
  | |- only _ (Ret _) => exact I
  | |- only _ (call _) => split; [intros []|intros; exact I]
  | |- only _ (bind _ _) => apply only_may; [|intros ? ?]
  | |- only _ (match ?x with _ => _ end) => destruct x eqn:?
  | |- only _ (let _ := _ in _) => cbv zeta
  | |- returns (Ret _) => exact I
  | |- returns (call _) => intros ?; exact I
  | |- returns (bind _ _) => apply returns_may; [|intros ? ?]
  | |- returns (match ?x with _ => _ end) => destruct x eqn:?
  end.
Ltac quiet_tac := repeat first [solve [eauto 3 with relation_quiet nocore] | quiet_step].

Section Safety.
Context `{TT : TimeText} {UT : UTCText} `{JT : JSONText} (cfg : RelationConfig) (owner : relationOwner) {QO : QuietOwner owner}.
Notation reconcile := (reconcileNodeLoadBalancerFirewallRelation cfg).
Lemma read_steady detached : only steady (ow_read owner detached). Proof. apply quiet_read. Qed.
Lemma commit_steady detached snapshot detached' values : may_return (ow_read owner detached) (Ok snapshot) -> only steady (sn_commit snapshot detached' values).
Proof. intros H. by eapply quiet_commit. Qed.
#[local] Hint Resolve read_steady commit_steady : relation_quiet.
Lemma limit_steady service : only steady (recordFirewallLimitExceeded service).
Proof. unfold recordFirewallLimitExceeded. quiet_tac. Qed.
#[local] Hint Resolve limit_steady : relation_quiet.
Lemma members_steady service members : only steady (recordMembers service members).
Proof. induction members as [|[m|] members IH]; cbn [recordMembers]; quiet_tac. Qed.
#[local] Hint Resolve members_steady : relation_quiet.
Lemma refuse_steady cause : only steady (refuseFirewallAttach owner cause).
Proof. unfold refuseFirewallAttach. quiet_tac. by apply quiet_members. Qed.
Lemma capacity_steady items firewall vm : only steady (firewallVMCapacityFromItems cfg items firewall vm).
Proof. unfold firewallVMCapacityFromItems. quiet_tac. Qed.
#[local] Hint Resolve refuse_steady capacity_steady : relation_quiet.
Lemma require_steady firewall vm : only steady (requireFirewallVMCapacity cfg firewall vm).
Proof. unfold requireFirewallVMCapacity. quiet_tac. Qed.
Lemma vm_steady vm : only steady (nodeLoadBalancerFirewallRelationVMCloudAuthority cfg vm).
Proof. unfold nodeLoadBalancerFirewallRelationVMCloudAuthority, exactRelationVM. quiet_tac. Qed.
#[local] Hint Resolve require_steady vm_steady : relation_quiet.
Lemma decide_steady snapshot desired items : only steady (decideRelation cfg owner snapshot desired items).
Proof. unfold decideRelation, resolveExisting, issueDesired, settleDesired, passPark, proveTarget. quiet_tac. Qed.
Lemma clear_steady uid issued : only steady (clearNodeLoadBalancerFirewallRelationFence owner uid issued).
Proof. unfold clearNodeLoadBalancerFirewallRelationFence. quiet_tac; subst; quiet_tac. Qed.
Lemma observe_steady uid issued items now : only steady (observeNodeLoadBalancerFirewallRelationIssue cfg owner uid issued items now).
Proof. unfold observeNodeLoadBalancerFirewallRelationIssue. quiet_tac; subst; quiet_tac. Qed.
Lemma confirm_steady snapshot : only steady (confirmConverged owner snapshot).
Proof. unfold confirmConverged. quiet_tac. Qed.
#[local] Hint Resolve decide_steady clear_steady observe_steady confirm_steady : relation_quiet.
Lemma reject_steady uid issued e : only steady (rejectRelation owner uid issued e).
Proof. unfold rejectRelation. quiet_tac. Qed.
Lemma settle_steady readback uid issued e : only steady readback -> only steady (settleRelation cfg readback owner uid issued e).
Proof. intros Hr. unfold settleRelation, rememberRelation. quiet_tac. Qed.
#[local] Hint Resolve reject_steady settle_steady : relation_quiet.

(** ** The decision *)

(** The record of the absent VM that a receipt carries is the one the owner's annotations hold. *)
Definition absence_from (values : gmap string string) (want : nodeLoadBalancerFirewallRelationFence) (at_ : string) : Prop :=
  at_ = "" \/ exists observed, at_ = format_time observed
    /\ parseNodeLoadBalancerFirewallRelationVMAbsence (annotation values RelationVMAbsent) (rf_firewallUUID want) (rf_vmUUID want) = Ok (Some observed).
(** A decision to send [issued]: the snapshot carries no receipt, the receipt to be written is that of [issued] with
    the owner's UID, and its token and time are fresh. *)
Definition decided (snapshot : ownerSnapshot) (desired : option nodeLoadBalancerFirewallRelationFence) (d : decision) (issued : nodeLoadBalancerFirewallRelationFence) (h : list (event nres)) : Prop :=
  annotation (sn_annotations snapshot) RelationIssued = "" /\ annotation (sn_annotations snapshot) RelationOwnerUID = ""
  /\ de_changed d = true /\ de_values d !! RelationIssued = Some (fence_String issued) /\ de_values d !! RelationOwnerUID = Some (sn_uid snapshot)
  /\ (exists want, desired = Some want /\ rf_operation issued = rf_operation want /\ rf_firewallUUID issued = rf_firewallUUID want /\ rf_vmUUID issued = rf_vmUUID want
       /\ (rf_targetAbsentAt want = "" -> absence_from (sn_annotations snapshot) want (rf_targetAbsentAt issued)))
  /\ Ev (NewToken : nact) (Ok (rf_issueID issued)) ∈ h /\ exists now, rf_issuedAt issued = format_time now /\ Ev (Kube Clock : nact) now ∈ h.
Definition not_issued (r : result decision) : Prop := forall d issued, r = Ok d -> de_result d <> outcomeIssued issued.
Ltac settle_not := intros ? ? [= <-]; cbn; repeat case_match; discriminate.
Lemma resolve_not values existing items h : wp any_action (resolveExisting cfg owner values existing items) h (fun r _ => not_issued r).
Proof.
  unfold resolveExisting. destruct (nodeLoadBalancerFirewallRelationConverged existing items) as [converged|]; [|by intros ? ? [=]].
  apply wp_bind, wp_skip. intros [[]|] new; [| |by intros ? ? [=]].
  - apply wp_bind, wp_skip. intros values' new'. settle_not.
  - apply wp_bind, wp_skip. intros now new'. destruct (advanceNodeLoadBalancerFirewallRelationObservation _ _ _ _ _) as [[[values' []] changed]|]; [| |by intros ? ? [=]];
      apply wp_bind, wp_skip; intros ? ?; settle_not.
Qed.
Lemma retirement_keeps values key now k : k <> RelationRetired -> annotation (clearNodeLoadBalancerFirewallRelationRetirement values key now).1 k = annotation values k.
Proof.
  intros Hk. unfold clearNodeLoadBalancerFirewallRelationRetirement, storeNodeLoadBalancerFirewallRelationRetirements, annotation. repeat case_match; cbn [fst]; rewrite ?lookup_delete_ne, ?lookup_insert_ne by done; congruence.
Qed.
Lemma park_keeps values want : ensures (passPark owner values want) (fun r _ => forall parked, r = Ok parked -> annotation parked.1 RelationVMAbsent = annotation values RelationVMAbsent).
Proof.
  unfold passPark, ensures. destruct (_ && _); [|by intros ? [= <-]]. split; [exact I|]. intros now parked. repeat case_match; intros [= <-]; cbn [fst]; try done. by apply retirement_keeps.
Qed.
Lemma target_from values changed want : ensures (proveTarget cfg values changed want) (fun r _ => forall v c at_, r = Ok (TargetReady v c at_) -> absence_from values want at_).
Proof.
  unfold proveTarget, ensures. assert (Hd : forall v c at_, drop_absence values changed = TargetReady v c at_ -> absence_from values want at_) by (unfold drop_absence; intros v c at_; case_match; intros [= _ _ <-]; by left).
  destruct (negb _); [intros v c at_ [= H]; by eapply Hd|]. apply wp_bind, wp_skip. intros [[]|] new; [intros v c at_ [= H]; by eapply Hd| |done].
  destruct (parseNodeLoadBalancerFirewallRelationVMAbsence _ _ _) as [found|] eqn:Hp; [|done]. split; [exact I|]. intros now. destruct found as [observed|]; [|done]. cbn [bind wp]. destruct (now <? _); [done|].
  intros v c at_ [= _ _ <-]. right. by exists observed.
Qed.
Lemma issue_decides uid values desired items h :
  wp any_action (issueDesired cfg owner uid values desired items) h (fun r h' => forall d issued, r = Ok d -> de_result d = outcomeIssued issued ->
    de_changed d = true /\ de_values d !! RelationIssued = Some (fence_String issued) /\ de_values d !! RelationOwnerUID = Some uid
    /\ (rf_operation issued = rf_operation desired /\ rf_firewallUUID issued = rf_firewallUUID desired /\ rf_vmUUID issued = rf_vmUUID desired
        /\ (rf_targetAbsentAt desired = "" -> absence_from values desired (rf_targetAbsentAt issued)))
    /\ Ev (NewToken : nact) (Ok (rf_issueID issued)) ∈ h' /\ exists now, rf_issuedAt issued = format_time now /\ Ev (Kube Clock : nact) now ∈ h').
Proof.
  unfold issueDesired. destruct (nodeLoadBalancerFirewallRelationConverged desired items) as [[]|]; [| |by intros ? ? [=]].
  { unfold settleDesired. apply wp_bind, wp_skip. intros now new d issued [= <-]. cbn. by case_match. }
  apply wp_bind, wp_skip. intros [e|] new; [apply wp_bind, wp_skip; by intros ? ? ? ? [=]|]. apply wp_bind. eapply ensures_use; [apply park_keeps|]. intros [[values' changed]|] new' Hk; [|by intros ? ? [=]]. specialize (Hk _ eq_refl).
  apply wp_bind. eapply ensures_use; [apply target_from|]. intros [[values2 c target|]|] new2 Ht; [|by intros ? ? [= <-]|by intros ? ? [=]]. specialize (Ht _ _ _ eq_refl).
  split; [exact I|]. intros [token|]; [|by intros ? ? [=]]. split; [exact I|]. intros now d issued [= <-] [= <-]. cbn [de_changed de_values rf_operation rf_firewallUUID rf_vmUUID rf_issueID rf_issuedAt rf_targetAbsentAt].
  split_and!; [done|by rewrite lookup_insert_ne, lookup_insert_eq|by rewrite lookup_insert_eq|done|done|done| |set_solver|].
  { intros Hw. cbn [fst] in Hk, Ht. unfold absence_from in *. rewrite Hk in Ht. destruct (bool_decide _) eqn:Et; [by left; rewrite Hw|done]. } exists now. split; [done|set_solver].
Qed.
Lemma decide_decides snapshot desired items :
  ensures (decideRelation cfg owner snapshot desired items) (fun r h => forall d issued, r = Ok d -> de_result d = outcomeIssued issued -> decided snapshot desired d issued h).
Proof.
  unfold decideRelation, ensures. destruct (bool_decide_reflect (annotation (sn_annotations snapshot) RelationIssued = "")) as [Hi|]; cbn [negb].
  - destruct (bool_decide_reflect (annotation (sn_annotations snapshot) RelationOwnerUID = "")) as [Ho|]; cbn [negb]; [|by intros ? ? [=]]. destruct desired as [want|]; [|by intros ? ? [= <-]].
    eapply wp_mono; [apply issue_decides|]. intros r h H d issued -> Hd. destruct (H d issued eq_refl Hd) as (? & ? & ? & ? & ? & ?). unfold decided. split_and!; eauto.
  - case_match; [by intros ? ? [=]|]. destruct (parseNodeLoadBalancerFirewallRelationFence _) as [existing|]; [|by intros ? ? [=]].
    eapply wp_mono; [apply resolve_not|]. intros r h Hn d issued -> Hd. by destruct (Hn d issued).
Qed.
Lemma decide_none snapshot items r : may_return (decideRelation cfg owner snapshot None items) r -> not_issued r.
Proof.
  intros Hm. destruct (may_exec _ _ Hm []) as [h H]. intros d issued -> Hd. destruct (exec_ensures _ _ _ _ (decide_decides snapshot None items) H d issued eq_refl Hd) as (_ & _ & _ & _ & _ & (? & [=] & _) & _).
Qed.
Lemma readback_steady passes : only steady (reconcile passes owner None).
Proof.
  induction passes as [|passes IH]; cbn [reconcileNodeLoadBalancerFirewallRelation]; [exact I|]. quiet_tac; subst; quiet_tac.
  all: match goal with H : may_return (decideRelation _ _ _ _ _) _ |- _ => apply decide_none in H; by edestruct H end.
Qed.

(** ** The dispatch *)

(** The call that [issued] stands for. *)
Definition relation_call (issued : nodeLoadBalancerFirewallRelationFence) (x : nact) : Prop :=
  x = if rf_operation issued == nodeLoadBalancerFirewallRelationAssign
      then CloudAssignFirewall (cc_Location (rc_Cloud cfg)) (rf_firewallUUID issued) (rf_vmUUID issued)
      else CloudUnassignFirewall (cc_Location (rc_Cloud cfg)) (rf_firewallUUID issued) (rf_vmUUID issued).
(** The firewalls as listed. *)
Definition listed (items : list Firewall) : event nres := @Ev nact nres (Kube (CloudListFirewalls (cc_Location (rc_Cloud cfg)))) (Ok items).
(** What precedes the call, newest first: the limit was checked for an attachment; the receipt was read once more and
    is that of this attempt; the owner granted the authority for the firewall as it was listed; the receipt was
    written over a snapshot of the owner without one; and no relation was changed before. *)
Inductive relation_authority (desired : option nodeLoadBalancerFirewallRelationFence) (issued : nodeLoadBalancerFirewallRelationFence) : list (event nres) -> Prop :=
  | RelationAuthority snapshot items d authorize before final stored limit reread granted written decision seen earlier :
      exec (ow_read owner false) [] (Some (Ok snapshot)) seen -> sn_uid snapshot <> "" ->
      decided snapshot desired d issued decision ->
      exec (sn_commit snapshot false (de_values d)) [] (Some None) written ->
      ow_authorize owner = Some authorize -> exactNodeLoadBalancerFirewallFromItems items (rf_firewallUUID issued) = Ok before ->
      exec (authorize issued before) [] (Some None) granted ->
      exec (ow_read owner false) [] (Some (Ok final)) reread ->
      sn_uid final = sn_uid snapshot -> annotation (sn_annotations final) RelationOwnerUID = sn_uid snapshot ->
      parseNodeLoadBalancerFirewallRelationFence (annotation (sn_annotations final) RelationIssued) = Ok stored -> sameNodeLoadBalancerFirewallRelationIssue stored issued = true ->
      (if rf_operation issued == nodeLoadBalancerFirewallRelationAssign then exec (requireFirewallVMCapacity cfg (rf_firewallUUID issued) (rf_vmUUID issued)) [] (Some None) limit else limit = []) ->
      relation_authority desired issued (limit ++ reread ++ granted ++ written ++ decision ++ listed items :: seen ++ earlier).
Definition relation_guard (desired : option nodeLoadBalancerFirewallRelationFence) (x : nact) (h : list (event nres)) : Prop :=
  relation_mutation x -> performed steady h /\ exists issued, relation_call issued x /\ relation_authority desired issued h.
Lemma steady_guard desired x h : steady x -> relation_guard desired x h.
Proof. intros H ?. by destruct H. Qed.
Lemma wp_steady desired {A} (p : prog nres A) h : only steady p -> wp (relation_guard desired) p h (fun _ _ => True).
Proof. intros H. by eapply (wp_only _ steady); [exact H|apply steady_guard|]. Qed.
Lemma dispatch_safe desired passes snapshot items d issued written decision seen earlier :
  exec (ow_read owner false) [] (Some (Ok snapshot)) seen -> sn_uid snapshot <> "" ->
  decided snapshot desired d issued decision -> exec (sn_commit snapshot false (de_values d)) [] (Some None) written ->
  performed steady (written ++ decision ++ listed items :: seen ++ earlier) ->
  wp (relation_guard desired) (dispatchRelation cfg (reconcile passes owner None) owner (sn_uid snapshot) items issued) (written ++ decision ++ listed items :: seen ++ earlier) (fun _ _ => True).
Proof.
  intros Hr Hu Hd Hw Hs. unfold dispatchRelation. destruct (ow_authorize owner) as [authorize|] eqn:Ha; [|done].
  destruct (exactNodeLoadBalancerFirewallFromItems _ _) as [before|] eqn:Hb; [|apply wp_steady; auto with relation_quiet nocore].
  apply wp_bind. eapply (wp_segment _ steady); [by eapply quiet_authority|apply steady_guard|]. intros [e|] granted Hg Hge; [apply wp_steady; auto with relation_quiet nocore|].
  apply wp_bind. eapply (wp_segment _ steady); [apply read_steady|apply steady_guard|]. intros [final|e] reread Hrr Hre; [|apply wp_steady; auto with relation_quiet nocore].
  destruct (_ || _) eqn:Hf; [apply wp_steady; auto with relation_quiet nocore|]. apply orb_false_iff in Hf as [Hf Hf']. apply negb_false_iff, (bool_decide_eq_true_1 _) in Hf, Hf'.
  destruct (parseNodeLoadBalancerFirewallRelationFence _) as [stored|] eqn:Hst; [|apply wp_steady; auto with relation_quiet nocore].
  destruct (sameNodeLoadBalancerFirewallRelationIssue _ _) eqn:Hsame; cbn [negb]; [|apply wp_steady; auto with relation_quiet nocore].
  apply wp_bind. eapply (wp_segment _ steady); [destruct (bool_decide _); [apply require_steady|exact I]|apply steady_guard|]. intros [e|] limit Hlim Hle; [apply wp_steady; quiet_tac; auto with relation_quiet nocore|].
  assert (Hauth : relation_authority desired issued (limit ++ reread ++ granted ++ written ++ decision ++ listed items :: seen ++ earlier)).
  { eapply RelationAuthority; eauto. destruct (bool_decide _); [done|]. by destruct Hle. }
  assert (Hall : performed steady (limit ++ reread ++ granted ++ written ++ decision ++ listed items :: seen ++ earlier)) by (unfold performed in *; rewrite !Forall_app in *; tauto).
  destruct (rf_operation issued == nodeLoadBalancerFirewallRelationAssign) eqn:Hop; apply wp_bind, wp_call; try (intros _; split; [done|]; exists issued; split; [unfold relation_call; by rewrite Hop|done]);
    intros e; apply wp_steady, settle_steady, readback_steady.
Qed.
Lemma reconcile_safe passes : forall desired h, performed steady h -> wp (relation_guard desired) (reconcile passes owner desired) h (fun _ _ => True).
Proof.
  induction passes as [|passes IH]; intros desired h Hh; cbn [reconcileNodeLoadBalancerFirewallRelation]; [exact I|].
  apply wp_bind. eapply (wp_segment _ steady); [apply read_steady|apply steady_guard|]. intros [snapshot|] seen Hseen Hex; [|done]. pose proof (exec_may _ _ _ _ Hex) as Hread.
  destruct (bool_decide_reflect (sn_uid snapshot = "")) as [|Hu]; [done|]. destruct (_ && _).
  { destruct (parseNodeLoadBalancerFirewallRelationFence _); [|done]. apply wp_bind. eapply wp_mono; [apply wp_steady; eapply commit_steady, Hread|]. done. }
  apply wp_bind. split; [apply steady_guard; intros []|]. intros [items|]; [|done]. set (h1 := _ :: _).
  assert (Hh1 : performed steady h1) by (constructor; [by intros []|by apply Forall_app]).
  apply wp_bind. eapply (wp_segment _ steady); [apply decide_steady|apply steady_guard|]. intros [d|] decision Hdec Hde; [|done].
  pose proof (exec_ensures _ _ _ _ (decide_decides snapshot desired items) Hde d) as Hdd.
  assert (Hh2 : performed steady (decision ++ h1)) by (by apply Forall_app).
  apply wp_bind. eapply (wp_segment _ steady); [destruct (de_changed d); [eapply commit_steady, Hread|exact I]|apply steady_guard|]. intros [e|] written Hwr Hwe; [done|].
  assert (Hh3 : performed steady (written ++ decision ++ h1)) by (by apply Forall_app).
  destruct (de_rerun d) eqn:Er.
  - destruct (de_result d) as [|retry|retry| |issued] eqn:Ed; try exact I; [apply wp_steady, confirm_steady|].
    specialize (Hdd issued eq_refl eq_refl). assert (Hc : de_changed d = true) by apply Hdd. rewrite Hc in Hwe. subst h1.
    apply (dispatch_safe desired passes snapshot items d issued written decision seen h); done.
  - apply wp_steady, readback_steady.
  - by apply IH.
Qed.
End Safety.

(** ** Termination *)

Section Returns.
Context `{TT : TimeText} {UT : UTCText} `{JT : JSONText} (cfg : RelationConfig) (owner : relationOwner) {QO : QuietOwner owner}.
Notation reconcile := (reconcileNodeLoadBalancerFirewallRelation cfg).
Lemma read_ends detached : returns (ow_read owner detached). Proof. apply quiet_read. Qed.
Lemma commit_ends detached snapshot detached' values : may_return (ow_read owner detached) (Ok snapshot) -> returns (sn_commit snapshot detached' values).
Proof. intros H. by eapply quiet_commit. Qed.
Lemma limit_ends service : returns (recordFirewallLimitExceeded service).
Proof. unfold recordFirewallLimitExceeded. quiet_tac. Qed.
#[local] Hint Resolve read_ends commit_ends limit_ends : relation_quiet.
Lemma members_ends service members : returns (recordMembers service members).
Proof. induction members as [|[m|] members IH]; cbn [recordMembers]; quiet_tac. Qed.
#[local] Hint Resolve members_ends : relation_quiet.
Lemma refuse_ends cause : returns (refuseFirewallAttach owner cause).
Proof. unfold refuseFirewallAttach. quiet_tac. by apply quiet_members. Qed.
Lemma capacity_ends items firewall vm : returns (firewallVMCapacityFromItems cfg items firewall vm).
Proof. unfold firewallVMCapacityFromItems. quiet_tac. Qed.
#[local] Hint Resolve refuse_ends capacity_ends : relation_quiet.
Lemma require_ends firewall vm : returns (requireFirewallVMCapacity cfg firewall vm).
Proof. unfold requireFirewallVMCapacity. quiet_tac. Qed.
Lemma vm_ends vm : returns (nodeLoadBalancerFirewallRelationVMCloudAuthority cfg vm).
Proof. unfold nodeLoadBalancerFirewallRelationVMCloudAuthority, exactRelationVM. quiet_tac. Qed.
#[local] Hint Resolve require_ends vm_ends : relation_quiet.
Lemma decide_ends snapshot desired items : returns (decideRelation cfg owner snapshot desired items).
Proof. unfold decideRelation, resolveExisting, issueDesired, settleDesired, passPark, proveTarget. quiet_tac. Qed.
Lemma clear_ends uid issued : returns (clearNodeLoadBalancerFirewallRelationFence owner uid issued).
Proof. unfold clearNodeLoadBalancerFirewallRelationFence. quiet_tac; subst; quiet_tac. Qed.
Lemma observe_ends uid issued items now : returns (observeNodeLoadBalancerFirewallRelationIssue cfg owner uid issued items now).
Proof. unfold observeNodeLoadBalancerFirewallRelationIssue. quiet_tac; subst; quiet_tac. Qed.
Lemma confirm_ends snapshot : returns (confirmConverged owner snapshot).
Proof. unfold confirmConverged. quiet_tac. Qed.
#[local] Hint Resolve decide_ends clear_ends observe_ends confirm_ends : relation_quiet.
Lemma reject_ends uid issued e : returns (rejectRelation owner uid issued e).
Proof. unfold rejectRelation. quiet_tac. Qed.
Lemma settle_ends readback uid issued e : returns readback -> returns (settleRelation cfg readback owner uid issued e).
Proof. intros Hr. unfold settleRelation, rememberRelation. quiet_tac. Qed.
#[local] Hint Resolve reject_ends settle_ends : relation_quiet.
Lemma authority_ends authorize fence before : ow_authorize owner = Some authorize -> returns (authorize fence before).
Proof. intros H. by eapply quiet_authority. Qed.
#[local] Hint Resolve authority_ends : relation_quiet.
Lemma dispatch_ends readback uid items issued : returns readback -> returns (dispatchRelation cfg readback owner uid items issued).
Proof. intros Hr. unfold dispatchRelation. quiet_tac; subst; quiet_tac. Qed.
#[local] Hint Resolve dispatch_ends : relation_quiet.
(** A pass is repeated at once only without a delay. *)
Lemma decide_once snapshot desired items r : nodeLoadBalancerFirewallRelationAbsenceDelay cfg <> 0 -> may_return (decideRelation cfg owner snapshot desired items) r ->
  forall d, r = Ok d -> de_rerun d = NoRerun.
Proof.
  intros Hz Hm. apply Z.eqb_neq in Hz. revert Hm. unfold decideRelation, resolveExisting, issueDesired, settleDesired, passPark, proveTarget.
  intros Hm d ->. repeat match goal with
  | H : may_return (bind _ _) _ |- _ => apply may_bind in H as (? & ? & ?)
  | H : may_return (match ?x with _ => _ end) _ |- _ => destruct x eqn:?
  | H : may_return (Ret _) _ |- _ => cbn [may_return] in H; simplify_eq
  | H : TargetWaits _ _ _ _ = drop_absence _ _ |- _ => unfold drop_absence in H
  | H : TargetWaits _ _ _ _ = match ?x with _ => _ end |- _ => destruct x eqn:?; simplify_eq
  end; cbn [de_rerun]; rewrite ?Hz, ?andb_false_r; done.
Qed.
Lemma readback_pass_ends passes : nodeLoadBalancerFirewallRelationAbsenceDelay cfg <> 0 -> returns (reconcile (S passes) owner None).
Proof.
  intros Hz. cbn [reconcileNodeLoadBalancerFirewallRelation]. quiet_tac; subst; quiet_tac; rename select (may_return (decideRelation _ _ _ _ _) _) into Hd.
  - by destruct (decide_none _ _ _ _ _ Hd _ _ eq_refl Heqr2).
  - pose proof (decide_once _ _ _ _ Hz Hd _ eq_refl). congruence.
  - pose proof (decide_once _ _ _ _ Hz Hd _ eq_refl). congruence.
Qed.
#[local] Hint Resolve readback_pass_ends : relation_quiet.
Lemma reconcile_ends passes desired : nodeLoadBalancerFirewallRelationAbsenceDelay cfg <> 0 -> returns (reconcile (S (S passes)) owner desired).
Proof.
  intros Hz. pose proof (readback_pass_ends passes Hz) as Hb. remember (S passes) as n. cbn [reconcileNodeLoadBalancerFirewallRelation]. quiet_tac; subst; quiet_tac.
  all: match goal with H : may_return (decideRelation _ _ _ _ _) _ |- _ => by pose proof (decide_once _ _ _ _ Hz H _ eq_refl); congruence end.
Qed.
End Returns.

(** ** The owner of a shard *)

Lemma lift_steady {A} (p : prog sres A) : only steady (lift p).
Proof. induction p as [a|x k IH| |]; cbn; auto. split; [intros []|done]. Qed.
Lemma lift_ends {A} (p : prog sres A) : returns p -> returns (lift p).
Proof. induction p as [a|x k IH| |]; cbn; auto. Qed.
Section ShardOwner.
Context `{TT : TimeText} {UT : UTCText} `{JT : JSONText} (sha256_hex : string -> string) (IsDNS1123Label : string -> bool) (ParseQuantity : string -> option (Z * Z)) (cfg : RelationConfig).
Notation owner := (shardFirewallRelationOwnerForUID sha256_hex IsDNS1123Label ParseQuantity cfg).
#[local] Hint Resolve lift_steady : relation_quiet.
Lemma stamp_ends stamp : returns (validateStamp stamp).
Proof. unfold validateStamp. quiet_tac. Qed.
#[local] Hint Resolve stamp_ends : relation_quiet.
Lemma annotations_ends pool : returns (nodeLoadBalancerShardFirewallAnnotations IsDNS1123Label pool).
Proof. unfold nodeLoadBalancerShardFirewallAnnotations, pendingError, issuedError. quiet_tac. Qed.
Lemma fresh_ends uuid : returns (exactNodeLoadBalancerFirewallFresh (rc_Cloud cfg) uuid).
Proof. unfold exactNodeLoadBalancerFirewallFresh. quiet_tac. Qed.
Lemma member_ends shard s : returns (stagedMember sha256_hex IsDNS1123Label ParseQuantity (rc_Cloud cfg) shard s).
Proof. unfold stagedMember. quiet_tac. Qed.
#[local] Hint Resolve member_ends : relation_quiet.
Lemma services_ends shard items : forall acc, returns (stageServices sha256_hex IsDNS1123Label ParseQuantity (rc_Cloud cfg) shard items acc).
Proof. induction items as [|s items IH]; intros acc; cbn [stageServices]; quiet_tac. Qed.
#[local] Hint Resolve services_ends : relation_quiet.
Lemma derive_ends shard : returns (desiredStagedShardFirewallPolicy sha256_hex IsDNS1123Label ParseQuantity (rc_Cloud cfg) shard).
Proof. unfold desiredStagedShardFirewallPolicy. quiet_tac. Qed.
#[local] Hint Resolve annotations_ends fresh_ends derive_ends lift_ends vm_steady vm_ends : relation_quiet.
Lemma validate_quiet shard fence before : only steady (validateShardRelation sha256_hex IsDNS1123Label ParseQuantity cfg shard fence before)
  /\ returns (validateShardRelation sha256_hex IsDNS1123Label ParseQuantity cfg shard fence before).
Proof. unfold validateShardRelation. split; quiet_tac. Qed.
Lemma unassign_vm_quiet fence : only steady (authorizeFirewallRelationUnassignVM cfg fence) /\ returns (authorizeFirewallRelationUnassignVM cfg fence).
Proof. unfold authorizeFirewallRelationUnassignVM. split; quiet_tac. Qed.
Lemma shard_authority_quiet shard fence before : only steady (authorizeShardFirewallRelationPreDispatch sha256_hex IsDNS1123Label ParseQuantity cfg shard fence before)
  /\ returns (authorizeShardFirewallRelationPreDispatch sha256_hex IsDNS1123Label ParseQuantity cfg shard fence before).
Proof.
  unfold authorizeShardFirewallRelationPreDispatch. pose proof (validate_quiet shard fence before) as [? ?]. pose proof (unassign_vm_quiet fence) as [? ?]. split; quiet_tac.
Qed.
Lemma pool_commit_quiet shard pool detached values : only steady (commitPool cfg shard pool detached values) /\ returns (commitPool cfg shard pool detached values).
Proof. unfold commitPool. split; quiet_tac. Qed.
Lemma shard_snapshot shard uid detached snapshot : may_return (ow_read (owner shard uid) detached) (Ok snapshot) ->
  exists pool, stateAnchor cfg pool shard = true /\ snapshot = Build_ownerSnapshot (pl_Annotations pool) (pl_UID pool) (commitPool cfg shard pool).
Proof.
  cbn [ow_read shardFirewallRelationOwnerForUID]. intros (got & _ & Hr)%may_bind. cbn [may_return] in Hr. destruct got as [pool|]; [|done].
  destruct (_ && _); [done|]. destruct (stateAnchor cfg pool shard) eqn:Ha; [|done]. injection Hr as ->. eauto.
Qed.
#[export] Instance shard_owner_quiet shard uid : QuietOwner (owner shard uid).
Proof.
  split.
  - intros detached. cbn [ow_read shardFirewallRelationOwnerForUID]. split; quiet_tac.
  - intros detached snapshot detached' values (pool & _ & ->)%shard_snapshot. apply pool_commit_quiet.
  - intros authorize fence before [= <-]. apply shard_authority_quiet.
  - by intros members [=].
Qed.

(** ** What the owner of a shard is shown *)

Notation location := (cc_Location (rc_Cloud cfg)).
Definition seen (x : nact) (r : nres x) : event nres := @Ev nact nres x r.
(** The three reads of a VM, and what they show when it is owned or absent. *)
Definition vm_shown (vm : string) (authority : vmAuthority) (h : list (event nres)) : Prop :=
  exists got items network members,
    seen (CloudGetVM location vm) got ∈ h /\ seen (CloudListVMs location) (Ok items) ∈ h /\ seen (CloudGetNetwork location (rc_NetworkUUID cfg)) (Ok (Some network)) ∈ h
    /\ Network_UUID network = rc_NetworkUUID cfg /\ canonicalConfiguredVPCVMUUIDs location (Some network) = Ok members
    /\ match authority with
       | VMAbsent => (match got with Ok (Some exact) => EqualFold (TrimSpace (VM_Status exact)) "deleted" = true /\ VM_UUID exact = vm | Ok None => False | Err e => Client.IsNotFound (Some e) = true end)
           /\ List.filter (fun vm' => EqualFold (VM_UUID vm') vm) items = [] /\ members !! vm = None
       | VMOwned => exists exact, got = Ok (Some exact) /\ VM_UUID exact = vm /\ VM_BillingAccountID exact = cc_BillingAccountID (rc_Cloud cfg)
           /\ List.length (List.filter (fun vm' => EqualFold (VM_UUID vm') vm) items) = 1%nat /\ members !! vm = Some vm
       end.
Lemma foreign_billing exact : foreign_vm cfg exact = false -> VM_BillingAccountID exact = cc_BillingAccountID (rc_Cloud cfg).
Proof. unfold foreign_vm. intros [H%negb_false_iff%Z.eqb_eq _]%orb_false_iff. done. Qed.
Lemma exact_shown vm : ensures (exactRelationVM cfg vm) (fun r h => forall o, r = Ok o -> exists got, seen (CloudGetVM location vm) got ∈ h /\
  match o with
  | Some exact => got = Ok (Some exact)
  | None => match got with Ok (Some exact) => EqualFold (TrimSpace (VM_Status exact)) "deleted" = true /\ VM_UUID exact = vm | Ok None => False | Err e => Client.IsNotFound (Some e) = true end
  end).
Proof.
  unfold exactRelationVM, ensures. split; [exact I|]. intros got o. destruct got as [[exact|]|e]; [| |]; cbn [wp].
  - destruct (EqualFold (TrimSpace (VM_Status exact)) "deleted") eqn:Hs; [destruct (_ || _) eqn:Hf|]; intros [= <-]; (eexists; split; [left|]); [|done].
    cbn. apply orb_false_iff in Hf as [Hf%negb_false_iff _]. by apply (bool_decide_eq_true_1 _) in Hf.
  - done.
  - destruct (Client.IsNotFound (Some e)) eqn:Hn; intros [= <-]. eexists; split; [left|]. done.
Qed.
Lemma vm_authority_shown vm : ensures (nodeLoadBalancerFirewallRelationVMCloudAuthority cfg vm) (fun r h => forall a, r = Ok a -> vm_shown vm a h).
Proof.
  unfold nodeLoadBalancerFirewallRelationVMCloudAuthority, ensures. destruct (negb _); [done|]. apply wp_bind. eapply ensures_use; [apply exact_shown|].
  intros [exact|] new Hex; [|done]. destruct (Hex exact eq_refl) as (got & Hg & Hm). split; [exact I|]. intros [items|]; [|done]. split; [exact I|]. intros [network|]; [|done]. cbn [bind wp].
  match goal with |- context [negb ?b] => destruct (negb b) eqn:Hn; [by intros ? [=]|] end. apply negb_false_iff, (bool_decide_eq_true_1 _) in Hn. destruct network as [network|]; [|done]. injection Hn as Hn.
  destruct (canonicalConfiguredVPCVMUUIDs _ _) as [members|] eqn:Hc; [|done].
  assert (Hseen : forall a, (match a with
    | VMAbsent => (match got with Ok (Some exact) => EqualFold (TrimSpace (VM_Status exact)) "deleted" = true /\ VM_UUID exact = vm | Ok None => False | Err e => Client.IsNotFound (Some e) = true end)
        /\ List.filter (fun vm' => EqualFold (VM_UUID vm') vm) items = [] /\ members !! vm = None
    | VMOwned => exists exact, got = Ok (Some exact) /\ VM_UUID exact = vm /\ VM_BillingAccountID exact = cc_BillingAccountID (rc_Cloud cfg)
        /\ List.length (List.filter (fun vm' => EqualFold (VM_UUID vm') vm) items) = 1%nat /\ members !! vm = Some vm
    end) -> vm_shown vm a (seen (CloudGetNetwork location (rc_NetworkUUID cfg)) (Ok (Some network)) :: seen (CloudListVMs location) (Ok items) :: new ++ [])).
  { intros a Ha. exists got, items, network, members. split_and!; [|set_solver..|done|done|done]. right; right. apply elem_of_app. by left. }
  destruct exact as [exact|].
  - destruct (last_of _ items) as [item|]; [|done]. destruct ((VM_UUID exact != vm) || _ || _) eqn:Ht; [done|]. destruct (foreign_vm cfg exact || foreign_vm cfg item) eqn:Hf; [done|]. intros a [= <-]. apply Hseen. exists exact.
    apply orb_false_iff in Hf as [Hf _]. rewrite !orb_false_iff, !negb_false_iff in Ht. destruct Ht as [[Hv Hl] Hmem]. apply (bool_decide_eq_true_1 _) in Hv, Hmem. apply Nat.eqb_eq in Hl. split_and!; try done. by apply foreign_billing.
  - destruct (_ && _) eqn:Ht; [|done]. intros a [= <-]. apply Hseen. apply andb_true_iff in Ht as [Hl%Nat.eqb_eq%length_zero_iff_nil Hmem]. apply (bool_decide_eq_true_1 _) in Hmem. done.
Qed.

(** The NodePool of the shard was read, and anchors the shard; for an attachment it is not being deleted. *)
Definition pool_shown (shard : string) (assign : bool) (h : list (event nres)) : Prop :=
  exists pool, seen (Kube (GetPool false shard)) (Ok pool) ∈ h /\ stateAnchor cfg pool shard = true /\ (assign = true -> pl_DeletionTimestamp pool = None).
(** The VM has exactly one healthy Node of the shard. *)
Definition node_shown (shard vm : string) (h : list (event nres)) : Prop :=
  exists nodes, seen (AuthorizedNodes shard) (Ok nodes) ∈ h
    /\ List.length (List.filter (fun node => bool_decide (nodeLoadBalancerVMUUID node = Some vm) && nodeLoadBalancerNodeHealthy node) nodes) = 1%nat.
(** The firewalls of the VM leave room for this one, or include it. *)
Definition room_shown (firewall vm : string) (h : list (event nres)) : Prop :=
  exists items, listed cfg items ∈ h /\
    (ToLower firewall ∈ attached_to items vm
     \/ exists now recent, seen (Recent vm now) recent ∈ h
        /\ (ToLower firewall ∈ recent \/ Z.of_nat (size (attached_to items vm ∪ recent)) < maxFirewallsPerVM cfg)).
(** The VM of a detachment is owned, or its absence was recorded and the delay has passed. *)
Definition target_shown (fence : nodeLoadBalancerFirewallRelationFence) (h : list (event nres)) : Prop :=
  vm_shown (rf_vmUUID fence) VMOwned h
  \/ vm_shown (rf_vmUUID fence) VMAbsent h /\ exists observed now, parse_time (rf_targetAbsentAt fence) = Some observed
     /\ seen (Kube Clock) now ∈ h /\ observed + nodeLoadBalancerFirewallRelationAbsenceDelay cfg <= now.
Lemma vm_shown_more vm a h h' : vm_shown vm a h -> h ⊆ h' -> vm_shown vm a h'.
Proof. intros (got & items & network & members & ? & ? & ? & ?) Hs. exists got, items, network, members. split_and!; auto; tauto. Qed.
Lemma pool_shown_more shard assign h h' : pool_shown shard assign h -> h ⊆ h' -> pool_shown shard assign h'.
Proof. intros (pool & ? & ?) Hs. exists pool. auto. Qed.
Lemma target_shown_more fence h h' : target_shown fence h -> h ⊆ h' -> target_shown fence h'.
Proof. intros [H|[H (observed & now & ? & ? & ?)]] Hs; [left|right; split]; eauto using vm_shown_more. exists observed, now. auto. Qed.
Lemma room_shown_more firewall vm h h' : room_shown firewall vm h -> h ⊆ h' -> room_shown firewall vm h'.
Proof. intros (items & ? & [?|(now & recent & ? & ?)]) Hs; exists items; (split; [auto|]); [by left|]. right. exists now, recent. auto. Qed.
Lemma node_shown_more shard vm h h' : node_shown shard vm h -> h ⊆ h' -> node_shown shard vm h'.
Proof. intros (nodes & ? & ?) Hs. exists nodes. auto. Qed.

Lemma validate_shown shard fence before :
  ensures (validateShardRelation sha256_hex IsDNS1123Label ParseQuantity cfg shard fence before)
    (fun e h => e = None -> pool_shown shard (rf_operation fence == nodeLoadBalancerFirewallRelationAssign) h).
Proof.
  unfold validateShardRelation, ensures. split; [exact I|]. intros [pool|]; [|done]. cbn [bind]. destruct (stateAnchor cfg pool shard) eqn:Ha; cbn [negb]; [|done].
  destruct (_ && negb _) eqn:Hd; [done|]. apply (wp_skip). intros e new ->. exists pool. split; [apply elem_of_app; right; left|]. split; [done|]. intros Hass. rewrite Hass in Hd.
  apply negb_false_iff, (bool_decide_eq_true_1 _) in Hd. done.
Qed.
Lemma target_granted fence : ensures (authorizeFirewallRelationUnassignVM cfg fence) (fun e h => e = None -> target_shown fence h).
Proof.
  unfold authorizeFirewallRelationUnassignVM, ensures. apply wp_bind. eapply ensures_use; [apply vm_authority_shown|]. intros [[]|] new Hv; [|  |done].
  - intros _. left. apply (vm_shown_more _ _ new); [by apply Hv|set_solver].
  - destruct (bool_decide _); [done|]. destruct (parse_time (rf_targetAbsentAt fence)) as [observed|] eqn:Ho; [|done]. split; [exact I|]. intros now. cbn [bind wp].
    destruct (now <? _) eqn:Hn; [done|]. intros _. right. split; [apply (vm_shown_more _ _ new); [by apply Hv|set_solver]|]. exists observed, now. split_and!; [done|left|apply Z.ltb_ge in Hn; lia].
Qed.
Lemma node_granted nodes vm : requireAuthorizedNodeLoadBalancerFirewallVM nodes vm = None ->
  List.length (List.filter (fun node => bool_decide (nodeLoadBalancerVMUUID node = Some vm) && nodeLoadBalancerNodeHealthy node) nodes) = 1%nat.
Proof. unfold requireAuthorizedNodeLoadBalancerFirewallVM. destruct (Nat.eqb _ 0); [done|]. destruct (Nat.eqb _ 1) eqn:H; [|done]. intros _. by apply Nat.eqb_eq in H. Qed.
Lemma shard_granted shard fence before :
  ensures (authorizeShardFirewallRelationPreDispatch sha256_hex IsDNS1123Label ParseQuantity cfg shard fence before)
    (fun e h => e = None -> pool_shown shard (rf_operation fence == nodeLoadBalancerFirewallRelationAssign) h
      /\ if rf_operation fence == nodeLoadBalancerFirewallRelationAssign then node_shown shard (rf_vmUUID fence) h else target_shown fence h).
Proof.
  unfold authorizeShardFirewallRelationPreDispatch, ensures. apply wp_bind. eapply ensures_use; [apply validate_shown|]. intros [e|] new Hv; [done|]. specialize (Hv eq_refl).
  destruct (bool_decide_reflect (rf_operation fence = nodeLoadBalancerFirewallRelationUnassign)) as [Hop|Hu].
  { rewrite Hop in Hv |- *. change (nodeLoadBalancerFirewallRelationUnassign == nodeLoadBalancerFirewallRelationAssign) with false in *. eapply ensures_use; [apply target_granted|]. intros e new' Ht ->. cbn beta iota.
    split; [apply (pool_shown_more _ _ new); [done|set_solver]|apply (target_shown_more _ new'); [auto|set_solver]]. }
  destruct (rf_operation fence == nodeLoadBalancerFirewallRelationAssign) eqn:Ha; cbn [negb]; [|done]. split; [exact I|]. intros [nodes|]; [|done]. cbn [bind].
  destruct (requireAuthorizedNodeLoadBalancerFirewallVM _ _) eqn:Hr; [done|]. apply wp_skip. intros e new' ->. split; [apply (pool_shown_more _ _ new); [done|set_solver]|].
  exists nodes. split; [apply elem_of_app; right; left|by apply node_granted].
Qed.
Lemma room_granted firewall vm : ensures (requireFirewallVMCapacity cfg firewall vm) (fun e h => e = None -> room_shown firewall vm h).
Proof.
  unfold requireFirewallVMCapacity, ensures. split; [exact I|]. intros [items|]; [|done]. cbn [bind]. unfold firewallVMCapacityFromItems.
  destruct (bool_decide_reflect (ToLower firewall ∈ attached_to items vm)) as [Hin|Hin]; [intros _; exists items; split; [left|by left]|].
  split; [exact I|]. intros now. split; [exact I|]. intros recent. cbn [bind wp]. intros Hn. exists items. split; [right; right; left|]. right. exists now, recent. split; [left|].
  destruct (bool_decide_reflect (ToLower firewall ∈ attached_to items vm ∪ recent)) as [Hu|]; [left; set_solver|]. destruct (maxFirewallsPerVM cfg <? _) eqn:Hm; [done|]. apply Z.ltb_ge in Hm. right. lia.
Qed.

Lemma authority_shown shard uid desired issued h : relation_authority cfg (owner shard uid) desired issued h ->
  pool_shown shard (rf_operation issued == nodeLoadBalancerFirewallRelationAssign) h
  /\ if rf_operation issued == nodeLoadBalancerFirewallRelationAssign then node_shown shard (rf_vmUUID issued) h /\ room_shown (rf_firewallUUID issued) (rf_vmUUID issued) h else target_shown issued h.
Proof.
  intros H. destruct H as [snapshot items d authorize before final stored limit reread granted written decision seen earlier _ _ _ _ Ha _ Hg _ _ _ _ _ Hl]. injection Ha as <-.
  destruct (exec_ensures _ _ _ _ (shard_granted shard issued before) Hg eq_refl) as [Hp Ht]. split; [apply (pool_shown_more _ _ granted); [done|set_solver]|].
  destruct (bool_decide _); [|apply (target_shown_more _ granted); [done|set_solver]].
  split; [apply (node_shown_more _ _ granted); [done|set_solver]|apply (room_shown_more _ _ limit); [|set_solver]]. by apply (exec_ensures _ _ _ _ (room_granted _ _) Hl).
Qed.

(** C13: every call that attaches a firewall of a shard follows a read of the shard's NodePool, anchored and not being
    deleted, of exactly one healthy Node with that VM, and of the firewalls of the VM with room for one more; and every
    call that detaches one follows a read of the NodePool and of the VM, which is the cluster's own, or is absent from
    all three views at a time when the absence that the receipt records is as old as the configured delay. *)
Theorem shard_relation_shown passes shard uid desired :
  dispatches (reconcileNodeLoadBalancerFirewallRelation cfg passes (owner shard uid) desired) (fun x h =>
    match x with
    | CloudAssignFirewall l firewall vm => l = location /\ pool_shown shard true h /\ node_shown shard vm h /\ room_shown firewall vm h
    | CloudUnassignFirewall l _ vm => l = location /\ pool_shown shard false h /\ exists issued, rf_vmUUID issued = vm /\ relation_authority cfg (owner shard uid) desired issued h /\ target_shown issued h
    | _ => True
    end).
Proof.
  eapply wp_dispatches, wp_weaken, reconcile_safe; [|apply shard_owner_quiet|constructor]. intros x h Hg. destruct x; try exact I; destruct (Hg I) as (_ & issued & Hc & Hr); pose proof (authority_shown _ _ _ _ _ Hr) as Ha; unfold relation_call in Hc;
    destruct (bool_decide _); try discriminate; injection Hc as -> -> ->; destruct Ha as [? ?]; split_and!; try done; try tauto. by exists issued.
Qed.
End ShardOwner.

Section Guarantees.
Context `{TT : TimeText} {UT : UTCText} `{JT : JSONText} (cfg : RelationConfig) (owner : relationOwner) {QO : QuietOwner owner}.
(** C12: a reconciliation attaches or detaches at most one firewall, and only directly after, in this order: the owner was
    read without a receipt, the firewalls were listed, a receipt of exactly this attempt with a fresh token was
    written to the owner, the owner granted the authority, the receipt was read back and is still this attempt's,
    and the limit of firewalls was checked for an attachment. *)
Theorem relation_mutation_authorized passes desired : dispatches (reconcileNodeLoadBalancerFirewallRelation cfg passes owner desired) (relation_guard cfg owner desired).
Proof. eapply wp_dispatches, reconcile_safe; [done|constructor]. Qed.
(** With any delay but zero, two passes are enough: a reconciliation returns whatever the environment answers. *)
Theorem relation_reconcile_returns passes desired : rc_AbsentDelay cfg <> 0 -> returns (reconcileNodeLoadBalancerFirewallRelation cfg (S (S passes)) owner desired).
Proof. intros H. apply reconcile_ends; [done|]. unfold nodeLoadBalancerFirewallRelationAbsenceDelay. by destruct (_ <? 0). Qed.
End Guarantees.

(** ** A shard that attaches and detaches its firewall *)

Lemma digits_clean p : all_chars plain_char (digits p) = true.
Proof. induction p; done. Qed.
#[refine] Instance reference_utc : @UTCText reference_time := { is_utc _ := true }.
Proof. - done. - intros t. cbn [format_time reference_time all_chars]. apply digits_clean. Defined.

Module RelationWorld.
Definition vm : string := "00000000-0000-4000-8000-0000000000b1".
Definition firewall : string := ShardWorld.new_uuid.
Definition cfg : RelationConfig := Build_RelationConfig ShardWorld.cfg "vpc" 0 30000000000.
Record world := { wr_Shard : ShardWorld.world; wr_VMs : list VM; wr_Recent : gmap string (gmap string Z); wr_Calls : list string }.
Definition with_shard (w : world) (s : ShardWorld.world) : world := Build_world s (wr_VMs w) (wr_Recent w) (wr_Calls w).
Definition with_recent (w : world) (r : gmap string (gmap string Z)) : world := Build_world (wr_Shard w) (wr_VMs w) r (wr_Calls w).
Definition with_firewalls (s : ShardWorld.world) (l : list Firewall) : ShardWorld.world :=
  ShardWorld.Build_world (ShardWorld.wo_Pool s) l (ShardWorld.wo_Services s) (ShardWorld.wo_Clock s) (ShardWorld.wo_Creates s) (ShardWorld.wo_Updates s).
Definition with_rows (f : Firewall) (rows : list FirewallResource) : Firewall :=
  Build_Firewall (fw_UUID f) (fw_Name f) (fw_DisplayName f) (fw_Description f) (fw_BillingAccountID f) (fw_Rules f) (Some rows) (fw_CreatedAt f).
Definition relate (w : world) (call uuid : string) (change : list FirewallResource -> list FirewallResource) : world :=
  let s := wr_Shard w in
  Build_world (with_firewalls s (map (fun f => if fw_UUID f == uuid then with_rows f (change (default [] (fw_ResourcesAssigned f))) else f) (ShardWorld.wo_Firewalls s)))
    (wr_VMs w) (wr_Recent w) (wr_Calls w ++ [call]).
Definition node : Node :=
  Build_Node "node" None (list_to_map [(nodeLoadBalancerNodeLabel, "true")]) ("inspace://bkk01/" +:+ vm) [] (Some true) [("InternalIP", "10.0.0.4"); ("ExternalIP", "203.0.114.9")].
Definition step (x : nact) (w : world) : nres x * world :=
  match x return nres x * world with
  | Kube x => let '(r, s) := ShardWorld.step x (wr_Shard w) in (r, with_shard w s)
  | UpdateService service => (Ok service, w)
  | CloudGetVM _ uuid => (match List.find (fun v => VM_UUID v == uuid) (wr_VMs w) with Some v => Ok (Some v) | None => Err (not_found "GET" "/v1/bkk01/user-resource/vm" uuid) end, w)
  | CloudListVMs _ => (Ok (wr_VMs w), w)
  | CloudGetNetwork _ _ => (Ok (Some (Build_Network "vpc" "vpc" "" 0 "" "" false (Some (map VM_UUID (wr_VMs w))) 0 "" "")), w)
  | CloudAssignFirewall _ f v => (None, relate w "assign" f (fun rows => Build_FirewallResource "vm" v :: rows))
  | CloudUnassignFirewall _ f v => (None, relate w "unassign" f (List.filter (fun row => fx_ResourceUUID row != v)))
  | NewToken => (Ok "000102030405060708090a0b0c0d0e0f", w)
  | Remember v f now => (tt, with_recent w (rememberFirewallAssign v f now (wr_Recent w)))
  | Forget v f => (tt, with_recent w (forgetFirewallAssign v f (wr_Recent w)))
  | Recent v now => let '(r, recent) := recentFirewallAssignsFor v now (wr_Recent w) in (r, with_recent w recent)
  | AuthorizedNodes _ => (Ok [node], w)
  | RecordEvent _ _ => (tt, w)
  end.
Definition start : world := Build_world (ShardWorld.after 2 ShardWorld.start) [Build_VM vm 0 0 "node" "" "node" "running" 0 0 "" "" "" "" "" "" "" "" "vpc" 7 "" "" false "" "" "" None] ∅ [].
Definition want (operation : string) : option nodeLoadBalancerFirewallRelationFence := Some (Build_nodeLoadBalancerFirewallRelationFence operation firewall vm "" "" "" "").
Definition owner : relationOwner := shardFirewallRelationOwner (TT := reference_time) ShardWorld.digest ShardSample.label (fun _ => None) cfg ShardWorld.shard.
Definition reconcile (operation : string) (w : world) : option (bool * goerr) * world :=
  run step (reconcileNodeLoadBalancerFirewallRelation (UT := reference_utc) cfg 2 owner (want operation)) w.
Definition after (n : nat) (operation : string) (w : world) : world := Nat.iter n (fun w => (reconcile operation w).2) w.
(** What is seen of a reconciliation: its answer, the calls so far, and whether a receipt remains. *)
Definition view (operation : string) (w : world) : option (bool * goerr) * list string * bool :=
  let r := reconcile operation w in (r.1, wr_Calls r.2, bool_decide (is_Some (pl_Annotations (ShardWorld.wo_Pool (wr_Shard r.2)) !! RelationIssued))).
(** One attachment and one detachment reach the cloud. The attachment is settled in the reconciliation that sends it;
    the receipt of the detachment stays until the relation was absent for the delay. *)
Example relation_converges :
  view "assign" start = (Some (false, None), ["assign"], false)
  /\ view "assign" (after 1 "assign" start) = (Some (true, None), ["assign"], false)
  /\ view "unassign" (after 1 "assign" start) = (Some (false, Some (Sentinel (RelationPending 30000000000))), ["assign"; "unassign"], true)
  /\ view "unassign" (after 40 "unassign" (after 1 "assign" start)) = (Some (true, None), ["assign"; "unassign"], false).
Proof. vm_compute. auto. Qed.
Definition token : string := "000102030405060708090a0b0c0d0e0f".
End RelationWorld.
Import RelationWorld.

Lemma relation_receipt_roundtrip_witness :
  parseNodeLoadBalancerFirewallRelationFence (UT := reference_utc) (fence_String (receipt nodeLoadBalancerFirewallRelationUnassign RelationWorld.firewall vm token 90 (Some 30) (Some 95)))
  = Ok (receipt nodeLoadBalancerFirewallRelationUnassign RelationWorld.firewall vm token 90 (Some 30) (Some 95)).
Proof.
  apply (relation_receipt_roundtrip (UT := reference_utc) nodeLoadBalancerFirewallRelationUnassign RelationWorld.firewall vm token 90 (Some 30) (Some 95)). split.
  - left. reflexivity.
  - split; reflexivity.
  - split; reflexivity.
  - split; reflexivity.
  - unfold time_in_range. lia.
  - intros t [= <-]. split; [unfold time_in_range; lia|lia].
  - intros t [= <-]. unfold time_in_range. lia.
Defined.
Lemma relation_mutation_authorized_witness :
  dispatches (reconcileNodeLoadBalancerFirewallRelation (UT := reference_utc) RelationWorld.cfg 2 RelationWorld.owner (want "assign")) (relation_guard RelationWorld.cfg RelationWorld.owner (want "assign")).
Proof. apply (relation_mutation_authorized (UT := reference_utc) RelationWorld.cfg RelationWorld.owner (QO := shard_owner_quiet _ _ _ _ _ _) 2 (want "assign")). Defined.
Lemma relation_reconcile_returns_witness :
  returns (reconcileNodeLoadBalancerFirewallRelation (UT := reference_utc) RelationWorld.cfg 2 RelationWorld.owner (want "unassign")).
Proof. apply (relation_reconcile_returns (UT := reference_utc) RelationWorld.cfg RelationWorld.owner (QO := shard_owner_quiet _ _ _ _ _ _) 0 (want "unassign")). discriminate. Defined.
