(* ===== verification/CreateFence.v ===== *)
(** * The durable create fence of the Karpenter provider: records

    Models the data of modules/karpenter-provider/pkg/provider/create_fence.go and of
    pkg/cloud/cloud.go that the fence is made of: the records and their JSON, the checks of
    [decodeCreateFence], the migration of version 2 records, and the pure helpers. *)

From S2P Require Import Prelude GoErrors CSIFence GoJSON GoNet.

(** SHA-256 in hexadecimal, [k8svalidation.IsDNS1123Label] (true when it reports nothing), and the
    type [karpv1.NodeClaimSpec] with [reflect.DeepEqual] on it. *)
Class ProviderEnv := {
  sha256_hex : string -> string;
  sha256_hex_text : forall s, String.length (sha256_hex s) = 64%nat /\ all_chars is_hex_lower (sha256_hex s) = true;
  IsDNS1123Label : string -> bool;
  NodeClaimSpec : Type;
  Spec_DeepEqual : NodeClaimSpec -> NodeClaimSpec -> bool
}.

Definition AnnotationCreateFence : string := "karpenter.inspace.cloud/create-fence".
Definition AnnotationFloatingIPUpdateFence : string := "karpenter.inspace.cloud/floating-ip-update-fence".
Definition AnnotationRemovalMutationFence : string := "karpenter.inspace.cloud/removal-mutation-fence".
Definition CreateFenceFinalizer : string := "karpenter.inspace.cloud/create-protection".
Definition TerminationFinalizer : string := "karpenter.sh/termination".
Definition NodePoolLabelKey : string := "karpenter.sh/nodepool".
Definition createFenceSchema : string := "karpenter.inspace.cloud/create-fence-v3".
Definition legacyCreateFenceSchema : string := "karpenter.inspace.cloud/create-fence-v2".
Definition createFenceResolutionSchema : string := "karpenter.inspace.cloud/create-fence-resolution-v1".
Definition floatingIPUpdateFenceSchema : string := "karpenter.inspace.cloud/floating-ip-update-fence-v1".
Definition createFenceReserved : string := "reserved".
Definition createFenceIssued : string := "issued".
Definition createFenceRejected : string := "rejected".
Definition createFenceMaterialized : string := "materialized".

Definition createFenceVMUUIDPattern (s : string) : bool := uuid_any_pattern s.
Definition createFenceKeyHashPattern (s : string) : bool := match_seq (replicate 32 is_hex_lower) s.

Definition FirewallProfilePrivateWorker : string := "private-worker".
Definition FirewallProfilePublicNodeLoadBalancer : string := "public-node-load-balancer".
Definition FirewallProfilePublicNodeLocal : string := "public-node-local".
Definition EffectiveFirewallProfile (profile : string) : string :=
  if profile == "" then FirewallProfilePrivateWorker else profile.

Definition CreateAuthorizationPost : string := "post".
Definition CreateAuthorizationAdoption : string := "adoption".
Definition FirewallAssignmentIntent : string := "intent".
Definition FirewallAssignmentIssued : string := "issued".
Definition FirewallAssignmentRejected : string := "rejected".
Definition FirewallAssignmentObserved : string := "observed".
Definition FloatingIPUpdateIssued : string := "issued".
Definition FloatingIPUpdateRejected : string := "rejected".
Definition FloatingIPUpdateObserved : string := "observed".

Definition MaxCreateInventoryEntries : nat := 1024.
Definition MaxCreateTargetFloatingIPAssignments : nat := 64.
Definition MaxCreateInventoryEncodedBytes : nat := 96 * 1024.
Definition MaxCreateCleanupResolutions : nat := 64.

(** ** Inventories *)

Record CreateFloatingIPAssignment := {
  fa_Identity : string; fa_VMUUID : string; fa_Address : string; fa_Name : string; fa_BillingAccountID : Z
}.
#[export] Instance eta_CreateFloatingIPAssignment : Eta CreateFloatingIPAssignment := fun r =>
  Build_CreateFloatingIPAssignment (fa_Identity r) (fa_VMUUID r) (fa_Address r) (fa_Name r) (fa_BillingAccountID r).
#[export] Instance CreateFloatingIPAssignment_eq_dec : EqDecision CreateFloatingIPAssignment.
Proof. solve_decision. Defined.
Definition floatingIPAssignment_codec : codec CreateFloatingIPAssignment :=
  struct_codec (Build_CreateFloatingIPAssignment "" "" "" "" 0)
    ["identity" :=: string_codec # fa_Identity; "vmUUID" :=: string_codec # fa_VMUUID; "address" :=: string_codec # fa_Address;
     "name" :=? string_codec # fa_Name; "billingAccountID" :=: int64_codec # fa_BillingAccountID].
#[export] Instance floatingIPAssignment_codec_ok : CodecOk floatingIPAssignment_codec.
Proof. struct_ok. Qed.

Record CreateInventory := {
  inv_VMs : list string; inv_PotentialVMs : list string; inv_TargetVMs : list string; inv_FloatingIPs : list string;
  inv_TargetFloatingIPs : list CreateFloatingIPAssignment
}.
#[export] Instance eta_CreateInventory : Eta CreateInventory := fun r =>
  Build_CreateInventory (inv_VMs r) (inv_PotentialVMs r) (inv_TargetVMs r) (inv_FloatingIPs r) (inv_TargetFloatingIPs r).
#[export] Instance CreateInventory_eq_dec : EqDecision CreateInventory.
Proof. solve_decision. Defined.
Definition empty_inventory : CreateInventory := Build_CreateInventory [] [] [] [] [].
Definition inventory_codec : codec CreateInventory :=
  struct_codec empty_inventory
    ["vms" :=? list_codec string_codec # inv_VMs; "potentialVMs" :=? list_codec string_codec # inv_PotentialVMs;
     "targetVMs" :=? list_codec string_codec # inv_TargetVMs; "floatingIPs" :=? list_codec string_codec # inv_FloatingIPs;
     "targetFloatingIPs" :=? list_codec floatingIPAssignment_codec # inv_TargetFloatingIPs].
#[export] Instance inventory_codec_ok : CodecOk inventory_codec.
Proof. struct_ok. Qed.

(** ** The record *)

Record createFenceBinding := {
  cb_NodeClaimUID : string; cb_IdempotencyKeyHash : string; cb_RequestHash : string; cb_SpecHash : string; cb_BootstrapHash : string
}.
#[export] Instance eta_createFenceBinding : Eta createFenceBinding := fun r =>
  Build_createFenceBinding (cb_NodeClaimUID r) (cb_IdempotencyKeyHash r) (cb_RequestHash r) (cb_SpecHash r) (cb_BootstrapHash r).
#[export] Instance createFenceBinding_eq_dec : EqDecision createFenceBinding.
Proof. solve_decision. Defined.
Definition zero_binding : createFenceBinding := Build_createFenceBinding "" "" "" "" "".
Definition binding_codec : codec createFenceBinding :=
  struct_codec zero_binding
    ["nodeClaimUID" :=: string_codec # cb_NodeClaimUID; "idempotencyKeyHash" :=: string_codec # cb_IdempotencyKeyHash;
     "requestHash" :=: string_codec # cb_RequestHash; "specHash" :=: string_codec # cb_SpecHash;
     "bootstrapHash" :=: string_codec # cb_BootstrapHash].
#[export] Instance binding_codec_ok : CodecOk binding_codec.
Proof. struct_ok. Qed.

Record createFenceCleanupIdentity := {
  ci_ClusterName : string; ci_Location : string; ci_NetworkUUID : string; ci_NodePoolName : string; ci_ControlPlaneVIP : string;
  ci_PrivateLoadBalancerPoolStart : string; ci_PrivateLoadBalancerPoolStop : string; ci_FirewallUUID : string;
  ci_FirewallProfile : string; ci_NodeClaimName : string; ci_VMName : string; ci_BillingAccountID : Z; ci_OwnershipKeyHash : string
}.
#[export] Instance eta_createFenceCleanupIdentity : Eta createFenceCleanupIdentity := fun r =>
  Build_createFenceCleanupIdentity (ci_ClusterName r) (ci_Location r) (ci_NetworkUUID r) (ci_NodePoolName r) (ci_ControlPlaneVIP r)
    (ci_PrivateLoadBalancerPoolStart r) (ci_PrivateLoadBalancerPoolStop r) (ci_FirewallUUID r) (ci_FirewallProfile r)
    (ci_NodeClaimName r) (ci_VMName r) (ci_BillingAccountID r) (ci_OwnershipKeyHash r).
#[export] Instance createFenceCleanupIdentity_eq_dec : EqDecision createFenceCleanupIdentity.
Proof. solve_decision. Defined.
Definition zero_cleanup : createFenceCleanupIdentity := Build_createFenceCleanupIdentity "" "" "" "" "" "" "" "" "" "" "" 0 "".
Definition cleanup_codec : codec createFenceCleanupIdentity :=
  struct_codec zero_cleanup
    ["clusterName" :=: string_codec # ci_ClusterName; "location" :=: string_codec # ci_Location;
     "networkUUID" :=: string_codec # ci_NetworkUUID; "nodePoolName" :=: string_codec # ci_NodePoolName;
     "controlPlaneVIP" :=: string_codec # ci_ControlPlaneVIP;
     "privateLoadBalancerPoolStart" :=: string_codec # ci_PrivateLoadBalancerPoolStart;
     "privateLoadBalancerPoolStop" :=: string_codec # ci_PrivateLoadBalancerPoolStop;
     "firewallUUID" :=: string_codec # ci_FirewallUUID; "firewallProfile" :=: string_codec # ci_FirewallProfile;
     "nodeClaimName" :=: string_codec # ci_NodeClaimName; "vmName" :=: string_codec # ci_VMName;
     "billingAccountID" :=: int64_codec # ci_BillingAccountID; "ownershipKeyHash" :=: string_codec # ci_OwnershipKeyHash].
#[export] Instance cleanup_codec_ok : CodecOk cleanup_codec.
Proof. struct_ok. Qed.

(** A receipt; [Converged] is never persisted. *)
Record FencedCreateCleanupResolution := {
  cr_VMUUID : string; cr_FloatingIPName : string; cr_PublicIPv4 : string; cr_Converged : bool
}.
#[export] Instance eta_FencedCreateCleanupResolution : Eta FencedCreateCleanupResolution := fun r =>
  Build_FencedCreateCleanupResolution (cr_VMUUID r) (cr_FloatingIPName r) (cr_PublicIPv4 r) (cr_Converged r).
#[export] Instance FencedCreateCleanupResolution_eq_dec : EqDecision FencedCreateCleanupResolution.
Proof. solve_decision. Defined.
Definition resolution_codec : codec FencedCreateCleanupResolution :=
  struct_codec (Build_FencedCreateCleanupResolution "" "" "" false)
    ["vmUUID" :=: string_codec # cr_VMUUID; "floatingIPName" :=: string_codec # cr_FloatingIPName;
     "publicIPv4" :=: string_codec # cr_PublicIPv4; jfield_skip cr_Converged].
#[export] Instance resolution_codec_ok : CodecOk resolution_codec.
Proof. struct_ok. Qed.

Record terminalCleanupRecord := {
  tc_ObservedAt : Z; tc_VMUUID : string; tc_FloatingIPName : string; tc_PublicIPv4 : string; tc_FirewallUUID : string
}.
#[export] Instance eta_terminalCleanupRecord : Eta terminalCleanupRecord := fun r =>
  Build_terminalCleanupRecord (tc_ObservedAt r) (tc_VMUUID r) (tc_FloatingIPName r) (tc_PublicIPv4 r) (tc_FirewallUUID r).
#[export] Instance terminalCleanupRecord_eq_dec : EqDecision terminalCleanupRecord.
Proof. solve_decision. Defined.

Record baseFirewallAssignmentRecord := {
  ba_VMUUID : string; ba_FirewallUUID : string; ba_Phase : string; ba_IssueID : string; ba_IntentAt : Z;
  ba_IssuedAt : option Z; ba_RejectedAt : option Z; ba_ObservedAt : option Z
}.
#[export] Instance eta_baseFirewallAssignmentRecord : Eta baseFirewallAssignmentRecord := fun r =>
  Build_baseFirewallAssignmentRecord (ba_VMUUID r) (ba_FirewallUUID r) (ba_Phase r) (ba_IssueID r) (ba_IntentAt r)
    (ba_IssuedAt r) (ba_RejectedAt r) (ba_ObservedAt r).
#[export] Instance baseFirewallAssignmentRecord_eq_dec : EqDecision baseFirewallAssignmentRecord.
Proof. solve_decision. Defined.

Record createFenceRecord := {
  cf_Schema : string; cf_Binding : createFenceBinding; cf_Cleanup : createFenceCleanupIdentity; cf_Baseline : CreateInventory;
  cf_Token : string; cf_Phase : string; cf_Intent : string; cf_IssueID : string; cf_StartedAt : Z; cf_IssuedAt : option Z;
  cf_LaunchObservedAt : option Z; cf_CreatedVMUUID : string; cf_ProtectionFailureAt : option Z; cf_RollbackAt : option Z;
  cf_DependentUnresolved : bool; cf_DependentsResolvedAt : option Z; cf_ObservedAt : option Z; cf_ObservedVMUUID : string;
  cf_FloatingIPName : string; cf_PublicIPv4 : string; cf_CleanupResolvedAt : option Z; cf_CleanupVMUUID : string;
  cf_CleanupFloatingIPName : string; cf_CleanupPublicIPv4 : string; cf_CleanupResolutions : list FencedCreateCleanupResolution;
  cf_BaseFirewallAssignment : option baseFirewallAssignmentRecord; cf_TerminalCleanup : option terminalCleanupRecord;
  cf_LegacyV2 : bool; cf_LegacyV2BaseFirewallMayBeIssued : bool; cf_LegacyV2FloatingIPMayBeIssued : bool
}.
#[export] Instance eta_createFenceRecord : Eta createFenceRecord := fun r =>
  Build_createFenceRecord (cf_Schema r) (cf_Binding r) (cf_Cleanup r) (cf_Baseline r) (cf_Token r) (cf_Phase r) (cf_Intent r)
    (cf_IssueID r) (cf_StartedAt r) (cf_IssuedAt r) (cf_LaunchObservedAt r) (cf_CreatedVMUUID r) (cf_ProtectionFailureAt r)
    (cf_RollbackAt r) (cf_DependentUnresolved r) (cf_DependentsResolvedAt r) (cf_ObservedAt r) (cf_ObservedVMUUID r)
    (cf_FloatingIPName r) (cf_PublicIPv4 r) (cf_CleanupResolvedAt r) (cf_CleanupVMUUID r) (cf_CleanupFloatingIPName r)
    (cf_CleanupPublicIPv4 r) (cf_CleanupResolutions r) (cf_BaseFirewallAssignment r) (cf_TerminalCleanup r) (cf_LegacyV2 r)
    (cf_LegacyV2BaseFirewallMayBeIssued r) (cf_LegacyV2FloatingIPMayBeIssued r).
#[export] Instance createFenceRecord_eq_dec : EqDecision createFenceRecord.
Proof. solve_decision. Defined.
Definition zero_record : createFenceRecord :=
  Build_createFenceRecord "" zero_binding zero_cleanup empty_inventory "" "" "" "" 0 None None "" None None false None None "" "" ""
    None "" "" "" [] None None false false false.

Section Codecs.
Context `{TT : TimeText}.

Definition terminalCleanup_codec : codec terminalCleanupRecord :=
  struct_codec (Build_terminalCleanupRecord 0 "" "" "" "")
    ["observedAt" :=: time_codec # tc_ObservedAt; "vmUUID" :=: string_codec # tc_VMUUID;
     "floatingIPName" :=: string_codec # tc_FloatingIPName; "publicIPv4" :=: string_codec # tc_PublicIPv4;
     "firewallUUID" :=: string_codec # tc_FirewallUUID].
#[export] Instance terminalCleanup_codec_ok : CodecOk terminalCleanup_codec.
Proof. struct_ok. Qed.

Definition assignment_codec : codec baseFirewallAssignmentRecord :=
  struct_codec (Build_baseFirewallAssignmentRecord "" "" "" "" 0 None None None)
    ["vmUUID" :=: string_codec # ba_VMUUID; "firewallUUID" :=: string_codec # ba_FirewallUUID; "phase" :=: string_codec # ba_Phase;
     "issueID" :=? string_codec # ba_IssueID; "intentAt" :=: time_codec # ba_IntentAt; "issuedAt" :=? ptr_codec time_codec # ba_IssuedAt;
     "rejectedAt" :=? ptr_codec time_codec # ba_RejectedAt; "observedAt" :=? ptr_codec time_codec # ba_ObservedAt].
#[export] Instance assignment_codec_ok : CodecOk assignment_codec.
Proof. struct_ok. Qed.

Definition record_codec : codec createFenceRecord :=
  struct_codec zero_record
    ["schema" :=: string_codec # cf_Schema; "binding" :=: binding_codec # cf_Binding; "cleanup" :=: cleanup_codec # cf_Cleanup;
     "baseline" :=: inventory_codec # cf_Baseline; "token" :=: string_codec # cf_Token; "phase" :=: string_codec # cf_Phase;
     "intent" :=? string_codec # cf_Intent; "issueID" :=? string_codec # cf_IssueID; "startedAt" :=: time_codec # cf_StartedAt;
     "issuedAt" :=? ptr_codec time_codec # cf_IssuedAt; "launchObservedAt" :=? ptr_codec time_codec # cf_LaunchObservedAt;
     "createdVMUUID" :=? string_codec # cf_CreatedVMUUID;
     "protectionFailureAt" :=? ptr_codec time_codec # cf_ProtectionFailureAt; "rollbackAt" :=? ptr_codec time_codec # cf_RollbackAt;
     "dependentUnresolved" :=? bool_codec # cf_DependentUnresolved;
     "dependentsResolvedAt" :=? ptr_codec time_codec # cf_DependentsResolvedAt;
     "observedAt" :=? ptr_codec time_codec # cf_ObservedAt; "observedVMUUID" :=? string_codec # cf_ObservedVMUUID;
     "floatingIPName" :=? string_codec # cf_FloatingIPName; "publicIPv4" :=? string_codec # cf_PublicIPv4;
     "cleanupResolvedAt" :=? ptr_codec time_codec # cf_CleanupResolvedAt; "cleanupVMUUID" :=? string_codec # cf_CleanupVMUUID;
     "cleanupFloatingIPName" :=? string_codec # cf_CleanupFloatingIPName;
     "cleanupPublicIPv4" :=? string_codec # cf_CleanupPublicIPv4;
     "cleanupResolutions" :=? list_codec resolution_codec # cf_CleanupResolutions;
     "baseFirewallAssignment" :=? ptr_codec assignment_codec # cf_BaseFirewallAssignment;
     "terminalCleanup" :=? ptr_codec terminalCleanup_codec # cf_TerminalCleanup;
     "legacyV2MutationFence" :=? bool_codec # cf_LegacyV2;
     "legacyV2BaseFirewallMayBeIssued" :=? bool_codec # cf_LegacyV2BaseFirewallMayBeIssued;
     "legacyV2FloatingIPMayBeIssued" :=? bool_codec # cf_LegacyV2FloatingIPMayBeIssued].
#[export] Instance record_codec_ok : CodecOk record_codec.
Proof. struct_ok. Qed.
End Codecs.

(** ** Checks *)

(** [t != nil && !t.IsZero()]. *)
Definition time_set (t : option Z) : bool := match t with Some t => negb (t =? 0) | None => false end.
Definition is_nil {A} (x : option A) : bool := match x with None => true | Some _ => false end.

(** [sort.StringsAreSorted]. *)
Fixpoint StringsAreSorted (l : list string) : bool :=
  match l with
  | x :: ((y :: _) as r) => negb (String.ltb y x) && StringsAreSorted r
  | _ => true
  end.
Fixpoint repeats (l : list string) : bool :=
  match l with
  | x :: ((y :: _) as r) => (x == y) || repeats r
  | _ => false
  end.
Definition validateEntries (entries : list string) : goerr :=
  if Nat.ltb MaxCreateInventoryEntries (List.length entries) then Some (Msg "inventory has too many entries")
  else if negb (StringsAreSorted entries) then Some (Msg "inventory is not sorted")
  else if existsb (fun v => (v == "") || Nat.ltb 128 (String.length v)) entries || repeats entries
  then Some (Msg "inventory contains an empty, oversized, or duplicate identity")
  else None.
Fixpoint validateAssignments (inventory : CreateInventory) (previous : option CreateFloatingIPAssignment) (l : list CreateFloatingIPAssignment) : goerr :=
  match l with
  | [] => None
  | a :: r =>
      if (fa_Identity a == "") || Nat.ltb 128 (String.length (fa_Identity a)) || negb (createFenceVMUUIDPattern (fa_VMUUID a))
         || (fa_VMUUID a != ToLower (fa_VMUUID a))
         || (match public_IPv4 (fa_Address a) with Some p => IPv4_String p != fa_Address a | None => true end)
         || (fa_BillingAccountID a <=? 0) || Nat.ltb 128 (String.length (fa_Name a))
      then Some (Msg "target floating-IP inventory contains a malformed assignment")
      else if negb (bool_decide (fa_VMUUID a ∈ inv_TargetVMs inventory)) then Some (Msg "target floating-IP assignment references non-target VM")
      else if negb (bool_decide (fa_Identity a ∈ inv_FloatingIPs inventory)) then Some (Msg "target floating-IP assignment is absent from the complete floating-IP baseline")
      else if match previous with
              | Some p => String.ltb (fa_VMUUID a) (fa_VMUUID p) || ((fa_VMUUID p == fa_VMUUID a) && negb (String.ltb (fa_Identity p) (fa_Identity a)))
              | None => false
              end
      then Some (Msg "target floating-IP inventory is unsorted or contains a duplicate assignment")
      else validateAssignments inventory (Some a) r
  end.

Section Checks.
Context `{JT : JSONText}.

Definition validateCreateInventory (inventory : CreateInventory) : goerr :=
  if Nat.ltb MaxCreateInventoryEncodedBytes (String.length (Marshal inventory_codec inventory)) then Some (Msg "create inventory exceeds the safe encoded bound")
  else guard! validateEntries (inv_VMs inventory) in
  guard! validateEntries (inv_PotentialVMs inventory) in
  guard! validateEntries (inv_TargetVMs inventory) in
  guard! validateEntries (inv_FloatingIPs inventory) in
  if negb (forallb (fun v => bool_decide (v ∈ inv_VMs inventory)) (inv_PotentialVMs inventory)) then Some (Msg "potential VM identity is absent from the complete VM baseline")
  else if negb (forallb (fun v => bool_decide (v ∈ inv_PotentialVMs inventory)) (inv_TargetVMs inventory)) then Some (Msg "target VM identity is absent from the potential VM baseline")
  else if Nat.ltb MaxCreateTargetFloatingIPAssignments (List.length (inv_TargetFloatingIPs inventory)) then Some (Msg "target floating-IP inventory exceeds its bound")
  else validateAssignments inventory None (inv_TargetFloatingIPs inventory).
End Checks.

(** ** Cleanup receipts *)

Definition normalizeCleanupResolution (resolution : FencedCreateCleanupResolution) : result FencedCreateCleanupResolution :=
  let resolution := resolution <| cr_VMUUID := ToLower (cr_VMUUID resolution) |> in
  if negb (createFenceVMUUIDPattern (cr_VMUUID resolution)) || (cr_FloatingIPName resolution == "") || Nat.ltb 255 (String.length (cr_FloatingIPName resolution))
  then Err (Msg "cleanup resolution is missing a canonical VM UUID or floating-IP name")
  else match public_IPv4 (cr_PublicIPv4 resolution) with
  | None => Err (Msg "cleanup resolution has invalid public IPv4")
  | Some publicIP => Ok (resolution <| cr_PublicIPv4 := IPv4_String publicIP |>)
  end.

(** [sort.Slice] by VM UUID. *)
Fixpoint insert_resolution (x : FencedCreateCleanupResolution) (l : list FencedCreateCleanupResolution) : list FencedCreateCleanupResolution :=
  match l with
  | [] => [x]
  | y :: r => if String.ltb (cr_VMUUID x) (cr_VMUUID y) then x :: l else y :: insert_resolution x r
  end.
Definition sort_resolutions (l : list FencedCreateCleanupResolution) : list FencedCreateCleanupResolution := foldr insert_resolution [] l.

Definition appendCleanupResolution (resolutions : list FencedCreateCleanupResolution) (resolution : FencedCreateCleanupResolution)
    : result (list FencedCreateCleanupResolution) :=
  try! resolution := normalizeCleanupResolution resolution in
  match List.find (fun existing => cr_VMUUID existing == cr_VMUUID resolution) resolutions with
  | Some existing => if existing != resolution then Err (Msg "cleanup receipt for VM changed dependent identity") else Ok resolutions
  | None =>
      if Nat.leb MaxCreateCleanupResolutions (List.length resolutions) then Err (Msg "internal rollback cleanup history exceeds its safe bound")
      else Ok (sort_resolutions (resolutions ++ [resolution]))
  end.

(** [now] is the answer of the [time.Now] that the source reads here. *)
Definition applyCleanupResolution (record : createFenceRecord) (resolution : FencedCreateCleanupResolution) (now : Z) : result createFenceRecord :=
  try! resolution := normalizeCleanupResolution resolution in
  try! resolutions := appendCleanupResolution (cf_CleanupResolutions record) resolution in
  Ok (record <| cf_CleanupResolvedAt := Some now |> <| cf_CleanupVMUUID := cr_VMUUID resolution |>
        <| cf_CleanupFloatingIPName := cr_FloatingIPName resolution |> <| cf_CleanupPublicIPv4 := cr_PublicIPv4 resolution |>
        <| cf_CleanupResolutions := resolutions |>).

Definition cleanupResolutionStored (record : createFenceRecord) (resolution : FencedCreateCleanupResolution) : bool :=
  existsb (fun existing => existing == resolution) (cf_CleanupResolutions record).

(** ** Helpers on records *)

Definition newTerminalCleanupRecord (record : createFenceRecord) (observedAt : Z) : terminalCleanupRecord :=
  Build_terminalCleanupRecord observedAt (cf_ObservedVMUUID record) (cf_FloatingIPName record) (cf_PublicIPv4 record)
    (ci_FirewallUUID (cf_Cleanup record)).
Definition terminalCleanupConverged (r : createFenceRecord) : bool :=
  match cf_TerminalCleanup r with
  | None => false
  | Some marker =>
      (cf_Phase r == createFenceMaterialized) && negb (tc_ObservedAt marker =? 0)
      && (cf_ObservedVMUUID r != "") && (tc_VMUUID marker == cf_ObservedVMUUID r)
      && (cf_FloatingIPName r != "") && (tc_FloatingIPName marker == cf_FloatingIPName r)
      && (cf_PublicIPv4 r != "") && (tc_PublicIPv4 marker == cf_PublicIPv4 r)
      && (ci_FirewallUUID (cf_Cleanup r) != "") && (tc_FirewallUUID marker == ci_FirewallUUID (cf_Cleanup r))
  end.
Definition validateTerminalCleanupTarget (record : createFenceRecord) (token vmUUID : string) : goerr :=
  if (token == "") || (cf_Token record != token) then Some (Msg "durable VM create token changed before recording terminal cleanup")
  else if (cf_Phase record != createFenceMaterialized) || (vmUUID == "") || (cf_ObservedVMUUID record != vmUUID) || negb (is_nil (cf_RollbackAt record))
  then Some (Msg "terminal cleanup can only be recorded for the materialized VM")
  else None.
Definition newBaseFirewallAssignmentIntent (record : createFenceRecord) (vmUUID : string) (now : Z) : baseFirewallAssignmentRecord :=
  Build_baseFirewallAssignmentRecord (ToLower vmUUID) (ci_FirewallUUID (cf_Cleanup record)) FirewallAssignmentIntent "" now None None None.
Definition baseFirewallAssignmentMatches (value : option baseFirewallAssignmentRecord) (vmUUID firewallUUID : string) : bool :=
  match value with
  | Some v => (ba_VMUUID v == ToLower vmUUID) && (ba_FirewallUUID v == firewallUUID)
  | None => false
  end.

Record FirewallAssignmentFence := { ff_VMUUID : string; ff_FirewallUUID : string; ff_Phase : string; ff_IssueID : string }.
#[export] Instance FirewallAssignmentFence_eq_dec : EqDecision FirewallAssignmentFence.
Proof. solve_decision. Defined.
Definition zero_assignment_fence : FirewallAssignmentFence := Build_FirewallAssignmentFence "" "" "" "".
Definition firewallAssignmentFenceFromRecord (record : createFenceRecord) : FirewallAssignmentFence :=
  match cf_BaseFirewallAssignment record with
  | None => zero_assignment_fence
  | Some a => Build_FirewallAssignmentFence (ba_VMUUID a) (ba_FirewallUUID a) (ba_Phase a) (ba_IssueID a)
  end.

Record createFence := {
  f_Token : string; f_StartedAt : Z; f_Baseline : CreateInventory; f_Issued : bool; f_IssuedAt : Z; f_Intent : string; f_IssueID : string;
  f_CreatedVMUUID : string; f_HasCleanupHistory : bool; f_RollbackChosen : bool; f_BaseFirewallAssignment : FirewallAssignmentFence
}.
Definition zero_createFence : createFence := Build_createFence "" 0 empty_inventory false 0 "" "" "" false false zero_assignment_fence.
Definition fenceFromRecord (record : createFenceRecord) : createFence :=
  Build_createFence (cf_Token record) (cf_StartedAt record) (cf_Baseline record) (cf_Phase record != createFenceReserved)
    (default 0 (cf_IssuedAt record)) (cf_Intent record) (cf_IssueID record) (cf_CreatedVMUUID record)
    (negb (Nat.eqb (List.length (cf_CleanupResolutions record)) 0))
    ((cf_Phase record == createFenceIssued) && negb (is_nil (cf_RollbackAt record)))
    (firewallAssignmentFenceFromRecord record).

Definition newCreateFenceRecord (binding : createFenceBinding) (cleanup : createFenceCleanupIdentity) (baseline : CreateInventory) (now : Z)
    (nonce : result string) : result createFenceRecord :=
  match nonce with
  | Err e => Err (Wrap "generating durable VM create fence token" [e])
  | Ok token => Ok (zero_record <| cf_Schema := createFenceSchema |> <| cf_Binding := binding |> <| cf_Cleanup := cleanup |>
      <| cf_Baseline := baseline |> <| cf_Token := token |> <| cf_Phase := createFenceReserved |> <| cf_StartedAt := now |>
      <| cf_BaseFirewallAssignment := Some (Build_baseFirewallAssignmentRecord "" (ci_FirewallUUID cleanup) FirewallAssignmentIntent "" now None None None) |>)
  end.

(** A VM as the provider sees it: the fields that the fence compares. *)
Record VM := {
  vm_UUID : string; vm_Name : string; vm_ClusterName : string; vm_BillingAccountID : Z; vm_NodeClaimName : string; vm_Location : string;
  vm_PublicIPv4 : string; vm_FloatingIPName : string
}.

Definition validateMaterializedVM (record : createFenceRecord) (vm : option VM) : goerr :=
  match vm with
  | None => Some (Msg "materialized VM does not match the exact durable create identity")
  | Some vm =>
    let cleanup := cf_Cleanup record in
    if negb (createFenceVMUUIDPattern (vm_UUID vm)) || (vm_Name vm != ci_VMName cleanup) || (vm_ClusterName vm != ci_ClusterName cleanup)
       || (vm_NodeClaimName vm != ci_NodeClaimName cleanup) || (vm_Location vm != ci_Location cleanup)
       || (vm_BillingAccountID vm != ci_BillingAccountID cleanup)
    then Some (Msg "materialized VM does not match the exact durable create identity")
    else if (vm_FloatingIPName vm == "") || (vm_PublicIPv4 vm == "") then Some (Msg "materialized VM lacks durable floating-IP name or address")
    else if match cf_BaseFirewallAssignment record with
            | None => true
            | Some a => (ba_Phase a != FirewallAssignmentObserved) || (ba_VMUUID a != ToLower (vm_UUID vm)) || (ba_FirewallUUID a != ci_FirewallUUID cleanup)
            end
    then Some (Msg "materialized VM lacks a durable observed base-firewall assignment")
    else match public_IPv4 (vm_PublicIPv4 vm) with
    | None => Some (Msg "materialized VM has invalid public IPv4")
    | Some publicIP =>
        if (cf_ObservedVMUUID record != "") && ((cf_ObservedVMUUID record != ToLower (vm_UUID vm)) || (cf_FloatingIPName record != vm_FloatingIPName vm)
             || (cf_PublicIPv4 record != IPv4_String publicIP))
        then Some (Msg "materialized VM identity changed")
        else None
    end
  end.
