(* ===== verification/CreateFenceDecode.v ===== *)
(** * The durable create fence of the Karpenter provider: reading records

    Models the readers of modules/karpenter-provider/pkg/provider/create_fence.go: the checks of
    [decodeCreateFence], the migration of version 2 records, the operator's resolution and the
    floating-IP update receipt. *)

From S2P Require Import Prelude GoErrors CSIFence GoJSON GoNet CreateFence.

(** ** The checks of decodeCreateFence *)

Definition validPhase (record : createFenceRecord) : bool :=
  ((cf_Phase record == createFenceReserved) && (cf_IssueID record == "") && is_nil (cf_IssuedAt record)
     && is_nil (cf_ObservedAt record) && (cf_ObservedVMUUID record == ""))
  || ((cf_Phase record == createFenceIssued) && createFenceKeyHashPattern (cf_IssueID record) && time_set (cf_IssuedAt record)
     && is_nil (cf_ObservedAt record) && (cf_ObservedVMUUID record == ""))
  || ((cf_Phase record == createFenceRejected) && createFenceKeyHashPattern (cf_IssueID record) && time_set (cf_IssuedAt record)
     && is_nil (cf_ObservedAt record) && (cf_ObservedVMUUID record == ""))
  || ((cf_Phase record == createFenceMaterialized) && createFenceKeyHashPattern (cf_IssueID record) && time_set (cf_IssuedAt record)
     && time_set (cf_ObservedAt record) && createFenceVMUUIDPattern (cf_ObservedVMUUID record)
     && (cf_FloatingIPName record != "") && (cf_PublicIPv4 record != "")).
Definition validIntent (record : createFenceRecord) : bool :=
  ((cf_Phase record == createFenceReserved) && (cf_Intent record == ""))
  || ((cf_Phase record != createFenceReserved)
      && ((cf_Intent record == CreateAuthorizationPost) || (cf_Intent record == CreateAuthorizationAdoption))).
Definition validCreatedIdentity (record : createFenceRecord) : bool :=
  (is_nil (cf_LaunchObservedAt record) && (cf_CreatedVMUUID record == ""))
  || (time_set (cf_LaunchObservedAt record) && createFenceVMUUIDPattern (cf_CreatedVMUUID record)
      && (cf_CreatedVMUUID record == ToLower (cf_CreatedVMUUID record))).
Definition validBaseFirewallAssignment (record : createFenceRecord) : bool :=
  match cf_BaseFirewallAssignment record with
  | None => false
  | Some a =>
      let validIdentity := (ba_FirewallUUID a == ci_FirewallUUID (cf_Cleanup record)) && negb (ba_IntentAt a =? 0)
        && (((cf_CreatedVMUUID record == "") && (ba_VMUUID a == ""))
            || ((cf_CreatedVMUUID record != "") && (ba_VMUUID a == cf_CreatedVMUUID record))) in
      if ba_Phase a == FirewallAssignmentIntent then
        validIdentity && (ba_IssueID a == "") && is_nil (ba_IssuedAt a) && is_nil (ba_RejectedAt a) && is_nil (ba_ObservedAt a)
      else if ba_Phase a == FirewallAssignmentIssued then
        validIdentity && createFenceKeyHashPattern (ba_IssueID a) && time_set (ba_IssuedAt a) && is_nil (ba_RejectedAt a) && is_nil (ba_ObservedAt a)
      else if ba_Phase a == FirewallAssignmentRejected then
        validIdentity && createFenceKeyHashPattern (ba_IssueID a) && time_set (ba_IssuedAt a) && time_set (ba_RejectedAt a) && is_nil (ba_ObservedAt a)
      else if ba_Phase a == FirewallAssignmentObserved then
        validIdentity && (ba_VMUUID a != "") && createFenceKeyHashPattern (ba_IssueID a) && time_set (ba_IssuedAt a) && is_nil (ba_RejectedAt a) && time_set (ba_ObservedAt a)
      else false
  end.
Definition validRollback (record : createFenceRecord) : bool :=
  is_nil (cf_RollbackAt record)
  || (time_set (cf_RollbackAt record) && (cf_Phase record == createFenceIssued) && (cf_CreatedVMUUID record != "")).
Definition validProtectionFailure (record : createFenceRecord) : bool :=
  is_nil (cf_ProtectionFailureAt record)
  || (time_set (cf_ProtectionFailureAt record) && (cf_Phase record == createFenceIssued) && (cf_CreatedVMUUID record != "")
      && is_nil (cf_RollbackAt record)).
Definition validCleanupResolution (record : createFenceRecord) : bool :=
  (is_nil (cf_CleanupResolvedAt record) && (cf_CleanupVMUUID record == "") && (cf_CleanupFloatingIPName record == "")
     && (cf_CleanupPublicIPv4 record == ""))
  || (time_set (cf_CleanupResolvedAt record) && createFenceVMUUIDPattern (cf_CleanupVMUUID record)
     && (cf_CleanupFloatingIPName record != "") && (cf_CleanupPublicIPv4 record != "")).
(** The binding, the cleanup identity, the token and the start time. *)
Definition validLaunchIdentity (record : createFenceRecord) : bool :=
  let b := cf_Binding record in
  let c := cf_Cleanup record in
  (cb_NodeClaimUID b != "") && (cb_IdempotencyKeyHash b != "") && (cb_RequestHash b != "") && (cb_SpecHash b != "") && (cb_BootstrapHash b != "")
  && (ci_ClusterName c != "") && (ci_Location c != "") && (ci_NetworkUUID c != "") && (ci_ControlPlaneVIP c != "")
  && (ci_PrivateLoadBalancerPoolStart c != "") && (ci_PrivateLoadBalancerPoolStop c != "") && (ci_FirewallUUID c != "")
  && (ci_FirewallProfile c == EffectiveFirewallProfile (ci_FirewallProfile c)) && (ci_NodeClaimName c != "") && (ci_VMName c != "")
  && negb (ci_BillingAccountID c <=? 0) && createFenceKeyHashPattern (ci_OwnershipKeyHash c)
  && (cf_Token record != "") && negb (cf_StartedAt record =? 0).
Definition public_profile (profile : string) : bool :=
  (profile == FirewallProfilePublicNodeLoadBalancer) || (profile == FirewallProfilePublicNodeLocal).

(** The materialized record names its launch anchor, in canonical form. *)
Definition checkMaterialized (record : createFenceRecord) : goerr :=
  if cf_Phase record == createFenceMaterialized then
    if (cf_CreatedVMUUID record == "") || (cf_CreatedVMUUID record != cf_ObservedVMUUID record) || negb (is_nil (cf_RollbackAt record))
       || match cf_BaseFirewallAssignment record with Some a => ba_Phase a != FirewallAssignmentObserved | None => true end
    then Some (Msg "materialized VM create fence does not match its launch anchor")
    else match normalizeCleanupResolution
                 (Build_FencedCreateCleanupResolution (cf_ObservedVMUUID record) (cf_FloatingIPName record) (cf_PublicIPv4 record) false) with
         | Err _ => Some (Msg "durable VM create fence has non-canonical materialized identity")
         | Ok canonical =>
             if (cr_VMUUID canonical != cf_ObservedVMUUID record) || (cr_PublicIPv4 canonical != cf_PublicIPv4 record)
             then Some (Msg "durable VM create fence has non-canonical materialized identity") else None
         end
  else None.
(** What the other phases exclude, and the bound on the history. *)
Definition assignment_phase_is (record : createFenceRecord) (phase : string) : bool :=
  match cf_BaseFirewallAssignment record with Some a => ba_Phase a == phase | None => false end.
Definition checkPhaseContents (record : createFenceRecord) : goerr :=
  if (cf_Phase record == createFenceIssued) && assignment_phase_is record FirewallAssignmentIntent
  then Some (Msg "issued VM create fence retains an unissued base-firewall intent")
  else if Nat.ltb MaxCreateCleanupResolutions (List.length (cf_CleanupResolutions record))
  then Some (Msg "durable VM create fence cleanup history exceeds its bound")
  else if negb (Nat.eqb (List.length (cf_CleanupResolutions record)) 0) && (cf_CleanupVMUUID record == "")
  then Some (Msg "durable VM create fence cleanup history lacks an active exact receipt")
  else if (cf_Phase record == createFenceReserved) && ((cf_CreatedVMUUID record != "") || negb (is_nil (cf_RollbackAt record))
            || negb (assignment_phase_is record FirewallAssignmentIntent))
  then Some (Msg "reserved VM create fence cannot contain accepted-launch identities")
  else if (cf_Phase record == createFenceRejected) && ((cf_CreatedVMUUID record != "") || negb (is_nil (cf_RollbackAt record))
            || negb (assignment_phase_is record FirewallAssignmentRejected))
  then Some (Msg "rejected VM create fence cannot contain an accepted-launch identity")
  else None.
(** Receipts are canonical and in strict order of their VM. *)
Fixpoint validHistory (previous : option string) (l : list FencedCreateCleanupResolution) : bool :=
  match l with
  | [] => true
  | r :: rest =>
      match normalizeCleanupResolution r with Ok canonical => canonical == r | Err _ => false end
      && match previous with Some p => String.ltb p (cr_VMUUID r) | None => true end
      && validHistory (Some (cr_VMUUID r)) rest
  end.
Definition activeReceiptStored (record : createFenceRecord) : bool :=
  existsb (fun r => (cr_VMUUID r == cf_CleanupVMUUID record) && (cr_FloatingIPName r == cf_CleanupFloatingIPName record)
                    && (cr_PublicIPv4 r == cf_CleanupPublicIPv4 record)) (cf_CleanupResolutions record).
Definition createdReceipt (record : createFenceRecord) : bool :=
  existsb (fun r => cr_VMUUID r == cf_CreatedVMUUID record) (cf_CleanupResolutions record).
Definition checkHistory (record : createFenceRecord) : goerr :=
  if negb (validHistory None (cf_CleanupResolutions record))
  then Some (Msg "durable VM create fence cleanup history contains a malformed, non-canonical, unsorted, or duplicate receipt")
  else if (cf_CleanupVMUUID record != "") && negb (activeReceiptStored record)
  then Some (Msg "durable VM create fence active cleanup identity is absent from exact receipt history")
  else None.
(** A rollback has exactly one disposition of its dependents. *)
Definition checkDependents (record : createFenceRecord) : goerr :=
  if is_nil (cf_RollbackAt record) && (cf_DependentUnresolved record || negb (is_nil (cf_DependentsResolvedAt record)))
  then Some (Msg "durable VM create fence has dependent disposition without a rollback decision")
  else if negb (is_nil (cf_DependentsResolvedAt record)) && negb (time_set (cf_DependentsResolvedAt record))
  then Some (Msg "durable VM create fence has an invalid dependent absence time")
  else if negb (is_nil (cf_RollbackAt record))
          && negb (Nat.eqb (Nat.b2n (createdReceipt record) + Nat.b2n (cf_DependentUnresolved record)
                            + Nat.b2n (negb (is_nil (cf_DependentsResolvedAt record)))) 1)
  then Some (Msg "durable VM create fence rollback dependent state does not have exactly one durable disposition")
  else None.

(** ** Migration of version 2 records *)

Section Decode.
Context `{PE : ProviderEnv, JT : JSONText, TT : TimeText}.

(** [hex.EncodeToString(sum[:16])]: the first 32 digits. *)
Definition legacyBaseFirewallIssueID (record : createFenceRecord) : string :=
  take_string 32 (sha256_hex ("legacy-base-firewall" +:+ String "000"%char (cf_Token record +:+ String "000"%char
    (cf_CreatedVMUUID record +:+ String "000"%char (ci_FirewallUUID (cf_Cleanup record)))))).
Definition copyTime (value : option Z) (fallback : Z) : option Z := if time_set value then value else Some fallback.

Definition migrateLegacyCreateFence (record : createFenceRecord) : createFenceRecord :=
  let record := record <| cf_Schema := createFenceSchema |> <| cf_LegacyV2 := true |>
    <| cf_LegacyV2BaseFirewallMayBeIssued := cf_Phase record == createFenceIssued |>
    <| cf_LegacyV2FloatingIPMayBeIssued := (cf_Phase record == createFenceIssued) && (cf_CreatedVMUUID record != "") |> in
  let intentAt := cf_StartedAt record in
  let issueID := legacyBaseFirewallIssueID record in
  let firewallUUID := ci_FirewallUUID (cf_Cleanup record) in
  let issuedAt := copyTime (cf_IssuedAt record) intentAt in
  if cf_Phase record == createFenceReserved then
    record <| cf_BaseFirewallAssignment := Some (Build_baseFirewallAssignmentRecord "" firewallUUID FirewallAssignmentIntent "" intentAt None None None) |>
  else if cf_Phase record == createFenceIssued then
    record <| cf_BaseFirewallAssignment := Some (Build_baseFirewallAssignmentRecord (cf_CreatedVMUUID record) firewallUUID
                                                   FirewallAssignmentIssued issueID intentAt issuedAt None None) |>
  else if cf_Phase record == createFenceRejected then
    record <| cf_BaseFirewallAssignment := Some (Build_baseFirewallAssignmentRecord "" firewallUUID FirewallAssignmentRejected issueID
                                                   intentAt issuedAt issuedAt None) |>
  else if cf_Phase record == createFenceMaterialized then
    record <| cf_BaseFirewallAssignment := Some (Build_baseFirewallAssignmentRecord (cf_CreatedVMUUID record) firewallUUID
                                                   FirewallAssignmentObserved issueID intentAt issuedAt None (copyTime (cf_ObservedAt record) intentAt)) |>
  else record.

(** ** decodeCreateFence *)

(** [strings.HasPrefix(nodeClaimName, nodePoolName+"-")] with something after the dash. *)
Definition validateNodePoolClaimIdentity (nodePoolName nodeClaimName : string) : goerr :=
  if negb (IsDNS1123Label nodePoolName) then Some (Msg "NodePool name is not a DNS-1123 hostname label")
  else if negb (IsDNS1123Label nodeClaimName) then Some (Msg "NodeClaim name is not a DNS-1123 hostname label")
  else if negb (HasPrefix nodeClaimName (nodePoolName +:+ "-")) || Nat.eqb (String.length nodeClaimName) (String.length (nodePoolName +:+ "-"))
  then Some (Msg "NodeClaim name must use the NodePool-generated prefix followed by a nonempty random suffix")
  else None.

(** Every check after unmarshalling and migration. *)
Definition validateRecord (record : createFenceRecord) : goerr :=
  let cleanup := cf_Cleanup record in
  if (cf_Schema record != createFenceSchema) || negb (validPhase record) || negb (validIntent record) || negb (validCreatedIdentity record)
     || negb (validBaseFirewallAssignment record) || negb (validRollback record) || negb (validProtectionFailure record)
     || negb (validCleanupResolution record) || negb (validLaunchIdentity record)
  then Some (Msg "durable VM create fence has incomplete launch identity")
  else if ((ci_FirewallProfile cleanup == FirewallProfilePrivateWorker) && (ci_NodePoolName cleanup != ""))
          || (public_profile (ci_FirewallProfile cleanup) && (ci_NodePoolName cleanup == ""))
  then Some (Msg "durable VM create fence has invalid firewall-profile/NodePool binding")
  else guard! (if public_profile (ci_FirewallProfile cleanup)
               then match validateNodePoolClaimIdentity (ci_NodePoolName cleanup) (ci_NodeClaimName cleanup) with
                    | Some e => Some (Wrap "durable VM create fence has invalid NodePool/NodeClaim binding" [e])
                    | None => None
                    end
               else None) in
  guard! match validateCreateInventory (cf_Baseline record) with
         | Some e => Some (Wrap "durable VM create fence baseline" [e])
         | None => None
         end in
  guard! checkMaterialized record in
  guard! checkPhaseContents record in
  guard! checkHistory record in
  checkDependents record.

Definition decodeCreateFence (value : string) : result createFenceRecord :=
  if value == "" then Err (Msg "durable VM create fence is missing or malformed")
  else match Unmarshal record_codec value with
  | Err _ => Err (Msg "durable VM create fence is missing or malformed")
  | Ok record =>
      let record := if cf_Schema record == legacyCreateFenceSchema then migrateLegacyCreateFence record else record in
      check! validateRecord record in Ok record
  end.

Definition parseCreateFence (value : string) (expected : createFenceBinding) : result createFenceRecord :=
  try! record := decodeCreateFence value in
  if cf_Binding record != expected then Err (Msg "durable VM create fence does not match the exact NodeClaim launch identity")
  else Ok record.

Definition createFenceHash (value : string) : string := sha256_hex value.
End Decode.

(** ** The operator's resolution *)

Record createFenceOperatorResolution := { or_Schema : string; or_IssueID : string; or_Result : string; or_VMUUID : string }.
#[export] Instance eta_createFenceOperatorResolution : Eta createFenceOperatorResolution := fun r =>
  Build_createFenceOperatorResolution (or_Schema r) (or_IssueID r) (or_Result r) (or_VMUUID r).
Definition operatorResolution_codec : codec createFenceOperatorResolution :=
  struct_codec (Build_createFenceOperatorResolution "" "" "" "")
    ["schema" :=: string_codec # or_Schema; "issueID" :=: string_codec # or_IssueID; "result" :=: string_codec # or_Result;
     "vmUUID" :=? string_codec # or_VMUUID].
#[export] Instance operatorResolution_codec_ok : CodecOk operatorResolution_codec.
Proof. struct_ok. Qed.
Definition createFenceResolutionVM : string := "vm".
Definition createFenceResolutionNoResult : string := "no-result".

Section OperatorResolution.
Context `{JT : JSONText}.

Definition decodeCreateFenceOperatorResolution (value : string) : result createFenceOperatorResolution :=
  if (value == "") || Nat.ltb 1024 (String.length value) then Err (Msg "create-fence operator resolution is empty or oversized")
  else match parse_json value with
  | Some (JObj fields) =>
      if negb (forallb (fun kv => bool_decide (kv.1 ∈ ["schema"; "issueID"; "result"; "vmUUID"])) fields)
      then Err (Msg "create-fence operator resolution contains unknown field")
      else match c_dec operatorResolution_codec (c_zero operatorResolution_codec) (JObj fields) with
      | Err e => Err (Wrap "decoding create-fence operator resolution" [e])
      | Ok resolution =>
          if (or_Schema resolution != createFenceResolutionSchema) || negb (createFenceKeyHashPattern (or_IssueID resolution))
          then Err (Msg "create-fence operator resolution has invalid schema or issue identity")
          else if or_Result resolution == createFenceResolutionVM then
            let resolution := resolution <| or_VMUUID := ToLower (or_VMUUID resolution) |> in
            if negb (createFenceVMUUIDPattern (or_VMUUID resolution))
            then Err (Msg "VM create-fence resolution requires a canonical VM UUID") else Ok resolution
          else if or_Result resolution == createFenceResolutionNoResult then
            if or_VMUUID resolution != "" then Err (Msg "no-result create-fence resolution cannot include a VM UUID") else Ok resolution
          else Err (Msg "unsupported create-fence operator result")
      end
  | Some JNull => Err (Msg "create-fence operator resolution must be a JSON object")
  | _ => Err (Msg "decoding create-fence operator resolution")
  end.
End OperatorResolution.

(** ** The floating-IP update receipt *)

Record FloatingIPUpdateFence := {
  uf_VMUUID : string; uf_Address : string; uf_Name : string; uf_BillingAccountID : Z; uf_Phase : string; uf_IssueID : string
}.
#[export] Instance FloatingIPUpdateFence_eq_dec : EqDecision FloatingIPUpdateFence.
Proof. solve_decision. Defined.

Record floatingIPUpdateRecord := {
  fu_Schema : string; fu_Binding : createFenceBinding; fu_AttemptToken : string; fu_VMUUID : string; fu_Address : string;
  fu_Name : string; fu_BillingAccountID : Z; fu_Phase : string; fu_IssueID : string; fu_IssuedAt : Z;
  fu_RejectedAt : option Z; fu_ObservedAt : option Z
}.
#[export] Instance eta_floatingIPUpdateRecord : Eta floatingIPUpdateRecord := fun r =>
  Build_floatingIPUpdateRecord (fu_Schema r) (fu_Binding r) (fu_AttemptToken r) (fu_VMUUID r) (fu_Address r) (fu_Name r)
    (fu_BillingAccountID r) (fu_Phase r) (fu_IssueID r) (fu_IssuedAt r) (fu_RejectedAt r) (fu_ObservedAt r).
#[export] Instance floatingIPUpdateRecord_eq_dec : EqDecision floatingIPUpdateRecord.
Proof. solve_decision. Defined.

Definition newFloatingIPUpdateFence (vmUUID address name : string) (billingAccountID : Z) : result FloatingIPUpdateFence :=
  let fence := Build_FloatingIPUpdateFence (ToLower vmUUID) address name billingAccountID "" "" in
  if negb (createFenceVMUUIDPattern (uf_VMUUID fence)) || (uf_Name fence == "") || Nat.ltb 128 (String.length (uf_Name fence))
     || (uf_BillingAccountID fence <=? 0)
  then Err (Msg "floating-IP update requires canonical VM, name, and billing identity")
  else match public_IPv4 (uf_Address fence) with
  | None => Err (Msg "floating-IP update requires canonical public IPv4 address")
  | Some parsed =>
      if IPv4_String parsed != uf_Address fence then Err (Msg "floating-IP update requires canonical public IPv4 address") else Ok fence
  end.
Definition validateFloatingIPUpdateFence (fence : FloatingIPUpdateFence) : goerr :=
  match newFloatingIPUpdateFence (uf_VMUUID fence) (uf_Address fence) (uf_Name fence) (uf_BillingAccountID fence) with
  | Err e => Some e
  | Ok desired =>
      if negb (createFenceKeyHashPattern (uf_IssueID fence))
         || ((uf_Phase fence != FloatingIPUpdateIssued) && (uf_Phase fence != FloatingIPUpdateRejected) && (uf_Phase fence != FloatingIPUpdateObserved))
         || (uf_VMUUID desired != uf_VMUUID fence)
      then Some (Msg "floating-IP update receipt has invalid phase or issue identity") else None
  end.
Definition floatingIPUpdateFenceFromRecord (record : floatingIPUpdateRecord) : FloatingIPUpdateFence :=
  Build_FloatingIPUpdateFence (fu_VMUUID record) (fu_Address record) (fu_Name record) (fu_BillingAccountID record) (fu_Phase record) (fu_IssueID record).
Definition floatingIPUpdateIdentityMatches (record : floatingIPUpdateRecord) (fence : FloatingIPUpdateFence) : bool :=
  (fu_VMUUID record == ToLower (uf_VMUUID fence)) && (fu_Address record == uf_Address fence) && (fu_Name record == uf_Name fence)
  && (fu_BillingAccountID record == uf_BillingAccountID fence).

Section FloatingIPUpdate.
Context `{JT : JSONText, TT : TimeText}.

Definition floatingIPUpdate_codec : codec floatingIPUpdateRecord :=
  struct_codec (Build_floatingIPUpdateRecord "" zero_binding "" "" "" "" 0 "" "" 0 None None)
    ["schema" :=: string_codec # fu_Schema; "binding" :=: binding_codec # fu_Binding; "attemptToken" :=: string_codec # fu_AttemptToken;
     "vmUUID" :=: string_codec # fu_VMUUID; "address" :=: string_codec # fu_Address; "name" :=: string_codec # fu_Name;
     "billingAccountID" :=: int64_codec # fu_BillingAccountID; "phase" :=: string_codec # fu_Phase; "issueID" :=: string_codec # fu_IssueID;
     "issuedAt" :=: time_codec # fu_IssuedAt; "rejectedAt" :=? ptr_codec time_codec # fu_RejectedAt;
     "observedAt" :=? ptr_codec time_codec # fu_ObservedAt].
#[export] Instance floatingIPUpdate_codec_ok : CodecOk floatingIPUpdate_codec.
Proof. struct_ok. Qed.

Definition validUpdateTerminal (record : floatingIPUpdateRecord) : bool :=
  ((fu_Phase record == FloatingIPUpdateIssued) && is_nil (fu_RejectedAt record) && is_nil (fu_ObservedAt record))
  || ((fu_Phase record == FloatingIPUpdateRejected) && time_set (fu_RejectedAt record) && is_nil (fu_ObservedAt record))
  || ((fu_Phase record == FloatingIPUpdateObserved) && time_set (fu_ObservedAt record) && is_nil (fu_RejectedAt record)).
Definition decodeFloatingIPUpdateRecord (value : string) (binding : createFenceBinding) (token : string) : result floatingIPUpdateRecord :=
  if value == "" then Err (Msg "durable floating-IP update fence is missing or malformed")
  else match Unmarshal floatingIPUpdate_codec value with
  | Err _ => Err (Msg "durable floating-IP update fence is missing or malformed")
  | Ok record =>
      if (fu_Schema record != floatingIPUpdateFenceSchema) || (fu_Binding record != binding) || (token == "") || (fu_AttemptToken record != token)
         || (fu_IssuedAt record =? 0) || negb (validUpdateTerminal record)
         || negb (is_nil (validateFloatingIPUpdateFence (floatingIPUpdateFenceFromRecord record)))
      then Err (Msg "durable floating-IP update fence has incomplete or changed identity") else Ok record
  end.
End FloatingIPUpdate.
