(* ===== verification/CreateFenceSteps.v ===== *)
(** * The transitions of the durable create fence

    Each operation of modules/karpenter-provider/pkg/provider/create_fence.go and each writer of
    create_fence_controller.go decides on the record it has just read, and then changes it. The
    decisions ([..._check]: an error, already stored, or go on) and the changes ([..._write]) are
    pure; the store and the controller run them between their reads and writes. *)

From S2P Require Import Prelude GoErrors CSIFence GoJSON GoNet CreateFence CreateFenceDecode.

(** The receipt of a record's base firewall, changed. *)
Definition update_assignment (f : baseFirewallAssignmentRecord -> baseFirewallAssignmentRecord) (record : createFenceRecord) : createFenceRecord :=
  record <| cf_BaseFirewallAssignment := option_map f (cf_BaseFirewallAssignment record) |>.

(** The tests on a caller's VM and issue. *)
Definition canonical_identity (vmUUID issueID : string) : bool := createFenceVMUUIDPattern vmUUID && createFenceKeyHashPattern issueID.
Definition terminal_phase (phase : string) : bool := (phase == FirewallAssignmentObserved) || (phase == FirewallAssignmentRejected).

(** ** Authorize *)

Definition authorize_check (record : createFenceRecord) (token intent : string) : goerr :=
  if (token == "") || (cf_Token record != token) then Some (Msg "NodeClaim durable VM create token changed before VM POST")
  else if (intent != CreateAuthorizationPost) && (intent != CreateAuthorizationAdoption)
  then Some (Msg "NodeClaim VM create authorization has invalid intent")
  else if (cf_Phase record != createFenceReserved) || negb (is_nil (cf_IssuedAt record)) || negb (is_nil (cf_RollbackAt record))
          || negb (Nat.eqb (List.length (cf_CleanupResolutions record)) 0)
  then Some (wrapS ErrCreateAttemptPending "NodeClaim immutable VM create attempt was already issued")
  else None.
Definition pre_vm_intent (record : createFenceRecord) : bool :=
  match cf_BaseFirewallAssignment record with
  | Some a => (ba_Phase a == FirewallAssignmentIntent) && (ba_VMUUID a == "") && (ba_FirewallUUID a == ci_FirewallUUID (cf_Cleanup record))
              && negb (ba_IntentAt a =? 0)
  | None => false
  end.
Definition authorize_write (record : createFenceRecord) (intent issueID assignmentIssueID : string) (now : Z) : createFenceRecord :=
  update_assignment (fun a => a <| ba_Phase := FirewallAssignmentIssued |> <| ba_IssueID := assignmentIssueID |> <| ba_IssuedAt := Some now |>)
    (record <| cf_Phase := createFenceIssued |> <| cf_Intent := intent |> <| cf_IssueID := issueID |> <| cf_IssuedAt := Some now |>).
(** The stored record is the one this invocation issued. *)
Definition issued_by (stored : createFenceRecord) (token intent issueID assignmentIssueID : string) (now : Z) : bool :=
  (cf_Token stored == token) && (cf_Phase stored == createFenceIssued) && (cf_Intent stored == intent) && (cf_IssueID stored == issueID)
  && (cf_IssuedAt stored == Some now)
  && match cf_BaseFirewallAssignment stored with
     | Some a => (ba_Phase a == FirewallAssignmentIssued) && (ba_IssueID a == assignmentIssueID)
     | None => false
     end.

(** ** RecordCreatedVM *)

Definition created_check (record : createFenceRecord) (token issueID vmUUID : string) : result bool :=
  if (token == "") || (cf_Token record != token) || (cf_IssueID record != issueID) || is_nil (cf_IssuedAt record)
  then Err (Msg "NodeClaim created VM does not match its exact issued attempt")
  else if cf_CreatedVMUUID record != "" then
    if (cf_CreatedVMUUID record == vmUUID) && time_set (cf_LaunchObservedAt record) then
      if baseFirewallAssignmentMatches (cf_BaseFirewallAssignment record) vmUUID (ci_FirewallUUID (cf_Cleanup record)) then Ok true
      else Err (Msg "NodeClaim created VM lacks its pre-issued base-firewall assignment receipt")
    else Err (Msg "NodeClaim created VM identity changed")
  else if (cf_Phase record != createFenceIssued) || negb (is_nil (cf_RollbackAt record))
  then Err (Msg "NodeClaim cannot anchor a created VM from phase or after rollback")
  else if match cf_BaseFirewallAssignment record with
          | Some a => (ba_Phase a != FirewallAssignmentIssued) || (ba_VMUUID a != "") || (ba_FirewallUUID a != ci_FirewallUUID (cf_Cleanup record))
                      || negb (createFenceKeyHashPattern (ba_IssueID a))
          | None => true
          end
  then Err (Msg "NodeClaim cannot anchor a VM without its pre-issued base-firewall assignment")
  else Ok false.
Definition created_write (record : createFenceRecord) (vmUUID : string) (now : Z) : createFenceRecord :=
  update_assignment (fun a => if ba_VMUUID a == "" then a <| ba_VMUUID := vmUUID |> else a)
    (record <| cf_CreatedVMUUID := vmUUID |> <| cf_LaunchObservedAt := Some now |>).
Definition created_accept (stored : createFenceRecord) (token issueID vmUUID : string) : bool :=
  (cf_Token stored == token) && (cf_IssueID stored == issueID) && (cf_CreatedVMUUID stored == vmUUID) && time_set (cf_LaunchObservedAt stored)
  && baseFirewallAssignmentMatches (cf_BaseFirewallAssignment stored) vmUUID (ci_FirewallUUID (cf_Cleanup stored)).
Definition created_lost (stored : createFenceRecord) : bool :=
  (cf_CreatedVMUUID stored != "") || (cf_Phase stored != createFenceIssued) || negb (is_nil (cf_RollbackAt stored)).

(** ** The base firewall's receipt *)

Definition base_firewall_check (record : createFenceRecord) (token vmUUID : string) : goerr :=
  if (token == "") || (cf_Token record != token) || (cf_Phase record != createFenceIssued) || is_nil (cf_IssuedAt record)
     || (cf_CreatedVMUUID record != vmUUID) || is_nil (cf_LaunchObservedAt record)
  then Some (Msg "NodeClaim base-firewall assignment lacks the exact anchored VM attempt") else None.
Definition assignment_issue (issueID : string) (now : Z) (a : baseFirewallAssignmentRecord) : baseFirewallAssignmentRecord :=
  a <| ba_Phase := FirewallAssignmentIssued |> <| ba_IssueID := issueID |> <| ba_IssuedAt := Some now |> <| ba_RejectedAt := None |>
    <| ba_ObservedAt := None |>.
Definition assignment_finish (terminal : string) (now : Z) (a : baseFirewallAssignmentRecord) : baseFirewallAssignmentRecord :=
  if terminal == FirewallAssignmentObserved
  then a <| ba_Phase := terminal |> <| ba_ObservedAt := Some now |> <| ba_RejectedAt := None |>
  else a <| ba_Phase := terminal |> <| ba_RejectedAt := Some now |> <| ba_ObservedAt := None |>.

(** ** Protection failure *)

Definition live_anchored (record : createFenceRecord) (token issueID vmUUID : string) : bool :=
  (token != "") && (cf_Token record == token) && (cf_IssueID record == issueID) && (cf_Phase record == createFenceIssued)
  && negb (is_nil (cf_IssuedAt record)) && (cf_CreatedVMUUID record == vmUUID) && negb (is_nil (cf_LaunchObservedAt record))
  && is_nil (cf_RollbackAt record).
Definition protection_fail_check (record : createFenceRecord) (token issueID vmUUID : string) : result bool :=
  if negb (live_anchored record token issueID vmUUID)
  then Err (Msg "NodeClaim protection failure does not match its exact live anchored create attempt")
  else Ok (negb (is_nil (cf_ProtectionFailureAt record))).
Definition protection_fail_write (record : createFenceRecord) (now : Z) : createFenceRecord := record <| cf_ProtectionFailureAt := Some now |>.
Definition protection_clear_check (record : createFenceRecord) (token issueID vmUUID : string) : result bool :=
  if negb (live_anchored record token issueID vmUUID)
  then Err (Msg "NodeClaim protection recovery does not match its exact live anchored create attempt")
  else Ok (is_nil (cf_ProtectionFailureAt record)).
Definition protection_clear_write (record : createFenceRecord) : createFenceRecord := record <| cf_ProtectionFailureAt := None |>.
Definition protection_stored (stored : createFenceRecord) (token issueID vmUUID : string) : bool :=
  (cf_Token stored == token) && (cf_IssueID stored == issueID) && (cf_Phase stored == createFenceIssued) && (cf_CreatedVMUUID stored == vmUUID)
  && is_nil (cf_RollbackAt stored).
Definition protection_lost (stored : createFenceRecord) (vmUUID : string) : bool :=
  negb (is_nil (cf_RollbackAt stored)) || (cf_Phase stored != createFenceIssued) || (cf_CreatedVMUUID stored != vmUUID).

(** ** ChooseRollback *)

Definition rollback_check (record : createFenceRecord) (token issueID vmUUID : string) (canonical : option FencedCreateCleanupResolution) : result bool :=
  if (token == "") || (cf_Token record != token) || (cf_IssueID record != issueID) || is_nil (cf_IssuedAt record)
     || (cf_CreatedVMUUID record != vmUUID) || is_nil (cf_LaunchObservedAt record)
  then Err (Msg "NodeClaim rollback does not match its exact anchored create attempt")
  else if cf_Phase record == createFenceMaterialized then Err (Msg "NodeClaim VM was already materialized and cannot be rolled back")
  else if cf_Phase record != createFenceIssued then Err (Msg "NodeClaim cannot choose rollback from phase")
  else Ok (negb (is_nil (cf_RollbackAt record))
           && match canonical with None => true | Some c => cleanupResolutionStored record c end).
(** [now] is read only when the decision is new, [resolvedAt] only with a receipt. *)
Definition rollback_write (record : createFenceRecord) (canonical : option FencedCreateCleanupResolution) (now resolvedAt : Z) : result createFenceRecord :=
  let record := if is_nil (cf_RollbackAt record) then record <| cf_RollbackAt := Some now |> else record in
  let record := record <| cf_ProtectionFailureAt := None |> in
  match canonical with
  | Some c =>
      try! record := applyCleanupResolution record c resolvedAt in
      Ok (record <| cf_DependentUnresolved := false |> <| cf_DependentsResolvedAt := None |>)
  | None => Ok (record <| cf_DependentUnresolved := true |> <| cf_DependentsResolvedAt := None |>)
  end.
Definition rollback_accept (stored : createFenceRecord) (token issueID vmUUID : string) (canonical : option FencedCreateCleanupResolution) : bool :=
  (cf_Token stored == token) && (cf_IssueID stored == issueID) && (cf_CreatedVMUUID stored == vmUUID) && negb (is_nil (cf_RollbackAt stored))
  && match canonical with None => true | Some c => cleanupResolutionStored stored c end.
Definition rollback_lost (stored : createFenceRecord) (vmUUID : string) : bool :=
  (cf_Phase stored == createFenceMaterialized) || (cf_CreatedVMUUID stored != vmUUID).

(** ** MarkRejected *)

Definition reject_check (record : createFenceRecord) (token issueID : string) : result bool :=
  if (token == "") || (issueID == "") || (cf_Token record != token) || (cf_IssueID record != issueID) || is_nil (cf_IssuedAt record)
  then Err (Msg "NodeClaim cannot reject a VM create attempt without its exact issued token")
  else if cf_Phase record == createFenceRejected then Ok true
  else if (cf_CreatedVMUUID record != "") || negb (is_nil (cf_RollbackAt record)) || negb (Nat.eqb (List.length (cf_CleanupResolutions record)) 0)
  then Err (Msg "NodeClaim accepted VM and cannot be marked as a rejected POST")
  else if cf_Phase record != createFenceIssued then Err (Msg "NodeClaim cannot reject VM create from phase")
  else if match cf_BaseFirewallAssignment record with
          | Some a => (ba_Phase a != FirewallAssignmentIssued) || (ba_VMUUID a != "")
          | None => true
          end
  then Err (Msg "NodeClaim VM rejection lacks its unused base-firewall assignment issue")
  else Ok false.
Definition reject_write (record : createFenceRecord) (now : Z) : createFenceRecord :=
  update_assignment (fun a => a <| ba_Phase := FirewallAssignmentRejected |> <| ba_RejectedAt := Some now |>) (record <| cf_Phase := createFenceRejected |>).
Definition reject_accept (stored : createFenceRecord) (token issueID : string) : bool :=
  (cf_Token stored == token) && (cf_IssueID stored == issueID) && (cf_Phase stored == createFenceRejected) && negb (is_nil (cf_IssuedAt stored)).
Definition reject_lost (stored : createFenceRecord) (token issueID : string) : bool :=
  (cf_Token stored != token) || (cf_IssueID stored != issueID) || (cf_Phase stored != createFenceIssued).

(** ** MarkMaterialized *)

(** [update] is the stored floating-IP receipt as decoded. *)
Definition materialize_check (record : createFenceRecord) (update : result floatingIPUpdateRecord) (token : string) (vm : option VM) : result bool :=
  if (token == "") || (cf_Token record != token) then Err (Msg "NodeClaim durable VM create token changed before materialization")
  else check! validateMaterializedVM record vm in
  match vm with
  | None => Err (Msg "materialized VM does not match the exact durable create identity")
  | Some vm =>
    let vmUUID := ToLower (vm_UUID vm) in
    check! (if cf_LegacyV2 record && (cf_Phase record == createFenceMaterialized) then None
            else match update with
            | Err e => Some (Wrap "NodeClaim cannot materialize without its durable floating-IP update receipt" [e])
            | Ok u =>
                if (fu_Phase u != FloatingIPUpdateObserved) || (fu_VMUUID u != vmUUID) || (fu_Address u != vm_PublicIPv4 vm)
                   || (fu_Name u != vm_FloatingIPName vm) || negb (fu_BillingAccountID u =? vm_BillingAccountID vm)
                then Some (Msg "NodeClaim floating-IP update receipt does not match materialized VM") else None
            end) in
    if (cf_CreatedVMUUID record != vmUUID) || is_nil (cf_LaunchObservedAt record)
    then Err (Msg "NodeClaim cannot materialize VM before the exact launch UUID is durable")
    else if cf_Phase record == createFenceMaterialized then Ok true
    else if (cf_Phase record != createFenceIssued) || is_nil (cf_IssuedAt record)
    then Err (Msg "NodeClaim VM create attempt must be durably issued before materialization")
    else if negb (is_nil (cf_RollbackAt record)) || (cf_CleanupVMUUID record != "") || negb (Nat.eqb (List.length (cf_CleanupResolutions record)) 0)
    then Err (Msg "NodeClaim VM create rollback is already durably chosen and cannot be materialized")
    else Ok false
  end.
(** [publicIP, _ := netip.ParseAddr(...)], which the check has accepted. *)
Definition vm_public_ip (vm : VM) : string := match public_IPv4 (vm_PublicIPv4 vm) with Some ip => IPv4_String ip | None => "" end.
Definition materialize_write (record : createFenceRecord) (vm : VM) (now : Z) : createFenceRecord :=
  record <| cf_Phase := createFenceMaterialized |> <| cf_ProtectionFailureAt := None |> <| cf_ObservedAt := Some now |>
    <| cf_ObservedVMUUID := ToLower (vm_UUID vm) |> <| cf_FloatingIPName := vm_FloatingIPName vm |> <| cf_PublicIPv4 := vm_public_ip vm |>.
Definition materialize_accept (stored : createFenceRecord) (vm : VM) : bool :=
  (cf_Phase stored == createFenceMaterialized) && (cf_CreatedVMUUID stored == ToLower (vm_UUID vm)) && (cf_ObservedVMUUID stored == ToLower (vm_UUID vm))
  && (cf_PublicIPv4 stored == vm_public_ip vm) && negb (is_nil (cf_ObservedAt stored)) && is_nil (cf_RollbackAt stored).

(** ** RecordTerminalCleanup *)

Definition terminal_check (record : createFenceRecord) (token vmUUID : string) : result bool :=
  match validateTerminalCleanupTarget record token vmUUID with
  | Some e => Err (Wrap "NodeClaim" [e])
  | None => Ok (terminalCleanupConverged record)
  end.
Definition terminal_write (record : createFenceRecord) (now : Z) : createFenceRecord :=
  record <| cf_TerminalCleanup := Some (newTerminalCleanupRecord record now) |>.

(** ** The controller's writers *)

(** [persistDependentResolution]. *)
Definition dependents_check (record : createFenceRecord) : goerr :=
  if negb (cf_DependentUnresolved record) || is_nil (cf_RollbackAt record) || (cf_CreatedVMUUID record == "")
  then Some (Msg "NodeClaim has no unresolved anchored dependent to complete") else None.
Definition dependents_write (record : createFenceRecord) (now : Z) : createFenceRecord :=
  record <| cf_DependentUnresolved := false |> <| cf_DependentsResolvedAt := Some now |>.

(** [persistCleanupResolution]: [publicIP] is only required to be a global unicast IPv4 here;
    [applyCleanupResolution] requires more. *)
Definition global_IPv4 (s : string) : option IPv4 :=
  match ParseAddr4 s with Some a => if IsGlobalUnicast a then Some a else None | None => None end.
Definition cleanup_check (record : createFenceRecord) (resolution : FencedCreateCleanupResolution) : result string :=
  if negb (createFenceVMUUIDPattern (cr_VMUUID resolution)) || (cr_FloatingIPName resolution == "")
  then Err (Msg "cloud returned an incomplete fenced cleanup resolution")
  else match global_IPv4 (cr_PublicIPv4 resolution) with
  | None => Err (Msg "cloud returned invalid fenced cleanup public IPv4")
  | Some publicIP =>
      if (cf_CleanupVMUUID record == ToLower (cr_VMUUID resolution)) && (cf_CleanupFloatingIPName record == cr_FloatingIPName resolution)
         && (cf_CleanupPublicIPv4 record == IPv4_String publicIP)
      then Err (Msg "cloud rediscovered fenced VM without consuming its durable cleanup receipt")
      else Ok (IPv4_String publicIP)
  end.
Definition cleanup_write (record : createFenceRecord) (resolution : FencedCreateCleanupResolution) (now : Z) : result createFenceRecord :=
  try! resolutions :=
    (if cf_ObservedVMUUID record != "" then
       match appendCleanupResolution (cf_CleanupResolutions record)
               (Build_FencedCreateCleanupResolution (cf_ObservedVMUUID record) (cf_FloatingIPName record) (cf_PublicIPv4 record) false) with
       | Err e => Err (Wrap "recording NodeClaim materialized cleanup receipt" [e])
       | Ok l => Ok l
       end
     else Ok (cf_CleanupResolutions record)) in
  match applyCleanupResolution (record <| cf_CleanupResolutions := resolutions |>) resolution now with
  | Err e => Err (Wrap "recording NodeClaim cleanup receipt" [e])
  | Ok record =>
      if (cf_CreatedVMUUID record != "") && EqualFold (cf_CreatedVMUUID record) (cr_VMUUID resolution)
      then Ok (record <| cf_DependentUnresolved := false |> <| cf_DependentsResolvedAt := None |>)
      else Ok record
  end.
