(* ===== verification/CreateFenceEncoding.v ===== *)
(** * The history of cleanup receipts

    A valid history is strictly ordered by VM and holds canonical receipts; appending a receipt
    keeps it so, keeps every receipt it held, and never exceeds its bound. *)

From S2P Require Import Prelude GoErrors CSIFence GoJSON GoNet CreateFence CreateFenceDecode CreateFenceSteps.
From Stdlib Require Import Sorted.


(** ** The order of strings *)

Lemma ltb_spec a b : String.ltb a b = true <-> String.compare a b = Lt.
Proof. unfold String.ltb. destruct (String.compare a b); split; congruence. Qed.
Lemma ltb_irrefl a : String.ltb a a = false.
Proof.
  assert (String.compare a a = Eq) as E by (pose proof (String.compare_antisym a a) as H; by destruct (String.compare a a)).
  unfold String.ltb. by rewrite E.
Qed.
Lemma ltb_total a b : String.ltb a b = false -> a <> b -> String.ltb b a = true.
Proof.
  unfold String.ltb. rewrite (String.compare_antisym a b). destruct (String.compare b a) eqn:E; simpl; try done.
  intros _ Hn. apply String.compare_eq_iff in E. congruence.
Qed.
Lemma ltb_trans a b c : String.ltb a b = true -> String.ltb b c = true -> String.ltb a c = true.
Proof.
  rewrite !ltb_spec. revert b c. induction a as [|x a IH]; intros [|y b] [|z c]; simpl; try done.
  unfold Ascii.compare. destruct (N.compare_spec (N_of_ascii x) (N_of_ascii y)), (N.compare_spec (N_of_ascii y) (N_of_ascii z)); try done; intros Hab Hbc;
    destruct (N.compare_spec (N_of_ascii x) (N_of_ascii z)); try done; try lia. by eapply IH.
Qed.

(** ** Receipts *)

Record canonical (c : FencedCreateCleanupResolution) : Prop := {
  canonical_uuid : createFenceVMUUIDPattern (cr_VMUUID c) = true;
  canonical_lower : ToLower (cr_VMUUID c) = cr_VMUUID c;
  canonical_name : cr_FloatingIPName c <> "" /\ (String.length (cr_FloatingIPName c) <= 255)%nat;
  canonical_ip : public_IPv4 (cr_PublicIPv4 c) <> None
}.

Lemma normalize_Ok c c' : normalizeCleanupResolution c = Ok c' -> canonical c' /\ c' = c <| cr_VMUUID := ToLower (cr_VMUUID c) |>.
Proof.
  unfold normalizeCleanupResolution. simpl. case_test; [done|]. destruct (public_IPv4 (cr_PublicIPv4 c)) as [ip|] eqn:E; [|done].
  intros [= <-]. bool_hyps. rewrite (public_IPv4_String _ _ E). split; [|done].
  match goal with H : Nat.ltb _ _ = false |- _ => apply Nat.ltb_ge in H end.
  split; simpl; [done|apply ToLower_idem|done|congruence].
Qed.
Lemma normalize_canonical c : canonical c -> normalizeCleanupResolution c = Ok c.
Proof.
  intros [Hu Hl [Hn Hlen] Hp]. unfold normalizeCleanupResolution. simpl. rewrite Hl, Hu. rewrite bool_decide_eq_false_2 by done.
  rewrite (proj2 (Nat.ltb_ge _ _)) by done. simpl. destruct (public_IPv4 (cr_PublicIPv4 c)) eqn:E; [|done].
  rewrite (public_IPv4_String _ _ E). by destruct c; simpl in *; subst.
Qed.
Lemma canonical_iff c : match normalizeCleanupResolution c with Ok n => n == c | Err _ => false end = true <-> canonical c.
Proof.
  split.
  - destruct (normalizeCleanupResolution c) as [n|] eqn:E; [|done]. intros H. bool_hyps. apply normalize_Ok in E as [E _]. by subst.
  - intros H. by rewrite normalize_canonical, bool_decide_eq_true_2.
Qed.

(** ** Histories *)

Definition before (a b : FencedCreateCleanupResolution) : Prop := String.ltb (cr_VMUUID a) (cr_VMUUID b) = true.
#[export] Instance before_trans : Transitive before.
Proof. intros a b c. apply ltb_trans. Qed.

Record history (l : list FencedCreateCleanupResolution) : Prop := {
  history_canonical : Forall canonical l;
  history_sorted : StronglySorted before l
}.

Lemma validHistory_iff l p : validHistory p l = true <->
  history l /\ match p with Some v => Forall (fun c => String.ltb v (cr_VMUUID c) = true) l | None => True end.
Proof.
  revert p. induction l as [|c l IH]; intros p; simpl.
  - split; [|done]. intros _. split; [repeat constructor|]. destruct p; [constructor|done].
  - rewrite !andb_true_iff, canonical_iff, IH. split.
    + intros ((Hc & Hp) & [Ha Hs] & Hf). repeat split; [by constructor|by constructor|].
      destruct p as [v|]; [|done]. constructor; [done|]. eapply Forall_impl; [exact Hf|]. intros x. by apply ltb_trans.
    + intros ([Ha Hs] & Hp). apply Forall_cons in Ha as [Hc Ha]. apply StronglySorted_inv in Hs as [Hs Hf].
      split; [split; [done|]|by split]. destruct p as [v|]; [|done]. by apply Forall_cons in Hp as [Hp _].
Qed.
Lemma validHistory_history l : validHistory None l = true <-> history l.
Proof. rewrite validHistory_iff. tauto. Qed.

Lemma history_nodup l : StronglySorted before l -> NoDup (map cr_VMUUID l).
Proof.
  induction 1 as [|c l Hs IH Hf]; simpl; constructor; [|done]. rewrite list_elem_of_In, in_map_iff. intros (x & E & Hin).
  rewrite List.Forall_forall in Hf. specialize (Hf x Hin). unfold before in Hf. by rewrite E, ltb_irrefl in Hf.
Qed.
(** Two receipts of one VM are the same receipt. *)
Lemma history_unique l a b : history l -> a ∈ l -> b ∈ l -> cr_VMUUID a = cr_VMUUID b -> a = b.
Proof.
  intros [_ Hs] Ha Hb E. induction Hs as [|c l Hs IH Hf]; [by apply not_elem_of_nil in Ha|].
  rewrite Forall_forall in Hf. apply elem_of_cons in Ha as [->|Ha], Hb as [->|Hb]; try done; auto.
  - specialize (Hf b Hb). unfold before in Hf. by rewrite E, ltb_irrefl in Hf.
  - specialize (Hf a Ha). unfold before in Hf. by rewrite E, ltb_irrefl in Hf.
Qed.

Lemma insert_elem x l y : y ∈ insert_resolution x l <-> y = x \/ y ∈ l.
Proof. induction l as [|z l IH]; simpl; [set_solver|]. case_test; set_solver. Qed.
Lemma insert_length x l : List.length (insert_resolution x l) = S (List.length l).
Proof. induction l as [|z l IH]; simpl; [done|]. case_test; simpl; congruence. Qed.
Lemma insert_sorted x l : StronglySorted before l -> cr_VMUUID x ∉ map cr_VMUUID l -> StronglySorted before (insert_resolution x l).
Proof.
  induction 1 as [|c l Hs IH Hf]; simpl; [by repeat constructor|]. intros Hn. apply not_elem_of_cons in Hn as [Hn Hx].
  case_test.
  - constructor; [by constructor|]. constructor; [done|]. eapply Forall_impl; [exact Hf|]. intros y. by apply ltb_trans.
  - constructor; [by apply IH|]. apply Forall_forall. intros y Hy. apply insert_elem in Hy as [->|Hy].
    + by apply ltb_total.
    + rewrite Forall_forall in Hf. by apply Hf.
Qed.
Lemma sort_elem l y : y ∈ sort_resolutions l <-> y ∈ l.
Proof. induction l as [|x l IH]; simpl; [done|]. rewrite insert_elem, IH. set_solver. Qed.
Lemma sort_length l : List.length (sort_resolutions l) = List.length l.
Proof. induction l as [|x l IH]; simpl; [done|]. by rewrite insert_length, IH. Qed.
Lemma sort_sorted l : NoDup (map cr_VMUUID l) -> StronglySorted before (sort_resolutions l).
Proof.
  induction l as [|x l IH]; simpl; [constructor|]. intros Hn. inversion Hn as [|? ? Hx Hl]; subst. apply insert_sorted; [by apply IH|].
  rewrite list_elem_of_In, in_map_iff. intros (y & E & Hy). apply list_elem_of_In in Hy. rewrite sort_elem in Hy.
  apply Hx. rewrite list_elem_of_In, in_map_iff. exists y. split; [done|]. by apply list_elem_of_In.
Qed.

(** ** Appending *)

Record appended (l l' : list FencedCreateCleanupResolution) (c : FencedCreateCleanupResolution) : Prop := {
  app_history : history l';
  app_bound : (List.length l' <= MaxCreateCleanupResolutions)%nat;
  app_elem x : x ∈ l' <-> x ∈ l \/ x = c
}.
Lemma append_appended l c l' c' :
  appendCleanupResolution l c = Ok l' -> normalizeCleanupResolution c = Ok c' ->
  history l -> (List.length l <= MaxCreateCleanupResolutions)%nat -> appended l l' c'.
Proof.
  unfold appendCleanupResolution. intros H Hc Hh Hl. rewrite Hc in H. apply normalize_Ok in Hc as [Hc _].
  destruct (List.find _ l) as [e|] eqn:Ef.
  - case_test_in H; [done|]. injection H as <-. bool_hyps. subst. apply find_some in Ef as [Hin _].
    split; try done. intros x. split; [tauto|]. intros [?| ->]; [done|]. by apply list_elem_of_In.
  - destruct (Nat.leb MaxCreateCleanupResolutions (List.length l)) eqn:Hb; [done|]. apply Nat.leb_gt in Hb. injection H as <-.
    destruct Hh as [Ha Hs]. split.
    + split.
      * apply Forall_forall. intros x Hx. rewrite sort_elem in Hx. rewrite Forall_forall in Ha. set_solver.
      * apply sort_sorted. rewrite map_app. apply NoDup_app. repeat split; [by apply history_nodup| |repeat constructor; set_solver].
        intros k Hk Hk'. apply list_elem_of_In, in_map_iff in Hk as (x & E & Hin). apply list_elem_of_singleton in Hk'. simpl in Hk'. subst.
        pose proof (find_none _ _ Ef x Hin) as Hx. simpl in Hx. by bool_hyps.
    + rewrite sort_length, length_app. simpl. lia.
    + intros x. rewrite sort_elem. set_solver.
Qed.

(** ** Records that are stored as they are

    encoding/json reproduces a record whose strings are ASCII and whose times have RFC 3339 text
    ([storable]). Every writer of the create fence keeps a record so, when the clock and the names
    it is given are: identities and nonces are checked against patterns of ASCII characters. *)

(** ** ASCII *)

Lemma ascii_hex c : is_hex_lower c = true -> Nat.ltb (code c) 128 = true.
Proof. destruct c as [[] [] [] [] [] [] [] []]; vm_compute; congruence. Qed.
Lemma match_seq_ascii ps s :
  Forall (fun p : ascii -> bool => forall c, p c = true -> Nat.ltb (code c) 128 = true) ps -> match_seq ps s = true -> is_ascii s = true.
Proof.
  intros Hp. revert s. induction Hp as [|p ps H _ IH]; intros [|c s]; simpl; try done. intros Hm. bool_hyps. unfold is_ascii. simpl.
  rewrite H by done. by apply IH.
Qed.
Lemma key_ascii s : createFenceKeyHashPattern s = true -> is_ascii s = true.
Proof. apply match_seq_ascii. apply Forall_forall. intros p Hp. apply elem_of_replicate in Hp as [-> _]. apply ascii_hex. Qed.
Lemma ascii_any_hex c : is_hex c = true -> Nat.ltb (code c) 128 = true.
Proof. destruct c as [[] [] [] [] [] [] [] []]; vm_compute; congruence. Qed.
Lemma ascii_dash c : is_dash c = true -> Nat.ltb (code c) 128 = true.
Proof. destruct c as [[] [] [] [] [] [] [] []]; vm_compute; congruence. Qed.
Lemma vm_ascii s : createFenceVMUUIDPattern s = true -> is_ascii s = true.
Proof.
  apply match_seq_ascii. unfold uuid_classes.
  repeat first [apply Forall_app_2 | apply Forall_cons_2 | apply Forall_nil_2 | apply Forall_replicate]; auto using ascii_any_hex, ascii_dash.
Qed.

Section Storable.
Context `{TT : TimeText}.

Definition storable (r : createFenceRecord) : Prop := c_good record_codec r = true.
Definition clock_good (now : Z) : bool := c_good time_codec now.

Abbreviation time_good t := (c_good (ptr_codec time_codec) t = true).

(** Field by field. *)
Lemma storable_fields r : storable r <->
  (is_ascii (cf_Schema r) = true /\ c_good binding_codec (cf_Binding r) = true /\ c_good cleanup_codec (cf_Cleanup r) = true
   /\ c_good inventory_codec (cf_Baseline r) = true /\ is_ascii (cf_Token r) = true)
  /\ (is_ascii (cf_Phase r) = true /\ is_ascii (cf_Intent r) = true /\ is_ascii (cf_IssueID r) = true /\ clock_good (cf_StartedAt r) = true
      /\ time_good (cf_IssuedAt r) /\ time_good (cf_LaunchObservedAt r) /\ is_ascii (cf_CreatedVMUUID r) = true)
  /\ (time_good (cf_ProtectionFailureAt r) /\ time_good (cf_RollbackAt r) /\ time_good (cf_DependentsResolvedAt r))
  /\ (time_good (cf_ObservedAt r) /\ is_ascii (cf_ObservedVMUUID r) = true /\ is_ascii (cf_FloatingIPName r) = true /\ is_ascii (cf_PublicIPv4 r) = true)
  /\ (time_good (cf_CleanupResolvedAt r) /\ is_ascii (cf_CleanupVMUUID r) = true /\ is_ascii (cf_CleanupFloatingIPName r) = true
      /\ is_ascii (cf_CleanupPublicIPv4 r) = true /\ c_good (list_codec resolution_codec) (cf_CleanupResolutions r) = true)
  /\ c_good (ptr_codec assignment_codec) (cf_BaseFirewallAssignment r) = true /\ c_good (ptr_codec terminalCleanup_codec) (cf_TerminalCleanup r) = true.
Proof.
  unfold storable, record_codec, struct_codec, clock_good. cbn [c_good forallb jf_good jfield_of string_codec bool_codec]. rewrite !andb_true_iff. tauto.
Qed.
Lemma assignment_fields a : c_good assignment_codec a = true <->
  is_ascii (ba_VMUUID a) = true /\ is_ascii (ba_FirewallUUID a) = true /\ is_ascii (ba_Phase a) = true /\ is_ascii (ba_IssueID a) = true
  /\ clock_good (ba_IntentAt a) = true /\ time_good (ba_IssuedAt a) /\ time_good (ba_RejectedAt a) /\ time_good (ba_ObservedAt a).
Proof. unfold assignment_codec, struct_codec, clock_good. cbn [c_good forallb jf_good jfield_of string_codec]. rewrite !andb_true_iff. tauto. Qed.

#[local] Ltac by_fields := rewrite ?storable_fields, ?assignment_fields in *; destruct_and?; split_and?; simpl in *; try assumption; try reflexivity.

Lemma update_storable f r :
  (forall a, c_good assignment_codec a = true -> c_good assignment_codec (f a) = true) -> storable r -> storable (update_assignment f r).
Proof. intros Hf Hr. by_fields. destruct (cf_BaseFirewallAssignment r) as [a|]; [|done]. by apply Hf. Qed.

Lemma authorize_storable r intent i j now :
  storable r -> is_ascii intent = true -> is_ascii i = true -> is_ascii j = true -> clock_good now = true -> storable (authorize_write r intent i j now).
Proof. intros Hr H1 H2 H3 H4. apply update_storable; [|by_fields]. intros a Ha. by_fields. Qed.
Lemma created_storable r vm now : storable r -> is_ascii vm = true -> clock_good now = true -> storable (created_write r vm now).
Proof. intros Hr Hv Hn. apply update_storable; [|by_fields]. intros a Ha. case_test; [by_fields|done]. Qed.
Lemma assignment_issue_storable r i now : storable r -> is_ascii i = true -> clock_good now = true -> storable (update_assignment (assignment_issue i now) r).
Proof. intros Hr Hi Hn. apply update_storable; [|done]. intros a Ha. by_fields. Qed.
Lemma assignment_finish_storable r terminal now :
  storable r -> is_ascii terminal = true -> clock_good now = true -> storable (update_assignment (assignment_finish terminal now) r).
Proof. intros Hr Ht Hn. apply update_storable; [|done]. intros a Ha. unfold assignment_finish. case_test; by_fields. Qed.
Lemma protection_storable r t : storable r -> time_good t -> storable (r <| cf_ProtectionFailureAt := t |>).
Proof. intros Hr Ht. by_fields. Qed.
Lemma reject_storable r now : storable r -> clock_good now = true -> storable (reject_write r now).
Proof. intros Hr Hn. apply update_storable; [|by_fields]. intros a Ha. by_fields. Qed.

Lemma ToLower_ascii s : is_ascii s = true -> is_ascii (ToLower s) = true.
Proof.
  unfold is_ascii. induction s as [|c s IH]; simpl; [done|]. intros H. bool_hyps. rewrite IH by done. rewrite andb_true_r.
  destruct c as [[] [] [] [] [] [] [] []]; try done.
Qed.
Lemma materialize_storable r vm now :
  storable r -> is_ascii (vm_UUID vm) = true -> is_ascii (vm_FloatingIPName vm) = true -> is_ascii (vm_PublicIPv4 vm) = true -> clock_good now = true ->
  storable (materialize_write r vm now).
Proof.
  intros Hr H1 H2 H3 Hn. by_fields; [by apply ToLower_ascii|]. unfold vm_public_ip. destruct (public_IPv4 _) eqn:E; [|done]. by rewrite (public_IPv4_String _ _ E).
Qed.

(** ** Receipts *)

Lemma resolution_fields c : c_good resolution_codec c = true <->
  is_ascii (cr_VMUUID c) = true /\ is_ascii (cr_FloatingIPName c) = true /\ is_ascii (cr_PublicIPv4 c) = true /\ cr_Converged c = false.
Proof. unfold resolution_codec, struct_codec. cbn [c_good forallb jf_good jfield_of jfield_skip string_codec]. rewrite !andb_true_iff, negb_true_iff. tauto. Qed.
Lemma normalize_good c c' : normalizeCleanupResolution c = Ok c' -> c_good resolution_codec c = true -> c_good resolution_codec c' = true.
Proof.
  unfold normalizeCleanupResolution. case_test; [done|]. destruct (public_IPv4 _) as [ip|] eqn:E; [|done]. apply public_IPv4_String in E. intros [= <-].
  rewrite !resolution_fields. simpl in *. intros (? & ? & ? & ?). rewrite E. split_and!; try done. by apply ToLower_ascii.
Qed.
Lemma append_good l c l' : appendCleanupResolution l c = Ok l' ->
  forallb (c_good resolution_codec) l = true -> c_good resolution_codec c = true -> forallb (c_good resolution_codec) l' = true.
Proof.
  unfold appendCleanupResolution. destruct (normalizeCleanupResolution c) as [c'|] eqn:En; [|done]. intros H Hl Hc.
  apply (normalize_good c c' En) in Hc. destruct (List.find _ l); [case_test_in H; [done|]; by injection H as <-|].
  case_test_in H; [done|]. injection H as <-. rewrite forallb_forall in *. intros x Hx. rewrite <-list_elem_of_In in Hx. apply (proj1 (sort_elem _ _)) in Hx.
  apply elem_of_app in Hx as [Hx|Hx]; [apply Hl; by rewrite <-list_elem_of_In|]. apply list_elem_of_singleton in Hx. by subst.
Qed.
Lemma apply_storable r c now r' :
  applyCleanupResolution r c now = Ok r' -> storable r -> c_good resolution_codec c = true -> clock_good now = true -> storable r'.
Proof.
  unfold applyCleanupResolution. destruct (normalizeCleanupResolution c) as [c'|] eqn:En; [|done]. intros H Hr Hc Hn.
  apply (normalize_good c c' En) in Hc. destruct (appendCleanupResolution _ c') as [l|] eqn:El; [|done]. injection H as <-.
  pose proof Hc as (? & ? & ? & ?)%resolution_fields. by_fields. eapply append_good; eauto.
Qed.
Lemma rollback_storable r canonical now t r' :
  rollback_write r canonical now t = Ok r' -> storable r -> (cf_RollbackAt r = None -> clock_good now = true) ->
  (forall c, canonical = Some c -> c_good resolution_codec c = true /\ clock_good t = true) -> storable r'.
Proof.
  unfold rollback_write. intros H Hr Hn Hc.
  assert (storable ((if is_nil (cf_RollbackAt r) then r <| cf_RollbackAt := Some now |> else r) <| cf_ProtectionFailureAt := None |>)) as H0.
  { apply protection_storable; [|done]. destruct (cf_RollbackAt r) eqn:E; simpl; [done|]. specialize (Hn eq_refl). by_fields. }
  destruct canonical as [c|].
  - destruct (applyCleanupResolution _ c t) as [r0|] eqn:E; [|done]. injection H as <-. destruct (Hc c eq_refl) as [Hg Ht].
    apply apply_storable in E; [|done..]. by_fields.
  - injection H as <-. by_fields.
Qed.
Lemma cleanup_firewall c : c_good cleanup_codec c = true -> is_ascii (ci_FirewallUUID c) = true.
Proof. unfold cleanup_codec, struct_codec. cbn [c_good forallb jf_good jfield_of string_codec]. intros H. by bool_hyps. Qed.
Lemma terminal_storable r now : storable r -> clock_good now = true -> storable (terminal_write r now).
Proof.
  intros Hr Hn. apply storable_fields. pose proof (proj1 (storable_fields r) Hr) as (? & ? & ? & ? & ? & ? & _). split_and!; try tauto.
  unfold terminal_write. change (c_good terminalCleanup_codec (newTerminalCleanupRecord r now) = true). unfold terminalCleanup_codec, struct_codec.
  cbn [c_good forallb jf_good jfield_of string_codec]. rewrite !andb_true_iff. split_and!; try done; try apply ToLower_ascii; try apply cleanup_firewall; tauto.
Qed.

(** The reservation. *)
Lemma reserve_storable binding cleanup baseline now token r :
  newCreateFenceRecord binding cleanup baseline now (Ok token) = Ok r -> c_good binding_codec binding = true -> c_good cleanup_codec cleanup = true ->
  c_good inventory_codec baseline = true -> is_ascii token = true -> clock_good now = true -> storable r.
Proof.
  intros [= <-] H1 H2 H3 H4 H5. pose proof (cleanup_firewall cleanup H2). apply storable_fields. split_and!; try done. apply assignment_fields. by split_and!.
Qed.
End Storable.
