(* ===== verification/CreateFenceSpec.v ===== *)
(** * What a valid create fence looks like

    [wf] describes the records that [decodeCreateFence] accepts by phase, and [wf_valid] shows that
    it is exactly the checks. Records written by the store and the controller are read back as they
    were written ([decode_encode]). *)

From S2P Require Import Prelude GoErrors CSIFence GoJSON GoNet CreateFence CreateFenceDecode CreateFenceSteps CreateFenceEncoding.

(** Decides the tests between constants. *)
Ltac const_tests :=
  repeat match goal with
  | |- context [bool_decide (?a = ?b)] =>
      let v := eval vm_compute in (bool_decide (a = b)) in
      lazymatch v with true => idtac | false => idtac end;
      replace (bool_decide (a = b)) with v by (vm_compute; reflexivity)
  | H : context [bool_decide (?a = ?b)] |- _ =>
      let v := eval vm_compute in (bool_decide (a = b)) in
      lazymatch v with true => idtac | false => idtac end;
      replace (bool_decide (a = b)) with v in H by (vm_compute; reflexivity)
  end; cbn [negb andb orb] in *.
(** Rewrites a boolean goal with the facts at hand. *)
Ltac by_facts :=
  repeat match goal with
  | H : _ = None |- _ => progress rewrite H
  | H : _ = true |- _ => progress rewrite H
  | H : _ = false |- _ => progress rewrite H
  | H : _ = "" |- _ => progress rewrite H
  | H : ?a <> ?b |- context [bool_decide (?a = ?b)] => rewrite (bool_decide_eq_false_2 (a = b)) by exact H
  | H : ?a = ?b |- context [bool_decide (?a = ?b)] => rewrite (bool_decide_eq_true_2 (a = b)) by exact H
  end; const_tests; cbn [negb andb orb is_nil]; try reflexivity.

(** ** The shape of a record *)

(** The parts that no transition changes. *)
Record identity := {
  id_Schema : string; id_Binding : createFenceBinding; id_Cleanup : createFenceCleanupIdentity; id_Baseline : CreateInventory;
  id_Token : string; id_StartedAt : Z
}.
Definition identity_of (r : createFenceRecord) : identity :=
  Build_identity (cf_Schema r) (cf_Binding r) (cf_Cleanup r) (cf_Baseline r) (cf_Token r) (cf_StartedAt r).

(** No launch, or a launched VM with a canonical UUID. *)
Definition unanchored (r : createFenceRecord) : Prop := cf_LaunchObservedAt r = None /\ cf_CreatedVMUUID r = "".
Definition anchored (r : createFenceRecord) : Prop :=
  time_set (cf_LaunchObservedAt r) = true /\ createFenceVMUUIDPattern (cf_CreatedVMUUID r) = true /\ ToLower (cf_CreatedVMUUID r) = cf_CreatedVMUUID r.
Definition unobserved (r : createFenceRecord) : Prop := cf_ObservedAt r = None /\ cf_ObservedVMUUID r = "".
(** An attempt with an identity and a time. *)
Definition issued (r : createFenceRecord) : Prop :=
  createFenceKeyHashPattern (cf_IssueID r) = true /\ time_set (cf_IssuedAt r) = true
  /\ (cf_Intent r = CreateAuthorizationPost \/ cf_Intent r = CreateAuthorizationAdoption).
(** The base firewall's receipt is for this firewall and this VM. *)
Definition bound_to (a : baseFirewallAssignmentRecord) (r : createFenceRecord) : Prop :=
  ba_FirewallUUID a = ci_FirewallUUID (cf_Cleanup r) /\ ba_IntentAt a <> 0 /\ ba_VMUUID a = cf_CreatedVMUUID r.
Inductive receipt (a : baseFirewallAssignmentRecord) : string -> Prop :=
  | receipt_intent : ba_IssueID a = "" -> ba_IssuedAt a = None -> ba_RejectedAt a = None -> ba_ObservedAt a = None -> receipt a FirewallAssignmentIntent
  | receipt_issued : createFenceKeyHashPattern (ba_IssueID a) = true -> time_set (ba_IssuedAt a) = true -> ba_RejectedAt a = None -> ba_ObservedAt a = None ->
      receipt a FirewallAssignmentIssued
  | receipt_rejected : createFenceKeyHashPattern (ba_IssueID a) = true -> time_set (ba_IssuedAt a) = true -> time_set (ba_RejectedAt a) = true -> ba_ObservedAt a = None ->
      receipt a FirewallAssignmentRejected
  | receipt_observed : ba_VMUUID a <> "" -> createFenceKeyHashPattern (ba_IssueID a) = true -> time_set (ba_IssuedAt a) = true -> ba_RejectedAt a = None ->
      time_set (ba_ObservedAt a) = true -> receipt a FirewallAssignmentObserved.
Definition assigned (r : createFenceRecord) (a : baseFirewallAssignmentRecord) : Prop :=
  cf_BaseFirewallAssignment r = Some a /\ bound_to a r /\ receipt a (ba_Phase a).

(** The state machine's states. *)
Inductive in_phase (r : createFenceRecord) : string -> Prop :=
  | in_reserved a : cf_IssueID r = "" -> cf_IssuedAt r = None -> cf_Intent r = "" -> unobserved r -> unanchored r -> cf_RollbackAt r = None ->
      cf_ProtectionFailureAt r = None -> assigned r a -> ba_Phase a = FirewallAssignmentIntent -> in_phase r createFenceReserved
  | in_issued a : issued r -> unobserved r -> unanchored r \/ anchored r ->
      (cf_RollbackAt r = None \/ time_set (cf_RollbackAt r) = true /\ anchored r) ->
      (cf_ProtectionFailureAt r = None \/ time_set (cf_ProtectionFailureAt r) = true /\ anchored r /\ cf_RollbackAt r = None) ->
      assigned r a -> ba_Phase a <> FirewallAssignmentIntent -> in_phase r createFenceIssued
  | in_rejected a : issued r -> unobserved r -> unanchored r -> cf_RollbackAt r = None -> cf_ProtectionFailureAt r = None ->
      assigned r a -> ba_Phase a = FirewallAssignmentRejected -> in_phase r createFenceRejected
  | in_materialized a : issued r -> time_set (cf_ObservedAt r) = true -> anchored r -> cf_ObservedVMUUID r = cf_CreatedVMUUID r ->
      cf_FloatingIPName r <> "" -> (String.length (cf_FloatingIPName r) <= 255)%nat -> public_IPv4 (cf_PublicIPv4 r) <> None ->
      cf_RollbackAt r = None -> cf_ProtectionFailureAt r = None -> assigned r a -> ba_Phase a = FirewallAssignmentObserved ->
      in_phase r createFenceMaterialized.

(** The cleanup history: canonical, in order, bounded, and holding the active receipt. *)
Definition history_ok (r : createFenceRecord) : Prop :=
  history (cf_CleanupResolutions r) /\ (List.length (cf_CleanupResolutions r) <= MaxCreateCleanupResolutions)%nat
  /\ (cf_CleanupVMUUID r = "" /\ cf_CleanupResolvedAt r = None /\ cf_CleanupFloatingIPName r = "" /\ cf_CleanupPublicIPv4 r = "" /\ cf_CleanupResolutions r = []
      \/ time_set (cf_CleanupResolvedAt r) = true /\ activeReceiptStored r = true).
Definition dispositions (r : createFenceRecord) : nat :=
  Nat.b2n (createdReceipt r) + Nat.b2n (cf_DependentUnresolved r) + Nat.b2n (negb (is_nil (cf_DependentsResolvedAt r))).
Definition dependents_ok (r : createFenceRecord) : Prop :=
  match cf_RollbackAt r with
  | None => cf_DependentUnresolved r = false /\ cf_DependentsResolvedAt r = None
  | Some _ => (cf_DependentsResolvedAt r = None \/ time_set (cf_DependentsResolvedAt r) = true) /\ dispositions r = 1%nat
  end.

Section Valid.
Context `{PE : ProviderEnv, JT : JSONText, TT : TimeText}.

Definition identity_ok (r : createFenceRecord) : Prop :=
  let cleanup := cf_Cleanup r in
  cf_Schema r = createFenceSchema /\ validLaunchIdentity r = true
  /\ ((ci_FirewallProfile cleanup == FirewallProfilePrivateWorker) && (ci_NodePoolName cleanup != "")
      || public_profile (ci_FirewallProfile cleanup) && (ci_NodePoolName cleanup == "")) = false
  /\ (public_profile (ci_FirewallProfile cleanup) = true -> validateNodePoolClaimIdentity (ci_NodePoolName cleanup) (ci_NodeClaimName cleanup) = None)
  /\ validateCreateInventory (cf_Baseline r) = None.

Record wf (r : createFenceRecord) : Prop := {
  wf_identity : identity_ok r;
  wf_phase : in_phase r (cf_Phase r);
  wf_history : history_ok r;
  wf_dependents : dependents_ok r
}.

Lemma identity_ok_of r r' : identity_of r' = identity_of r -> identity_ok r -> identity_ok r'.
Proof.
  unfold identity_of. intros [= E1 E2 E3 E4 E5 E6]. unfold identity_ok, validLaunchIdentity.
  by rewrite E1, E2, E3, E4, E5, E6.
Qed.

(** ** The checks say exactly this *)

Lemma is_nil_true {A} (x : option A) : is_nil x = true <-> x = None.
Proof. destruct x; simpl; split; congruence. Qed.
Lemma time_set_some t : time_set t = true -> t <> None.
Proof. by intros H ->. Qed.

Lemma valid_parts r : validateRecord r = None <->
  cf_Schema r = createFenceSchema /\ validPhase r = true /\ validIntent r = true /\ validCreatedIdentity r = true
  /\ validBaseFirewallAssignment r = true /\ validRollback r = true /\ validProtectionFailure r = true /\ validCleanupResolution r = true
  /\ identity_ok r /\ checkMaterialized r = None /\ checkPhaseContents r = None /\ checkHistory r = None /\ checkDependents r = None.
Proof.
  unfold validateRecord, identity_ok. split.
  - case_test; [done|]. bool_hyps. case_test; [done|].
    destruct (if public_profile _ then _ else _) eqn:Ep; [done|].
    destruct (validateCreateInventory (cf_Baseline r)) eqn:Ei; [done|].
    destruct (checkMaterialized r); [done|]. destruct (checkPhaseContents r); [done|]. destruct (checkHistory r); [done|].
    intros Hd. repeat split; try done. intros Hp. rewrite Hp in Ep. by destruct (validateNodePoolClaimIdentity _ _).
  - intros (Hs & -> & -> & -> & -> & -> & -> & -> & (_ & -> & Hb & Hn & Hi) & Hm & Hc & Hh & Hd).
    rewrite Hs, bool_decide_eq_true_2, Hb by done. cbn [negb orb].
    destruct (public_profile _) eqn:Ep; [rewrite Hn by done|]; by rewrite Hi, Hm, Hc, Hh, Hd.
Qed.

Lemma created_identity r : validCreatedIdentity r = true <-> unanchored r \/ anchored r.
Proof.
  unfold validCreatedIdentity, unanchored, anchored. rewrite orb_true_iff, !andb_true_iff, is_nil_true, !bool_decide_eq_true. intuition congruence.
Qed.
Lemma anchored_nonempty r : anchored r -> cf_CreatedVMUUID r <> "".
Proof. intros (_ & Hp & _) E. by rewrite E in Hp. Qed.

Lemma receipt_nonempty a p : receipt a p -> p <> "".
Proof. by destruct 1. Qed.

Lemma assignment_identity a r :
  (ba_FirewallUUID a == ci_FirewallUUID (cf_Cleanup r)) && negb (ba_IntentAt a =? 0)
  && (((cf_CreatedVMUUID r == "") && (ba_VMUUID a == "")) || ((cf_CreatedVMUUID r != "") && (ba_VMUUID a == cf_CreatedVMUUID r))) = true
  <-> bound_to a r.
Proof.
  unfold bound_to. rewrite !andb_true_iff, orb_true_iff, !andb_true_iff, !negb_true_iff, !bool_decide_eq_true, bool_decide_eq_false, Z.eqb_neq.
  destruct (decide (cf_CreatedVMUUID r = "")); intuition congruence.
Qed.

Lemma base_firewall r : validBaseFirewallAssignment r = true <-> exists a, assigned r a.
Proof.
  unfold validBaseFirewallAssignment, assigned. split.
  - destruct (cf_BaseFirewallAssignment r) as [a|]; [|done]. cbn zeta.
    pose proof (assignment_identity a r) as Hid. destruct (_ && negb (ba_IntentAt a =? 0) && _) eqn:Hi.
    2: { repeat case_bool_decide; done. }
    intros H. exists a. split; [done|]. split; [by apply Hid|].
    repeat case_bool_decide; try done; bool_hyps; match goal with E : ba_Phase a = _ |- _ => rewrite E end;
      constructor; try done; by apply is_nil_true.
  - intros (a & -> & Hb & Hr). cbn zeta. apply assignment_identity in Hb. rewrite Hb.
    remember (ba_Phase a) as p eqn:E. destruct Hr; const_tests; by_facts.
Qed.

Lemma history_iff r : history_ok r <->
  validCleanupResolution r = true /\ checkHistory r = None /\ (List.length (cf_CleanupResolutions r) <= MaxCreateCleanupResolutions)%nat
  /\ (cf_CleanupResolutions r <> [] -> cf_CleanupVMUUID r <> "").
Proof.
  unfold history_ok, validCleanupResolution, checkHistory. rewrite <-validHistory_history. split.
  - intros (Hh & Hl & [(-> & -> & -> & -> & E)|(Ht & Ha)]); [rewrite E in *; by repeat split|].
    rewrite Ha, Ht, Hh, andb_false_r. cbn [negb]. unfold activeReceiptStored in Ha. apply existsb_exists in Ha as (c & Hin & Ha). bool_hyps.
    apply validHistory_history, history_canonical in Hh. rewrite List.Forall_forall in Hh.
    destruct (Hh c Hin) as [Hu _ [Hn _] Hp].
    assert (cr_PublicIPv4 c <> "") by (by intros E; rewrite E in Hp).
    assert (cr_VMUUID c <> "") by (intros E; by rewrite E in Hu).
    repeat match goal with E : _ c = _ |- _ => rewrite E in *; clear E end. split; [|done].
    rewrite Hu, !bool_decide_eq_false_2 by done. by rewrite !andb_false_r.
  - intros (Hc & Hh & Hl & Hv). destruct (validHistory None _) eqn:Ev; [|done]. cbn [negb] in Hh. split; [done|]. split; [done|].
    apply orb_true_iff in Hc as [Hc|Hc]; bool_hyps.
    + left. repeat split; try done; [by apply is_nil_true|]. destruct (cf_CleanupResolutions r); [done|]. by destruct Hv.
    + right. split; [done|]. destruct (activeReceiptStored r); [done|].
      rewrite bool_decide_eq_false_2 in Hh; [done|]. intros E. rewrite E in *. done.
Qed.

Lemma dependents_iff r : checkDependents r = None <-> dependents_ok r.
Proof.
  unfold checkDependents, dependents_ok, dispositions. destruct (cf_RollbackAt r) as [t|]; simpl.
  - destruct (cf_DependentsResolvedAt r) as [t'|]; simpl.
    + destruct (t' =? 0); simpl; [split; [done|]; by intros [[?|?] _]|].
      destruct (_ =? 1)%nat eqn:E; simpl; split; try done; [intros _; split; [by right|by apply Nat.eqb_eq]|]. intros [_ H]. by rewrite H in E.
    + destruct (_ =? 1)%nat eqn:E; simpl; split; try done; [intros _; split; [by left|by apply Nat.eqb_eq]|]. intros [_ H]. by rewrite H in E.
  - destruct (cf_DependentUnresolved r), (cf_DependentsResolvedAt r); simpl; naive_solver.
Qed.

Lemma phase_sound r :
  validPhase r = true -> validIntent r = true -> validCreatedIdentity r = true -> validBaseFirewallAssignment r = true -> validRollback r = true ->
  validProtectionFailure r = true -> checkMaterialized r = None -> checkPhaseContents r = None -> in_phase r (cf_Phase r).
Proof.
  intros Hp Hi Hc Hb Hr Hf Hm Ht. apply created_identity in Hc. apply base_firewall in Hb as (a & Ha).
  assert (assignment_phase_is r = fun p => ba_Phase a == p) as Hap.
  { unfold assignment_phase_is. by destruct Ha as [-> _]. }
  assert (cf_CreatedVMUUID r <> "" -> anchored r) as Hanch.
  { intros Hne. destruct Hc as [[_ ?]|?]; done. }
  assert (cf_CreatedVMUUID r = "" -> unanchored r) as Hunanch.
  { intros Hne. destruct Hc as [?|Hc]; [done|]. by apply anchored_nonempty in Hc. }
  unfold validPhase, validIntent, validRollback, validProtectionFailure, checkMaterialized, checkPhaseContents in *. rewrite !Hap in Ht. clear Hap.
  repeat (apply orb_true_iff in Hp as [Hp|Hp]); bool_hyps;
    match goal with E : cf_Phase r = _ |- _ => rewrite E in *; clear E end; const_tests; rewrite ?andb_false_r, ?orb_false_r in *.
  all: repeat (case_test_in Ht; [done|]); bool_hyps; rewrite ?is_nil_true in *.
  - eapply in_reserved; try done; auto.
  - eapply (in_issued r a); try done.
    + split; [done|]. split; [done|]. apply orb_true_iff in Hi as [Hi|Hi]; bool_hyps; auto.
    + rewrite !orb_true_iff, !andb_true_iff, is_nil_true, negb_true_iff, bool_decide_eq_false in Hr. naive_solver.
    + rewrite !orb_true_iff, !andb_true_iff, !is_nil_true, negb_true_iff, bool_decide_eq_false in Hf. naive_solver.
  - eapply (in_rejected r a); try done; auto.
    split; [done|]. split; [done|]. apply orb_true_iff in Hi as [Hi|Hi]; bool_hyps; auto.
  - destruct (normalizeCleanupResolution _) as [c|] eqn:En; [|by repeat case_test_in Hm].
    pose proof Ha as [Ea _]. rewrite Ea in Hm. repeat (case_test_in Hm; [done|]). bool_hyps.
    apply normalize_Ok in En as [[Hu Hl [Hn Hlen] Hip] ->]. simpl in *.
    eapply (in_materialized r a); try done; try congruence; [|by apply Hanch].
    split; [done|]. split; [done|]. apply orb_true_iff in Hi as [Hi|Hi]; bool_hyps; auto.
Qed.

Lemma issued_parts r : issued r ->
  createFenceKeyHashPattern (cf_IssueID r) = true /\ time_set (cf_IssuedAt r) = true
  /\ (cf_Intent r == CreateAuthorizationPost) || (cf_Intent r == CreateAuthorizationAdoption) = true.
Proof. intros (? & ? & [->| ->]); by repeat split. Qed.

Lemma materialized_canonical r :
  anchored r -> cf_ObservedVMUUID r = cf_CreatedVMUUID r -> cf_FloatingIPName r <> "" -> (String.length (cf_FloatingIPName r) <= 255)%nat ->
  public_IPv4 (cf_PublicIPv4 r) <> None ->
  normalizeCleanupResolution (Build_FencedCreateCleanupResolution (cf_ObservedVMUUID r) (cf_FloatingIPName r) (cf_PublicIPv4 r) false)
  = Ok (Build_FencedCreateCleanupResolution (cf_ObservedVMUUID r) (cf_FloatingIPName r) (cf_PublicIPv4 r) false).
Proof. intros (_ & Hu & Hl) E Hn Hlen Hip. apply normalize_canonical. split; simpl; rewrite ?E; done. Qed.

Lemma phase_complete r :
  in_phase r (cf_Phase r) -> (List.length (cf_CleanupResolutions r) <= MaxCreateCleanupResolutions)%nat ->
  (cf_CleanupResolutions r <> [] -> cf_CleanupVMUUID r <> "") ->
  validPhase r = true /\ validIntent r = true /\ validCreatedIdentity r = true /\ validBaseFirewallAssignment r = true /\ validRollback r = true
  /\ validProtectionFailure r = true /\ checkMaterialized r = None /\ checkPhaseContents r = None.
Proof.
  intros Hp Hl Hv.
  assert (exists a, assigned r a) as Hb by (destruct Hp; eauto).
  assert (unanchored r \/ anchored r) as Hc by (destruct Hp; auto).
  rewrite base_firewall, created_identity.
  assert ((MaxCreateCleanupResolutions <? List.length (cf_CleanupResolutions r))%nat = false) as Hl' by (by apply Nat.ltb_ge).
  assert (negb (List.length (cf_CleanupResolutions r) =? 0)%nat && (cf_CleanupVMUUID r == "") = false) as Hv'.
  { destruct (cf_CleanupResolutions r); [done|]. rewrite bool_decide_eq_false_2; [by rewrite andb_false_r|]. by apply Hv. }
  unfold validPhase, validIntent, validRollback, validProtectionFailure, checkMaterialized, checkPhaseContents, assignment_phase_is.
  rewrite Hl', Hv'. remember (cf_Phase r) as p eqn:Ep. clear Ep Hv Hl Hl' Hv'.
  destruct Hp as [a|a|a|a].
  all: match goal with H : assigned _ _ |- _ => pose proof (proj1 H) as Ea; rewrite Ea end; const_tests; cbn [is_nil].
  - destruct H2, H3. repeat split; auto; by_facts.
  - destruct (issued_parts r) as (? & ? & ?); [done|]. destruct H0. repeat split; auto.
    + by_facts.
    + destruct H2 as [H2|[H2 Han]]; [by_facts|]. apply anchored_nonempty in Han. by_facts. apply orb_true_r.
    + destruct H3 as [H3|(H3 & Han & Hr)]; [by_facts|]. apply anchored_nonempty in Han. by_facts. apply orb_true_r.
    + by_facts.
  - destruct (issued_parts r) as (? & ? & ?); [done|]. destruct H0, H1. repeat split; auto; by_facts.
  - destruct (issued_parts r) as (? & ? & ?); [done|]. pose proof (anchored_nonempty _ H1). rewrite materialized_canonical by done. simpl.
    pose proof (proj1 (proj2 H1)). assert (cf_PublicIPv4 r <> "") by (intros E; by rewrite E in H5).
    repeat split; auto.
    + by_facts. by rewrite H2, H14.
    + by_facts.
    + by_facts.
    + rewrite !(bool_decide_eq_true_2 (cf_ObservedVMUUID r = _)), (bool_decide_eq_true_2 (cf_PublicIPv4 r = _)), H2 by done. by_facts.
      by rewrite !bool_decide_eq_true_2.
Qed.

(** The records that the checks accept are the well-formed ones. *)
Lemma wf_valid r : wf r <-> validateRecord r = None.
Proof.
  rewrite valid_parts. split.
  - intros [Hid Hp Hh Hd]. apply history_iff in Hh as (Hc & Hh & Hl & Hv). apply dependents_iff in Hd.
    destruct (phase_complete r) as (? & ? & ? & ? & ? & ? & ? & ?); try done. pose proof (proj1 Hid). split_and!; done.
  - intros (_ & ? & ? & ? & ? & ? & ? & Hc & Hid & ? & Ht & Hh & Hd). split; [done|by apply phase_sound| |by apply dependents_iff].
    apply history_iff. split; [done|]. split; [done|]. unfold checkPhaseContents in Ht.
    destruct (_ && assignment_phase_is _ _); [done|].
    destruct (Nat.ltb _ _) eqn:El in Ht; [done|]. apply Nat.ltb_ge in El. split; [done|].
    destruct (_ && _) eqn:Ev in Ht; [done|]. intros Hne E. rewrite E in Ev. destruct (cf_CleanupResolutions r); [done|]. by simpl in Ev.
Qed.

(** A record that is well formed, and that JSON reproduces, is read back as it was written. *)
Lemma decode_encode r : wf r -> c_good record_codec r = true -> decodeCreateFence (Marshal record_codec r) = Ok r.
Proof.
  intros Hw Hg. unfold decodeCreateFence. rewrite bool_decide_eq_false_2 by apply Marshal_nonempty. rewrite (Unmarshal_Marshal record_codec r Hg).
  apply wf_valid in Hw as Hv. pose proof (proj1 (wf_identity r Hw)) as Hs. rewrite (bool_decide_eq_false_2 (cf_Schema r = _)); [|by rewrite Hs]. by rewrite Hv.
Qed.
Lemma decode_wf s r : decodeCreateFence s = Ok r -> wf r.
Proof.
  unfold decodeCreateFence. case_test; [done|]. destruct (Unmarshal record_codec s); [|done]. cbv zeta.
  destruct (validateRecord _) eqn:E; [done|]. intros [= <-]. by apply wf_valid.
Qed.
Lemma parse_wf s b r : parseCreateFence s b = Ok r -> wf r /\ cf_Binding r = b.
Proof.
  unfold parseCreateFence. destruct (decodeCreateFence s) as [r'|] eqn:E; [|done]. apply decode_wf in E.
  case_test; [done|]. intros [= <-]. by bool_hyps.
Qed.
End Valid.
