(* ===== verification/CreateFenceLifecycle.v ===== *)
(** * The life of a create fence

    [fence_step] has one constructor per writer of the create fence: the operations of the store and
    the two writers of the controller. Every step keeps a record well formed, except that a rollback
    without a receipt can contradict a receipt that is already stored ([contradictory]). Over any
    sequence of steps, what identifies the attempt never changes, decisions are never taken back, and
    an attempt ends rejected, materialized or rolled back, never in two of these ways. *)

From S2P Require Import Prelude GoErrors CSIFence GoJSON GoNet CreateFence CreateFenceDecode CreateFenceSteps CreateFenceEncoding CreateFenceSpec.

(** ** Steps *)

Definition key (issueID : string) : Prop := createFenceKeyHashPattern issueID = true.

Inductive fence_step (r : createFenceRecord) : createFenceRecord -> Prop :=
  | step_authorize token intent issueID assignmentIssueID now :
      authorize_check r token intent = None -> pre_vm_intent r = true -> key issueID -> key assignmentIssueID -> now <> 0 ->
      fence_step r (authorize_write r intent issueID assignmentIssueID now)
  | step_created token issueID vmUUID now :
      canonical_identity vmUUID issueID = true -> ToLower vmUUID = vmUUID -> created_check r token issueID vmUUID = Ok false -> now <> 0 ->
      fence_step r (created_write r vmUUID now)
  | step_assignment_issue token vmUUID a issueID now :
      base_firewall_check r token vmUUID = None -> cf_BaseFirewallAssignment r = Some a ->
      baseFirewallAssignmentMatches (Some a) vmUUID (ci_FirewallUUID (cf_Cleanup r)) = true ->
      ba_Phase a = FirewallAssignmentIntent \/ ba_Phase a = FirewallAssignmentRejected -> key issueID -> now <> 0 ->
      fence_step r (update_assignment (assignment_issue issueID now) r)
  | step_assignment_finish vmUUID a terminal now :
      createFenceVMUUIDPattern vmUUID = true -> terminal_phase terminal = true -> cf_BaseFirewallAssignment r = Some a ->
      baseFirewallAssignmentMatches (Some a) vmUUID (ci_FirewallUUID (cf_Cleanup r)) = true ->
      ba_Phase a = FirewallAssignmentIssued -> now <> 0 ->
      fence_step r (update_assignment (assignment_finish terminal now) r)
  | step_protection_fail token issueID vmUUID now :
      createFenceVMUUIDPattern vmUUID = true -> protection_fail_check r token issueID vmUUID = Ok false -> now <> 0 ->
      fence_step r (protection_fail_write r now)
  | step_protection_clear token issueID vmUUID :
      createFenceVMUUIDPattern vmUUID = true -> protection_clear_check r token issueID vmUUID = Ok false ->
      fence_step r (protection_clear_write r)
  | step_rollback token issueID vmUUID canonical now resolvedAt r' :
      createFenceVMUUIDPattern vmUUID = true -> rollback_check r token issueID vmUUID canonical = Ok false ->
      (forall c, canonical = Some c -> normalizeCleanupResolution c = Ok c /\ cr_VMUUID c = vmUUID /\ resolvedAt <> 0) ->
      (cf_RollbackAt r = None -> now <> 0) -> rollback_write r canonical now resolvedAt = Ok r' ->
      fence_step r r'
  | step_reject token issueID now :
      reject_check r token issueID = Ok false -> now <> 0 -> fence_step r (reject_write r now)
  | step_materialize update token vm now :
      materialize_check r update token (Some vm) = Ok false -> now <> 0 ->
      (forall u, update = Ok u -> validateFloatingIPUpdateFence (floatingIPUpdateFenceFromRecord u) = None) ->
      fence_step r (materialize_write r vm now)
  | step_terminal token vmUUID now :
      terminal_check r token vmUUID = Ok false -> now <> 0 -> fence_step r (terminal_write r now)
  | step_dependents now :
      dependents_check r = None -> now <> 0 -> fence_step r (dependents_write r now)
  | step_cleanup resolution publicIP now r' :
      cleanup_check r resolution = Ok publicIP -> now <> 0 -> cleanup_write r resolution now = Ok r' -> fence_step r r'.

(** A rollback that says both that the VM's dependents are unknown and what they are. *)
Definition contradictory (r : createFenceRecord) : bool :=
  negb (is_nil (cf_RollbackAt r)) && createdReceipt r && cf_DependentUnresolved r.

(** ** Reading a state *)

Lemma reserved_state r : in_phase r createFenceReserved ->
  exists a, cf_IssueID r = "" /\ cf_IssuedAt r = None /\ unobserved r /\ unanchored r /\ cf_RollbackAt r = None /\ cf_ProtectionFailureAt r = None
    /\ assigned r a /\ ba_Phase a = FirewallAssignmentIntent.
Proof. intros H. remember createFenceReserved as p eqn:E. destruct H; try discriminate E. eauto 12. Qed.
Lemma issued_state r : in_phase r createFenceIssued ->
  exists a, issued r /\ unobserved r /\ (unanchored r \/ anchored r)
    /\ (cf_RollbackAt r = None \/ time_set (cf_RollbackAt r) = true /\ anchored r)
    /\ (cf_ProtectionFailureAt r = None \/ time_set (cf_ProtectionFailureAt r) = true /\ anchored r /\ cf_RollbackAt r = None)
    /\ assigned r a /\ ba_Phase a <> FirewallAssignmentIntent.
Proof. intros H. remember createFenceIssued as p eqn:E. destruct H; try discriminate E. eauto 12. Qed.
Lemma materialized_state r : in_phase r createFenceMaterialized ->
  exists a, issued r /\ time_set (cf_ObservedAt r) = true /\ anchored r /\ cf_ObservedVMUUID r = cf_CreatedVMUUID r
    /\ cf_FloatingIPName r <> "" /\ (String.length (cf_FloatingIPName r) <= 255)%nat /\ public_IPv4 (cf_PublicIPv4 r) <> None
    /\ cf_RollbackAt r = None /\ cf_ProtectionFailureAt r = None /\ assigned r a /\ ba_Phase a = FirewallAssignmentObserved.
Proof. intros H. remember createFenceMaterialized as p eqn:E. destruct H; try discriminate E. eauto 14. Qed.
Lemma issued_receipt a : receipt a FirewallAssignmentIssued ->
  createFenceKeyHashPattern (ba_IssueID a) = true /\ time_set (ba_IssuedAt a) = true /\ ba_RejectedAt a = None /\ ba_ObservedAt a = None.
Proof. intros H. remember FirewallAssignmentIssued as p eqn:E. by destruct H; try discriminate E. Qed.
(** Outside the issued phase nothing is rolled back. *)
Lemma rollback_phase r t : in_phase r (cf_Phase r) -> cf_RollbackAt r = Some t -> cf_Phase r = createFenceIssued.
Proof. intros H E. by destruct H; try congruence. Qed.
Lemma created_phase r : in_phase r (cf_Phase r) -> cf_CreatedVMUUID r <> "" -> cf_Phase r = createFenceIssued \/ cf_Phase r = createFenceMaterialized.
Proof. intros H Hc. destruct H; auto; exfalso; apply Hc; match goal with U : unanchored r |- _ => apply U end. Qed.

Section Steps.
Context `{PE : ProviderEnv, JT : JSONText, TT : TimeText}.

Lemma clock_set now : now <> 0 -> time_set (Some now) = true.
Proof. intros H. simpl. by apply negb_true_iff, Z.eqb_neq. Qed.

(** A step that keeps identity and history keeps the rest of well-formedness when phase and
    dependents are well formed. *)
Lemma wf_change r r' :
  wf r -> identity_of r' = identity_of r ->
  in_phase r' (cf_Phase r') -> history_ok r' -> dependents_ok r' -> wf r'.
Proof. intros Hw Hi Hp Hh Hd. split; [|done..]. by apply (identity_ok_of r), Hw. Qed.

Lemma authorize_wf r token intent i j now :
  wf r -> authorize_check r token intent = None -> pre_vm_intent r = true -> key i -> key j -> now <> 0 -> wf (authorize_write r intent i j now).
Proof.
  intros Hw Hc Hv Hi Hj Hn. apply clock_set in Hn. unfold authorize_check in Hc. repeat (case_test_in Hc; [done|]). bool_hyps.
  pose proof (wf_phase r Hw) as Hp. match goal with E : cf_Phase r = _ |- _ => rewrite E in Hp end.
  apply reserved_state in Hp as (a & _ & _ & Hu & Ha & Hr & Hf & (Ea & Hb & Hrc) & Hph).
  unfold pre_vm_intent in Hv. rewrite Ea in Hv. bool_hyps.
  apply (wf_change r); [done|reflexivity| |apply Hw|].
  - change (cf_Phase (authorize_write r intent i j now)) with createFenceIssued.
    eapply (in_issued _ (a <| ba_Phase := FirewallAssignmentIssued |> <| ba_IssueID := j |> <| ba_IssuedAt := Some now |>)); auto.
    + split; [done|]. split; [done|]. simpl. repeat case_bool_decide; auto; done.
    + split; [simpl; by rewrite Ea|]. split; [done|]. rewrite Hph in Hrc. remember FirewallAssignmentIntent as p eqn:Ep. destruct Hrc; try discriminate Ep. by constructor.
  - pose proof (wf_dependents r Hw) as Hd. unfold dependents_ok in *. simpl in *. by rewrite Hr in *.
Qed.

(** The receipt of the base firewall, read from a match with a canonical VM. *)
Lemma matches_identity a vmUUID fw : baseFirewallAssignmentMatches (Some a) vmUUID fw = true -> ba_VMUUID a = ToLower vmUUID /\ ba_FirewallUUID a = fw.
Proof. simpl. intros H. by bool_hyps. Qed.

Lemma created_wf r token i vm now :
  wf r -> canonical_identity vm i = true -> ToLower vm = vm -> created_check r token i vm = Ok false -> now <> 0 -> wf (created_write r vm now).
Proof.
  intros Hw Hid Hlow Hc Hn. apply clock_set in Hn. unfold canonical_identity in Hid. unfold created_check in Hc.
  case_test_in Hc; [done|]. case_test_in Hc; [by repeat case_test_in Hc|]. case_test_in Hc; [done|].
  bool_hyps. rewrite is_nil_true in *.
  pose proof (wf_phase r Hw) as Hp. match goal with E : cf_Phase r = _ |- _ => rewrite E in Hp end.
  apply issued_state in Hp as (a & Hi & Hu & _ & Hr & Hf & (Ea & Hb & Hrc) & Hph). rewrite Ea in Hc. case_test_in Hc; [done|]. bool_hyps.
  assert (cf_ProtectionFailureAt r = None) as Hpf.
  { destruct Hf as [?|(_ & Han & _)]; [done|]. by apply anchored_nonempty in Han. }
  apply (wf_change r); [done|reflexivity| |apply Hw|].
  - match goal with E : cf_Phase r = _ |- _ => change (in_phase (created_write r vm now) (cf_Phase r)); rewrite E end.
    eapply (in_issued _ (a <| ba_VMUUID := vm |>)); auto.
    + right. split; [done|]. by split.
    + split; [simpl; rewrite Ea; simpl; by rewrite bool_decide_eq_true_2|]. split; [by destruct Hb as (? & ? & ?)|].
      match goal with E : ba_Phase a = _ |- _ => change (receipt (a <| ba_VMUUID := vm |>) (ba_Phase a)); rewrite E in * end.
      apply issued_receipt in Hrc as (? & ? & ? & ?). by constructor.
  - pose proof (wf_dependents r Hw) as Hd. unfold dependents_ok in *. simpl in *.
    by match goal with E : cf_RollbackAt r = None |- _ => rewrite E in * end.
Qed.

(** Changing the receipt of the base firewall. *)
Lemma assignment_wf r a f :
  wf r -> cf_Phase r = createFenceIssued -> cf_BaseFirewallAssignment r = Some a ->
  ba_VMUUID (f a) = ba_VMUUID a -> ba_FirewallUUID (f a) = ba_FirewallUUID a -> ba_IntentAt (f a) = ba_IntentAt a ->
  receipt (f a) (ba_Phase (f a)) -> ba_Phase (f a) <> FirewallAssignmentIntent -> wf (update_assignment f r).
Proof.
  intros Hw Hph Ea E1 E2 E3 Hrc Hni. pose proof (wf_phase r Hw) as Hp. rewrite Hph in Hp.
  apply issued_state in Hp as (a' & Hi & Hu & Hc & Hr & Hf & (Ea' & Hb & _) & _). rewrite Ea in Ea'. injection Ea' as <-.
  apply (wf_change r); [done|reflexivity| |apply Hw|apply Hw].
  change (in_phase (update_assignment f r) (cf_Phase r)). rewrite Hph. eapply (in_issued _ (f a)); auto.
  split; [simpl; by rewrite Ea|]. split; [|done]. destruct Hb as (? & ? & ?). unfold bound_to. by rewrite E1, E2, E3.
Qed.

Lemma issued_assigned r a : wf r -> cf_Phase r = createFenceIssued -> cf_BaseFirewallAssignment r = Some a -> bound_to a r /\ receipt a (ba_Phase a).
Proof.
  intros Hw Hph Ea. pose proof (wf_phase r Hw) as Hp. rewrite Hph in Hp.
  apply issued_state in Hp as (a' & _ & _ & _ & _ & _ & (Ea' & Hb & Hrc) & _). rewrite Ea in Ea'. by injection Ea' as <-.
Qed.

Lemma assignment_issue_wf r token vm a i now :
  wf r -> base_firewall_check r token vm = None -> cf_BaseFirewallAssignment r = Some a -> key i -> now <> 0 -> wf (update_assignment (assignment_issue i now) r).
Proof.
  intros Hw Hc Ea Hi Hn. unfold base_firewall_check in Hc. case_test_in Hc; [done|]. bool_hyps.
  eapply assignment_wf; try done. by constructor; [|apply clock_set|..].
Qed.

(** A receipt that is issued, for a VM, belongs to an issued attempt. *)
Lemma issued_receipt_phase r a : wf r -> cf_BaseFirewallAssignment r = Some a -> ba_Phase a = FirewallAssignmentIssued -> cf_Phase r = createFenceIssued.
Proof.
  intros Hw Ea Ep. pose proof (wf_phase r Hw) as Hp. destruct Hp as [a'|a'|a'|a']; [|done| |];
    match goal with H : assigned r a' |- _ => destruct H as [Ea' _]; rewrite Ea in Ea'; injection Ea' as <- end;
    match goal with H : ba_Phase a = _ |- _ => rewrite H in Ep; discriminate Ep end.
Qed.

Lemma assignment_finish_wf r vm a terminal now :
  wf r -> createFenceVMUUIDPattern vm = true -> terminal_phase terminal = true -> cf_BaseFirewallAssignment r = Some a ->
  baseFirewallAssignmentMatches (Some a) vm (ci_FirewallUUID (cf_Cleanup r)) = true -> ba_Phase a = FirewallAssignmentIssued -> now <> 0 ->
  wf (update_assignment (assignment_finish terminal now) r).
Proof.
  intros Hw Hv Ht Ea Hm Ep Hn. apply clock_set in Hn. pose proof (issued_receipt_phase r a Hw Ea Ep) as Hph.
  destruct (issued_assigned r a Hw Hph Ea) as [_ Hrc]. rewrite Ep in Hrc. apply matches_identity in Hm as [Hvm _].
  assert (ba_VMUUID a <> "") as Hne. { rewrite Hvm. intros E. apply (proj1 (ToLower_nil_iff vm)) in E. by rewrite E in Hv. }
  apply issued_receipt in Hrc as (? & ? & ? & ?). unfold terminal_phase in Ht. apply orb_true_iff in Ht as [Ht|Ht]; bool_hyps; subst terminal; unfold assignment_finish; const_tests;
    (eapply assignment_wf; try done; by constructor).
Qed.

(** The live anchored attempt of a protection failure. *)
Lemma live_state r token i vm : wf r -> createFenceVMUUIDPattern vm = true -> live_anchored r token i vm = true ->
  cf_Phase r = createFenceIssued /\ anchored r /\ cf_RollbackAt r = None.
Proof.
  intros Hw Hv Hl. unfold live_anchored in Hl. bool_hyps. rewrite is_nil_true in *.
  pose proof (wf_phase r Hw) as Hp. match goal with E : cf_Phase r = _ |- _ => rewrite E in Hp end.
  apply issued_state in Hp as (a & _ & _ & Hc & _). split; [done|]. split; [|done].
  destruct Hc as [[_ E]|?]; [|done]. exfalso. subst vm. by rewrite E in Hv.
Qed.

Lemma protection_wf r t :
  wf r -> cf_Phase r = createFenceIssued -> anchored r -> cf_RollbackAt r = None -> (t = None \/ time_set t = true) ->
  wf (r <| cf_ProtectionFailureAt := t |>).
Proof.
  intros Hw Hph Han Hr Ht. pose proof (wf_phase r Hw) as Hp. rewrite Hph in Hp.
  apply issued_state in Hp as (a & Hi & Hu & Hc & Hrb & _ & Ha & Hna).
  apply (wf_change r); [done|reflexivity| |apply Hw|apply Hw].
  change (in_phase (r <| cf_ProtectionFailureAt := t |>) (cf_Phase r)). rewrite Hph. eapply (in_issued _ a); auto.
  destruct Ht as [->|Ht]; [by left|]. right. done.
Qed.

(** ** Receipts *)

Lemma apply_receipt r c now r' :
  applyCleanupResolution r c now = Ok r' -> history (cf_CleanupResolutions r) ->
  (List.length (cf_CleanupResolutions r) <= MaxCreateCleanupResolutions)%nat -> now <> 0 ->
  exists c', normalizeCleanupResolution c = Ok c' /\ canonical c' /\ history_ok r' /\ appended (cf_CleanupResolutions r) (cf_CleanupResolutions r') c'
    /\ r' = r <| cf_CleanupResolvedAt := Some now |> <| cf_CleanupVMUUID := cr_VMUUID c' |> <| cf_CleanupFloatingIPName := cr_FloatingIPName c' |>
              <| cf_CleanupPublicIPv4 := cr_PublicIPv4 c' |> <| cf_CleanupResolutions := cf_CleanupResolutions r' |>.
Proof.
  unfold applyCleanupResolution. intros H Hh Hl Hn. destruct (normalizeCleanupResolution c) as [c'|] eqn:Ec; [|done].
  destruct (normalize_Ok c c' Ec) as [Hc _]. destruct (appendCleanupResolution _ c') as [l|] eqn:El; [|done]. injection H as <-.
  pose proof (append_appended _ _ _ _ El (normalize_canonical _ Hc) Hh Hl) as Ha.
  exists c'. split; [done|]. split; [done|]. split; [|by split].
  split; [apply Ha|]. split; [apply Ha|]. right. split; [by apply clock_set|].
  unfold activeReceiptStored. simpl. apply existsb_exists. exists c'. split; [|by rewrite !bool_decide_eq_true_2].
  apply list_elem_of_In, Ha. by right.
Qed.

Lemma created_receipt_spec r : createdReceipt r = true <-> exists c, c ∈ cf_CleanupResolutions r /\ cr_VMUUID c = cf_CreatedVMUUID r.
Proof.
  unfold createdReceipt. rewrite existsb_exists. split; intros (c & Hin & E); exists c.
  - bool_hyps. split; [by apply list_elem_of_In|done].
  - split; [by apply list_elem_of_In|by rewrite bool_decide_eq_true_2].
Qed.

(** The phase of a record does not depend on its history and dependents. *)
Lemma in_phase_change r r' p :
  identity_of r' = identity_of r -> cf_IssueID r' = cf_IssueID r -> cf_IssuedAt r' = cf_IssuedAt r -> cf_Intent r' = cf_Intent r ->
  cf_LaunchObservedAt r' = cf_LaunchObservedAt r -> cf_CreatedVMUUID r' = cf_CreatedVMUUID r -> cf_ObservedAt r' = cf_ObservedAt r ->
  cf_ObservedVMUUID r' = cf_ObservedVMUUID r -> cf_FloatingIPName r' = cf_FloatingIPName r -> cf_PublicIPv4 r' = cf_PublicIPv4 r ->
  cf_RollbackAt r' = cf_RollbackAt r -> cf_ProtectionFailureAt r' = cf_ProtectionFailureAt r ->
  cf_BaseFirewallAssignment r' = cf_BaseFirewallAssignment r -> in_phase r p -> in_phase r' p.
Proof.
  unfold identity_of. intros [= _ _ Ec _ _ _] E1 E2 E3 E4 E5 E6 E7 E8 E9 E10 E11 E12 H.
  destruct H; econstructor; unfold issued, unobserved, unanchored, anchored, assigned, bound_to in *;
    rewrite ?Ec, ?E1, ?E2, ?E3, ?E4, ?E5, ?E6, ?E7, ?E8, ?E9, ?E10, ?E11, ?E12; eassumption.
Qed.

(** Choosing rollback: the decision is for the anchored VM of an issued attempt. *)
Lemma rollback_state r token i vm canonical b : wf r -> createFenceVMUUIDPattern vm = true -> rollback_check r token i vm canonical = Ok b ->
  cf_Phase r = createFenceIssued /\ anchored r /\ cf_CreatedVMUUID r = vm.
Proof.
  intros Hw Hv H. unfold rollback_check in H. repeat (case_test_in H; [done|]). bool_hyps.
  pose proof (wf_phase r Hw) as Hp. match goal with E : cf_Phase r = _ |- _ => rewrite E in Hp end.
  apply issued_state in Hp as (a & _ & _ & Hc & _). split; [done|]. split; [|done].
  destruct Hc as [[_ E]|?]; [|done]. exfalso. subst vm. by rewrite E in Hv.
Qed.

(** The record that rolls back, before its dependents are decided. *)
Definition rolled_back (r : createFenceRecord) (now : Z) : createFenceRecord :=
  (if is_nil (cf_RollbackAt r) then r <| cf_RollbackAt := Some now |> else r) <| cf_ProtectionFailureAt := None |>.
Lemma rolled_back_phase r now : wf r -> cf_Phase r = createFenceIssued -> anchored r -> (cf_RollbackAt r = None -> now <> 0) ->
  in_phase (rolled_back r now) createFenceIssued /\ time_set (cf_RollbackAt (rolled_back r now)) = true.
Proof.
  intros Hw Hph Han Hn. pose proof (wf_phase r Hw) as Hp. rewrite Hph in Hp.
  apply issued_state in Hp as (a & Hi & Hu & Hc & Hr & _ & Ha & Hna).
  assert (time_set (cf_RollbackAt (rolled_back r now)) = true) as Ht.
  { unfold rolled_back. destruct (cf_RollbackAt r) eqn:E; simpl; rewrite ?E; [destruct Hr as [?|[? _]]; done|by apply clock_set, Hn]. }
  split; [|done]. unfold rolled_back in *. destruct (is_nil (cf_RollbackAt r)); eapply (in_issued _ a); auto.
Qed.

Lemma rollback_wf r token i vm canonical now t r' :
  wf r -> createFenceVMUUIDPattern vm = true -> rollback_check r token i vm canonical = Ok false ->
  (forall c, canonical = Some c -> normalizeCleanupResolution c = Ok c /\ cr_VMUUID c = vm /\ t <> 0) ->
  (cf_RollbackAt r = None -> now <> 0) -> rollback_write r canonical now t = Ok r' -> wf r' \/ contradictory r' = true.
Proof.
  intros Hw Hv Hc Hcan Hn Hwr. destruct (rollback_state _ _ _ _ _ _ Hw Hv Hc) as (Hph & Han & Hvm).
  destruct (rolled_back_phase r now Hw Hph Han Hn) as [Hp Ht]. pose proof (wf_history r Hw) as Hh.
  change (rollback_write r canonical now t) with
    (match canonical with
     | Some c => match applyCleanupResolution (rolled_back r now) c t with
                 | Ok record => Ok (record <| cf_DependentUnresolved := false |> <| cf_DependentsResolvedAt := None |>) | Err e => Err e end
     | None => Ok ((rolled_back r now) <| cf_DependentUnresolved := true |> <| cf_DependentsResolvedAt := None |>)
     end) in Hwr.
  assert (identity_of (rolled_back r now) = identity_of r /\ cf_Phase (rolled_back r now) = cf_Phase r
    /\ cf_CleanupResolutions (rolled_back r now) = cf_CleanupResolutions r /\ cf_CreatedVMUUID (rolled_back r now) = cf_CreatedVMUUID r
    /\ (history_ok r -> history_ok (rolled_back r now))) as (Hid & Hphr & Hres & Hcre & Hhr).
  { unfold rolled_back. by destruct (is_nil (cf_RollbackAt r)). }
  revert Hp Ht Hid Hphr Hres Hcre Hhr Hwr. generalize (rolled_back r now) as q. intros q Hp Ht Hid Hphr Hres Hcre Hhr Hwr.
  destruct canonical as [c|].
  - destruct (Hcan c eq_refl) as (Hnc & Hcv & Ht0). destruct (applyCleanupResolution _ c t) as [r0|] eqn:Eap; [|done].
    injection Hwr as <-. left.
    destruct (apply_receipt _ _ _ _ Eap) as (c' & Hc' & Hcan' & Hh' & Happ & Er0); [by rewrite Hres; apply Hh..|done|].
    rewrite Hnc in Hc'. injection Hc' as <-.
    apply (wf_change r); [done|by rewrite Er0| | |].
    + rewrite Er0. simpl. rewrite Hphr, Hph. by eapply in_phase_change; [..|exact Hp].
    + exact Hh'.
    + unfold dependents_ok. simpl. rewrite Er0. simpl. destruct (cf_RollbackAt q) eqn:E; [|done]. split; [by left|].
      assert (createdReceipt r0 = true) as Hcr.
      { apply created_receipt_spec. exists c. split; [apply Happ; by right|]. rewrite Er0. simpl. by rewrite Hcre, Hvm. }
      unfold dispositions, createdReceipt in *. simpl. rewrite Er0 in Hcr. simpl in Hcr. by rewrite Hcr.
  - injection Hwr as <-. destruct (createdReceipt r) eqn:Hcr.
    + right. unfold contradictory, createdReceipt in *. simpl. rewrite Hres, Hcre, Hcr. by destruct (cf_RollbackAt q).
    + left. apply (wf_change r); [done|done| | |].
      * simpl. rewrite Hphr, Hph. by eapply in_phase_change; [..|exact Hp].
      * by apply Hhr.
      * unfold dependents_ok. simpl. destruct (cf_RollbackAt q) eqn:E; [|done]. split; [by left|].
        unfold dispositions, createdReceipt in *. simpl. by rewrite Hres, Hcre, Hcr.
Qed.

Lemma reject_wf r token i now : wf r -> reject_check r token i = Ok false -> now <> 0 -> wf (reject_write r now).
Proof.
  intros Hw Hc Hn. apply clock_set in Hn. unfold reject_check in Hc. do 4 (case_test_in Hc; [done|]). bool_hyps. rewrite is_nil_true in *.
  pose proof (wf_phase r Hw) as Hp. match goal with E : cf_Phase r = createFenceIssued |- _ => rewrite E in Hp end.
  apply issued_state in Hp as (a & Hi & Hu & Han & _ & Hf & (Ea & Hb & Hrc) & _). rewrite Ea in Hc. case_test_in Hc; [done|]. bool_hyps.
  assert (unanchored r) as Hun by (destruct Han as [?|Han]; [done|by apply anchored_nonempty in Han]).
  apply (wf_change r); [done|reflexivity| |apply Hw|].
  - eapply (in_rejected _ (a <| ba_Phase := FirewallAssignmentRejected |> <| ba_RejectedAt := Some now |>)); auto.
    + destruct Hf as [?|(_ & Han' & _)]; [done|]. by apply anchored_nonempty in Han'.
    + split; [simpl; by rewrite Ea|]. split; [done|].
      match goal with E : ba_Phase a = FirewallAssignmentIssued |- _ => rewrite E in Hrc end. apply issued_receipt in Hrc as (? & ? & ? & ?). by constructor.
  - pose proof (wf_dependents r Hw) as Hd. unfold dependents_ok in *. simpl in *.
    by match goal with E : cf_RollbackAt r = None |- _ => rewrite E in * end.
Qed.

Lemma update_name_bound u : validateFloatingIPUpdateFence (floatingIPUpdateFenceFromRecord u) = None ->
  fu_Name u <> "" /\ (String.length (fu_Name u) <= 128)%nat.
Proof.
  unfold validateFloatingIPUpdateFence, newFloatingIPUpdateFence. simpl. destruct (_ || _) eqn:E; [done|]. intros _. bool_hyps.
  match goal with H : Nat.ltb _ _ = false |- _ => apply Nat.ltb_ge in H end. done.
Qed.

Lemma materialize_wf r update token vm now :
  wf r -> materialize_check r update token (Some vm) = Ok false -> now <> 0 ->
  (forall u, update = Ok u -> validateFloatingIPUpdateFence (floatingIPUpdateFenceFromRecord u) = None) -> wf (materialize_write r vm now).
Proof.
  intros Hw Hc Hn Hu. apply clock_set in Hn. unfold materialize_check in Hc. case_test_in Hc; [done|].
  destruct (validateMaterializedVM r (Some vm)) eqn:Hv; [done|]. destruct (if cf_LegacyV2 r && _ then _ else _) eqn:Hl; [done|].
  repeat (case_test_in Hc; [done|]). clear Hc. bool_hyps. rewrite is_nil_true in *.
  pose proof (wf_phase r Hw) as Hp. match goal with E : cf_Phase r = createFenceIssued |- _ => rewrite E in Hp; pose proof E as Hph end.
  apply issued_state in Hp as (a & Hi & Huo & Han & _ & _ & (Ea & Hb & Hrc) & _).
  rewrite andb_false_r in Hl. destruct update as [u|]; [|done]. destruct (update_name_bound u (Hu u eq_refl)) as [Hname Hlen].
  case_test_in Hl; [done|]. bool_hyps. unfold validateMaterializedVM in Hv. rewrite Ea in Hv. repeat (case_test_in Hv; [done|]).
  destruct (public_IPv4 (vm_PublicIPv4 vm)) as [ip|] eqn:Eip; [|done]. clear Hv. bool_hyps.
  assert (anchored r) as Han'.
  { destruct Han as [[_ E]|?]; [|done]. exfalso.
    match goal with H : cf_CreatedVMUUID r = ToLower _ |- _ => rewrite E in H; symmetry in H; apply (proj1 (ToLower_nil_iff _)) in H end.
    match goal with H : createFenceVMUUIDPattern (vm_UUID vm) = true, E' : vm_UUID vm = "" |- _ => by rewrite E' in H end. }
  apply (wf_change r); [done|reflexivity| |apply Hw|].
  - match goal with E : fu_Name u = _ |- _ => rewrite E in Hname, Hlen end. eapply (in_materialized _ a); auto.
    + simpl. lia.
    + simpl. unfold vm_public_ip. rewrite Eip, (public_IPv4_String _ _ Eip). congruence.
    + by split.
  - pose proof (wf_dependents r Hw) as Hd. unfold dependents_ok in *. simpl in *.
    by match goal with E : cf_RollbackAt r = None |- _ => rewrite E in * end.
Qed.

Lemma terminal_wf r now : wf r -> wf (terminal_write r now).
Proof.
  intros Hw. apply (wf_change r); [done|reflexivity| |apply Hw|apply Hw].
  by eapply in_phase_change; [..|apply (wf_phase r Hw)].
Qed.

Lemma dependents_wf r now : wf r -> dependents_check r = None -> now <> 0 -> wf (dependents_write r now).
Proof.
  intros Hw Hc Hn. unfold dependents_check in Hc. case_test_in Hc; [done|]. bool_hyps.
  apply (wf_change r); [done|reflexivity| |apply Hw|].
  - by eapply in_phase_change; [..|apply (wf_phase r Hw)].
  - pose proof (wf_dependents r Hw) as Hd. unfold dependents_ok, dispositions, createdReceipt in *. simpl.
    destruct (cf_RollbackAt r); [|done]. destruct Hd as [_ Hd]. split; [right; by apply clock_set|].
    match goal with E : cf_DependentUnresolved r = true |- _ => rewrite E in Hd end. simpl in *.
    by destruct (existsb _ _), (cf_DependentsResolvedAt r).
Qed.

(** The history with the receipt of the materialized VM, as the controller extends it first. *)
Lemma observed_history r l :
  wf r ->
  (if cf_ObservedVMUUID r != "" then
     match appendCleanupResolution (cf_CleanupResolutions r)
             (Build_FencedCreateCleanupResolution (cf_ObservedVMUUID r) (cf_FloatingIPName r) (cf_PublicIPv4 r) false) with
     | Err e => Err (Wrap "recording NodeClaim materialized cleanup receipt" [e])
     | Ok l => Ok l
     end
   else Ok (cf_CleanupResolutions r)) = Ok l ->
  history l /\ (List.length l <= MaxCreateCleanupResolutions)%nat /\ (cf_RollbackAt r <> None -> l = cf_CleanupResolutions r).
Proof.
  intros Hw H. pose proof (wf_history r Hw) as (Hh & Hl & _). case_bool_decide as E; simpl in H; [by injection H as <-|].
  pose proof (wf_phase r Hw) as Hp. remember (cf_Phase r) as p eqn:Eph in Hp.
  destruct Hp; try (exfalso; match goal with U : unobserved r |- _ => by apply E, U end).
  destruct (appendCleanupResolution _ _) as [l'|] eqn:Ea; [|done]. injection H as <-.
  eapply append_appended in Ea as [? ? _]; [..|done|done]; [|by apply materialized_canonical]. done.
Qed.

Lemma cleanup_wf r resolution publicIP now r' :
  wf r -> cleanup_check r resolution = Ok publicIP -> now <> 0 -> cleanup_write r resolution now = Ok r' -> wf r'.
Proof.
  intros Hw _ Hn H. unfold cleanup_write in H. destruct (if cf_ObservedVMUUID r != "" then _ else _) as [l|] eqn:El; [|done].
  apply (observed_history r l Hw) in El as (Hh & Hl & Hroll).
  destruct (applyCleanupResolution _ resolution now) as [r0|] eqn:Eap; [|done].
  destruct (apply_receipt _ _ _ _ Eap) as (c & Hc & Hcan & Hh' & Happ & Er0); [done|done|done|]. simpl in Happ.
  pose proof (normalize_Ok _ _ Hc) as [_ Ec].
  assert (cf_CreatedVMUUID r0 = cf_CreatedVMUUID r /\ cf_RollbackAt r0 = cf_RollbackAt r /\ cf_DependentUnresolved r0 = cf_DependentUnresolved r
    /\ cf_DependentsResolvedAt r0 = cf_DependentsResolvedAt r) as (E1 & E2 & E3 & E4) by (by rewrite Er0).
  rewrite E1 in H. pose proof (wf_dependents r Hw) as Hd. pose proof (wf_phase r Hw) as Hp.
  assert (forall u t, in_phase (r0 <| cf_DependentUnresolved := u |> <| cf_DependentsResolvedAt := t |>) (cf_Phase r0)) as Hph.
  { intros u t. rewrite Er0. simpl. by eapply in_phase_change; [..|exact Hp]. }
  assert (cf_RollbackAt r <> None -> cf_CreatedVMUUID r = ToLower (cf_CreatedVMUUID r)) as Hlow.
  { intros Hr. destruct (cf_RollbackAt r) as [tr|] eqn:Er; [|done]. pose proof (rollback_phase r tr Hp Er) as E. rewrite E in Hp.
    apply issued_state in Hp as (a & _ & _ & _ & Hrb & _). rewrite Er in Hrb. destruct Hrb as [?|[_ (_ & _ & ?)]]; [done|congruence]. }
  destruct (_ && EqualFold _ _) eqn:Eq; injection H as <-.
  - bool_hyps. apply EqualFold_eq in H0.
    apply (wf_change r); [done|by rewrite Er0|apply Hph|exact Hh'|].
    unfold dependents_ok in *. simpl. rewrite E2. destruct (cf_RollbackAt r) eqn:Er; [|done]. split; [by left|].
    assert (createdReceipt r0 = true) as Hcr.
    { apply created_receipt_spec. exists c. split; [apply Happ; by right|]. rewrite E1, Hlow by done. rewrite H0. by rewrite Ec. }
    unfold dispositions, createdReceipt in *. simpl. by rewrite Hcr.
  - assert (r0 = r0 <| cf_DependentUnresolved := cf_DependentUnresolved r |> <| cf_DependentsResolvedAt := cf_DependentsResolvedAt r |>) as Er0'.
    { rewrite <-E3, <-E4. by destruct r0. }
    apply (wf_change r); [done|by rewrite Er0|rewrite Er0' at 1; apply Hph|exact Hh'|].
    unfold dependents_ok, dispositions in *. rewrite E2, E3, E4. destruct (cf_RollbackAt r) eqn:Er; [|done]. destruct Hd as [Hd1 Hd2]. split; [done|].
    assert (createdReceipt r0 = createdReceipt r) as ->; [|done].
    apply eq_true_iff_eq. rewrite !created_receipt_spec, E1. rewrite Hroll in Happ by done. split; intros (x & Hx & Ex); exists x.
    + apply Happ in Hx as [?| ->]; [done|]. exfalso. rewrite Ec in Ex. simpl in Ex. apply andb_false_iff in Eq as [Eq|Eq]; bool_hyps.
      * apply (anchored_nonempty r); [|done]. pose proof (rollback_phase r _ Hp Er) as E. rewrite E in Hp.
        apply issued_state in Hp as (a & _ & _ & _ & Hrb & _). rewrite Er in Hrb. by destruct Hrb as [?|[_ ?]].
      * assert (EqualFold (cf_CreatedVMUUID r) (cr_VMUUID resolution) = true) as Hf; [|congruence].
        apply EqualFold_eq. rewrite <-Ex. by rewrite ToLower_idem.
    + split; [apply Happ; by left|done].
Qed.

(** Every step keeps a record well formed, or writes a contradictory rollback. *)
Lemma step_wf r r' : wf r -> fence_step r r' -> wf r' \/ contradictory r' = true.
Proof.
  intros Hw Hs. destruct Hs; lazymatch goal with H : rollback_write _ _ _ _ = _ |- _ => idtac | _ => left end.
  - by eapply authorize_wf.
  - by eapply created_wf.
  - by eapply assignment_issue_wf.
  - by eapply assignment_finish_wf.
  - unfold protection_fail_check in *. case_test_in H0; [done|]. bool_hyps. apply live_state in Heqb as (? & ? & ?); [|done..].
    apply protection_wf; auto. right. by apply clock_set.
  - unfold protection_clear_check in *. case_test_in H0; [done|]. bool_hyps. apply live_state in Heqb as (? & ? & ?); [|done..].
    apply protection_wf; auto.
  - by eapply rollback_wf.
  - by eapply reject_wf.
  - by eapply materialize_wf.
  - by apply terminal_wf.
  - by apply dependents_wf.
  - by eapply cleanup_wf.
Qed.

(** What is read, changed by a step and written is read back as written. *)
Lemma step_readable s r r' :
  decodeCreateFence s = Ok r -> fence_step r r' -> c_good record_codec r' = true -> contradictory r' = false ->
  decodeCreateFence (Marshal record_codec r') = Ok r'.
Proof.
  intros Hd Hs Hg Hc. apply decode_wf in Hd. apply (step_wf r r' Hd) in Hs as [Hw|Hk]; [by apply decode_encode|congruence].
Qed.
(** A contradictory record is refused by every reader. *)
Lemma contradictory_unreadable r :
  contradictory r = true -> c_good record_codec r = true -> exists e, decodeCreateFence (Marshal record_codec r) = Err e.
Proof.
  intros Hc Hg. destruct (decodeCreateFence (Marshal record_codec r)) as [r'|e] eqn:E; [exfalso|eauto].
  pose proof (decode_wf _ _ E) as Hw. unfold decodeCreateFence in E. case_test_in E; [done|]. rewrite (Unmarshal_Marshal record_codec r Hg) in E.
  cbv zeta in E. destruct (validateRecord _) as [?|]; [done|]. injection E as <-. pose proof (wf_dependents _ Hw) as Hd.
  unfold contradictory in Hc. bool_hyps. unfold dependents_ok, dispositions in Hd.
  assert (forall x, let r' := (if cf_Schema r == legacyCreateFenceSchema then migrateLegacyCreateFence r else r) in
    x = r' -> cf_RollbackAt x = cf_RollbackAt r /\ cf_DependentUnresolved x = cf_DependentUnresolved r /\ createdReceipt x = createdReceipt r) as Hm.
  { intros x x' ->. unfold x'. case_bool_decide; [|done]. unfold migrateLegacyCreateFence. cbv zeta. by repeat case_bool_decide. }
  destruct (Hm _ eq_refl) as (E1 & E2 & E3). rewrite E1, E2, E3 in Hd.
  repeat match goal with H : _ = true |- _ => rewrite H in Hd end.
  destruct (cf_RollbackAt r); [|done]. destruct Hd as [_ Hd]. simpl in Hd. lia.
Qed.

(** C32: the create fence keeps its type. A step of a writer from a fence that could be read leaves a
    record that satisfies every rule of the format and that every later reader decodes to exactly what
    was written, except when a rollback contradicts a stored receipt: such a record, and only such a
    one, is refused by every reader. *)
Theorem fence_step_typed s r r' :
  decodeCreateFence s = Ok r -> fence_step r r' -> c_good record_codec r' = true ->
  if contradictory r' then exists e, decodeCreateFence (Marshal record_codec r') = Err e
  else wf r' /\ decodeCreateFence (Marshal record_codec r') = Ok r'.
Proof.
  intros Hd Hs Hg. destruct (contradictory r') eqn:Hc; [by apply contradictory_unreadable|].
  pose proof (step_readable s r r' Hd Hs Hg Hc) as Hr. split; [by eapply decode_wf|done].
Qed.
End Steps.

(** ** Lives *)

Inductive phase_le : string -> string -> Prop :=
  | phase_same p : phase_le p p
  | phase_issue : phase_le createFenceReserved createFenceIssued
  | phase_end p q : p = createFenceReserved \/ p = createFenceIssued -> q = createFenceRejected \/ q = createFenceMaterialized -> phase_le p q.

(** What no later state takes back. *)
Record evolves (r r' : createFenceRecord) : Prop := {
  ev_identity : identity_of r' = identity_of r;
  ev_phase : phase_le (cf_Phase r) (cf_Phase r');
  ev_attempt : cf_Phase r <> createFenceReserved -> cf_IssueID r' = cf_IssueID r /\ cf_IssuedAt r' = cf_IssuedAt r /\ cf_Intent r' = cf_Intent r;
  ev_anchor : cf_CreatedVMUUID r <> "" -> cf_CreatedVMUUID r' = cf_CreatedVMUUID r /\ cf_LaunchObservedAt r' = cf_LaunchObservedAt r;
  ev_rollback : cf_RollbackAt r <> None -> cf_RollbackAt r' = cf_RollbackAt r;
  ev_materialized : cf_Phase r = createFenceMaterialized ->
    cf_ObservedVMUUID r' = cf_ObservedVMUUID r /\ cf_FloatingIPName r' = cf_FloatingIPName r /\ cf_PublicIPv4 r' = cf_PublicIPv4 r;
  ev_receipts c : c ∈ cf_CleanupResolutions r -> c ∈ cf_CleanupResolutions r'
}.

Lemma phase_le_trans p q s : phase_le p q -> phase_le q s -> phase_le p s.
Proof.
  intros H1 H2. destruct H1 as [p| |p q Hp Hq]; [done| |].
  - remember createFenceIssued as i eqn:E. destruct H2 as [q| |q s Hq Hs]; subst; [constructor|discriminate E|]. by apply phase_end; auto.
  - destruct H2 as [q| |q s Hq' Hs]; [by apply phase_end| |]; exfalso.
    + by destruct Hq.
    + destruct Hq as [->| ->], Hq' as [E|E]; discriminate E.
Qed.
Lemma phase_le_reserved p q : phase_le p q -> p <> createFenceReserved -> q <> createFenceReserved.
Proof. intros H Hp. destruct H as [p| |p q _ [->| ->]]; done. Qed.
Lemma phase_le_materialized p q : phase_le p q -> p = createFenceMaterialized -> q = createFenceMaterialized.
Proof. intros H E. destruct H as [p| |p q [Hp|Hp] _]; [done|..]; subst; discriminate. Qed.

Lemma evolves_refl r : evolves r r.
Proof. split; auto. constructor. Qed.
Lemma evolves_trans r1 r2 r3 : evolves r1 r2 -> evolves r2 r3 -> evolves r1 r3.
Proof.
  intros [I1 P1 A1 C1 B1 M1 H1] [I2 P2 A2 C2 B2 M2 H2]. split; auto; [congruence|by eapply phase_le_trans| | | |].
  - intros Hp. destruct (A1 Hp) as (E1 & E2 & E3). destruct A2 as (E4 & E5 & E6); [by eapply phase_le_reserved|]. by rewrite E4, E5, E6.
  - intros Hc. destruct (C1 Hc) as (E1 & E2). rewrite E1 in C2. destruct C2 as [E3 E4]; [done|]. by rewrite E3, E4.
  - intros Hr. rewrite (B1 Hr) in B2. by apply B2.
  - intros Hm. destruct (M1 Hm) as (E1 & E2 & E3). destruct M2 as (E4 & E5 & E6); [by eapply phase_le_materialized|]. by rewrite E4, E5, E6.
Qed.

Lemma append_keeps l c l' x : appendCleanupResolution l c = Ok l' -> x ∈ l -> x ∈ l'.
Proof.
  unfold appendCleanupResolution. destruct (normalizeCleanupResolution c) as [c'|]; [|done]. destruct (List.find _ l).
  - case_test; [done|]. by intros [= <-].
  - case_test; [done|]. intros [= <-] Hx. apply sort_elem. set_solver.
Qed.
(** Receipts do not touch anything else that identifies the attempt. *)
Lemma apply_keeps r c now r' : applyCleanupResolution r c now = Ok r' ->
  r' = r <| cf_CleanupResolvedAt := cf_CleanupResolvedAt r' |> <| cf_CleanupVMUUID := cf_CleanupVMUUID r' |>
         <| cf_CleanupFloatingIPName := cf_CleanupFloatingIPName r' |> <| cf_CleanupPublicIPv4 := cf_CleanupPublicIPv4 r' |>
         <| cf_CleanupResolutions := cf_CleanupResolutions r' |>
  /\ (forall x, x ∈ cf_CleanupResolutions r -> x ∈ cf_CleanupResolutions r').
Proof.
  unfold applyCleanupResolution. destruct (normalizeCleanupResolution c) as [c'|]; [|done]. destruct (appendCleanupResolution _ c') as [l|] eqn:El; [|done].
  intros [= <-]. split; [done|]. intros x. by eapply append_keeps.
Qed.

(** A step that keeps the phase and what identifies the attempt. *)
Lemma evolves_keep r r' :
  identity_of r' = identity_of r -> cf_Phase r' = cf_Phase r -> cf_IssueID r' = cf_IssueID r -> cf_IssuedAt r' = cf_IssuedAt r ->
  cf_Intent r' = cf_Intent r -> cf_CreatedVMUUID r' = cf_CreatedVMUUID r -> cf_LaunchObservedAt r' = cf_LaunchObservedAt r ->
  (cf_RollbackAt r <> None -> cf_RollbackAt r' = cf_RollbackAt r) -> cf_ObservedVMUUID r' = cf_ObservedVMUUID r ->
  cf_FloatingIPName r' = cf_FloatingIPName r -> cf_PublicIPv4 r' = cf_PublicIPv4 r ->
  (forall c, c ∈ cf_CleanupResolutions r -> c ∈ cf_CleanupResolutions r') -> evolves r r'.
Proof. intros ? Hp. split; auto. rewrite Hp. constructor. Qed.

Lemma step_evolves r r' : fence_step r r' -> evolves r r'.
Proof.
  intros Hs. destruct Hs.
  - unfold authorize_check in *. repeat (case_test_in H; [done|]). bool_hyps. split; try done.
    match goal with E : cf_Phase r = _ |- _ => rewrite E end. constructor.
  - unfold created_check in *. repeat (case_test_in H1; [by repeat case_test_in H1|]). bool_hyps.
    split; try done. constructor.
  - by apply evolves_keep.
  - by apply evolves_keep.
  - by apply evolves_keep.
  - by apply evolves_keep.
  - unfold rollback_write in *. destruct canonical as [c|].
    + destruct (applyCleanupResolution _ c resolvedAt) as [r0|] eqn:E; [|done]. injection H3 as <-. apply apply_keeps in E as [E Hk].
      destruct (cf_RollbackAt r) as [t|] eqn:Er; simpl in *; apply evolves_keep; simpl; rewrite E; simpl; done.
    + injection H3 as <-. destruct (cf_RollbackAt r) as [t|] eqn:Er; by apply evolves_keep.
  - unfold reject_check in *. do 4 (case_test_in H; [done|]). bool_hyps. split; try done; simpl.
    + match goal with E : cf_Phase r = createFenceIssued |- _ => rewrite E end. apply phase_end; auto.
  - unfold materialize_check in *. case_test_in H; [done|]. destruct (validateMaterializedVM r (Some vm)); [done|].
    destruct (if cf_LegacyV2 r && _ then _ else _); [done|]. repeat (case_test_in H; [done|]). bool_hyps. split; try done; simpl.
    + match goal with E : cf_Phase r = createFenceIssued |- _ => rewrite E end. apply phase_end; auto.
  - by apply evolves_keep.
  - by apply evolves_keep.
  - unfold cleanup_write in *. destruct (if cf_ObservedVMUUID r != "" then _ else _) as [l|] eqn:El; [|done].
    destruct (applyCleanupResolution _ resolution now) as [r0|] eqn:E; [|done]. apply apply_keeps in E as [E Hk]. simpl in Hk.
    assert (forall x, x ∈ cf_CleanupResolutions r -> x ∈ l) as Hl.
    { intros x Hx. destruct (cf_ObservedVMUUID r == ""); simpl in El; [by injection El as <-|].
      destruct (appendCleanupResolution _ _) as [l'|] eqn:Ea; [|done]. injection El as <-. by eapply append_keeps. }
    case_test_in H1; injection H1 as <-; apply evolves_keep; simpl; auto; rewrite E; done.
Qed.

(** Over any life. *)
Lemma life_evolves r r' : rtc fence_step r r' -> evolves r r'.
Proof. induction 1 as [r|r1 r2 r3 Hs _ IH]; [apply evolves_refl|]. eapply evolves_trans; [by apply step_evolves|done]. Qed.
