(* ===== verification/ProviderActions.v ===== *)
(** * NodeClaims, Leases and the Kubernetes calls of the Karpenter provider

    The Kubernetes objects that the durable fences live in, the calls that
    modules/karpenter-provider/pkg/provider makes on them, and the readers and writers that its
    operations share. Every call is an action of the environment: reads may be stale or fail, a
    write may be applied and still answer with an error. *)

From S2P Require Import Prelude GoErrors CSIFence Prog GoJSON GoNet CreateFence CreateFenceDecode.

(** [karpv1.NodeClaim]: the fields that the provider reads or writes. A nil map is the empty one;
    the source writes to a map only when it holds something or after making one. *)
Record NodeClaim `{PE : ProviderEnv} := {
  nc_Name : string; nc_UID : string; nc_ResourceVersion : string; nc_Generation : Z; nc_DeletionTimestamp : option Z;
  nc_Finalizers : list string; nc_Labels : gmap string string; nc_Annotations : gmap string string; nc_Spec : NodeClaimSpec;
  nc_ProviderID : string
}.
#[export] Instance eta_NodeClaim `{PE : ProviderEnv} : Eta NodeClaim := fun r =>
  Build_NodeClaim _ (nc_Name r) (nc_UID r) (nc_ResourceVersion r) (nc_Generation r) (nc_DeletionTimestamp r) (nc_Finalizers r) (nc_Labels r)
    (nc_Annotations r) (nc_Spec r) (nc_ProviderID r).

(** [coordinationv1.Lease]: the fields that the firewall ledger uses. *)
Record Lease := {
  ls_Name : string; ls_Namespace : string; ls_ResourceVersion : string; ls_Annotations : gmap string string; ls_HolderIdentity : option string
}.
#[export] Instance eta_Lease : Eta Lease := fun r =>
  Build_Lease (ls_Name r) (ls_Namespace r) (ls_ResourceVersion r) (ls_Annotations r) (ls_HolderIdentity r).

(** [m[key]]. *)
Definition lookup_string (m : gmap string string) (key : string) : string := default "" (m !! key).

(** [cloudapi.FencedCreateCleanupRequest] without its callbacks, and the answer to a cleanup. *)
Record FencedCreateCleanupRequest := {
  rq_Cleanup : createFenceCleanupIdentity;   (* from ClusterName to OwnershipKeyHash *)
  rq_SpecHash : string; rq_BootstrapHash : string; rq_AttemptToken : string; rq_AttemptIssuedAt : Z;
  rq_POSTIssued : bool; rq_POSTRejected : bool; rq_AttemptResolved : bool; rq_CreatedVMUUID : string; rq_RollbackChosen : bool;
  rq_DependentUnresolved : bool; rq_DependentsResolved : bool; rq_ObservedVMUUID : string; rq_FloatingIPName : string; rq_PublicIPv4 : string;
  rq_Resolutions : list FencedCreateCleanupResolution; rq_Baseline : CreateInventory;
  rq_BaseFirewallAssignment : FirewallAssignmentFence; rq_FloatingIPUpdate : FloatingIPUpdateFence
}.
#[export] Instance eta_FencedCreateCleanupRequest : Eta FencedCreateCleanupRequest := fun r =>
  Build_FencedCreateCleanupRequest (rq_Cleanup r) (rq_SpecHash r) (rq_BootstrapHash r) (rq_AttemptToken r) (rq_AttemptIssuedAt r) (rq_POSTIssued r)
    (rq_POSTRejected r) (rq_AttemptResolved r) (rq_CreatedVMUUID r) (rq_RollbackChosen r) (rq_DependentUnresolved r) (rq_DependentsResolved r)
    (rq_ObservedVMUUID r) (rq_FloatingIPName r) (rq_PublicIPv4 r) (rq_Resolutions r) (rq_Baseline r) (rq_BaseFirewallAssignment r)
    (rq_FloatingIPUpdate r).
Record FencedCreateCleanupResult := { cl_Resolution : option FencedCreateCleanupResolution; cl_DependentsResolved : bool }.

(** The context of a call: the caller's, or the one that [detachedCreateFenceContext] derives from
    it, which ignores its cancellation and ends after [createFenceTerminalWriteTimeout]. *)
Inductive fence_context := CallerContext | DetachedContext.

Section Actions.
Context `{PE : ProviderEnv}.

Definition annotation_of (claim : NodeClaim) (key : string) : string := lookup_string (nc_Annotations claim) key.
Definition set_annotation (claim : NodeClaim) (key value : string) : NodeClaim :=
  claim <| nc_Annotations := <[key := value]> (nc_Annotations claim) |>.
(** [controllerutil.ContainsFinalizer], [AddFinalizer] and [RemoveFinalizer]. *)
Definition ContainsFinalizer (claim : NodeClaim) (finalizer : string) : bool := bool_decide (finalizer ∈ nc_Finalizers claim).
Definition AddFinalizer (claim : NodeClaim) (finalizer : string) : NodeClaim :=
  if ContainsFinalizer claim finalizer then claim else claim <| nc_Finalizers := nc_Finalizers claim ++ [finalizer] |>.
Definition RemoveFinalizer (claim : NodeClaim) (finalizer : string) : NodeClaim :=
  claim <| nc_Finalizers := List.filter (fun f => f != finalizer) (nc_Finalizers claim) |>.

Inductive pact :=
  | GetClaim (ctx : fence_context) (name : string)
  | ListClaims
  | UpdateClaim (claim : NodeClaim)
  (* [Patch] with [MergeFromWithOptimisticLock]: the changes from stored to updated, at stored's version *)
  | PatchClaim (ctx : fence_context) (stored updated : NodeClaim)
  | GetLease (ctx : fence_context) (namespace name : string)
  | CreateLease (lease : Lease)
  | UpdateLease (lease : Lease)
  (* the cloud adapter; the claim is the one its callbacks, which run store operations of their own, left *)
  | ProtectFencedCreate (request : FencedCreateCleanupRequest)
  | CleanupFencedCreate (request : FencedCreateCleanupRequest)
  | Now
  (* sixteen random bytes, as a number *)
  | RandRead.
Definition pres (x : pact) : Type :=
  match x with
  | GetClaim _ _ | UpdateClaim _ | PatchClaim _ _ _ => result NodeClaim
  | ListClaims => result (list NodeClaim)
  | GetLease _ _ _ | CreateLease _ | UpdateLease _ => result Lease
  | ProtectFencedCreate _ => goerr * option NodeClaim
  | CleanupFencedCreate _ => FencedCreateCleanupResult * goerr * option NodeClaim
  | Now => Z
  | RandRead => result Z
  end.

(** The error of a call whose value is not used. *)
Definition err_of {A} (r : result A) : goerr := match r with Ok _ => None | Err e => Some e end.

(** ** Nonces *)

Definition hex_digit (n : Z) : ascii := ascii_of_nat (Z.to_nat (if n <? 10 then 48 + n else 87 + n)).
(** The last [n] hexadecimal digits of a number. *)
Fixpoint hex_digits (n : nat) (z : Z) : string :=
  match n with O => "" | S m => String (hex_digit (Z.shiftr z (4 * Z.of_nat m) `mod` 16)) (hex_digits m z) end.
Definition createFenceNonce : prog pres (result string) :=
  let! value := call RandRead in
  match value with Err e => Ret (Err e) | Ok z => Ret (Ok (hex_digits 32 z)) end.

(** ** Exact reads *)

Definition getExact (claim : NodeClaim) : prog pres (result NodeClaim) :=
  if (nc_Name claim == "") || (nc_UID claim == "") then Ret (Err (Msg "durable VM create fencing requires a named NodeClaim with UID"))
  else let! r := call (GetClaim CallerContext (nc_Name claim)) in
  match r with
  | Err e => Ret (Err (Wrap "reading NodeClaim for durable VM create fence" [e]))
  | Ok current =>
      if (nc_UID current != nc_UID claim) || negb (is_nil (nc_DeletionTimestamp current))
      then Ret (Err (Msg "NodeClaim changed identity or is deleting before VM create"))
      else if negb (nc_Generation current =? nc_Generation claim) || negb (Spec_DeepEqual (nc_Spec current) (nc_Spec claim))
              || (lookup_string (nc_Labels current) NodePoolLabelKey != lookup_string (nc_Labels claim) NodePoolLabelKey)
      then Ret (Err (Msg "NodeClaim spec or NodePool identity changed before VM create"))
      else Ret (Ok current)
  end.

Definition getProtectedExact (claim : NodeClaim) (action : string) : prog pres (result NodeClaim) :=
  if (nc_Name claim == "") || (nc_UID claim == "") then Ret (Err (Msg (action +:+ " requires a named NodeClaim with UID")))
  else let! r := call (GetClaim CallerContext (nc_Name claim)) in
  match r with
  | Err e => Ret (Err (Wrap ("exact-reading NodeClaim to " +:+ action) [e]))
  | Ok current =>
      if (nc_UID current != nc_UID claim) || negb (ContainsFinalizer current CreateFenceFinalizer)
      then Ret (Err (Msg ("NodeClaim changed identity or lost create protection before attempting to " +:+ action)))
      else Ret (Ok current)
  end.

(** ** Receipts beside the create fence

    [persistBaseFirewallAssignment], [persistFloatingIPUpdate] and [persistRemovalMutation] write one
    annotation of the NodeClaim just read, and read it back with a detached context whatever the
    write answered: what is stored decides. *)
Definition persistReceipt {A} (current : NodeClaim) (key encoded what : string) (decode : string -> result A) (accept : A -> bool)
    : prog pres (result NodeClaim) :=
  let copy := set_annotation current key encoded in
  let! updated := call (UpdateClaim copy) in
  let updateErr := err_of updated in
  let! r := call (GetClaim DetachedContext (nc_Name current)) in
  match r with
  | Err readErr => Ret (Err (Wrap ("writing and reading back NodeClaim " +:+ what) (non_nil [Join [updateErr; Some readErr]])))
  | Ok readback =>
      if (nc_UID readback != nc_UID current) || negb (ContainsFinalizer readback CreateFenceFinalizer)
      then Ret (Err (Msg ("NodeClaim changed identity or lost protection during " +:+ what)))
      else match decode (annotation_of readback key) with
      | Err decodeErr => Ret (Err (Wrap "" (non_nil [updateErr; Some decodeErr])))
      | Ok stored =>
          if accept stored then Ret (Ok readback)
          else match updateErr with
               | Some e => Ret (Err e)
               | None => Ret (Err (Msg (what +:+ " changed during readback")))
               end
      end
  end.
End Actions.
