(* ===== verification/RemovalFence.v ===== *)
(** * The durable removal fence of the Karpenter provider: records

    Models the data and pure functions of
    modules/karpenter-provider/pkg/provider/removal_mutation_fence.go: the journal of destructive
    mutations of one NodeClaim, its checks and its history of observed floating-IP deletions. *)

From S2P Require Import Prelude GoErrors CSIFence GoJSON GoNet CreateFence.

Definition removalMutationFenceSchema : string := "karpenter.inspace.cloud/removal-mutation-fence-v1".
Definition maxRemovalMutationEncodedBytes : nat := 64 * 1024.
Definition RemovalMutationVMDelete : string := "vm-delete".
Definition RemovalMutationFloatingIPUnassign : string := "floating-ip-unassign".
Definition RemovalMutationFloatingIPDelete : string := "floating-ip-delete".
Definition RemovalMutationReady : string := "ready".
Definition RemovalMutationIssued : string := "issued".
Definition RemovalMutationRejected : string := "rejected".
Definition RemovalMutationObserved : string := "observed".

Record RemovalMutation := {
  rmu_Operation : string; rmu_Location : string; rmu_VMUUID : string; rmu_Address : string; rmu_Name : string; rmu_BillingAccountID : Z
}.
#[export] Instance eta_RemovalMutation : Eta RemovalMutation := fun r =>
  Build_RemovalMutation (rmu_Operation r) (rmu_Location r) (rmu_VMUUID r) (rmu_Address r) (rmu_Name r) (rmu_BillingAccountID r).
#[export] Instance RemovalMutation_eq_dec : EqDecision RemovalMutation.
Proof. solve_decision. Defined.
Record RemovalMutationFence := {
  rf_RemovalMutation : RemovalMutation; rf_Phase : string; rf_IssueID : string; rf_IssuedAt : Z; rf_ObservedAt : Z
}.
#[export] Instance RemovalMutationFence_eq_dec : EqDecision RemovalMutationFence.
Proof. solve_decision. Defined.
Definition zero_removal_fence : RemovalMutationFence := Build_RemovalMutationFence (Build_RemovalMutation "" "" "" "" "" 0) "" "" 0 0.
Record RemovalMutationAuthorization := { ra_Fence : RemovalMutationFence; ra_Active : bool; ra_AllowMutation : bool }.
Definition zero_removal_authorization : RemovalMutationAuthorization := Build_RemovalMutationAuthorization zero_removal_fence false false.

Record observedFloatingIPDeleteRecord := {
  od_Location : string; od_VMUUID : string; od_Address : string; od_Name : string; od_BillingID : Z; od_IssueID : string;
  od_IssuedAt : Z; od_ObservedAt : Z
}.
#[export] Instance eta_observedFloatingIPDeleteRecord : Eta observedFloatingIPDeleteRecord := fun r =>
  Build_observedFloatingIPDeleteRecord (od_Location r) (od_VMUUID r) (od_Address r) (od_Name r) (od_BillingID r) (od_IssueID r)
    (od_IssuedAt r) (od_ObservedAt r).
#[export] Instance observedFloatingIPDeleteRecord_eq_dec : EqDecision observedFloatingIPDeleteRecord.
Proof. solve_decision. Defined.

Record removalMutationRecord := {
  rm_Schema : string; rm_Binding : createFenceBinding; rm_AttemptToken : string; rm_ReadyAt : Z; rm_Operation : string;
  rm_Location : string; rm_VMUUID : string; rm_Address : string; rm_Name : string; rm_BillingID : Z; rm_Phase : string;
  rm_IssueID : string; rm_IssuedAt : option Z; rm_RejectedAt : option Z; rm_ObservedAt : option Z;
  rm_ObservedFloatingIPDeletes : list observedFloatingIPDeleteRecord
}.
#[export] Instance eta_removalMutationRecord : Eta removalMutationRecord := fun r =>
  Build_removalMutationRecord (rm_Schema r) (rm_Binding r) (rm_AttemptToken r) (rm_ReadyAt r) (rm_Operation r) (rm_Location r) (rm_VMUUID r)
    (rm_Address r) (rm_Name r) (rm_BillingID r) (rm_Phase r) (rm_IssueID r) (rm_IssuedAt r) (rm_RejectedAt r) (rm_ObservedAt r)
    (rm_ObservedFloatingIPDeletes r).
#[export] Instance removalMutationRecord_eq_dec : EqDecision removalMutationRecord.
Proof. solve_decision. Defined.

Definition newRemovalMutationReadyRecord (binding : createFenceBinding) (token : string) (now : Z) : removalMutationRecord :=
  Build_removalMutationRecord removalMutationFenceSchema binding token now "" "" "" "" "" 0 RemovalMutationReady "" None None None [].
Definition removalMutationFromRecord (record : removalMutationRecord) : RemovalMutation :=
  Build_RemovalMutation (rm_Operation record) (rm_Location record) (rm_VMUUID record) (rm_Address record) (rm_Name record) (rm_BillingID record).
Definition removalMutationFenceFromRecord (record : removalMutationRecord) : RemovalMutationFence :=
  Build_RemovalMutationFence (removalMutationFromRecord record) (rm_Phase record) (rm_IssueID record)
    (default 0 (rm_IssuedAt record)) (default 0 (rm_ObservedAt record)).
Definition observedFloatingIPDeleteFence (record : observedFloatingIPDeleteRecord) : RemovalMutationFence :=
  Build_RemovalMutationFence
    (Build_RemovalMutation RemovalMutationFloatingIPDelete (od_Location record) (od_VMUUID record) (od_Address record) (od_Name record) (od_BillingID record))
    RemovalMutationObserved (od_IssueID record) (od_IssuedAt record) (od_ObservedAt record).

Definition historicalObservedFloatingIPDelete (record : removalMutationRecord) (desired : RemovalMutation) : option RemovalMutationFence :=
  if rmu_Operation desired != RemovalMutationFloatingIPDelete then None
  else List.find (fun fence => rf_RemovalMutation fence == desired) (map observedFloatingIPDeleteFence (rm_ObservedFloatingIPDeletes record)).

Definition appendObservedFloatingIPDelete (record : removalMutationRecord) (fence : RemovalMutationFence) (observedAt : Z) : result removalMutationRecord :=
  let m := rf_RemovalMutation fence in
  if rmu_Operation m != RemovalMutationFloatingIPDelete then Ok record
  else match List.find (fun current => rf_RemovalMutation current == m) (map observedFloatingIPDeleteFence (rm_ObservedFloatingIPDeletes record)) with
  | Some current =>
      if (rf_IssueID current != rf_IssueID fence) || negb (rf_IssuedAt current =? rf_IssuedAt fence) || negb (rf_ObservedAt current =? observedAt)
      then Err (Msg "observed floating-IP DELETE history changed") else Ok record
  | None =>
      if Nat.leb MaxCreateCleanupResolutions (List.length (rm_ObservedFloatingIPDeletes record))
      then Err (Msg "observed floating-IP DELETE history exceeds its bound")
      else Ok (record <| rm_ObservedFloatingIPDeletes := rm_ObservedFloatingIPDeletes record ++
        [Build_observedFloatingIPDeleteRecord (rmu_Location m) (rmu_VMUUID m) (rmu_Address m) (rmu_Name m) (rmu_BillingAccountID m)
           (rf_IssueID fence) (rf_IssuedAt fence) observedAt] |>)
  end.
Definition archiveCurrentObservedFloatingIPDelete (record : removalMutationRecord) : result removalMutationRecord :=
  if (rm_Phase record != RemovalMutationObserved) || (rm_Operation record != RemovalMutationFloatingIPDelete) then Ok record
  else let fence := removalMutationFenceFromRecord record in appendObservedFloatingIPDelete record fence (rf_ObservedAt fence).

Definition normalizeRemovalMutation (value : RemovalMutation) : result RemovalMutation :=
  let value := value <| rmu_Location := TrimSpace (rmu_Location value) |> <| rmu_VMUUID := ToLower (TrimSpace (rmu_VMUUID value)) |> in
  if (rmu_Location value == "") || Nat.ltb 128 (String.length (rmu_Location value)) || negb (createFenceVMUUIDPattern (rmu_VMUUID value))
  then Err (Msg "removal mutation requires a location and canonical VM UUID")
  else if rmu_Operation value == RemovalMutationVMDelete then
    if (rmu_Address value != "") || (rmu_Name value != "") || negb (rmu_BillingAccountID value =? 0)
    then Err (Msg "VM delete receipt cannot contain floating-IP identity") else Ok value
  else if (rmu_Operation value == RemovalMutationFloatingIPUnassign) || (rmu_Operation value == RemovalMutationFloatingIPDelete) then
    if (rmu_Name value == "") || Nat.ltb 255 (String.length (rmu_Name value)) || (rmu_BillingAccountID value <=? 0)
    then Err (Msg "floating-IP removal receipt requires exact name and billing identity")
    else match public_IPv4 (rmu_Address value) with
    | None => Err (Msg "floating-IP removal receipt requires canonical public IPv4")
    | Some address => if IPv4_String address != rmu_Address value then Err (Msg "floating-IP removal receipt requires canonical public IPv4") else Ok value
    end
  else Err (Msg "unsupported removal operation").

Definition validateRemovalMutationFence (fence : RemovalMutationFence) : goerr :=
  match normalizeRemovalMutation (rf_RemovalMutation fence) with
  | Err e => Some e
  | Ok desired =>
      if (desired != rf_RemovalMutation fence) || negb (createFenceKeyHashPattern (rf_IssueID fence))
      then Some (Msg "removal receipt identity or issue ID is not canonical")
      else if rf_IssuedAt fence =? 0 then Some (Msg "removal receipt has no issue time")
      else if (rf_Phase fence == RemovalMutationIssued) || (rf_Phase fence == RemovalMutationRejected) then
        if negb (rf_ObservedAt fence =? 0) then Some (Msg "non-observed removal receipt contains an observation time") else None
      else if rf_Phase fence == RemovalMutationObserved then
        if (rf_ObservedAt fence =? 0) || (rf_ObservedAt fence <? rf_IssuedAt fence)
        then Some (Msg "observed removal receipt has an invalid observation time") else None
      else Some (Msg "removal receipt has invalid phase")
  end.
Definition removalMutationIdentityMatches (record : removalMutationRecord) (desired : RemovalMutation) : bool :=
  removalMutationFromRecord record == desired.

(** The history holds valid receipts with distinct mutations and distinct issues. *)
Fixpoint checkDeleteHistory (seenMutations : list RemovalMutation) (seenIssues : list string) (l : list observedFloatingIPDeleteRecord) : goerr :=
  match l with
  | [] => None
  | r :: rest =>
      let fence := observedFloatingIPDeleteFence r in
      match validateRemovalMutationFence fence with
      | Some e => Some (Wrap "durable removal mutation fence has invalid observed floating-IP DELETE receipt" [e])
      | None =>
          if bool_decide (rf_RemovalMutation fence ∈ seenMutations)
          then Some (Msg "durable removal mutation fence repeats an observed floating-IP DELETE identity")
          else if bool_decide (rf_IssueID fence ∈ seenIssues)
          then Some (Msg "durable removal mutation fence repeats an observed floating-IP DELETE issue")
          else checkDeleteHistory (rf_RemovalMutation fence :: seenMutations) (rf_IssueID fence :: seenIssues) rest
      end
  end.
Definition validRemovalPhase (record : removalMutationRecord) : bool :=
  ((rm_Phase record == RemovalMutationIssued) && is_nil (rm_RejectedAt record) && is_nil (rm_ObservedAt record))
  || ((rm_Phase record == RemovalMutationRejected) && time_set (rm_RejectedAt record) && is_nil (rm_ObservedAt record))
  || ((rm_Phase record == RemovalMutationObserved) && time_set (rm_ObservedAt record) && is_nil (rm_RejectedAt record)).
Definition validateRemovalRecord (record : removalMutationRecord) (binding : createFenceBinding) (token : string) : goerr :=
  if (rm_Schema record != removalMutationFenceSchema) || (rm_Binding record != binding) || (token == "")
     || (rm_AttemptToken record != token) || (rm_ReadyAt record =? 0)
  then Some (Msg "durable removal mutation fence has incomplete or changed NodeClaim identity")
  else if Nat.ltb MaxCreateCleanupResolutions (List.length (rm_ObservedFloatingIPDeletes record))
  then Some (Msg "durable removal mutation fence has too many observed floating-IP DELETE receipts")
  else guard! checkDeleteHistory [] [] (rm_ObservedFloatingIPDeletes record) in
  if rm_Phase record == RemovalMutationReady then
    if (rm_Operation record != "") || (rm_Location record != "") || (rm_VMUUID record != "") || (rm_Address record != "") || (rm_Name record != "")
       || negb (rm_BillingID record =? 0) || (rm_IssueID record != "") || negb (is_nil (rm_IssuedAt record)) || negb (is_nil (rm_RejectedAt record))
       || negb (is_nil (rm_ObservedAt record)) || negb (Nat.eqb (List.length (rm_ObservedFloatingIPDeletes record)) 0)
    then Some (Msg "durable removal mutation ready fence contains mutation state") else None
  else if negb (is_nil (validateRemovalMutationFence (removalMutationFenceFromRecord record))) || negb (time_set (rm_IssuedAt record))
  then Some (Msg "durable removal mutation fence has incomplete mutation identity")
  else if negb (validRemovalPhase record) then Some (Msg "durable removal mutation fence has contradictory phase timestamps")
  else None.

Section Codecs.
Context `{JT : JSONText, TT : TimeText}.

Definition observedDelete_codec : codec observedFloatingIPDeleteRecord :=
  struct_codec (Build_observedFloatingIPDeleteRecord "" "" "" "" 0 "" 0 0)
    ["location" :=: string_codec # od_Location; "vmUUID" :=: string_codec # od_VMUUID; "address" :=: string_codec # od_Address;
     "name" :=: string_codec # od_Name; "billingAccountID" :=: int64_codec # od_BillingID; "issueID" :=: string_codec # od_IssueID;
     "issuedAt" :=: time_codec # od_IssuedAt; "observedAt" :=: time_codec # od_ObservedAt].
#[export] Instance observedDelete_codec_ok : CodecOk observedDelete_codec.
Proof. struct_ok. Qed.
Definition removal_codec : codec removalMutationRecord :=
  struct_codec (Build_removalMutationRecord "" zero_binding "" 0 "" "" "" "" "" 0 "" "" None None None [])
    ["schema" :=: string_codec # rm_Schema; "binding" :=: binding_codec # rm_Binding; "attemptToken" :=: string_codec # rm_AttemptToken;
     "readyAt" :=: time_codec # rm_ReadyAt; "operation" :=? string_codec # rm_Operation; "location" :=? string_codec # rm_Location;
     "vmUUID" :=? string_codec # rm_VMUUID; "address" :=? string_codec # rm_Address; "name" :=? string_codec # rm_Name;
     "billingAccountID" :=? int64_codec # rm_BillingID; "phase" :=: string_codec # rm_Phase; "issueID" :=? string_codec # rm_IssueID;
     "issuedAt" :=? ptr_codec time_codec # rm_IssuedAt; "rejectedAt" :=? ptr_codec time_codec # rm_RejectedAt;
     "observedAt" :=? ptr_codec time_codec # rm_ObservedAt;
     "observedFloatingIPDeletes" :=? list_codec observedDelete_codec # rm_ObservedFloatingIPDeletes].
#[export] Instance removal_codec_ok : CodecOk removal_codec.
Proof. struct_ok. Qed.

Definition decodeRemovalMutationRecord (value : string) (binding : createFenceBinding) (token : string) : result removalMutationRecord :=
  if (value == "") || Nat.ltb maxRemovalMutationEncodedBytes (String.length value) then Err (Msg "durable removal mutation fence is missing or malformed")
  else match Unmarshal removal_codec value with
  | Err _ => Err (Msg "durable removal mutation fence is missing or malformed")
  | Ok record => check! validateRemovalRecord record binding token in Ok record
  end.
End Codecs.
