(* ===== verification/FirewallSlot.v ===== *)
(** * The firewall mutation slots of the Karpenter provider

    Models modules/karpenter-provider/pkg/provider/firewall_mutation_slot.go: one Lease holds a
    ledger with one slot per firewall, a mutex without expiry and a receipt at once. *)

From S2P Require Import Prelude GoErrors CSIFence Prog GoJSON GoNet CreateFence CreateFenceDecode CreateFenceSteps ProviderActions.

Definition annotationFirewallMutationSlot : string := "karpenter.inspace.cloud/firewall-mutation-slot".
Definition firewallMutationSlotSchema : string := "karpenter.inspace.cloud/firewall-mutation-slot-v1".
Definition firewallMutationLedgerSchema : string := "karpenter.inspace.cloud/firewall-mutation-ledger-v1".
Definition firewallMutationCoordinatorLeaseName : string := "karpenter-inspace-firewall-mutations".
Definition firewallMutationCoordinatorHolder : string := "karpenter-inspace-firewall-mutations".
Definition maxFirewallMutationLedgerBytes : nat := 128 * 1024.
Definition firewallMutationAssign : string := "assign".
Definition firewallMutationDetach : string := "detach".

Record firewallMutationSlotRecord := {
  sl_Schema : string; sl_Location : string; sl_FirewallUUID : string; sl_VMUUID : string; sl_NodeClaimName : string; sl_NodeClaimUID : string;
  sl_Operation : string; sl_Phase : string; sl_IssueID : string; sl_AcquisitionID : string
}.
#[export] Instance eta_firewallMutationSlotRecord : Eta firewallMutationSlotRecord := fun r =>
  Build_firewallMutationSlotRecord (sl_Schema r) (sl_Location r) (sl_FirewallUUID r) (sl_VMUUID r) (sl_NodeClaimName r) (sl_NodeClaimUID r)
    (sl_Operation r) (sl_Phase r) (sl_IssueID r) (sl_AcquisitionID r).
#[export] Instance firewallMutationSlotRecord_eq_dec : EqDecision firewallMutationSlotRecord.
Proof. solve_decision. Defined.
Definition slot_codec : codec firewallMutationSlotRecord :=
  struct_codec (Build_firewallMutationSlotRecord "" "" "" "" "" "" "" "" "" "")
    ["schema" :=: string_codec # sl_Schema; "location" :=: string_codec # sl_Location; "firewallUUID" :=: string_codec # sl_FirewallUUID;
     "vmUUID" :=: string_codec # sl_VMUUID; "nodeClaimName" :=: string_codec # sl_NodeClaimName; "nodeClaimUID" :=: string_codec # sl_NodeClaimUID;
     "operation" :=: string_codec # sl_Operation; "phase" :=: string_codec # sl_Phase; "issueID" :=: string_codec # sl_IssueID;
     "acquisitionID" :=: string_codec # sl_AcquisitionID].
#[export] Instance slot_codec_ok : CodecOk slot_codec.
Proof. struct_ok. Qed.

Record firewallMutationLedger := { lg_Schema : string; lg_Slots : option (gmap string firewallMutationSlotRecord) }.
#[export] Instance eta_firewallMutationLedger : Eta firewallMutationLedger := fun r => Build_firewallMutationLedger (lg_Schema r) (lg_Slots r).
Definition zero_ledger : firewallMutationLedger := Build_firewallMutationLedger "" None.
Definition ledger_codec : codec firewallMutationLedger :=
  struct_codec zero_ledger ["schema" :=: string_codec # lg_Schema; "slots" :=: map_codec slot_codec # lg_Slots].

Record FirewallAssignmentAuthorization := { aa_Fence : FirewallAssignmentFence; aa_AllowPOST : bool }.
Definition zero_assignment_authorization : FirewallAssignmentAuthorization := Build_FirewallAssignmentAuthorization zero_assignment_fence false.
(** [FirewallDetachmentFence] has the fields of [FirewallAssignmentFence]. *)
Record FirewallDetachmentAuthorization := { da_Fence : FirewallAssignmentFence; da_AllowDELETE : bool }.
Definition zero_detachment_authorization : FirewallDetachmentAuthorization := Build_FirewallDetachmentAuthorization zero_assignment_fence false.

Definition validateFirewallMutationSlot (value : firewallMutationSlotRecord) : goerr :=
  if (sl_Schema value != firewallMutationSlotSchema) || (TrimSpace (sl_Location value) == "")
     || negb (createFenceVMUUIDPattern (sl_FirewallUUID value)) || negb (createFenceVMUUIDPattern (sl_VMUUID value))
     || (sl_NodeClaimName value == "") || (sl_NodeClaimUID value == "") || negb (createFenceKeyHashPattern (sl_IssueID value))
     || negb (createFenceKeyHashPattern (sl_AcquisitionID value))
  then Some (Msg "durable firewall mutation slot has invalid identity")
  else if (sl_Operation value != firewallMutationAssign) && (sl_Operation value != firewallMutationDetach)
  then Some (Msg "durable firewall mutation slot has invalid operation")
  else if (sl_Phase value != FirewallAssignmentIssued) && (sl_Phase value != FirewallAssignmentObserved) && (sl_Phase value != FirewallAssignmentRejected)
  then Some (Msg "durable firewall mutation slot has invalid phase")
  else None.

Definition firewallMutationSlotMatches (a b : firewallMutationSlotRecord) : bool := a == b.
(** The exact receipt of a claim: everything but the phase and the acquisition. *)
Definition slot_receipt (value : firewallMutationSlotRecord) (uid name operation vmUUID issueID : string) : bool :=
  (sl_NodeClaimUID value == uid) && (sl_NodeClaimName value == name) && (sl_Operation value == operation) && (sl_VMUUID value == vmUUID)
  && (sl_IssueID value == issueID).

Definition createFenceOwnsVM (record : createFenceRecord) (vmUUID : string) : bool :=
  let vmUUID := ToLower vmUUID in
  (cf_CreatedVMUUID record == vmUUID) || (cf_ObservedVMUUID record == vmUUID) || (cf_CleanupVMUUID record == vmUUID)
  || existsb (fun r => EqualFold (cr_VMUUID r) vmUUID) (cf_CleanupResolutions record).

Section Slots.
Context `{PE : ProviderEnv, JT : JSONText, TT : TimeText}.

Definition firewallMutationSlotName (location firewallUUID : string) : string :=
  "inspace-fw-" +:+ take_string 32 (createFenceHash (TrimSpace location +:+ String "000"%char (ToLower (TrimSpace firewallUUID)))).

Definition newFirewallMutationSlotRecord (current : NodeClaim) (record : createFenceRecord) (vmUUID operation issueID acquisitionID : string)
    : result firewallMutationSlotRecord :=
  let value := Build_firewallMutationSlotRecord firewallMutationSlotSchema (ci_Location (cf_Cleanup record))
    (ToLower (ci_FirewallUUID (cf_Cleanup record))) (ToLower vmUUID) (nc_Name current) (nc_UID current) operation
    FirewallAssignmentIssued issueID acquisitionID in
  check! validateFirewallMutationSlot value in Ok value.

(** The slots in the order of their keys; the source's order is Go's map order, and any entry that
    fails is reported. *)
Fixpoint checkSlots (l : list (string * firewallMutationSlotRecord)) : goerr :=
  match l with
  | [] => None
  | (key, slot) :: rest =>
      match validateFirewallMutationSlot slot with
      | Some e => Some (Wrap "durable firewall mutation ledger slot" [e])
      | None =>
          if key != firewallMutationSlotName (sl_Location slot) (sl_FirewallUUID slot)
          then Some (Msg "durable firewall mutation ledger slot has identity drift") else checkSlots rest
      end
  end.
Definition validateFirewallMutationLedger (value : firewallMutationLedger) : goerr :=
  match lg_Slots value with
  | None => Some (Msg "durable firewall mutation ledger has invalid schema")
  | Some slots =>
      if lg_Schema value != firewallMutationLedgerSchema then Some (Msg "durable firewall mutation ledger has invalid schema")
      else checkSlots (map_to_list slots)
  end.
Definition encodeFirewallMutationLedger (value : firewallMutationLedger) : result string :=
  check! validateFirewallMutationLedger value in
  let encoded := Marshal ledger_codec value in
  if Nat.ltb maxFirewallMutationLedgerBytes (String.length encoded) then Err (Msg "durable firewall mutation ledger exceeds its safety bound")
  else Ok encoded.
Definition decodeFirewallMutationLedger (lease : Lease) : result firewallMutationLedger :=
  match ls_HolderIdentity lease with
  | None => Err (Msg "durable firewall mutation Lease has no holder identity")
  | Some holder =>
      if (ls_Name lease != firewallMutationCoordinatorLeaseName) || (holder != firewallMutationCoordinatorHolder)
      then Err (Msg "durable firewall mutation Lease has invalid fixed identity")
      else
        let encoded := lookup_string (ls_Annotations lease) annotationFirewallMutationSlot in
        if (encoded == "") || Nat.ltb maxFirewallMutationLedgerBytes (String.length encoded)
        then Err (Msg "durable firewall mutation Lease has no bounded ledger")
        else match Unmarshal ledger_codec encoded with
        | Err e => Err (Wrap "decoding durable firewall mutation ledger" [e])
        | Ok value => check! validateFirewallMutationLedger value in Ok value
        end
  end.
(** [ledger.Slots[key]]. *)
Definition slot_at (ledger : firewallMutationLedger) (key : string) : option firewallMutationSlotRecord :=
  match lg_Slots ledger with Some m => m !! key | None => None end.
Definition put_slot (ledger : firewallMutationLedger) (key : string) (value : firewallMutationSlotRecord) : firewallMutationLedger :=
  ledger <| lg_Slots := Some (<[key := value]> (default ∅ (lg_Slots ledger))) |>.
Definition set_ledger (lease : Lease) (encoded : string) : Lease :=
  lease <| ls_Annotations := <[annotationFirewallMutationSlot := encoded]> (ls_Annotations lease) |>.

(** ** Reading *)

(** The store's namespace. *)
Context (namespace : string).

Definition getFirewallMutationLedger (ctx : fence_context) : prog pres (result (Lease * firewallMutationLedger)) :=
  try_let! lease := call (GetLease ctx namespace firewallMutationCoordinatorLeaseName) in
  match decodeFirewallMutationLedger lease with
  | Err e => Ret (Err e)
  | Ok value => Ret (Ok (lease, value))
  end.

Definition readbackOwnFirewallMutationSlot (desired : firewallMutationSlotRecord) : prog pres (result bool) :=
  try_let! r := getFirewallMutationLedger DetachedContext in
  match slot_at r.2 (firewallMutationSlotName (sl_Location desired) (sl_FirewallUUID desired)) with
  | Some stored => Ret (Ok (firewallMutationSlotMatches stored desired))
  | None => Ret (Ok false)
  end.

(** Whether the owner of an issued slot is known to be done. *)
Definition ownerTerminal (value : firewallMutationSlotRecord) (claim : NodeClaim) : result bool :=
  if nc_UID claim != sl_NodeClaimUID value then Ok true
  else if sl_Operation value == firewallMutationDetach then Ok false
  else match decodeCreateFence (annotation_of claim AnnotationCreateFence) with
  | Err e => Err (Wrap "prior firewall-slot NodeClaim has invalid durable fence" [e])
  | Ok record =>
      match cf_BaseFirewallAssignment record with
      | None => Err (Msg "prior firewall-slot NodeClaim no longer carries the exact owned assignment receipt")
      | Some assignment =>
          if (cb_NodeClaimUID (cf_Binding record) != sl_NodeClaimUID value) || (ci_NodeClaimName (cf_Cleanup record) != sl_NodeClaimName value)
             || (ci_Location (cf_Cleanup record) != sl_Location value) || (ToLower (ci_FirewallUUID (cf_Cleanup record)) != sl_FirewallUUID value)
             || (ToLower (ba_FirewallUUID assignment) != sl_FirewallUUID value) || (ba_IssueID assignment != sl_IssueID value)
          then Err (Msg "prior firewall-slot NodeClaim no longer carries the exact owned assignment receipt")
          else Ok (terminal_phase (ba_Phase assignment))
      end
  end.
Definition firewallMutationSlotTerminal (value : firewallMutationSlotRecord) : prog pres (result bool) :=
  if terminal_phase (sl_Phase value) then Ret (Ok true)
  else let! r := call (GetClaim CallerContext (sl_NodeClaimName value)) in
  match r with
  | Err e => if Is e StatusNotFound then Ret (Ok true) else Ret (Err (Wrap "reading prior firewall-slot NodeClaim" [e]))
  | Ok claim => Ret (ownerTerminal value claim)
  end.

Fixpoint auditClaims (desired : firewallMutationSlotRecord) (desiredKey : string) (claims : list NodeClaim) : goerr :=
  match claims with
  | [] => None
  | claim :: rest =>
      let encoded := annotation_of claim AnnotationCreateFence in
      if encoded == "" then auditClaims desired desiredKey rest
      else match decodeCreateFence encoded with
      | Err e => Some (Wrap "NodeClaim has an invalid durable fence during legacy firewall-mutation migration" [e])
      | Ok record =>
          if (cb_NodeClaimUID (cf_Binding record) != nc_UID claim) || (ci_NodeClaimName (cf_Cleanup record) != nc_Name claim)
          then Some (Msg "NodeClaim has drifted durable identity during legacy firewall-mutation migration")
          else match cf_BaseFirewallAssignment record with
          | None => auditClaims desired desiredKey rest
          | Some assignment =>
              if negb (cf_LegacyV2BaseFirewallMayBeIssued record) || (ba_Phase assignment != FirewallAssignmentIssued)
                 || (firewallMutationSlotName (ci_Location (cf_Cleanup record)) (ci_FirewallUUID (cf_Cleanup record)) != desiredKey)
              then auditClaims desired desiredKey rest
              else if (nc_Name claim == sl_NodeClaimName desired) && (nc_UID claim == sl_NodeClaimUID desired)
                      && EqualFold (ba_VMUUID assignment) (sl_VMUUID desired) && (ba_IssueID assignment == sl_IssueID desired)
              then auditClaims desired desiredKey rest
              else Some (wrapS ErrCreateAttemptPending "firewall still has unresolved legacy-v2 assignment issue")
          end
      end
  end.
Definition auditUnresolvedLegacyFirewallMutationOwners (desired : firewallMutationSlotRecord) : prog pres goerr :=
  let! claims := call ListClaims in
  match claims with
  | Err e => Ret (Some (Wrap "listing NodeClaims for legacy firewall-mutation migration" [e]))
  | Ok items => Ret (auditClaims desired (firewallMutationSlotName (sl_Location desired) (sl_FirewallUUID desired)) items)
  end.

(** ** Acquiring *)

Definition newLedgerLease (encoded : string) : Lease :=
  Build_Lease firewallMutationCoordinatorLeaseName namespace "" {[annotationFirewallMutationSlot := encoded]} (Some firewallMutationCoordinatorHolder).

Fixpoint acquire_loop (attempts : nat) (desired : firewallMutationSlotRecord) (key : string) : prog pres (result bool) :=
  match attempts with
  | O => Ret (Err (wrapS ErrCreateAttemptPending "firewall mutation-slot CAS did not converge"))
  | S rest =>
    let! audit := auditUnresolvedLegacyFirewallMutationOwners desired in
    match audit with
    | Some e => Ret (Err e)
    | None =>
      let! read := getFirewallMutationLedger CallerContext in
      match read with
      | Err readErr =>
          if Is readErr StatusNotFound then
            match encodeFirewallMutationLedger (Build_firewallMutationLedger firewallMutationLedgerSchema (Some {[key := desired]})) with
            | Err e => Ret (Err e)
            | Ok encoded =>
              let! written := call (CreateLease (newLedgerLease encoded)) in
              let! own := readbackOwnFirewallMutationSlot desired in
              match own with
              | Ok true => Ret (Ok true)
              | Err exactErr =>
                  if Is exactErr StatusNotFound then acquire_loop rest desired key
                  else Ret (Err (Wrap "creating and exactly reading back firewall mutation slot" (non_nil [err_of written; Some exactErr])))
              | Ok false => acquire_loop rest desired key
              end
            end
          else Ret (Err (Wrap "reading durable firewall mutation ledger" [readErr]))
      | Ok (lease, ledger) =>
          let write :=
            match encodeFirewallMutationLedger (put_slot ledger key desired) with
            | Err e => Ret (Err e)
            | Ok encoded =>
              let! written := call (UpdateLease (set_ledger lease encoded)) in
              let! own := readbackOwnFirewallMutationSlot desired in
              match own with
              | Ok true => Ret (Ok true)
              | Err exactErr => Ret (Err (Wrap "updating and exactly reading back firewall mutation slot" (non_nil [err_of written; Some exactErr])))
              | Ok false => acquire_loop rest desired key
              end
            end in
          match slot_at ledger key with
          | None => write
          | Some current =>
              if firewallMutationSlotMatches current desired then Ret (Ok true)
              else if slot_receipt current (sl_NodeClaimUID desired) (sl_NodeClaimName desired) (sl_Operation desired) (sl_VMUUID desired) (sl_IssueID desired)
              then Ret (Ok false)
              else let! terminal := firewallMutationSlotTerminal current in
              match terminal with
              | Err e => Ret (Err (Wrap "auditing prior durable firewall mutation owner" [e]))
              | Ok false => Ret (Err (wrapS ErrCreateAttemptPending "firewall still has an active issue"))
              | Ok true => write
              end
          end
      end
    end
  end.
Definition acquireFirewallMutationSlot (desired : firewallMutationSlotRecord) : prog pres (result bool) :=
  acquire_loop 6 desired (firewallMutationSlotName (sl_Location desired) (sl_FirewallUUID desired)).

Definition authorizeBaseFirewallAssignmentSlot (current : NodeClaim) (record : createFenceRecord) (vmUUID : string)
    : prog pres (FirewallAssignmentAuthorization * goerr) :=
  match cf_BaseFirewallAssignment record with
  | None => Ret (zero_assignment_authorization, Some (Msg "NodeClaim lacks an exact issued base-firewall assignment receipt"))
  | Some assignment =>
      if negb (baseFirewallAssignmentMatches (Some assignment) vmUUID (ci_FirewallUUID (cf_Cleanup record)))
         || (ba_Phase assignment != FirewallAssignmentIssued) || negb (createFenceKeyHashPattern (ba_IssueID assignment))
      then Ret (zero_assignment_authorization, Some (Msg "NodeClaim lacks an exact issued base-firewall assignment receipt"))
      else let! nonce := createFenceNonce in
      match nonce with
      | Err e => Ret (zero_assignment_authorization, Some (Wrap "generating base-firewall assignment acquisition identity" [e]))
      | Ok acquisitionID =>
        match newFirewallMutationSlotRecord current record vmUUID firewallMutationAssign (ba_IssueID assignment) acquisitionID with
        | Err e => Ret (zero_assignment_authorization, Some e)
        | Ok desired =>
          let! acquired := acquireFirewallMutationSlot desired in
          let fence := firewallAssignmentFenceFromRecord record in
          match acquired with
          | Err e => Ret (Build_FirewallAssignmentAuthorization fence false, Some e)
          | Ok allow =>
              if cf_LegacyV2BaseFirewallMayBeIssued record then Ret (Build_FirewallAssignmentAuthorization fence false, None)
              else Ret (Build_FirewallAssignmentAuthorization fence allow, None)
          end
        end
      end
  end.

(** ** Finishing *)

Fixpoint finish_slot_loop (attempts : nat) (current : NodeClaim) (key operation vmUUID issueID terminal : string) : prog pres goerr :=
  match attempts with
  | O => Ret (Some (wrapS ErrCreateAttemptPending "terminal firewall mutation slot did not converge"))
  | S rest =>
    let! read := getFirewallMutationLedger CallerContext in
    match read with
    | Err e => if Is e StatusNotFound then Ret None else Ret (Some (Wrap "reading firewall mutation ledger for terminal receipt" [e]))
    | Ok (lease, ledger) =>
      match slot_at ledger key with
      | None => Ret None
      | Some value =>
        if negb (slot_receipt value (nc_UID current) (nc_Name current) operation (ToLower vmUUID) issueID) then Ret None
        else if sl_Phase value == terminal then Ret None
        else if sl_Phase value != FirewallAssignmentIssued then Ret (Some (Msg "firewall mutation slot issue has conflicting terminal phase"))
        else
          let value := value <| sl_Phase := terminal |> in
          match encodeFirewallMutationLedger (put_slot ledger key value) with
          | Err e => Ret (Some e)
          | Ok encoded =>
            let! written := call (UpdateLease (set_ledger lease encoded)) in
            let! read := getFirewallMutationLedger DetachedContext in
            match read with
            | Err readErr => Ret (Some (Wrap "writing and reading back terminal firewall mutation slot" (non_nil [err_of written; Some readErr])))
            | Ok (_, storedLedger) =>
              match slot_at storedLedger key with
              | Some stored => if firewallMutationSlotMatches stored value then Ret None
                               else finish_slot_loop rest current key operation vmUUID issueID terminal
              | None => finish_slot_loop rest current key operation vmUUID issueID terminal
              end
            end
          end
      end
    end
  end.
Definition finishFirewallMutationSlot (current : NodeClaim) (record : createFenceRecord) (operation vmUUID issueID terminal : string) : prog pres goerr :=
  if negb (terminal_phase terminal) then Ret (Some (Msg "invalid terminal firewall mutation phase"))
  else finish_slot_loop 4 current (firewallMutationSlotName (ci_Location (cf_Cleanup record)) (ci_FirewallUUID (cf_Cleanup record)))
         operation vmUUID issueID terminal.

(** ** Detachment *)

Definition AuthorizeBaseFirewallDetach (claim : NodeClaim) (binding : createFenceBinding) (token vmUUID : string)
    : prog pres (FirewallDetachmentAuthorization * goerr) :=
  let vmUUID := ToLower vmUUID in
  let fail e := Ret (zero_detachment_authorization, Some e) in
  if negb (createFenceVMUUIDPattern vmUUID) then fail (Msg "base-firewall detachment requires a canonical VM UUID")
  else let! r := getProtectedExact claim "authorize base-firewall detachment" in
  match r with
  | Err e => fail e
  | Ok current =>
    match parseCreateFence (annotation_of current AnnotationCreateFence) binding with
    | Err e => fail e
    | Ok record =>
      if (token == "") || (cf_Token record != token) || negb (createFenceOwnsVM record vmUUID)
      then fail (Msg "NodeClaim does not durably own VM for base-firewall detachment")
      else
        let firewallUUID := ci_FirewallUUID (cf_Cleanup record) in
        let issue :=
          let! nonce := createFenceNonce in
          match nonce with
          | Err e => fail (Wrap "generating base-firewall detachment issue identity" [e])
          | Ok issueID =>
            let! nonce := createFenceNonce in
            match nonce with
            | Err e => fail (Wrap "generating base-firewall detachment acquisition identity" [e])
            | Ok acquisitionID =>
              match newFirewallMutationSlotRecord current record vmUUID firewallMutationDetach issueID acquisitionID with
              | Err e => fail e
              | Ok desired =>
                let! acquired := acquireFirewallMutationSlot desired in
                let fence := Build_FirewallAssignmentFence vmUUID firewallUUID FirewallAssignmentIssued issueID in
                match acquired with
                | Err e => Ret (Build_FirewallDetachmentAuthorization fence false, Some e)
                | Ok allow => Ret (Build_FirewallDetachmentAuthorization fence allow, None)
                end
              end
            end
          end in
        let! ledger := getFirewallMutationLedger CallerContext in
        match ledger with
        | Err e => if Is e StatusNotFound then issue else fail e
        | Ok (_, ledger) =>
          match slot_at ledger (firewallMutationSlotName (ci_Location (cf_Cleanup record)) firewallUUID) with
          | Some existing =>
              if (sl_NodeClaimUID existing == nc_UID current) && (sl_NodeClaimName existing == nc_Name current)
                 && (sl_Operation existing == firewallMutationDetach) && (sl_VMUUID existing == vmUUID)
                 && ((sl_Phase existing == FirewallAssignmentIssued) || (sl_Phase existing == FirewallAssignmentObserved))
              then Ret (Build_FirewallDetachmentAuthorization
                          (Build_FirewallAssignmentFence vmUUID firewallUUID (sl_Phase existing) (sl_IssueID existing)) false, None)
              else issue
          | None => issue
          end
        end
    end
  end.

Definition finishBaseFirewallDetach (claim : NodeClaim) (binding : createFenceBinding) (token : string) (fence : FirewallAssignmentFence) (terminal : string)
    : prog pres goerr :=
  let! r := getProtectedExact claim "finish base-firewall detachment" in
  match r with
  | Err e => Ret (Some e)
  | Ok current =>
    match parseCreateFence (annotation_of current AnnotationCreateFence) binding with
    | Err e => Ret (Some e)
    | Ok record =>
      if (token == "") || (cf_Token record != token) || negb (createFenceOwnsVM record (ff_VMUUID fence))
         || (ToLower (ci_FirewallUUID (cf_Cleanup record)) != ToLower (ff_FirewallUUID fence)) || negb (createFenceKeyHashPattern (ff_IssueID fence))
      then Ret (Some (Msg "NodeClaim base-firewall detachment identity changed"))
      else finishFirewallMutationSlot current record firewallMutationDetach (ff_VMUUID fence) (ff_IssueID fence) terminal
    end
  end.
Definition ObserveBaseFirewallDetach (claim : NodeClaim) (binding : createFenceBinding) (token : string) (fence : FirewallAssignmentFence) :=
  finishBaseFirewallDetach claim binding token fence FirewallAssignmentObserved.
Definition RejectBaseFirewallDetach (claim : NodeClaim) (binding : createFenceBinding) (token : string) (fence : FirewallAssignmentFence) :=
  finishBaseFirewallDetach claim binding token fence FirewallAssignmentRejected.
End Slots.
