(* ===== verification/CreateFenceStore.v ===== *)
(** * The create fence store on NodeClaim annotations

    Models the operations of [kubernetesCreateFenceStore] in
    modules/karpenter-provider/pkg/provider/create_fence.go as programs over the Kubernetes calls of
    ProviderActions. The seven operations that change the create fence under an issued attempt run
    the same loop, which is written once ([transition]) and instantiated by their decisions and
    changes. A claim that an operation is called with is never nil. *)

From S2P Require Import Prelude GoErrors CSIFence Prog GoJSON GoNet CreateFence CreateFenceDecode CreateFenceSteps ProviderActions RemovalFence FirewallSlot.

Section Store.
Context `{PE : ProviderEnv, JT : JSONText, TT : TimeText}.
Context (namespace : string).

(** [string(encoded)] of [json.Marshal(record)], in the annotation of the create fence. *)
Definition with_record (claim : NodeClaim) (record : createFenceRecord) : NodeClaim :=
  set_annotation claim AnnotationCreateFence (Marshal record_codec record).
Definition record_of (claim : NodeClaim) (binding : createFenceBinding) : result createFenceRecord :=
  parseCreateFence (annotation_of claim AnnotationCreateFence) binding.

(** ** Get and Ensure *)

Definition Get (claim : NodeClaim) (binding : createFenceBinding) (cleanup : createFenceCleanupIdentity)
    : prog pres (result (NodeClaim * createFence * bool)) :=
  try_let! current := getExact claim in
  if annotation_of current AnnotationCreateFence == "" then Ret (Ok (current, zero_createFence, false))
  else match record_of current binding with
  | Err e => Ret (Err e)
  | Ok record =>
      if (cf_Cleanup record != cleanup) || negb (ContainsFinalizer current CreateFenceFinalizer)
      then Ret (Err (Msg "NodeClaim durable VM create protection changed"))
      else Ret (Ok (current, fenceFromRecord record, true))
  end.

Definition persist (current : NodeClaim) (binding : createFenceBinding) (record : createFenceRecord)
    : prog pres (result (NodeClaim * createFence * bool)) :=
  let copy := with_record current record in
  let removalRecord := newRemovalMutationReadyRecord binding (cf_Token record) (cf_StartedAt record) in
  let copy := set_annotation copy AnnotationRemovalMutationFence (Marshal removal_codec removalRecord) in
  let copy := AddFinalizer copy CreateFenceFinalizer in
  let! updated := call (UpdateClaim copy) in
  match updated with
  | Err e =>
      if Is e StatusConflict then Ret (Err (Wrap "NodeClaim durable VM create fence CAS conflicted" [e]))
      else Ret (Err (Wrap "persisting NodeClaim durable VM create fence" [e]))
  | Ok _ =>
    let! r := call (GetClaim CallerContext (nc_Name current)) in
    match r with
    | Err e => Ret (Err (Wrap "reading back NodeClaim durable VM create fence" [e]))
    | Ok readback =>
      if (nc_UID readback != nc_UID current) || negb (is_nil (nc_DeletionTimestamp readback))
      then Ret (Err (Msg "NodeClaim changed identity or began deletion during durable VM create fence readback"))
      else if negb (ContainsFinalizer readback TerminationFinalizer) || negb (ContainsFinalizer readback CreateFenceFinalizer)
      then Ret (Err (Msg "NodeClaim durable VM create protection finalizers did not survive readback"))
      else match record_of readback binding with
      | Err e => Ret (Err e)
      | Ok stored =>
        if cf_Token stored != cf_Token record then Ret (Err (Msg "NodeClaim durable VM create fence token changed during readback"))
        else match decodeRemovalMutationRecord (annotation_of readback AnnotationRemovalMutationFence) binding (cf_Token record) with
        | Err e => Ret (Err (Wrap "NodeClaim initial removal fence did not survive readback" [e]))
        | Ok _ => Ret (Ok (readback, fenceFromRecord stored, true))
        end
      end
    end
  end.

Definition Ensure (claim : NodeClaim) (binding : createFenceBinding) (cleanup : createFenceCleanupIdentity) (baseline : CreateInventory)
    : prog pres (result (NodeClaim * createFence * bool)) :=
  try_let! current := getExact claim in
  if annotation_of current AnnotationCreateFence != "" then
    match record_of current binding with
    | Err e => Ret (Err e)
    | Ok record =>
        if (cf_Cleanup record != cleanup) || negb (ContainsFinalizer current CreateFenceFinalizer)
        then Ret (Err (Msg "NodeClaim durable VM create protection changed"))
        else Ret (Ok (current, fenceFromRecord record, negb (f_Issued (fenceFromRecord record))))
    end
  else if negb (ContainsFinalizer current TerminationFinalizer)
  then Ret (Err (Msg "NodeClaim lacks Karpenter termination finalizer before VM create"))
  else match validateCreateInventory baseline with
  | Some e => Ret (Err (Wrap "pre-POST cloud inventory" [e]))
  | None =>
      let! now := call Now in
      let! nonce := createFenceNonce in
      match newCreateFenceRecord binding cleanup baseline now nonce with
      | Err e => Ret (Err e)
      | Ok record => persist current binding record
      end
  end.

(** ** Authorize *)

(** The claim, when one is returned with or without an error. *)
Definition Authorize (claim : NodeClaim) (binding : createFenceBinding) (token intent : string) : prog pres (option NodeClaim * goerr) :=
  let fail e := Ret (None, Some e) in
  let! r := getExact claim in
  match r with
  | Err e => fail e
  | Ok current =>
    if negb (ContainsFinalizer current TerminationFinalizer) || negb (ContainsFinalizer current CreateFenceFinalizer)
    then fail (Msg "NodeClaim lost required create-protection finalizers before VM POST")
    else match record_of current binding with
    | Err e => fail e
    | Ok record =>
      match authorize_check record token intent with
      | Some e => fail e
      | None =>
        let! now := call Now in
        let! nonce := createFenceNonce in
        match nonce with
        | Err e => fail (Wrap "generating VM create authorization identity" [e])
        | Ok issueID =>
          let! nonce := createFenceNonce in
          match nonce with
          | Err e => fail (Wrap "generating base-firewall assignment authorization identity" [e])
          | Ok assignmentIssueID =>
            if negb (pre_vm_intent record) then fail (Msg "NodeClaim lacks its durable pre-VM base-firewall assignment intent")
            else
            let copy := with_record current (authorize_write record intent issueID assignmentIssueID now) in
            let! updated := call (UpdateClaim copy) in
            match updated with
            | Err updateErr =>
              let! r := call (GetClaim DetachedContext (nc_Name claim)) in
              let uncertain := fail (Wrap "NodeClaim VM create issue CAS outcome belongs to another invocation or remains uncertain" [Sentinel ErrCreateAttemptPending]) in
              match r with
              | Err _ => uncertain
              | Ok readback =>
                if nc_UID readback != nc_UID current then uncertain
                else match record_of readback binding with
                | Err _ => uncertain
                | Ok stored =>
                    if issued_by stored token intent issueID assignmentIssueID now
                    then Ret (Some readback, Some (Wrap "this invocation's issue CAS committed but its response failed before SDK dispatch"
                                                     [Sentinel ErrCreateAttemptRejected; updateErr]))
                    else uncertain
                end
              end
            | Ok copy =>
              let rejected text es := Ret (Some copy, Some (Wrap text (Sentinel ErrCreateAttemptRejected :: es))) in
              let! r := call (GetClaim CallerContext (nc_Name claim)) in
              match r with
              | Err e => rejected "reading back NodeClaim issued VM create attempt before SDK dispatch" [e]
              | Ok readback =>
                if (nc_UID readback != nc_UID current) || negb (is_nil (nc_DeletionTimestamp readback))
                   || negb (ContainsFinalizer readback TerminationFinalizer) || negb (ContainsFinalizer readback CreateFenceFinalizer)
                then rejected "NodeClaim changed identity, finalizers, or deletion state after issue CAS and before SDK dispatch" []
                else match record_of readback binding with
                | Err e => rejected "issued NodeClaim readback is invalid before SDK dispatch" [e]
                | Ok issued =>
                    if negb (issued_by issued token intent issueID assignmentIssueID now)
                    then fail (wrapS ErrCreateAttemptPending "NodeClaim immutable VM create issue is owned by another invocation or changed before SDK dispatch")
                    else Ret (Some readback, None)
                end
              end
            end
          end
        end
      end
    end
  end.

(** ** Transitions of an issued attempt *)

Record fence_op := {
  fo_action : string;                                            (* what getProtectedExact reports *)
  fo_what : string;                                              (* what the loop reports *)
  fo_claim_check : NodeClaim -> goerr;                           (* before the record is read *)
  fo_check : NodeClaim -> createFenceRecord -> result bool;      (* true: already stored *)
  fo_write : createFenceRecord -> prog pres (result createFenceRecord);
  fo_accept : createFenceRecord -> bool;                         (* the stored record is what was wanted *)
  fo_lost : createFenceRecord -> bool;                           (* it never will be *)
  fo_retry : list goerr;                                         (* joined to the error that is kept *)
}.

Fixpoint transition_loop (attempts : nat) (op : fence_op) (claim : NodeClaim) (binding : createFenceBinding) (lastErr : goerr)
    : prog pres (result (NodeClaim * createFenceRecord)) :=
  match attempts with
  | O => Ret (Err (Wrap (fo_what op +:+ " for NodeClaim did not converge") (non_nil [lastErr])))
  | S rest =>
    try_let! current := getProtectedExact claim (fo_action op) in
    match fo_claim_check op current with
    | Some e => Ret (Err e)
    | None =>
      match record_of current binding with
      | Err e => Ret (Err e)
      | Ok record =>
        match fo_check op current record with
        | Err e => Ret (Err e)
        | Ok true => Ret (Ok (current, record))
        | Ok false =>
          try_let! changed := fo_write op record in
          let! updated := call (UpdateClaim (with_record current changed)) in
          let writeErr := err_of updated in
          let! r := call (GetClaim CallerContext (nc_Name claim)) in
          match r with
          | Err readErr => transition_loop rest op claim binding (Join [writeErr; Some readErr])
          | Ok readback =>
            if (nc_UID readback != nc_UID current) || negb (ContainsFinalizer readback CreateFenceFinalizer)
            then Ret (Err (Msg ("NodeClaim changed identity or lost protection while " +:+ fo_what op)))
            else match record_of readback binding with
            | Err parseErr => transition_loop rest op claim binding (Join [writeErr; Some parseErr])
            | Ok stored =>
                if fo_accept op stored then Ret (Ok (readback, stored))
                else if fo_lost op stored then Ret (Err (Msg ("NodeClaim changed terminal state before " +:+ fo_what op)))
                else transition_loop rest op claim binding (match fo_retry op with [] => writeErr | l => Join (writeErr :: l) end)
            end
          end
        end
      end
    end
  end.
Definition transition (op : fence_op) (claim : NodeClaim) (binding : createFenceBinding) : prog pres (result (NodeClaim * createFenceRecord)) :=
  transition_loop 3 op claim binding None.
Definition only_claim (p : prog pres (result (NodeClaim * createFenceRecord))) : prog pres (result NodeClaim) :=
  let! r := p in Ret (result_map fst r).

(** A change that reads the clock. *)
Definition at_now (f : Z -> createFenceRecord) : prog pres (result createFenceRecord) := let! now := call Now in Ret (Ok (f now)).

Definition created_op (token issueID vmUUID : string) : fence_op := {|
  fo_action := "anchor created VM identity"; fo_what := "persisting exact created VM anchor";
  fo_claim_check _ := None;
  fo_check _ record := created_check record token issueID vmUUID;
  fo_write record := at_now (created_write record vmUUID);
  fo_accept stored := created_accept stored token issueID vmUUID;
  fo_lost := created_lost; fo_retry := []
|}.
Definition RecordCreatedVM (claim : NodeClaim) (binding : createFenceBinding) (token issueID vmUUID : string) : prog pres (result NodeClaim) :=
  let vmUUID := ToLower vmUUID in
  if negb (canonical_identity vmUUID issueID) then Ret (Err (Msg "recording a created VM requires canonical VM and issue identities"))
  else only_claim (transition (created_op token issueID vmUUID) claim binding).

Definition protection_fail_op (token issueID vmUUID : string) : fence_op := {|
  fo_action := "record protection failure"; fo_what := "persisting protection failure";
  fo_claim_check _ := None;
  fo_check _ record := protection_fail_check record token issueID vmUUID;
  fo_write record := at_now (protection_fail_write record);
  fo_accept stored := protection_stored stored token issueID vmUUID && negb (is_nil (cf_ProtectionFailureAt stored));
  fo_lost stored := protection_lost stored vmUUID;
  fo_retry := [Some (Msg "protection failure readback did not contain the durable marker")]
|}.
Definition RecordProtectionFailure (claim : NodeClaim) (binding : createFenceBinding) (token issueID vmUUID : string) : prog pres (result (NodeClaim * Z)) :=
  let vmUUID := ToLower vmUUID in
  if negb (canonical_identity vmUUID issueID) then Ret (Err (Msg "recording protection failure requires canonical VM and issue identities"))
  else let! r := transition (protection_fail_op token issueID vmUUID) claim binding in
  Ret (result_map (fun x => (x.1, default 0 (cf_ProtectionFailureAt x.2))) r).

Definition protection_clear_op (token issueID vmUUID : string) : fence_op := {|
  fo_action := "clear protection failure"; fo_what := "clearing protection failure";
  fo_claim_check _ := None;
  fo_check _ record := protection_clear_check record token issueID vmUUID;
  fo_write record := Ret (Ok (protection_clear_write record));
  fo_accept stored := protection_stored stored token issueID vmUUID && is_nil (cf_ProtectionFailureAt stored);
  fo_lost stored := protection_lost stored vmUUID;
  fo_retry := [Some (Msg "protection failure marker remained after recovery CAS")]
|}.
Definition ClearProtectionFailure (claim : NodeClaim) (binding : createFenceBinding) (token issueID vmUUID : string) : prog pres (result NodeClaim) :=
  let vmUUID := ToLower vmUUID in
  if negb (canonical_identity vmUUID issueID) then Ret (Err (Msg "clearing protection failure requires canonical VM and issue identities"))
  else only_claim (transition (protection_clear_op token issueID vmUUID) claim binding).

Definition rollback_op (token issueID vmUUID : string) (canonical : option FencedCreateCleanupResolution) : fence_op := {|
  fo_action := "choose created VM rollback"; fo_what := "persisting rollback choice";
  fo_claim_check _ := None;
  fo_check _ record := rollback_check record token issueID vmUUID canonical;
  fo_write record :=
    let! now := (if is_nil (cf_RollbackAt record) then call Now else Ret 0) in
    let! resolvedAt := (if is_nil canonical then Ret 0 else call Now) in
    Ret (rollback_write record canonical now resolvedAt);
  fo_accept stored := rollback_accept stored token issueID vmUUID canonical;
  fo_lost stored := rollback_lost stored vmUUID; fo_retry := []
|}.
Definition ChooseRollback (claim : NodeClaim) (binding : createFenceBinding) (token issueID vmUUID : string)
    (resolution : option FencedCreateCleanupResolution) : prog pres (result NodeClaim) :=
  let vmUUID := ToLower vmUUID in
  if negb (canonical_identity vmUUID issueID) then Ret (Err (Msg "choosing rollback requires canonical VM and issue identities"))
  else match resolution with
  | None => only_claim (transition (rollback_op token issueID vmUUID None) claim binding)
  | Some resolution =>
    match normalizeCleanupResolution resolution with
    | Err e => Ret (Err e)
    | Ok value =>
        if cr_VMUUID value != vmUUID then Ret (Err (Msg "rollback receipt VM does not match anchored VM"))
        else only_claim (transition (rollback_op token issueID vmUUID (Some value)) claim binding)
    end
  end.

Definition reject_op (token issueID : string) : fence_op := {|
  fo_action := "reject VM create"; fo_what := "persisting rejected create state";
  fo_claim_check _ := None;
  fo_check _ record := reject_check record token issueID;
  fo_write record := at_now (reject_write record);
  fo_accept stored := reject_accept stored token issueID;
  fo_lost stored := reject_lost stored token issueID; fo_retry := []
|}.
Definition MarkRejected (claim : NodeClaim) (binding : createFenceBinding) (token issueID : string) : prog pres (result NodeClaim) :=
  only_claim (transition (reject_op token issueID) claim binding).

(** A claim that is not deleting still has Karpenter's finalizer and the specification of the
    caller's. *)
Definition materialize_claim_check (claim current : NodeClaim) : goerr :=
  if is_nil (nc_DeletionTimestamp current)
     && (negb (ContainsFinalizer current TerminationFinalizer) || negb (nc_Generation current =? nc_Generation claim)
         || negb (Spec_DeepEqual (nc_Spec current) (nc_Spec claim))
         || (lookup_string (nc_Labels current) NodePoolLabelKey != lookup_string (nc_Labels claim) NodePoolLabelKey))
  then Some (Msg "NodeClaim changed spec, NodePool identity, or Karpenter finalizer before materializing VM identity") else None.
Definition materialize_op (claim : NodeClaim) (binding : createFenceBinding) (token : string) (vm : option VM) : fence_op := {|
  fo_action := "materialize VM identity"; fo_what := "persisting materialized VM identity";
  fo_claim_check current := materialize_claim_check claim current;
  fo_check current record :=
    materialize_check record (decodeFloatingIPUpdateRecord (annotation_of current AnnotationFloatingIPUpdateFence) binding token) token vm;
  fo_write record := match vm with Some vm => at_now (materialize_write record vm) | None => Panic end;
  fo_accept stored := match vm with Some vm => materialize_accept stored vm | None => false end;
  fo_lost stored := protection_lost stored (match vm with Some vm => ToLower (vm_UUID vm) | None => "" end); fo_retry := []
|}.
Definition MarkMaterialized (claim : NodeClaim) (binding : createFenceBinding) (token : string) (vm : option VM) : prog pres (result NodeClaim) :=
  only_claim (transition (materialize_op claim binding token vm) claim binding).

Definition terminal_op (token vmUUID : string) : fence_op := {|
  fo_action := "record terminal cleanup"; fo_what := "persisting terminal cleanup marker";
  fo_claim_check _ := None;
  fo_check _ record := terminal_check record token vmUUID;
  fo_write record := at_now (terminal_write record);
  fo_accept := terminalCleanupConverged;
  fo_lost _ := false; fo_retry := []
|}.
Definition RecordTerminalCleanup (claim : NodeClaim) (binding : createFenceBinding) (token vmUUID : string) : prog pres (result NodeClaim) :=
  only_claim (transition (terminal_op token (ToLower vmUUID)) claim binding).

(** ** The base firewall's assignment *)

Definition persistBaseFirewallAssignment (current : NodeClaim) (binding : createFenceBinding) (record : createFenceRecord)
    (accept : createFenceRecord -> bool) : prog pres (result NodeClaim) :=
  persistReceipt current AnnotationCreateFence (Marshal record_codec record) "base-firewall assignment fence"
    (fun value => parseCreateFence value binding) accept.

Definition intent_stored (vmUUID : string) (stored : createFenceRecord) : bool :=
  match cf_BaseFirewallAssignment stored with
  | Some a => (ba_Phase a == FirewallAssignmentIntent) && baseFirewallAssignmentMatches (Some a) vmUUID (ci_FirewallUUID (cf_Cleanup stored))
  | None => false
  end.
Definition issue_stored (vmUUID issueID : string) (now : Z) (stored : createFenceRecord) : bool :=
  match cf_BaseFirewallAssignment stored with
  | Some a => baseFirewallAssignmentMatches (Some a) vmUUID (ci_FirewallUUID (cf_Cleanup stored)) && (ba_Phase a == FirewallAssignmentIssued)
              && (ba_IssueID a == issueID) && (ba_IssuedAt a == Some now)
  | None => false
  end.
Definition finish_stored (vmUUID issueID terminal : string) (stored : createFenceRecord) : bool :=
  match cf_BaseFirewallAssignment stored with
  | Some a => baseFirewallAssignmentMatches (Some a) vmUUID (ci_FirewallUUID (cf_Cleanup stored)) && (ba_Phase a == terminal) && (ba_IssueID a == issueID)
  | None => false
  end.

Fixpoint authorize_base_loop (attempts : nat) (claim : NodeClaim) (binding : createFenceBinding) (token vmUUID : string) (lastErr : goerr)
    : prog pres (option NodeClaim * FirewallAssignmentAuthorization * goerr) :=
  let fail e := Ret (None, zero_assignment_authorization, Some e) in
  match attempts with
  | O => fail (Wrap "persisting issued base-firewall assignment for NodeClaim did not converge" (non_nil [lastErr]))
  | S rest =>
    let! r := getProtectedExact claim "authorize base-firewall assignment" in
    match r with
    | Err e => fail e
    | Ok current =>
      match record_of current binding with
      | Err e => fail e
      | Ok record =>
        match base_firewall_check record token vmUUID with
        | Some e => fail e
        | None =>
          match cf_BaseFirewallAssignment record with
          | None =>
            let! now := call Now in
            let changed := record <| cf_BaseFirewallAssignment := Some (newBaseFirewallAssignmentIntent record vmUUID now) |> in
            let! written := persistBaseFirewallAssignment current binding changed (intent_stored vmUUID) in
            match written with
            | Err e => authorize_base_loop rest claim binding token vmUUID (Some e)
            | Ok written => authorize_base_loop rest written binding token vmUUID lastErr
            end
          | Some assignment =>
            let fence := firewallAssignmentFenceFromRecord record in
            if negb (baseFirewallAssignmentMatches (Some assignment) vmUUID (ci_FirewallUUID (cf_Cleanup record)))
            then fail (Msg "NodeClaim base-firewall assignment identity changed")
            else if ba_Phase assignment == FirewallAssignmentIssued then
              let! a := authorizeBaseFirewallAssignmentSlot namespace current record vmUUID in
              Ret (Some current, a.1, a.2)
            else if ba_Phase assignment == FirewallAssignmentObserved then
              Ret (Some current, Build_FirewallAssignmentAuthorization fence false, None)
            else if (ba_Phase assignment != FirewallAssignmentIntent) && (ba_Phase assignment != FirewallAssignmentRejected)
            then fail (Msg "NodeClaim has invalid base-firewall assignment phase")
            else
              let! slotErr := (if ba_Phase assignment == FirewallAssignmentRejected
                               then finishFirewallMutationSlot namespace current record firewallMutationAssign vmUUID (ba_IssueID assignment) FirewallAssignmentRejected
                               else Ret None) in
              match slotErr with
              | Some e => Ret (Some current, Build_FirewallAssignmentAuthorization fence false, Some e)
              | None =>
                let! nonce := createFenceNonce in
                match nonce with
                | Err e => fail (Wrap "generating base-firewall assignment issue identity" [e])
                | Ok issueID =>
                  let! now := call Now in
                  let changed := update_assignment (assignment_issue issueID now) record in
                  let! written := persistBaseFirewallAssignment current binding changed (issue_stored vmUUID issueID now) in
                  match written with
                  | Ok written =>
                    let! a := authorizeBaseFirewallAssignmentSlot namespace written changed vmUUID in
                    Ret (Some written, a.1, a.2)
                  | Err writeErr =>
                    let! latest := call (GetClaim CallerContext (nc_Name claim)) in
                    let again := authorize_base_loop rest claim binding token vmUUID (Some writeErr) in
                    match latest with
                    | Err _ => again
                    | Ok latest =>
                      if nc_UID latest != nc_UID current then again
                      else match record_of latest binding with
                      | Err _ => again
                      | Ok stored =>
                          match cf_BaseFirewallAssignment stored with
                          | Some a =>
                              if (ba_Phase a == FirewallAssignmentIssued) && (ba_IssueID a != issueID)
                              then Ret (Some latest, Build_FirewallAssignmentAuthorization (firewallAssignmentFenceFromRecord stored) false, None)
                              else again
                          | None => again
                          end
                      end
                    end
                  end
                end
              end
          end
        end
      end
    end
  end.
Definition AuthorizeBaseFirewall (claim : NodeClaim) (binding : createFenceBinding) (token vmUUID : string)
    : prog pres (option NodeClaim * FirewallAssignmentAuthorization * goerr) :=
  let vmUUID := ToLower vmUUID in
  if negb (createFenceVMUUIDPattern vmUUID)
  then Ret (None, zero_assignment_authorization, Some (Msg "base-firewall authorization requires a canonical VM UUID"))
  else authorize_base_loop 4 claim binding token vmUUID None.

Fixpoint finish_base_loop (attempts : nat) (claim : NodeClaim) (binding : createFenceBinding) (token vmUUID issueID terminal : string) (lastErr : goerr)
    : prog pres (option NodeClaim * goerr) :=
  match attempts with
  | O => Ret (None, Some (Wrap "persisting terminal base-firewall assignment for NodeClaim did not converge" (non_nil [lastErr])))
  | S rest =>
    let fail e := Ret (None, Some e) in
    let! r := getProtectedExact claim "finish base-firewall assignment" in
    match r with
    | Err e => fail e
    | Ok current =>
      match record_of current binding with
      | Err e => fail e
      | Ok record =>
        match cf_BaseFirewallAssignment record with
        | None => fail (Msg "NodeClaim base-firewall assignment identity changed")
        | Some assignment =>
          if (token == "") || (cf_Token record != token)
             || negb (baseFirewallAssignmentMatches (Some assignment) vmUUID (ci_FirewallUUID (cf_Cleanup record)))
          then fail (Msg "NodeClaim base-firewall assignment identity changed")
          else if (ba_Phase assignment == terminal) && (ba_IssueID assignment == issueID) then
            let! slotErr := finishFirewallMutationSlot namespace current record firewallMutationAssign vmUUID issueID terminal in
            Ret (Some current, slotErr)
          else if (ba_Phase assignment != FirewallAssignmentIssued) || (ba_IssueID assignment != issueID) || is_nil (ba_IssuedAt assignment)
          then fail (Msg "NodeClaim base-firewall assignment does not match issued receipt")
          else
            let! now := call Now in
            let changed := update_assignment (assignment_finish terminal now) record in
            let! written := persistBaseFirewallAssignment current binding changed (finish_stored vmUUID issueID terminal) in
            match written with
            | Err e => finish_base_loop rest claim binding token vmUUID issueID terminal (Some e)
            | Ok written =>
              match record_of written binding with
              | Err e => Ret (Some written, Some e)
              | Ok stored =>
                let! slotErr := finishFirewallMutationSlot namespace written stored firewallMutationAssign vmUUID issueID terminal in
                Ret (Some written, slotErr)
              end
            end
        end
      end
    end
  end.
Definition finishBaseFirewallAssignment (claim : NodeClaim) (binding : createFenceBinding) (token vmUUID issueID terminal : string)
    : prog pres (option NodeClaim * goerr) :=
  let vmUUID := ToLower vmUUID in
  if negb (canonical_identity vmUUID issueID) || negb (terminal_phase terminal)
  then Ret (None, Some (Msg "finishing base-firewall assignment requires canonical identity and terminal phase"))
  else finish_base_loop 3 claim binding token vmUUID issueID terminal None.
Definition ObserveBaseFirewall (claim : NodeClaim) (binding : createFenceBinding) (token vmUUID issueID : string) :=
  finishBaseFirewallAssignment claim binding token vmUUID issueID FirewallAssignmentObserved.
Definition RejectBaseFirewall (claim : NodeClaim) (binding : createFenceBinding) (token vmUUID issueID : string) :=
  finishBaseFirewallAssignment claim binding token vmUUID issueID FirewallAssignmentRejected.

(** ** The floating IP's metadata update *)

Record FloatingIPUpdateAuthorization := { ua_Fence : FloatingIPUpdateFence; ua_AllowPOST : bool }.
Definition zero_update_authorization : FloatingIPUpdateAuthorization :=
  Build_FloatingIPUpdateAuthorization (Build_FloatingIPUpdateFence "" "" "" 0 "" "") false.

Definition persistFloatingIPUpdate (current : NodeClaim) (record : floatingIPUpdateRecord) (accept : floatingIPUpdateRecord -> bool)
    : prog pres (result NodeClaim) :=
  persistReceipt current AnnotationFloatingIPUpdateFence (Marshal floatingIPUpdate_codec record) "floating-IP update fence"
    (fun value => decodeFloatingIPUpdateRecord value (fu_Binding record) (fu_AttemptToken record)) accept.

Definition update_issue (binding : createFenceBinding) (token : string) (desired : FloatingIPUpdateFence) (issueID : string) (now : Z) : floatingIPUpdateRecord :=
  Build_floatingIPUpdateRecord floatingIPUpdateFenceSchema binding token (uf_VMUUID desired) (uf_Address desired) (uf_Name desired)
    (uf_BillingAccountID desired) FloatingIPUpdateIssued issueID now None None.
Definition update_finish (terminal : string) (now : Z) (record : floatingIPUpdateRecord) : floatingIPUpdateRecord :=
  if terminal == FloatingIPUpdateObserved
  then record <| fu_Phase := terminal |> <| fu_ObservedAt := Some now |> <| fu_RejectedAt := None |>
  else record <| fu_Phase := terminal |> <| fu_RejectedAt := Some now |> <| fu_ObservedAt := None |>.

Fixpoint authorize_update_loop (attempts : nat) (claim : NodeClaim) (binding : createFenceBinding) (token : string) (desired : FloatingIPUpdateFence) (lastErr : goerr)
    : prog pres (option NodeClaim * FloatingIPUpdateAuthorization * goerr) :=
  let fail e := Ret (None, zero_update_authorization, Some e) in
  match attempts with
  | O => fail (Wrap "persisting issued floating-IP update for NodeClaim did not converge" (non_nil [lastErr]))
  | S rest =>
    let! r := getProtectedExact claim "authorize floating-IP metadata update" in
    match r with
    | Err e => fail e
    | Ok current =>
      match record_of current binding with
      | Err e => fail e
      | Ok createRecord =>
        if (token == "") || (cf_Token createRecord != token) || (cf_CreatedVMUUID createRecord != uf_VMUUID desired)
           || is_nil (cf_LaunchObservedAt createRecord)
        then fail (Msg "NodeClaim floating-IP update lacks the exact anchored VM attempt")
        else
          let issue :=
            let! nonce := createFenceNonce in
            match nonce with
            | Err e => fail (Wrap "generating floating-IP update issue identity" [e])
            | Ok issueID =>
              let! now := call Now in
              let record := update_issue binding token desired issueID now in
              let! written := persistFloatingIPUpdate current record
                (fun stored => (fu_Phase stored == FloatingIPUpdateIssued) && (fu_IssueID stored == issueID) && (fu_IssuedAt stored =? now)) in
              match written with
              | Ok written => Ret (Some written, Build_FloatingIPUpdateAuthorization (floatingIPUpdateFenceFromRecord record)
                                                   (negb (cf_LegacyV2FloatingIPMayBeIssued createRecord)), None)
              | Err e => authorize_update_loop rest current binding token desired (Some e)
              end
            end in
          let encoded := annotation_of current AnnotationFloatingIPUpdateFence in
          if encoded == "" then issue
          else match decodeFloatingIPUpdateRecord encoded binding token with
          | Err e => fail e
          | Ok record =>
            if negb (floatingIPUpdateIdentityMatches record desired) then fail (Msg "NodeClaim floating-IP update identity changed")
            else if (fu_Phase record == FloatingIPUpdateIssued) || (fu_Phase record == FloatingIPUpdateObserved)
            then Ret (Some current, Build_FloatingIPUpdateAuthorization (floatingIPUpdateFenceFromRecord record) false, None)
            else if fu_Phase record == FloatingIPUpdateRejected then issue
            else fail (Msg "NodeClaim has invalid floating-IP update phase")
          end
      end
    end
  end.
Definition AuthorizeFloatingIPUpdate (claim : NodeClaim) (binding : createFenceBinding) (token vmUUID address name : string) (billingAccountID : Z)
    : prog pres (option NodeClaim * FloatingIPUpdateAuthorization * goerr) :=
  match newFloatingIPUpdateFence vmUUID address name billingAccountID with
  | Err e => Ret (None, zero_update_authorization, Some e)
  | Ok desired => authorize_update_loop 4 claim binding token desired None
  end.

Fixpoint finish_update_loop (attempts : nat) (claim : NodeClaim) (binding : createFenceBinding) (token : string) (fence : FloatingIPUpdateFence)
    (terminal : string) (lastErr : goerr) : prog pres (result NodeClaim) :=
  match attempts with
  | O => Ret (Err (Wrap "persisting terminal floating-IP update for NodeClaim did not converge" (non_nil [lastErr])))
  | S rest =>
    try_let! current := getProtectedExact claim "finish floating-IP metadata update" in
    match decodeFloatingIPUpdateRecord (annotation_of current AnnotationFloatingIPUpdateFence) binding token with
    | Err e => Ret (Err e)
    | Ok record =>
      if negb (floatingIPUpdateIdentityMatches record fence) || (fu_IssueID record != uf_IssueID fence)
      then Ret (Err (Msg "NodeClaim floating-IP update identity changed"))
      else if fu_Phase record == terminal then Ret (Ok current)
      else if fu_Phase record != FloatingIPUpdateIssued then Ret (Err (Msg "NodeClaim floating-IP update does not match its issued receipt"))
      else
        let! now := call Now in
        let! written := persistFloatingIPUpdate current (update_finish terminal now record)
          (fun stored => (fu_Phase stored == terminal) && (fu_IssueID stored == uf_IssueID fence) && floatingIPUpdateIdentityMatches stored fence) in
        match written with
        | Ok written => Ret (Ok written)
        | Err e => finish_update_loop rest current binding token fence terminal (Some e)
        end
    end
  end.
Definition finishFloatingIPUpdate (claim : NodeClaim) (binding : createFenceBinding) (token : string) (fence : FloatingIPUpdateFence) (terminal : string)
    : prog pres (result NodeClaim) :=
  match validateFloatingIPUpdateFence fence with
  | Some e => Ret (Err (Wrap "finishing floating-IP update requires exact identity" [e]))
  | None =>
      if (terminal != FloatingIPUpdateObserved) && (terminal != FloatingIPUpdateRejected)
      then Ret (Err (Msg "finishing floating-IP update requires a terminal phase"))
      else finish_update_loop 3 claim binding token fence terminal None
  end.
Definition ObserveFloatingIPUpdate (claim : NodeClaim) (binding : createFenceBinding) (token : string) (fence : FloatingIPUpdateFence) :=
  finishFloatingIPUpdate claim binding token fence FloatingIPUpdateObserved.
Definition RejectFloatingIPUpdate (claim : NodeClaim) (binding : createFenceBinding) (token : string) (fence : FloatingIPUpdateFence) :=
  finishFloatingIPUpdate claim binding token fence FloatingIPUpdateRejected.
End Store.
