(* ===== verification/RemovalStore.v ===== *)
(** * The removal fence store on NodeClaim annotations

    Models the operations of [kubernetesCreateFenceStore] in
    modules/karpenter-provider/pkg/provider/removal_mutation_fence.go. *)

From S2P Require Import Prelude GoErrors CSIFence Prog GoJSON GoNet CreateFence CreateFenceDecode ProviderActions RemovalFence FirewallSlot CreateFenceStore.

(** ** Decisions and changes *)

(** What AuthorizeRemovalMutation does with the journal it read. *)
Inductive removal_decision :=
  | Refuse (e : error)
  | Answer (a : RemovalMutationAuthorization)   (* without a write *)
  | Issue.
Definition removal_decide (record : removalMutationRecord) (desired : RemovalMutation) (present : bool) : removal_decision :=
  let active fence := Answer (Build_RemovalMutationAuthorization fence true false) in
  match historicalObservedFloatingIPDelete record desired with
  | Some historical => if present then Refuse (Msg "NodeClaim observed removal resource reappeared") else active historical
  | None =>
    let exact := removalMutationIdentityMatches record desired in
    let fence := removalMutationFenceFromRecord record in
    if rm_Phase record == RemovalMutationReady then if negb present then Answer zero_removal_authorization else Issue
    else if rm_Phase record == RemovalMutationIssued then
      if exact then active fence
      else if negb present then Answer zero_removal_authorization
      else Refuse (Msg "NodeClaim has an unresolved different removal mutation")
    else if rm_Phase record == RemovalMutationRejected then
      if exact && negb present then active fence
      else if negb exact then
        if negb present then Answer zero_removal_authorization else Refuse (Msg "NodeClaim has an unresolved rejected removal mutation")
      else Issue
    else if rm_Phase record == RemovalMutationObserved then
      if exact then if present then Refuse (Msg "NodeClaim observed removal resource reappeared") else active fence
      else if negb present then Answer zero_removal_authorization
      else Issue
    else Refuse (Msg "NodeClaim has invalid removal mutation phase")
  end.
(** The issued record that follows the archived one. *)
Definition removal_issue (record : removalMutationRecord) (binding : createFenceBinding) (token : string) (desired : RemovalMutation) (issueID : string) (now : Z)
    : removalMutationRecord :=
  Build_removalMutationRecord removalMutationFenceSchema binding token (rm_ReadyAt record) (rmu_Operation desired) (rmu_Location desired) (rmu_VMUUID desired)
    (rmu_Address desired) (rmu_Name desired) (rmu_BillingAccountID desired) RemovalMutationIssued issueID (Some now) None None
    (rm_ObservedFloatingIPDeletes record).

(** The checks of finishRemovalMutation before it compares phases. *)
Definition finish_identity (record : removalMutationRecord) (fence : RemovalMutationFence) : goerr :=
  if negb (removalMutationIdentityMatches record (rf_RemovalMutation fence)) || (rm_IssueID record != rf_IssueID fence)
  then Some (Msg "NodeClaim removal mutation identity changed")
  else if negb (rf_IssuedAt (removalMutationFenceFromRecord record) =? rf_IssuedAt fence) then Some (Msg "NodeClaim removal mutation issue time changed")
  else None.
Definition finish_phase (record : removalMutationRecord) (fence : RemovalMutationFence) (terminal : string) : goerr :=
  if (terminal == RemovalMutationRejected) && (rm_Phase record != RemovalMutationIssued) then Some (Msg "NodeClaim removal mutation is not issued")
  else if (terminal == RemovalMutationObserved) && (rm_Phase record != RemovalMutationIssued) && (rm_Phase record != RemovalMutationRejected)
  then Some (Msg "NodeClaim removal mutation has no observable receipt")
  else if rf_Phase fence != rm_Phase record then Some (Msg "NodeClaim removal mutation phase changed")
  else None.
Definition removal_finish (record : removalMutationRecord) (terminal : string) (now : Z) : result removalMutationRecord :=
  let durableFence := removalMutationFenceFromRecord record in
  let record := record <| rm_Phase := terminal |> in
  if terminal == RemovalMutationObserved then
    appendObservedFloatingIPDelete (record <| rm_ObservedAt := Some now |> <| rm_RejectedAt := None |>) durableFence now
  else Ok (record <| rm_RejectedAt := Some now |> <| rm_ObservedAt := None |>).
(** An observed deletion whose receipt is not yet in the history. *)
Definition removal_backfill (record : removalMutationRecord) (fence : RemovalMutationFence) : result (option removalMutationRecord) :=
  if (rm_Phase record != RemovalMutationObserved) || (rmu_Operation (rf_RemovalMutation fence) != RemovalMutationFloatingIPDelete) then Ok None
  else match historicalObservedFloatingIPDelete record (rf_RemovalMutation fence) with
  | Some _ => Ok None
  | None =>
      match rm_ObservedAt record with
      | Some observedAt =>
          if observedAt =? 0 then Err (Msg "NodeClaim observed floating-IP DELETE has no observation time")
          else result_map Some (appendObservedFloatingIPDelete record (removalMutationFenceFromRecord record) observedAt)
      | None => Err (Msg "NodeClaim observed floating-IP DELETE has no observation time")
      end
  end.

Section Store.
Context `{PE : ProviderEnv, JT : JSONText, TT : TimeText}.

Definition persistRemovalMutation (current : NodeClaim) (record : removalMutationRecord) (accept : removalMutationRecord -> bool) : prog pres (result NodeClaim) :=
  let encoded := Marshal removal_codec record in
  if Nat.ltb maxRemovalMutationEncodedBytes (String.length encoded) then Ret (Err (Msg "encoding NodeClaim removal mutation fence exceeds its bound"))
  else persistReceipt current AnnotationRemovalMutationFence encoded "removal mutation fence"
         (fun value => decodeRemovalMutationRecord value (rm_Binding record) (rm_AttemptToken record)) accept.

Fixpoint ensure_removal_loop (attempts : nat) (claim : NodeClaim) (binding : createFenceBinding) (token : string) : prog pres (result NodeClaim) :=
  match attempts with
  | O => Ret (Err (Msg "NodeClaim initial removal mutation fence did not converge"))
  | S rest =>
    try_let! current := getProtectedExact claim "initialize removal mutation fence" in
    match record_of current binding with
    | Err e => Ret (Err e)
    | Ok createRecord =>
      if (token == "") || (cf_Token createRecord != token) then Ret (Err (Msg "NodeClaim removal fence token changed"))
      else
        let encoded := annotation_of current AnnotationRemovalMutationFence in
        if encoded != "" then
          match decodeRemovalMutationRecord encoded binding token with
          | Err e => Ret (Err e)
          | Ok _ => Ret (Ok current)
          end
        else if time_set (nc_DeletionTimestamp current) || negb (is_nil (cf_RollbackAt createRecord))
        then Ret (Err (Msg "NodeClaim lacks a pre-removal fence after deletion or rollback began"))
        else
          let! now := call Now in
          let record := newRemovalMutationReadyRecord binding token now in
          let! written := persistRemovalMutation current record
            (fun stored => (rm_Phase stored == RemovalMutationReady) && (rm_ReadyAt stored =? rm_ReadyAt record)) in
          match written with
          | Ok written => Ret (Ok written)
          | Err _ => ensure_removal_loop rest current binding token
          end
    end
  end.
Definition EnsureRemovalFence (claim : NodeClaim) (binding : createFenceBinding) (token : string) : prog pres (result NodeClaim) :=
  ensure_removal_loop 4 claim binding token.

Fixpoint authorize_removal_loop (attempts : nat) (claim : NodeClaim) (binding : createFenceBinding) (token : string) (desired : RemovalMutation)
    (present : bool) (lastErr : goerr) : prog pres (option NodeClaim * RemovalMutationAuthorization * goerr) :=
  let fail e := Ret (None, zero_removal_authorization, Some e) in
  match attempts with
  | O => fail (Wrap "persisting issued removal mutation for NodeClaim did not converge" (non_nil [lastErr]))
  | S rest =>
    let! r := getProtectedExact claim "authorize removal mutation" in
    match r with
    | Err e => fail e
    | Ok current =>
      match record_of current binding with
      | Err e => fail e
      | Ok createRecord =>
        if (token == "") || (cf_Token createRecord != token) then fail (Msg "NodeClaim removal mutation token changed")
        else match decodeRemovalMutationRecord (annotation_of current AnnotationRemovalMutationFence) binding token with
        | Err e => fail e
        | Ok record =>
          match removal_decide record desired present with
          | Refuse e => fail e
          | Answer a => Ret (Some current, a, None)
          | Issue =>
            let! nonce := createFenceNonce in
            match nonce with
            | Err e => fail (Wrap "generating removal mutation issue identity" [e])
            | Ok issueID =>
              match archiveCurrentObservedFloatingIPDelete record with
              | Err e => fail e
              | Ok archived =>
                let! now := call Now in
                let issued := removal_issue archived binding token desired issueID now in
                let! written := persistRemovalMutation current issued
                  (fun stored => (rm_Phase stored == RemovalMutationIssued) && (rm_IssueID stored == issueID) && removalMutationIdentityMatches stored desired) in
                match written with
                | Ok written => Ret (Some written, Build_RemovalMutationAuthorization (removalMutationFenceFromRecord issued) true true, None)
                | Err e => authorize_removal_loop rest current binding token desired present (Some e)
                end
              end
            end
          end
        end
      end
    end
  end.
Definition AuthorizeRemovalMutation (claim : NodeClaim) (binding : createFenceBinding) (token : string) (mutation : RemovalMutation) (present : bool)
    : prog pres (option NodeClaim * RemovalMutationAuthorization * goerr) :=
  match normalizeRemovalMutation mutation with
  | Err e => Ret (None, zero_removal_authorization, Some e)
  | Ok desired => authorize_removal_loop 4 claim binding token desired present None
  end.

Definition in_history (stored : removalMutationRecord) (mutation : RemovalMutation) : bool := negb (is_nil (historicalObservedFloatingIPDelete stored mutation)).

Fixpoint finish_removal_loop (attempts : nat) (claim : NodeClaim) (binding : createFenceBinding) (token : string) (fence : RemovalMutationFence)
    (terminal : string) (lastErr : goerr) : prog pres (result NodeClaim) :=
  match attempts with
  | O => Ret (Err (Wrap "persisting terminal removal mutation for NodeClaim did not converge" (non_nil [lastErr])))
  | S rest =>
    try_let! current := getProtectedExact claim "finish removal mutation" in
    match record_of current binding with
    | Err e => Ret (Err e)
    | Ok _ =>
      match decodeRemovalMutationRecord (annotation_of current AnnotationRemovalMutationFence) binding token with
      | Err e => Ret (Err e)
      | Ok record =>
        let mutation := rf_RemovalMutation fence in
        let matches stored := (rm_Phase stored == terminal) && (rm_IssueID stored == rf_IssueID fence) && removalMutationIdentityMatches stored mutation in
        let write changed accept :=
          let! written := persistRemovalMutation current changed accept in
          match written with
          | Ok written => Ret (Ok written)
          | Err e => finish_removal_loop rest current binding token fence terminal (Some e)
          end in
        match finish_identity record fence with
        | Some e => Ret (Err e)
        | None =>
          if rm_Phase record == terminal then
            match removal_backfill record fence with
            | Err e => Ret (Err e)
            | Ok None => Ret (Ok current)
            | Ok (Some changed) => write changed (fun stored => matches stored && in_history stored mutation)
            end
          else match finish_phase record fence terminal with
          | Some e => Ret (Err e)
          | None =>
            let! now := call Now in
            match removal_finish record terminal now with
            | Err e => Ret (Err e)
            | Ok changed =>
                write changed (fun stored => matches stored &&
                  (negb ((terminal == RemovalMutationObserved) && (rmu_Operation mutation == RemovalMutationFloatingIPDelete)) || in_history stored mutation))
            end
          end
        end
      end
    end
  end.
Definition finishRemovalMutation (claim : NodeClaim) (binding : createFenceBinding) (token : string) (fence : RemovalMutationFence) (terminal : string)
    : prog pres (result NodeClaim) :=
  match validateRemovalMutationFence fence with
  | Some e => Ret (Err e)
  | None =>
      if (terminal != RemovalMutationObserved) && (terminal != RemovalMutationRejected) then Ret (Err (Msg "invalid removal terminal phase"))
      else finish_removal_loop 3 claim binding token fence terminal None
  end.
Definition ObserveRemovalMutation (claim : NodeClaim) (binding : createFenceBinding) (token : string) (fence : RemovalMutationFence) :=
  finishRemovalMutation claim binding token fence RemovalMutationObserved.
Definition RejectRemovalMutation (claim : NodeClaim) (binding : createFenceBinding) (token : string) (fence : RemovalMutationFence) :=
  finishRemovalMutation claim binding token fence RemovalMutationRejected.
End Store.
