(* ===== verification/CreateFenceController.v ===== *)
(** * The create-protection controller of the Karpenter provider

    Models modules/karpenter-provider/pkg/provider/create_fence_controller.go. The cloud adapter is
    called through two actions. The callbacks that the controller hands to it are the store
    operations of CreateFenceStore, RemovalStore and FirewallSlot on this claim; they run inside the
    adapter, and the answer carries the claim that they left in the controller's variable. Log
    lines are dropped. *)

From S2P Require Import Prelude GoErrors CSIFence Prog GoJSON GoNet CreateFence CreateFenceDecode CreateFenceSteps ProviderActions RemovalFence FirewallSlot CreateFenceStore RemovalStore.

Definition AnnotationCreateFenceResolution : string := "karpenter.inspace.cloud/create-fence-resolution".
Definition createFenceCleanupRequeue : Z := 10 * 1000000000.
Definition createProtectionIssueDeadline : Z := 120 * 1000000000.

(** [reconcile.Result]. *)
Record Result := { re_RequeueAfter : Z; re_Requeue : bool }.
Definition no_requeue : Result := Build_Result 0 false.
Definition requeue : Result := Build_Result 0 true.
Definition requeue_later : Result := Build_Result createFenceCleanupRequeue false.

Section Controller.
Context `{PE : ProviderEnv, JT : JSONText, TT : TimeText}.

(** [client.IgnoreNotFound]. *)
Definition IgnoreNotFound (e : error) : goerr := if Is e StatusNotFound then None else Some e.

Definition done (r : Result) : prog pres (Result * goerr) := Ret (r, None).
Definition failed (e : error) : prog pres (Result * goerr) := Ret (no_requeue, Some e).

(** ** Writers *)

Definition clearOperatorCreateFenceResolution (nodeClaim : NodeClaim) : prog pres goerr :=
  let updated := nodeClaim <| nc_Annotations := delete AnnotationCreateFenceResolution (nc_Annotations nodeClaim) |> in
  let! patched := call (PatchClaim CallerContext nodeClaim updated) in
  match patched with
  | Err e => Ret (Some (Wrap "clearing NodeClaim consumed create-fence resolution" [e]))
  | Ok _ =>
    let! r := call (GetClaim CallerContext (nc_Name nodeClaim)) in
    match r with
    | Err e => Ret (Some (Wrap "reading back NodeClaim consumed create-fence resolution" [e]))
    | Ok readback =>
        if (nc_UID readback != nc_UID nodeClaim) || (annotation_of readback AnnotationCreateFenceResolution != "")
           || negb (ContainsFinalizer readback CreateFenceFinalizer)
        then Ret (Some (Msg "NodeClaim operator resolution clear did not survive exact readback")) else Ret None
    end
  end.

(** The patch and readback of [persistDependentResolution] and [persistCleanupResolution]. *)
Definition patch_record (nodeClaim : NodeClaim) (changed : createFenceRecord) (what : string) (survived : createFenceRecord -> bool) : prog pres goerr :=
  let! patched := call (PatchClaim CallerContext nodeClaim (with_record nodeClaim changed)) in
  match patched with
  | Err e => Ret (Some (Wrap ("persisting NodeClaim " +:+ what) [e]))
  | Ok _ =>
    let! r := call (GetClaim CallerContext (nc_Name nodeClaim)) in
    match r with
    | Err e => Ret (Some (Wrap ("reading back NodeClaim " +:+ what) [e]))
    | Ok readback =>
      if (nc_UID readback != nc_UID nodeClaim) || negb (ContainsFinalizer readback CreateFenceFinalizer)
      then Ret (Some (Msg ("NodeClaim changed identity or lost protection while persisting " +:+ what)))
      else match decodeCreateFence (annotation_of readback AnnotationCreateFence) with
      | Err e => Ret (Some e)
      | Ok stored => if survived stored then Ret None else Ret (Some (Msg ("NodeClaim " +:+ what +:+ " did not survive exact readback")))
      end
    end
  end.

Definition persistDependentResolution (nodeClaim : NodeClaim) (record : createFenceRecord) : prog pres goerr :=
  match dependents_check record with
  | Some e => Ret (Some e)
  | None =>
    let! now := call Now in
    patch_record nodeClaim (dependents_write record now) "dependent absence proof"
      (fun stored => negb (cf_DependentUnresolved stored) && time_set (cf_DependentsResolvedAt stored) && negb (is_nil (cf_RollbackAt stored))
                     && (cf_CreatedVMUUID stored == cf_CreatedVMUUID record))
  end.

Definition persistCleanupResolution (nodeClaim : NodeClaim) (record : createFenceRecord) (resolution : FencedCreateCleanupResolution) : prog pres goerr :=
  match cleanup_check record resolution with
  | Err e => Ret (Some e)
  | Ok publicIP =>
    let! now := call Now in
    match cleanup_write record resolution now with
    | Err e => Ret (Some e)
    | Ok changed =>
      patch_record nodeClaim changed "fenced cleanup resolution"
        (fun stored => (cf_CleanupVMUUID stored == ToLower (cr_VMUUID resolution)) && (cf_CleanupFloatingIPName stored == cr_FloatingIPName resolution)
                       && (cf_CleanupPublicIPv4 stored == publicIP))
    end
  end.

(** [retry.RetryOnConflict(retry.DefaultRetry, ...)]: at most five attempts. *)
Fixpoint remove_loop (attempts : nat) (nodeClaim : NodeClaim) : prog pres goerr :=
  let! r := call (GetClaim DetachedContext (nc_Name nodeClaim)) in
  match r with
  | Err e => Ret (IgnoreNotFound e)
  | Ok exact =>
    if nc_UID exact != nc_UID nodeClaim then Ret (Some (Msg "NodeClaim UID changed before create-protection release"))
    else if negb (ContainsFinalizer exact CreateFenceFinalizer) then Ret None
    else if negb (time_set (nc_DeletionTimestamp exact)) || (annotation_of exact AnnotationCreateFence != annotation_of nodeClaim AnnotationCreateFence)
            || (annotation_of exact AnnotationCreateFenceResolution != annotation_of nodeClaim AnnotationCreateFenceResolution)
    then Ret (Some (Msg "NodeClaim create-protection state changed after cloud cleanup audit"))
    else
      let updated := RemoveFinalizer exact CreateFenceFinalizer in
      let updated := updated <| nc_Annotations := delete AnnotationCreateFence (nc_Annotations updated) |> in
      let! patched := call (PatchClaim DetachedContext exact updated) in
      match patched with
      | Ok _ => Ret None
      | Err e =>
          if Is e StatusConflict then match attempts with O => Ret (Some e) | S rest => remove_loop rest nodeClaim end
          else Ret (Some e)
      end
  end.
Definition removeProtection (nodeClaim : NodeClaim) : prog pres goerr :=
  let! err := remove_loop 4 nodeClaim in
  match err with
  | Some e => if Is e StatusConflict then Ret (Some (Wrap "NodeClaim create-protection CAS did not converge after bounded retries" [e])) else Ret (IgnoreNotFound e)
  | None => Ret None
  end.

(** ** Protection state *)

Definition floatingIPUpdateForProtection (nodeClaim : NodeClaim) (record : createFenceRecord) : result (option floatingIPUpdateRecord) :=
  let encoded := annotation_of nodeClaim AnnotationFloatingIPUpdateFence in
  if encoded == "" then Ok None
  else match decodeFloatingIPUpdateRecord encoded (cf_Binding record) (cf_Token record) with
  | Err e => Err (Wrap "NodeClaim floating-IP protection receipt" [e])
  | Ok update =>
      if (fu_VMUUID update != cf_CreatedVMUUID record) || negb (fu_BillingAccountID update =? ci_BillingAccountID (cf_Cleanup record))
      then Err (Msg "NodeClaim floating-IP protection receipt does not match its exact created VM") else Ok (Some update)
  end.

Definition readProtectionState (nodeClaim : NodeClaim) : prog pres (result (NodeClaim * createFenceRecord * option floatingIPUpdateRecord)) :=
  try_let! current := call (GetClaim CallerContext (nc_Name nodeClaim)) in
  if (nc_UID current != nc_UID nodeClaim) || negb (ContainsFinalizer current CreateFenceFinalizer)
  then Ret (Err (Msg "NodeClaim changed identity or lost create protection"))
  else match decodeCreateFence (annotation_of current AnnotationCreateFence) with
  | Err e => Ret (Err e)
  | Ok record =>
      if (cb_NodeClaimUID (cf_Binding record) != nc_UID current) || (ci_NodeClaimName (cf_Cleanup record) != nc_Name current)
      then Ret (Err (Msg "durable create protection changed exact NodeClaim identity"))
      else match floatingIPUpdateForProtection current record with
      | Err e => Ret (Err e)
      | Ok update => Ret (Ok (current, record, update))
      end
  end.

(** The issue time of a dependent mutation that is still outstanding. *)
Definition unresolvedProtectionIssuedAt (record : createFenceRecord) (update : option floatingIPUpdateRecord) : option Z :=
  let update_issued :=
    match update with
    | Some u => if fu_Phase u == FloatingIPUpdateIssued then (if negb (fu_IssuedAt u =? 0) then Some (fu_IssuedAt u) else cf_IssuedAt record) else None
    | None => None
    end in
  match cf_BaseFirewallAssignment record with
  | Some a =>
      if ba_Phase a == FirewallAssignmentIssued then
        if time_set (ba_IssuedAt a) then ba_IssuedAt a
        else match cf_IssuedAt record with Some t => Some t | None => update_issued end
      else update_issued
  | None => update_issued
  end.

(** ** The operator's resolution *)

Definition resolveOperatorCreateFence (nodeClaim : NodeClaim) (record : createFenceRecord) (cleanup : FencedCreateCleanupRequest)
    (resolution : createFenceOperatorResolution) : prog pres (Result * goerr) :=
  let clear claim :=
    let! err := clearOperatorCreateFenceResolution claim in
    match err with Some e => failed e | None => done requeue end in
  if (cf_IssueID record == "") || (or_IssueID resolution != cf_IssueID record)
  then failed (Msg "NodeClaim operator resolution issue ID does not match the exact durable attempt")
  else if or_Result resolution == createFenceResolutionVM then
    if ((cf_Phase record == createFenceMaterialized) && (cf_CreatedVMUUID record == or_VMUUID resolution))
       || ((cf_Phase record == createFenceIssued) && (cf_CreatedVMUUID record == or_VMUUID resolution))
    then clear nodeClaim
    else if (cf_Phase record != createFenceIssued) || (cf_CreatedVMUUID record != "") || negb (is_nil (cf_RollbackAt record))
    then failed (Msg "NodeClaim cannot apply a VM result to create-fence phase")
    else
      let! protect := call (ProtectFencedCreate (cleanup <| rq_CreatedVMUUID := or_VMUUID resolution |>)) in
      match protect with
      | (Some e, _) => failed (Wrap "validating and protecting operator-resolved VM" [e])
      | (None, _) =>
        let! anchored := RecordCreatedVM nodeClaim (cf_Binding record) (cf_Token record) (cf_IssueID record) (or_VMUUID resolution) in
        match anchored with
        | Err e => failed (Wrap "persisting operator-resolved VM" [e])
        | Ok anchored => clear anchored
        end
      end
  else if or_Result resolution == createFenceResolutionNoResult then
    if (cf_Phase record == createFenceRejected) && (cf_CreatedVMUUID record == "") then clear nodeClaim
    else if (cf_Phase record != createFenceIssued) || (cf_CreatedVMUUID record != "") || negb (is_nil (cf_RollbackAt record))
    then failed (Msg "NodeClaim cannot apply no-result to create-fence phase")
    else
      let! audit := call (CleanupFencedCreate cleanup) in
      let '(result, auditErr, _) := audit in
      if negb (is_nil (cl_Resolution result)) || cl_DependentsResolved result
      then failed (Msg "operator no-result audit discovered a cloud result; resolve the exact VM instead")
      else if errIs auditErr ErrCreateAttemptPending then done requeue_later
      else if negb (errIs auditErr ErrCreateAttemptUnresolved)
      then failed (Wrap "operator no-result audit did not produce three authoritative empty observations" (non_nil [auditErr]))
      else
        let! rejected := MarkRejected nodeClaim (cf_Binding record) (cf_Token record) (cf_IssueID record) in
        match rejected with
        | Err e => failed (Wrap "persisting support-confirmed no-result create fence" [e])
        | Ok rejected => clear rejected
        end
  else failed (Msg "unsupported operator create-fence result").

(** ** The cleanup request *)

(** The receipt of the materialized VM is marked converged when the terminal marker names it. *)
Definition mark_converged (record : createFenceRecord) (l : list FencedCreateCleanupResolution) : list FencedCreateCleanupResolution :=
  if terminalCleanupConverged record then
    map (fun r => if (cr_VMUUID r == cf_ObservedVMUUID record) && (cr_FloatingIPName r == cf_FloatingIPName record) && (cr_PublicIPv4 r == cf_PublicIPv4 record)
                  then r <| cr_Converged := true |> else r) l
  else l.
Definition cleanup_resolutions (record : createFenceRecord) : result (list FencedCreateCleanupResolution) :=
  try! l := (if cf_ObservedVMUUID record != "" then
    match appendCleanupResolution (cf_CleanupResolutions record)
            (Build_FencedCreateCleanupResolution (cf_ObservedVMUUID record) (cf_FloatingIPName record) (cf_PublicIPv4 record) false) with
    | Err e => Err (Wrap "NodeClaim materialized cleanup receipt" [e])
    | Ok l => Ok l
    end else Ok (cf_CleanupResolutions record)) in
  Ok (mark_converged record l).
Definition attempt_resolved (record : createFenceRecord) (resolutions : list FencedCreateCleanupResolution) : bool :=
  let fresh v := negb (bool_decide (v ∈ inv_VMs (cf_Baseline record))) in
  (cf_Phase record == createFenceMaterialized) || (cf_Phase record == createFenceRejected) || (cf_Intent record == CreateAuthorizationAdoption)
  || existsb (fun r => fresh (cr_VMUUID r)) resolutions
  || ((cf_CreatedVMUUID record != "") && fresh (cf_CreatedVMUUID record)).
Definition zero_update_fence : FloatingIPUpdateFence := Build_FloatingIPUpdateFence "" "" "" 0 "" "".
Definition cleanup_request (record : createFenceRecord) (resolutions : list FencedCreateCleanupResolution) (update : option floatingIPUpdateRecord)
    : FencedCreateCleanupRequest :=
  let active := cf_CleanupVMUUID record != "" in {|
    rq_Cleanup := cf_Cleanup record; rq_SpecHash := cb_SpecHash (cf_Binding record); rq_BootstrapHash := cb_BootstrapHash (cf_Binding record);
    rq_AttemptToken := cf_Token record; rq_AttemptIssuedAt := default 0 (cf_IssuedAt record);
    rq_POSTIssued := negb (is_nil (cf_IssuedAt record)) && (cf_Intent record == CreateAuthorizationPost);
    rq_POSTRejected := (cf_Phase record == createFenceRejected) && (cf_Intent record == CreateAuthorizationPost);
    rq_AttemptResolved := attempt_resolved record resolutions;
    rq_CreatedVMUUID := ToLower (cf_CreatedVMUUID record);
    rq_RollbackChosen := (cf_Phase record == createFenceIssued) && negb (is_nil (cf_RollbackAt record));
    rq_DependentUnresolved := cf_DependentUnresolved record; rq_DependentsResolved := negb (is_nil (cf_DependentsResolvedAt record));
    rq_ObservedVMUUID := if active then cf_CleanupVMUUID record else ToLower (cf_ObservedVMUUID record);
    rq_FloatingIPName := if active then cf_CleanupFloatingIPName record else cf_FloatingIPName record;
    rq_PublicIPv4 := if active then cf_CleanupPublicIPv4 record else cf_PublicIPv4 record;
    rq_Resolutions := resolutions; rq_Baseline := cf_Baseline record; rq_BaseFirewallAssignment := firewallAssignmentFenceFromRecord record;
    rq_FloatingIPUpdate := match update with
      | Some u => if (fu_Phase u == FloatingIPUpdateIssued) || (fu_Phase u == FloatingIPUpdateObserved) then floatingIPUpdateFenceFromRecord u else zero_update_fence
      | None => zero_update_fence
      end
  |}.

(** ** Reconcile *)

(** The claim that callbacks left, or the one before. *)
Definition left_by (claim : NodeClaim) (o : option NodeClaim) : NodeClaim := default claim o.

(** An anchored VM that is neither deleting nor rolled back: protect it, and roll it back when its
    protection keeps failing. *)
Definition reconcile_protection (nodeClaim : NodeClaim) (record : createFenceRecord) (cleanup : FencedCreateCleanupRequest) : prog pres (Result * goerr) :=
  let! protect := call (ProtectFencedCreate cleanup) in
  let nodeClaim := left_by nodeClaim protect.2 in
  match protect.1 with
  | Some protectErr =>
    let! fresh := readProtectionState nodeClaim in
    match fresh with
    | Err e => failed (Wrap "refreshing NodeClaim protection state after cloud audit failed" [e])
    | Ok (nodeClaim, record, freshUpdate) =>
      if negb (is_nil (cf_RollbackAt record)) then done requeue
      else
        let choose nodeClaim :=
          let rollbackResolution := match freshUpdate with
            | Some u => if (fu_Phase u == FloatingIPUpdateIssued) || (fu_Phase u == FloatingIPUpdateObserved)
                        then Some (Build_FencedCreateCleanupResolution (fu_VMUUID u) (fu_Name u) (fu_Address u) false) else None
            | None => None
            end in
          let! r := ChooseRollback nodeClaim (cf_Binding record) (cf_Token record) (cf_IssueID record) (cf_CreatedVMUUID record) rollbackResolution in
          match r with
          | Err rollbackErr => failed (Wrap "protecting anchored VM failed and persisting rollback also failed" [protectErr; rollbackErr])
          | Ok _ => done requeue
          end in
        match unresolvedProtectionIssuedAt record freshUpdate with
        | Some issuedAt =>
          let! now := call Now in
          if now <? issuedAt + createProtectionIssueDeadline then done requeue_later else choose nodeClaim
        | None =>
          if Is protectErr ErrCreateAttemptPending then
            let! r := RecordProtectionFailure nodeClaim (cf_Binding record) (cf_Token record) (cf_IssueID record) (cf_CreatedVMUUID record) in
            match r with
            | Err e => failed (Wrap "persisting anchored VM protection failure" [e])
            | Ok (failedClaim, failureAt) =>
              let! now := call Now in
              if now <? failureAt + createProtectionIssueDeadline then done requeue_later else choose failedClaim
            end
          else choose nodeClaim
        end
    end
  | None =>
    if negb (is_nil (cf_ProtectionFailureAt record)) then
      let! r := ClearProtectionFailure nodeClaim (cf_Binding record) (cf_Token record) (cf_IssueID record) (cf_CreatedVMUUID record) in
      match r with
      | Err e => failed (Wrap "clearing anchored VM protection failure after successful readback" [e])
      | Ok _ => done requeue
      end
    else done requeue_later
  end.

(** A claim that is deleting or rolled back: clean up, persist what the cloud found, and release the
    finalizer once nothing is left. *)
Definition reconcile_cleanup (nodeClaim : NodeClaim) (record : createFenceRecord) (cleanup : FencedCreateCleanupRequest) (deleting : bool)
    : prog pres (Result * goerr) :=
  let! answer := call (CleanupFencedCreate cleanup) in
  let '(result, err, claim) := answer in
  let nodeClaim := left_by nodeClaim claim in
  let persisted e := match e with Some e => failed e | None => done requeue end in
  match cl_Resolution result with
  | Some resolution =>
      if cl_DependentsResolved result then failed (Msg "cloud returned both a fenced cleanup receipt and dependent-absence proof")
      else match err with
      | Some e => failed (Wrap "cloud returned both fenced cleanup resolution and error" [e])
      | None => let! e := persistCleanupResolution nodeClaim record resolution in persisted e
      end
  | None =>
    if cl_DependentsResolved result then
      match err with
      | Some e => failed (Wrap "cloud returned dependent-absence proof with an error" [e])
      | None => let! e := persistDependentResolution nodeClaim record in persisted e
      end
    else
      let release := if negb deleting then done no_requeue else let! e := removeProtection nodeClaim in Ret (no_requeue, e) in
      match err with
      | None => release
      | Some e =>
          if Is e ErrVMNotFound then release
          else if Is e ErrCreateAttemptPending then done requeue_later
          else failed e
      end
  end.

Definition reconcile_exact (nodeClaim : NodeClaim) (record : createFenceRecord) : prog pres (Result * goerr) :=
  let deleting := time_set (nc_DeletionTimestamp nodeClaim) in
  let rollbackChosen := (cf_Phase record == createFenceIssued) && negb (is_nil (cf_RollbackAt record)) in
  let encoded := annotation_of nodeClaim AnnotationRemovalMutationFence in
  let! removal := (if encoded == "" then
      if deleting || rollbackChosen then Ret (Err (Msg "NodeClaim lacks a removal mutation fence established before deletion/rollback"))
      else let! ensured := EnsureRemovalFence nodeClaim (cf_Binding record) (cf_Token record) in
           match ensured with
           | Err e => Ret (Err (Wrap "initializing NodeClaim removal mutation fence" [e]))
           | Ok updated => Ret (Ok updated)
           end
    else match decodeRemovalMutationRecord encoded (cf_Binding record) (cf_Token record) with
         | Err e => Ret (Err (Wrap "NodeClaim removal mutation fence" [e]))
         | Ok _ => Ret (Ok nodeClaim)
         end) in
  match removal with
  | Err e => failed e
  | Ok nodeClaim =>
    if (cf_Phase record == createFenceIssued) && is_nil (cf_IssuedAt record) then failed (Msg "issued NodeClaim fence has no durable issue time")
    else if deleting && (nc_ProviderID nodeClaim != "") && ContainsFinalizer nodeClaim TerminationFinalizer then done requeue_later
    else if deleting && (cf_Phase record == createFenceIssued) && (cf_CreatedVMUUID record != "") && is_nil (cf_RollbackAt record) then
      let anchorReceipt := List.find (fun r => EqualFold (cr_VMUUID r) (cf_CreatedVMUUID record)) (cf_CleanupResolutions record) in
      let! r := ChooseRollback nodeClaim (cf_Binding record) (cf_Token record) (cf_IssueID record) (cf_CreatedVMUUID record) anchorReceipt in
      match r with
      | Err e => failed (Wrap "persisting deletion rollback for anchored VM" [e])
      | Ok _ => done requeue
      end
    else match cleanup_resolutions record with
    | Err e => failed e
    | Ok resolutions =>
      match floatingIPUpdateForProtection nodeClaim record with
      | Err e => failed e
      | Ok update =>
        let cleanup := cleanup_request record resolutions update in
        let encodedResolution := annotation_of nodeClaim AnnotationCreateFenceResolution in
        if encodedResolution != "" then
          match decodeCreateFenceOperatorResolution encodedResolution with
          | Err e => failed (Wrap "NodeClaim operator create-fence resolution" [e])
          | Ok resolution => resolveOperatorCreateFence nodeClaim record cleanup resolution
          end
        else if negb deleting && negb rollbackChosen then
          if (cf_Phase record == createFenceIssued) && (cf_CreatedVMUUID record != "") then reconcile_protection nodeClaim record cleanup
          else done no_requeue
        else reconcile_cleanup nodeClaim record cleanup deleting
      end
    end
  end.

Definition Reconcile (nodeClaim : NodeClaim) : prog pres (Result * goerr) :=
  if negb (ContainsFinalizer nodeClaim CreateFenceFinalizer) then done no_requeue
  else let! r := call (GetClaim CallerContext (nc_Name nodeClaim)) in
  match r with
  | Err e => Ret (no_requeue, IgnoreNotFound e)
  | Ok exact =>
    if nc_UID exact != nc_UID nodeClaim then failed (Msg "NodeClaim UID changed before create-protection reconciliation")
    else if negb (ContainsFinalizer exact CreateFenceFinalizer) then done no_requeue
    else match decodeCreateFence (annotation_of exact AnnotationCreateFence) with
    | Err e => failed (Wrap "NodeClaim create-protection finalizer has no valid fence" [e])
    | Ok record =>
        if (cb_NodeClaimUID (cf_Binding record) != nc_UID exact) || (ci_NodeClaimName (cf_Cleanup record) != nc_Name exact)
        then failed (Msg "NodeClaim create-protection identity does not match its UID/name")
        else reconcile_exact exact record
    end
  end.
End Controller.
