(* ===== verification/CreateFenceWrites.v ===== *)
(** * What the store writes

    Every write that an operation of the store dispatches is a change of a NodeClaim that the same
    execution read: the reservation of an absent fence, one step of the fence that was read
    ([fence_step]), or a receipt beside it. Nothing else of the claim is touched. *)

From S2P Require Import Prelude GoErrors CSIFence Prog GoJSON GoNet CreateFence CreateFenceDecode CreateFenceSteps CreateFenceEncoding CreateFenceSpec CreateFenceLifecycle ProviderActions RemovalFence FirewallSlot CreateFenceStore RemovalStore.

(** ** Nonces *)

Lemma hex_digit_hex n : 0 <= n < 16 -> is_hex_lower (hex_digit n) = true.
Proof.
  intros H. assert (forallb (fun k => is_hex_lower (hex_digit (Z.of_nat k))) (seq 0 16) = true) as Hall by done.
  rewrite forallb_forall in Hall. specialize (Hall (Z.to_nat n)). rewrite Z2Nat.id in Hall by lia. apply Hall, in_seq. lia.
Qed.
Lemma hex_digits_key n z : match_seq (replicate n is_hex_lower) (hex_digits n z) = true.
Proof. induction n as [|n IH]; simpl; [done|]. rewrite IH, hex_digit_hex; [done|]. apply Z.mod_pos_bound. lia. Qed.
Lemma nonce_key z : key (hex_digits 32 z).
Proof. apply hex_digits_key. Qed.

Section Writes.
Context `{PE : ProviderEnv, JT : JSONText, TT : TimeText}.
Abbreviation event := (event pres).

(** ** Changes of a claim *)

(** The floating-IP receipt is issued where there is none or a rejected one, and finished where it is
    issued. *)
Inductive update_step (binding : createFenceBinding) (token : string) (cur : string) : floatingIPUpdateRecord -> Prop :=
  | update_issued desired issueID now :
      cur = "" \/ (exists u, decodeFloatingIPUpdateRecord cur binding token = Ok u /\ fu_Phase u = FloatingIPUpdateRejected
                     /\ floatingIPUpdateIdentityMatches u desired = true) ->
      key issueID -> now <> 0 -> update_step binding token cur (update_issue binding token desired issueID now)
  | update_finished u terminal now :
      decodeFloatingIPUpdateRecord cur binding token = Ok u -> fu_Phase u = FloatingIPUpdateIssued ->
      terminal = FloatingIPUpdateObserved \/ terminal = FloatingIPUpdateRejected -> now <> 0 ->
      update_step binding token cur (update_finish terminal now u).

(** The removal journal starts ready, moves to one issued mutation when nothing is outstanding, and
    finishes it. *)
Inductive removal_step (binding : createFenceBinding) (token : string) (cur : string) : removalMutationRecord -> Prop :=
  | removal_ready now : cur = "" -> now <> 0 -> removal_step binding token cur (newRemovalMutationReadyRecord binding token now)
  | removal_issued r desired archived issueID now :
      decodeRemovalMutationRecord cur binding token = Ok r -> removal_decide r desired true = Issue ->
      archiveCurrentObservedFloatingIPDelete r = Ok archived -> key issueID -> now <> 0 ->
      removal_step binding token cur (removal_issue archived binding token desired issueID now)
  | removal_backfilled r fence r' :
      decodeRemovalMutationRecord cur binding token = Ok r -> finish_identity r fence = None -> rm_Phase r = RemovalMutationObserved ->
      removal_backfill r fence = Ok (Some r') -> removal_step binding token cur r'
  | removal_finished r fence terminal now r' :
      decodeRemovalMutationRecord cur binding token = Ok r -> finish_identity r fence = None -> finish_phase r fence terminal = None ->
      terminal = RemovalMutationObserved \/ terminal = RemovalMutationRejected -> rm_Phase r <> terminal ->
      now <> 0 -> removal_finish r terminal now = Ok r' -> removal_step binding token cur r'.

Inductive fence_write (cur : NodeClaim) : NodeClaim -> Prop :=
  | write_reserve binding cleanup baseline now token record :
      annotation_of cur AnnotationCreateFence = "" -> validateCreateInventory baseline = None -> key token -> now <> 0 ->
      newCreateFenceRecord binding cleanup baseline now (Ok token) = Ok record -> storable record ->
      fence_write cur (AddFinalizer (set_annotation (with_record cur record) AnnotationRemovalMutationFence
                         (Marshal removal_codec (newRemovalMutationReadyRecord binding token now))) CreateFenceFinalizer)
  | write_step r r' :
      decodeCreateFence (annotation_of cur AnnotationCreateFence) = Ok r -> fence_step r r' -> (storable r -> storable r') -> fence_write cur (with_record cur r')
  | write_update binding token u :
      update_step binding token (annotation_of cur AnnotationFloatingIPUpdateFence) u ->
      fence_write cur (set_annotation cur AnnotationFloatingIPUpdateFence (Marshal floatingIPUpdate_codec u))
  | write_removal binding token m :
      removal_step binding token (annotation_of cur AnnotationRemovalMutationFence) m ->
      fence_write cur (set_annotation cur AnnotationRemovalMutationFence (Marshal removal_codec m)).

(** ** The guard *)

Definition seen (h : list event) (cur : NodeClaim) : Prop := exists ctx name, Ev (GetClaim ctx name) (Ok cur) ∈ h.
(** [time.Now] answers with times that have RFC 3339 text, never the zero time. *)
Definition clock_ok (h : list event) : Prop := forall t, Ev Now t ∈ h -> clock_good t = true.
Lemma clock_nonzero t : clock_good t = true -> t <> 0.
Proof. unfold clock_good. simpl. unfold good_time. intros H E. subst. discriminate H. Qed.
Definition writes_seen (x : pact) (h : list event) : Prop :=
  match x with
  | UpdateClaim c => clock_ok h -> exists cur, seen h cur /\ fence_write cur c
  | PatchClaim _ _ _ => False
  | _ => True
  end.

Lemma seen_cons e h cur : seen h cur -> seen (e :: h) cur.
Proof. intros (ctx & n & H). exists ctx, n. by apply list_elem_of_further. Qed.
Lemma seen_here ctx n cur h : seen (Ev (GetClaim ctx n) (Ok cur) :: h) cur.
Proof. exists ctx, n. apply list_elem_of_here. Qed.

(** ** Programs *)

Definition anything {A} (_ : A) (_ : list event) : Prop := True.
#[local] Abbreviation good p h := (wp writes_seen p h anything).

Lemma record_decode cur binding r : record_of cur binding = Ok r -> decodeCreateFence (annotation_of cur AnnotationCreateFence) = Ok r.
Proof. unfold record_of, parseCreateFence. destruct (decodeCreateFence _); [|done]. by case_test. Qed.

(** Exact reads: the claim that is returned was seen. *)
Lemma wp_protected claim action h (Q : result NodeClaim -> list event -> Prop) :
  (forall e h', Q (Err e) h') ->
  (forall ctx n cur, nc_UID cur = nc_UID claim -> Q (Ok cur) (Ev (GetClaim ctx n) (Ok cur) :: h)) ->
  wp writes_seen (getProtectedExact claim action) h Q.
Proof.
  intros He Ho. unfold getProtectedExact. case_test; [apply He|]. simpl. split; [done|]. intros [cur|e]; [|apply He].
  case_test; [apply He|]. simpl. bool_hyps. by apply Ho.
Qed.
Lemma wp_exact claim h (Q : result NodeClaim -> list event -> Prop) :
  (forall e h', Q (Err e) h') ->
  (forall ctx n cur, nc_UID cur = nc_UID claim -> Q (Ok cur) (Ev (GetClaim ctx n) (Ok cur) :: h)) ->
  wp writes_seen (getExact claim) h Q.
Proof.
  intros He Ho. unfold getExact. case_test; [apply He|]. simpl. split; [done|]. intros [cur|e]; [|apply He].
  case_test; [apply He|]. case_test; [apply He|]. simpl. bool_hyps. by apply Ho.
Qed.
Lemma wp_nonce h (Q : result string -> list event -> Prop) :
  (forall e h', Q (Err e) h') -> (forall i z, key i -> i = hex_digits 32 z -> Q (Ok i) (Ev RandRead (Ok z) :: h)) -> wp writes_seen createFenceNonce h Q.
Proof. intros He Ho. simpl. split; [done|]. intros [z|e]; simpl; [|apply He]. by apply Ho; [apply nonce_key|]. Qed.

(** A receipt written beside the fence. *)
Lemma wp_receipt {A} cur k encoded what (decode : string -> result A) accept h (Q : result NodeClaim -> list event -> Prop) :
  writes_seen (UpdateClaim (set_annotation cur k encoded)) h ->
  (forall e h', Q (Err e) h') ->
  (forall ctx n v readback, Q (Ok readback) (Ev (GetClaim ctx n) (Ok readback) :: Ev (UpdateClaim (set_annotation cur k encoded)) v :: h)) ->
  wp writes_seen (persistReceipt cur k encoded what decode accept) h Q.
Proof.
  intros Hw He Ho. unfold persistReceipt. simpl. split; [done|]. intros v. split; [done|]. intros [readback|e]; simpl; [|apply He].
  case_test; [apply He|]. destruct (decode _); [|apply He]. destruct (accept _); [apply Ho|]. destruct (err_of v); apply He.
Qed.

(** ** The transitions of an issued attempt *)

(** One step, to a record that is stored as it is. *)
Definition advances (r r' : createFenceRecord) : Prop := fence_step r r' /\ (storable r -> storable r').

(** What makes an instance of the loop write steps. *)
Definition op_steps (op : fence_op) : Prop := forall cur r h,
  fo_check op cur r = Ok false ->
  wp writes_seen (fo_write op r) h (fun res h' => (exists new, h' = new ++ h) /\ forall r', res = Ok r' -> clock_ok h' -> advances r r').

Lemma seen_app new h cur : seen h cur -> seen (new ++ h) cur.
Proof. intros (ctx & n & H). exists ctx, n. by apply elem_of_app; right. Qed.

Lemma transition_writes op claim binding lastErr n h : op_steps op -> good (transition_loop n op claim binding lastErr) h.
Proof.
  intros Hop. revert lastErr h. induction n as [|n IH]; intros lastErr h; [done|]. cbn [transition_loop]. apply wp_bind, wp_protected; [done|].
  intros ctx nm cur _. destruct (fo_claim_check op cur); [done|]. destruct (record_of cur binding) as [r|] eqn:Er; [|done].
  destruct (fo_check op cur r) as [[]|] eqn:Ec; [done| |done].
  apply wp_bind. eapply wp_mono; [by apply (Hop cur)|]. intros [r'|e] h' [[new ->] Hs]; [|done]. simpl. split.
  { intros Hk. exists cur. split; [by apply seen_app, seen_here|]. eapply write_step; [by eapply record_decode|by apply Hs..]. }
  intros v. split; [done|]. intros [readback|e]; [|apply IH]. case_test; [done|]. destruct (record_of readback binding); [|apply IH].
  destruct (fo_accept op _); [done|]. destruct (fo_lost op _); [done|]. apply IH.
Qed.

Lemma only_claim_writes p h : good p h -> good (only_claim p) h.
Proof. intros H. apply wp_bind. eapply wp_mono; [exact H|]. done. Qed.

Lemma at_now_steps r f h :
  (forall now, now <> 0 -> clock_good now = true -> advances r (f now)) ->
  wp writes_seen (at_now f) h (fun res h' => (exists new, h' = new ++ h) /\ forall r', res = Ok r' -> clock_ok h' -> advances r r').
Proof.
  intros Hs. simpl. split; [done|]. intros now. split; [by exists [Ev Now now]|]. intros r' [= <-] Hk.
  assert (clock_good now = true) by apply Hk, list_elem_of_here. apply Hs; [by apply clock_nonzero|done].
Qed.

Lemma canonical_split vm i : canonical_identity vm i = true -> createFenceVMUUIDPattern vm = true /\ createFenceKeyHashPattern i = true.
Proof. unfold canonical_identity. intros H. by bool_hyps. Qed.
Lemma created_steps token i vm : canonical_identity vm i = true -> ToLower vm = vm -> op_steps (created_op token i vm).
Proof.
  intros Hc Hl cur r h Hk. apply at_now_steps. intros now Hn Hg. split; [by apply (step_created r token i vm now)|].
  intros Hr. apply canonical_split in Hc as [Hv%vm_ascii _]. by apply created_storable.
Qed.
Lemma protection_fail_steps token i vm : canonical_identity vm i = true -> op_steps (protection_fail_op token i vm).
Proof.
  intros Hc cur r h Hk. apply canonical_split in Hc as []. apply at_now_steps. intros now Hn Hg. split; [by apply (step_protection_fail r token i vm now)|].
  intros Hr. by apply protection_storable.
Qed.
Lemma protection_clear_steps token i vm : canonical_identity vm i = true -> op_steps (protection_clear_op token i vm).
Proof.
  intros Hc cur r h Hk. simpl. split; [by exists []|]. intros r' [= <-] _. apply canonical_split in Hc as [].
  split; [by apply (step_protection_clear r token i vm)|]. intros Hr. by apply protection_storable.
Qed.
Lemma reject_steps token i : op_steps (reject_op token i).
Proof. intros cur r h Hk. apply at_now_steps. intros now Hn Hg. split; [by apply (step_reject r token i now)|]. intros Hr. by apply reject_storable. Qed.
Lemma terminal_steps token vm : op_steps (terminal_op token vm).
Proof. intros cur r h Hk. apply at_now_steps. intros now Hn Hg. split; [by apply (step_terminal r token vm now)|]. intros Hr. by apply terminal_storable. Qed.

Lemma update_valid s b t u : decodeFloatingIPUpdateRecord s b t = Ok u -> validateFloatingIPUpdateFence (floatingIPUpdateFenceFromRecord u) = None.
Proof.
  unfold decodeFloatingIPUpdateRecord. case_test; [done|]. destruct (Unmarshal _ s) as [u'|]; [|done]. case_test; [done|]. intros [= <-]. bool_hyps.
  by apply is_nil_true.
Qed.
(** What the cloud reports of a VM is ASCII. *)
Definition plain_vm (vm : VM) : Prop := is_ascii (vm_UUID vm) = true /\ is_ascii (vm_FloatingIPName vm) = true /\ is_ascii (vm_PublicIPv4 vm) = true.
Lemma materialize_steps claim binding token vm : (forall v, vm = Some v -> plain_vm v) -> op_steps (materialize_op claim binding token vm).
Proof.
  intros Hvm cur r h Hk. simpl in *. destruct vm as [vm|]; [|done]. destruct (Hvm vm eq_refl) as (? & ? & ?). apply at_now_steps. intros now Hn Hg.
  split; [|intros Hr; by apply materialize_storable]. eapply step_materialize; [exact Hk|done|]. intros u. apply update_valid.
Qed.

(** The clock is read only where a time is needed. *)
Lemma wp_clock (b : bool) h :
  wp writes_seen (if b then Ret 0 else call Now) h (fun t h' => (exists new, h' = new ++ h) /\ (clock_ok h' -> b = false -> clock_good t = true)).
Proof. destruct b; simpl; [split; [by exists []|done]|]. split; [done|]. intros t. split; [by exists [Ev Now t]|]. intros Hk _. apply Hk, list_elem_of_here. Qed.
Lemma clock_older new h : clock_ok (new ++ h) -> clock_ok h.
Proof. intros H t Ht. apply H. by apply elem_of_app; right. Qed.

Lemma rollback_steps token i vm canonical :
  canonical_identity vm i = true ->
  (forall c, canonical = Some c -> normalizeCleanupResolution c = Ok c /\ cr_VMUUID c = vm /\ c_good resolution_codec c = true) ->
  op_steps (rollback_op token i vm canonical).
Proof.
  intros Hc Hcan cur r h Hk. apply canonical_split in Hc as [Hv _]. cbn [fo_write rollback_op] in *. apply wp_bind.
  apply (wp_mono _ _ _ (fun now h' => (exists new, h' = new ++ h) /\ (clock_ok h' -> negb (is_nil (cf_RollbackAt r)) = false -> clock_good now = true))).
  { pose proof (wp_clock (negb (is_nil (cf_RollbackAt r))) h) as H. by destruct (is_nil (cf_RollbackAt r)). }
  intros now h1 [[new1 ->] Hn]. apply wp_bind. eapply wp_mono; [apply wp_clock|]. intros t h2 [[new2 ->] Ht]. simpl.
  split; [exists (new2 ++ new1); by rewrite app_assoc|]. intros r' Hr' Hck.
  assert (cf_RollbackAt r = None -> clock_good now = true) as Hn' by (intros E; apply Hn; [by eapply clock_older|by rewrite E]).
  assert (forall c, canonical = Some c -> clock_good t = true) as Ht' by (intros c E; apply Ht; [done|by rewrite E]).
  split; [apply (step_rollback r token i vm canonical now t r'); try done|intros Hr; eapply rollback_storable; eauto].
  - intros c Ec. destruct (Hcan c Ec) as (? & ? & ?). eauto using clock_nonzero.
  - intros E. by apply clock_nonzero, Hn'.
  - intros c Ec. split; [by apply Hcan|by eapply Ht'].
Qed.

(** ** The firewall's slots touch no claim *)

Definition no_claim_write (x : pact) : Prop := match x with UpdateClaim _ | PatchClaim _ _ _ => False | _ => True end.
Lemma no_claim_write_ok x h : no_claim_write x -> writes_seen x h.
Proof. by destruct x. Qed.
Create HintDb slots.
#[local] Ltac no_write := repeat (first
  [ progress intros | progress (auto with slots) | apply only_bind | case_match | progress cbn [only call bind] | split | exact I ]).

Context (namespace : string).
Lemma ledger_only ctx : only no_claim_write (getFirewallMutationLedger namespace ctx).
Proof. unfold getFirewallMutationLedger. no_write. Qed.
#[local] Hint Resolve ledger_only : slots.
Lemma readback_only desired : only no_claim_write (readbackOwnFirewallMutationSlot namespace desired).
Proof. unfold readbackOwnFirewallMutationSlot. no_write. Qed.
Lemma owners_only desired : only no_claim_write (auditUnresolvedLegacyFirewallMutationOwners desired).
Proof. unfold auditUnresolvedLegacyFirewallMutationOwners. no_write. Qed.
Lemma slotTerminal_only value : only no_claim_write (firewallMutationSlotTerminal value).
Proof. unfold firewallMutationSlotTerminal. no_write. Qed.
#[local] Hint Resolve readback_only owners_only slotTerminal_only : slots.
Lemma acquire_only n desired k : only no_claim_write (acquire_loop namespace n desired k).
Proof. induction n as [|n IH]; cbn [acquire_loop]; no_write. Qed.
#[local] Hint Resolve acquire_only : slots.
Lemma assignment_slot_only current r vm : only no_claim_write (authorizeBaseFirewallAssignmentSlot namespace current r vm).
Proof. unfold authorizeBaseFirewallAssignmentSlot, acquireFirewallMutationSlot, createFenceNonce. no_write. Qed.
Lemma finish_loop_only n current k op vm i terminal : only no_claim_write (finish_slot_loop namespace n current k op vm i terminal).
Proof. induction n as [|n IH]; cbn [finish_slot_loop]; no_write. Qed.
#[local] Hint Resolve assignment_slot_only finish_loop_only : slots.
Lemma finish_slot_only current r op vm i terminal : only no_claim_write (finishFirewallMutationSlot namespace current r op vm i terminal).
Proof. unfold finishFirewallMutationSlot. no_write. Qed.
#[local] Hint Resolve finish_slot_only : slots.
Lemma detach_only claim binding token vm : only no_claim_write (AuthorizeBaseFirewallDetach namespace claim binding token vm).
Proof. unfold AuthorizeBaseFirewallDetach, getProtectedExact, createFenceNonce, acquireFirewallMutationSlot. no_write. Qed.
Lemma finish_detach_only claim binding token fence terminal : only no_claim_write (finishBaseFirewallDetach namespace claim binding token fence terminal).
Proof. unfold finishBaseFirewallDetach, getProtectedExact. no_write. Qed.

Lemma good_only {A} (p : prog pres A) h : only no_claim_write p -> good p h.
Proof. intros Hp. by eapply wp_only; [exact Hp|apply no_claim_write_ok|]. Qed.
Lemma wp_slot {A} (p : prog pres A) h (Q : A -> list event -> Prop) :
  only no_claim_write p -> (forall a new, Q a (new ++ h)) -> wp writes_seen p h Q.
Proof. intros Hp HQ. eapply wp_only; [exact Hp|apply no_claim_write_ok|]. intros a new _. apply HQ. Qed.

(** ** Every operation *)

Lemma one_of (x a b : string) : (x != a) && (x != b) = false -> x = a \/ x = b.
Proof. intros H. apply andb_false_iff in H as [H|H]; bool_hyps; auto. Qed.

Lemma Get_writes claim binding cleanup h : good (Get claim binding cleanup) h.
Proof. apply good_only. unfold Get, getExact. no_write. Qed.

Lemma Ensure_writes claim binding cleanup baseline h :
  c_good binding_codec binding = true -> c_good cleanup_codec cleanup = true -> c_good inventory_codec baseline = true ->
  good (Ensure claim binding cleanup baseline) h.
Proof.
  intros Hb Hcl Hbl. unfold Ensure. apply wp_bind, wp_exact; [done|]. intros ctx n cur _. case_test; [by repeat case_match|]. case_test; [done|].
  destruct (validateCreateInventory baseline) eqn:Ev; [done|]. apply wp_bind, wp_call; [done|]. intros now. apply wp_bind, wp_nonce; [done|].
  intros token v Hk _. destruct (newCreateFenceRecord _ _ _ _ _) as [record|] eqn:Er; [|done]. unfold persist. apply wp_bind, wp_call.
  - intros Hck. exists cur. split; [by do 2 apply seen_cons; apply seen_here|].
    assert (cf_Token record = token /\ cf_StartedAt record = now) as [<- <-]; [|apply (write_reserve cur binding cleanup baseline); try done].
    + unfold newCreateFenceRecord in Er. by repeat (case_match; try done); injection Er as <-.
    + by bool_hyps.
    + apply clock_nonzero, Hck. right. left.
    + eapply reserve_storable; eauto; [by apply key_ascii|]. apply Hck. right. left.
  - intros [updated|e]; [|by case_test]. apply wp_bind, wp_call; [done|]. intros [readback|e]; [|done]. by repeat case_match.
Qed.

Lemma authorize_intent r token intent : authorize_check r token intent = None -> is_ascii intent = true.
Proof. unfold authorize_check. case_test; [done|]. case_test; [done|]. intros _. by match goal with H : _ = false |- _ => apply one_of in H as [->| ->] end. Qed.
(** The authority to create: the claim that is returned was read back, and its attempt was issued
    under a nonce that this execution drew. *)
Definition granted (o : option NodeClaim) (h : list event) : Prop :=
  forall c, o = Some c -> seen h c /\ exists r z, decodeCreateFence (annotation_of c AnnotationCreateFence) = Ok r
    /\ cf_Phase r = createFenceIssued /\ cf_IssueID r = hex_digits 32 z /\ Ev RandRead (Ok z) ∈ h.
Lemma Authorize_writes claim binding token intent h :
  wp writes_seen (Authorize claim binding token intent) h (fun res h' => granted (match res.2 with None => res.1 | Some _ => None end) h').
Proof.
  unfold Authorize. apply wp_bind, wp_exact; [done|]. intros ctx n cur _. case_test; [done|]. destruct (record_of cur binding) as [r|] eqn:Er; [|done].
  destruct (authorize_check r token intent) eqn:Ec; [done|]. apply wp_bind, wp_call; [done|]. intros now. apply wp_bind, wp_nonce; [done|]. intros i v Hi Ei.
  apply wp_bind, wp_nonce; [done|]. intros j w Hj _. case_test; [done|]. apply wp_bind, wp_call.
  - intros Hck. exists cur. split; [by do 3 apply seen_cons; apply seen_here|]. eapply write_step; [by eapply record_decode|..].
    all: assert (clock_good now = true) as Hg by (apply Hck; do 2 right; left).
    + apply (step_authorize r token); try done; [by bool_hyps|by apply clock_nonzero].
    + intros Hr. apply authorize_storable; [done| |by apply key_ascii|by apply key_ascii|done]. by eapply authorize_intent.
  - intros [copy|e]; apply wp_bind, wp_call; [done| |done|]; intros [readback|e']; [|done|by repeat case_match|done].
    case_test; [done|]. destruct (record_of readback binding) as [r'|] eqn:Er'; [|done]. case_test; [done|].
    intros c [= <-]. split; [apply seen_here|]. exists r', v. apply negb_false_iff in Heqb2. unfold issued_by in Heqb2. bool_hyps.
    split_and!; [by eapply record_decode|done|congruence|do 3 right; left].
Qed.

Lemma base_assigned r token vm : wf r -> base_firewall_check r token vm = None -> cf_BaseFirewallAssignment r <> None.
Proof.
  intros Hw Hc. unfold base_firewall_check in Hc. case_test_in Hc; [done|]. bool_hyps. pose proof (wf_phase r Hw) as Hp.
  match goal with E : cf_Phase r = _ |- _ => rewrite E in Hp end. apply issued_state in Hp as (a & _ & _ & _ & _ & _ & (Ea & _) & _). by rewrite Ea.
Qed.

(** A receipt of the base firewall: a step of the fence. *)
Lemma wp_assignment cur binding r r' accept h (Q : result NodeClaim -> list event -> Prop) :
  seen h cur -> decodeCreateFence (annotation_of cur AnnotationCreateFence) = Ok r -> (clock_ok h -> advances r r') ->
  (forall e h', Q (Err e) h') -> (forall readback h', Q (Ok readback) h') ->
  wp writes_seen (persistBaseFirewallAssignment cur binding r' accept) h Q.
Proof.
  intros Hs Hd Hst He Ho. apply wp_receipt; [|done|by intros; apply Ho]. intros Hck. exists cur. split; [done|]. destruct (Hst Hck). by eapply (write_step cur r).
Qed.

Lemma authorize_base_writes n claim binding token vm lastErr h : good (authorize_base_loop namespace n claim binding token vm lastErr) h.
Proof.
  revert claim lastErr h. induction n as [|n IH]; intros claim lastErr h; [done|]. cbn [authorize_base_loop]. apply wp_bind, wp_protected; [done|].
  intros ctx nm cur _. destruct (record_of cur binding) as [r|] eqn:Er; [|done]. destruct (base_firewall_check r token vm) eqn:Ec; [done|].
  assert (wf r) as Hw by (apply (parse_wf (annotation_of cur AnnotationCreateFence) binding); exact Er).
  destruct (cf_BaseFirewallAssignment r) as [a|] eqn:Ea; [|by eapply base_assigned in Ec].
  case_test; [done|]. case_test; [by apply wp_bind, wp_slot; [auto with slots|]|]. case_test; [done|]. case_test; [done|].
  apply wp_bind, wp_slot; [by no_write|]. intros [e|] new; [done|]. apply wp_bind, wp_nonce; [done|]. intros i v Hi Ei.
  apply wp_bind, wp_call; [done|]. intros now. apply wp_bind, (wp_assignment _ _ r).
  - by do 2 apply seen_cons; apply seen_app, seen_here.
  - by eapply record_decode.
  - intros Hck. bool_hyps. assert (clock_good now = true) as Hg by (apply Hck; left).
    split; [apply (step_assignment_issue r token vm a); try done; [by apply one_of|by apply clock_nonzero]|].
    intros Hr. apply assignment_issue_storable; [done|by apply key_ascii|done].
  - intros e h'. apply wp_bind, wp_call; [done|]. intros [latest|e']; [|apply IH]. repeat (case_match; try done; try apply IH).
  - intros readback h'. by apply wp_bind, wp_slot; [auto with slots|].
Qed.

Lemma finish_base_writes n claim binding token vm i terminal lastErr h :
  createFenceVMUUIDPattern vm = true -> terminal_phase terminal = true ->
  good (finish_base_loop namespace n claim binding token vm i terminal lastErr) h.
Proof.
  intros Hv Ht. revert lastErr h. induction n as [|n IH]; intros lastErr h; [done|]. cbn [finish_base_loop]. apply wp_bind, wp_protected; [done|].
  intros ctx nm cur _. destruct (record_of cur binding) as [r|] eqn:Er; [|done]. destruct (cf_BaseFirewallAssignment r) as [a|] eqn:Ea; [|done].
  case_test; [done|]. case_test; [by apply wp_bind, wp_slot; [auto with slots|]|]. case_test; [done|].
  apply wp_bind, wp_call; [done|]. intros now. apply wp_bind, (wp_assignment _ _ r).
  - by apply seen_cons, seen_here.
  - by eapply record_decode.
  - intros Hck. bool_hyps. assert (clock_good now = true) as Hg by (apply Hck; left).
    split; [by apply (step_assignment_finish r vm a); try done; apply clock_nonzero|].
    intros Hr. apply assignment_finish_storable; [done| |done]. unfold terminal_phase in Ht. apply orb_true_iff in Ht as [Ht|Ht]; bool_hyps; by subst.
  - intros e h'. apply IH.
  - intros readback h'. destruct (record_of readback binding); [|done]. by apply wp_bind, wp_slot; [auto with slots|].
Qed.

(** A receipt beside the fence. *)
Lemma wp_update cur binding token u accept h (Q : result NodeClaim -> list event -> Prop) :
  seen h cur -> (clock_ok h -> update_step binding token (annotation_of cur AnnotationFloatingIPUpdateFence) u) ->
  (forall e h', Q (Err e) h') -> (forall readback h', Q (Ok readback) h') ->
  wp writes_seen (persistFloatingIPUpdate cur u accept) h Q.
Proof.
  intros Hs Hst He Ho. apply wp_receipt; [|done|by intros; apply Ho]. intros Hck. exists cur. split; [done|]. eapply write_update; auto.
Qed.
Lemma wp_removal cur binding token m accept h (Q : result NodeClaim -> list event -> Prop) :
  seen h cur -> (clock_ok h -> removal_step binding token (annotation_of cur AnnotationRemovalMutationFence) m) ->
  (forall e h', Q (Err e) h') -> (forall readback h', Q (Ok readback) h') ->
  wp writes_seen (persistRemovalMutation cur m accept) h Q.
Proof.
  intros Hs Hst He Ho. unfold persistRemovalMutation. case_test; [apply He|].
  apply wp_receipt; [|done|by intros; apply Ho]. intros Hck. exists cur. split; [done|]. eapply write_removal; auto.
Qed.

Lemma authorize_update_writes n claim binding token desired lastErr h : good (authorize_update_loop n claim binding token desired lastErr) h.
Proof.
  revert claim lastErr h. induction n as [|n IH]; intros claim lastErr h; [done|]. cbn [authorize_update_loop]. apply wp_bind, wp_protected; [done|].
  intros ctx nm cur _. destruct (record_of cur binding) as [r|] eqn:Er; [|done]. case_test; [done|].
  set (issue := bind createFenceNonce _).
  assert ((annotation_of cur AnnotationFloatingIPUpdateFence = "" \/ (exists u, decodeFloatingIPUpdateRecord (annotation_of cur AnnotationFloatingIPUpdateFence) binding token = Ok u
            /\ fu_Phase u = FloatingIPUpdateRejected /\ floatingIPUpdateIdentityMatches u desired = true)) ->
    good issue (Ev (GetClaim ctx nm) (Ok cur) :: h)) as Hissue.
  { intros Hcur. apply wp_bind, wp_nonce; [done|]. intros i v Hi Ei. apply wp_bind, wp_call; [done|]. intros now. apply wp_bind, (wp_update _ binding token).
    - by do 2 apply seen_cons; apply seen_here.
    - intros Hck. apply update_issued; [done|done|]. apply clock_nonzero, Hck. left.
    - intros e h'. apply IH.
    - done. }
  clearbody issue. case_test; [apply Hissue; left; by bool_hyps|].
  destruct (decodeFloatingIPUpdateRecord _ binding token) as [u|] eqn:Eu; [|done]. do 2 (case_test; [done|]). case_test; [|done].
  apply Hissue. right. exists u. by bool_hyps.
Qed.

Lemma finish_update_writes n claim binding token fence terminal lastErr h :
  terminal = FloatingIPUpdateObserved \/ terminal = FloatingIPUpdateRejected ->
  good (finish_update_loop n claim binding token fence terminal lastErr) h.
Proof.
  intros Ht. revert claim lastErr h. induction n as [|n IH]; intros claim lastErr h; [done|]. cbn [finish_update_loop]. apply wp_bind, wp_protected; [done|].
  intros ctx nm cur _. destruct (decodeFloatingIPUpdateRecord _ binding token) as [u|] eqn:Eu; [|done]. do 3 (case_test; [done|]).
  apply wp_bind, wp_call; [done|]. intros now. apply wp_bind, (wp_update _ binding token); [by apply seen_cons, seen_here| |by intros; apply IH|done].
  intros Hck. bool_hyps. apply update_finished; try done. apply clock_nonzero, Hck. left.
Qed.

Lemma ensure_removal_writes n claim binding token h : good (ensure_removal_loop n claim binding token) h.
Proof.
  revert claim h. induction n as [|n IH]; intros claim h; [done|]. cbn [ensure_removal_loop]. apply wp_bind, wp_protected; [done|].
  intros ctx nm cur _. destruct (record_of cur binding) as [r|] eqn:Er; [|done]. case_test; [done|]. case_test; [by case_match|]. case_test; [done|].
  apply wp_bind, wp_call; [done|]. intros now. apply wp_bind, (wp_removal _ binding token); [by apply seen_cons, seen_here| |by intros; apply IH|done].
  intros Hck. bool_hyps. apply removal_ready; [done|]. apply clock_nonzero, Hck. left.
Qed.

Lemma decide_present r desired present : removal_decide r desired present = Issue -> present = true.
Proof. unfold removal_decide. destruct present; [done|]. destruct (removalMutationIdentityMatches r desired); simpl; intros H; by repeat (case_match; try done). Qed.
Lemma authorize_removal_writes n claim binding token desired present lastErr h : good (authorize_removal_loop n claim binding token desired present lastErr) h.
Proof.
  revert claim lastErr h. induction n as [|n IH]; intros claim lastErr h; [done|]. cbn [authorize_removal_loop]. apply wp_bind, wp_protected; [done|].
  intros ctx nm cur _. destruct (record_of cur binding) as [r|] eqn:Er; [|done]. case_test; [done|].
  destruct (decodeRemovalMutationRecord _ binding token) as [m|] eqn:Em; [|done]. destruct (removal_decide m desired present) eqn:Ed; [done|done|].
  pose proof (decide_present _ _ _ Ed) as ->. apply wp_bind, wp_nonce; [done|]. intros i v Hi Ei.
  destruct (archiveCurrentObservedFloatingIPDelete m) as [archived|] eqn:Eh; [|done]. apply wp_bind, wp_call; [done|]. intros now.
  apply wp_bind, (wp_removal _ binding token); [by do 2 apply seen_cons; apply seen_here| |by intros; apply IH|done].
  intros Hck. apply (removal_issued binding token _ m); try done. apply clock_nonzero, Hck. left.
Qed.

Lemma backfill_observed r fence r' : removal_backfill r fence = Ok (Some r') -> rm_Phase r = RemovalMutationObserved.
Proof. unfold removal_backfill. case_test; [done|]. by bool_hyps. Qed.
Lemma finish_removal_writes n claim binding token fence terminal lastErr h :
  terminal = RemovalMutationObserved \/ terminal = RemovalMutationRejected ->
  good (finish_removal_loop n claim binding token fence terminal lastErr) h.
Proof.
  intros Ht. revert claim lastErr h. induction n as [|n IH]; intros claim lastErr h; [done|]. cbn [finish_removal_loop]. apply wp_bind, wp_protected; [done|].
  intros ctx nm cur _. destruct (record_of cur binding) as [r|] eqn:Er; [|done]. destruct (decodeRemovalMutationRecord _ binding token) as [m|] eqn:Em; [|done].
  destruct (finish_identity m fence) eqn:Ei; [done|]. case_test.
  - destruct (removal_backfill m fence) as [[m'|]|] eqn:Eb; [|done|done].
    apply wp_bind, (wp_removal _ binding token); [by apply seen_here| |by intros; apply IH|done].
    intros _. pose proof (backfill_observed _ _ _ Eb). by apply (removal_backfilled binding token _ m fence).
  - destruct (finish_phase m fence terminal) eqn:Ep; [done|]. apply wp_bind, wp_call; [done|]. intros now.
    destruct (removal_finish m terminal now) as [m'|] eqn:Ef; [|done].
    apply wp_bind, (wp_removal _ binding token); [by apply seen_cons, seen_here| |by intros; apply IH|done].
    intros Hck. bool_hyps. apply (removal_finished binding token _ m fence terminal now); try done. apply clock_nonzero, Hck. left.
Qed.
End Writes.
