(* ===== verification/CreateFencePool.v ===== *)
(** * Controllers that share a NodeClaim

    Any number of goroutines of any number of processes call the store on NodeClaims that other
    clients change too. Requests interleave, answers may be lost, reads may be stale and calls may
    stop anywhere. The stored create fence of a NodeClaim still only moves by the steps of its life,
    and no two calls are granted the authority to create a VM for it. *)

From S2P Require Import Prelude GoErrors CSIFence Prog GoJSON GoNet CreateFence CreateFenceDecode CreateFenceSteps CreateFenceEncoding CreateFenceSpec CreateFenceLifecycle ProviderActions RemovalFence FirewallSlot CreateFenceStore RemovalStore CreateFenceWrites.

Section Pool.
Context `{PE : ProviderEnv, JT : JSONText, TT : TimeText} (namespace : string).
Abbreviation event := (event pres).
Abbreviation fence_text c := (annotation_of c AnnotationCreateFence).

(** ** Calls of the store *)

Inductive store_call :=
  | CallGet (claim : NodeClaim) (binding : createFenceBinding) (cleanup : createFenceCleanupIdentity)
  | CallEnsure (claim : NodeClaim) (binding : createFenceBinding) (cleanup : createFenceCleanupIdentity) (baseline : CreateInventory)
  | CallAuthorize (claim : NodeClaim) (binding : createFenceBinding) (token intent : string)
  | CallCreatedVM (claim : NodeClaim) (binding : createFenceBinding) (token issueID vmUUID : string)
  | CallProtectionFailure (claim : NodeClaim) (binding : createFenceBinding) (token issueID vmUUID : string)
  | CallClearProtectionFailure (claim : NodeClaim) (binding : createFenceBinding) (token issueID vmUUID : string)
  | CallRollback (claim : NodeClaim) (binding : createFenceBinding) (token issueID vmUUID : string) (resolution : option FencedCreateCleanupResolution)
  | CallReject (claim : NodeClaim) (binding : createFenceBinding) (token issueID : string)
  | CallMaterialize (claim : NodeClaim) (binding : createFenceBinding) (token : string) (vm : option VM)
  | CallTerminal (claim : NodeClaim) (binding : createFenceBinding) (token vmUUID : string)
  | CallAuthorizeFirewall (claim : NodeClaim) (binding : createFenceBinding) (token vmUUID : string)
  | CallFinishFirewall (claim : NodeClaim) (binding : createFenceBinding) (token vmUUID issueID terminal : string)
  | CallAuthorizeUpdate (claim : NodeClaim) (binding : createFenceBinding) (token vmUUID address name : string) (billingAccountID : Z)
  | CallFinishUpdate (claim : NodeClaim) (binding : createFenceBinding) (token : string) (fence : FloatingIPUpdateFence) (terminal : string)
  | CallEnsureRemoval (claim : NodeClaim) (binding : createFenceBinding) (token : string)
  | CallAuthorizeRemoval (claim : NodeClaim) (binding : createFenceBinding) (token : string) (mutation : RemovalMutation) (present : bool)
  | CallFinishRemoval (claim : NodeClaim) (binding : createFenceBinding) (token : string) (fence : RemovalMutationFence) (terminal : string)
  | CallAuthorizeDetach (claim : NodeClaim) (binding : createFenceBinding) (token vmUUID : string)
  | CallFinishDetach (claim : NodeClaim) (binding : createFenceBinding) (token : string) (fence : FirewallAssignmentFence) (terminal : string).

(** The claim with which a call grants the authority to create a VM: only Authorize without an
    error does. *)
Definition discard {A} (p : prog pres A) : prog pres (option NodeClaim) := let! _ := p in Ret None.
Definition store_run (c : store_call) : prog pres (option NodeClaim) :=
  match c with
  | CallGet claim b cleanup => discard (Get claim b cleanup)
  | CallEnsure claim b cleanup baseline => discard (Ensure claim b cleanup baseline)
  | CallAuthorize claim b token intent => let! r := Authorize claim b token intent in Ret (match r.2 with None => r.1 | Some _ => None end)
  | CallCreatedVM claim b token i vm => discard (RecordCreatedVM claim b token i vm)
  | CallProtectionFailure claim b token i vm => discard (RecordProtectionFailure claim b token i vm)
  | CallClearProtectionFailure claim b token i vm => discard (ClearProtectionFailure claim b token i vm)
  | CallRollback claim b token i vm resolution => discard (ChooseRollback claim b token i vm resolution)
  | CallReject claim b token i => discard (MarkRejected claim b token i)
  | CallMaterialize claim b token vm => discard (MarkMaterialized claim b token vm)
  | CallTerminal claim b token vm => discard (RecordTerminalCleanup claim b token vm)
  | CallAuthorizeFirewall claim b token vm => discard (AuthorizeBaseFirewall namespace claim b token vm)
  | CallFinishFirewall claim b token vm i terminal => discard (finishBaseFirewallAssignment namespace claim b token vm i terminal)
  | CallAuthorizeUpdate claim b token vm address name account => discard (AuthorizeFloatingIPUpdate claim b token vm address name account)
  | CallFinishUpdate claim b token fence terminal => discard (finishFloatingIPUpdate claim b token fence terminal)
  | CallEnsureRemoval claim b token => discard (EnsureRemovalFence claim b token)
  | CallAuthorizeRemoval claim b token mutation present => discard (AuthorizeRemovalMutation claim b token mutation present)
  | CallFinishRemoval claim b token fence terminal => discard (finishRemovalMutation claim b token fence terminal)
  | CallAuthorizeDetach claim b token vm => discard (AuthorizeBaseFirewallDetach namespace claim b token vm)
  | CallFinishDetach claim b token fence terminal => discard (finishBaseFirewallDetach namespace claim b token fence terminal)
  end.

(** The texts that a call adds to the fence without checking them against a pattern are ASCII. *)
Definition plain_call (c : store_call) : Prop :=
  match c with
  | CallEnsure _ b cleanup baseline => c_good binding_codec b = true /\ c_good cleanup_codec cleanup = true /\ c_good inventory_codec baseline = true
  | CallMaterialize _ _ _ vm => forall v, vm = Some v -> plain_vm v
  | CallRollback _ _ _ _ _ resolution => forall c, resolution = Some c -> c_good resolution_codec c = true
  | _ => True
  end.

Lemma discard_writes {A} (p : prog pres A) h : wp writes_seen p h anything -> wp writes_seen (discard p) h granted.
Proof. intros H. apply wp_bind. eapply wp_mono; [exact H|]. intros a h' _ c Hc. done. Qed.

(** Every call writes only steps of what it read. *)
Lemma store_call_writes c h : plain_call c -> wp writes_seen (store_run c) h granted.
Proof.
  intros Hp. destruct c; cbn [store_run plain_call] in *;
    lazymatch goal with |- wp _ (discard _) _ _ => apply discard_writes | _ => apply wp_bind; apply Authorize_writes end.
  - apply Get_writes.
  - by apply Ensure_writes; apply Hp.
  - unfold RecordCreatedVM. case_test; [done|]. bool_hyps. apply only_claim_writes, transition_writes, created_steps; [done|apply ToLower_idem].
  - unfold RecordProtectionFailure. case_test; [done|]. bool_hyps. apply wp_bind. eapply wp_mono; [by apply transition_writes, protection_fail_steps|done].
  - unfold ClearProtectionFailure. case_test; [done|]. bool_hyps. by apply only_claim_writes, transition_writes, protection_clear_steps.
  - unfold ChooseRollback. case_test; [done|]. bool_hyps. destruct resolution as [c|]; [|by apply only_claim_writes, transition_writes, rollback_steps].
    destruct (normalizeCleanupResolution c) as [c'|] eqn:En; [|done]. case_test; [done|]. bool_hyps.
    apply only_claim_writes, transition_writes, rollback_steps; [done|]. intros ? [= <-]. split; [by apply normalize_canonical; apply normalize_Ok in En as [? _]|].
    split; [done|]. eapply normalize_good; [done|]. by apply Hp.
  - apply only_claim_writes, transition_writes, reject_steps.
  - by apply only_claim_writes, transition_writes, materialize_steps.
  - apply only_claim_writes, transition_writes, terminal_steps.
  - unfold AuthorizeBaseFirewall. case_test; [done|]. apply authorize_base_writes.
  - unfold finishBaseFirewallAssignment. case_test; [done|]. bool_hyps. apply finish_base_writes; [|done]. by eapply canonical_split.
  - unfold AuthorizeFloatingIPUpdate. case_match; [|done]. apply authorize_update_writes.
  - unfold finishFloatingIPUpdate. case_match; [done|]. case_test; [done|]. by apply finish_update_writes, one_of.
  - apply ensure_removal_writes.
  - unfold AuthorizeRemovalMutation. case_match; [|done]. apply authorize_removal_writes.
  - unfold finishRemovalMutation. case_match; [done|]. case_test; [done|]. by apply finish_removal_writes, one_of.
  - apply good_only, detach_only.
  - apply good_only, finish_detach_only.
Qed.

(** ** The API server

    Every version of every NodeClaim that was ever stored, newest first. A read answers with some
    version of that name, perhaps an old one; an update takes effect only when it names the
    resource version of the current object, and its answer may be lost. A deleted object is not
    taken away: it only stops changing. *)

Definition current (s : list NodeClaim) (name : string) : option NodeClaim := List.find (fun c => nc_Name c == name) s.
Definition fresh_version (rv : string) (s : list NodeClaim) : Prop := forall c, c ∈ s -> nc_ResourceVersion c <> rv.
Definition replaces (sent : NodeClaim) (s : list NodeClaim) (r : result NodeClaim) (t : list NodeClaim) : Prop :=
  (t = s /\ exists e, r = Err e)
  \/ exists cur rv, current s (nc_Name sent) = Some cur /\ nc_ResourceVersion sent = nc_ResourceVersion cur /\ fresh_version rv s
       /\ t = sent <| nc_ResourceVersion := rv |> :: s /\ (r = Ok (sent <| nc_ResourceVersion := rv |>) \/ exists e, r = Err e).
Definition answers (x : pact) : list NodeClaim -> pres x -> list NodeClaim -> Prop :=
  match x as x return list NodeClaim -> pres x -> list NodeClaim -> Prop with
  | GetClaim _ name => fun s r t => t = s /\ forall c, r = Ok c -> c ∈ s /\ nc_Name c = name
  | UpdateClaim sent => replaces sent
  | PatchClaim _ stored updated => replaces (updated <| nc_ResourceVersion := nc_ResourceVersion stored |>)
  | Now => fun s r t => t = s /\ clock_good r = true
  | _ => fun s _ t => t = s
  end.

(** Other clients create NodeClaims, and change anything of one but its create fence. *)
Definition other_change (s : list NodeClaim) (new : NodeClaim) : Prop :=
  fresh_version (nc_ResourceVersion new) s
  /\ ((fence_text new = "" /\ forall c, c ∈ s -> nc_UID c <> nc_UID new)
      \/ exists cur, current s (nc_Name new) = Some cur /\ nc_UID new = nc_UID cur /\ fence_text new = fence_text cur).

(** A call that has begun: what is left of it, and what it did. *)
Abbreviation thread := (prog pres (option NodeClaim) * list event)%type.
Inductive pool_step : list NodeClaim * list thread -> list NodeClaim * list thread -> Prop :=
  | PoolCall s pool c : plain_call c -> pool_step (s, pool) (s, (store_run c, []) :: pool)
  | PoolRequest s before x k h after r t :
      answers x s r t -> pool_step (s, before ++ (Act x k, h) :: after) (t, before ++ (k r, Ev x r :: h) :: after)
  | PoolOther s pool new : other_change s new -> pool_step (s, pool) (new :: s, pool).

(** ** Lineage *)

(** A fence as the store writes it. *)
Definition fence_of (c : NodeClaim) (r : createFenceRecord) : Prop :=
  fence_text c = Marshal record_codec r /\ storable r /\ cf_Schema r = createFenceSchema.
Inductive fence_change (cur new : NodeClaim) : Prop :=
  | change_none : fence_text new = fence_text cur -> fence_change cur new
  | change_reserve r : fence_text cur = "" -> fence_of new r -> fence_change cur new
  | change_step r r' : decodeCreateFence (fence_text cur) = Ok r -> fence_step r r' -> (storable r -> storable r') ->
      fence_text new = Marshal record_codec r' -> fence_change cur new.
Inductive lineage : list NodeClaim -> Prop :=
  | lineage_nil : lineage []
  | lineage_new s new : lineage s -> fresh_version (nc_ResourceVersion new) s -> fence_text new = "" -> (forall c, c ∈ s -> nc_UID c <> nc_UID new) ->
      lineage (new :: s)
  | lineage_change s cur new : lineage s -> fresh_version (nc_ResourceVersion new) s -> current s (nc_Name new) = Some cur -> nc_UID new = nc_UID cur ->
      fence_change cur new -> lineage (new :: s).

Lemma current_split s name cur : current s name = Some cur ->
  nc_Name cur = name /\ exists a b, s = a ++ cur :: b /\ forall c, c ∈ a -> nc_Name c <> name.
Proof.
  induction s as [|c s IH]; simpl; [done|]. case_test.
  - intros [= <-]. bool_hyps. split; [done|]. exists [], s. split; [done|]. by intros ? ?%not_elem_of_nil.
  - intros H. destruct (IH H) as (Hn & a & b & -> & Ha). split; [done|]. exists (c :: a), b. split; [done|]. bool_hyps.
    intros d [->|Hd]%elem_of_cons; [done|by apply Ha].
Qed.
Lemma current_elem s name cur : current s name = Some cur -> cur ∈ s /\ nc_Name cur = name.
Proof. intros (Hn & a & b & -> & _)%current_split. set_solver. Qed.

(** A resource version names one version, a UID one name. *)
Lemma lineage_version s c d : lineage s -> c ∈ s -> d ∈ s -> nc_ResourceVersion c = nc_ResourceVersion d -> c = d.
Proof.
  induction 1 as [|s new _ IH Hf _ _|s cur new _ IH Hf _ _ _]; [by intros ?%not_elem_of_nil|..];
    intros [->|Hc]%elem_of_cons [->|Hd]%elem_of_cons E; auto; exfalso; by eapply Hf.
Qed.
Lemma lineage_name s c d : lineage s -> c ∈ s -> d ∈ s -> nc_UID c = nc_UID d -> nc_Name c = nc_Name d.
Proof.
  intros Hl. revert c d. induction Hl as [|s new _ IH _ _ Hu|s cur new _ IH _ Hcur Hu _]; intros c d; [by intros ?%not_elem_of_nil|..].
  - intros [->|Hc]%elem_of_cons [->|Hd]%elem_of_cons E; auto; exfalso; by eapply Hu.
  - apply current_elem in Hcur as [Hin Hn]. intros [->|Hc]%elem_of_cons [->|Hd]%elem_of_cons E; auto.
    + rewrite <-Hn. apply IH; congruence.
    + rewrite <-Hn. symmetry. apply IH; congruence.
Qed.

Lemma decode_same r r' : storable r -> cf_Schema r = createFenceSchema -> decodeCreateFence (Marshal record_codec r) = Ok r' -> r' = r.
Proof.
  intros Hg Hs. unfold decodeCreateFence. rewrite bool_decide_eq_false_2 by apply Marshal_nonempty. rewrite (Unmarshal_Marshal record_codec r Hg).
  rewrite (bool_decide_eq_false_2 (cf_Schema r = _)) by (by rewrite Hs). cbv zeta. destruct (validateRecord r); [done|]. by intros [= <-].
Qed.

(** One change continues a fence. *)
Lemma change_continues cur new r : fence_change cur new -> fence_of cur r -> exists r', fence_of new r' /\ rtc fence_step r r'.
Proof.
  intros Hc (Ht & Hg & Hs). destruct Hc as [E|r0 E _|r0 r' Hd Hst Hk E].
  - exists r. split; [|constructor]. split; [congruence|done].
  - exfalso. rewrite Ht in E. by apply Marshal_nonempty in E.
  - rewrite Ht in Hd. apply decode_same in Hd as ->; [|done..]. exists r'. split; [|by apply rtc_once].
    split; [done|]. split; [by apply Hk|]. apply step_evolves, ev_identity in Hst. unfold identity_of in Hst. congruence.
Qed.

(** Every fence in the cluster is one that the store wrote. *)
Lemma lineage_fence s c r : lineage s -> c ∈ s -> decodeCreateFence (fence_text c) = Ok r -> fence_of c r.
Proof.
  intros Hl. revert c r. induction Hl as [|s new _ IH _ He _|s cur new Hl IH _ Hcur _ Hch]; intros c r; [by intros ?%not_elem_of_nil|..];
    intros [->|Hc]%elem_of_cons Hd; [| by apply IH| |by apply IH].
  - by rewrite He in Hd.
  - apply current_elem in Hcur as [Hin _]. destruct Hch as [E|r0 E Hf|r0 r' Hd0 Hst Hk E].
    + rewrite E in Hd. pose proof (IH cur r Hin Hd) as (? & ? & ?). split; [congruence|done].
    + pose proof Hf as (Ht & Hg & Hs). rewrite Ht in Hd. by apply decode_same in Hd as ->.
    + destruct (change_continues cur new r0) as (r1 & (Ht1 & Hg1 & Hs1) & _); [by eapply change_step|by apply IH|].
      rewrite Ht1 in Hd. by apply decode_same in Hd as ->.
Qed.

(** A version and a later one of the same object. *)
Lemma lineage_continues s newer older c d r :
  lineage s -> s = newer ++ d :: older -> c ∈ older -> nc_UID c = nc_UID d -> fence_of c r -> exists r', fence_of d r' /\ rtc fence_step r r'.
Proof.
  intros Hl. revert newer older c d r. induction Hl as [|s new Hl IH _ _ Hu|s cur new Hl IH _ Hcur Hu Hch]; intros newer older c d r E Hc Hcd Hr.
  - by destruct newer.
  - destruct newer as [|x newer]; injection E as <- ->; [by apply Hu in Hcd|]. by eapply IH.
  - destruct newer as [|x newer]; injection E as <- ->; [|by eapply IH].
    pose proof (current_elem _ _ _ Hcur) as [Hin _]. apply current_split in Hcur as (Hn & a & b & -> & Ha).
    assert (exists r1, fence_of cur r1 /\ rtc fence_step r r1) as (r1 & Hr1 & Hs1).
    { assert (c ∈ cur :: b) as [->|Hcb]%elem_of_cons.
      - apply elem_of_app in Hc as [Hc|Hc]; [|done]. exfalso. apply (Ha c Hc). rewrite <-Hn. eapply lineage_name; [exact Hl|set_solver|done|congruence].
      - by exists r; split; [|constructor].
      - eapply IH; [done|done|congruence|done]. }
    destruct (change_continues cur new r1 Hch Hr1) as (r2 & Hr2 & Hs2). exists r2. split; [done|]. by etrans.
Qed.

(** ** The invariant *)

Lemma annotation_set claim k v k' : annotation_of (set_annotation claim k v) k' = if k == k' then v else annotation_of claim k'.
Proof.
  unfold annotation_of, lookup_string, set_annotation. simpl. case_test; bool_hyps; subst; [by rewrite lookup_insert_eq|by rewrite lookup_insert_ne].
Qed.
Lemma add_finalizer_keeps c f : nc_ResourceVersion (AddFinalizer c f) = nc_ResourceVersion c /\ nc_Name (AddFinalizer c f) = nc_Name c
  /\ nc_UID (AddFinalizer c f) = nc_UID c /\ nc_Annotations (AddFinalizer c f) = nc_Annotations c.
Proof. unfold AddFinalizer. by case_test. Qed.

Lemma write_keeps cur c : fence_write cur c ->
  nc_ResourceVersion c = nc_ResourceVersion cur /\ nc_Name c = nc_Name cur /\ nc_UID c = nc_UID cur /\ fence_change cur c.
Proof.
  destruct 1 as [binding cleanup baseline now token r He _ _ _ Hn Hg|r r' Hd Hst Hg|binding token u _|binding token m _].
  - set (c := set_annotation _ AnnotationRemovalMutationFence _). destruct (add_finalizer_keeps c CreateFenceFinalizer) as (-> & -> & -> & Ha).
    split_and!; [done..|]. apply (change_reserve _ _ r); [done|]. split; [|split; [done|by injection Hn as <-]].
    unfold annotation_of. rewrite Ha. subst c. fold (annotation_of (set_annotation (with_record cur r) AnnotationRemovalMutationFence
      (Marshal removal_codec (newRemovalMutationReadyRecord binding token now))) AnnotationCreateFence).
    unfold with_record. by rewrite !annotation_set.
  - split_and!; [done..|]. apply (change_step _ _ r r'); try done. unfold with_record. by rewrite annotation_set.
  - split_and!; [done..|]. apply change_none. by rewrite annotation_set.
  - split_and!; [done..|]. apply change_none. by rewrite annotation_set.
Qed.

Definition thread_ok (s : list NodeClaim) (t : thread) : Prop :=
  wp writes_seen t.1 t.2 granted /\ clock_ok t.2 /\ forall c, seen t.2 c -> c ∈ s.
Definition pool_ok (σ : list NodeClaim * list thread) : Prop := lineage σ.1 /\ Forall (thread_ok σ.1) σ.2.

Lemma fence_change_version cur c rv : fence_change cur c -> fence_change cur (c <| nc_ResourceVersion := rv |>).
Proof. intros [E|r E Hf|r r' Hd Hs Hk E]; [by apply change_none|by apply (change_reserve _ _ r)|by apply (change_step _ _ r r')]. Qed.

(** A write that was dispatched on what the same execution saw continues the lineage. *)
Lemma replaces_lineage s sent h r t :
  lineage s -> clock_ok h -> (forall c, seen h c -> c ∈ s) -> writes_seen (UpdateClaim sent) h -> replaces sent s r t -> lineage t.
Proof.
  intros Hl Hck Hseen Hw [[-> _]|(cur & rv & Hcur & Hv & Hf & -> & _)]; [done|].
  destruct (Hw Hck) as (seen_cur & Hsc & Hfw). apply write_keeps in Hfw as (Ev & En & Eu & Hch).
  assert (seen_cur = cur) as -> by (eapply lineage_version; [done|by apply Hseen|by apply current_elem in Hcur as []|congruence]).
  eapply (lineage_change s cur); try done. by apply fence_change_version.
Qed.

(** What an event answered. *)
Definition time_read (e : event) : option Z := match e with Ev Now t => Some t | _ => None end.
Definition claim_read (e : event) : option (result NodeClaim) := match e with Ev (GetClaim _ _) r => Some r | _ => None end.

Lemma request_keeps s x k h r t : lineage s -> thread_ok s (Act x k, h) -> answers x s r t ->
  lineage t /\ (forall c, c ∈ s -> c ∈ t) /\ thread_ok t (k r, Ev x r :: h).
Proof.
  intros Hl ([Hw Hk] & Hck & Hseen) Ha. cbn [fst snd] in *.
  assert (lineage t /\ (forall c, c ∈ s -> c ∈ t)) as [Ht Hst].
  { destruct x; simpl in Ha; try done; try (subst t; done); try (destruct Ha as [E _]; subst t; done).
    split; [by eapply replaces_lineage|]. destruct Ha as [[-> _]|(cur & rv & _ & _ & _ & -> & _)]; [done|]. set_solver. }
  split_and!; [done..|]. split; [apply Hk|]. split.
  - intros u [E|Hu]%elem_of_cons; [|by apply Hck]. destruct x; try discriminate E. apply (f_equal time_read) in E. injection E as ->. apply Ha.
  - intros c (ctx & n & [E|Hc]%elem_of_cons); [|apply Hst, Hseen; by exists ctx, n]. destruct x; try discriminate E.
    apply (f_equal claim_read) in E. injection E as <-. destruct Ha as [-> Ha]. by apply Ha.
Qed.

Lemma pool_ok_step σ τ : pool_step σ τ -> pool_ok σ -> pool_ok τ.
Proof.
  intros Hst [Hl Hp]. destruct Hst as [s pool c Hc|s before x k h after r t Ha|s pool new [Hf Hn]]; cbn [fst snd] in *.
  - split; [done|]. constructor; [|done]. split; [by apply store_call_writes|]. split; [intros t Ht; by apply not_elem_of_nil in Ht|].
    intros d (ctx & n & Hd). by apply not_elem_of_nil in Hd.
  - apply Forall_app in Hp as [Hb Hp]. inversion Hp as [|? ? Hx Hafter]; subst.
    destruct (request_keeps s x k h r t Hl Hx Ha) as (Ht & Hst & Hk).
    assert (forall u, thread_ok s u -> thread_ok t u) as Hmono by (intros u (H1 & H2 & H3); split; [done|]; split; eauto).
    split; [done|]. apply Forall_app. split; [by eapply Forall_impl|]. constructor; [done|by eapply Forall_impl].
  - split.
    + destruct Hn as [[He Hu]|(cur & Hcur & Eu & Et)]; [by apply lineage_new|]. apply (lineage_change s cur); try done. by apply change_none.
    + eapply Forall_impl; [exact Hp|]. intros u (H1 & H2 & H3). split; [done|]. split; [done|]. intros c Hc. right. by apply H3.
Qed.
Lemma pool_reach σ : rtc pool_step ([], []) σ -> pool_ok σ.
Proof.
  intros Hrun. assert (pool_ok ([], [])) as H by (split; constructor). revert H. induction Hrun as [|? ? ? Hst Hrun IH]; [done|].
  intros H. apply IH. by eapply pool_ok_step.
Qed.

(** ** One authority *)

Lemma hex_digit_inj m n : 0 <= m < 16 -> 0 <= n < 16 -> hex_digit m = hex_digit n -> m = n.
Proof.
  intros Hm Hn. unfold hex_digit. intros E. apply (f_equal nat_of_ascii) in E.
  rewrite !nat_ascii_embedding in E by (repeat case_match; lia). repeat case_match; bool_hyps; lia.
Qed.
Lemma hex_digits_inj n z z' : hex_digits n z = hex_digits n z' -> z `mod` 2 ^ (4 * Z.of_nat n) = z' `mod` 2 ^ (4 * Z.of_nat n).
Proof.
  induction n as [|n IH]; [intros _; by rewrite !Z.mod_1_r|]. cbn [hex_digits]. intros [= Hd Ht]. apply IH in Ht.
  apply hex_digit_inj in Hd; [|apply Z.mod_pos_bound; lia..]. rewrite !Z.shiftr_div_pow2 in Hd by lia.
  replace (4 * Z.of_nat (S n)) with (4 * Z.of_nat n + 4) by lia. rewrite Z.pow_add_r by lia.
  rewrite !Z.rem_mul_r by lia. change (2 ^ 4) with 16. congruence.
Qed.

(** A fence has one record. *)
Lemma fence_of_unique c r q : fence_of c r -> fence_of c q -> r = q.
Proof.
  intros (E1 & Hr & _) (E2 & Hq & _). rewrite E1 in E2. apply (f_equal (Unmarshal record_codec)) in E2.
  rewrite (Unmarshal_Marshal record_codec r Hr), (Unmarshal_Marshal record_codec q Hq) in E2. by injection E2.
Qed.
(** Two versions of one object, whichever is older. *)
Lemma versions_continue s c d r q :
  lineage s -> c ∈ s -> d ∈ s -> nc_UID c = nc_UID d -> fence_of c r -> fence_of d q -> rtc fence_step r q \/ rtc fence_step q r.
Proof.
  intros Hl Hc Hd E Hr Hq. apply list_elem_of_split in Hd as (newer & older & ->).
  apply elem_of_app in Hc as [Hc|[->|Hc]%elem_of_cons].
  - right. apply list_elem_of_split in Hc as (l1 & l2 & ->). rewrite <-app_assoc in Hl. simpl in Hl.
    destruct (lineage_continues _ l1 (l2 ++ d :: older) d c q Hl) as (r' & Hr' & Hs); [done|set_solver|done|done|].
    by rewrite (fence_of_unique c r r').
  - left. by rewrite (fence_of_unique d r q).
  - left. destruct (lineage_continues _ newer older c d r Hl) as (q' & Hq' & Hs); [done..|]. by rewrite (fence_of_unique d q q').
Qed.

Lemma issue_kept r q : rtc fence_step r q -> cf_Phase r = createFenceIssued -> cf_IssueID q = cf_IssueID r.
Proof. intros H%life_evolves E. destruct (ev_attempt r q H) as [? _]; [by rewrite E|done]. Qed.

Lemma pool_granted s pool c h : pool_ok (s, pool) -> (Ret (Some c), h) ∈ pool ->
  c ∈ s /\ exists r z, fence_of c r /\ cf_Phase r = createFenceIssued /\ cf_IssueID r = hex_digits 32 z /\ Ev RandRead (Ok z) ∈ h.
Proof.
  intros [Hl Hp] Hin. rewrite Forall_forall in Hp. destruct (Hp _ Hin) as (Hg & _ & Hs). destruct (Hg c eq_refl) as (Hc & r & z & Hd & H).
  apply Hs in Hc. split; [done|]. exists r, z. split; [|done]. by apply (lineage_fence s).
Qed.

(** ** Theorems *)

(** C21: in a cluster where any calls of the store interleave, the create fence of a NodeClaim only
    moves by the steps of its life: from a version that is readable, every later version of the
    same object holds a record reached by steps, so that the attempt, its VM, its decisions and its
    receipts are those of the earlier one. *)
Theorem create_fence_lineage newer older pool c d r :
  rtc pool_step ([], []) (newer ++ d :: older, pool) -> c ∈ older -> nc_UID c = nc_UID d -> decodeCreateFence (fence_text c) = Ok r ->
  exists r', fence_text d = Marshal record_codec r' /\ rtc fence_step r r' /\ evolves r r'.
Proof.
  intros [Hl _]%pool_reach Hc E Hd. cbn [fst] in Hl. assert (fence_of c r) as Hr by (eapply lineage_fence; [exact Hl|set_solver|done]).
  destruct (lineage_continues _ newer older c d r Hl) as (r' & [Ht _] & Hs); [done..|]. exists r'. split_and!; [done..|]. by apply life_evolves.
Qed.

(** C19: the authority to create the VM of a NodeClaim is granted once. Two calls of Authorize that
    returned a claim without an error, for the same object, drew the same sixteen random bytes for
    their attempt: with distinct draws only one of them may send the POST. *)
Theorem create_authority_exclusive s pool c d h h' :
  rtc pool_step ([], []) (s, pool) -> (Ret (Some c), h) ∈ pool -> (Ret (Some d), h') ∈ pool -> nc_UID c = nc_UID d ->
  exists z z', Ev RandRead (Ok z) ∈ h /\ Ev RandRead (Ok z') ∈ h' /\ z `mod` 2 ^ 128 = z' `mod` 2 ^ 128.
Proof.
  intros Hok%pool_reach Hc Hd E. destruct (pool_granted s pool c h Hok Hc) as (Hcs & r & z & Hr & Hp & Hi & Hz).
  destruct (pool_granted s pool d h' Hok Hd) as (Hds & q & z' & Hq & Hp' & Hi' & Hz'). exists z, z'. split_and!; [done..|].
  apply (hex_digits_inj 32). rewrite <-Hi, <-Hi'. destruct Hok as [Hl _].
  destruct (versions_continue s c d r q Hl Hcs Hds E Hr Hq) as [H|H]; [symmetry|]; by apply issue_kept.
Qed.
End Pool.
