(* ===== verification/CreateFenceRelease.v ===== *)
(** * What the create-protection controller patches

    The controller changes a NodeClaim with three kinds of patch: it clears an operator's request,
    it writes a receipt into the create fence, and it releases the finalizer and the fence. *)

From S2P Require Import Prelude GoErrors CSIFence Prog GoJSON GoNet CreateFence CreateFenceDecode CreateFenceSteps CreateFenceLifecycle ProviderActions RemovalFence FirewallSlot CreateFenceStore RemovalStore CreateFenceController.

Section Release.
Context `{PE : ProviderEnv, JT : JSONText, TT : TimeText}.
Abbreviation event := (event pres).
Abbreviation fence_text c := (annotation_of c AnnotationCreateFence).

(** The claim was read. *)
Definition was_read (h : list event) (c : NodeClaim) : Prop := exists ctx name, Ev (GetClaim ctx name) (Ok c) ∈ h.
(** The claim was read, and its fence decodes to the record. *)
Definition read_record (h : list event) (exact : NodeClaim) (record : createFenceRecord) : Prop :=
  was_read h exact /\ decodeCreateFence (fence_text exact) = Ok record.
(** The cloud audited the record's resources and answered; [left] is the claim that the callbacks
    left, or the one before. *)
Definition audited (h : list event) (record : createFenceRecord) (result : FencedCreateCleanupResult) (err : goerr) (left : NodeClaim -> NodeClaim) : Prop :=
  exists resolutions update claim, Ev (CleanupFencedCreate (cleanup_request record resolutions update)) (result, err, claim) ∈ h
    /\ left = (fun c => left_by c claim).
(** Nothing is left in the cloud. *)
Definition found_nothing (result : FencedCreateCleanupResult) (err : goerr) : Prop :=
  cl_Resolution result = None /\ cl_DependentsResolved result = false /\ (err = None \/ errIs err ErrVMNotFound = true).

Definition released (stored : NodeClaim) : NodeClaim :=
  (RemoveFinalizer stored CreateFenceFinalizer) <| nc_Annotations := delete AnnotationCreateFence (nc_Annotations stored) |>.

Inductive patch_justified (h : list event) (stored : NodeClaim) : NodeClaim -> Prop :=
  | patch_clear : patch_justified h stored (stored <| nc_Annotations := delete AnnotationCreateFenceResolution (nc_Annotations stored) |>)
  | patch_receipt exact record result left r' :
      read_record h exact record -> audited h record result None left -> stored = left exact -> fence_step record r' ->
      (cl_DependentsResolved result = true \/ exists c, cl_Resolution result = Some c /\ exists now, cleanup_write record c now = Ok r') ->
      patch_justified h stored (with_record stored r')
  | patch_release exact record result err left :
      read_record h exact record -> audited h record result err left -> found_nothing result err ->
      was_read h stored -> nc_UID stored = nc_UID (left exact) ->
      time_set (nc_DeletionTimestamp exact) = true -> time_set (nc_DeletionTimestamp stored) = true ->
      fence_text stored = fence_text (left exact) -> patch_justified h stored (released stored).

Definition clock_set_in (h : list event) : Prop := forall t, Ev Now t ∈ h -> t <> 0.
Definition patches_justified (x : pact) (h : list event) : Prop :=
  match x with PatchClaim _ stored updated => clock_set_in h -> patch_justified h stored updated | _ => True end.

(** ** The store never patches *)

Definition no_patch (x : pact) : Prop := match x with PatchClaim _ _ _ => False | _ => True end.
Lemma no_patch_ok x h : no_patch x -> patches_justified x h.
Proof. by destruct x. Qed.
Create HintDb patches.
#[local] Ltac no_patches := repeat (first
  [ progress intros | progress (auto with patches) | apply only_bind | case_match | progress cbn [only call bind] | split | exact I ]).

Lemma protected_only claim action : only no_patch (getProtectedExact claim action).
Proof. unfold getProtectedExact. no_patches. Qed.
#[local] Hint Resolve protected_only : patches.
Lemma transition_only op claim binding n lastErr : (forall r, only no_patch (fo_write op r)) -> only no_patch (transition_loop n op claim binding lastErr).
Proof. intros H. revert lastErr. induction n as [|n IH]; intros lastErr; cbn [transition_loop]; no_patches. Qed.
Lemma created_only claim b token i vm : only no_patch (RecordCreatedVM claim b token i vm).
Proof. unfold RecordCreatedVM. case_match; [done|]. apply only_bind; [|done]. apply transition_only. intros r. done. Qed.
Lemma failure_only claim b token i vm : only no_patch (RecordProtectionFailure claim b token i vm).
Proof. unfold RecordProtectionFailure. case_match; [done|]. apply only_bind; [|done]. apply transition_only. intros r. done. Qed.
Lemma clear_only claim b token i vm : only no_patch (ClearProtectionFailure claim b token i vm).
Proof. unfold ClearProtectionFailure. case_match; [done|]. apply only_bind; [|done]. apply transition_only. intros r. done. Qed.
Lemma rollback_only claim b token i vm resolution : only no_patch (ChooseRollback claim b token i vm resolution).
Proof.
  assert (forall vm' c, only no_patch (only_claim (transition (rollback_op token i vm' c) claim b))) as H.
  { intros vm' c. apply only_bind; [|done]. apply transition_only. intros r. cbn [fo_write rollback_op]. no_patches. }
  unfold ChooseRollback. repeat (case_match; try done).
Qed.
Lemma reject_only claim b token i : only no_patch (MarkRejected claim b token i).
Proof. unfold MarkRejected. apply only_bind; [|done]. apply transition_only. intros r. done. Qed.
Lemma ensure_only claim b token : only no_patch (EnsureRemovalFence claim b token).
Proof.
  unfold EnsureRemovalFence. generalize 4%nat as n. intros n. revert claim. induction n as [|n IH]; intros claim; cbn [ensure_removal_loop]; [done|].
  unfold persistRemovalMutation, persistReceipt. no_patches.
Qed.
Lemma protection_only claim : only no_patch (readProtectionState claim).
Proof. unfold readProtectionState. no_patches. Qed.
#[local] Hint Resolve created_only failure_only clear_only rollback_only reject_only ensure_only protection_only : patches.
Lemma reconcile_protection_only claim record request : only no_patch (reconcile_protection claim record request).
Proof. unfold reconcile_protection, done, failed. no_patches. Qed.

Lemma wp_quiet {A} (p : prog pres A) h (Q : A -> list event -> Prop) :
  only no_patch p -> (forall a new, Q a (new ++ h)) -> wp patches_justified p h Q.
Proof. intros Hp HQ. eapply wp_only; [exact Hp|apply no_patch_ok|]. intros a new _. apply HQ. Qed.
Definition anything {A} (_ : A) (_ : list event) : Prop := True.
#[local] Abbreviation justified p h := (wp patches_justified p h anything).
Lemma quiet {A} (p : prog pres A) h : only no_patch p -> justified p h.
Proof. intros Hp. by apply wp_quiet. Qed.

(** ** The controller's patches *)

Lemma justified_bind {A B} (p : prog pres A) (f : A -> prog pres B) h : justified p h -> (forall a h', justified (f a) h') -> justified (bind p f) h.
Proof. intros Hp Hf. apply wp_bind. eapply wp_mono; [exact Hp|]. intros a h' _. apply Hf. Qed.

Lemma clear_justified claim h : justified (clearOperatorCreateFenceResolution claim) h.
Proof.
  unfold clearOperatorCreateFenceResolution. apply wp_bind, wp_call; [intros _; apply patch_clear|]. intros [c|e]; [|done].
  apply wp_bind, wp_call; [done|]. intros [c'|e]; [|done]. by case_match.
Qed.
Lemma patch_record_justified claim changed what survived h :
  (clock_set_in h -> patch_justified h claim (with_record claim changed)) -> justified (patch_record claim changed what survived) h.
Proof.
  intros H. unfold patch_record. apply wp_bind, wp_call; [done|]. intros [c|e]; [|done]. apply wp_bind, wp_call; [done|].
  intros [c'|e]; [|done]. by repeat case_match.
Qed.

Lemma read_app new h c : was_read h c -> was_read (new ++ h) c.
Proof. intros (ctx & n & H). exists ctx, n. set_solver. Qed.
Lemma read_record_app new h c r : read_record h c r -> read_record (new ++ h) c r.
Proof. intros [H ?]. split; [by apply read_app|done]. Qed.
Lemma audited_app new h record result err left : audited h record result err left -> audited (new ++ h) record result err left.
Proof. intros (a & b & c & H & E). exists a, b, c. split; [set_solver|done]. Qed.

Lemma remove_justified n exact record result err left h :
  read_record h exact record -> audited h record result err left -> found_nothing result err -> time_set (nc_DeletionTimestamp exact) = true ->
  justified (remove_loop n (left exact)) h.
Proof.
  revert h. induction n as [|n IH]; intros h Hr Ha Hf Hd; cbn [remove_loop]; (apply wp_bind, wp_call; [done|]); (intros [c|e]; [|done]).
  all: do 3 (case_test; [done|]); apply wp_bind, wp_call; [intros _|intros [c'|e]; [done|case_test; [|done]]].
  1, 3: change (patch_justified (Ev (GetClaim DetachedContext (nc_Name (left exact))) (Ok c) :: h) c (released c)); bool_hyps;
    apply (patch_release _ _ exact record result err left); try done;
    [by apply (read_record_app [_])|by apply (audited_app [_])|by exists DetachedContext, (nc_Name (left exact)); left].
  - done.
  - by apply (IH (_ :: _ :: h)); [apply (read_record_app [_; _])|apply (audited_app [_; _])|..].
Qed.
Lemma removeProtection_justified exact record result err left h :
  read_record h exact record -> audited h record result err left -> found_nothing result err -> time_set (nc_DeletionTimestamp exact) = true ->
  justified (removeProtection (left exact)) h.
Proof.
  intros. unfold removeProtection. apply justified_bind; [by eapply remove_justified|]. intros [e|] h'; [by case_match|done].
Qed.

Lemma reconcile_cleanup_justified exact record resolutions update deleting h :
  read_record h exact record -> (deleting = true -> time_set (nc_DeletionTimestamp exact) = true) ->
  justified (reconcile_cleanup exact record (cleanup_request record resolutions update) deleting) h.
Proof.
  intros Hr Hd. unfold reconcile_cleanup. apply wp_bind, wp_call; [done|]. intros [[result err] claim]. set (h1 := Ev _ _ :: h).
  assert (read_record h1 exact record) as Hr1 by by apply (read_record_app [_]).
  assert (audited h1 record result err (fun c => left_by c claim)) as Ha by (exists resolutions, update, claim; split; [left|done]).
  change (left_by exact claim) with ((fun c => left_by c claim) exact). clearbody h1.
  assert (forall t, read_record (Ev Now t :: h1) exact record) as Hr2 by (intros t; by apply (read_record_app [_])).
  assert (forall t, audited (Ev Now t :: h1) record result err (fun c => left_by c claim)) as Ha2 by (intros t; by apply (audited_app [_])).
  destruct (cl_Resolution result) as [c|] eqn:Ec.
  - destruct (cl_DependentsResolved result); [done|]. destruct err; [done|]. apply justified_bind; [|by intros [e|] h'].
    unfold persistCleanupResolution. destruct (cleanup_check record c) as [ip|] eqn:Ek; [|done].
    apply wp_bind, wp_call; [done|]. intros now. destruct (cleanup_write record c now) as [r'|] eqn:Ew; [|done].
    apply patch_record_justified. intros Hck. assert (now <> 0) by (apply Hck; left).
    eapply (patch_receipt _ _ exact record result); [done|done|done|by eapply step_cleanup|right; eauto].
  - destruct (cl_DependentsResolved result) eqn:Ed.
    + destruct err; [done|]. apply justified_bind; [|by intros [e|] h']. unfold persistDependentResolution.
      destruct (dependents_check record) eqn:Ek; [done|]. apply wp_bind, wp_call; [done|]. intros now. apply patch_record_justified. intros Hck.
      assert (now <> 0) by (apply Hck; left). eapply (patch_receipt _ _ exact record result); [done|done|done|by apply step_dependents|by left].
    + assert (found_nothing result err -> justified (if negb deleting then done no_requeue else
        let! e := removeProtection (left_by exact claim) in Ret (no_requeue, e)) h1) as Hrel.
      { intros Hf. destruct deleting; [|done]. apply justified_bind; [|done].
        eapply (removeProtection_justified exact record result err (fun c => left_by c claim)); auto. }
      destruct err as [e|]; [|apply Hrel; by split_and!; [..|left]]. case_test; [|by case_test]. apply Hrel. split_and!; auto.
Qed.

Lemma operator_justified claim record request resolution h : justified (resolveOperatorCreateFence claim record request resolution) h.
Proof.
  unfold resolveOperatorCreateFence. cbv zeta.
  set (clear := fun c : NodeClaim => bind (clearOperatorCreateFenceResolution c) (fun err => match err with Some e => failed e | None => CreateFenceController.done requeue end)).
  assert (forall c h, justified (clear c) h) as Hclear.
  { intros c h0. apply justified_bind; [apply clear_justified|]. by intros [e|] h'. }
  change (forall c h, justified (clear c) h) in Hclear. fold clear.
  case_test; [done|]. case_test.
  - case_test; [apply Hclear|]. case_test; [done|]. apply wp_bind, wp_call; [done|]. intros [[e|] c]; [done|].
    apply wp_bind, wp_quiet; [apply created_only|]. intros [c'|e] new; [apply Hclear|done].
  - case_test; [|done]. case_test; [apply Hclear|]. case_test; [done|]. apply wp_bind, wp_call; [done|]. intros [[result err] c].
    do 3 (case_test; [done|]). apply wp_bind, wp_quiet; [apply reject_only|]. intros [c'|e] new; [apply Hclear|done].
Qed.


(** A removal fence is created only where nothing is cleaned up, so that what is cleaned up was read
    with its record. *)
Lemma reconcile_justified claim h : justified (Reconcile claim) h.
Proof.
  unfold Reconcile. case_test; [done|]. apply wp_bind, wp_call; [done|]. intros [exact|e]; [|done]. case_test; [done|]. case_test; [done|].
  destruct (decodeCreateFence (fence_text exact)) as [record|] eqn:Ed; [|done]. case_test; [done|]. unfold reconcile_exact.
  set (h1 := Ev _ _ :: h). assert (read_record h1 exact record) as Hr by (split; [by exists CallerContext, (nc_Name claim); left|done]). clearbody h1.
  set (deleting := time_set (nc_DeletionTimestamp exact)). set (rolled := (cf_Phase record == createFenceIssued) && _).
  apply wp_bind. apply (wp_mono _ _ _ (fun r h' => (exists new, h' = new ++ h1) /\ forall c, r = Ok c -> c = exact \/ deleting || rolled = false)).
  { case_test; [|by case_match; (split; [by exists []|]); intros c [= <-]; left]. case_test; [by split; [exists []|]|].
    apply wp_bind, wp_quiet; [apply ensure_only|]. intros [c|e] new; (split; [by exists new|]); [|done]. intros c' _. by right. }
  intros [c|e] h' [[new ->] Hc]; [|done]. specialize (Hc c eq_refl). do 2 (case_test; [done|]).
  case_test; [apply wp_bind, wp_quiet; [apply rollback_only|]; by intros [?|?] ?|].
  destruct (cleanup_resolutions record) as [resolutions|]; [|done]. destruct (floatingIPUpdateForProtection c record) as [update|]; [|done].
  case_test; [case_match; [apply operator_justified|done]|]. case_test; [case_test; [apply quiet, reconcile_protection_only|done]|].
  destruct Hc as [->|Hc]; [|by apply orb_false_iff in Hc as [E1 E2]; rewrite E1, E2 in *].
  apply reconcile_cleanup_justified; [by apply read_record_app|done].
Qed.

(** C22: the controller gives up the protection of a NodeClaim only after a cloud audit. In every
    execution of Reconcile, each patch either leaves the fence and the finalizers alone; or writes one
    step of the record that this execution had read, with a receipt that the cloud's audit of that
    record answered with; or removes the create finalizer and the fence of a claim that is being
    deleted, after the audit answered that nothing is left, with the fence as the audit left it. *)
Theorem reconcile_release_safe claim : dispatches (Reconcile claim) patches_justified.
Proof. eapply wp_dispatches, (reconcile_justified claim []). Qed.
End Release.
