(* ===== verification/MutationAuthority.v ===== *)
(** * Authority for the mutations after the create

    Firewalls are changed under a slot of the ledger, and resources are removed under the journal of
    their NodeClaim. A slot is taken over only from an owner that is done, and either authority is
    given only to an invocation that read back its own issue. *)

From S2P Require Import Prelude GoErrors CSIFence Prog GoJSON GoNet CreateFence CreateFenceDecode CreateFenceSteps ProviderActions RemovalFence FirewallSlot CreateFenceStore RemovalStore.

Section Authority.
Context `{PE : ProviderEnv, JT : JSONText, TT : TimeText} (namespace : string).
Abbreviation event := (event pres).

(** ** Taking a slot *)

(** The newest exchange read the ledger. *)
Definition ledger_read (h : list event) (lease : Lease) (ledger : firewallMutationLedger) : Prop :=
  (exists ctx old, h = Ev (GetLease ctx namespace firewallMutationCoordinatorLeaseName) (Ok lease) :: old)
  /\ decodeFirewallMutationLedger lease = Ok ledger.

(** A NodeClaim was asked for. *)
Definition asked (h : list event) (name : string) (r : result NodeClaim) : Prop := Ev (GetClaim CallerContext name) r ∈ h.
(** The owner of a slot is done: by the slot itself, because its NodeClaim is gone or replaced, or
    because its NodeClaim holds the terminal receipt of the same issue. *)
Inductive vacated (h : list event) (slot : firewallMutationSlotRecord) : Prop :=
  | vacated_terminal : terminal_phase (sl_Phase slot) = true -> vacated h slot
  | vacated_gone e : asked h (sl_NodeClaimName slot) (Err e) -> Is e StatusNotFound = true -> vacated h slot
  | vacated_replaced claim : asked h (sl_NodeClaimName slot) (Ok claim) -> nc_UID claim <> sl_NodeClaimUID slot -> vacated h slot
  | vacated_receipt claim record assignment :
      asked h (sl_NodeClaimName slot) (Ok claim) -> sl_Operation slot <> firewallMutationDetach ->
      decodeCreateFence (annotation_of claim AnnotationCreateFence) = Ok record -> cf_BaseFirewallAssignment record = Some assignment ->
      cb_NodeClaimUID (cf_Binding record) = sl_NodeClaimUID slot -> ci_NodeClaimName (cf_Cleanup record) = sl_NodeClaimName slot ->
      ci_Location (cf_Cleanup record) = sl_Location slot -> ToLower (ba_FirewallUUID assignment) = sl_FirewallUUID slot ->
      ba_IssueID assignment = sl_IssueID slot -> terminal_phase (ba_Phase assignment) = true -> vacated h slot.

Definition same_receipt (a b : firewallMutationSlotRecord) : bool :=
  slot_receipt a (sl_NodeClaimUID b) (sl_NodeClaimName b) (sl_Operation b) (sl_VMUUID b) (sl_IssueID b).

(** The history ends with a list of the NodeClaims in which no other one holds an unresolved legacy
    issue of the firewall, the read of the ledger, and [later]. *)
Definition audited_read (desired : firewallMutationSlotRecord) (slot_key : string) (answer : result Lease) (later h : list event) : Prop :=
  exists items old, auditClaims desired slot_key items = None
    /\ h = later ++ Ev (GetLease CallerContext namespace firewallMutationCoordinatorLeaseName) answer :: Ev ListClaims (Ok items) :: old.

(** What may be written to the ledger for a slot: a new ledger directly after the API server answered
    that there is none, or the slot into the ledger just read, where the exchanges since that read show
    that the owner of a slot in the way is done. *)
Definition takes_slot (desired : firewallMutationSlotRecord) (slot_key : string) (x : pact) (h : list event) : Prop :=
  match x with
  | CreateLease lease => exists encoded e, lease = newLedgerLease namespace encoded
      /\ encodeFirewallMutationLedger (Build_firewallMutationLedger firewallMutationLedgerSchema (Some {[slot_key := desired]})) = Ok encoded
      /\ audited_read desired slot_key (Err e) [] h /\ Is e StatusNotFound = true
  | UpdateLease sent => exists lease ledger encoded later, audited_read desired slot_key (Ok lease) later h
      /\ decodeFirewallMutationLedger lease = Ok ledger /\ sent = set_ledger lease encoded
      /\ encodeFirewallMutationLedger (put_slot ledger slot_key desired) = Ok encoded
      /\ match slot_at ledger slot_key with
         | None => later = []
         | Some slot => (List.length later <= 1)%nat /\ vacated later slot /\ same_receipt slot desired = false
         end
  | UpdateClaim _ | PatchClaim _ _ _ => False
  | _ => True
  end.
(** The result: the ledger was last read with exactly the slot, or with the same receipt under another
    acquisition. *)
Definition took_slot (desired : firewallMutationSlotRecord) (slot_key : string) (r : result bool) (h : list event) : Prop :=
  forall mine, r = Ok mine -> exists lease ledger slot, ledger_read h lease ledger /\ slot_at ledger slot_key = Some slot
    /\ if mine then slot = desired else slot <> desired /\ same_receipt slot desired = true.

Lemma wp_ledger desired k ctx h (Q : result (Lease * firewallMutationLedger) -> list event -> Prop) :
  let ev r := Ev (GetLease ctx namespace firewallMutationCoordinatorLeaseName) r :: h in
  (forall e, Q (Err e) (ev (Err e))) ->
  (forall lease e, decodeFirewallMutationLedger lease = Err e -> Q (Err e) (ev (Ok lease))) ->
  (forall lease ledger, decodeFirewallMutationLedger lease = Ok ledger -> Q (Ok (lease, ledger)) (ev (Ok lease))) ->
  wp (takes_slot desired k) (getFirewallMutationLedger namespace ctx) h Q.
Proof.
  intros ev He Hd Ho. unfold getFirewallMutationLedger. apply wp_bind, wp_call; [done|]. intros [lease|e]; [|apply He].
  destruct (decodeFirewallMutationLedger lease) as [ledger|] eqn:E; [by apply Ho|by apply Hd].
Qed.
(** *** A ledger that does not decode is not one that is missing *)

(** The decoder's errors match no sentinel. *)
Definition quiet {A} (r : result A) : Prop := forall e, r = Err e -> forall t, Is e t = false.
Class QuietCodec {A} (C : codec A) : Prop := quiet_dec old j : quiet (c_dec C old j).

Lemma quiet_ok {A} (a : A) : quiet (Ok a).
Proof. done. Qed.
Lemma quiet_msg {A} t : quiet (A := A) (Err (Msg t)).
Proof. by intros e [= <-]. Qed.
Lemma quiet_map {A B} (f : A -> B) r : quiet r -> quiet (result_map f r).
Proof. destruct r as [a|e0]; simpl; intros H; [apply quiet_ok|]. intros e [= <-]. by apply H. Qed.
#[local] Hint Resolve quiet_ok quiet_msg quiet_map : core.

#[local] Instance string_quiet : QuietCodec string_codec.
Proof. intros old []; simpl; auto; apply quiet_msg. Qed.
#[local] Instance map_quiet {A} (C : codec A) `{!QuietCodec C} : QuietCodec (map_codec C).
Proof.
  intros old [| | | | | |l]; simpl; auto; try apply quiet_msg. apply quiet_map. generalize (default ∅ old) as m.
  induction l as [|[k j] l IH]; intros m; simpl; auto. pose proof (quiet_dec (c_zero C) j) as Hd.
  destruct (c_dec C (c_zero C) j) as [a|e0]; [apply IH|]. intros e [= <-]. by apply Hd.
Qed.
Lemma struct_quiet {A} (zero : A) fields : (forall f x j, f ∈ fields -> quiet (jf_dec f x j)) -> QuietCodec (struct_codec zero fields).
Proof.
  intros Hf old [| | | | | |l]; simpl; auto; try apply quiet_msg. revert old. induction l as [|[k j] l IH]; intros old; simpl; auto.
  assert (forall r, struct_setter fields old k j = Some r -> quiet r) as Hs.
  { unfold struct_setter. intros r H. destruct (List.find (fun f => jf_name f == k) fields) as [f|] eqn:E.
    - injection H as <-. apply Hf, list_elem_of_In. by apply find_some in E as [].
    - destruct (List.find (fun f => EqualFold (jf_name f) k) fields) as [f|] eqn:E2; [|discriminate H]. injection H as <-. apply Hf, list_elem_of_In. by apply find_some in E2 as []. }
  destruct (struct_setter fields old k j) as [[y|e0]|]; auto.
Qed.
Ltac quiet_fields :=
  apply struct_quiet; intros f x j Hf; repeat (apply elem_of_cons in Hf as [-> | Hf]; [apply quiet_map, quiet_dec|]); by apply not_elem_of_nil in Hf.
#[local] Instance slot_quiet : QuietCodec slot_codec.
Proof. quiet_fields. Qed.
#[local] Instance ledger_quiet : QuietCodec ledger_codec.
Proof. quiet_fields. Qed.

Lemma checkSlots_quiet l e t : checkSlots l = Some e -> Is e t = false.
Proof.
  induction l as [|[k slot] l IH]; simpl; [done|]. destruct (validateFirewallMutationSlot slot) as [e0|] eqn:E.
  - intros [= <-]. simpl. unfold validateFirewallMutationSlot in E. repeat case_test_in E; by simplify_eq.
  - case_test; [by intros [= <-]|done].
Qed.
Lemma decode_quiet lease : quiet (decodeFirewallMutationLedger lease).
Proof.
  unfold decodeFirewallMutationLedger. destruct (ls_HolderIdentity lease); [|apply quiet_msg]. case_test; [apply quiet_msg|].
  case_test; [apply quiet_msg|]. unfold Unmarshal. destruct (parse_json _) as [j|]; [|by intros e [= <-]].
  pose proof (quiet_dec (C := ledger_codec) (c_zero ledger_codec) j) as Hq. destruct (c_dec ledger_codec _ j) as [value|e0].
  - intros e H t. destruct (validateFirewallMutationLedger value) as [e1|] eqn:E; [|done]. injection H as <-.
    unfold validateFirewallMutationLedger in E. destruct (lg_Slots value); [|by injection E as <-].
    case_test_in E; [by injection E as <-|by eapply checkSlots_quiet].
  - intros e [= <-] t. simpl. by rewrite (Hq e0 eq_refl).
Qed.

(** *** The steps of an attempt *)

Lemma wp_readback desired h (Q : result bool -> list event -> Prop) k : k = firewallMutationSlotName (sl_Location desired) (sl_FirewallUUID desired) ->
  (forall r h', r <> Ok true -> Q r h') -> (forall h', took_slot desired k (Ok true) h' -> Q (Ok true) h') ->
  wp (takes_slot desired k) (readbackOwnFirewallMutationSlot namespace desired) h Q.
Proof.
  intros -> Hf Ht. unfold readbackOwnFirewallMutationSlot. apply wp_bind, wp_ledger; [intros e; by apply Hf|intros lease e _; by apply Hf|].
  intros lease ledger Hd. simpl. destruct (slot_at ledger _) as [stored|] eqn:E; [|by apply Hf]. unfold firewallMutationSlotMatches.
  case_bool_decide; [|by apply Hf]. subst stored. apply Ht. intros mine [= <-]. exists lease, ledger, desired.
  split_and!; [|done|done]. split; [|done]. by eexists _, _.
Qed.

Lemma owner_vacated h slot claim : asked h (sl_NodeClaimName slot) (Ok claim) -> ownerTerminal slot claim = Ok true -> vacated h slot.
Proof.
  intros Hin H. unfold ownerTerminal in H. case_test_in H; [bool_hyps; by eapply vacated_replaced|]. case_test_in H; [done|].
  destruct (decodeCreateFence _) as [record|] eqn:Ed; [|done]. destruct (cf_BaseFirewallAssignment record) as [a|] eqn:Ea; [|done].
  case_test_in H; [done|]. bool_hyps. injection H as H. by eapply vacated_receipt.
Qed.
Lemma wp_slot_terminal desired k slot h (Q : result bool -> list event -> Prop) :
  (forall r h', r <> Ok true -> Q r h') -> (forall later, (List.length later <= 1)%nat -> vacated later slot -> Q (Ok true) (later ++ h)) ->
  wp (takes_slot desired k) (firewallMutationSlotTerminal slot) h Q.
Proof.
  intros Hf Ht. unfold firewallMutationSlotTerminal. case_test; [apply (Ht []); [simpl; lia|by apply vacated_terminal]|].
  apply wp_bind, wp_call; [done|]. intros [claim|e].
  - destruct (ownerTerminal slot claim) as [[]|] eqn:E; [|by apply Hf..]. apply (Ht [_]); [simpl; lia|]. eapply owner_vacated; [left|done].
  - case_test; [|by apply Hf]. apply (Ht [_]); [simpl; lia|]. eapply vacated_gone; [left|done].
Qed.

(** The write over a slot whose owner is done, and what follows it. *)
Lemma wp_take desired k lease encoded h (next : prog pres (result bool)) fail_of :
  k = firewallMutationSlotName (sl_Location desired) (sl_FirewallUUID desired) ->
  takes_slot desired k (UpdateLease (set_ledger lease encoded)) h ->
  (forall h', wp (takes_slot desired k) next h' (took_slot desired k)) ->
  wp (takes_slot desired k) (let! written := call (UpdateLease (set_ledger lease encoded)) in
    let! own := readbackOwnFirewallMutationSlot namespace desired in
    match own with Ok true => Ret (Ok true) | Err e => Ret (Err (fail_of (err_of written) e)) | Ok false => next end) h (took_slot desired k).
Proof.
  intros Hk Hw Hnext. apply wp_bind, wp_call; [exact Hw|]. intros written. apply wp_bind, wp_readback; [done| |].
  - intros [[]|e] h' Hne; [done|apply Hnext|done].
  - by intros h' Ht.
Qed.

Lemma acquire_takes desired k n h : k = firewallMutationSlotName (sl_Location desired) (sl_FirewallUUID desired) ->
  wp (takes_slot desired k) (acquire_loop namespace n desired k) h (took_slot desired k).
Proof.
  intros Hk. revert h. induction n as [|n IH]; intros h; [done|]. cbn [acquire_loop]. unfold auditUnresolvedLegacyFirewallMutationOwners.
  rewrite <-Hk. apply wp_bind, wp_bind, wp_call; [exact I|]. intros [items|e]; [|done]. apply wp_ret.
  destruct (auditClaims desired k items) eqn:Ea; [done|]. apply wp_bind, wp_ledger.
  - intros e. case_test; [|done]. destruct (encodeFirewallMutationLedger _) as [encoded|] eqn:Ee; [|done].
    apply wp_bind, wp_call; [by exists encoded, e; split_and!; [..|exists items, h|]|]. intros written.
    apply wp_bind, wp_readback; [exact Hk| |intros h'' Ht; exact Ht].
    intros [[]|e'] h'' Hne; [contradiction|apply IH|]. case_test; [apply IH|done].
  - intros lease e Hd. by rewrite (decode_quiet lease e Hd).
  - intros lease ledger Hd.
    assert (forall encoded later h', encodeFirewallMutationLedger (put_slot ledger k desired) = Ok encoded ->
      h' = later ++ Ev (GetLease CallerContext namespace firewallMutationCoordinatorLeaseName) (Ok lease) :: Ev ListClaims (Ok items) :: h ->
      match slot_at ledger k with
      | None => later = []
      | Some slot => (List.length later <= 1)%nat /\ vacated later slot /\ same_receipt slot desired = false
      end -> takes_slot desired k (UpdateLease (set_ledger lease encoded)) h') as Hw.
    { intros encoded later h' Ee -> Hs. exists lease, ledger, encoded, later. split_and!; try done. by exists items, h. }
    destruct (slot_at ledger k) as [cur|] eqn:Es.
    + unfold firewallMutationSlotMatches. case_bool_decide as Hm; [subst cur|case_test].
      { intros mine [= <-]. exists lease, ledger, desired. split_and!; [|done|done]. split; [|done]. by eexists _, _. }
      { intros mine [= <-]. exists lease, ledger, cur. split_and!; [|done|done|done]. split; [|done]. by eexists _, _. }
      apply wp_bind, wp_slot_terminal; [by intros [[]|e] h' Hne|]. intros later Hl Hv.
      destruct (encodeFirewallMutationLedger _) as [encoded|] eqn:Ee; [|done].
      apply (wp_take desired k lease encoded _ _ (fun w e => Wrap "updating and exactly reading back firewall mutation slot" (non_nil [w; Some e]))); auto.
      by apply (Hw encoded later).
    + destruct (encodeFirewallMutationLedger _) as [encoded|] eqn:Ee; [|done].
      apply (wp_take desired k lease encoded _ _ (fun w e => Wrap "updating and exactly reading back firewall mutation slot" (non_nil [w; Some e]))); auto.
      by apply (Hw encoded []).
Qed.

(** C23: a firewall's slot changes hands safely. acquireFirewallMutationSlot writes the desired slot only
    after it listed the NodeClaims and found no other one with an unresolved legacy issue of the firewall,
    and read the ledger next: it creates a ledger with only this slot directly after the API server
    answered that there is none, and otherwise writes the slot into the ledger just read, where there was
    no slot for the firewall, or where the exchanges since that read establish that the slot's owner is
    done, and never over the same receipt held by another acquisition. It reports the slot acquired only
    when its last exchange read the ledger with exactly it, and already issued only when that read the
    same receipt under another acquisition. *)
Theorem firewall_slot_takeover desired : let k := firewallMutationSlotName (sl_Location desired) (sl_FirewallUUID desired) in
  dispatches (acquireFirewallMutationSlot namespace desired) (takes_slot desired k)
  /\ ensures (acquireFirewallMutationSlot namespace desired) (took_slot desired k).
Proof.
  intros k. pose proof (acquire_takes desired k 6 [] eq_refl) as H. split; [by eapply wp_dispatches|]. eapply wp_weaken; [|exact H]. done.
Qed.

(** ** Issuing a removal *)

Definition claim_was_read (h : list event) (c : NodeClaim) : Prop := exists ctx name, Ev (GetClaim ctx name) (Ok c) ∈ h.

(** The journal leaves room for the mutation: no such deletion was observed, and it is ready, or its
    mutation was rejected and is the same, or was observed and is another. *)
Definition journal_free (m : removalMutationRecord) (desired : RemovalMutation) : Prop :=
  historicalObservedFloatingIPDelete m desired = None
  /\ (rm_Phase m = RemovalMutationReady
      \/ rm_Phase m = RemovalMutationRejected /\ removalMutationFromRecord m = desired
      \/ rm_Phase m = RemovalMutationObserved /\ removalMutationFromRecord m <> desired).
Lemma decide_free m desired present : removal_decide m desired present = Issue -> present = true /\ journal_free m desired.
Proof.
  unfold removal_decide. destruct (historicalObservedFloatingIPDelete m desired) eqn:Eh; [by destruct present|]. unfold removalMutationIdentityMatches.
  intros H. destruct present; simpl in H; rewrite ?andb_false_r, ?andb_true_r in H; repeat case_test_in H; try done; bool_hyps; split; try done; split; auto; tauto.
Qed.

Definition issued_here (binding : createFenceBinding) (token : string) (desired : RemovalMutation) (h : list event) (c : NodeClaim) : Prop :=
  exists cur m z stored, claim_was_read h cur /\ decodeRemovalMutationRecord (annotation_of cur AnnotationRemovalMutationFence) binding token = Ok m
    /\ journal_free m desired /\ Ev RandRead (Ok z) ∈ h /\ claim_was_read h c
    /\ decodeRemovalMutationRecord (annotation_of c AnnotationRemovalMutationFence) binding token = Ok stored
    /\ rm_Phase stored = RemovalMutationIssued /\ rm_IssueID stored = hex_digits 32 z /\ removalMutationFromRecord stored = desired.
Definition removal_answer (binding : createFenceBinding) (token : string) (desired : RemovalMutation) (present : bool)
    (r : option NodeClaim * RemovalMutationAuthorization * goerr) (h : list event) : Prop :=
  ra_AllowMutation r.1.2 = true -> r.2 = None /\ present = true /\ exists c, r.1.1 = Some c /\ issued_here binding token desired h c.

Lemma decide_answer m desired present a : removal_decide m desired present = Answer a -> ra_AllowMutation a = false.
Proof. unfold removal_decide. intros H. by repeat (case_test_in H; try done); injection H as <-. Qed.

Lemma was_read_app new h c : claim_was_read h c -> claim_was_read (new ++ h) c.
Proof. intros (ctx & n & H). exists ctx, n. set_solver. Qed.

(** Reads and nonces, under no guard. *)
Lemma read_protected claim action h (Q : result NodeClaim -> list event -> Prop) :
  (forall e h', Q (Err e) h') -> (forall cur new, claim_was_read (new ++ h) cur -> Q (Ok cur) (new ++ h)) ->
  wp any_action (getProtectedExact claim action) h Q.
Proof.
  intros He Ho. unfold getProtectedExact. case_test; [apply He|]. apply wp_bind, wp_call; [done|]. intros [cur|e]; [|apply He].
  case_test; [apply He|]. apply (Ho cur [_]). by exists CallerContext, (nc_Name claim); left.
Qed.
(** What is accepted was read back. *)
Lemma persisted_removal cur record accept h (Q : result NodeClaim -> list event -> Prop) :
  (forall e h', Q (Err e) h') ->
  (forall c stored new, claim_was_read (new ++ h) c -> accept stored = true ->
     decodeRemovalMutationRecord (annotation_of c AnnotationRemovalMutationFence) (rm_Binding record) (rm_AttemptToken record) = Ok stored -> Q (Ok c) (new ++ h)) ->
  wp any_action (persistRemovalMutation cur record accept) h Q.
Proof.
  intros He Ho. unfold persistRemovalMutation. case_test; [apply He|]. unfold persistReceipt. apply wp_bind, wp_call; [done|]. intros v.
  apply wp_bind, wp_call; [done|]. intros [c|e]; [|apply He]. case_test; [apply He|].
  destruct (decodeRemovalMutationRecord _ _ _) as [stored|] eqn:Ed; [|apply He]. destruct (accept stored) eqn:Ea; [|by destruct (err_of v); apply He].
  by apply (Ho c stored [_; _]); [exists DetachedContext, (nc_Name cur); left|..].
Qed.

Lemma removal_loop_answer n claim binding token desired present lastErr h :
  wp any_action (authorize_removal_loop n claim binding token desired present lastErr) h (removal_answer binding token desired present).
Proof.
  revert claim lastErr h. induction n as [|n IH]; intros claim lastErr h; [done|]. cbn [authorize_removal_loop]. apply wp_bind, read_protected; [done|].
  intros cur new Hcur. destruct (record_of cur binding) as [create|]; [|done]. case_test; [done|].
  destruct (decodeRemovalMutationRecord _ binding token) as [m|] eqn:Em; [|done]. destruct (removal_decide m desired present) as [err|ans|] eqn:Ed; [done| |].
  { intros Ha. apply decide_answer in Ed. simpl in Ha. congruence. }
  apply decide_free in Ed as [-> Hfree]. unfold createFenceNonce. apply wp_bind, wp_bind, wp_call; [done|]. intros [z|e]; [|done]. apply wp_ret.
  destruct (archiveCurrentObservedFloatingIPDelete m) as [archived|]; [|done]. apply wp_bind, wp_call; [done|]. intros now.
  apply wp_bind, persisted_removal; [intros e h'; apply IH|]. intros c stored new' Hc Hacc Hd _. unfold removalMutationIdentityMatches in Hacc. bool_hyps.
  split; [done|]. split; [done|]. exists c. split; [done|]. exists cur, m, z, stored. split_and!; try done.
  - by apply was_read_app, (was_read_app [_; _]).
  - apply elem_of_app. right. right. left.
Qed.

(** C24: a resource is removed only under its own issue. AuthorizeRemovalMutation allows the caller to
    send the deletion only when the resource is present, when the journal that this invocation read
    had no other mutation outstanding and had not observed this one, and after it read back from the
    NodeClaim the issue of exactly this mutation under a nonce that it drew itself. *)
Theorem removal_authority claim binding token mutation present :
  ensures (AuthorizeRemovalMutation claim binding token mutation present)
    (fun r h => ra_AllowMutation r.1.2 = true ->
       exists desired, normalizeRemovalMutation mutation = Ok desired /\ removal_answer binding token desired present r h).
Proof.
  unfold ensures, AuthorizeRemovalMutation. destruct (normalizeRemovalMutation mutation) as [desired|]; [|done].
  eapply wp_mono; [apply removal_loop_answer|]. intros r h Hr _. by exists desired.
Qed.
End Authority.
