(* ===== verification/CreateFenceTermination.v ===== *)
(** * Every call of the store ends

    The retry loops of the store and of the firewall ledger are bounded in the source. Whatever the
    API server answers, a call returns after a fixed number of requests. *)

From S2P Require Import Prelude GoErrors CSIFence Prog GoJSON GoNet CreateFence CreateFenceDecode CreateFenceSteps ProviderActions RemovalFence FirewallSlot CreateFenceStore RemovalStore CreateFenceWrites CreateFencePool.

Section Store.
Context `{PE : ProviderEnv, JT : JSONText, TT : TimeText} (namespace : string).

Create HintDb ends.
#[local] Ltac ends := repeat (first [ progress intros | exact I | progress cbn [bind call within Nat.sub] | case_match | solve [auto with ends] ]).

Lemma protected_ends claim action : within 1 (getProtectedExact claim action).
Proof. unfold getProtectedExact. ends. Qed.
Lemma exact_ends claim : within 1 (getExact claim).
Proof. unfold getExact. ends. Qed.
Lemma ledger_ends ctx : within 1 (getFirewallMutationLedger namespace ctx).
Proof. unfold getFirewallMutationLedger. ends. Qed.
Lemma readback_ends desired : within 1 (readbackOwnFirewallMutationSlot namespace desired).
Proof. unfold readbackOwnFirewallMutationSlot, getFirewallMutationLedger. ends. Qed.
Lemma slot_terminal_ends slot : within 1 (firewallMutationSlotTerminal slot).
Proof. unfold firewallMutationSlotTerminal. ends. Qed.
Lemma owners_ends desired : within 1 (auditUnresolvedLegacyFirewallMutationOwners desired).
Proof. unfold auditUnresolvedLegacyFirewallMutationOwners. ends. Qed.
Lemma receipt_ends {A} cur k encoded what (decode : string -> result A) accept : within 2 (persistReceipt cur k encoded what decode accept).
Proof. unfold persistReceipt. ends. Qed.

Lemma acquire_ends n desired k : within (5 * n) (acquire_loop namespace n desired k).
Proof.
  induction n as [|n IH]; [done|]. cbn [acquire_loop]. eapply within_then; [apply owners_ends|lia|]. intros [e|]; [done|].
  eapply within_then; [apply ledger_ends|lia|]. intros [[lease ledger]|e].
  - assert (forall m, (2 + 5 * n <= m)%nat -> within m (match encodeFirewallMutationLedger (put_slot ledger k desired) with
      | Err e => Ret (Err e)
      | Ok encoded =>
        let! written := call (UpdateLease (set_ledger lease encoded)) in
        let! own := readbackOwnFirewallMutationSlot namespace desired in
        match own with
        | Ok true => Ret (Ok true)
        | Err exactErr => Ret (Err (Wrap "updating and exactly reading back firewall mutation slot" (non_nil [err_of written; Some exactErr])))
        | Ok false => acquire_loop namespace n desired k
        end end)) as Hw.
    { intros m Hm. case_match; [|done]. eapply (within_then 1); [done|lia|]. intros w. eapply within_then; [apply readback_ends|lia|].
      intros [[]|e']; [done| |done]. eapply within_mono; [|exact IH]. lia. }
    destruct (slot_at ledger k) as [cur|]; [|apply Hw; lia]. case_test; [done|]. case_test; [done|].
    eapply within_then; [apply slot_terminal_ends|lia|]. intros [[]|e]; [|done..]. apply Hw. lia.
  - case_test; [|done]. case_match; [|done]. eapply (within_then 1); [done|lia|]. intros w. eapply within_then; [apply readback_ends|lia|].
    intros [[]|e']; [done| |case_test; [|done]]; (eapply within_mono; [|exact IH]); lia.
Qed.
Lemma finish_slot_ends n current k op vm i terminal : within (3 * n) (finish_slot_loop namespace n current k op vm i terminal).
Proof.
  induction n as [|n IH]; [done|]. cbn [finish_slot_loop]. eapply within_then; [apply ledger_ends|lia|]. intros [[lease ledger]|e]; [|by case_test].
  destruct (slot_at ledger k); [|done]. do 3 (case_test; [done|]). cbv zeta. destruct (encodeFirewallMutationLedger _); [|done].
  eapply (within_then 1); [done|lia|]. intros w. eapply within_then; [apply ledger_ends|lia|]. intros [[l' lg]|e]; [|done].
  destruct (slot_at lg k); [case_test; [done|]|]; (eapply within_mono; [|exact IH]); lia.
Qed.
Lemma assignment_slot_ends current r vm : within 31 (authorizeBaseFirewallAssignmentSlot namespace current r vm).
Proof.
  unfold authorizeBaseFirewallAssignmentSlot. case_match; [|done]. case_test; [done|]. eapply (within_then 1); [unfold createFenceNonce; ends|lia|]. intros [acq|e]; [|done].
  case_match; [|done]. eapply within_then; [apply (acquire_ends 6)|lia|]. intros [allow|e]; [by case_test|done].
Qed.
Lemma nonce_ends : within 1 createFenceNonce.
Proof. unfold createFenceNonce. ends. Qed.
Lemma slot_finished_ends current r op vm i terminal : within 12 (finishFirewallMutationSlot namespace current r op vm i terminal).
Proof. unfold finishFirewallMutationSlot. case_test; [done|]. apply (finish_slot_ends 4). Qed.

(** ** The store's loops *)

Lemma transition_ends op claim binding n lastErr :
  (forall cur r, fo_check op cur r = Ok false -> within 2 (fo_write op r)) -> within (5 * n) (transition_loop n op claim binding lastErr).
Proof.
  intros Hw. revert lastErr. induction n as [|n IH]; intros lastErr; [done|]. cbn [transition_loop]. eapply within_then; [apply protected_ends|lia|].
  intros [cur|e]; [|done]. case_match; [done|]. destruct (record_of cur binding); [|done]. destruct (fo_check op cur _) as [[]|] eqn:Ec; [done| |done].
  eapply within_then; [by eapply Hw|lia|]. intros [r'|e]; [|done]. eapply (within_then 1); [done|lia|]. intros w. eapply (within_then 1); [done|lia|].
  intros [readback|e]; [|eapply within_mono; [|apply IH]; lia]. case_test; [done|]. destruct (record_of readback binding); [|eapply within_mono; [|apply IH]; lia].
  case_test; [done|]. case_test; [done|]. eapply within_mono; [|apply IH]. lia.
Qed.
Lemma claim_ends op claim binding : (forall cur r, fo_check op cur r = Ok false -> within 2 (fo_write op r)) -> within 15 (only_claim (transition op claim binding)).
Proof. intros H. eapply within_then; [by apply (transition_ends _ _ _ 3)|lia|]. done. Qed.
Lemma at_now_ends f : within 2 (at_now f).
Proof. unfold at_now. ends. Qed.

Lemma authorize_base_ends n claim binding token vm lastErr : within (20 * n + 31) (authorize_base_loop namespace n claim binding token vm lastErr).
Proof.
  revert claim lastErr. induction n as [|n IH]; intros claim lastErr; [done|]. cbn [authorize_base_loop].
  assert (forall claim lastErr m, (20 * n + 31 <= m)%nat -> within m (authorize_base_loop namespace n claim binding token vm lastErr)) as IH'
    by (intros ? ? m Hm; eapply within_mono; [exact Hm|apply IH]). clear IH.
  eapply within_then; [apply protected_ends|lia|]. intros [cur|e]; [|done]. destruct (record_of cur binding) as [r|]; [|done]. case_match; [done|].
  destruct (cf_BaseFirewallAssignment r) as [a|].
  - case_test; [done|]. case_test; [eapply within_then; [apply assignment_slot_ends|lia|done]|]. case_test; [done|]. case_test; [done|].
    eapply (within_then 12); [case_test; [apply slot_finished_ends|done]|lia|]. intros [e|]; [done|]. eapply within_then; [apply nonce_ends|lia|].
    intros [i|e]; [|done]. eapply (within_then 1); [done|lia|]. intros now. eapply within_then; [apply receipt_ends|lia|]. intros [written|e].
    + eapply within_then; [apply assignment_slot_ends|lia|done].
    + eapply (within_then 1); [done|lia|]. intros [latest|e']; [|apply IH'; lia]. case_test; [apply IH'; lia|].
      destruct (record_of latest binding); [|apply IH'; lia]. case_match; [case_test; [done|]|]; apply IH'; lia.
  - eapply (within_then 1); [done|lia|]. intros now. eapply within_then; [apply receipt_ends|lia|]. intros [written|e]; apply IH'; lia.
Qed.
Lemma finish_base_ends n claim binding token vm i terminal lastErr : within (4 * n + 12) (finish_base_loop namespace n claim binding token vm i terminal lastErr).
Proof.
  revert lastErr. induction n as [|n IH]; intros lastErr; [done|]. cbn [finish_base_loop]. eapply within_then; [apply protected_ends|lia|].
  intros [cur|e]; [|done]. destruct (record_of cur binding) as [r|]; [|done]. case_match; [|done]. case_test; [done|].
  case_test; [eapply within_then; [apply slot_finished_ends|lia|done]|]. case_test; [done|]. eapply (within_then 1); [done|lia|]. intros now.
  eapply within_then; [apply receipt_ends|lia|]. intros [written|e]; [|eapply within_mono; [|apply IH]; lia].
  destruct (record_of written binding); [|done]. eapply within_then; [apply slot_finished_ends|lia|done].
Qed.
Lemma authorize_update_ends n claim binding token desired lastErr : within (5 * n) (authorize_update_loop n claim binding token desired lastErr).
Proof.
  revert claim lastErr. induction n as [|n IH]; intros claim lastErr; [done|]. cbn [authorize_update_loop]. eapply within_then; [apply protected_ends|lia|].
  intros [cur|e]; [|done]. destruct (record_of cur binding) as [r|]; [|done]. case_test; [done|]. set (issue := bind createFenceNonce _).
  assert (within (5 * S n - 1) issue) as Hi.
  { eapply within_then; [apply nonce_ends|lia|]. intros [i|e]; [|done]. eapply (within_then 1); [done|lia|]. intros now.
    eapply within_then; [apply receipt_ends|lia|]. intros [written|e]; [done|]. eapply within_mono; [|apply IH]. lia. }
  clearbody issue. case_test; [done|]. case_match; [|done]. do 2 (case_test; [done|]). by case_test.
Qed.
Lemma finish_update_ends n claim binding token fence terminal lastErr : within (4 * n) (finish_update_loop n claim binding token fence terminal lastErr).
Proof.
  revert claim lastErr. induction n as [|n IH]; intros claim lastErr; [done|]. cbn [finish_update_loop]. eapply within_then; [apply protected_ends|lia|].
  intros [cur|e]; [|done]. case_match; [|done]. do 3 (case_test; [done|]). eapply (within_then 1); [done|lia|]. intros now.
  eapply within_then; [apply receipt_ends|lia|]. intros [written|e]; [done|]. eapply within_mono; [|apply IH]. lia.
Qed.
Lemma removal_write_ends cur m accept : within 2 (persistRemovalMutation cur m accept).
Proof. unfold persistRemovalMutation. case_test; [done|]. apply receipt_ends. Qed.
Lemma ensure_removal_ends n claim binding token : within (4 * n) (ensure_removal_loop n claim binding token).
Proof.
  revert claim. induction n as [|n IH]; intros claim; [done|]. cbn [ensure_removal_loop]. eapply within_then; [apply protected_ends|lia|].
  intros [cur|e]; [|done]. destruct (record_of cur binding); [|done]. case_test; [done|]. case_test; [by case_match|]. case_test; [done|].
  eapply (within_then 1); [done|lia|]. intros now. eapply within_then; [apply removal_write_ends|lia|]. intros [written|e]; [done|].
  eapply within_mono; [|apply IH]. lia.
Qed.
Lemma authorize_removal_ends n claim binding token desired present lastErr : within (5 * n) (authorize_removal_loop n claim binding token desired present lastErr).
Proof.
  revert claim lastErr. induction n as [|n IH]; intros claim lastErr; [done|]. cbn [authorize_removal_loop]. eapply within_then; [apply protected_ends|lia|].
  intros [cur|e]; [|done]. destruct (record_of cur binding); [|done]. case_test; [done|]. case_match; [|done]. case_match; [done|done|].
  eapply within_then; [apply nonce_ends|lia|]. intros [i|e]; [|done]. case_match; [|done]. eapply (within_then 1); [done|lia|]. intros now.
  eapply within_then; [apply removal_write_ends|lia|]. intros [written|e]; [done|]. eapply within_mono; [|apply IH]. lia.
Qed.
Lemma finish_removal_ends n claim binding token fence terminal lastErr : within (4 * n) (finish_removal_loop n claim binding token fence terminal lastErr).
Proof.
  revert claim lastErr. induction n as [|n IH]; intros claim lastErr; [done|]. cbn [finish_removal_loop]. eapply within_then; [apply protected_ends|lia|].
  intros [cur|e]; [|done]. destruct (record_of cur binding); [|done]. case_match; [|done]. case_match; [done|]. case_test.
  - case_match; [|done]. case_match; [|done]. eapply within_then; [apply removal_write_ends|lia|]. intros [written|e]; [done|]. eapply within_mono; [|apply IH]. lia.
  - case_match; [done|]. eapply (within_then 1); [done|lia|]. intros now. case_match; [|done].
    eapply within_then; [apply removal_write_ends|lia|]. intros [written|e]; [done|]. eapply within_mono; [|apply IH]. lia.
Qed.

Lemma detach_ends claim binding token vm : within 34 (AuthorizeBaseFirewallDetach namespace claim binding token vm).
Proof.
  unfold AuthorizeBaseFirewallDetach. case_test; [done|]. eapply within_then; [apply protected_ends|lia|]. intros [cur|e]; [|done]. case_match; [|done].
  case_test; [done|]. set (issue := bind createFenceNonce _).
  assert (within 32 issue) as Hi.
  { eapply within_then; [apply nonce_ends|lia|]. intros [i|e]; [|done]. eapply within_then; [apply nonce_ends|lia|]. intros [j|e]; [|done].
    case_match; [|done]. eapply within_then; [apply (acquire_ends 6)|lia|]. by intros [allow|e]. }
  clearbody issue. eapply within_then; [apply ledger_ends|lia|]. intros [[l ledger]|e]; [|by case_test]. case_match; [|done]. by case_test.
Qed.

Lemma store_call_ends c : within 111 (store_run namespace c).
Proof.
  assert (forall A n (p : prog pres A), (n <= 111)%nat -> within n p -> within 111 (discard p)) as Hd.
  { intros A n p Hn Hp. eapply within_then; [exact Hp|done|done]. }
  destruct c; cbn [store_run].
  - apply (Hd _ 1%nat); [lia|]. unfold Get. eapply within_then; [apply exact_ends|lia|]. intros [cur|e]; [|done]. case_test; [done|]. case_match; [by case_test|done].
  - apply (Hd _ 5%nat); [lia|]. unfold Ensure. eapply within_then; [apply exact_ends|lia|]. intros [cur|e]; [|done].
    case_test; [by repeat case_match|]. case_test; [done|]. case_match; [done|]. eapply (within_then 1); [done|lia|]. intros now.
    eapply within_then; [apply nonce_ends|lia|]. intros token. case_match; [|done]. unfold persist. ends.
  - eapply (within_then 6 111); [|lia|done]. unfold Authorize, createFenceNonce. eapply within_then; [apply exact_ends|lia|]. intros [cur|e]; [|done]. ends.
  - apply (Hd _ 15%nat); [lia|]. unfold RecordCreatedVM. case_test; [done|]. apply claim_ends. intros cur r _. apply at_now_ends.
  - apply (Hd _ 15%nat); [lia|]. unfold RecordProtectionFailure. case_test; [done|]. eapply within_then; [apply (transition_ends _ _ _ 3)|lia|done].
    intros cur r _. apply at_now_ends.
  - apply (Hd _ 15%nat); [lia|]. unfold ClearProtectionFailure. case_test; [done|]. apply claim_ends. done.
  - apply (Hd _ 15%nat); [lia|]. unfold ChooseRollback.
    assert (forall v, within 15 (only_claim (transition (rollback_op token issueID (ToLower vmUUID) v) claim binding))) as Hr.
    { intros v. apply claim_ends. intros cur r _. cbn [fo_write rollback_op]. destruct (is_nil (cf_RollbackAt r)), (is_nil v); ends. }
    case_test; [done|]. case_match; [|apply Hr]. case_match; [|done]. case_test; [done|]. apply Hr.
  - apply (Hd _ 15%nat); [lia|]. apply claim_ends. intros cur r _. apply at_now_ends.
  - apply (Hd _ 15%nat); [lia|]. apply claim_ends. intros cur r Hc. destruct vm as [vm|]; [apply at_now_ends|]. exfalso.
    cbn [fo_check materialize_op] in Hc. unfold materialize_check in Hc. by case_test_in Hc.
  - apply (Hd _ 15%nat); [lia|]. apply claim_ends. intros cur r _. apply at_now_ends.
  - apply (Hd _ 111%nat); [lia|]. unfold AuthorizeBaseFirewall. case_test; [done|]. apply (authorize_base_ends 4).
  - apply (Hd _ 24%nat); [lia|]. unfold finishBaseFirewallAssignment. case_test; [done|]. apply (finish_base_ends 3).
  - apply (Hd _ 20%nat); [lia|]. unfold AuthorizeFloatingIPUpdate. case_match; [|done]. apply (authorize_update_ends 4).
  - apply (Hd _ 12%nat); [lia|]. unfold finishFloatingIPUpdate. case_match; [done|]. case_test; [done|]. apply (finish_update_ends 3).
  - apply (Hd _ 16%nat); [lia|]. apply (ensure_removal_ends 4).
  - apply (Hd _ 20%nat); [lia|]. unfold AuthorizeRemovalMutation. case_match; [|done]. apply (authorize_removal_ends 4).
  - apply (Hd _ 12%nat); [lia|]. unfold finishRemovalMutation. case_match; [done|]. case_test; [done|]. apply (finish_removal_ends 3).
  - apply (Hd _ 34%nat); [lia|]. apply detach_ends.
  - apply (Hd _ 13%nat); [lia|]. unfold finishBaseFirewallDetach. eapply within_then; [apply protected_ends|lia|]. intros [cur|e]; [|done]. case_match; [|done].
    case_test; [done|]. apply slot_finished_ends.
Qed.

(** C34: every call of the store returns. Whatever the API server, the clock and the source of nonces
    answer, no path of a call loops or panics, and a call makes at most 111 requests, the most being
    those of AuthorizeBaseFirewall with its four attempts and its slot. *)
Theorem store_calls_return c :
  returns (store_run namespace c) /\ forall o h, exec (store_run namespace c) [] o h -> (List.length h <= 111)%nat.
Proof.
  pose proof (store_call_ends c) as H. split; [by eapply within_returns|]. intros o h He. by apply (within_history 111 _ [] o h) in He.
Qed.
End Store.
