(* ===== verification/ProviderWorld.v ===== *)
(** * A reference cluster for the Karpenter provider

    A concrete environment that the theorems' hypotheses hold in: an API server that keeps every
    version of its NodeClaims, answers every read with the current one, applies every update that
    names it, a clock that stands still and a source of nonces that counts. [cluster_run] shows that what a call does
    there is an execution of the pool. *)

From S2P Require Import Prelude GoErrors CSIFence Prog CSIWorld GoJSON GoNet CreateFence CreateFenceDecode CreateFenceSteps CreateFenceEncoding CreateFenceSpec CreateFenceLifecycle ProviderActions RemovalFence FirewallSlot CreateFenceStore RemovalStore CreateFenceController CreateFenceWrites CreateFencePool.


Definition zeros : string := "0000000000000000000000000000000000000000000000000000000000000000".
#[refine] Instance reference_provider : ProviderEnv := {
  sha256_hex _ := zeros;
  IsDNS1123Label s := bounded_label is_alnum_lower (fun c => is_alnum_lower c || is_dash c) 61 s;
  NodeClaimSpec := unit;
  Spec_DeepEqual _ _ := true
}.
Proof. done. Defined.

Record cluster := { k_versions : list NodeClaim; k_ticks : nat }.
Definition tick (k : cluster) : cluster := Build_cluster (k_versions k) (S (k_ticks k)).
Fixpoint count (n : nat) : string := match n with O => "v" | S m => String "v" (count m) end.

Definition epoch : Z := 1000000000000.

(** An update that names the current version. *)
Definition store_claim (sent : NodeClaim) (k : cluster) : result NodeClaim * cluster :=
  let rv := count (k_ticks k) in
  match current (k_versions k) (nc_Name sent) with
  | Some cur =>
      if (nc_ResourceVersion sent == nc_ResourceVersion cur) && forallb (fun c => nc_ResourceVersion c != rv) (k_versions k) then
        let new := sent <| nc_ResourceVersion := rv |> in (Ok new, Build_cluster (new :: k_versions k) (S (k_ticks k)))
      else (Err (Sentinel StatusConflict), k)
  | None => (Err (Sentinel StatusNotFound), k)
  end.
Definition cluster_step (x : pact) : cluster -> pres x * cluster :=
  match x as x return cluster -> pres x * cluster with
  | GetClaim _ name => fun k => (match current (k_versions k) name with Some c => Ok c | None => Err (Sentinel StatusNotFound) end, k)
  | UpdateClaim sent => store_claim sent
  | PatchClaim _ stored updated => store_claim (updated <| nc_ResourceVersion := nc_ResourceVersion stored |>)
  | ListClaims => fun k => (Ok (k_versions k), k)
  | GetLease _ _ _ => fun k => (Err (Sentinel StatusNotFound), k)
  | CreateLease l | UpdateLease l => fun k => (Ok l, k)
  | ProtectFencedCreate _ => fun k => ((None, None), k)
  | CleanupFencedCreate _ => fun k => ((Build_FencedCreateCleanupResult None false, None, None), k)
  | Now => fun k => (epoch, k)
  | RandRead => fun k => (Ok (Z.of_nat (k_ticks k)), tick k)
  end.

Lemma store_replaces sent k r k' : store_claim sent k = (r, k') -> replaces sent (k_versions k) r (k_versions k').
Proof.
  unfold store_claim. destruct (current _ _) as [cur|] eqn:Ec; [case_test|]; intros [= <- <-]; try (left; split; [done|by eexists]).
  bool_hyps. right. exists cur, (count (k_ticks k)). split_and!; try done; [|by left].
  intros c Hc. match goal with H : forallb _ _ = true |- _ => rewrite forallb_forall in H; specialize (H c) end.
  rewrite <-list_elem_of_In in *. intros E. match goal with H : _ -> _ |- _ => specialize (H Hc) end. bool_hyps. done.
Qed.

Lemma cluster_answers x k : answers x (k_versions k) (cluster_step x k).1 (k_versions (cluster_step x k).2).
Proof.
  destruct x; simpl; try done.
  - split; [done|]. intros c. destruct (current _ name) as [d|] eqn:E; [|done]. intros [= <-]. by apply current_elem.
  - by apply store_replaces, surjective_pairing.
  - by apply store_replaces, surjective_pairing.
Qed.

(** A call that runs in the cluster is an execution of the pool. *)
Lemma cluster_run namespace p k h pool :
  rtc (pool_step namespace) (k_versions k, (p, h) :: pool)
    (k_versions (run_hist cluster_step p k h).1.2,
     (match (run_hist cluster_step p k h).1.1 with Some a => Ret a | None => OutOfFuel end, (run_hist cluster_step p k h).2) :: pool)
  \/ (run_hist cluster_step p k h).1.1 = None.
Proof.
  revert k h. induction p as [a|x next IH| |]; intros k h; simpl; [left; constructor| |by right..].
  pose proof (cluster_answers x k) as Ha. destruct (cluster_step x k) as [r k'] eqn:E. simpl in Ha.
  destruct (IH r k' (Ev x r :: h)) as [H|H]; [left|by right]. eapply rtc_l; [|exact H]. by apply (PoolRequest namespace _ []).
Qed.

(** Beginning with any plain call. *)
Lemma cluster_call namespace c k pool a k' h : plain_call c -> run_hist cluster_step (store_run namespace c) k [] = (Some a, k', h) ->
  rtc (pool_step namespace) (k_versions k, pool) (k_versions k', (Ret a, h) :: pool).
Proof.
  intros Hp E. eapply rtc_l; [by apply PoolCall|]. destruct (cluster_run namespace (store_run namespace c) k [] pool) as [H|H]; rewrite E in H; [exact H|done].
Qed.

(** ** A NodeClaim and its attempt *)

Definition ns : string := "kube-system".
Definition vm_a : string := "11111111-1111-4111-8111-111111111111".
Definition fw_a : string := "22222222-2222-4222-8222-222222222222".
Definition token_a : string := "00000000000000000000000000000000".
Definition a_binding : createFenceBinding := Build_createFenceBinding "uid-a" "key" "request" "spec" "bootstrap".
Definition a_cleanup : createFenceCleanupIdentity :=
  Build_createFenceCleanupIdentity "cluster" "bkk" "network" "" "10.0.0.1" "10.0.0.10" "10.0.0.20" fw_a FirewallProfilePrivateWorker
    "claim-a" "vm-a" 7 "00112233445566778899aabbccddeeff".
Definition claim_a : NodeClaim := Build_NodeClaim _ "claim-a" "uid-a" "created" 1 None [TerminationFinalizer] ∅ ∅ tt "".
Definition created_cluster : cluster := Build_cluster [claim_a] 0.

Abbreviation cluster_runs c k := (run_hist cluster_step (store_run ns c) k []).
Definition ensure_a : store_call := CallEnsure claim_a a_binding a_cleanup empty_inventory.
Definition authorize_a : store_call := CallAuthorize claim_a a_binding token_a CreateAuthorizationPost.
Definition ensured := cluster_runs ensure_a created_cluster.
Definition authorized := cluster_runs authorize_a ensured.1.2.
(** The second of two callers. *)
Definition refused := cluster_runs authorize_a authorized.1.2.

Lemma run_pair {A B C} (x : A * B * C) a : x.1.1 = a -> x = (a, x.1.2, x.2).
Proof. destruct x as [[a' b] c]. simpl. by intros ->. Qed.

Definition claim_of_result {A} (o : option (option A)) (d : A) : A := match o with Some (Some c) => c | _ => d end.
Definition granted_claim : NodeClaim := claim_of_result authorized.1.1 claim_a.
Definition a_pool : list (prog pres (option NodeClaim) * list (event pres)) :=
  [(Ret None, refused.2); (Ret (Some granted_claim), authorized.2); (Ret None, ensured.2)].

Lemma pool_reached : rtc (pool_step ns) ([], []) (k_versions refused.1.2, a_pool).
Proof.
  eapply rtc_l; [apply (PoolOther ns [] [] claim_a); split; [by intros c ?%not_elem_of_nil|left; split; [done|by intros c ?%not_elem_of_nil]]|].
  etrans; [apply (cluster_call ns ensure_a created_cluster [] None ensured.1.2 ensured.2); [done|apply run_pair; vm_compute; reflexivity]|].
  etrans; [apply (cluster_call ns authorize_a ensured.1.2 _ (Some granted_claim) authorized.1.2 authorized.2); [done|apply run_pair; vm_compute; reflexivity]|].
  apply (cluster_call ns authorize_a authorized.1.2 _ None refused.1.2 refused.2); [done|apply run_pair; vm_compute; reflexivity].
Qed.

(** ** Witnesses *)

Definition ensured_claim : NodeClaim := default claim_a (head (k_versions ensured.1.2)).
Definition record_at (c : NodeClaim) : createFenceRecord :=
  match decodeCreateFence (annotation_of c AnnotationCreateFence) with Ok r => r | Err _ => zero_record end.

Lemma create_fence_lineage_witness : exists r', annotation_of granted_claim AnnotationCreateFence = Marshal record_codec r'
  /\ rtc fence_step (record_at ensured_claim) r' /\ evolves (record_at ensured_claim) r'.
Proof.
  apply (create_fence_lineage ns [] (k_versions ensured.1.2) a_pool ensured_claim granted_claim).
  - replace ([] ++ granted_claim :: k_versions ensured.1.2) with (k_versions refused.1.2) by (vm_compute; reflexivity). apply pool_reached.
  - apply list_elem_of_In. vm_compute. left. reflexivity.
  - vm_compute. reflexivity.
  - vm_compute. reflexivity.
Defined.

Lemma create_authority_exclusive_witness : exists z z', Ev RandRead (Ok z) ∈ authorized.2 /\ Ev RandRead (Ok z') ∈ authorized.2 /\ z `mod` 2 ^ 128 = z' `mod` 2 ^ 128.
Proof.
  apply (create_authority_exclusive ns (k_versions refused.1.2) a_pool granted_claim granted_claim).
  - apply pool_reached.
  - apply list_elem_of_further, list_elem_of_here.
  - apply list_elem_of_further, list_elem_of_here.
  - reflexivity.
Defined.

Definition reserved_record : createFenceRecord := record_at ensured_claim.
Definition issued_record : createFenceRecord := authorize_write reserved_record CreateAuthorizationPost (hex_digits 32 5) (hex_digits 32 6) epoch.
Lemma fence_step_typed_witness : wf issued_record /\ decodeCreateFence (Marshal record_codec issued_record) = Ok issued_record.
Proof.
  apply (fence_step_typed (annotation_of ensured_claim AnnotationCreateFence) reserved_record issued_record).
  - vm_compute. reflexivity.
  - apply (step_authorize reserved_record token_a); vm_compute; congruence.
  - vm_compute. reflexivity.
Defined.

(** ** Executions that the durable records do not survive

    Three executions in the reference cluster, each with a behaviour of the environment that the
    provider meets: a clock that steps back, a deletion that overtakes a create, and a cleanup whose
    callbacks write to the NodeClaim. *)

Definition head_claim (k : cluster) : NodeClaim := default claim_a (head (k_versions k)).
Definition fence_text (k : cluster) : string := annotation_of (head_claim k) AnnotationCreateFence.
Definition journal_text (k : cluster) : string := annotation_of (head_claim k) AnnotationRemovalMutationFence.
Definition record_in (k : cluster) : createFenceRecord := match decodeCreateFence (fence_text k) with Ok r => r | Err _ => zero_record end.
Abbreviation cluster_does p k := (run_hist cluster_step p k []).
Definition is_err {A} (r : result A) : bool := match r with Ok _ => false | Err _ => true end.

(** ** A clock that steps back *)

Definition removal_a : RemovalMutation := Build_RemovalMutation RemovalMutationVMDelete "bkk" vm_a EmptyString EmptyString 0.
Definition issued_removal := cluster_does (AuthorizeRemovalMutation claim_a a_binding token_a removal_a true) ensured.1.2.
Definition issued_fence : RemovalMutationFence :=
  match issued_removal.1.1 with Some (_, a, _) => ra_Fence a | None => zero_removal_fence end.
(** One second earlier than the other replica's clock. *)
Definition earlier_step (x : pact) : cluster -> pres x * cluster :=
  match x as x return cluster -> pres x * cluster with Now => fun k => (epoch - 1000000000, k) | x => cluster_step x end.
Definition observed_removal := run_hist earlier_step (ObserveRemovalMutation claim_a a_binding token_a issued_fence) issued_removal.1.2 [].

(** An observation that is dated before its issue makes the journal unreadable: the write is applied,
    no operation can read the journal afterwards, and no further resource of the NodeClaim can be
    removed. *)
Theorem removal_clock_wedges :
  result_map rm_Phase (decodeRemovalMutationRecord (journal_text issued_removal.1.2) a_binding token_a) = Ok RemovalMutationIssued
  /\ option_map is_err observed_removal.1.1 = Some true
  /\ is_err (decodeRemovalMutationRecord (journal_text observed_removal.1.2) a_binding token_a) = true
  /\ option_map (fun r => is_nil r.2) (cluster_does (AuthorizeRemovalMutation claim_a a_binding token_a removal_a true) observed_removal.1.2).1.1 = Some false.
Proof. vm_compute. by split_and!. Qed.

(** ** A deletion that overtakes a create *)

Definition deleting (k : cluster) : cluster :=
  Build_cluster ((head_claim k) <| nc_DeletionTimestamp := Some epoch |> <| nc_ResourceVersion := "deleting" |> :: k_versions k) (k_ticks k).
Definition issue_a : string := cf_IssueID (record_in authorized.1.2).
Definition found_a : FencedCreateCleanupResolution := Build_FencedCreateCleanupResolution vm_a "fip-a" "203.0.113.9" false.
(** The controller finds the VM in the cloud and persists its receipt, the create then anchors the
    same VM, fails, and chooses its rollback without a receipt. *)
Definition receipted := let k := deleting authorized.1.2 in cluster_does (persistCleanupResolution (head_claim k) (record_in k) found_a) k.
Definition anchored_late := cluster_does (RecordCreatedVM claim_a a_binding token_a issue_a vm_a) receipted.1.2.
Definition rolled_back := cluster_does (ChooseRollback claim_a a_binding token_a issue_a vm_a None) anchored_late.1.2.

(** A rollback without a receipt, of a VM that already has one, leaves a fence that no operation can
    read: its write is applied, it reports an error, and the controller cannot go on. *)
Theorem rollback_contradicts_receipt :
  receipted.1.1 = Some None
  /\ option_map is_err anchored_late.1.1 = Some false
  /\ result_map (fun r => (cf_CleanupVMUUID r, cf_CreatedVMUUID r)) (decodeCreateFence (fence_text anchored_late.1.2)) = Ok (vm_a, vm_a)
  /\ option_map is_err rolled_back.1.1 = Some true
  /\ is_err (decodeCreateFence (fence_text rolled_back.1.2)) = true
  /\ option_map (fun r => is_nil r.2) (cluster_does (Reconcile (head_claim rolled_back.1.2)) rolled_back.1.2).1.1 = Some false.
Proof. vm_compute. by split_and!. Qed.

(** ** A cleanup whose callbacks write *)

Definition anchored := cluster_does (RecordCreatedVM claim_a a_binding token_a issue_a vm_a) authorized.1.2.
Definition rollback := cluster_does (ChooseRollback claim_a a_binding token_a issue_a vm_a None) anchored.1.2.
Definition assignment_in (k : cluster) : string * string :=
  match cf_BaseFirewallAssignment (record_in k) with Some a => (ba_Phase a, ba_IssueID a) | None => (EmptyString, EmptyString) end.
(** The adapter observes the base firewall of the VM that it finds, through the callback, and answers
    with the VM's receipt. *)
Definition callback_step (x : pact) : cluster -> pres x * cluster :=
  match x as x return cluster -> pres x * cluster with
  | CleanupFencedCreate _ => fun k =>
      let o := cluster_does (ObserveBaseFirewall ns (head_claim k) a_binding token_a vm_a (assignment_in k).2) k in
      ((Build_FencedCreateCleanupResult (Some found_a) false, None, match o.1.1 with Some (c, None) => c | _ => None end), o.1.2)
  | x => cluster_step x
  end.
Definition reconciled := run_hist callback_step (Reconcile (head_claim rollback.1.2)) rollback.1.2 [].
Definition before_last (k : cluster) : cluster := Build_cluster (tail (k_versions k)) (k_ticks k).

(** Reconcile writes the receipt into the record that it had decoded before the cleanup, onto the
    NodeClaim that the callback left: the observation of the base firewall, which was stored in
    between, is overwritten by the earlier issue, and the optimistic lock does not object. *)
Theorem reconcile_loses_observation :
  reconciled.1.1 = Some (requeue, None)
  /\ (assignment_in rollback.1.2).1 = FirewallAssignmentIssued
  /\ (assignment_in (before_last reconciled.1.2)).1 = FirewallAssignmentObserved
  /\ (assignment_in reconciled.1.2).1 = FirewallAssignmentIssued
  /\ cf_CleanupVMUUID (record_in reconciled.1.2) = vm_a.
Proof. vm_compute. by split_and!. Qed.
