(* ===== verification/CSIFindings.v ===== *)
(** * Races the fence protocol leaves open

    Two executions of the readback against the reference cloud, with one other controller that uses
    the store's own operations. *)

From S2P Require Import Prelude GoErrors ClientTypes ClientErrors CSIFence CSIDetachAuthority Prog CSIAdapter CSIRecovery CSIVolumes.
From S2P Require Import CSIReadback CSIWorld KubernetesFence.

Definition delete_fence (observation : string) : mutationFence :=
  Build_mutationFence (diskAttachmentFenceKey "bkk" disk1)
    (print_json (marshal (diskDeleteIntent adapter "bkk" disk1))) "00112233445566778899aabbccddeeff" "" observation.

(** Two absences, thirty seconds apart. *)
Definition two_absences : string :=
  print_json (marshal (Build_mutationObservation diskDeleteAbsenceObservationKind 2
    (format_time 1000000000000) (format_time 1030000000000))).

Definition with_fence (f : mutationFence) (now : Z) : world :=
  Build_world [] [make_vm vm1 []] (Build_Network vpc "vpc" "" 0 "" "" false (Some [vm1]) 0 "" "")
    {[Key f := f]} now 0 [].

(** Another controller saw the disk again and cleared the observations just before this one writes
    its third. *)
Definition reset_first (x : act) : world -> res x * world :=
  match x as x return world -> res x * world with
  | FenceSetObservation ctx f o => fun w =>
      let current := delete_fence two_absences in
      world_step (FenceSetObservation ctx f o) (set_fences w (MemoryStore.SetObservation (w_fences w) current "").2)
  | x => world_step x
  end.

(** Another controller completed the fence just before this one writes its third observation. *)
Definition complete_first (x : act) : world -> res x * world :=
  match x as x return world -> res x * world with
  | FenceSetObservation ctx f o => fun w =>
      world_step (FenceSetObservation ctx f o) (set_fences w (MemoryStore.Delete (w_fences w) (delete_fence two_absences)).2)
  | x => world_step x
  end.

Definition readback_ctx : context := Build_context (Some 2000000000000) true.

(** The store behind the adapter in a cluster: an incomplete fence is rejected. *)
Definition validating (step : forall x, world -> res x * world) (x : act) : world -> res x * world :=
  match x as x return world -> res x * world with
  | FenceDelete ctx f => fun w =>
      match validateMutationFence f with Some e => (Some e, w) | None => step (FenceDelete ctx f) w end
  | x => step x
  end.

Definition race : option (result mutationFence) * world * history :=
  run_hist reset_first (waitForDiskAbsent enough_fuel adapter readback_ctx "bkk" disk1 (delete_fence two_absences))
    (with_fence (delete_fence two_absences) 1060000000000) [].

(** WaitForDiskAbsent can return a fence whose observations were just cleared. When its third
    observation loses to a controller that saw the disk again and reset the count, the re-read
    fence, with no absence on record, is returned as proven, and the store lets it be deleted. *)
Theorem absence_reset_race :
  exec (waitForDiskAbsent enough_fuel adapter readback_ctx "bkk" disk1 (delete_fence two_absences)) [] race.1.1 race.2
  /\ race.1.1 = Some (Ok (delete_fence ""))
  /\ w_fences race.1.2 !! Key (delete_fence "") = Some (delete_fence "")
  /\ (MemoryStore.Delete (w_fences race.1.2) (delete_fence "")).1 = None.
Proof. split; [apply run_hist_exec|]. vm_compute. split_and!; reflexivity. Qed.

(** When another controller completes the delete fence during DeleteVolume's readback, the
    method tries to delete the empty fence, which the Lease store rejects as incomplete: the call
    fails as unavailable although the disk is gone and no fence is left. *)
Theorem completed_elsewhere_fails :
  let '(r, w, h) := run_hist (validating complete_first) (DeleteVolume enough_fuel adapter request "bkk" disk1)
    (with_fence (delete_fence two_absences) 1060000000000) [] in
  r = Some (Some (wrapS ErrUnavailable "complete disk-delete fence after absence proof")) /\ w_disks w = [] /\ w_fences w = ∅
  /\ exists ctx e older, h = Ev (FenceDelete ctx zero_fence) (Some e) :: older.
Proof. vm_compute. split_and!; [reflexivity..|]. do 3 eexists. reflexivity. Qed.
